(* ===== verification/_CoqProject ===== *)
-Q . S2P
Prelude.v
Buf.v
Bitset.v
Request.v
Rdma.v
Message.v
DBType.v
Records.v
Uring.v
Example.v
Pmr.v
PmrOps.v
PmrSystem.v
PmrExample.v
PmrInv.v
PmrSteps.v
PmrRefine.v
PmrCalls.v
PMem.v
RingLog.v
Group.v
GroupQueue.v
GroupOps.v
GroupInv.v
GroupRefine.v
GroupTheorems.v
GroupLive.v
Generator.v
Socket.v
Setup.v
Front.v
Tests.v
Bench.v
Coding.v
DbFormat.v
Status.v
WriteBatch.v
SkipList.v
SkipListSpec.v
MemTable.v
LevelStore.v
Crc32c.v
Log.v
LogSpec.v
Recovery.v
Bloom.v
FilterBlock.v
Block.v
BlockSpec.v
Format.v
TableBuilder.v
Table.v
TableSpec.v
TableTheorems.v
VersionEdit.v
Version.v
VersionSpec.v
VersionLevels.v
Env.v
Filename.v
TableCache.v
Builder.v
VersionSet.v
VersionSetSpec.v
Manifest.v
DBFiles.v
DBSpec.v
DBFlush.v
DBTheorems.v
Compaction.v
CompactionSpec.v
DBCompaction.v
CompactionPick.v
DBCompactionSpec.v
DBCompactionTheorems.v
