(* ===== verification/Prelude.v ===== *)
(** * PMRAccess: a verification development

    PMRAccess (src/) is a key-value server whose clients store records with
    one-sided RDMA writes.  Three front ends offer the same calls ([SendPut],
    [SendGet], [SendUpdate], [SendDelete], [SendClose]) with three ways to make
    a record persistent; behind them is a database, leveldb or a cuckoo hash
    table.  This development translates the code into executable Rocq
    functions and step relations and proves what makes each part correct.

    ** How the program hangs together

    A client and the clerk thread the server started for it share a pair of
    registered memory regions.  A call writes a request behind a header word
    of the clerk's region, then the word; the clerk spins on the word, answers
    the same way, and the client spins on its own.  (Message, Rdma)

    - PMR (src/frontend/pmr): the record itself goes with a one-sided write to
      a 32 KiB chunk of the server's messaging buffer; the message carries the
      metadata.  The clerk indexes the record and answers at once; a full chunk
      is stored in the database, queued for the log thread (io_uring), and
      freed when its write completes.
    - pmem (src/frontend/pmem): the record also goes to the client's own ring
      of persistent memory; the clerk stores it before it answers.
    - group (src/frontend/group): clerks queue up under a mutex, the first one
      leads, stores and logs a batch for all of them, and marks them done.

    ** The files, in dependency order

    Shared: Prelude (outcomes, machine integers, bytes, tactics), Buf (bounded
    memory regions).

    Messages and network: Request (frontend/request.h, cs.h: bit fields and
    constants), Rdma (rdmautil.h, rdmautil.cc: set-up, certificate exchange,
    queue pair states, posts, polling, over the classes [Verbs] and [Nic]),
    Message (building and taking messages), Socket (socketutil: over the class
    [Os] of system calls), Records (records one behind the other).

    Back ends: DBType (database/db.h: [Meta], [LevelDB], [CuckooDB]; the class
    [DBType] is the abstract class of that name, [DBTypeOk] its contract, and
    [LevelDBStore], [CuckooMap] the interfaces of the two libraries).

    PMR front end: Bitset (atomicbitset.h), Uring (uring.h), Pmr (pmr.cc,
    client.h, server.h: every call, handler and the log thread), PmrOps (what each
    does), PmrSystem (all clients, clerks and the log
    thread as one step relation, and the specification, a map in two layers),
    PmrInv and PmrSteps (the invariant and its preservation), PmrRefine and
    PmrCalls (the theorems), PmrExample (a system to run).

    pmem front end: PMem.  Group front end: RingLog (ringlog.h), Group
    (group.cc, mutex.h: the clerks' code cut where other threads can run),
    GroupQueue (the queue and its batch), GroupOps (the specification, and each
    statement), GroupInv, GroupRefine, GroupTheorems, GroupLive.

    Around them: Generator (generator.h), Setup (flags.h, instance.h,
    server.cc, constructors, [Listen] loops), Front (the class [Client] of
    cs.h as an interface), Tests (test.cc), Bench (benchmark.cc).

    leveldb, writes and the log: Coding (util/coding), DbFormat (slice.h,
    util/comparator.cc, db/dbformat), Status (status.h), WriteBatch
    (db/write_batch), SkipList and SkipListSpec (db/skiplist.h, util/random.h),
    MemTable (db/memtable), LevelStore (db/db_impl.cc: [Get], [Write],
    [BuildBatchGroup], [MakeRoomForWrite]), Crc32c (util/crc32c), Log and
    LogSpec (db/log_writer, db/log_reader), Recovery (db/db_impl.cc:
    [RecoverLogFile]).

    leveldb, tables: Bloom (util/hash, util/bloom; a filter policy is a class),
    FilterBlock (table/filter_block), Block and BlockSpec (table/block_builder,
    table/block), Format (table/format, port/port_stdcxx.h), TableBuilder
    (table/table_builder), Table (table/table; a cache is a class), TableSpec
    and TableTheorems.

    leveldb, files and versions: Env (env.h, util/env.cc: the class of files and
    directories), Filename (db/filename, util/logging), VersionEdit
    (db/version_edit), Version, VersionSpec and VersionLevels
    (db/version_set.cc: [Version]), TableCache
    (db/table_cache), Builder (db/builder, the memtable's iterator), VersionSet,
    VersionSetSpec and Manifest (db/version_set.cc: [VersionSet] and its
    [Builder]).

    leveldb, the database on its files: DBFiles (db/db_impl.cc: [NewDB], [Get],
    [RemoveObsoleteFiles], [WriteLevel0Table], [CompactMemTable]), DBSpec (what
    such a database holds), DBFlush (removing files, compacting the memtable),
    DBTheorems.

    leveldb, compactions of levels: Compaction (db/version_set.cc: the choice of
    the files, [Compaction]), CompactionSpec (which entries a compaction drops, as a
    rule on a list; a version before and after), CompactionPick (what is chosen),
    DBCompaction (db/db_impl.cc: [BackgroundCompaction], [DoCompactionWork]),
    DBCompactionSpec (the run of it and its results), DBCompactionTheorems.

    ** How code becomes definitions

    - A definition has the name of the function, method or type it translates
      and lies in the file of its component; loops are fixpoints, named after
      their function with [_loop], on the data or on a number of iterations.
    - Code that can fail returns an [outcome]: [Done], [Undefined] (a memory
      access out of bounds, an index out of range), [Asserted], [Thrown],
      [Exited], or [Hangs] (waits for something that will not come).
    - Memory is [buf]: a size and bytes.  Structures are written to and read
      from it byte by byte, little endian, with the bit fields of the source.
    - Integers are [Z]; every conversion and sum whose width matters goes
      through [u8], [u16], [u32], [u64] or [i32].
    - Concurrency is a step relation, one shared access or critical section a
      step: [Bitset.blindset_step], [PmrSystem.step], [RingLog.write_step],
      [Group.step].  The two sides of a call take the posts of a connection in
      order, which is what a reliable connection promises.
    - What is outside the repository (verbs, system calls, libcuckoo as its
      users see it, files) is a type class or an argument; its laws are the
      documented behaviour, and every theorem with such a law has a witness
      with a concrete instance (Example).

    ** What the theorems show

    - PMR: any interleaving refines a map in two layers ([pmr_refines_map]) with
      no failure ([pmr_no_failure]), exclusive chunks, a complete log, and
      reads of the latest value when a key has one writer; whole calls are
      specified in PmrCalls, the unflushed [DELETE] included.
    - Bitset: exclusive allocation under interleaving, bit-level behaviour.
    - pmem, group: refinement of a map; for group also mutual exclusion, no
      lost wake-up, log before answer, log replay, and termination of calls.
    - RingLog: exact bounds and overflow, disjoint regions of the writers.
    - Rdma, Request, WriteBatch: round trips; Rdma also connection set-up.
    - DBType, LevelStore: the back ends are maps; SkipListSpec: the skip list is
      a sorted list, whatever heights are drawn.
    - Crc32c: the table-driven checksum is the bitwise one.  LogSpec: of a log
      that a crash cut anywhere, exactly the whole records are read.  Recovery
      composes the write path, the log and the memtables: after a crash the
      database is that of the first writes, none that reached the file lost.
    - BlockSpec, TableTheorems: a block and a table are the sorted list they
      were built of, through prefix compression, restarts, filters, checksums
      and the block cache.
    - VersionEdit, Filename: round trips.  Manifest, DBTheorems: an edit that
      was logged is there when the manifest is read again; a new database is
      the empty one.
    - DBTheorems: [Get] gives the newest entry of the memtables and the tables
      of the current version; compacting the memtable keeps every read, writes
      the version to the manifest and removes what is no longer used.
      DBFlush: removing obsolete files removes no file in use.
    - DBCompactionTheorems: a compaction of levels, from the choice of its files
      (with the boundary files) through the entries dropped, the new tables and
      the manifest to the removal of the old files, keeps every read from the
      oldest snapshot on.  The theorem asks that no input of the next level ends
      with the key that the next file starts with ([no_split]): the code does not
      see to that, and then a deleted key can come back.
    - Tests, Bench: the repository's own tests pass on every front end that is
      a map, and the benchmark stores what its files say.

    ** Bounds and fuel

    [Bitset.blindset] has a bound on its passes; one pass is enough to find a
    clear bit (no bit means [Hangs], waiting for the log thread).  The searches
    of the skip list have [search_fuel], the number of nodes and levels, and
    [skiplist_is_sorted_list] shows that they return within it.  The polling
    loops are functions of the list of events; [poll_one_completion_returns]
    and [group_calls_return] state termination.  The theorems on LevelStore
    ask for fewer than [2^31] operations in a group and [2^56] in all, the
    widths of the count and of the sequence number.  [AddRecord] has two rounds
    for each byte, [ReadPhysicalRecord] two rounds, and the reader's loops one
    round for each byte of the file; LogSpec shows that they end before.
    The loops over a block have its length or its number of restarts, those of
    the filter block its index, [FindFile] the number of files,
    [GetOverlappingInputs] twice the number of files and one more (a restart
    widens the range by a file), [PickLevelForMemTableOutput] two levels,
    [DecodeFrom] of an edit its bytes: the lemmas show that these are enough.
    [ReadFileToString], [BuildTable] and [Recover] take their fuel as an
    argument, and the theorems say how much suffices.  An open table has a
    64-bit number in the cache; the theorems on reads ask that the numbers do
    not run out.

    ** Not modelled

    - Time: latencies of the benchmark, [usleep], statistics of leveldb.
    - include/cmdline.h (third-party option parser; Setup starts from the
      options), the DMABUF variant (needs the patched kernel), the scripts.
    - libcuckoo and concurrentqueue.h: third-party containers, used through the
      interface [CuckooMap] and as a list.
    - leveldb: the score that says which level to compact (floating point; it is an
      argument of [PickCompaction]), the iterators over a whole database, snapshots
      as objects (the oldest one is an argument), a theorem on the move of a file to
      the next level, the
      implementation of the caches and of the environments (classes with
      laws), statistics and the information log.  DBFiles runs one thread at a
      time; LevelStore and Recovery keep the table files as a parameter.
    - Memory that is never freed, and a client or an adapter that fails in the
      middle of a call. *)

From Stdlib Require Export ZArith Lia Bool.
From Stdlib.Strings Require Import Byte.
From stdpp Require Export base tactics option list list_numbers gmap strings functions.

#[global] Open Scope Z_scope.

(** ** Tactics and hints shared by every component *)

Create HintDb pmr.
Create Rewrite HintDb blen.

(** Case analysis on the boolean tests of the source (comparisons of
    integers), leaving arithmetic hypotheses. *)
Ltac zcases :=
  repeat match goal with
  | |- context [Z.ltb ?a ?b] => destruct (Z.ltb_spec a b)
  | |- context [Z.leb ?a ?b] => destruct (Z.leb_spec a b)
  | |- context [Z.eqb ?a ?b] => destruct (Z.eqb_spec a b)
  | H : context [Z.ltb ?a ?b] |- _ => destruct (Z.ltb_spec a b)
  | H : context [Z.leb ?a ?b] |- _ => destruct (Z.leb_spec a b)
  | H : context [Z.eqb ?a ?b] |- _ => destruct (Z.eqb_spec a b)
  end.

(** Rewrites a boolean comparison to its known value, when arithmetic
    decides it. *)
Ltac zdecide :=
  repeat match goal with
  | |- context [Z.ltb ?a ?b] =>
      first [ replace (Z.ltb a b) with true by (symmetry; apply Z.ltb_lt; lia)
            | replace (Z.ltb a b) with false by (symmetry; apply Z.ltb_ge; lia) ]
  | |- context [Z.leb ?a ?b] =>
      first [ replace (Z.leb a b) with true by (symmetry; apply Z.leb_le; lia)
            | replace (Z.leb a b) with false by (symmetry; apply Z.leb_gt; lia) ]
  | |- context [Z.eqb ?a ?b] =>
      first [ replace (Z.eqb a b) with true by (symmetry; apply Z.eqb_eq; lia)
            | replace (Z.eqb a b) with false by (symmetry; apply Z.eqb_neq; lia) ]
  end; simpl andb; simpl orb; simpl negb.

(** ** Machine integers: [Z] with the wrap-around of the C types *)

Definition u8 (z : Z) : Z := z mod 2 ^ 8.
Definition u16 (z : Z) : Z := z mod 2 ^ 16.
Definition u24 (z : Z) : Z := z mod 2 ^ 24.
Definition u31 (z : Z) : Z := z mod 2 ^ 31.
Definition u32 (z : Z) : Z := z mod 2 ^ 32.
Definition u64 (z : Z) : Z := z mod 2 ^ 64.
(** conversion to a signed [int] (two's complement) *)
Definition i32 (z : Z) : Z := (z + 2 ^ 31) mod 2 ^ 32 - 2 ^ 31.
Definition UINT32_MAX : Z := 2 ^ 32 - 1.

(** powers of two as numerals, everywhere *)
Ltac pows :=
  change (2 ^ 8) with 256 in *; change (2 ^ 16) with 65536 in *;
  change (2 ^ 24) with 16777216 in *; change (2 ^ 31) with 2147483648 in *;
  change (2 ^ 32) with 4294967296 in *;
  change (2 ^ 64) with 18446744073709551616 in *.

Ltac unfold_int := unfold u8, u16, u24, u31, u32, u64, i32, UINT32_MAX in *; pows.

(** Arithmetic modulo a power of two that does not wrap: every [_ mod _] whose
    argument is known to be in range disappears. *)
Ltac wrap_small :=
  unfold_int;
  repeat match goal with
  | |- context [Z.modulo ?a ?b] => rewrite (Z.mod_small a b) by lia
  end.

Lemma u16_small z : 0 <= z < 65536 -> u16 z = z.
Proof. intros; unfold u16; apply Z.mod_small; lia. Qed.
Lemma u24_small z : 0 <= z < 16777216 -> u24 z = z.
Proof. intros; unfold u24; apply Z.mod_small; lia. Qed.
Lemma u31_small z : 0 <= z < 2147483648 -> u31 z = z.
Proof. intros; unfold u31; apply Z.mod_small; lia. Qed.
Lemma u32_small z : 0 <= z < 4294967296 -> u32 z = z.
Proof. intros; unfold u32; apply Z.mod_small; lia. Qed.
Lemma u64_small z : 0 <= z < 18446744073709551616 -> u64 z = z.
Proof. intros; unfold u64; apply Z.mod_small; lia. Qed.
Lemma u16_range z : 0 <= u16 z < 65536.
Proof. apply Z.mod_pos_bound; lia. Qed.
Lemma u32_range z : 0 <= u32 z < 4294967296.
Proof. apply Z.mod_pos_bound; lia. Qed.
Lemma u64_range z : 0 <= u64 z < 18446744073709551616.
Proof. apply Z.mod_pos_bound; lia. Qed.

#[export] Hint Resolve u16_range u32_range u64_range : pmr.

(** ** Bytes *)

Abbreviation byte := Init.Byte.byte.
Abbreviation bytes := (list Init.Byte.byte).

Definition b2z (b : byte) : Z := Z.of_N (Byte.to_N b).
(** conversion of an integer to [uint8_t] *)
Definition z2b (z : Z) : byte := default x00 (Byte.of_N (Z.to_N (z mod 256))).

Definition blen (bs : bytes) : Z := Z.of_nat (length bs).

#[export] Instance byte_eq_dec : EqDecision byte := Byte.byte_eq_dec.

Lemma b2z_range b : 0 <= b2z b < 256.
Proof.
  unfold b2z. pose proof (Byte.to_N_bounded b). lia.
Qed.

Lemma z2b_b2z b : z2b (b2z b) = b.
Proof.
  unfold z2b. rewrite (Z.mod_small _ _ (b2z_range b)). unfold b2z.
  rewrite N2Z.id, Byte.of_to_N. done.
Qed.

Lemma b2z_z2b z : b2z (z2b z) = z mod 256.
Proof.
  unfold z2b, b2z. pose proof (Z.mod_pos_bound z 256 ltac:(lia)) as Hb.
  destruct (Byte.of_N (Z.to_N (z mod 256))) as [b|] eqn:E; simpl.
  - apply Byte.to_of_N in E. rewrite E, Z2N.id by lia. done.
  - apply Byte.of_N_None_iff in E. lia.
Qed.

Lemma b2z_inj a b : b2z a = b2z b -> a = b.
Proof. intros H. rewrite <- (z2b_b2z a), <- (z2b_b2z b), H. done. Qed.

#[export] Instance byte_countable : Countable byte.
Proof. exact (inj_countable' b2z z2b z2b_b2z). Defined.

Lemma blen_nonneg bs : 0 <= blen bs.
Proof. unfold blen; lia. Qed.
Lemma blen_app a b : blen (a ++ b) = blen a + blen b.
Proof. unfold blen. rewrite length_app. lia. Qed.
Lemma blen_cons x b : blen (x :: b) = 1 + blen b.
Proof. unfold blen. simpl length. lia. Qed.
Lemma blen_nil : blen [] = 0.
Proof. done. Qed.
Lemma blen_to_nat bs : Z.to_nat (blen bs) = length bs.
Proof. unfold blen. lia. Qed.

#[export] Hint Resolve blen_nonneg b2z_range : pmr.
#[export] Hint Rewrite blen_app blen_cons blen_nil : blen.

(** The ASCII text of a Rocq string literal, as the bytes of a C string. *)
Definition text (s : string) : bytes := String.list_byte_of_string s.

(** *** Little-endian and big-endian integers *)

Fixpoint le_bytes (n : nat) (z : Z) : bytes :=
  match n with
  | O => []
  | S n' => z2b z :: le_bytes n' (z / 256)
  end.

Fixpoint le_val (bs : bytes) : Z :=
  match bs with
  | [] => 0
  | b :: bs' => b2z b + 256 * le_val bs'
  end.

Definition be_bytes (n : nat) (z : Z) : bytes := rev (le_bytes n z).
Definition be_val (bs : bytes) : Z := le_val (rev bs).

Lemma length_le_bytes n z : length (le_bytes n z) = n.
Proof. revert z; induction n; intros; simpl; [done|]. by rewrite IHn. Qed.

Lemma blen_le_bytes n z : blen (le_bytes n z) = Z.of_nat n.
Proof. unfold blen. by rewrite length_le_bytes. Qed.

Lemma le_val_le_bytes n z : le_val (le_bytes n z) = z mod 256 ^ Z.of_nat n.
Proof.
  revert z; induction n as [|n IH]; intros z; simpl le_bytes; simpl le_val.
  - by rewrite Z.mod_1_r.
  - rewrite b2z_z2b, IH.
    replace (Z.of_nat (S n)) with (1 + Z.of_nat n) by lia.
    rewrite Z.pow_add_r by lia.
    rewrite Z.rem_mul_r by lia. rewrite Z.pow_1_r. done.
Qed.

Lemma le_val_range bs : 0 <= le_val bs < 256 ^ blen bs.
Proof.
  induction bs as [|b bs IH]; simpl le_val; [rewrite blen_nil; lia|].
  rewrite blen_cons, Z.pow_add_r by (unfold blen; lia).
  change (256 ^ 1) with 256. pose proof (b2z_range b). lia.
Qed.

Lemma le_bytes_le_val bs : le_bytes (length bs) (le_val bs) = bs.
Proof.
  induction bs as [|b bs IH]; [done|]. simpl.
  pose proof (b2z_range b).
  replace ((b2z b + 256 * le_val bs) / 256) with (le_val bs)
    by (rewrite Z.mul_comm, Z.div_add, Z.div_small by lia; lia).
  rewrite IH. f_equal. apply b2z_inj. rewrite b2z_z2b.
  rewrite Z.mul_comm, Z.mod_add, Z.mod_small by lia. done.
Qed.

Lemma length_be_bytes n z : length (be_bytes n z) = n.
Proof. unfold be_bytes. by rewrite length_rev, length_le_bytes. Qed.

Lemma be_val_be_bytes n z : be_val (be_bytes n z) = z mod 256 ^ Z.of_nat n.
Proof. unfold be_val, be_bytes. by rewrite rev_involutive, le_val_le_bytes. Qed.

#[export] Hint Rewrite blen_le_bytes : blen.
#[global] Arguments le_bytes : simpl never.
#[global] Arguments le_val : simpl never.

(** C strings: [strlen] counts the bytes before the first NUL (a list of bytes
    stands for a [const char *] whose terminator follows the list). *)
Fixpoint strlen (s : bytes) : Z :=
  match s with
  | [] => 0
  | b :: s' => if decide (b = x00) then 0 else 1 + strlen s'
  end.

(** a string with no NUL inside *)
Definition cstring (s : bytes) : Prop := Forall (fun b => b <> x00) s.

Lemma strlen_range s : 0 <= strlen s <= blen s.
Proof. induction s as [|b s IH]; simpl; [rewrite blen_nil; lia|]. rewrite blen_cons. case_decide; lia. Qed.

Lemma strlen_cstring s : cstring s -> strlen s = blen s.
Proof.
  induction 1 as [|b s Hb Hs IH]; [done|]. simpl. rewrite blen_cons.
  case_decide; [done|lia].
Qed.

#[export] Instance cstring_dec s : Decision (cstring s).
Proof. unfold cstring. apply _. Defined.

(** ** Outcomes of code that can stop

    [Done] is a normal return; [Exited n] a call of [exit(n)]; [Asserted] a
    failed [assert] (debug build, the default of CMakeLists.txt); [Thrown] an
    exception leaving the function; [Undefined] an access outside a buffer;
    [Hangs] a spin on a condition that nothing running can make true. *)
Inductive outcome (A : Type) : Type :=
  | Done (a : A)
  | Exited (code : Z)
  | Asserted
  | Thrown
  | Undefined
  | Hangs.
Arguments Done {A} a.
Arguments Exited {A} code.
Arguments Asserted {A}.
Arguments Thrown {A}.
Arguments Undefined {A}.
Arguments Hangs {A}.

#[export] Instance outcome_ret : MRet outcome := fun A a => Done a.
#[export] Instance outcome_bind : MBind outcome := fun A B f m =>
  match m with
  | Done a => f a
  | Exited n => Exited n
  | Asserted => Asserted
  | Thrown => Thrown
  | Undefined => Undefined
  | Hangs => Hangs
  end.

Definition c_assert (b : bool) : outcome unit := if b then Done tt else Asserted.

Lemma outcome_bind_done {A B} (f : A -> outcome B) (m : outcome A) b :
  m ≫= f = Done b <-> exists a, m = Done a /\ f a = Done b.
Proof.
  split.
  - destruct m; simpl; try discriminate. eauto.
  - intros (a & -> & H). done.
Qed.

(** One operation of a sequence, whose result is known (up to conversion). *)
Lemma bind_step {A B} (m : outcome A) (f : A -> outcome B) a r :
  m = Done a -> f a = r -> m ≫= f = r.
Proof. by intros -> <-. Qed.
Ltac step E := eapply bind_step; [exact E|cbv beta iota zeta].

(** Inverts a hypothesis saying that a sequence of operations returned. *)
Ltac inv_done :=
  repeat match goal with
  | H : _ ≫= _ = Done _ |- _ =>
      apply outcome_bind_done in H; destruct H as (? & ? & H)
  | H : Done _ = Done _ |- _ => injection H as H; subst
  | H : c_assert ?b = Done _ |- _ =>
      destruct b eqn:?; [clear H | discriminate H]
  end.

(** ** Generic lemmas on lists and options *)

Lemma take_app_exact {A} (a b : list A) : take (length a) (a ++ b) = a.
Proof. by rewrite take_app_length. Qed.

Lemma drop_app_exact {A} (a b : list A) : drop (length a) (a ++ b) = b.
Proof. by rewrite drop_app_length. Qed.

Lemma map_seq_shift {A} (f : nat -> A) s n :
  map f (seq s n) = map (fun i => f (s + i)%nat) (seq 0 n).
Proof.
  rewrite <- (map_map (fun i => (s + i)%nat) f). f_equal.
  change (map (fun i => (s + i)%nat) (seq 0 n)) with ((Nat.add s) <$> seq 0 n).
  by rewrite fmap_add_seq, Nat.add_0_r.
Qed.
