(* ===== verification/Buf.v ===== *)
(** * Buf: the bounded memory regions the program reads and writes

    A [buf] is a region obtained from [new uint8_t[size]], a registered memory
    region or a mapping: a size and the bytes at its offsets (a byte nobody
    has written yet reads as 0).  Reads and writes of the source go through
    [bread] and [bwrite], which are [Undefined] outside the region. *)

From Stdlib.Strings Require Import Byte.
From S2P Require Import Prelude.

Record buf := Buf { buf_size : Z; buf_data : gmap Z byte }.

Definition bget (b : buf) (i : Z) : byte := default x00 (buf_data b !! i).

Fixpoint peek (b : buf) (off : Z) (n : nat) : bytes :=
  match n with
  | O => []
  | S n' => bget b off :: peek b (off + 1) n'
  end.

Fixpoint store (m : gmap Z byte) (off : Z) (bs : bytes) : gmap Z byte :=
  match bs with
  | [] => m
  | x :: bs' => store (<[off := x]> m) (off + 1) bs'
  end.

Definition poke (b : buf) (off : Z) (bs : bytes) : buf :=
  Buf (buf_size b) (store (buf_data b) off bs).

Definition in_bounds (b : buf) (off len : Z) : bool :=
  (0 <=? off) && (0 <=? len) && (off + len <=? buf_size b).

Definition bread (b : buf) (off len : Z) : outcome bytes :=
  if in_bounds b off len then Done (peek b off (Z.to_nat len)) else Undefined.

Definition bwrite (b : buf) (off : Z) (bs : bytes) : outcome buf :=
  if in_bounds b off (blen bs) then Done (poke b off bs) else Undefined.

Definition new_buf (size : Z) : buf := Buf size ∅.

(** a [uint32_t] read or written in place *)
Definition bread32 (b : buf) (off : Z) : outcome Z :=
  bs ← bread b off 4; Done (le_val bs).
Definition bwrite32 (b : buf) (off v : Z) : outcome buf := bwrite b off (le_bytes 4 v).

(** ** Lemmas *)

Lemma store_lookup bs m off i :
  store m off bs !! i =
    if decide (off <= i < off + blen bs) then bs !! Z.to_nat (i - off) else m !! i.
Proof.
  revert m off; induction bs as [|x bs IH]; intros m off; simpl store.
  - rewrite blen_nil. case_decide; [lia|done].
  - rewrite IH, blen_cons. pose proof (blen_nonneg bs).
    destruct (decide (i = off)) as [->|Hne].
    + rewrite decide_False by lia. rewrite decide_True by lia.
      rewrite lookup_insert_eq. replace (off - off) with 0 by lia. done.
    + rewrite lookup_insert_ne by done.
      case_decide; case_decide; try lia; [|done].
      replace (Z.to_nat (i - off)) with (S (Z.to_nat (i - (off + 1)))) by lia.
      done.
Qed.

Lemma bget_poke b off bs i :
  bget (poke b off bs) i =
    if decide (off <= i < off + blen bs)
    then default x00 (bs !! Z.to_nat (i - off)) else bget b i.
Proof. unfold bget, poke; simpl. rewrite store_lookup. by case_decide. Qed.

Lemma bget_poke_ne b off bs i :
  ~ (off <= i < off + blen bs) -> bget (poke b off bs) i = bget b i.
Proof. intros. rewrite bget_poke. by rewrite decide_False. Qed.

Lemma length_peek b off n : length (peek b off n) = n.
Proof. revert off; induction n as [|n IH]; intros; simpl; [done|by rewrite IH]. Qed.

Lemma blen_peek b off n : blen (peek b off n) = Z.of_nat n.
Proof. unfold blen. by rewrite length_peek. Qed.

Lemma peek_ext b b' off off' n :
  (forall i, 0 <= i < Z.of_nat n -> bget b (off + i) = bget b' (off' + i)) ->
  peek b off n = peek b' off' n.
Proof.
  revert off off'; induction n as [|n IH]; intros off off' Hext; simpl; [done|].
  f_equal.
  - rewrite <- (Z.add_0_r off), <- (Z.add_0_r off'). apply Hext. lia.
  - apply IH. intros i Hi. rewrite <- !Z.add_assoc. apply Hext. lia.
Qed.

Lemma peek_app b off n m :
  peek b off (n + m) = peek b off n ++ peek b (off + Z.of_nat n) m.
Proof.
  revert off; induction n as [|n IH]; intros off; simpl.
  - by rewrite Z.add_0_r.
  - rewrite IH. do 3 f_equal. lia.
Qed.

Lemma peek_lookup b off n i :
  (i < n)%nat -> peek b off n !! i = Some (bget b (off + Z.of_nat i)).
Proof.
  revert off i; induction n as [|n IH]; intros off i Hi; [lia|].
  destruct i as [|i]; simpl; [by rewrite Z.add_0_r|].
  rewrite IH by lia. do 2 f_equal. lia.
Qed.

Lemma peek_poke_same b off bs : peek (poke b off bs) off (length bs) = bs.
Proof.
  apply list_eq_same_length with (length bs); [done|by rewrite length_peek|].
  intros i x y Hi. rewrite peek_lookup by done. intros [= <-] Hy.
  rewrite bget_poke, decide_True by (unfold blen; lia).
  replace (Z.to_nat (off + Z.of_nat i - off)) with i by lia. by rewrite Hy.
Qed.

Lemma peek_poke_disjoint b off bs off' n :
  off' + Z.of_nat n <= off \/ off + blen bs <= off' ->
  peek (poke b off bs) off' n = peek b off' n.
Proof.
  intros H. apply peek_ext. intros i Hi. apply bget_poke_ne. lia.
Qed.

(** reading inside a range that was written *)
Lemma peek_poke_inside b off a mid c n :
  length mid = n ->
  peek (poke b off (a ++ mid ++ c)) (off + blen a) n = mid.
Proof.
  intros <-. apply list_eq_same_length with (length mid); [done|by rewrite length_peek|].
  intros i x y Hi. rewrite peek_lookup by done. intros [= <-] Hy.
  rewrite bget_poke, decide_True by (autorewrite with blen; unfold blen; lia).
  replace (Z.to_nat (off + blen a + Z.of_nat i - off)) with (length a + i)%nat
    by (unfold blen; lia).
  rewrite lookup_app_r by lia. replace (length a + i - length a)%nat with i by lia.
  rewrite lookup_app_l by done. by rewrite Hy.
Qed.

Lemma buf_size_poke b off bs : buf_size (poke b off bs) = buf_size b.
Proof. done. Qed.

Lemma in_bounds_true b off len :
  in_bounds b off len = true <-> 0 <= off /\ 0 <= len /\ off + len <= buf_size b.
Proof. unfold in_bounds. rewrite !andb_true_iff, !Z.leb_le. tauto. Qed.

Lemma bread_done b off len :
  0 <= off -> 0 <= len -> off + len <= buf_size b ->
  bread b off len = Done (peek b off (Z.to_nat len)).
Proof. intros. unfold bread. by rewrite (proj2 (in_bounds_true _ _ _)). Qed.

Lemma bwrite_done b off bs :
  0 <= off -> off + blen bs <= buf_size b -> bwrite b off bs = Done (poke b off bs).
Proof.
  intros. unfold bwrite. rewrite (proj2 (in_bounds_true _ _ _)); [done|].
  pose proof (blen_nonneg bs). lia.
Qed.

Lemma bwrite_undefined b off bs : buf_size b < off + blen bs -> bwrite b off bs = Undefined.
Proof.
  intros Ho. unfold bwrite. destruct (in_bounds b off (blen bs)) eqn:E; [|done].
  apply in_bounds_true in E. lia.
Qed.

(** *** [holds b off bs]: the bytes [bs] lie at offset [off] *)

Definition holds (b : buf) (off : Z) (bs : bytes) : Prop := peek b off (length bs) = bs.

Lemma holds_peek b off bs : holds b off bs -> peek b off (length bs) = bs.
Proof. done. Qed.

Lemma holds_poke b off bs : holds (poke b off bs) off bs.
Proof. apply peek_poke_same. Qed.

Lemma holds_poke_ne b off bs off' bs' :
  off' + blen bs' <= off \/ off + blen bs <= off' ->
  holds b off' bs' -> holds (poke b off bs) off' bs'.
Proof. intros Hd. unfold holds. by rewrite peek_poke_disjoint. Qed.

Lemma holds_app b off x y : holds b off (x ++ y) <-> holds b off x /\ holds b (off + blen x) y.
Proof.
  unfold holds. rewrite length_app, peek_app. split.
  - intros E. apply app_inj_1 in E; [done|by rewrite length_peek].
  - intros [E1 E2]. rewrite E1. f_equal. exact E2.
Qed.

Lemma holds_bread b off bs :
  holds b off bs -> 0 <= off -> off + blen bs <= buf_size b -> bread b off (blen bs) = Done bs.
Proof.
  intros Hh Ho Hb. rewrite bread_done by (done || apply blen_nonneg).
  by rewrite blen_to_nat, Hh.
Qed.

Lemma holds_bread32 b off v :
  holds b off (le_bytes 4 v) -> 0 <= v < 2 ^ 32 -> 0 <= off -> off + 4 <= buf_size b ->
  bread32 b off = Done v.
Proof.
  intros Hh Hv Ho Hb. unfold bread32.
  pose proof (holds_bread b off _ Hh Ho) as Hr. rewrite blen_le_bytes in Hr. change (Z.of_nat 4) with 4 in Hr.
  rewrite (Hr Hb). cbn [mbind outcome_bind]. rewrite le_val_le_bytes. f_equal.
  by apply Z.mod_small.
Qed.

(** bytes that were held before and after a change elsewhere *)
Lemma holds_ext b b' off bs :
  (forall i, off <= i < off + blen bs -> bget b' i = bget b i) -> holds b off bs -> holds b' off bs.
Proof.
  intros He. unfold holds. intros E. rewrite <- E at 2. apply peek_ext.
  intros i Hi. apply He. unfold blen. lia.
Qed.

#[export] Hint Rewrite blen_peek buf_size_poke : blen.

#[global] Arguments peek : simpl never.
#[global] Arguments poke : simpl never.
#[global] Arguments bread : simpl never.
#[global] Arguments bwrite : simpl never.
#[global] Opaque holds.
