(* ===== verification/Bitset.v ===== *)
(** * Bitset: frontend/pmr/atomicbitset.h

    [AtomicBitset] is a vector of 64-bit blocks ([data_]) with an atomic
    read-modify-write of one block per operation; it records which chunks of
    the messaging buffer are in use.  [set], [clear], [get] and one pass of
    [blindset] are the functions of the header; [blindset_step] is the
    interleaved version, one atomic access at a time, that several clerk
    threads run on the same bitset. *)

From S2P Require Import Prelude.

Definition kBitsPerBlock : Z := 64.
Definition blockIndex (bit : Z) : Z := bit / kBitsPerBlock.
Definition bitOffset (bit : Z) : Z := bit mod kBitsPerBlock.
Definition kOne : Z := 1.

Record AtomicBitset := { _size : Z; data_ : list Z }.

Definition kNumBlocks (N : Z) : Z := (N + kBitsPerBlock - 1) / kBitsPerBlock.

(** the constructor: every block is 0 *)
Definition make_bitset (N : Z) : AtomicBitset :=
  {| _size := N; data_ := replicate (Z.to_nat (kNumBlocks N)) 0 |}.

(** [kOne << bitOffset(idx)], in 64 bits *)
Definition mask (idx : Z) : Z := u64 (Z.shiftl kOne (bitOffset idx)).

(** [data_[blockIndex(idx)]]; an index outside the vector is undefined *)
Definition block (b : AtomicBitset) (idx : Z) : outcome Z :=
  match data_ b !! Z.to_nat (blockIndex idx) with
  | Some w => Done w
  | None => Undefined
  end.

Definition with_block (b : AtomicBitset) (idx w : Z) : AtomicBitset :=
  {| _size := _size b; data_ := <[Z.to_nat (blockIndex idx) := w]> (data_ b) |}.

(** [set]: [fetch_or(mask)], returns the old bit *)
Definition set (b : AtomicBitset) (idx : Z) : outcome (AtomicBitset * bool) :=
  c_assert (idx <? _size b) ≫= fun _ =>
  old ← block b idx;
  Done (with_block b idx (Z.lor old (mask idx)),
        negb (Z.land old (mask idx) =? 0)).

(** [clear]: [fetch_and(~mask)], returns the old bit *)
Definition clear (b : AtomicBitset) (idx : Z) : outcome (AtomicBitset * bool) :=
  c_assert (idx <? _size b) ≫= fun _ =>
  old ← block b idx;
  Done (with_block b idx (Z.land old (u64 (Z.lnot (mask idx)))),
        negb (Z.land old (mask idx) =? 0)).

Definition get (b : AtomicBitset) (idx : Z) : outcome bool :=
  c_assert (idx <? _size b) ≫= fun _ =>
  w ← block b idx;
  Done (negb (Z.land w (mask idx) =? 0)).

(** the [for] loop of [blindset] from index [i], [n] indices left:
    [None] when it falls off the end and jumps to [blindset_retry] *)
Fixpoint blindset_scan (n : nat) (i : Z) (b : AtomicBitset)
    : outcome (AtomicBitset * option Z) :=
  match n with
  | O => Done (b, None)
  | S n' =>
      g ← get b i;
      if (g : bool) then blindset_scan n' (i + 1) b
      else
        '(b', old) ← set b i;
        if negb old then Done (b', Some i) else blindset_scan n' (i + 1) b'
  end.

(** [blindset] with [passes] bounding the jumps to [blindset_retry]; [None]
    when the bound is reached with no bit found *)
Fixpoint blindset (passes : nat) (b : AtomicBitset) : outcome (AtomicBitset * option Z) :=
  match passes with
  | O => Done (b, None)
  | S p =>
      '(b', found) ← blindset_scan (Z.to_nat (_size b)) 0 b;
      match found with
      | Some i => Done (b', Some i)
      | None => blindset p b'
      end
  end.

(** ** Several threads in [blindset], one atomic access at a time

    [Scan i] is about to run [get(i)] of the loop, [TrySet i] read a clear bit
    and is about to run [set(i)], [Got i] returned [i] from [blindset]. *)
Inductive blindset_pc := Idle | Scan (i : Z) | TrySet (i : Z) | Got (i : Z).

Record alloc_state := { bits : AtomicBitset; pcs : nat -> blindset_pc }.

Inductive blindset_step : alloc_state -> alloc_state -> Prop :=
  | step_call b f t :
      f t = Idle ->
      blindset_step {| bits := b; pcs := f |} {| bits := b; pcs := <[t := Scan 0]> f |}
  | step_get b f t i g :
      f t = Scan i -> i < _size b -> get b i = Done g ->
      blindset_step {| bits := b; pcs := f |}
        {| bits := b; pcs := <[t := if (g : bool) then Scan (i + 1) else TrySet i]> f |}
  | step_retry b f t i :
      f t = Scan i -> _size b <= i ->
      blindset_step {| bits := b; pcs := f |} {| bits := b; pcs := <[t := Scan 0]> f |}
  | step_set b f t i b' old :
      f t = TrySet i -> set b i = Done (b', old) ->
      blindset_step {| bits := b; pcs := f |}
        {| bits := b'; pcs := <[t := if (old : bool) then Scan (i + 1) else Got i]> f |}
  | step_free b f t i b' old :
      f t = Got i -> clear b i = Done (b', old) ->
      blindset_step {| bits := b; pcs := f |} {| bits := b'; pcs := <[t := Idle]> f |}.

Definition alloc_start (N : Z) : alloc_state :=
  {| bits := make_bitset N; pcs := fun _ => Idle |}.

(** ** Well-formedness and the abstract view: the bits *)

Definition bitset_wf (b : AtomicBitset) : Prop :=
  0 <= _size b /\ Z.of_nat (length (data_ b)) = kNumBlocks (_size b) /\
  Forall (fun w => 0 <= w < 2 ^ 64) (data_ b).

Definition bit (b : AtomicBitset) (i : Z) : bool :=
  match data_ b !! Z.to_nat (blockIndex i) with
  | Some w => Z.testbit w (bitOffset i)
  | None => false
  end.

Section bits.
Implicit Types b : AtomicBitset.

Lemma bitOffset_range i : 0 <= bitOffset i < 64.
Proof. apply Z.mod_pos_bound. unfold kBitsPerBlock; lia. Qed.

Lemma mask_pow i : mask i = 2 ^ bitOffset i.
Proof.
  unfold mask, kOne. rewrite Z.shiftl_1_l. apply Z.mod_small.
  pose proof (bitOffset_range i). split; [lia|].
  apply Z.pow_lt_mono_r; lia.
Qed.

Lemma mask_testbit i j : 0 <= j -> Z.testbit (mask i) j = bool_decide (j = bitOffset i).
Proof.
  intros Hj. rewrite mask_pow. pose proof (bitOffset_range i).
  rewrite Z.pow2_bits_eqb by lia.
  destruct (Z.eqb_spec (bitOffset i) j); case_bool_decide; lia || done.
Qed.

Lemma land_mask w i : negb (Z.land w (mask i) =? 0) = Z.testbit w (bitOffset i).
Proof.
  pose proof (bitOffset_range i) as Hr.
  destruct (Z.testbit w (bitOffset i)) eqn:E.
  - destruct (Z.eqb_spec (Z.land w (mask i)) 0) as [H0|]; [|done].
    assert (Z.testbit (Z.land w (mask i)) (bitOffset i) = false) as H1
      by (rewrite H0; apply Z.bits_0).
    rewrite Z.land_spec, mask_testbit, E, bool_decide_eq_true_2 in H1 by lia. done.
  - replace (Z.land w (mask i)) with 0; [done|]. symmetry.
    apply Z.bits_inj'. intros n Hn. rewrite Z.land_spec, Z.bits_0, mask_testbit by done.
    case_bool_decide; subst; [by rewrite E|apply andb_false_r].
Qed.

Lemma block_index_lt b i :
  bitset_wf b -> 0 <= i < _size b -> (Z.to_nat (blockIndex i) < length (data_ b))%nat.
Proof.
  intros (Hs & Hl & _) Hi. unfold kNumBlocks, blockIndex, kBitsPerBlock in *.
  apply Nat2Z.inj_lt. rewrite Hl, Z2Nat.id by (apply Z.div_pos; lia).
  apply Z.div_lt_upper_bound; [lia|].
  pose proof (Z.mod_pos_bound (_size b + 64 - 1) 64 ltac:(lia)).
  pose proof (Z.div_mod (_size b + 64 - 1) 64 ltac:(lia)). lia.
Qed.

Lemma block_done b i :
  bitset_wf b -> 0 <= i < _size b ->
  exists w, block b i = Done w /\ data_ b !! Z.to_nat (blockIndex i) = Some w /\
            bit b i = Z.testbit w (bitOffset i) /\ 0 <= w < 2 ^ 64.
Proof.
  intros Hwf Hi. destruct (lookup_lt_is_Some_2 (data_ b) (Z.to_nat (blockIndex i)))
    as [w Hw]; [by apply block_index_lt|].
  exists w. unfold block, bit. rewrite Hw. repeat split; try done;
  destruct Hwf as (_ & _ & Hf); eapply Forall_lookup_1 in Hf; eauto; simpl in *; lia.
Qed.

(** Two indices fall on the same bit of the same block only if equal. *)
Lemma index_inj i j :
  0 <= i -> 0 <= j ->
  Z.to_nat (blockIndex i) = Z.to_nat (blockIndex j) -> bitOffset i = bitOffset j -> i = j.
Proof.
  unfold blockIndex, bitOffset, kBitsPerBlock. intros Hi Hj Hb Ho.
  assert (i / 64 = j / 64) as Hd
    by (pose proof (Z.div_pos i 64); pose proof (Z.div_pos j 64); lia).
  rewrite (Z.div_mod i 64), (Z.div_mod j 64), Hd, Ho by lia. done.
Qed.

(** Replacing a block by one that differs only in the bit of [i] changes
    only that bit. *)
Lemma bit_with_block b i w w' j v :
  bitset_wf b -> 0 <= i < _size b -> 0 <= j ->
  data_ b !! Z.to_nat (blockIndex i) = Some w ->
  (forall n, 0 <= n -> Z.testbit w' n = if bool_decide (n = bitOffset i) then v else Z.testbit w n) ->
  bit (with_block b i w') j = if bool_decide (j = i) then v else bit b j.
Proof.
  intros Hwf Hi Hj Hw Hw'. unfold bit, with_block; simpl.
  pose proof (block_index_lt b i Hwf Hi) as Hlt.
  destruct (decide (Z.to_nat (blockIndex i) = Z.to_nat (blockIndex j))) as [Hb|Hb].
  - rewrite <- Hb, list_lookup_insert_eq by done. rewrite Hw' by (apply bitOffset_range).
    rewrite Hw. case_bool_decide as H1; case_bool_decide as H2; try done; exfalso.
    + apply H2. symmetry. apply index_inj; [lia..|done|]. congruence.
    + subst. done.
  - rewrite list_lookup_insert_ne by done. case_bool_decide; [|done]. subst; done.
Qed.

Lemma with_block_wf b i w :
  bitset_wf b -> 0 <= w < 2 ^ 64 -> bitset_wf (with_block b i w).
Proof.
  intros (H1 & H2 & H3) Hw. unfold bitset_wf, with_block; simpl.
  rewrite length_insert. repeat split; try done. by apply Forall_insert.
Qed.

Lemma land_range w v : 0 <= w < 2 ^ 64 -> 0 <= v -> 0 <= Z.land w v < 2 ^ 64.
Proof.
  intros Hw Hv. split; [apply Z.land_nonneg; lia|].
  destruct (Z.eq_dec (Z.land w v) 0) as [->|Hne]; [lia|].
  assert (0 <= Z.land w v) by (apply Z.land_nonneg; lia).
  apply Z.log2_lt_pow2; [lia|].
  pose proof (Z.log2_land w v ltac:(lia) ltac:(lia)).
  destruct (Z.eq_dec w 0) as [->|Hw0]; [done|].
  assert (Z.log2 w < 64) by (apply Z.log2_lt_pow2; lia). lia.
Qed.

Lemma lor_range w v : 0 <= w < 2 ^ 64 -> 0 <= v < 2 ^ 64 -> 0 <= Z.lor w v < 2 ^ 64.
Proof.
  intros Hw Hv. split; [apply Z.lor_nonneg; lia|].
  destruct (Z.eq_dec (Z.lor w v) 0) as [->|Hne]; [lia|].
  assert (0 <= Z.lor w v) by (apply Z.lor_nonneg; lia).
  apply Z.log2_lt_pow2; [lia|]. rewrite Z.log2_lor by lia.
  destruct (Z.eq_dec w 0) as [->|]; destruct (Z.eq_dec v 0) as [->|];
    try (rewrite Z.log2_nonpos by lia); 
    try (assert (Z.log2 w < 64) by (apply Z.log2_lt_pow2; lia));
    try (assert (Z.log2 v < 64) by (apply Z.log2_lt_pow2; lia)); try lia;
    change (Z.log2 0) with 0; lia.
Qed.

Lemma mask_range i : 0 <= mask i < 2 ^ 64.
Proof. apply Z.mod_pos_bound; lia. Qed.
End bits.

(** ** The operations, on the bits *)

Section ops.
Implicit Types b : AtomicBitset.

Lemma get_spec b i : bitset_wf b -> 0 <= i < _size b -> get b i = Done (bit b i).
Proof.
  intros Hwf Hi. destruct (block_done b i Hwf Hi) as (w & E & _ & Hb & _).
  unfold get, c_assert. replace (i <? _size b) with true by (symmetry; apply Z.ltb_lt; lia).
  simpl. rewrite E. simpl. by rewrite land_mask, Hb.
Qed.

Lemma set_spec b i :
  bitset_wf b -> 0 <= i < _size b ->
  exists b', set b i = Done (b', bit b i) /\ bitset_wf b' /\ _size b' = _size b /\
    forall j, 0 <= j -> bit b' j = if bool_decide (j = i) then true else bit b j.
Proof.
  intros Hwf Hi. destruct (block_done b i Hwf Hi) as (w & E & Hw & Hb & Hr).
  exists (with_block b i (Z.lor w (mask i))). split; [|split; [|split]].
  - unfold set, c_assert. replace (i <? _size b) with true by (symmetry; apply Z.ltb_lt; lia).
    simpl. rewrite E. simpl. by rewrite land_mask, Hb.
  - apply with_block_wf; [done|]. apply lor_range; [done|apply mask_range].
  - done.
  - intros j Hj. eapply bit_with_block; eauto. intros n Hn.
    rewrite Z.lor_spec, mask_testbit by done.
    case_bool_decide; [by rewrite orb_true_r|by rewrite orb_false_r].
Qed.

Lemma clear_spec b i :
  bitset_wf b -> 0 <= i < _size b ->
  exists b', clear b i = Done (b', bit b i) /\ bitset_wf b' /\ _size b' = _size b /\
    forall j, 0 <= j -> bit b' j = if bool_decide (j = i) then false else bit b j.
Proof.
  intros Hwf Hi. destruct (block_done b i Hwf Hi) as (w & E & Hw & Hb & Hr).
  exists (with_block b i (Z.land w (u64 (Z.lnot (mask i))))). split; [|split; [|split]].
  - unfold clear, c_assert. replace (i <? _size b) with true by (symmetry; apply Z.ltb_lt; lia).
    simpl. rewrite E. simpl. by rewrite land_mask, Hb.
  - apply with_block_wf; [done|]. apply land_range; [done|]. apply u64_range.
  - done.
  - intros j Hj. eapply bit_with_block; eauto. intros n Hn. unfold u64.
    rewrite Z.land_spec. destruct (decide (n < 64)) as [Hlt|Hge].
    + rewrite Z.mod_pow2_bits_low, Z.lnot_spec, mask_testbit by lia.
      case_bool_decide; [apply andb_false_r|apply andb_true_r].
    + pose proof (bitOffset_range i). rewrite bool_decide_eq_false_2 by lia.
      replace (Z.testbit w n) with false; [done|]. symmetry.
      rewrite <- (Z.mod_small w (2 ^ 64)) by done. apply Z.mod_pow2_bits_high. lia.
Qed.

Lemma make_bitset_wf N : 0 <= N -> bitset_wf (make_bitset N).
Proof.
  intros HN. unfold bitset_wf, make_bitset; simpl. split; [done|]. split.
  - rewrite length_replicate, Z2Nat.id; [done|]. apply Z.div_pos; unfold kBitsPerBlock; lia.
  - apply Forall_replicate. lia.
Qed.

Lemma make_bitset_bit N i : bit (make_bitset N) i = false.
Proof.
  unfold bit, make_bitset; simpl.
  destruct (replicate (Z.to_nat (kNumBlocks N)) 0 !! _) as [w|] eqn:E; [|done].
  apply lookup_replicate in E as [-> _]. apply Z.bits_0.
Qed.

(** the scan skips the set bits and takes the first clear one *)
Lemma blindset_scan_spec b n i k :
  bitset_wf b -> 0 <= i -> i <= k -> k < i + Z.of_nat n -> i + Z.of_nat n <= _size b ->
  bit b k = false -> (forall j, i <= j < k -> bit b j = true) ->
  exists b', blindset_scan n i b = Done (b', Some k) /\ set b k = Done (b', false).
Proof.
  intros Hwf. revert i. induction n as [|n IH]; intros i Hi Hik Hk Hn Hf Ht; [lia|].
  cbn [blindset_scan]. rewrite get_spec by (done || lia). simpl.
  destruct (decide (i = k)) as [->|Hne].
  - rewrite Hf. destruct (set_spec b k Hwf ltac:(lia)) as (b' & Hs & _ & _ & _).
    rewrite Hf in Hs. rewrite Hs. simpl. eauto.
  - rewrite Ht by lia. apply IH; try lia; done || (intros; apply Ht; lia).
Qed.

Lemma blindset_scan_full b n i :
  bitset_wf b -> 0 <= i -> i + Z.of_nat n <= _size b ->
  (forall j, i <= j < i + Z.of_nat n -> bit b j = true) ->
  blindset_scan n i b = Done (b, None).
Proof.
  intros Hwf. revert i. induction n as [|n IH]; intros i Hi Hn Ht; [done|].
  cbn [blindset_scan]. rewrite get_spec by (done || lia). simpl.
  rewrite Ht by lia. apply IH; try lia. intros; apply Ht; lia.
Qed.

(** with no clear bit, [blindset] never returns: no number of passes is
    enough *)
Lemma blindset_spins b passes :
  bitset_wf b -> (forall j, 0 <= j < _size b -> bit b j = true) ->
  blindset passes b = Done (b, None).
Proof.
  intros Hwf Ht. induction passes as [|p IH]; [done|]. cbn [blindset].
  rewrite blindset_scan_full; [done|done|lia| |].
  - destruct Hwf; lia.
  - intros j Hj. apply Ht. destruct Hwf; lia.
Qed.

(** the least clear bit below a bound, when there is one *)
Lemma least_clear b n :
  (exists i, 0 <= i < Z.of_nat n /\ bit b i = false) ->
  exists k, 0 <= k < Z.of_nat n /\ bit b k = false /\
    forall j, 0 <= j < k -> bit b j = true.
Proof.
  induction n as [|n IH]; intros (i & Hi & Hb); [lia|].
  destruct (decide (Exists (fun j => bit b (Z.of_nat j) = false) (seq 0 n))) as [HE|HE].
  - apply Exists_exists in HE as (j & Hj%in_seq & Hbj).
    destruct IH as (k & Hk & Hbk & Hall); [exists (Z.of_nat j); split; [lia|done]|].
    exists k. repeat split; try done; lia.
  - assert (Hall : forall j, 0 <= j < Z.of_nat n -> bit b j = true).
    { intros j Hj. destruct (bit b j) eqn:E; [done|]. exfalso. apply HE.
      apply Exists_exists. exists (Z.to_nat j). split; [apply in_seq; lia|].
      by rewrite Z2Nat.id by lia. }
    assert (i = Z.of_nat n) as ->.
    { destruct (decide (i < Z.of_nat n)); [|lia]. rewrite Hall in Hb; done || lia. }
    exists (Z.of_nat n). repeat split; try done; lia.
Qed.

Lemma blindset_spec b passes :
  bitset_wf b -> (exists i, 0 <= i < _size b /\ bit b i = false) ->
  exists b' k, blindset (S passes) b = Done (b', Some k) /\ 0 <= k < _size b /\
    bit b k = false /\ (forall j, 0 <= j < k -> bit b j = true) /\
    bitset_wf b' /\ _size b' = _size b /\
    forall j, 0 <= j -> bit b' j = if bool_decide (j = k) then true else bit b j.
Proof.
  intros Hwf Hex. pose proof Hwf as (Hs & _).
  destruct (least_clear b (Z.to_nat (_size b))) as (k & Hk & Hbk & Hall).
  { destruct Hex as (i & Hi & Hb). exists i. split; [lia|done]. }
  destruct (blindset_scan_spec b (Z.to_nat (_size b)) 0 k) as (b' & Hsc & Hset);
    try done; try lia.
  destruct (set_spec b k Hwf ltac:(lia)) as (b'' & Hset' & Hwf' & Hs' & Hb').
  rewrite Hset in Hset'. injection Hset' as ->.
  exists b'', k. cbn [blindset]. rewrite Hsc. simpl.
  split; [done|]. split; [done || lia|]. done.
Qed.
End ops.

(** ** Interleaved threads *)

Section interleaving.
Definition alloc_inv (s : alloc_state) : Prop :=
  bitset_wf (bits s) /\
    (forall t, match pcs s t with
             | Idle => True
             | Scan i => 0 <= i
             | TrySet i => 0 <= i < _size (bits s)
             | Got i => 0 <= i < _size (bits s) /\ bit (bits s) i = true
             end) /\
    (forall t u i, pcs s t = Got i -> pcs s u = Got i -> t = u).

Lemma alloc_inv_start N : 0 <= N -> alloc_inv (alloc_start N).
Proof. intros. split; [by apply make_bitset_wf|]. split; done. Qed.

Ltac upd_thread u t :=
  destruct (decide (t = u)) as [<-|?];
  [rewrite fn_lookup_insert|rewrite fn_lookup_insert_ne by done].

Lemma alloc_inv_step s s' : alloc_inv s -> blindset_step s s' -> alloc_inv s'.
Proof.
  intros (Hwf & Hpc & Hex) Hstep; destruct Hstep as
    [b f t Hf|b f t i g Hf Hi Hg|b f t i Hf Hi|b f t i b' old Hf Hset|b f t i b' old Hf Hclr];
    simpl in *; pose proof (Hpc t) as Ht; rewrite Hf in Ht.
  - split; [done|]. split; intros u; simpl.
    + upd_thread u t; [lia|]. apply Hpc.
    + intros v j. upd_thread u t; upd_thread v t; try done; eauto.
  - split; [done|]. split; intros u; simpl.
    + upd_thread u t; [destruct g; lia|]. apply Hpc.
    + intros v j. upd_thread u t; upd_thread v t; destruct g; try done; eauto.
  - split; [done|]. split; intros u; simpl.
    + upd_thread u t; [lia|]. apply Hpc.
    + intros v j. upd_thread u t; upd_thread v t; try done; eauto.
  - destruct (set_spec b i Hwf Ht) as (b2 & Hs & Hwf2 & Hsz & Hb).
    rewrite Hset in Hs. injection Hs as -> ->. split; [done|]. split; intros u; simpl.
    + upd_thread u t.
      * destruct (bit b i); [lia|]. rewrite Hsz, Hb by lia.
        rewrite bool_decide_eq_true_2 by done. split; [lia|done].
      * pose proof (Hpc u) as Hu. destruct (f u) as [|j|j|j]; rewrite ?Hsz; try done.
        rewrite Hb by lia. case_bool_decide; [lia|done].
    + intros v j. upd_thread u t; upd_thread v t; try done.
      * destruct (bit b i) eqn:E; [done|]. intros [= <-] Hv.
        pose proof (Hpc v) as Hv'. rewrite Hv in Hv'. destruct Hv' as [_ Hv']. congruence.
      * destruct (bit b i) eqn:E; [done|]. intros Hu [= <-].
        pose proof (Hpc u) as Hu'. rewrite Hu in Hu'. destruct Hu' as [_ Hu']. congruence.
      * eauto.
  - destruct Ht as [Hi Hbi].
    destruct (clear_spec b i Hwf Hi) as (b2 & Hs & Hwf2 & Hsz & Hb).
    rewrite Hclr in Hs. injection Hs as -> ->. split; [done|]. split; intros u; simpl.
    + upd_thread u t; [done|].
      pose proof (Hpc u) as Hu. destruct (f u) as [|j|j|j] eqn:E; rewrite ?Hsz; try done.
      rewrite Hb by lia. case_bool_decide; [|done]. subst. exfalso.
      assert (t = u) by eauto. done.
    + intros v j. upd_thread u t; upd_thread v t; try done; eauto.
Qed.

Lemma alloc_inv_reachable N s :
  0 <= N -> rtc blindset_step (alloc_start N) s -> alloc_inv s.
Proof.
  intros HN Hr. eapply (rtc_ind_r alloc_inv); [by apply alloc_inv_start| |exact Hr].
  intros; eapply alloc_inv_step; eauto.
Qed.
End interleaving.

(** ** Properties *)

(** [blindset] returns the least clear bit and sets that bit only, in its
    first pass, whenever there is a clear bit; when every bit is set no number
    of passes finds one, so the call spins until another thread clears a bit. *)
Theorem blindset_least b passes :
  bitset_wf b ->
  ((exists i, 0 <= i < _size b /\ bit b i = false) ->
   exists b' k, blindset (S passes) b = Done (b', Some k) /\ 0 <= k < _size b /\
     bit b k = false /\ (forall j, 0 <= j < k -> bit b j = true) /\
     bitset_wf b' /\ _size b' = _size b /\
     forall j, 0 <= j -> bit b' j = if bool_decide (j = k) then true else bit b j) /\
  ((forall j, 0 <= j < _size b -> bit b j = true) -> blindset passes b = Done (b, None)).
Proof. intros Hwf. split; [by apply blindset_spec|by apply blindset_spins]. Qed.

Lemma blindset_least_witness :
  exists b' k, blindset 1 (make_bitset 256) = Done (b', Some k) /\ bit b' k = true.
Proof.
  destruct (proj1 (blindset_least (make_bitset 256) 0 (make_bitset_wf 256 ltac:(lia))))
    as (b' & k & E & Hk & _ & _ & _ & _ & Hb).
  - exists 0. split; [simpl; lia|reflexivity].
  - exists b', k. split; [exact E|]. rewrite Hb by lia. by rewrite bool_decide_eq_true_2.
Defined.

(** C25: however the clerk threads interleave their atomic accesses, a slot that
    [blindset] returned to a thread is in range, its bit stays set until that
    thread clears it, and no two threads hold the same slot. *)
Theorem blindset_exclusive N s t i :
  0 <= N -> rtc blindset_step (alloc_start N) s -> pcs s t = Got i ->
  0 <= i < _size (bits s) /\ get (bits s) i = Done true /\
  forall u, pcs s u = Got i -> u = t.
Proof.
  intros HN Hr Ht. destruct (alloc_inv_reachable N s HN Hr) as (Hwf & Hpc & Hex).
  pose proof (Hpc t) as Hg. rewrite Ht in Hg. destruct Hg as [Hi Hb].
  split; [done|]. split; [|intros; by eapply Hex]. by rewrite get_spec, Hb.
Qed.

(** two threads in [blindset] on a bitset of two bits: thread 0 has slot 0 *)
Lemma blindset_exclusive_witness :
  exists s, rtc blindset_step (alloc_start 2) s /\ pcs s 0%nat = Got 0 /\ pcs s 1%nat = Scan 1 /\
    forall u, pcs s u = Got 0 -> u = 0%nat.
Proof.
  eexists. assert (Hr : rtc blindset_step (alloc_start 2)
    {| bits := {| _size := 2; data_ := [1] |};
       pcs := <[1%nat := Scan 1]> (<[0%nat := Got 0]> (<[1%nat := TrySet 0]> (<[0%nat := TrySet 0]>
         (<[1%nat := Scan 0]> (<[0%nat := Scan 0]> (fun _ => Idle)))))) |}).
  { eapply rtc_l; [by apply (step_call _ _ 0%nat)|].
    eapply rtc_l; [by apply (step_call _ _ 1%nat)|].
    eapply rtc_l; [by apply (step_get _ _ 0%nat 0 false)|].
    eapply rtc_l; [by apply (step_get _ _ 1%nat 0 false)|].
    eapply rtc_l; [by apply (step_set _ _ 0%nat 0 {| _size := 2; data_ := [1] |} false)|].
    eapply rtc_l; [by apply (step_set _ _ 1%nat 0 {| _size := 2; data_ := [1] |} true)|].
    apply rtc_refl. }
  split; [exact Hr|]. split; [reflexivity|]. split; [reflexivity|].
  exact (proj2 (proj2 (blindset_exclusive 2 _ 0%nat 0 ltac:(lia) Hr eq_refl))).
Defined.

(** [set] and [clear] return the bit as it was, make it 1 (0), and leave
    every other bit of the bitset, also of the same 64-bit block, as it was;
    none of the accesses of an index in range is out of the vector. *)
Theorem set_clear_get b i j v :
  bitset_wf b -> 0 <= i < _size b -> 0 <= j < _size b ->
  exists b', (if (v : bool) then set b i else clear b i) = Done (b', bit b i) /\
    get b i = Done (bit b i) /\ bitset_wf b' /\
    get b' j = if bool_decide (j = i) then Done v else get b j.
Proof.
  intros Hwf Hi Hj.
  assert (exists b', (if v then set b i else clear b i) = Done (b', bit b i) /\ bitset_wf b' /\
    _size b' = _size b /\ forall j, 0 <= j -> bit b' j = if bool_decide (j = i) then v else bit b j)
    as (b' & E & Hwf' & Hs & Hb) by (destruct v; [by apply set_spec|by apply clear_spec]).
  exists b'. split; [done|]. split; [by apply get_spec|]. split; [done|].
  rewrite !get_spec, Hb by (done || lia). by case_bool_decide.
Qed.

Lemma set_clear_get_witness :
  exists b', set (make_bitset 256) 70 = Done (b', false) /\ get b' 70 = Done true.
Proof.
  destruct (set_clear_get (make_bitset 256) 70 70 true (make_bitset_wf 256 ltac:(lia))
    ltac:(simpl; lia) ltac:(simpl; lia)) as (b' & E & _ & _ & Hg).
  exists b'. split; [exact E|]. exact Hg.
Defined.
