(* ===== verification/Request.v ===== *)
(** * Request: the messages of frontend/request.h and the constants of
    frontend/cs.h

    A request or a reply lies in a message buffer as 8 bytes of header
    followed by its payload.  [struct Request] packs [op : 8] and
    [key_size : 24] in the first little-endian word (the low bits first, the
    x86-64 ABI), [val_size] in the second; [struct RequestReply] holds a
    [status] word and [val_size].  The setters below store one member, the
    bits of the neighbouring bit-field kept. *)

From Stdlib.Strings Require Import Byte.
From S2P Require Import Prelude Buf.

(** frontend/cs.h *)
Definition MAX_ASYNC_SIZE : Z := 32 * 1024.
Definition CLIENT_DONE : Z := 0x7f7f7f7f.
Definition CLERK_DONE : Z := 0xf7f7f7f7.
Definition RING_HEADER : Z := 4 * 2.

(** frontend/request.h *)
Definition MAX_REQUEST : Z := 4096.

Inductive Operation := PUT | GET | UPDATE | DELETE | CLOSE | ALLOC.
Inductive RequestStatus := OK | NOTFOUND | ERROR.

#[export] Instance Operation_eq_dec : EqDecision Operation.
Proof. solve_decision. Defined.
#[export] Instance RequestStatus_eq_dec : EqDecision RequestStatus.
Proof. solve_decision. Defined.

(** the enumerators, numbered in order of declaration *)
Definition op_code (o : Operation) : Z :=
  match o with PUT => 0 | GET => 1 | UPDATE => 2 | DELETE => 3 | CLOSE => 4 | ALLOC => 5 end.
Definition op_of_code (z : Z) : option Operation :=
  match z with
  | 0 => Some PUT | 1 => Some GET | 2 => Some UPDATE | 3 => Some DELETE
  | 4 => Some CLOSE | 5 => Some ALLOC | _ => None
  end.
Definition status_code (s : RequestStatus) : Z :=
  match s with OK => 0 | NOTFOUND => 1 | ERROR => 2 end.

Definition sizeof_Request : Z := 8.
Definition sizeof_RequestReply : Z := 8.

Record Request := { op : Z; key_size : Z; val_size : Z }.

(** [Request::Length]: computed as a [size_t], returned as a [uint32_t] *)
Definition Length (r : Request) : Z := u32 (sizeof_Request + key_size r + val_size r).

(** the members of the [Request] at offset [off] *)
Definition req_op (b : buf) (off : Z) : outcome Z :=
  w ← bread32 b off; Done (w mod 2 ^ 8).
Definition req_key_size (b : buf) (off : Z) : outcome Z :=
  w ← bread32 b off; Done (w / 2 ^ 8).
Definition req_val_size (b : buf) (off : Z) : outcome Z := bread32 b (off + 4).

Definition read_request (b : buf) (off : Z) : outcome Request :=
  o ← req_op b off;
  k ← req_key_size b off;
  v ← req_val_size b off;
  Done {| op := o; key_size := k; val_size := v |}.

Definition set_op (b : buf) (off v : Z) : outcome buf :=
  w ← bread32 b off; bwrite32 b off (w / 2 ^ 8 * 2 ^ 8 + u8 v).
Definition set_key_size (b : buf) (off v : Z) : outcome buf :=
  w ← bread32 b off; bwrite32 b off (w mod 2 ^ 8 + 2 ^ 8 * u24 v).
Definition set_val_size (b : buf) (off v : Z) : outcome buf := bwrite32 b (off + 4) (u32 v).

(** the three assignments every client makes to build a request *)
Definition put_request (b : buf) (off o ks vs : Z) : outcome buf :=
  b ← set_op b off o;
  b ← set_key_size b off ks;
  set_val_size b off vs.

(** the members of the [RequestReply] at offset [off] *)
Definition reply_status (b : buf) (off : Z) : outcome Z := bread32 b off.
Definition reply_val_size (b : buf) (off : Z) : outcome Z := bread32 b (off + 4).
Definition set_status (b : buf) (off : Z) (s : RequestStatus) : outcome buf :=
  bwrite32 b off (status_code s).
Definition set_reply_val_size (b : buf) (off v : Z) : outcome buf :=
  bwrite32 b (off + 4) (u32 v).

(** the header of a request, as the 8 bytes it occupies *)
Definition request_header (o ks vs : Z) : bytes :=
  le_bytes 4 (u8 o + 2 ^ 8 * u24 ks) ++ le_bytes 4 (u32 vs).

(** ** Lemmas *)

Lemma op_of_op_code o : op_of_code (op_code o) = Some o.
Proof. by destruct o. Qed.

Lemma blen_request_header o ks vs : blen (request_header o ks vs) = 8.
Proof. unfold request_header. by rewrite blen_app, !blen_le_bytes. Qed.

#[export] Hint Rewrite blen_request_header : blen.

Lemma bread32_spec b off :
  0 <= off -> off + 4 <= buf_size b -> bread32 b off = Done (le_val (peek b off 4)).
Proof. intros. unfold bread32. by rewrite bread_done by lia. Qed.

Lemma bwrite32_spec b off v :
  0 <= off -> off + 4 <= buf_size b -> bwrite32 b off v = Done (poke b off (le_bytes 4 v)).
Proof. intros. unfold bwrite32. apply bwrite_done; rewrite ?blen_le_bytes; lia. Qed.

Lemma peek32_poke b off v :
  0 <= v < 2 ^ 32 -> le_val (peek (poke b off (le_bytes 4 v)) off 4) = v.
Proof.
  intros Hv. replace 4%nat with (length (le_bytes 4 v)) at 2 by apply length_le_bytes.
  rewrite peek_poke_same, le_val_le_bytes. by apply Z.mod_small.
Qed.

Lemma peek32_range b off : 0 <= le_val (peek b off 4) < 2 ^ 32.
Proof.
  pose proof (le_val_range (peek b off 4)) as H. by rewrite blen_peek in H.
Qed.

(** two writes to the same place: the second wins *)
Lemma store_store m off a b :
  length a = length b -> store (store m off a) off b = store m off b.
Proof.
  intros Hl. apply map_eq. intros i. rewrite !store_lookup. unfold blen. rewrite Hl.
  by repeat case_decide.
Qed.

Lemma poke_poke_same b off x y :
  length x = length y -> poke (poke b off x) off y = poke b off y.
Proof. intros. unfold poke; simpl. by rewrite store_store. Qed.

Lemma store_app m off a b : store m off (a ++ b) = store (store m off a) (off + blen a) b.
Proof.
  revert m off; induction a as [|x a IH]; intros m off; simpl.
  - by rewrite blen_nil, Z.add_0_r.
  - rewrite IH, blen_cons. f_equal. lia.
Qed.

Lemma poke_app b off x y : poke b off (x ++ y) = poke (poke b off x) (off + blen x) y.
Proof. unfold poke; simpl. by rewrite store_app. Qed.

(** [put_request] is one 8-byte write of [request_header]. *)
Lemma put_request_spec b off o ks vs :
  0 <= off -> off + 8 <= buf_size b ->
  put_request b off o ks vs = Done (poke b off (request_header o ks vs)).
Proof.
  intros Ho Hb. unfold put_request, set_op, set_key_size, set_val_size.
  rewrite bread32_spec by lia. simpl. rewrite bwrite32_spec by lia. simpl.
  rewrite bread32_spec by (simpl; lia). simpl.
  set (w := le_val (peek b off 4)). pose proof (peek32_range b off) as Hw. fold w in Hw.
  pose proof (Z.mod_pos_bound o 256 ltac:(lia)) as Hm.
  pose proof (Z.mod_pos_bound ks 16777216 ltac:(lia)) as Hk.
  assert (0 <= w / 256 < 16777216) as Hd
    by (split; [apply Z.div_pos; lia|apply Z.div_lt_upper_bound; lia]).
  rewrite peek32_poke by (unfold_int; lia).
  rewrite bwrite32_spec by (simpl; lia). simpl.
  rewrite bwrite32_spec by (simpl; lia).
  rewrite poke_poke_same by (by rewrite !length_le_bytes).
  unfold request_header. rewrite poke_app, blen_le_bytes. unfold_int. simpl Z.of_nat.
  replace ((w / 256 * 256 + o mod 256) mod 256) with (o mod 256); [done|].
  rewrite Z.add_comm, Z.mod_add, Z.mod_mod by lia. done.
Qed.

(** reading back the members of a header that lies in the buffer *)
Lemma read_request_spec b off o ks vs :
  0 <= off -> off + 8 <= buf_size b ->
  peek b off 8 = request_header o ks vs ->
  read_request b off = Done {| op := u8 o; key_size := u24 ks; val_size := u32 vs |}.
Proof.
  intros Ho Hb Hp. unfold read_request, req_op, req_key_size, req_val_size.
  rewrite !bread32_spec by lia. simpl.
  change 8%nat with (4 + 4)%nat in Hp. rewrite peek_app in Hp.
  unfold request_header in Hp. apply app_inj_1 in Hp as [H1 H2];
    [|by rewrite length_peek, length_le_bytes].
  replace (off + Z.of_nat 4) with (off + 4) in H2 by lia.
  rewrite H1, H2, !le_val_le_bytes. 
  pose proof (Z.mod_pos_bound o 256 ltac:(lia)) as Hm.
  pose proof (Z.mod_pos_bound ks 16777216 ltac:(lia)) as Hk.
  change (256 ^ Z.of_nat 4) with (2 ^ 32).
  unfold_int. rewrite Z.mod_mod by lia.
  rewrite (Z.mod_small (o mod 256 + 256 * (ks mod 16777216))) by lia.
  rewrite (Z.mul_comm 256), Z.mod_add, Z.mod_mod, Z.div_add by lia.
  rewrite (Z.div_small (o mod 256)) by lia. done.
Qed.

Lemma u8_op_code o : u8 (op_code o) = op_code o.
Proof. by destruct o. Qed.

(** ** Properties *)

(** a request header that a client assembles member by member, whatever the
    message buffer held before, is read back by the clerk with the operation,
    the key size and the value size that were stored, truncated to 8, 24 and 32
    bits; no byte outside the 8 of the header changes. *)
Theorem put_read_request b off o ks vs :
  0 <= off -> off + 8 <= buf_size b ->
  exists b', put_request b off (op_code o) ks vs = Done b' /\
    read_request b' off = Done {| op := op_code o; key_size := u24 ks; val_size := u32 vs |} /\
    op_of_code (op_code o) = Some o /\
    (forall i, i < off \/ off + 8 <= i -> bget b' i = bget b i).
Proof.
  intros Ho Hb. rewrite put_request_spec by done. eexists; split; [done|].
  split; [|split; [apply op_of_op_code|]].
  - rewrite (read_request_spec _ _ (op_code o) ks vs); [by rewrite u8_op_code|done|done|].
    change 8%nat with (length (request_header (op_code o) ks vs)) at 1. apply peek_poke_same.
  - intros i Hi. apply bget_poke_ne. rewrite blen_request_header. lia.
Qed.

Lemma put_read_request_witness :
  exists b', put_request (new_buf MAX_REQUEST) RING_HEADER (op_code UPDATE) 24 1000 = Done b' /\
    read_request b' RING_HEADER = Done {| op := 2; key_size := 24; val_size := 1000 |}.
Proof.
  destruct (put_read_request (new_buf MAX_REQUEST) RING_HEADER UPDATE 24 1000) as (b' & E & R & _);
    [vm_compute; congruence|vm_compute; congruence|].
  exists b'. split; [exact E|exact R].
Defined.
