(* ===== verification/Rdma.v ===== *)
(** * Rdma: rdmautil/rdmautil.h and rdmautil.cc

    [RDMAContext] and the operations on it: connecting (certificate exchange,
    queue pair state changes), building and posting work requests, polling.
    The verbs library and the sockets are not part of the repository: they are
    the fields of the classes [Verbs] (device set-up) and [Nic] (what a posted
    RDMA WRITE does to the memory of the peer), with the documented behaviour
    the program relies on as their laws. *)

From Stdlib.Strings Require Import Byte.
From S2P Require Import Prelude Buf.

(** ** Constants and status codes *)

Definition MAX_QP_DEPTH : Z := 8.
Definition MAX_INLINE_SIZE : Z := 128.
Definition SEND_BUF_SIZE : Z := 1 * 1024 * 1024.
Definition MAX_CQE : Z := 32.

Inductive Status :=
  | StatusOk | NoRDMADeviceList | DeviceNotFound | DeviceNotOpened | NoGID
  | CannotOpenDevice | CannotAllocPD | CannotCreateCQ | CannotRegMR
  | CannotCreateQP | CannotQueryPort | InvalidGIDIdx | InvalidIBPort
  | InvalidArguments | CannotInitQP | QPRTRFailed | QPRTSFailed | ReadError
  | WriteError | PostFailed | RecvFailed.

#[export] Instance Status_eq_dec : EqDecision Status.
Proof. solve_decision. Defined.

Definition decode_rdma_status (s : Status) : string :=
  match s with
  | StatusOk => "Ok"
  | NoRDMADeviceList => "NoRDMADeviceList"
  | DeviceNotFound => "DeviceNotFound"
  | NoGID => "NoGID"
  | CannotOpenDevice => "CannotOpenDevice"
  | CannotAllocPD => "CannotAllocPD"
  | CannotCreateCQ => "CannotCreateCQ"
  | CannotRegMR => "CannotRegMR"
  | CannotCreateQP => "CannotCreateQP"
  | CannotQueryPort => "CannotQueryPort"
  | InvalidGIDIdx => "InvalidGIDIdx"
  | InvalidIBPort => "InvalidIBPort"
  | InvalidArguments => "InvalidArguments"
  | CannotInitQP => "CannotInitQP"
  | QPRTRFailed => "QPRTRFailed"
  | QPRTSFailed => "QPRTSFailed"
  | DeviceNotOpened => "DeviceNotOpened"
  | ReadError => "ReadError"
  | WriteError => "WriteError"
  | _ => "Unknown status"
  end.

(** ** Certificates, regions and contexts *)

(** [struct connection_certificate]; [c_gid] is the 16-byte array *)
Record connection_certificate := {
  c_addr0 : Z; c_rkey0 : Z; c_length0 : Z;
  c_addr : Z; c_rkey : Z; c_length : Z;
  c_qp_num : Z; c_lid : Z; c_gid : bytes }.

Definition zero_cert : connection_certificate :=
  {| c_addr0 := 0; c_rkey0 := 0; c_length0 := 0; c_addr := 0; c_rkey := 0; c_length := 0;
     c_qp_num := 0; c_lid := 0; c_gid := replicate 16 x00 |}.

(** the members of [struct ibv_mr] the program reads *)
Record ibv_mr := { mr_addr : Z; mr_length : Z; mr_lkey : Z; mr_rkey : Z }.

Record RDMAContext := {
  ctx : Z; pd : option Z; out_cq : option Z; in_cq : option Z; qp : option Z;
  dev_ib_port : Z; dev_gid_idx : Z; (** of [device] *)
  send_mr : option ibv_mr; send_buf : option Z;
  local : connection_certificate; remote : connection_certificate;
  write_mr : option ibv_mr; write_buf : Z;
  dmabuf : bool; dmaoff : Z }.

(** [make_rdma_context]: a zeroed context *)
Definition make_rdma_context : RDMAContext :=
  {| ctx := 0; pd := None; out_cq := None; in_cq := None; qp := None;
     dev_ib_port := 0; dev_gid_idx := 0; send_mr := None; send_buf := None;
     local := zero_cert; remote := zero_cert; write_mr := None; write_buf := 0;
     dmabuf := false; dmaoff := 0 |}.

Definition get_write_buf (c : RDMAContext) : Z := write_buf c + dmaoff c.
Definition get_send_buf (c : RDMAContext) : option Z := send_buf c.

(** The resources the destructor gives back, in its order. *)
Inductive release :=
  | destroy_qp | destroy_cq (cq : Z) | dealloc_pd | dereg_mr (lkey : Z)
  | unmap_write_buf | delete_send_buf.

Definition opt_release {A} (o : option A) (f : A -> release) : list release :=
  match o with Some a => [f a] | None => [] end.

Definition destroy (c : RDMAContext) : list release :=
  opt_release (qp c) (fun _ => destroy_qp) ++
  opt_release (out_cq c) destroy_cq ++
  opt_release (in_cq c) destroy_cq ++
  opt_release (pd c) (fun _ => dealloc_pd) ++
  opt_release (send_mr c) (fun m => dereg_mr (mr_lkey m)) ++
  opt_release (write_mr c) (fun m => dereg_mr (mr_lkey m)) ++
  (if dmabuf c then [unmap_write_buf] else []) ++
  opt_release (send_buf c) (fun _ => delete_send_buf).

(** ** Memory of one side and its work requests

    A side of a connection owns two regions: [h_send], at [send_buf], and
    [h_write], at [write_buf]. *)
Record host := Host { h_send : buf; h_write : buf }.

Definition within (a len base size : Z) : bool :=
  (base <=? a) && (a + len <=? base + size).

(** [len] bytes at address [a] lie in the send buffer, or in the write buffer *)
Definition in_send (c : RDMAContext) (h : host) (a len : Z) : bool :=
  match send_buf c with
  | Some sb => within a len sb (buf_size (h_send h))
  | None => false
  end.
Definition in_write (c : RDMAContext) (h : host) (a len : Z) : bool :=
  within a len (write_buf c) (buf_size (h_write h)).

Definition mem_read (c : RDMAContext) (h : host) (a len : Z) : option bytes :=
  if in_send c h a len
  then Some (peek (h_send h) (a - default 0 (send_buf c)) (Z.to_nat len))
  else if in_write c h a len
  then Some (peek (h_write h) (a - write_buf c) (Z.to_nat len))
  else None.

(** [memcpy(address, msg, msg_len)] into one of the regions *)
Definition mem_write (c : RDMAContext) (h : host) (a : Z) (bs : bytes) : outcome host :=
  if in_send c h a (blen bs)
  then Done (Host (poke (h_send h) (a - default 0 (send_buf c)) bs) (h_write h))
  else if in_write c h a (blen bs)
  then Done (Host (h_send h) (poke (h_write h) (a - write_buf c) bs))
  else Undefined.

Inductive wr_opcode := IBV_WR_SEND | IBV_WR_RDMA_READ | IBV_WR_RDMA_WRITE | IBV_WR_ATOMIC_CMP_AND_SWP.

(** [ibv_send_wr] with its single [ibv_sge] *)
Record send_wr := {
  wr_id : Z; sg_addr : Z; sg_length : Z; sg_lkey : Z; opcode : wr_opcode;
  signaled : bool; inline : bool;
  remote_addr : Z; wr_rkey : Z; compare_add : Z; swap : Z }.

(** [ibv_recv_wr] *)
Record recv_wr := { rwr_id : Z; rsg_addr : Z; rsg_length : Z; rsg_lkey : Z }.

(** reading a member of an object through a pointer that may be null *)
Definition deref {A} (o : option A) : outcome A :=
  match o with Some a => Done a | None => Undefined end.

(** the optional copy of [msg] into the buffer, first statement of a post *)
Definition copy_msg (c : RDMAContext) (h : host) (a : Z) (msg : option bytes) (msg_len : Z)
    : outcome host :=
  match msg with
  | Some m => mem_write c h a (take (Z.to_nat msg_len) m)
  | None => Done h
  end.

(** ** Posting work requests: [post_send] ... [post_cas]

    Each returns the sender's memory (changed when [msg] is copied), the work
    request handed to [ibv_post_send], and the result. *)
Section post.
Variable ibv_post_send : send_wr -> Z.
Variable ibv_post_recv : recv_wr -> Z.

Definition posted := outcome (host * send_wr * Z).

Definition finish_post (h : host) (wr : send_wr) : posted :=
  Done (h, wr, ibv_post_send wr).

Definition post_send (c : RDMAContext) (h : host) (msg : option bytes)
    (msg_len local_offset : Z) (signal : bool) : posted :=
  sb ← deref (send_buf c);
  h ← copy_msg c h (sb + local_offset) msg msg_len;
  mr ← deref (send_mr c);
  finish_post h
    {| wr_id := 0; sg_addr := u64 (sb + local_offset); sg_length := u32 msg_len;
       sg_lkey := mr_lkey mr; opcode := IBV_WR_SEND;
       signaled := signal; inline := false;
       remote_addr := 0; wr_rkey := 0; compare_add := 0; swap := 0 |}.

Definition post_recv (c : RDMAContext) (msg_len offset : Z) : outcome (recv_wr * Z) :=
  sb ← deref (send_buf c);
  mr ← deref (send_mr c);
  let wr := {| rwr_id := 0; rsg_addr := u64 (sb + offset); rsg_length := u32 msg_len;
               rsg_lkey := mr_lkey mr |} in
  Done (wr, ibv_post_recv wr).

Definition post_read (c : RDMAContext) (h : host)
    (msg_len local_offset remote_offset : Z) (signal : bool) : posted :=
  mr ← deref (write_mr c);
  finish_post h
    {| wr_id := 0; sg_addr := u64 (write_buf c + dmaoff c + local_offset);
       sg_length := u32 msg_len; sg_lkey := mr_lkey mr; opcode := IBV_WR_RDMA_READ;
       signaled := signal; inline := false;
       remote_addr := u64 (c_addr (remote c) + remote_offset);
       wr_rkey := c_rkey (remote c); compare_add := 0; swap := 0 |}.

(** use local write_buf, write to remote write_buf *)
Definition post_write (c : RDMAContext) (h : host) (msg : option bytes)
    (msg_len local_offset remote_offset : Z) (signal : bool) : posted :=
  let address := u64 (write_buf c + dmaoff c + local_offset) in
  h ← copy_msg c h address msg msg_len;
  mr ← deref (write_mr c);
  finish_post h
    {| wr_id := 0; sg_addr := address; sg_length := u32 msg_len;
       sg_lkey := mr_lkey mr; opcode := IBV_WR_RDMA_WRITE;
       signaled := signal; inline := msg_len <=? MAX_INLINE_SIZE;
       remote_addr := u64 (c_addr (remote c) + remote_offset);
       wr_rkey := c_rkey (remote c); compare_add := 0; swap := 0 |}.

(** use local write_buf, write to remote send_buf *)
Definition post_write0 (c : RDMAContext) (h : host) (msg : option bytes)
    (msg_len local_offset remote_offset : Z) (signal : bool) : posted :=
  let address := u64 (write_buf c + dmaoff c + local_offset) in
  h ← copy_msg c h address msg msg_len;
  mr ← deref (write_mr c);
  finish_post h
    {| wr_id := 0; sg_addr := address; sg_length := u32 msg_len;
       sg_lkey := mr_lkey mr; opcode := IBV_WR_RDMA_WRITE;
       signaled := signal; inline := msg_len <=? MAX_INLINE_SIZE;
       remote_addr := u64 (c_addr0 (remote c) + remote_offset);
       wr_rkey := c_rkey0 (remote c); compare_add := 0; swap := 0 |}.

(** use local send_buf, write to remote write_buf; the local key is the one
    of the write region, as the code has it *)
Definition post_write1 (c : RDMAContext) (h : host) (msg : option bytes)
    (msg_len local_offset remote_offset : Z) (signal : bool) : posted :=
  sb ← deref (send_buf c);
  let address := u64 (sb + local_offset) in
  h ← copy_msg c h address msg msg_len;
  mr ← deref (write_mr c);
  finish_post h
    {| wr_id := 0; sg_addr := address; sg_length := u32 msg_len;
       sg_lkey := mr_lkey mr; opcode := IBV_WR_RDMA_WRITE;
       signaled := signal; inline := msg_len <=? MAX_INLINE_SIZE;
       remote_addr := u64 (c_addr (remote c) + remote_offset);
       wr_rkey := c_rkey (remote c); compare_add := 0; swap := 0 |}.

(** [compare_add] receives [new_val] and [swap] receives [old_val], as the
    code has it *)
Definition post_cas (c : RDMAContext) (h : host) (old_val new_val : Z)
    (local_offset remote_offset : Z) (signal : bool) : posted :=
  mr ← deref (write_mr c);
  finish_post h
    {| wr_id := 0; sg_addr := u64 (write_buf c + dmaoff c + local_offset);
       sg_length := 8; sg_lkey := mr_lkey mr; opcode := IBV_WR_ATOMIC_CMP_AND_SWP;
       signaled := signal; inline := false;
       remote_addr := u64 (c_addr (remote c) + remote_offset);
       wr_rkey := c_rkey (remote c); compare_add := new_val; swap := old_val |}.
End post.

(** *** Polling a completion queue: [polls n] is the result of the [n]-th call
    of [ibv_poll_cq] on the queue selected by [send] *)
Definition poll_completion_once (out_polls in_polls : nat -> Z) (send : bool) : Z :=
  (if send then out_polls else in_polls) 0%nat.

Fixpoint poll_from (fuel : nat) (polls : nat -> Z) (n : nat) : option (Z * nat) :=
  match fuel with
  | O => None
  | S f => let ret := polls n in
           if ret =? 0 then poll_from f polls (S n) else Some (ret, n)
  end.

Definition poll_one_completion (fuel : nat) (out_polls in_polls : nat -> Z) (send : bool)
    : option (Z * nat) :=
  poll_from fuel (if send then out_polls else in_polls) 0%nat.

(** ** Exchanging certificates

    [bswapN] reverses the bytes of an integer: [htonll], [htonl], [htons] and
    their inverses on a little-endian machine (rdmautil.h selects the
    [__LITTLE_ENDIAN] definitions on x86-64). *)
Definition bswap (n : nat) (x : Z) : Z := be_val (le_bytes n x).
Definition htonll : Z -> Z := bswap 8.
Definition ntohll : Z -> Z := bswap 8.
Definition htonl : Z -> Z := bswap 4.
Definition ntohl : Z -> Z := bswap 4.
Definition htons : Z -> Z := bswap 2.
Definition ntohs : Z -> Z := bswap 2.

(** the packed structure in memory, and back *)
Definition cert_bytes (c : connection_certificate) : bytes :=
  le_bytes 8 (c_addr0 c) ++ le_bytes 4 (c_rkey0 c) ++ le_bytes 4 (c_length0 c) ++
  le_bytes 8 (c_addr c) ++ le_bytes 4 (c_rkey c) ++ le_bytes 4 (c_length c) ++
  le_bytes 4 (c_qp_num c) ++ le_bytes 2 (c_lid c) ++ c_gid c.

Definition field (bs : bytes) (off n : nat) : Z := le_val (take n (drop off bs)).

Definition cert_of_bytes (bs : bytes) : connection_certificate :=
  {| c_addr0 := field bs 0 8; c_rkey0 := field bs 8 4; c_length0 := field bs 12 4;
     c_addr := field bs 16 8; c_rkey := field bs 24 4; c_length := field bs 28 4;
     c_qp_num := field bs 32 4; c_lid := field bs 36 2; c_gid := take 16 (drop 38 bs) |}.

(** [sizeof(connection_certificate)] *)
Definition normal : Z := 54.

(** the certificate with its integers in network order, and back *)
Definition cert_hton (l : connection_certificate) : connection_certificate :=
  {| c_addr0 := htonll (c_addr0 l); c_rkey0 := htonl (c_rkey0 l);
     c_length0 := htonl (c_length0 l); c_addr := htonll (c_addr l);
     c_rkey := htonl (c_rkey l); c_length := htonl (c_length l);
     c_qp_num := htonl (c_qp_num l); c_lid := htons (c_lid l); c_gid := c_gid l |}.
Definition cert_ntoh (t : connection_certificate) : connection_certificate :=
  {| c_addr0 := ntohll (c_addr0 t); c_rkey0 := ntohl (c_rkey0 t);
     c_length0 := ntohl (c_length0 t); c_addr := ntohll (c_addr t);
     c_rkey := ntohl (c_rkey t); c_length := ntohl (c_length t);
     c_qp_num := ntohl (c_qp_num t); c_lid := ntohs (c_lid t); c_gid := c_gid t |}.

Definition with_remote (c : RDMAContext) (r : connection_certificate) : RDMAContext :=
  {| ctx := ctx c; pd := pd c; out_cq := out_cq c; in_cq := in_cq c; qp := qp c;
     dev_ib_port := dev_ib_port c; dev_gid_idx := dev_gid_idx c;
     send_mr := send_mr c; send_buf := send_buf c; local := local c; remote := r;
     write_mr := write_mr c; write_buf := write_buf c;
     dmabuf := dmabuf c; dmaoff := dmaoff c |}.

Section connect.
(** the socket: [sock_write bs] is what [write(sockfd, bs)] returns,
    [sock_read] what [read] returns with the bytes it stored *)
Variable sock_write : bytes -> Z.
Variable sock_read : Z * bytes.

Definition exchange_certificate (c : RDMAContext) : RDMAContext * Status :=
  let tmp := cert_bytes (cert_hton (local c)) in
  if negb (sock_write tmp =? normal) then (c, WriteError)
  else if negb (sock_read.1 =? normal) then (c, ReadError)
  else
    (with_remote c (cert_ntoh (cert_of_bytes sock_read.2)), StatusOk).

(** *** Queue pair attributes: the members the program sets, the others 0 *)
Inductive qp_state := IBV_QPS_RESET | IBV_QPS_INIT | IBV_QPS_RTR | IBV_QPS_RTS.
Inductive access_flag := IBV_ACCESS_LOCAL_WRITE | IBV_ACCESS_REMOTE_READ | IBV_ACCESS_REMOTE_WRITE.
Inductive mtu := MTU_0 | IBV_MTU_256.

Record ah_attr := {
  is_global : bool; dlid : Z; sl : Z; src_path_bits : Z; ah_port_num : Z;
  dgid : bytes; flow_label : Z; hop_limit : Z; sgid_index : Z; traffic_class : Z }.
Definition zero_ah : ah_attr :=
  {| is_global := false; dlid := 0; sl := 0; src_path_bits := 0; ah_port_num := 0;
     dgid := replicate 16 x00; flow_label := 0; hop_limit := 0; sgid_index := 0;
     traffic_class := 0 |}.

Record qp_attr := {
  q_state : qp_state; port_num : Z; pkey_index : Z; qp_access_flags : list access_flag;
  path_mtu : mtu; dest_qp_num : Z; rq_psn : Z; max_dest_rd_atomic : Z; min_rnr_timer : Z;
  ah : ah_attr; timeout : Z; retry_cnt : Z; rnr_retry : Z; sq_psn : Z; max_rd_atomic : Z }.

Inductive qp_mask :=
  | M_STATE | M_PKEY_INDEX | M_PORT | M_ACCESS_FLAGS | M_AV | M_PATH_MTU | M_DEST_QPN
  | M_RQ_PSN | M_MAX_DEST_RD_ATOMIC | M_MIN_RNR_TIMER | M_TIMEOUT | M_RETRY_CNT
  | M_RNR_RETRY | M_SQ_PSN | M_MAX_QP_RD_ATOMIC.

Definition get_default_mr_access : list access_flag :=
  [IBV_ACCESS_LOCAL_WRITE; IBV_ACCESS_REMOTE_READ; IBV_ACCESS_REMOTE_WRITE].
Definition get_default_qp_init_state_attr_mask : list qp_mask :=
  [M_STATE; M_PKEY_INDEX; M_PORT; M_ACCESS_FLAGS].
Definition get_default_qp_rtr_attr_mask : list qp_mask :=
  [M_STATE; M_AV; M_PATH_MTU; M_DEST_QPN; M_RQ_PSN; M_MAX_DEST_RD_ATOMIC; M_MIN_RNR_TIMER].
Definition get_default_qp_rts_attr_mask : list qp_mask :=
  [M_STATE; M_TIMEOUT; M_RETRY_CNT; M_RNR_RETRY; M_SQ_PSN; M_MAX_QP_RD_ATOMIC].

Definition get_default_qp_init_state_attr (ib_port : Z) : qp_attr :=
  {| q_state := IBV_QPS_INIT; port_num := ib_port; pkey_index := 0;
     qp_access_flags := [IBV_ACCESS_LOCAL_WRITE; IBV_ACCESS_REMOTE_READ; IBV_ACCESS_REMOTE_WRITE];
     path_mtu := MTU_0; dest_qp_num := 0; rq_psn := 0; max_dest_rd_atomic := 0;
     min_rnr_timer := 0; ah := zero_ah; timeout := 0; retry_cnt := 0; rnr_retry := 0;
     sq_psn := 0; max_rd_atomic := 0 |}.

Definition get_default_qp_rtr_attr (r : connection_certificate) (ib_port sgid_idx : Z) : qp_attr :=
  let global := 0 <=? sgid_idx in
  {| q_state := IBV_QPS_RTR; port_num := 0; pkey_index := 0; qp_access_flags := [];
     path_mtu := IBV_MTU_256; dest_qp_num := c_qp_num r; rq_psn := 0;
     max_dest_rd_atomic := 1; min_rnr_timer := 0x12;
     ah := {| is_global := global; dlid := c_lid r; sl := 0; src_path_bits := 0;
              ah_port_num := if global then 1 else ib_port;
              dgid := if global then c_gid r else replicate 16 x00;
              flow_label := 0; hop_limit := if global then 1 else 0;
              sgid_index := if global then sgid_idx else 0; traffic_class := 0 |};
     timeout := 0; retry_cnt := 0; rnr_retry := 0; sq_psn := 0; max_rd_atomic := 0 |}.

Definition get_default_qp_rts_attr : qp_attr :=
  {| q_state := IBV_QPS_RTS; port_num := 0; pkey_index := 0; qp_access_flags := [];
     path_mtu := MTU_0; dest_qp_num := 0; rq_psn := 0; max_dest_rd_atomic := 0;
     min_rnr_timer := 0; ah := zero_ah; timeout := 14; retry_cnt := 7; rnr_retry := 7;
     sq_psn := 0; max_rd_atomic := 1 |}.

(** [ibv_modify_qp]: 0, or an error number *)
Variable ibv_modify_qp : qp_attr -> list qp_mask -> Z.

Definition modify_qp (a : qp_attr) (m : list qp_mask) : Status * Z :=
  let ret := ibv_modify_qp a m in
  if ret =? 0 then (StatusOk, ret) else (CannotInitQP, ret).

(** the context afterwards, the result, and the state changes requested *)
Definition default_connect (c : RDMAContext) : RDMAContext * Z * list qp_attr :=
  let (c, status) := exchange_certificate c in
  if decide (status <> StatusOk) then (c, -1, [])
  else
    let init_attr := get_default_qp_init_state_attr 1 in
    let (s1, err1) := modify_qp init_attr get_default_qp_init_state_attr_mask in
    if decide (s1 <> StatusOk) then (c, err1, [init_attr])
    else
      let rtr_attr := get_default_qp_rtr_attr (remote c) (dev_ib_port c) (dev_gid_idx c) in
      let (s2, err2) := modify_qp rtr_attr get_default_qp_rtr_attr_mask in
      if decide (s2 <> StatusOk) then (c, err2, [init_attr; rtr_attr])
      else
        let rts_attr := get_default_qp_rts_attr in
        let (s3, err3) := modify_qp rts_attr get_default_qp_rts_attr_mask in
        if decide (s3 <> StatusOk) then (c, err3, [init_attr; rtr_attr; rts_attr])
        else (c, 0, [init_attr; rtr_attr; rts_attr]).
End connect.

(** ** Setting a context up *)

(** what [ibv_create_qp] is asked for *)
Record qp_init_attr := {
  qp_type_RC : bool; sq_sig_all : Z; max_send_wr : Z; max_recv_wr : Z;
  max_send_sge : Z; max_recv_sge : Z; max_inline_data : Z; send_cq : Z; recv_cq : Z }.

Definition get_default_qp_init_attr : qp_init_attr :=
  {| qp_type_RC := true; sq_sig_all := 0; max_send_wr := MAX_QP_DEPTH;
     max_recv_wr := MAX_QP_DEPTH; max_send_sge := 1; max_recv_sge := 1;
     max_inline_data := MAX_INLINE_SIZE; send_cq := 0; recv_cq := 0 |}.

Definition with_cqs (a : qp_init_attr) (s r : Z) : qp_init_attr :=
  {| qp_type_RC := qp_type_RC a; sq_sig_all := sq_sig_all a; max_send_wr := max_send_wr a;
     max_recv_wr := max_recv_wr a; max_send_sge := max_send_sge a;
     max_recv_sge := max_recv_sge a; max_inline_data := max_inline_data a;
     send_cq := s; recv_cq := r |}.

(** The verbs used to set a context up ([None]: a null result), and the memory
    allocator.  [ibv_create_cq] is called twice: its first argument tells the
    calls apart. *)
Class Verbs := {
  ibv_alloc_pd : Z -> option Z;
  ibv_create_cq : nat -> Z -> Z -> option Z;
  ibv_reg_mr : Z -> Z -> Z -> list access_flag -> option ibv_mr;
  ibv_reg_dmabuf_mr : Z -> Z -> Z -> list access_flag -> option ibv_mr;
  ibv_create_qp : Z -> qp_init_attr -> option Z;
  ibv_query_gid : Z -> Z -> Z -> option bytes;
  ibv_query_port : Z -> Z -> option Z;
  new_bytes : Z -> Z;
  mmap_fd : Z -> Z -> Z }.

(** The documented part the program relies on: a registered region covers what
    was asked for. *)
Class VerbsOk (V : Verbs) :=
  reg_mr_ok : forall p a n acc mr,
    ibv_reg_mr p a n acc = Some mr -> mr_addr mr = a /\ mr_length mr = n.

Record RDMADevice := { dev_name : bytes; dev_ctx : Z; ib_port : Z; gid_idx : Z }.

(** [make_rdma]: [devices] is the list [ibv_get_device_list] returns, each with
    its name and the result of [ibv_open_device]. *)
Fixpoint find_device (name : bytes) (port gid : Z) (devices : list (bytes * option Z))
    : option RDMADevice :=
  match devices with
  | [] => None
  | (n, opened) :: rest =>
      if decide (n = name)
      then match opened with
           | Some c => Some {| dev_name := name; dev_ctx := c; ib_port := port; gid_idx := gid |}
           | None => find_device name port gid rest
           end
      else find_device name port gid rest
  end.

Definition make_rdma (devices : option (list (bytes * option Z))) (name : bytes) (port gid : Z)
    : option RDMADevice :=
  match devices with
  | None => None
  | Some ds => find_device name port gid ds
  end.

Section setup.
Context `{V : Verbs}.

(** [RDMADevice::open]: on an error the context is destroyed, and the third
    component lists what its destructor releases *)
Definition open (d : RDMADevice) : option RDMAContext * Status * list release :=
  let fail (c : RDMAContext) (s : Status) := (None, s, destroy c) in
  let mk p icq ocq smr sbuf q loc dv :=
    {| ctx := dev_ctx d; pd := p; out_cq := ocq; in_cq := icq; qp := q;
       dev_ib_port := if (dv : bool) then ib_port d else 0;
       dev_gid_idx := if dv then gid_idx d else 0;
       send_mr := smr; send_buf := sbuf; local := loc; remote := zero_cert;
       write_mr := None; write_buf := 0; dmabuf := false; dmaoff := 0 |} in
  match ibv_alloc_pd (dev_ctx d) with
  | None => fail (mk None None None None None None zero_cert false) CannotAllocPD
  | Some p =>
  match ibv_create_cq 0%nat (dev_ctx d) MAX_CQE with
  | None => fail (mk (Some p) None None None None None zero_cert false) CannotCreateCQ
  | Some icq =>
  match ibv_create_cq 1%nat (dev_ctx d) MAX_CQE with
  | None => fail (mk (Some p) (Some icq) None None None None zero_cert false) CannotCreateCQ
  | Some ocq =>
  let sbuf := new_bytes SEND_BUF_SIZE in
  match ibv_reg_mr p sbuf SEND_BUF_SIZE get_default_mr_access with
  | None => fail (mk (Some p) (Some icq) (Some ocq) None (Some sbuf) None zero_cert false)
                 CannotRegMR
  | Some smr =>
  let cert q g l :=
    {| c_addr0 := sbuf; c_rkey0 := mr_rkey smr; c_length0 := SEND_BUF_SIZE;
       c_addr := 0; c_rkey := 0; c_length := 0; c_qp_num := q; c_lid := l; c_gid := g |} in
  let zgid := replicate 16 x00 in
  match ibv_create_qp p (with_cqs get_default_qp_init_attr ocq icq) with
  | None => fail (mk (Some p) (Some icq) (Some ocq) (Some smr) (Some sbuf) None
                     (cert 0 zgid 0) false) CannotCreateQP
  | Some q =>
  let my_gid := if 0 <=? gid_idx d then ibv_query_gid (dev_ctx d) (ib_port d) (gid_idx d)
                else Some zgid in
  match my_gid with
  | None => fail (mk (Some p) (Some icq) (Some ocq) (Some smr) (Some sbuf) (Some q)
                     (cert 0 zgid 0) false) NoGID
  | Some g =>
  match ibv_query_port (dev_ctx d) (ib_port d) with
  | None => fail (mk (Some p) (Some icq) (Some ocq) (Some smr) (Some sbuf) (Some q)
                     (cert q g 0) false) CannotQueryPort
  | Some l =>
      (Some (mk (Some p) (Some icq) (Some ocq) (Some smr) (Some sbuf) (Some q)
                (cert q g l) true), StatusOk, [])
  end end end end end end end.

Definition with_write_region (c : RDMAContext) (mr : ibv_mr) (a : Z) (wb : Z) (dma : bool) (off : Z)
    : RDMAContext :=
  {| ctx := ctx c; pd := pd c; out_cq := out_cq c; in_cq := in_cq c; qp := qp c;
     dev_ib_port := dev_ib_port c; dev_gid_idx := dev_gid_idx c;
     send_mr := send_mr c; send_buf := send_buf c;
     local := {| c_addr0 := c_addr0 (local c); c_rkey0 := c_rkey0 (local c);
                 c_length0 := c_length0 (local c); c_addr := a; c_rkey := mr_rkey mr;
                 c_length := u32 (mr_length mr); c_qp_num := c_qp_num (local c);
                 c_lid := c_lid (local c); c_gid := c_gid (local c) |};
     remote := remote c; write_mr := Some mr; write_buf := wb; dmabuf := dma; dmaoff := off |}.

Definition without_write_mr (c : RDMAContext) : RDMAContext :=
  {| ctx := ctx c; pd := pd c; out_cq := out_cq c; in_cq := in_cq c; qp := qp c;
     dev_ib_port := dev_ib_port c; dev_gid_idx := dev_gid_idx c;
     send_mr := send_mr c; send_buf := send_buf c; local := local c; remote := remote c;
     write_mr := None; write_buf := write_buf c; dmabuf := dmabuf c; dmaoff := dmaoff c |}.

(** [register_write_buf(void * mem, int memsize)] *)
Definition register_write_buf (c : RDMAContext) (mem memsize : Z) : RDMAContext * Z :=
  match ibv_reg_mr (default 0 (pd c)) mem memsize get_default_mr_access with
  | None => (without_write_mr c, -1)
  | Some mr => (with_write_region c mr (mr_addr mr) mem false 0, 0)
  end.

(** [register_write_buf(int fd, uint64_t offset, int memsize)] *)
Definition register_write_buf_fd (c : RDMAContext) (fd offset memsize : Z) : RDMAContext * Z :=
  match ibv_reg_dmabuf_mr (default 0 (pd c)) memsize fd get_default_mr_access with
  | None => (without_write_mr c, -1)
  | Some mr =>
      (with_write_region c mr (u64 (mr_addr mr + offset)) (mmap_fd fd memsize) true offset, 0)
  end.
End setup.

(** ** What a posted RDMA WRITE does

    [local_payload]: the bytes a work request gathers, when its local address
    and key pass the protection check (no key is checked for an inline
    request).  [remote_place]: the memory of the peer once the bytes are
    stored, when remote address and key name one of its regions.  The class
    [Nic] is the adapter: a WRITE that passes both checks has that effect;
    of any other request nothing is known. *)
Definition side : Type := RDMAContext * host.

Definition mr_covers (o : option ibv_mr) (key : ibv_mr -> Z) (k a len : Z) : bool :=
  match o with
  | Some m => (k =? key m) && within a len (mr_addr m) (mr_length m)
  | None => false
  end.

Definition local_payload (L : side) (wr : send_wr) : option bytes :=
  let (c, h) := L in
  if inline wr
     || mr_covers (send_mr c) mr_lkey (sg_lkey wr) (sg_addr wr) (sg_length wr)
     || mr_covers (write_mr c) mr_lkey (sg_lkey wr) (sg_addr wr) (sg_length wr)
  then mem_read c h (sg_addr wr) (sg_length wr)
  else None.

Definition remote_place (R : side) (wr : send_wr) (bs : bytes) : option host :=
  let (c, h) := R in
  if mr_covers (send_mr c) mr_rkey (wr_rkey wr) (remote_addr wr) (blen bs)
  then m ← send_mr c; Some (Host (poke (h_send h) (remote_addr wr - mr_addr m) bs) (h_write h))
  else if mr_covers (write_mr c) mr_rkey (wr_rkey wr) (remote_addr wr) (blen bs)
  then m ← write_mr c; Some (Host (h_send h) (poke (h_write h) (remote_addr wr - mr_addr m) bs))
  else None.

Class Nic := {
  nic_write : send_wr -> side -> side -> host;
  nic_write_ok : forall wr L R bs h,
    opcode wr = IBV_WR_RDMA_WRITE ->
    local_payload L wr = Some bs -> remote_place R wr bs = Some h ->
    nic_write wr L R = h }.

(** An adapter that leaves the peer's memory alone when a check fails. *)
Definition plain_nic : Nic.
Proof.
  refine {| nic_write wr L R :=
    match local_payload L wr with
    | Some bs => default R.2 (remote_place R wr bs)
    | None => R.2
    end |}.
  intros wr L R bs h _ -> ->. reflexivity.
Defined.

(** A post followed by the delivery of its request to the peer. *)
Definition deliver `{Nic} (p : posted) (cL : RDMAContext) (R : side) : outcome host :=
  '(h, wr, _) ← p; Done (nic_write wr (cL, h) R).

(** ** Well-formed, connected contexts *)

(** The regions of a context are registered, disjoint, inside the address space
    and described by its certificate. *)
Definition ctx_wf (c : RDMAContext) (h : host) : Prop :=
  exists smr wmr sb,
    send_mr c = Some smr /\ write_mr c = Some wmr /\ send_buf c = Some sb /\ dmaoff c = 0 /\
    (mr_addr smr = sb /\ mr_length smr = buf_size (h_send h) /\
     mr_addr wmr = write_buf c /\ mr_length wmr = buf_size (h_write h)) /\
    (c_addr0 (local c) = sb /\ c_rkey0 (local c) = mr_rkey smr /\
     c_addr (local c) = write_buf c /\ c_rkey (local c) = mr_rkey wmr) /\
    (mr_rkey smr <> mr_rkey wmr /\ mr_lkey smr <> mr_lkey wmr) /\
    (0 <= sb /\ sb + buf_size (h_send h) <= 2 ^ 64 /\
     0 <= write_buf c /\ write_buf c + buf_size (h_write h) <= 2 ^ 64 /\
     (sb + buf_size (h_send h) <= write_buf c \/ write_buf c + buf_size (h_write h) <= sb)).

Section effects.
Context `{Nic}.
Variable psend : send_wr -> Z.

(** Well-formedness only depends on the sizes of the memory. *)
Lemma ctx_wf_sizes c h h' :
  buf_size (h_send h') = buf_size (h_send h) -> buf_size (h_write h') = buf_size (h_write h) ->
  ctx_wf c h -> ctx_wf c h'.
Proof. intros E1 E2. unfold ctx_wf. by rewrite E1, E2. Qed.

Lemma within_true a len base size :
  base <= a -> a + len <= base + size -> within a len base size = true.
Proof. intros. unfold within. apply andb_true_iff. rewrite !Z.leb_le. lia. Qed.

Lemma within_false a len base size :
  a < base \/ base + size < a + len -> within a len base size = false.
Proof. intros. unfold within. apply andb_false_iff. rewrite !Z.leb_gt. lia. Qed.

Lemma mem_read_write c h off len :
  ctx_wf c h -> 0 <= off -> 0 < len -> off + len <= buf_size (h_write h) ->
  mem_read c h (write_buf c + off) len = Some (peek (h_write h) off (Z.to_nat len)).
Proof.
  intros (smr & wmr & sb & E1 & E2 & E3 & _ & _ & _ & _ & Hr) Ho Hl Hb.
  unfold mem_read, in_send, in_write. rewrite E3.
  rewrite within_false by lia. rewrite within_true by lia.
  do 2 f_equal. lia.
Qed.

Lemma mem_read_send c h sb off len :
  ctx_wf c h -> send_buf c = Some sb -> 0 <= off -> off + len <= buf_size (h_send h) ->
  mem_read c h (sb + off) len = Some (peek (h_send h) off (Z.to_nat len)).
Proof.
  intros Hwf E3 Ho Hb. unfold mem_read, in_send. rewrite E3.
  rewrite within_true by lia. simpl. do 2 f_equal. lia.
Qed.

Lemma place_send cR hR a k roff bs wr :
  ctx_wf cR hR -> c_addr0 (local cR) = a -> c_rkey0 (local cR) = k ->
  wr_rkey wr = k -> remote_addr wr = a + roff ->
  0 <= roff -> roff + blen bs <= buf_size (h_send hR) ->
  remote_place (cR, hR) wr bs = Some (Host (poke (h_send hR) roff bs) (h_write hR)).
Proof.
  intros (smr & wmr & sb & E1 & E2 & E3 & E4 & (M1 & M2 & M3 & M4) & (C1 & C2 & C3 & C4) & K & Hr)
    Ha Hk Hwk Hwa Ho Hb.
  unfold remote_place, mr_covers. rewrite E1. simpl.
  rewrite Hwk, Hwa, <- Hk, <- Ha, C1, C2, M1, M2. rewrite Z.eqb_refl, within_true by lia.
  simpl. do 3 f_equal. lia.
Qed.

Lemma place_write cR hR a k roff bs wr :
  ctx_wf cR hR -> c_addr (local cR) = a -> c_rkey (local cR) = k ->
  wr_rkey wr = k -> remote_addr wr = a + roff ->
  0 <= roff -> roff + blen bs <= buf_size (h_write hR) ->
  remote_place (cR, hR) wr bs = Some (Host (h_send hR) (poke (h_write hR) roff bs)).
Proof.
  intros (smr & wmr & sb & E1 & E2 & E3 & E4 & (M1 & M2 & M3 & M4) & (C1 & C2 & C3 & C4) & (K & _) & Hr)
    Ha Hk Hwk Hwa Ho Hb.
  unfold remote_place, mr_covers. rewrite E1, E2. simpl.
  rewrite Hwk, Hwa, <- Hk, <- Ha, C3, C4, M3, M4.
  replace (mr_rkey wmr =? mr_rkey smr) with false by (symmetry; apply Z.eqb_neq; auto).
  simpl. rewrite Z.eqb_refl, within_true by lia.
  simpl. do 3 f_equal. lia.
Qed.

(** *** The three write posts of the front ends, delivered *)

Lemma deliver_post_write0 cL hL cR hR len loff roff sig :
  ctx_wf cL hL -> ctx_wf cR hR -> remote cL = local cR ->
  0 < len < 2 ^ 32 -> 0 <= loff -> loff + len <= buf_size (h_write hL) ->
  0 <= roff -> roff + len <= buf_size (h_send hR) ->
  deliver (post_write0 psend cL hL None len loff roff sig) cL (cR, hR)
  = Done (Host (poke (h_send hR) roff (peek (h_write hL) loff (Z.to_nat len))) (h_write hR)).
Proof.
  intros HL HR Hc Hlen Hl Hlb Hr Hrb. pose proof HL as (smr & wmr & sb & E1 & E2 & E3 & E4 & HM & HC & HK & HA).
  pose proof HR as (smr' & wmr' & sb' & E1' & E2' & E3' & E4' & HM' & HC' & HK' & HA').
  unfold deliver, post_write0, copy_msg, finish_post. simpl. rewrite E2. simpl.
  f_equal. apply nic_write_ok with (bs := peek (h_write hL) loff (Z.to_nat len)); [done| |].
  - unfold local_payload. rewrite E4, Z.add_0_r, u64_small, u32_small by (pows; lia). simpl.
    replace (_ || _ || _) with true
      by (symmetry; rewrite orb_true_iff; right; unfold mr_covers; rewrite E2;
          simpl; rewrite Z.eqb_refl; simpl; apply within_true; lia).
    apply mem_read_write; done || lia.
  - eapply place_send; try done; simpl; rewrite ?Hc; try done.
    + apply u64_small. pows. lia.
    + rewrite blen_peek. lia.
Qed.

Lemma deliver_post_write cL hL cR hR len loff roff sig :
  ctx_wf cL hL -> ctx_wf cR hR -> remote cL = local cR ->
  0 < len < 2 ^ 32 -> 0 <= loff -> loff + len <= buf_size (h_write hL) ->
  0 <= roff -> roff + len <= buf_size (h_write hR) ->
  deliver (post_write psend cL hL None len loff roff sig) cL (cR, hR)
  = Done (Host (h_send hR) (poke (h_write hR) roff (peek (h_write hL) loff (Z.to_nat len)))).
Proof.
  intros HL HR Hc Hlen Hl Hlb Hr Hrb. pose proof HL as (smr & wmr & sb & E1 & E2 & E3 & E4 & HM & HC & HK & HA).
  pose proof HR as (smr' & wmr' & sb' & E1' & E2' & E3' & E4' & HM' & HC' & HK' & HA').
  unfold deliver, post_write, copy_msg, finish_post. simpl. rewrite E2. simpl.
  f_equal. apply nic_write_ok with (bs := peek (h_write hL) loff (Z.to_nat len)); [done| |].
  - unfold local_payload. rewrite E4, Z.add_0_r, u64_small, u32_small by (pows; lia). simpl.
    replace (_ || _ || _) with true
      by (symmetry; rewrite orb_true_iff; right; unfold mr_covers; rewrite E2;
          simpl; rewrite Z.eqb_refl; simpl; apply within_true; lia).
    apply mem_read_write; done || lia.
  - eapply place_write; try done; simpl; rewrite ?Hc; try done.
    + apply u64_small. pows. lia.
    + rewrite blen_peek. lia.
Qed.

(** From the send buffer, [post_write1] is known to work only when the
    request is inline: its local key is the one of the write region. *)
Lemma deliver_post_write1 cL hL cR hR len loff roff sig :
  ctx_wf cL hL -> ctx_wf cR hR -> remote cL = local cR ->
  0 < len <= MAX_INLINE_SIZE -> 0 <= loff -> loff + len <= buf_size (h_send hL) ->
  0 <= roff -> roff + len <= buf_size (h_write hR) ->
  deliver (post_write1 psend cL hL None len loff roff sig) cL (cR, hR)
  = Done (Host (h_send hR) (poke (h_write hR) roff (peek (h_send hL) loff (Z.to_nat len)))).
Proof.
  intros HL HR Hc Hlen Hl Hlb Hr Hrb. pose proof HL as (smr & wmr & sb & E1 & E2 & E3 & E4 & HM & HC & HK & HA).
  pose proof HR as (smr' & wmr' & sb' & E1' & E2' & E3' & E4' & HM' & HC' & HK' & HA').
  unfold MAX_INLINE_SIZE in *.
  unfold deliver, post_write1, copy_msg, finish_post. simpl. rewrite E3, E2. simpl.
  f_equal. apply nic_write_ok with (bs := peek (h_send hL) loff (Z.to_nat len)); [done| |].
  - unfold local_payload. simpl. rewrite u64_small, u32_small by (pows; lia).
    replace (len <=? MAX_INLINE_SIZE) with true by (symmetry; apply Z.leb_le; unfold MAX_INLINE_SIZE; lia).
    simpl. apply mem_read_send; done || lia.
  - eapply place_write; try done; simpl; rewrite ?Hc; try done.
    + apply u64_small. pows. lia.
    + rewrite blen_peek. lia.
Qed.

(** a longer request from the send buffer fails the local protection check *)
Lemma post_write1_not_inline cL hL len loff roff sig :
  ctx_wf cL hL -> MAX_INLINE_SIZE < len < 2 ^ 32 ->
  0 <= loff -> loff + len <= buf_size (h_send hL) ->
  exists wr, post_write1 psend cL hL None len loff roff sig = Done (hL, wr, psend wr) /\
    local_payload (cL, hL) wr = None.
Proof.
  intros HL Hlen Hl Hb. pose proof HL as (smr & wmr & sb & E1 & E2 & E3 & E4 & HM & HC & HK & HA).
  unfold MAX_INLINE_SIZE in *.
  unfold post_write1, copy_msg, finish_post. rewrite E3, E2. simpl. eexists; split; [done|].
  unfold local_payload. simpl. rewrite u64_small, u32_small by (pows; lia).
  replace (len <=? MAX_INLINE_SIZE) with false by (symmetry; apply Z.leb_gt; unfold MAX_INLINE_SIZE; lia).
  unfold mr_covers. rewrite E1, E2. 
  replace (mr_lkey wmr =? mr_lkey smr) with false by (symmetry; apply Z.eqb_neq; destruct HK; auto).
  rewrite Z.eqb_refl. simpl. rewrite within_false; [done|]. lia.
Qed.
End effects.

(** ** Certificates: round trip *)

Definition cert_wf (c : connection_certificate) : Prop :=
  0 <= c_addr0 c < 2 ^ 64 /\ 0 <= c_rkey0 c < 2 ^ 32 /\ 0 <= c_length0 c < 2 ^ 32 /\
  0 <= c_addr c < 2 ^ 64 /\ 0 <= c_rkey c < 2 ^ 32 /\ 0 <= c_length c < 2 ^ 32 /\
  0 <= c_qp_num c < 2 ^ 32 /\ 0 <= c_lid c < 2 ^ 16 /\ List.length (c_gid c) = 16%nat.

#[export] Instance cert_wf_dec c : Decision (cert_wf c).
Proof. unfold cert_wf. apply _. Defined.

Section certificates.
Lemma bswap_range n x : 0 <= bswap n x < 256 ^ Z.of_nat n.
Proof.
  unfold bswap, be_val. pose proof (le_val_range (rev (le_bytes n x))) as H.
  unfold blen in H. by rewrite length_rev, length_le_bytes in H.
Qed.

Lemma bswap_bswap n x : 0 <= x < 256 ^ Z.of_nat n -> bswap n (bswap n x) = x.
Proof.
  intros Hx. unfold bswap at 1. unfold be_val.
  replace (le_bytes n (bswap n x)) with (rev (le_bytes n x)).
  - rewrite rev_involutive, le_val_le_bytes. by apply Z.mod_small.
  - unfold bswap, be_val.
    rewrite <- (le_bytes_le_val (rev (le_bytes n x))) at 1.
    by rewrite length_rev, length_le_bytes.
Qed.

Lemma field_app a b n z :
  List.length a = n -> forall k rest, b = le_bytes k z ++ rest ->
  0 <= z < 256 ^ Z.of_nat k -> field (a ++ b) n k = z.
Proof.
  intros <- k rest -> Hz. unfold field. rewrite drop_app_length.
  rewrite take_app_le by (by rewrite length_le_bytes).
  rewrite take_ge by (by rewrite length_le_bytes).
  rewrite le_val_le_bytes. by apply Z.mod_small.
Qed.

(** the fields of a list of encoded integers, one after the other *)
Lemma field_here k z rest :
  0 <= z < 256 ^ Z.of_nat k -> field (le_bytes k z ++ rest) 0 k = z.
Proof. intros. by apply (field_app [] (le_bytes k z ++ rest) 0 z eq_refl k rest). Qed.

Lemma drop_skip (a b : bytes) n off : List.length a = n -> drop (n + off) (a ++ b) = drop off b.
Proof. intros <-. by rewrite <- drop_drop, drop_app_length. Qed.

Lemma field_skip a b n off k :
  List.length a = n -> field (a ++ b) (n + off) k = field b off k.
Proof. intros Ha. unfold field. by rewrite (drop_skip a b n). Qed.

Lemma cert_of_cert_bytes c : cert_wf c -> cert_of_bytes (cert_bytes c) = c.
Proof.
  intros (H1 & H2 & H3 & H4 & H5 & H6 & H7 & H8 & H9).
  destruct c as [a0 r0 l0 a r l q i g]; simpl in *. unfold cert_of_bytes, cert_bytes.
  cbn [c_addr0 c_rkey0 c_length0 c_addr c_rkey c_length c_qp_num c_lid c_gid].
  f_equal.
  - by apply field_here.
  - rewrite (field_skip _ _ 8 0) by done. by apply field_here.
  - rewrite (field_skip _ _ 8 4), (field_skip _ _ 4 0) by done. by apply field_here.
  - rewrite (field_skip _ _ 8 8), (field_skip _ _ 4 4), (field_skip _ _ 4 0) by done. by apply field_here.
  - rewrite (field_skip _ _ 8 16), (field_skip _ _ 4 12), (field_skip _ _ 4 8), (field_skip _ _ 8 0) by done.
    by apply field_here.
  - rewrite (field_skip _ _ 8 20), (field_skip _ _ 4 16), (field_skip _ _ 4 12), (field_skip _ _ 8 4),
      (field_skip _ _ 4 0) by done.
    by apply field_here.
  - rewrite (field_skip _ _ 8 24), (field_skip _ _ 4 20), (field_skip _ _ 4 16), (field_skip _ _ 8 8),
      (field_skip _ _ 4 4), (field_skip _ _ 4 0) by done.
    by apply field_here.
  - rewrite (field_skip _ _ 8 28), (field_skip _ _ 4 24), (field_skip _ _ 4 20), (field_skip _ _ 8 12),
      (field_skip _ _ 4 8), (field_skip _ _ 4 4), (field_skip _ _ 4 0) by done.
    by apply field_here.
  - rewrite (drop_skip _ _ 8 30), (drop_skip _ _ 4 26), (drop_skip _ _ 4 22),
      (drop_skip _ _ 8 14), (drop_skip _ _ 4 10), (drop_skip _ _ 4 6), (drop_skip _ _ 4 2),
      (drop_skip _ _ 2 0) by done. apply take_ge. simpl. lia.
Qed.

Lemma blen_cert_bytes c : cert_wf c -> blen (cert_bytes c) = normal.
Proof.
  intros Hc. unfold cert_bytes. autorewrite with blen. unfold normal, blen.
  destruct Hc as (_ & _ & _ & _ & _ & _ & _ & _ & ->). done.
Qed.

Lemma cert_hton_wf c : cert_wf c -> cert_wf (cert_hton c).
Proof.
  intros Hc. unfold cert_wf, cert_hton, htonll, htonl, htons; simpl.
  repeat split; try apply bswap_range. by destruct Hc as (_ & _ & _ & _ & _ & _ & _ & _ & ->).
Qed.

Lemma cert_ntoh_hton c : cert_wf c -> cert_ntoh (cert_hton c) = c.
Proof.
  intros (H1 & H2 & H3 & H4 & H5 & H6 & H7 & H8 & H9). destruct c; simpl in *.
  unfold cert_ntoh, cert_hton, htonll, htonl, htons, ntohll, ntohl, ntohs; simpl.
  by rewrite !bswap_bswap.
Qed.

Lemma cert_wire_roundtrip c :
  cert_wf c -> cert_ntoh (cert_of_bytes (cert_bytes (cert_hton c))) = c.
Proof. intros. rewrite cert_of_cert_bytes by (by apply cert_hton_wf). by apply cert_ntoh_hton. Qed.
End certificates.

(** ** Properties *)

(** Verbs that always succeed; a region's keys are its address. *)
Definition plain_verbs : Verbs :=
  {| ibv_alloc_pd _ := Some 1;
     ibv_create_cq n _ _ := Some (10 + Z.of_nat n);
     ibv_reg_mr _ a n _ := Some {| mr_addr := a; mr_length := n; mr_lkey := a; mr_rkey := u32 a |};
     ibv_reg_dmabuf_mr _ n fd _ :=
       Some {| mr_addr := 0; mr_length := n; mr_lkey := fd; mr_rkey := fd |};
     ibv_create_qp _ _ := Some 77;
     ibv_query_gid _ _ _ := Some (replicate 16 x01);
     ibv_query_port _ _ := Some 5;
     new_bytes _ := 0x10000000;
     mmap_fd _ _ := 0x20000000 |}.

Lemma plain_verbs_ok : VerbsOk plain_verbs.
Proof. intros p a n acc mr [= <-]. done. Qed.

Definition plain_device : RDMADevice :=
  {| dev_name := text "mlx5_0"; dev_ctx := 3; ib_port := 1; gid_idx := 3 |}.

(** exchanging certificates over a socket that transfers whole messages
    gives each side exactly the certificate of the other side, although every
    integer travels in network byte order inside a packed 54-byte structure;
    what one side writes is what the other side reads. *)
Theorem exchange_certificate_mutual cA cB :
  cert_wf (local cA) -> cert_wf (local cB) ->
  let wire c := cert_bytes (cert_hton (local c)) in
  exchange_certificate blen (blen (wire cB), wire cB) cA = (with_remote cA (local cB), StatusOk) /\
  exchange_certificate blen (blen (wire cA), wire cA) cB = (with_remote cB (local cA), StatusOk).
Proof.
  intros HA HB wire. unfold exchange_certificate, wire. cbn [fst snd].
  rewrite !blen_cert_bytes by (by apply cert_hton_wf). rewrite Z.eqb_refl. cbn [negb].
  by rewrite !cert_wire_roundtrip.
Qed.

Definition example_cert (n : Z) : connection_certificate :=
  {| c_addr0 := n; c_rkey0 := 2; c_length0 := 3; c_addr := 2 ^ 40 + n; c_rkey := 5;
     c_length := 6; c_qp_num := 7; c_lid := 8; c_gid := replicate 16 xab |}.
Definition example_ctx (n : Z) : RDMAContext :=
  with_remote
    (with_write_region make_rdma_context
       {| mr_addr := 4096; mr_length := 4096; mr_lkey := 9; mr_rkey := 9 |} 4096 4096 false 0)
    (example_cert n).

Lemma exchange_certificate_mutual_witness :
  exchange_certificate blen (54, cert_bytes (cert_hton (local (example_ctx 2)))) (example_ctx 1)
  = (with_remote (example_ctx 1) (local (example_ctx 2)), StatusOk).
Proof.
  refine (proj1 (exchange_certificate_mutual (example_ctx 1) (example_ctx 2) _ _));
    vm_compute; intuition congruence.
Defined.

(** [default_connect], once the certificates are exchanged, drives the
    queue pair through INIT, RTR and RTS in this order, stops at the first
    change the driver refuses and returns 0 exactly when all three succeed;
    the RTR attributes name the peer's queue pair. *)
Theorem default_connect_sequence sw sr m c c' :
  exchange_certificate sw sr c = (c', StatusOk) ->
  let i := get_default_qp_init_state_attr 1 in
  let r := get_default_qp_rtr_attr (remote c') (dev_ib_port c') (dev_gid_idx c') in
  let s := get_default_qp_rts_attr in
  let ok a k := m a k = 0 in
  exists ret tr, default_connect sw sr m c = (c', ret, tr) /\
    tr `prefix_of` [i; r; s] /\ map q_state [i; r; s] = [IBV_QPS_INIT; IBV_QPS_RTR; IBV_QPS_RTS] /\
    dest_qp_num r = c_qp_num (remote c') /\
    (ret = 0 <-> ok i get_default_qp_init_state_attr_mask /\
                 ok r get_default_qp_rtr_attr_mask /\ ok s get_default_qp_rts_attr_mask) /\
    (ret = 0 -> tr = [i; r; s]).
Proof.
  intros E i r s ok. unfold default_connect. rewrite E. simpl. fold i r s.
  unfold modify_qp, ok.
  destruct (Z.eqb_spec (m i get_default_qp_init_state_attr_mask) 0) as [E1|E1]; simpl.
  2:{ do 2 eexists. split; [reflexivity|]. split; [by exists [r; s]|].
      do 2 (split; [done|]). split; [tauto|]. intros; contradiction. }
  destruct (Z.eqb_spec (m r get_default_qp_rtr_attr_mask) 0) as [E2|E2]; simpl.
  2:{ do 2 eexists. split; [reflexivity|]. split; [by exists [s]|].
      do 2 (split; [done|]). split; [tauto|]. intros; contradiction. }
  destruct (Z.eqb_spec (m s get_default_qp_rts_attr_mask) 0) as [E3|E3]; simpl.
  2:{ do 2 eexists. split; [reflexivity|]. split; [by exists []|].
      do 2 (split; [done|]). split; [tauto|]. intros; contradiction. }
  do 2 eexists. split; [reflexivity|]. split; [by exists []|].
  do 2 (split; [done|]). tauto.
Qed.

Lemma default_connect_sequence_witness :
  exists ret tr,
    default_connect blen (54, cert_bytes (cert_hton (local (example_ctx 2)))) (fun _ _ => 0) (example_ctx 1)
    = (with_remote (example_ctx 1) (local (example_ctx 2)), ret, tr) /\ ret = 0.
Proof.
  destruct (default_connect_sequence blen (54, cert_bytes (cert_hton (local (example_ctx 2))))
              (fun _ _ => 0) (example_ctx 1) (with_remote (example_ctx 1) (local (example_ctx 2))))
    as (ret & tr & E & _ & _ & _ & Hr & _).
  - vm_compute. reflexivity.
  - exists ret, tr. split; [exact E|]. apply Hr. repeat split.
Defined.

(** C36: a context that [open] and [register_write_buf] set up is well formed:
    both regions are registered with the size asked for, the certificate that
    will be sent to the peer describes them, and nothing was released. *)
Theorem setup_wf `{V : Verbs} (OkV : VerbsOk V) d c rel mem memsize c' :
  open d = (Some c, StatusOk, rel) -> register_write_buf c mem memsize = (c', 0) ->
  0 <= new_bytes SEND_BUF_SIZE -> new_bytes SEND_BUF_SIZE + SEND_BUF_SIZE <= 2 ^ 64 ->
  0 <= mem -> mem + memsize <= 2 ^ 64 ->
  (new_bytes SEND_BUF_SIZE + SEND_BUF_SIZE <= mem \/
   mem + memsize <= new_bytes SEND_BUF_SIZE) ->
  (forall a b, send_mr c' = Some a -> write_mr c' = Some b ->
               mr_rkey a <> mr_rkey b /\ mr_lkey a <> mr_lkey b) ->
  ctx_wf c' (Host (new_buf SEND_BUF_SIZE) (new_buf memsize)) /\ rel = [] /\
  c_length0 (local c') = SEND_BUF_SIZE /\ c_length (local c') = u32 memsize.
Proof.
  intros Ho Hreg Hn1 Hn2 Hm1 Hm2 Hd Hk. unfold open in Ho.
  destruct (ibv_alloc_pd _) as [p|]; [|done].
  destruct (ibv_create_cq 0 _ _) as [icq|]; [|done].
  destruct (ibv_create_cq 1 _ _) as [ocq|]; [|done].
  destruct (ibv_reg_mr p _ _ _) as [smr|] eqn:E1; [|done].
  destruct (ibv_create_qp _ _) as [q|]; [|done].
  destruct (if 0 <=? _ then _ else _) as [g|]; [|done].
  destruct (ibv_query_port _ _) as [l|]; [|done].
  injection Ho as <- <-. unfold register_write_buf in Hreg. simpl in Hreg.
  destruct (ibv_reg_mr p mem _ _) as [wmr|] eqn:E2; [|discriminate].
  injection Hreg as <-. destruct (OkV _ _ _ _ _ E1) as [A1 L1], (OkV _ _ _ _ _ E2) as [A2 L2].
  split; [|simpl; by rewrite L2].
  exists smr, wmr, (new_bytes SEND_BUF_SIZE). simpl. repeat split; try done; try lia.
  all: by apply (Hk smr wmr).
Qed.

Lemma setup_wf_witness :
  exists c c', @open plain_verbs plain_device = (Some c, StatusOk, []) /\
    @register_write_buf plain_verbs c 0x20000000 4096 = (c', 0) /\
    ctx_wf c' (Host (new_buf SEND_BUF_SIZE) (new_buf 4096)).
Proof.
  do 2 eexists. split; [reflexivity|]. split; [reflexivity|].
  refine (proj1 (@setup_wf plain_verbs plain_verbs_ok plain_device _ [] 0x20000000 4096 _
                   eq_refl eq_refl _ _ _ _ _ _)); try (vm_compute; intuition congruence).
  intros a b [= <-] [= <-]. vm_compute. split; congruence.
Defined.

(** C37: [poll_one_completion] spins exactly until the queue it selects reports
    something: when its first non-zero poll is the [n]-th, any larger number of
    iterations returns that poll's result, having made [n] polls before it. *)
Theorem poll_one_completion_returns out_polls in_polls send n fuel :
  let polls := if (send : bool) then out_polls else in_polls in
  polls n <> 0 -> (forall k, (k < n)%nat -> polls k = 0) -> (n < fuel)%nat ->
  poll_one_completion fuel out_polls in_polls send = Some (polls n, n).
Proof.
  intros polls Hn Hlt Hf. unfold poll_one_completion. fold polls.
  assert (forall f k, (k + f > n)%nat -> (k <= n)%nat -> poll_from f polls k = Some (polls n, n))
    as Hgen; [|apply Hgen; lia].
  induction f as [|f IH]; intros k Hk Hle; [lia|]. simpl.
  destruct (decide (k = n)) as [->|Hne].
  - by rewrite (proj2 (Z.eqb_neq _ _) Hn).
  - rewrite Hlt by lia. simpl. apply IH; lia.
Qed.

Lemma poll_one_completion_returns_witness :
  poll_one_completion 10 (fun n => if (n <? 4)%nat then 0 else 1) (fun _ => 0) true = Some (1, 4%nat).
Proof.
  apply (poll_one_completion_returns (fun n => if (n <? 4)%nat then 0 else 1) (fun _ => 0) true 4 10);
    [discriminate|intros k Hk; do 4 (destruct k; [reflexivity|]); lia|lia].
Defined.

(** a reply longer than [MAX_INLINE_SIZE] that the clerk posts from its send
    buffer names the key of its write region: the work request fails the local
    protection check, whatever the contents, so nothing is known to reach the
    peer. *)
Theorem post_write1_long_reply psend cL hL len loff roff sig :
  ctx_wf cL hL -> MAX_INLINE_SIZE < len < 2 ^ 32 ->
  0 <= loff -> loff + len <= buf_size (h_send hL) ->
  exists wr, post_write1 psend cL hL None len loff roff sig = Done (hL, wr, psend wr) /\
    inline wr = false /\ local_payload (cL, hL) wr = None.
Proof.
  intros Hwf Hlen Hl Hb.
  destruct (post_write1_not_inline psend cL hL len loff roff sig Hwf Hlen Hl Hb) as (wr & E & Hp).
  exists wr. split; [done|]. split; [|done].
  unfold local_payload in Hp. destruct (inline wr) eqn:Ei; [|done]. exfalso.
  unfold post_write1, copy_msg, finish_post in E. inv_done. simpl in *.
  apply Z.leb_le in Ei. lia.
Qed.

Definition example_setup : RDMAContext :=
  match @open plain_verbs plain_device with
  | (Some c, _, _) => (@register_write_buf plain_verbs c 0x20000000 4096).1
  | _ => make_rdma_context
  end.

Definition example_host : host := Host (new_buf SEND_BUF_SIZE) (new_buf 4096).

Lemma example_setup_wf : ctx_wf example_setup example_host.
Proof.
  exists {| mr_addr := 0x10000000; mr_length := SEND_BUF_SIZE; mr_lkey := 0x10000000; mr_rkey := 0x10000000 |},
    {| mr_addr := 0x20000000; mr_length := 4096; mr_lkey := 0x20000000; mr_rkey := 0x20000000 |},
    0x10000000.
  repeat split; try reflexivity; try (vm_compute; congruence). left; vm_compute; congruence.
Qed.

Lemma post_write1_long_reply_witness :
  exists wr, post_write1 (fun _ => 0) example_setup example_host None 2048 8 8 false
             = Done (example_host, wr, 0) /\
    inline wr = false /\ local_payload (example_setup, example_host) wr = None.
Proof.
  refine (post_write1_long_reply (fun _ => 0) example_setup example_host 2048 8 8 false
            example_setup_wf _ _ _); vm_compute; intuition congruence.
Defined.
