(* ===== verification/Message.v ===== *)
(** * Message: requests and replies in a message buffer

    The statements the three front ends share: a client builds a request in its
    local buffer, a clerk takes it from its own buffer and overlays the reply,
    the client reads the reply.  The buffer starts with the header word; the
    message follows at [RING_HEADER].  The lemmas describe the buffers with
    [holds]. *)

From Stdlib.Strings Require Import Byte.
From S2P Require Import Prelude Buf Request Rdma.

(** ** The client's side *)

(** the request with a key and no value of [SendGet] and [SendDelete] *)
Definition write_key_request (b : buf) (o : Operation) (key : bytes) : outcome buf :=
  b ← put_request b RING_HEADER (op_code o) (strlen key) 0;
  bwrite b (RING_HEADER + sizeof_Request) (take (Z.to_nat (strlen key)) key).

(** its length, computed in 16 bits *)
Definition key_request_len (key : bytes) : Z := u16 (sizeof_Request + u16 (strlen key)).

(** the request without payload of [SendClose] and [SendAlloc] *)
Definition write_empty_request (b : buf) (o : Operation) : outcome buf :=
  put_request b RING_HEADER (op_code o) 0 0.

(** the record of [SendWrite] *)
Definition write_record (b : buf) (o : Operation) (key val : bytes) : outcome buf :=
  let key_len := u16 (strlen key) in
  let val_len := u16 (strlen val) in
  b ← put_request b RING_HEADER (op_code o) key_len val_len;
  b ← bwrite b (RING_HEADER + sizeof_Request) (take (Z.to_nat key_len) key);
  bwrite b (RING_HEADER + sizeof_Request + key_len) (take (Z.to_nat val_len) val).

Definition record_len (key val : bytes) : Z :=
  let key_len := u16 (strlen key) in
  let val_len := u16 (strlen val) in
  u16 (sizeof_Request + key_len + val_len).

(** the spin on [CLERK_DONE], and the reset of the word *)
Definition wait_reply (b : buf) : outcome buf :=
  h ← bread32 b 0;
  if h =? CLERK_DONE then bwrite32 b 0 CLIENT_DONE else Hangs.

(** [SendGet] after the spin: the value, when the status is [OK] *)
Definition read_reply (b : buf) : outcome (option bytes) :=
  st ← reply_status b RING_HEADER;
  if st =? status_code OK
  then n ← reply_val_size b RING_HEADER;
       v ← bread b (RING_HEADER + sizeof_RequestReply) n;
       Done (Some v)
  else Done None.

(** ** The clerk's side *)

(** the spin on [CLIENT_DONE], and the request that is then in the buffer *)
Definition take_message (b : buf) : outcome (buf * Request) :=
  h ← bread32 b 0;
  if negb (h =? CLIENT_DONE) then Hangs else
  b ← bwrite32 b 0 CLERK_DONE;
  r ← read_request b RING_HEADER;
  Done (b, r).

(** the key that follows the request *)
Definition key_at (b : buf) (key_size : Z) : outcome bytes :=
  bread b (RING_HEADER + sizeof_Request) key_size.

(** [reply->status = st; reply->val_size = n], the reply overlaying the request *)
Definition write_reply (b : buf) (st : RequestStatus) (n : Z) : outcome buf :=
  b ← set_status b RING_HEADER st;
  set_reply_val_size b RING_HEADER n.

(** [memcpy(reply->value, ...)] *)
Definition write_value (b : buf) (v : bytes) : outcome buf :=
  bwrite b (RING_HEADER + sizeof_RequestReply) v.

(** ** Records and messages as bytes *)

Record entry := Entry { e_op : Operation; e_key : bytes; e_val : bytes }.

Definition entry_head (e : entry) : bytes :=
  request_header (op_code (e_op e)) (blen (e_key e)) (blen (e_val e)) ++ e_key e.
Definition entry_bytes (e : entry) : bytes := entry_head e ++ e_val e.
Definition entry_size (e : entry) : Z := 8 + blen (e_key e) + blen (e_val e).

(** What the front ends support: C strings, and a request that fits the message
    buffer. *)
Definition MAX_MESSAGE : Z := MAX_REQUEST - RING_HEADER.
Definition record_ok (e : entry) : Prop :=
  cstring (e_key e) /\ cstring (e_val e) /\ entry_size e <= MAX_MESSAGE.
Definition key_ok (key : bytes) : Prop := cstring key /\ 8 + blen key <= MAX_MESSAGE.

(** the longest value whose reply is posted inline *)
Definition MAX_VALUE : Z := MAX_INLINE_SIZE - sizeof_RequestReply.

#[export] Instance record_ok_dec e : Decision (record_ok e).
Proof. unfold record_ok. apply _. Defined.
#[export] Instance key_ok_dec key : Decision (key_ok key).
Proof. unfold key_ok. apply _. Defined.

Definition word (v : Z) : bytes := le_bytes 4 v.

Definition key_request (o : Operation) (key : bytes) : bytes :=
  request_header (op_code o) (blen key) 0 ++ key.

Definition reply_bytes (st : RequestStatus) (v : bytes) : bytes :=
  word (status_code st) ++ word (blen v) ++ v.

(** the status of a reply to [GET] *)
Definition get_status (v : option bytes) : RequestStatus :=
  match v with Some _ => OK | None => NOTFOUND end.

Lemma blen_word v : blen (word v) = 4.
Proof. apply blen_le_bytes. Qed.
Lemma blen_entry_head e : blen (entry_head e) = 8 + blen (e_key e).
Proof. unfold entry_head. by autorewrite with blen. Qed.
Lemma blen_entry e : blen (entry_bytes e) = entry_size e.
Proof. unfold entry_bytes, entry_size. rewrite blen_app, blen_entry_head. done. Qed.
Lemma blen_key_request o key : blen (key_request o key) = 8 + blen key.
Proof. unfold key_request. by autorewrite with blen. Qed.
Lemma blen_reply st v : blen (reply_bytes st v) = 8 + blen v.
Proof. unfold reply_bytes. rewrite !blen_app, !blen_word. lia. Qed.

Lemma holds_word b off v :
  holds b off (word v) -> 0 <= v < 2 ^ 32 -> 0 <= off -> off + 4 <= buf_size b ->
  bread32 b off = Done v.
Proof. apply holds_bread32. Qed.
Lemma bwrite32_word b off v :
  0 <= off -> off + 4 <= buf_size b -> bwrite32 b off v = Done (poke b off (word v)).
Proof. apply bwrite32_spec. Qed.

(** the two words of a request *)
Lemma request_header_words o ks vs : request_header o ks vs = word (u8 o + 2 ^ 8 * u24 ks) ++ word (u32 vs).
Proof. reflexivity. Qed.

#[global] Opaque word request_header.

#[export] Hint Rewrite blen_word blen_entry_head blen_entry blen_key_request blen_reply : blen.

(** sizes as numerals and lengths as non-negative, then [lia] *)
Ltac blia :=
  autorewrite with blen in *;
  unfold entry_size, MAX_VALUE, MAX_MESSAGE, MAX_INLINE_SIZE, sizeof_RequestReply, sizeof_Request,
    MAX_REQUEST, RING_HEADER, SEND_BUF_SIZE, MAX_ASYNC_SIZE, CLIENT_DONE, CLERK_DONE in *;
  repeat match goal with
  | |- context [blen ?b] =>
      lazymatch goal with _ : 0 <= blen b |- _ => fail | _ => pose proof (blen_nonneg b) end
  | _ : context [blen ?b] |- _ =>
      lazymatch goal with _ : 0 <= blen b |- _ => fail | _ => pose proof (blen_nonneg b) end
  end;
  pows; lia.

Lemma entry_size_pos e : 0 < entry_size e.
Proof. blia. Qed.

(** ** The buffer operations, specified

    [msg_buf b]: a buffer that can hold the longest message. *)

Definition msg_buf (b : buf) : Prop := MAX_REQUEST <= buf_size b.

Lemma msg_buf_poke b off bs : msg_buf b -> msg_buf (poke b off bs).
Proof. done. Qed.
#[export] Hint Resolve msg_buf_poke : pmr.

(** the buffer once [msg] is built behind a header word [w] *)
Definition framed (b : buf) (w : Z) (msg : bytes) : Prop :=
  holds b 0 (word w) /\ holds b RING_HEADER msg.

Ltac keep_word := repeat (apply holds_poke_ne; [blia|]); done.

Lemma write_key_request_spec b o key w :
  msg_buf b -> key_ok key -> holds b 0 (word w) ->
  exists b', write_key_request b o key = Done b' /\ buf_size b' = buf_size b /\
    framed b' w (key_request o key).
Proof.
  intros Hb [Hk1 Hk2] Hw. unfold msg_buf in Hb. pose proof (blen_nonneg key) as Hn.
  unfold write_key_request. rewrite (strlen_cstring _ Hk1).
  rewrite put_request_spec by blia. cbn [mbind outcome_bind].
  rewrite blen_to_nat, take_ge by lia. rewrite bwrite_done by blia.
  eexists. split; [done|]. split; [done|]. split; [keep_word|].
  apply holds_app. rewrite blen_request_header. split; [|apply holds_poke].
  apply holds_poke_ne; [blia|apply holds_poke].
Qed.

Lemma key_request_len_spec key : key_ok key -> key_request_len key = 8 + blen key.
Proof.
  intros [Hk1 Hk2]. unfold key_request_len. rewrite strlen_cstring by done.
  by rewrite (u16_small (blen key)), u16_small by blia.
Qed.

Lemma write_empty_request_spec b o w :
  msg_buf b -> holds b 0 (word w) ->
  exists b', write_empty_request b o = Done b' /\ buf_size b' = buf_size b /\
    framed b' w (key_request o []).
Proof.
  intros Hb Hw. unfold msg_buf in Hb. unfold write_empty_request. rewrite put_request_spec by blia.
  eexists. split; [done|]. split; [done|]. split; [keep_word|].
  unfold key_request. rewrite app_nil_r. apply holds_poke.
Qed.

Lemma record_len_spec e : record_ok e -> record_len (e_key e) (e_val e) = entry_size e.
Proof.
  intros (Hk & Hv & Hs). unfold record_len. rewrite !strlen_cstring by done.
  rewrite (u16_small (blen (e_key e))), (u16_small (blen (e_val e))), u16_small by blia. done.
Qed.

Lemma write_record_spec b e w :
  msg_buf b -> record_ok e -> holds b 0 (word w) ->
  exists b', write_record b (e_op e) (e_key e) (e_val e) = Done b' /\ buf_size b' = buf_size b /\
    framed b' w (entry_bytes e).
Proof.
  intros Hb (Hk & Hv & Hs) Hw. unfold msg_buf in Hb.
  pose proof (blen_nonneg (e_key e)) as Hn1. pose proof (blen_nonneg (e_val e)) as Hn2.
  unfold write_record. rewrite !strlen_cstring by done.
  rewrite (u16_small (blen (e_key e))), (u16_small (blen (e_val e))) by blia.
  rewrite put_request_spec by blia. cbn [mbind outcome_bind].
  rewrite !blen_to_nat, !take_ge by lia.
  rewrite bwrite_done by blia. cbn [mbind outcome_bind]. rewrite bwrite_done by blia.
  eexists. split; [done|]. split; [done|]. split; [keep_word|].
  unfold entry_bytes, entry_head. rewrite <- app_assoc. apply holds_app. rewrite blen_request_header.
  split; [|apply holds_app; split].
  - do 2 (apply holds_poke_ne; [blia|]). apply holds_poke.
  - apply holds_poke_ne; [blia|]. apply holds_poke.
  - replace (RING_HEADER + 8 + blen (e_key e)) with (RING_HEADER + sizeof_Request + blen (e_key e))
      by blia. apply holds_poke.
Qed.

Lemma take_message_spec b o ks vs payload :
  msg_buf b -> framed b CLIENT_DONE (request_header (op_code o) ks vs ++ payload) ->
  exists b', take_message b = Done (b', {| op := op_code o; key_size := u24 ks; val_size := u32 vs |}) /\
    buf_size b' = buf_size b /\ framed b' CLERK_DONE (request_header (op_code o) ks vs ++ payload).
Proof.
  intros Hb [Hw Hm]. unfold msg_buf in Hb. exists (poke b 0 (word CLERK_DONE)).
  assert (Hm' : holds (poke b 0 (word CLERK_DONE)) RING_HEADER (request_header (op_code o) ks vs ++ payload))
    by keep_word.
  split; [|split; [done|split; [apply holds_poke|done]]].
  unfold take_message. rewrite (holds_word _ _ _ Hw) by blia. cbn [mbind outcome_bind].
  rewrite Z.eqb_refl. cbn [negb]. rewrite bwrite32_word by blia. cbn [mbind outcome_bind].
  rewrite (read_request_spec _ _ (op_code o) ks vs).
  - cbn [mbind outcome_bind]. by rewrite u8_op_code.
  - blia.
  - rewrite buf_size_poke. blia.
  - apply (holds_peek _ _ _ (proj1 (proj1 (holds_app _ _ _ _) Hm'))).
Qed.

(** the request of a key-only message, of a record *)
Definition key_request_of (o : Operation) (key : bytes) : Request :=
  {| op := op_code o; key_size := blen key; val_size := 0 |}.
Definition put_request_of (e : entry) : Request :=
  {| op := op_code (e_op e); key_size := blen (e_key e); val_size := blen (e_val e) |}.

Lemma take_key_request b o key :
  msg_buf b -> 8 + blen key <= MAX_MESSAGE -> framed b CLIENT_DONE (key_request o key) ->
  exists b', take_message b = Done (b', key_request_of o key) /\ buf_size b' = buf_size b /\
    framed b' CLERK_DONE (key_request o key).
Proof.
  intros Hb Hk Hf. destruct (take_message_spec b o (blen key) 0 key Hb Hf) as (b' & E & Hs & Hf').
  exists b'. split; [|done]. rewrite E. unfold key_request_of. by rewrite u24_small by blia.
Qed.

Lemma take_record b e payload :
  msg_buf b -> entry_size e <= MAX_MESSAGE ->
  framed b CLIENT_DONE (request_header (op_code (e_op e)) (blen (e_key e)) (blen (e_val e)) ++ payload) ->
  exists b', take_message b = Done (b', put_request_of e) /\ buf_size b' = buf_size b /\
    framed b' CLERK_DONE (request_header (op_code (e_op e)) (blen (e_key e)) (blen (e_val e)) ++ payload).
Proof.
  intros Hb Hk Hf. destruct (take_message_spec b _ _ _ _ Hb Hf) as (b' & E & Hs & Hf').
  exists b'. split; [|done]. rewrite E. unfold put_request_of. by rewrite u24_small, u32_small by blia.
Qed.

Lemma key_at_spec b w hdr key rest n :
  msg_buf b -> framed b w (hdr ++ key ++ rest) -> blen hdr = 8 -> n = blen key ->
  8 + n <= MAX_MESSAGE -> key_at b n = Done key.
Proof.
  intros Hb [_ Hm] Hh -> Hn. unfold msg_buf in Hb. apply holds_app in Hm as [_ Hm]. rewrite Hh in Hm.
  apply holds_app in Hm as [Hm _]. unfold key_at. apply holds_bread; [exact Hm|blia|blia].
Qed.

Lemma key_of_request b w o key :
  msg_buf b -> framed b w (key_request o key) -> 8 + blen key <= MAX_MESSAGE -> key_at b (blen key) = Done key.
Proof.
  intros Hb Hf Hn. eapply (key_at_spec b w _ key []); [done|rewrite app_nil_r; exact Hf| | |]; try done.
Qed.

(** the reply without its value: the value that is in place stays *)
Lemma write_reply_spec b st n msg :
  msg_buf b -> framed b CLERK_DONE msg -> 0 <= n < 2 ^ 32 ->
  exists b', write_reply b st n = Done b' /\ buf_size b' = buf_size b /\
    framed b' CLERK_DONE (word (status_code st) ++ word n).
Proof.
  intros Hb [Hw _] Hn. unfold msg_buf in Hb. unfold write_reply, set_status, set_reply_val_size.
  rewrite bwrite32_word by blia. cbn [mbind outcome_bind].
  rewrite bwrite32_word by (rewrite ?buf_size_poke; blia).
  rewrite u32_small by (pows; lia). eexists. split; [done|]. split; [done|]. split.
  - keep_word.
  - apply holds_app. rewrite blen_word. split; [|apply holds_poke].
    apply holds_poke_ne; [blia|apply holds_poke].
Qed.

Lemma write_reply_nil b st msg :
  msg_buf b -> framed b CLERK_DONE msg ->
  exists b', write_reply b st 0 = Done b' /\ buf_size b' = buf_size b /\
    framed b' CLERK_DONE (reply_bytes st []).
Proof. intros Hb Hf. by apply (write_reply_spec b st 0 msg). Qed.

Lemma write_reply_value b st v msg :
  msg_buf b -> framed b CLERK_DONE msg -> 8 + blen v <= MAX_MESSAGE ->
  exists b1 b2, write_reply b st (blen v) = Done b1 /\ write_value b1 v = Done b2 /\
    buf_size b2 = buf_size b /\ framed b2 CLERK_DONE (reply_bytes st v).
Proof.
  intros Hb Hf Hv. destruct (write_reply_spec b st (blen v) msg Hb Hf) as (b1 & E & Hs & Hw & Hr); [blia|].
  unfold msg_buf in Hb. exists b1, (poke b1 (RING_HEADER + sizeof_RequestReply) v). split; [done|].
  split; [unfold write_value; apply bwrite_done; blia|]. split; [done|]. split; [keep_word|].
  unfold reply_bytes. rewrite app_assoc. apply holds_app. split; [keep_word|].
  rewrite blen_app, !blen_word. apply holds_poke.
Qed.

(** the two words of a reply *)
Lemma reply_words b w st n rest :
  msg_buf b -> framed b w (word (status_code st) ++ word n ++ rest) -> 0 <= n < 2 ^ 32 ->
  reply_status b RING_HEADER = Done (status_code st) /\ reply_val_size b RING_HEADER = Done n.
Proof.
  intros Hb [_ Hm] Hn. unfold msg_buf in Hb. apply holds_app in Hm as [H1 Hm]. apply holds_app in Hm as [H2 _].
  rewrite blen_word in H2. unfold reply_status, reply_val_size.
  rewrite (holds_word _ _ _ H1), (holds_word _ _ _ H2); try done; try blia. by destruct st.
Qed.

Lemma wait_reply_spec b msg :
  msg_buf b -> framed b CLERK_DONE msg ->
  exists b', wait_reply b = Done b' /\ buf_size b' = buf_size b /\ framed b' CLIENT_DONE msg.
Proof.
  intros Hb [Hw Hm]. unfold msg_buf in Hb. unfold wait_reply. rewrite (holds_word _ _ _ Hw) by blia.
  cbn [mbind outcome_bind]. rewrite Z.eqb_refl, bwrite32_word by blia.
  eexists. split; [done|]. split; [done|]. split; [apply holds_poke|keep_word].
Qed.

Lemma read_reply_spec b w st v :
  msg_buf b -> framed b w (reply_bytes st v) -> 8 + blen v <= MAX_MESSAGE ->
  read_reply b = Done (if decide (st = OK) then Some v else None).
Proof.
  intros Hb Hf Hv. destruct (reply_words b w st (blen v) v Hb Hf) as [E1 E2]; [blia|].
  unfold read_reply. rewrite E1. cbn [mbind outcome_bind].
  destruct (decide (st = OK)) as [->|Hne]; [|by destruct st].
  simpl. rewrite E2. cbn [mbind outcome_bind]. destruct Hf as [_ Hm]. unfold msg_buf in Hb.
  unfold reply_bytes in Hm. do 2 (apply holds_app in Hm as [_ Hm]). rewrite !blen_word in Hm.
  rewrite holds_bread; [done| |blia|blia].
  by replace (RING_HEADER + sizeof_RequestReply) with (RING_HEADER + 4 + 4) by blia.
Qed.

(** ** Messages over a connection

    [link]: the two ends of a queue pair, each context well formed over its own
    memory and holding the certificate of the other. *)
Record link (cc : RDMAContext) (hc : host) (kc : RDMAContext) (hk : host) : Prop := {
  link_c : ctx_wf cc hc; link_k : ctx_wf kc hk;
  link_ck : remote cc = local kc; link_kc : remote kc = local cc }.

Definition same_sizes (h h' : host) : Prop :=
  buf_size (h_send h') = buf_size (h_send h) /\ buf_size (h_write h') = buf_size (h_write h).

(** Contents do not matter. *)
Lemma link_sizes cc hc kc hk hc' hk' :
  same_sizes hc hc' -> same_sizes hk hk' -> link cc hc kc hk -> link cc hc' kc hk'.
Proof.
  intros [A1 A2] [B1 B2] [L1 L2 L3 L4]. split; try done.
  - by apply (ctx_wf_sizes cc hc hc').
  - by apply (ctx_wf_sizes kc hk hk').
Qed.

Lemma link_sym cc hc kc hk : link cc hc kc hk -> link kc hk cc hc.
Proof. intros [L1 L2 L3 L4]. by split. Qed.

Section delivery.
Context `{Nic}.
Variable psend : send_wr -> Z.

(** bytes of the local write region, to the peer's send region *)
Lemma link_to_send cc hc kc hk loff roff msg len sig :
  link cc hc kc hk -> holds (h_write hc) loff msg -> len = blen msg -> 0 < len < 2 ^ 32 ->
  0 <= loff -> loff + len <= buf_size (h_write hc) -> 0 <= roff -> roff + len <= buf_size (h_send hk) ->
  deliver (post_write0 psend cc hc None len loff roff sig) cc (kc, hk)
  = Done (Host (poke (h_send hk) roff msg) (h_write hk)).
Proof.
  intros [L1 L2 L3 L4] Hh -> Hl Ho Hb Hr Hrb. rewrite deliver_post_write0 by done.
  by rewrite blen_to_nat, (holds_peek _ _ _ Hh).
Qed.

(** ... to the peer's write region *)
Lemma link_to_write cc hc kc hk loff roff msg len sig :
  link cc hc kc hk -> holds (h_write hc) loff msg -> len = blen msg -> 0 < len < 2 ^ 32 ->
  0 <= loff -> loff + len <= buf_size (h_write hc) -> 0 <= roff -> roff + len <= buf_size (h_write hk) ->
  deliver (post_write psend cc hc None len loff roff sig) cc (kc, hk)
  = Done (Host (h_send hk) (poke (h_write hk) roff msg)).
Proof.
  intros [L1 L2 L3 L4] Hh -> Hl Ho Hb Hr Hrb. rewrite deliver_post_write by done.
  by rewrite blen_to_nat, (holds_peek _ _ _ Hh).
Qed.

(** from the send region to the peer's write region *)
Lemma link_from_send cc hc kc hk loff roff msg len sig :
  link cc hc kc hk -> holds (h_send hc) loff msg -> len = blen msg -> 0 < len <= MAX_INLINE_SIZE ->
  0 <= loff -> loff + len <= buf_size (h_send hc) -> 0 <= roff -> roff + len <= buf_size (h_write hk) ->
  deliver (post_write1 psend cc hc None len loff roff sig) cc (kc, hk)
  = Done (Host (h_send hk) (poke (h_write hk) roff msg)).
Proof.
  intros [L1 L2 L3 L4] Hh -> Hl Ho Hb Hr Hrb. rewrite deliver_post_write1 by done.
  by rewrite blen_to_nat, (holds_peek _ _ _ Hh).
Qed.

(** A message handed over to the clerk's send buffer: the message, then the
    header word; the write region may change in between. *)
Lemma link_message cc hc kc hk msg n :
  link cc hc kc hk -> holds (h_write hc) 0 (word CLIENT_DONE) -> holds (h_write hc) RING_HEADER msg ->
  n = blen msg -> 0 < n <= MAX_MESSAGE -> msg_buf (h_write hc) -> msg_buf (h_send hk) ->
  exists b1 b2,
    deliver (post_write0 psend cc hc None n RING_HEADER RING_HEADER false) cc (kc, hk)
      = Done (Host b1 (h_write hk)) /\ buf_size b1 = buf_size (h_send hk) /\
    (forall w, buf_size w = buf_size (h_write hk) ->
       deliver (post_write0 psend cc hc None 4 0 0 true) cc (kc, Host b1 w) = Done (Host b2 w)) /\
    buf_size b2 = buf_size (h_send hk) /\ framed b2 CLIENT_DONE msg.
Proof.
  intros HL Hw Hm -> Hn H1 H2. unfold msg_buf in *.
  exists (poke (h_send hk) RING_HEADER msg), (poke (poke (h_send hk) RING_HEADER msg) 0 (word CLIENT_DONE)).
  split; [apply link_to_send; try done; blia|]. split; [done|]. split; [|split; [done|split; [apply holds_poke|]]].
  - intros w Hsz.
    apply (link_to_send cc hc kc (Host (poke (h_send hk) RING_HEADER msg) w) 0 0 (word CLIENT_DONE));
      try done; simpl; rewrite ?buf_size_poke; try blia.
    by apply (link_sizes cc hc kc hk).
  - apply holds_poke_ne; [blia|apply holds_poke].
Qed.

(** A message that both ends keep in their write regions: the group front end
    sends requests and replies this way. *)
Lemma link_message_write cc hc kc hk w msg n :
  link cc hc kc hk -> framed (h_write hc) w msg -> n = blen msg -> 0 < n <= MAX_MESSAGE ->
  msg_buf (h_write hc) -> msg_buf (h_write hk) ->
  exists b1 b2,
    deliver (post_write psend cc hc None n RING_HEADER RING_HEADER false) cc (kc, hk)
      = Done (Host (h_send hk) b1) /\
    deliver (post_write psend cc hc None 4 0 0 true) cc (kc, Host (h_send hk) b1) = Done (Host (h_send hk) b2) /\
    buf_size b2 = buf_size (h_write hk) /\ framed b2 w msg.
Proof.
  intros HL [Hw Hm] -> Hn H1 H2. unfold msg_buf in *.
  exists (poke (h_write hk) RING_HEADER msg), (poke (poke (h_write hk) RING_HEADER msg) 0 (word w)).
  split; [apply link_to_write; try done; blia|]. split; [|split; [done|split; [apply holds_poke|]]].
  - apply (link_to_write cc hc kc (Host (h_send hk) (poke (h_write hk) RING_HEADER msg)) 0 0 (word w));
      try done; simpl; rewrite ?buf_size_poke; try blia.
    by apply (link_sizes cc hc kc hk).
  - apply holds_poke_ne; [blia|apply holds_poke].
Qed.

(** A reply from the clerk's send buffer, short enough to be inline. *)
Lemma link_reply kc hk cc hc msg n :
  link kc hk cc hc -> framed (h_send hk) CLERK_DONE msg -> n = blen msg -> 4 <= n <= MAX_INLINE_SIZE ->
  msg_buf (h_send hk) -> msg_buf (h_write hc) ->
  exists b1 b2,
    deliver (post_write1 psend kc hk None n RING_HEADER RING_HEADER false) kc (cc, hc)
      = Done (Host (h_send hc) b1) /\
    deliver (post_write1 psend kc hk None 4 0 0 true) kc (cc, Host (h_send hc) b1) = Done (Host (h_send hc) b2) /\
    buf_size b2 = buf_size (h_write hc) /\ framed b2 CLERK_DONE msg.
Proof.
  intros HL [Hw Hm] -> Hn H1 H2. unfold msg_buf in *.
  exists (poke (h_write hc) RING_HEADER msg), (poke (poke (h_write hc) RING_HEADER msg) 0 (word CLERK_DONE)).
  split; [apply link_from_send; try done; blia|]. split; [|split; [done|split; [apply holds_poke|]]].
  - apply (link_from_send kc hk cc (Host (h_send hc) (poke (h_write hc) RING_HEADER msg)) 0 0 (word CLERK_DONE));
      try done; simpl; rewrite ?buf_size_poke; try blia.
    by apply (link_sizes kc hk cc hc).
  - apply holds_poke_ne; [blia|apply holds_poke].
Qed.
End delivery.
