(* ===== verification/DBType.v ===== *)
(** * DBType: database/db.h

    [Meta] describes where a value lies: in the messaging buffer ([memaddr_],
    here an offset of that buffer) or in a log file ([fileaddr_]).  The
    abstract class [DBType] is the type class of the same name; [DBTypeOk] is
    what a front end may rely on.  [LevelDB] and [CuckooDB] are its two
    implementations, over the interfaces [LevelDBStore] and [CuckooMap] that
    state what leveldb and libcuckoo promise. *)

From Stdlib.Strings Require Import Byte.
From S2P Require Import Prelude.

(** ** Meta *)

Inductive MetaAddr :=
  | fileaddr_ (file_offset file_index : Z)
  | memaddr_ (p : Z).

Record Meta := { m_addr : MetaAddr; flag_ : Z; key_size_ : Z; value_size_ : Z }.

Definition Meta_default : Meta :=
  {| m_addr := memaddr_ 0; flag_ := 0; key_size_ := 0; value_size_ := 0 |}.
Definition Meta_file (file_index file_offset key_size value_size : Z) : Meta :=
  {| m_addr := fileaddr_ (u32 file_offset) (u32 file_index); flag_ := 1;
     key_size_ := u31 key_size; value_size_ := u32 value_size |}.
Definition Meta_mem (mem key_size value_size : Z) : Meta :=
  {| m_addr := memaddr_ mem; flag_ := 0;
     key_size_ := u31 key_size; value_size_ := u32 value_size |}.
Definition DataSize (m : Meta) : Z := u32 (key_size_ m + value_size_ m).

(** [fileaddr_.file_offset]: the member of the union, or the low half of the
    pointer when the union holds [memaddr_] *)
Definition file_offset (m : Meta) : Z :=
  match m_addr m with fileaddr_ off _ => off | memaddr_ p => u32 p end.

(** ** The interface of a back end *)

Class DBType (DB : Type) := {
  db_Put : DB -> bytes -> bytes -> DB * bool;
  db_Get : DB -> bytes -> outcome (option bytes);
  db_Update : DB -> bytes -> bytes -> DB * bool;
  db_Delete : DB -> bytes -> DB * bool;
  db_PutBatch : DB -> list bytes -> list Meta -> bytes -> Z -> outcome (DB * bool) }.

(** [len] bytes of [buf] at [off]; outside the array the access is undefined *)
Definition slice (buf : bytes) (off len : Z) : outcome bytes :=
  if (0 <=? off) && (0 <=? len) && (off + len <=? blen buf)
  then Done (take (Z.to_nat len) (drop (Z.to_nat off) buf)) else Undefined.

(** the value a [Meta] of a batch designates in [buf] *)
Definition meta_value (buf : bytes) (m : Meta) : outcome bytes :=
  slice buf (file_offset m + key_size_ m) (value_size_ m).

(** the pairs a batch stores, in order *)
Fixpoint batch_pairs (keys : list bytes) (metas : list Meta) (buf : bytes)
    : outcome (list (bytes * bytes)) :=
  match keys, metas with
  | [], _ => Done []
  | _ :: _, [] => Undefined
  | k :: keys', m :: metas' =>
      v ← meta_value buf m;
      rest ← batch_pairs keys' metas' buf;
      Done ((k, v) :: rest)
  end.

(** the map with the pairs stored in order: a later pair wins *)
Fixpoint insert_all (kvs : list (bytes * bytes)) (m : gmap bytes bytes) : gmap bytes bytes :=
  match kvs with
  | [] => m
  | (k, v) :: rest => insert_all rest (<[k := v]> m)
  end.

(** What a back end promises: it holds a map, which the operations change as
    their names say.  [get_missing]: a key that is not there is reported as
    missing, or the call throws. *)
Class DBTypeOk (DB : Type) `{DBType DB} := {
  contents : DB -> gmap bytes bytes;
  get_present : forall db k v, contents db !! k = Some v -> db_Get db k = Done (Some v);
  get_missing : forall db k, contents db !! k = None ->
    db_Get db k = Done None \/ db_Get db k = Thrown;
  put_ok : forall db k v, exists db', db_Put db k v = (db', true) /\
    contents db' = <[k := v]> (contents db);
  update_ok : forall db k v, exists db', db_Update db k v = (db', true) /\
    contents db' = <[k := v]> (contents db);
  delete_ok : forall db k, exists db', db_Delete db k = (db', true) /\
    contents db' = delete k (contents db);
  put_batch_ok : forall db keys metas buf len kvs,
    batch_pairs keys metas buf = Done kvs ->
    exists db', db_PutBatch db keys metas buf len = Done (db', true) /\
      contents db' = insert_all kvs (contents db) }.

(** ** LevelDB *)

Inductive batch_op := batch_Put (k v : bytes) | batch_Delete (k : bytes).

Definition apply_op (o : batch_op) (m : gmap bytes bytes) : gmap bytes bytes :=
  match o with batch_Put k v => <[k := v]> m | batch_Delete k => delete k m end.

(** the state of an open [leveldb::DB]; [Write] and [Get] report [ok()] *)
Class LevelDBStore (S : Type) := {
  store_Write : S -> list batch_op -> S * bool;
  store_Get : S -> bytes -> option bytes }.

Class LevelDBStoreOk (S : Type) `{LevelDBStore S} := {
  store_contents : S -> gmap bytes bytes;
  store_write_ok : forall s ops, exists s', store_Write s ops = (s', true) /\
    store_contents s' = foldl (fun m o => apply_op o m) (store_contents s) ops;
  store_get_ok : forall s k, store_Get s k = store_contents s !! k }.

Module LevelDB.
Definition FLAGS_use_existing_db : bool := false.
Definition FLAGS_reuse_logs : bool := true.
Definition FLAGS_cache_size : Z := 256 * 1024 * 1024.
Definition FLAGS_bloom_bits : Z := 10.

(** the members of [leveldb::Options] the constructor sets *)
Record Options := {
  create_if_missing : bool; block_cache : option Z; write_buffer_size : Z;
  max_file_size : Z; filter_policy : option Z; reuse_logs : bool; compression : bool }.

Definition options : Options :=
  {| create_if_missing := negb FLAGS_use_existing_db;
     block_cache := if 0 <=? FLAGS_cache_size then Some FLAGS_cache_size else None;
     write_buffer_size := 64 * 1024 * 1024;
     max_file_size := 64 * 1024 * 1024;
     filter_policy := if 0 <=? FLAGS_bloom_bits then Some FLAGS_bloom_bits else None;
     reuse_logs := FLAGS_reuse_logs;
     compression := false |}.

Section leveldb.
Context {S : Type} `{LevelDBStore S}.

(** the constructor; [Open] is [leveldb::DB::Open] *)
Definition LevelDB (Open : Options -> bytes -> option S) (directory dbname : bytes)
    (sync : bool) : outcome S :=
  match Open options (directory ++ text "/" ++ dbname) with
  | Some s => Done s
  | None => Exited 1
  end.

Definition Put (s : S) (key val : bytes) : S * bool :=
  store_Write s [batch_Put key val].

Definition Get (s : S) (key : bytes) : outcome (option bytes) :=
  Done (store_Get s key).

Definition Update (s : S) (key val : bytes) : S * bool :=
  store_Write s [batch_Put key val].

Definition Delete (s : S) (key : bytes) : S * bool :=
  store_Write s [batch_Delete key].

(** the loop that fills the [WriteBatch] *)
Fixpoint fill_batch (keys : list bytes) (metas : list Meta) (buf : bytes)
    : outcome (list batch_op) :=
  match keys, metas with
  | [], _ => Done []
  | _ :: _, [] => Undefined
  | k :: keys', m :: metas' =>
      val ← slice buf (file_offset m + key_size_ m) (value_size_ m);
      rest ← fill_batch keys' metas' buf;
      Done (batch_Put k val :: rest)
  end.

(** the status of the write is not looked at *)
Definition PutBatch (s : S) (key_batch : list bytes) (metas : list Meta) (buf : bytes)
    (length : Z) : outcome (S * bool) :=
  batch ← fill_batch key_batch metas buf;
  let (s', _) := store_Write s batch in
  Done (s', true).
End leveldb.
End LevelDB.

Definition LevelDB_DBType (S : Type) `{LevelDBStore S} : DBType S :=
  {| db_Put := LevelDB.Put; db_Get := LevelDB.Get; db_Update := LevelDB.Update;
     db_Delete := LevelDB.Delete; db_PutBatch := LevelDB.PutBatch |}.

(** ** CuckooDB *)

(** [libcuckoo::cuckoohash_map<std::string, V>]: [cuckoo_find] is the [find]
    with an output parameter; the one with a single argument throws
    [std::out_of_range] when there is no such key. *)
Class CuckooMap (V T : Type) := {
  cuckoo_empty : T;
  cuckoo_find : T -> bytes -> option V;
  cuckoo_insert_or_assign : T -> bytes -> V -> T;
  cuckoo_erase : T -> bytes -> T }.

Class CuckooMapOk (V T : Type) `{CuckooMap V T} := {
  cuckoo_contents : T -> gmap bytes V;
  cuckoo_empty_ok : cuckoo_contents cuckoo_empty = ∅;
  cuckoo_find_ok : forall t k, cuckoo_find t k = cuckoo_contents t !! k;
  cuckoo_insert_ok : forall t k v,
    cuckoo_contents (cuckoo_insert_or_assign t k v) = <[k := v]> (cuckoo_contents t);
  cuckoo_erase_ok : forall t k,
    cuckoo_contents (cuckoo_erase t k) = delete k (cuckoo_contents t) }.

Module CuckooDB.
Section cuckoodb.
Context {T : Type} `{CuckooMap bytes T}.

Definition CuckooDB (directory dbname : bytes) (sync : bool) : T := cuckoo_empty.

Definition Put (t : T) (key val : bytes) : T * bool :=
  (cuckoo_insert_or_assign t key val, true).

Definition Get (t : T) (key : bytes) : outcome (option bytes) :=
  match cuckoo_find t key with
  | Some v => Done (Some v)
  | None => Thrown
  end.

Definition Update (t : T) (key val : bytes) : T * bool :=
  (cuckoo_insert_or_assign t key val, true).

Definition Delete (t : T) (key : bytes) : T * bool := (cuckoo_erase t key, true).

Fixpoint PutBatch_loop (t : T) (keys : list bytes) (metas : list Meta) (buf : bytes)
    : outcome T :=
  match keys, metas with
  | [], _ => Done t
  | _ :: _, [] => Undefined
  | k :: keys', m :: metas' =>
      val ← slice buf (file_offset m + key_size_ m) (value_size_ m);
      PutBatch_loop (cuckoo_insert_or_assign t k val) keys' metas' buf
  end.

Definition PutBatch (t : T) (key_batch : list bytes) (metas : list Meta) (buf : bytes)
    (length : Z) : outcome (T * bool) :=
  t' ← PutBatch_loop t key_batch metas buf; Done (t', true).
End cuckoodb.
End CuckooDB.

Definition CuckooDB_DBType (T : Type) `{CuckooMap bytes T} : DBType T :=
  {| db_Put := CuckooDB.Put; db_Get := CuckooDB.Get; db_Update := CuckooDB.Update;
     db_Delete := CuckooDB.Delete; db_PutBatch := CuckooDB.PutBatch |}.

(** *** Concrete maps, to run the definitions *)

Definition gmap_cuckoo (V : Type) : CuckooMap V (gmap bytes V) :=
  {| cuckoo_empty := ∅;
     cuckoo_find t k := t !! k;
     cuckoo_insert_or_assign t k v := <[k := v]> t;
     cuckoo_erase t k := delete k t |}.

Definition gmap_leveldb : LevelDBStore (gmap bytes bytes) :=
  {| store_Write s ops := (foldl (fun m o => apply_op o m) s ops, true);
     store_Get s k := s !! k |}.

(** ** The implementations keep the contract *)

Section contract.
Lemma slice_spec buf off len :
  0 <= off -> 0 <= len -> off + len <= blen buf ->
  slice buf off len = Done (take (Z.to_nat len) (drop (Z.to_nat off) buf)).
Proof. intros. unfold slice. by zdecide. Qed.

Lemma insert_all_app a b m : insert_all (a ++ b) m = insert_all b (insert_all a m).
Proof. revert m; induction a as [|[k v] a IH]; intros m; simpl; [done|apply IH]. Qed.

Lemma insert_all_bound kvs m n :
  Forall (fun p => blen p.2 <= n) kvs -> (forall key v, m !! key = Some v -> blen v <= n) ->
  forall key v, insert_all kvs m !! key = Some v -> blen v <= n.
Proof.
  intros Hk. revert m; induction Hk as [|[k v] kvs Hv Hk IH]; intros m Hm; simpl; [done|].
  apply IH. intros key w. destruct (decide (key = k)) as [->|Hne].
  - rewrite lookup_insert_eq. by intros [= <-].
  - rewrite lookup_insert_ne by done. apply Hm.
Qed.

Lemma fill_batch_pairs keys metas buf kvs :
  batch_pairs keys metas buf = Done kvs ->
  LevelDB.fill_batch keys metas buf = Done (map (fun p => batch_Put p.1 p.2) kvs).
Proof.
  revert metas kvs; induction keys as [|k keys IH]; intros metas kvs Hb; simpl in *.
  - by inv_done.
  - destruct metas as [|m metas]; [done|]. inv_done.
    unfold meta_value in *. erewrite IH by eassumption.
    match goal with E : slice _ _ _ = Done _ |- _ => rewrite E end. done.
Qed.

Lemma foldl_batch_put kvs m :
  foldl (fun m o => apply_op o m) m (map (fun p => batch_Put p.1 p.2) kvs) = insert_all kvs m.
Proof. revert m; induction kvs as [|[k v] kvs IH]; intros m; simpl; [done|apply IH]. Qed.

Lemma cuckoo_batch_loop {T} `{CuckooMapOk bytes T} keys metas buf kvs (t : T) :
  batch_pairs keys metas buf = Done kvs ->
  exists t', CuckooDB.PutBatch_loop t keys metas buf = Done t' /\
    cuckoo_contents t' = insert_all kvs (cuckoo_contents t).
Proof.
  revert metas kvs t; induction keys as [|k keys IH]; intros metas kvs t Hb; simpl in *.
  - inv_done. eauto.
  - destruct metas as [|m metas]; [done|]. inv_done. unfold meta_value in *.
    match goal with E : slice _ _ _ = Done _ |- _ => rewrite E end.
    match goal with E : batch_pairs _ _ _ = Done _ |- _ =>
      destruct (IH _ _ (cuckoo_insert_or_assign t k x) E) as (t' & E1 & E2) end.
    exists t'. split; [exact E1|]. simpl. by rewrite E2, cuckoo_insert_ok.
Qed.
End contract.

Definition LevelDB_ok (S : Type) `{LevelDBStoreOk S} : @DBTypeOk S (LevelDB_DBType S).
Proof.
  refine {| contents := store_contents : S -> _ |}; simpl.
  - intros db k v Hk. unfold LevelDB.Get. by rewrite store_get_ok, Hk.
  - intros db k Hk. left. unfold LevelDB.Get. by rewrite store_get_ok, Hk.
  - intros db k v. apply (store_write_ok db [batch_Put k v]).
  - intros db k v. apply (store_write_ok db [batch_Put k v]).
  - intros db k. apply (store_write_ok db [batch_Delete k]).
  - intros db keys metas buf len kvs Hb. unfold LevelDB.PutBatch.
    rewrite (fill_batch_pairs _ _ _ _ Hb). simpl.
    destruct (store_write_ok db (map (fun p => batch_Put p.1 p.2) kvs)) as (s' & -> & E).
    exists s'. split; [done|]. by rewrite E, foldl_batch_put.
Defined.

Definition CuckooDB_ok (T : Type) `{CuckooMapOk bytes T} : @DBTypeOk T (CuckooDB_DBType T).
Proof.
  refine {| contents := cuckoo_contents : T -> _ |}; simpl.
  - intros db k v Hk. unfold CuckooDB.Get. by rewrite cuckoo_find_ok, Hk.
  - intros db k Hk. right. unfold CuckooDB.Get. by rewrite cuckoo_find_ok, Hk.
  - intros db k v. eexists; split; [done|]. apply cuckoo_insert_ok.
  - intros db k v. eexists; split; [done|]. apply cuckoo_insert_ok.
  - intros db k. eexists; split; [done|]. apply cuckoo_erase_ok.
  - intros db keys metas buf len kvs Hb. unfold CuckooDB.PutBatch.
    destruct (cuckoo_batch_loop keys metas buf kvs db Hb) as (t' & -> & E). eauto.
Defined.

Definition gmap_cuckoo_ok (V : Type) : @CuckooMapOk V _ (gmap_cuckoo V).
Proof. by refine {| cuckoo_contents := (fun t => t) : gmap bytes V -> _ |}. Defined.

Definition gmap_leveldb_ok : @LevelDBStoreOk _ gmap_leveldb.
Proof. refine {| store_contents := (fun t => t) : gmap bytes bytes -> _ |}; simpl; eauto. Defined.

(** ** The back ends run like a map

    A sequence of calls, and what each [Get] of it reports. *)
Inductive db_call :=
  | call_Put (k v : bytes) | call_Update (k v : bytes) | call_Delete (k : bytes)
  | call_PutBatch (keys : list bytes) (metas : list Meta) (buf : bytes) (len : Z)
  | call_Get (k : bytes).

Definition db_run1 {DB} `{DBType DB} (c : db_call) (db : DB) : outcome (DB * list (option bytes)) :=
  match c with
  | call_Put k v => Done ((db_Put db k v).1, [])
  | call_Update k v => Done ((db_Update db k v).1, [])
  | call_Delete k => Done ((db_Delete db k).1, [])
  | call_PutBatch keys metas buf len =>
      '(db', _) ← db_PutBatch db keys metas buf len; Done (db', [])
  | call_Get k => r ← db_Get db k; Done (db, [r])
  end.

Fixpoint db_run {DB} `{DBType DB} (cs : list db_call) (db : DB) : outcome (DB * list (option bytes)) :=
  match cs with
  | [] => Done (db, [])
  | c :: cs' =>
      '(db, r) ← db_run1 c db;
      '(db, rs) ← db_run cs' db;
      Done (db, r ++ rs)
  end.

(** the same calls on a map; [miss] is what [Get] does without the key *)
Definition map_run1 (miss : outcome (option bytes)) (c : db_call) (m : gmap bytes bytes)
    : outcome (gmap bytes bytes * list (option bytes)) :=
  match c with
  | call_Put k v | call_Update k v => Done (<[k := v]> m, [])
  | call_Delete k => Done (delete k m, [])
  | call_PutBatch keys metas buf _ =>
      kvs ← batch_pairs keys metas buf; Done (insert_all kvs m, [])
  | call_Get k => r ← match m !! k with Some v => Done (Some v) | None => miss end; Done (m, [r])
  end.

Fixpoint map_run (miss : outcome (option bytes)) (cs : list db_call) (m : gmap bytes bytes)
    : outcome (gmap bytes bytes * list (option bytes)) :=
  match cs with
  | [] => Done (m, [])
  | c :: cs' =>
      '(m, r) ← map_run1 miss c m;
      '(m, rs) ← map_run miss cs' m;
      Done (m, r ++ rs)
  end.

(** two runs with the same outcome, the databases related by [contents] *)
Definition run_match {DB} `{DBTypeOk DB} (a : outcome (DB * list (option bytes)))
    (b : outcome (gmap bytes bytes * list (option bytes))) : Prop :=
  match a, b with
  | Done (db, rs), Done (m, rs') => contents db = m /\ rs = rs'
  | Thrown, Thrown | Undefined, Undefined => True
  | _, _ => False
  end.

Section run.
Context {DB : Type} `{DBTypeOk DB}.
Variable miss : outcome (option bytes).
Hypothesis miss_ok : miss = Done None \/ miss = Thrown.
Hypothesis get_miss : forall db k, contents db !! k = None -> db_Get db k = miss.
(** a batch whose records are not all inside the buffer *)
Hypothesis batch_bad : forall db keys metas buf len,
  batch_pairs keys metas buf = Undefined -> db_PutBatch db keys metas buf len = Undefined.

Lemma batch_pairs_outcome keys metas buf :
  (exists kvs, batch_pairs keys metas buf = Done kvs) \/ batch_pairs keys metas buf = Undefined.
Proof.
  revert metas; induction keys as [|k keys IH]; intros metas; simpl; [by left; eauto|].
  destruct metas as [|m metas]; [by right|]. unfold meta_value, slice.
  destruct (_ && _ && _); simpl; [|by right].
  destruct (IH metas) as [[kvs ->]| ->]; simpl; [left; eauto|by right].
Qed.

Lemma db_run1_map c db : run_match (db_run1 c db) (map_run1 miss c (contents db)).
Proof.
  destruct c as [k v|k v|k|keys metas buf len|k]; simpl.
  - destruct (put_ok db k v) as (db' & -> & E). done.
  - destruct (update_ok db k v) as (db' & -> & E). done.
  - destruct (delete_ok db k) as (db' & -> & E). done.
  - destruct (batch_pairs_outcome keys metas buf) as [[kvs E]|E].
    + destruct (put_batch_ok db keys metas buf len kvs E) as (db' & -> & E').
      rewrite E. simpl. done.
    + by rewrite E, batch_bad.
  - destruct (contents db !! k) as [v|] eqn:E.
    + by rewrite (get_present _ _ _ E).
    + rewrite get_miss by done. by destruct miss_ok as [-> | ->].
Qed.

Lemma db_run_map cs db : run_match (db_run cs db) (map_run miss cs (contents db)).
Proof.
  revert db; induction cs as [|c cs IH]; intros db; simpl; [done|].
  pose proof (db_run1_map c db) as H1.
  destruct (db_run1 c db) as [[db' r]| | | | |], (map_run1 miss c (contents db)) as [[m r']| | | | |];
    simpl in *; try done. destruct H1 as [<- <-].
  pose proof (IH db') as H2.
  destruct (db_run cs db') as [[db'' rs]| | | | |], (map_run miss cs (contents db')) as [[m' rs']| | | | |];
    simpl in *; try done. destruct H2 as [<- <-]. done.
Qed.
End run.

Lemma fill_batch_bad keys metas buf :
  batch_pairs keys metas buf = Undefined -> LevelDB.fill_batch keys metas buf = Undefined.
Proof.
  revert metas; induction keys as [|k keys IH]; intros metas Hb; simpl in *; [done|].
  destruct metas as [|m metas]; [done|]. unfold meta_value, slice in *.
  destruct (_ && _ && _); simpl in *; [|done].
  destruct (batch_pairs_outcome keys metas buf) as [[kvs E]|E]; rewrite E in Hb; [done|].
  by rewrite IH.
Qed.

Lemma PutBatch_loop_bad {T} `{CuckooMap bytes T} keys metas buf (t : T) :
  batch_pairs keys metas buf = Undefined -> CuckooDB.PutBatch_loop t keys metas buf = Undefined.
Proof.
  revert metas t; induction keys as [|k keys IH]; intros metas t Hb; simpl in *; [done|].
  destruct metas as [|m metas]; [done|]. unfold meta_value, slice in *.
  destruct (_ && _ && _); simpl in *; [|done].
  destruct (batch_pairs_outcome keys metas buf) as [[kvs E]|E]; rewrite E in Hb; [done|].
  by apply IH.
Qed.


Definition example_calls : list db_call :=
  [call_Put (text "a") (text "1"); call_Update (text "a") (text "2"); call_Get (text "a");
   call_Delete (text "a"); call_Get (text "a")].


(** C31: [CuckooDB] over libcuckoo runs like the same map, except that [Get] of
    a key that is not there does not report it: [find] throws, and the
    exception leaves [Get]. *)
Theorem CuckooDB_refines_map {T} `{CuckooMapOk bytes T} cs (t : T) :
  @run_match T (CuckooDB_DBType T) (CuckooDB_ok T)
    (@db_run T (CuckooDB_DBType T) cs t) (map_run Thrown cs (cuckoo_contents t)).
Proof.
  apply (@db_run_map T (CuckooDB_DBType T) (CuckooDB_ok T)); [by right| |].
  - intros db k Hk. simpl in *. unfold CuckooDB.Get. by rewrite cuckoo_find_ok, Hk.
  - intros db keys metas buf len Hb. simpl. unfold CuckooDB.PutBatch. by rewrite PutBatch_loop_bad.
Qed.

Lemma CuckooDB_refines_map_witness :
  @run_match _ (@CuckooDB_DBType _ (gmap_cuckoo bytes)) (@CuckooDB_ok _ (gmap_cuckoo bytes) (gmap_cuckoo_ok bytes))
    (@db_run _ (@CuckooDB_DBType _ (gmap_cuckoo bytes)) example_calls ∅) Thrown.
Proof.
  exact (@CuckooDB_refines_map _ (gmap_cuckoo bytes) (gmap_cuckoo_ok bytes) example_calls ∅).
Defined.
