(* ===== verification/Records.v ===== *)
(** * Records: sequences of records in a buffer

    The layout the front ends share: requests one behind the other, in a chunk
    of the messaging buffer (PMR) or in the batch of a group (group front
    end), and the [Meta]s that describe them to [PutBatch]. *)

From Stdlib.Strings Require Import Byte.
From S2P Require Import Prelude Buf Request Rdma Message DBType.

(** ** Records behind each other *)

Definition chunk_bytes (es : list entry) : bytes := concat (map entry_bytes es).
Definition chunk_size (es : list entry) : Z := blen (chunk_bytes es).
Definition kv (e : entry) : bytes * bytes := (e_key e, e_val e).

(** what the clerk remembers of a record at offset [h] of the chunk *)
Definition entry_meta (h : Z) (e : entry) : Meta :=
  Meta_file 0 (h + sizeof_Request) (blen (e_key e)) (blen (e_val e)).
Fixpoint entry_metas (h : Z) (es : list entry) : list Meta :=
  match es with
  | [] => []
  | e :: es' => entry_meta h e :: entry_metas (h + entry_size e) es'
  end.

Lemma chunk_bytes_app a b : chunk_bytes (a ++ b) = chunk_bytes a ++ chunk_bytes b.
Proof. unfold chunk_bytes. by rewrite map_app, concat_app. Qed.
Lemma chunk_size_app a b : chunk_size (a ++ b) = chunk_size a + chunk_size b.
Proof. unfold chunk_size. by rewrite chunk_bytes_app, blen_app. Qed.
Lemma chunk_size_one e : chunk_size [e] = entry_size e.
Proof. unfold chunk_size, chunk_bytes. simpl. rewrite app_nil_r. apply blen_entry. Qed.
Lemma chunk_size_cons e es : chunk_size (e :: es) = entry_size e + chunk_size es.
Proof. change (e :: es) with ([e] ++ es). by rewrite chunk_size_app, chunk_size_one. Qed.
Lemma chunk_size_nonneg es : 0 <= chunk_size es.
Proof. apply blen_nonneg. Qed.
Lemma entry_metas_app h a b :
  entry_metas h (a ++ b) = entry_metas h a ++ entry_metas (h + chunk_size a) b.
Proof.
  revert h; induction a as [|e a IH]; intros h; simpl.
  - change (chunk_size []) with 0. by rewrite Z.add_0_r.
  - rewrite IH, chunk_size_cons. do 3 f_equal. lia.
Qed.

(** the bytes of one record inside a list of bytes *)
Lemma slice_mid pre mid post :
  slice (pre ++ mid ++ post) (blen pre) (blen mid) = Done mid.
Proof.
  rewrite slice_spec by (rewrite ?blen_app; pose proof (blen_nonneg pre); pose proof (blen_nonneg mid);
    pose proof (blen_nonneg post); lia).
  by rewrite !blen_to_nat, drop_app_length, take_app_length.
Qed.

(** The batch of a chunk stores exactly its records, whatever follows them. *)
Lemma entry_batch_pairs es pre post :
  Forall record_ok es -> blen pre + chunk_size es <= 2 * MAX_ASYNC_SIZE ->
  batch_pairs (map e_key es) (entry_metas (blen pre) es) (pre ++ chunk_bytes es ++ post)
  = Done (map kv es).
Proof.
  intros Hok. revert pre; induction Hok as [|e es He Hok IH]; intros pre Hs; [done|].
  rewrite chunk_size_cons in Hs. pose proof (chunk_size_nonneg es).
  destruct He as (_ & _ & Hsz). simpl.
  unfold meta_value, entry_meta, Meta_file, file_offset. cbn [m_addr key_size_ value_size_].
  rewrite u32_small, u31_small, u32_small by blia.
  unfold chunk_bytes. simpl. fold (chunk_bytes es).
  replace (pre ++ (entry_bytes e ++ chunk_bytes es) ++ post)
    with ((pre ++ entry_head e) ++ e_val e ++ chunk_bytes es ++ post)
    by (unfold entry_bytes; by rewrite <- !app_assoc).
  replace (blen pre + sizeof_Request + blen (e_key e)) with (blen (pre ++ entry_head e)) by blia.
  rewrite slice_mid. cbn [mbind outcome_bind].
  replace ((pre ++ entry_head e) ++ e_val e ++ chunk_bytes es ++ post)
    with ((pre ++ entry_bytes e) ++ chunk_bytes es ++ post)
    by (unfold entry_bytes; by rewrite <- !app_assoc).
  replace (blen pre + entry_size e) with (blen (pre ++ entry_bytes e)) by blia.
  rewrite IH; [done|]. rewrite blen_app, blen_entry. lia.
Qed.

(** the value of a record of the chunk, in the messaging buffer *)
Lemma chunk_value dma off pre e post :
  holds dma off (chunk_bytes (pre ++ e :: post)) ->
  holds dma (off + chunk_size pre + 8 + blen (e_key e)) (e_val e).
Proof.
  intros Hh. rewrite chunk_bytes_app in Hh. apply holds_app in Hh as [_ Hh].
  unfold chunk_bytes in Hh at 2. simpl in Hh. apply holds_app in Hh as [Hh _].
  unfold entry_bytes in Hh. apply holds_app in Hh as [_ Hh].
  rewrite blen_entry_head in Hh. unfold chunk_size.
  by replace (off + blen (chunk_bytes pre) + 8 + blen (e_key e))
    with (off + blen (chunk_bytes pre) + (8 + blen (e_key e))) by lia.
Qed.

