(* ===== verification/Uring.v ===== *)
(** * Uring: frontend/pmr/uring.h

    [IOuring] wraps an io_uring whose writes go to one log file at the offset
    [offset_].  The kernel side of the ring is the list of entries filled and
    not completed yet: completions come in any order, and the bytes are in the
    file when the completion is reaped. *)

From Stdlib.Strings Require Import Byte.
From S2P Require Import Prelude Buf.

Definition PREALLOCATE_SIZE : Z := 4 * 1024 * 1024 * 1024.

(** a submission entry: the bytes to write, their file offset, the user data *)
Record sqe := { sq_buf : bytes; sq_size : Z; sq_offset : Z; sq_data : Z }.

Record IOuring := { ring_ : list sqe; file_ : gmap Z byte; inflight_ : Z; offset_ : Z; qd_ : Z }.

(** the constructor, [io_uring_queue_init] returning [ret] *)
Definition make_ring (ret queue_size : Z) : outcome IOuring :=
  if ret <? 0 then Exited (-1)
  else Done {| ring_ := []; file_ := ∅; inflight_ := 0; offset_ := 0; qd_ := queue_size |}.

Definition Full (r : IOuring) : bool := qd_ r <=? inflight_ r.
Definition Empty (r : IOuring) : bool := inflight_ r =? 0.

(** [Write]: [size] bytes of [buf] at the current offset *)
Definition Write (r : IOuring) (b : bytes) (size data : Z) : IOuring :=
  {| ring_ := ring_ r ++ [ {| sq_buf := b; sq_size := size; sq_offset := offset_ r; sq_data := data |} ];
     file_ := file_ r; inflight_ := inflight_ r + 1; offset_ := offset_ r + size; qd_ := qd_ r |}.

(** [Wait], the kernel reporting the [pick]-th entry in flight: its user data,
    and the ring with the entry's bytes in the file *)
Definition Wait (pick : nat) (r : IOuring) : option (Z * IOuring) :=
  match ring_ r !! pick with
  | Some e =>
      Some (sq_data e,
        {| ring_ := take pick (ring_ r) ++ drop (S pick) (ring_ r);
           file_ := store (file_ r) (sq_offset e) (take (Z.to_nat (sq_size e)) (sq_buf e));
           inflight_ := inflight_ r; offset_ := offset_ r; qd_ := qd_ r |})
  | None => None
  end.

(** [Seen] *)
Definition Seen (r : IOuring) : IOuring :=
  {| ring_ := ring_ r; file_ := file_ r; inflight_ := inflight_ r - 1;
     offset_ := offset_ r; qd_ := qd_ r |}.

(** The counter agrees with the entries in flight and the queue is never
    overfilled. *)
Definition ring_wf (r : IOuring) : Prop :=
  inflight_ r = Z.of_nat (length (ring_ r)) /\ inflight_ r <= qd_ r.

Lemma Write_wf r b size data : ring_wf r -> Full r = false -> ring_wf (Write r b size data).
Proof.
  unfold ring_wf, Full, Write; simpl. rewrite Z.leb_gt, length_app. simpl. lia.
Qed.

Lemma Wait_length pick r d r' :
  Wait pick r = Some (d, r') -> length (ring_ r) = S (length (ring_ r')).
Proof.
  unfold Wait. destruct (ring_ r !! pick) as [e|] eqn:E; [|done]. intros [= _ <-]; simpl.
  apply lookup_lt_Some in E. rewrite length_app, length_take, length_drop. lia.
Qed.

Lemma Wait_Seen_wf pick r d r' :
  ring_wf r -> Wait pick r = Some (d, r') -> ring_wf (Seen r').
Proof.
  intros [H1 H2] E. pose proof (Wait_length _ _ _ _ E) as Hl.
  unfold Wait in E. destruct (ring_ r !! pick) as [e|]; [|done]. injection E as _ <-.
  unfold ring_wf; simpl in *. lia.
Qed.

(** ** The log file

    [file_inv r ws]: [ws] are the byte strings submitted so far, one after the
    other from offset 0; each is in flight or in the file. *)

Definition start_of (n : nat) (ws : list bytes) : Z := blen (concat (take n ws)).
Definition sq_bytes (e : sqe) : bytes := take (Z.to_nat (sq_size e)) (sq_buf e).

Definition in_file (f : gmap Z byte) (off : Z) (w : bytes) : Prop :=
  forall j : nat, (j < length w)%nat -> f !! (off + Z.of_nat j) = w !! j.

Definition file_inv (r : IOuring) (ws : list bytes) : Prop :=
  offset_ r = blen (concat ws) /\
  (forall e, e ∈ ring_ r -> exists n w, ws !! n = Some w /\ sq_offset e = start_of n ws /\ sq_bytes e = w) /\
  (forall n w, ws !! n = Some w ->
     (exists e, e ∈ ring_ r /\ sq_offset e = start_of n ws /\ sq_bytes e = w) \/
     in_file (file_ r) (start_of n ws) w) /\
  (forall i, file_ r !! i <> None -> 0 <= i < blen (concat ws)).

Lemma start_of_next n ws w : ws !! n = Some w -> start_of (S n) ws = start_of n ws + blen w.
Proof.
  intros Hn. unfold start_of. rewrite (take_S_r _ _ _ Hn), concat_app, blen_app. simpl.
  by rewrite app_nil_r.
Qed.

Lemma start_of_mono n m ws : (n <= m)%nat -> start_of n ws <= start_of m ws.
Proof.
  intros Hnm. unfold start_of.
  assert (take m ws = take n ws ++ take (m - n) (drop n ws)) as ->.
  { rewrite take_take_drop. do 2 f_equal. lia. }
  rewrite concat_app, blen_app. pose proof (blen_nonneg (concat (take (m - n) (drop n ws)))). lia.
Qed.

Lemma start_of_le n ws : 0 <= start_of n ws <= blen (concat ws).
Proof.
  split; [apply blen_nonneg|]. destruct (decide (n <= length ws)%nat) as [Hn|Hn].
  - replace (blen (concat ws)) with (start_of (length ws) ws) by (unfold start_of; by rewrite firstn_all).
    by apply start_of_mono.
  - unfold start_of. rewrite take_ge by lia. lia.
Qed.

Lemma start_of_app n ws ws' : (n <= length ws)%nat -> start_of n (ws ++ ws') = start_of n ws.
Proof. intros Hn. unfold start_of. by rewrite take_app_le. Qed.

Lemma start_of_end ws : start_of (length ws) ws = blen (concat ws).
Proof. unfold start_of. by rewrite firstn_all. Qed.

Lemma file_inv_start ret qd r : make_ring ret qd = Done r -> file_inv r [].
Proof.
  unfold make_ring. destruct (ret <? 0); [done|]. intros [= <-]. split; [done|]. split; [|split].
  - intros e He. by apply not_elem_of_nil in He.
  - intros n w Hn. by rewrite lookup_nil in Hn.
  - intros i Hi. exfalso. apply Hi. apply lookup_empty.
Qed.

(** submitting [w], the first [blen w] bytes of the buffer *)
Lemma file_inv_write r ws b w data :
  file_inv r ws -> take (length w) b = w -> file_inv (Write r b (blen w) data) (ws ++ [w]).
Proof.
  intros (H1 & H2 & H3 & H4) Hb. pose proof (blen_nonneg w).
  assert (Hsq : take (Z.to_nat (blen w)) b = w) by (by rewrite blen_to_nat).
  assert (Hc : blen (concat (ws ++ [w])) = blen (concat ws) + blen w)
    by (rewrite concat_app, blen_app; simpl; by rewrite app_nil_r).
  unfold Write, file_inv. cbn [offset_ ring_ file_]. split; [|split; [|split]].
  - rewrite Hc. lia.
  - intros e [He|He]%elem_of_app.
    + destruct (H2 e He) as (n & w' & Hn & E1 & E2). exists n, w'.
      assert (n < length ws)%nat by (by eapply lookup_lt_Some).
      rewrite lookup_app_l, start_of_app by lia. done.
    + apply list_elem_of_singleton in He as ->. exists (length ws), w.
      rewrite lookup_app_r, Nat.sub_diag, start_of_app, start_of_end by lia.
      split; [done|]. split; [done|]. exact Hsq.
  - intros n w' Hn. destruct (decide (n < length ws)%nat) as [Hlt|Hge].
    + rewrite lookup_app_l in Hn by done. rewrite start_of_app by lia.
      destruct (H3 n w' Hn) as [(e & He & E)|Hf]; [left|by right].
      exists e. split; [apply elem_of_app; by left|done].
    + left. assert (n = length ws) as ->.
      { apply lookup_lt_Some in Hn. rewrite length_app in Hn. simpl in Hn. lia. }
      rewrite lookup_app_r, Nat.sub_diag in Hn by lia. injection Hn as <-.
      rewrite start_of_app, start_of_end by lia. eexists. split; [apply elem_of_app; right; by apply list_elem_of_singleton|].
      split; [exact H1|exact Hsq].
  - intros i Hi. specialize (H4 i Hi). lia.
Qed.

Lemma in_file_store f off w : in_file (store f off w) off w.
Proof.
  intros j Hj. rewrite store_lookup, decide_True by (unfold blen; lia).
  f_equal. lia.
Qed.

Lemma in_file_store_ne f off w off' w' :
  off' + blen w' <= off \/ off + blen w <= off' -> in_file f off' w' -> in_file (store f off w) off' w'.
Proof.
  intros Hd Hf j Hj. rewrite store_lookup, decide_False by (unfold blen in *; lia). by apply Hf.
Qed.

(** a completion, whichever *)
Lemma file_inv_reap r ws pick d r' :
  file_inv r ws -> Wait pick r = Some (d, r') -> file_inv (Seen r') ws.
Proof.
  intros (H1 & H2 & H3 & H4) E. unfold Wait in E. destruct (ring_ r !! pick) as [e|] eqn:He; [|done].
  injection E as _ <-. assert (Hin : e ∈ ring_ r) by (by eapply list_elem_of_lookup_2).
  destruct (H2 e Hin) as (n & w & Hn & E1 & E2). fold (sq_bytes e). 
  unfold file_inv. cbn [Seen offset_ ring_ file_]. rewrite E1, E2.
  assert (Hsub : forall x, x ∈ take pick (ring_ r) ++ drop (S pick) (ring_ r) -> x ∈ ring_ r).
  { intros x Hx. rewrite <- (take_drop_middle _ _ _ He). rewrite elem_of_app, elem_of_cons.
    apply elem_of_app in Hx. tauto. }
  split; [done|]. split; [|split].
  - intros x Hx. by apply H2, Hsub.
  - intros m v Hm. destruct (decide (m = n)) as [->|Hne].
    + right. rewrite Hn in Hm. injection Hm as <-. apply in_file_store.
    + destruct (H3 m v Hm) as [(x & Hx & X1 & X2)|Hf].
      * rewrite <- (take_drop_middle _ _ _ He), elem_of_app, elem_of_cons in Hx.
        destruct Hx as [Hx|[->|Hx]].
        -- left. exists x. split; [apply elem_of_app; by left|done].
        -- (* two strings at the same place: the same bytes *)
           right. assert (start_of m ws = start_of n ws) as -> by congruence.
           assert (v = w) as -> by congruence. apply in_file_store.
        -- left. exists x. split; [apply elem_of_app; by right|done].
      * right. apply in_file_store_ne; [|done].
        pose proof (start_of_next _ _ _ Hm). pose proof (start_of_next _ _ _ Hn).
        destruct (decide (m < n)%nat) as [Hlt|Hge].
        -- pose proof (start_of_mono (S m) n ws ltac:(lia)). lia.
        -- pose proof (start_of_mono (S n) m ws ltac:(lia)). lia.
  - intros i. rewrite store_lookup. case_decide as Hi; [|apply H4].
    intros _. pose proof (start_of_next _ _ _ Hn). pose proof (start_of_le (S n) ws).
    pose proof (start_of_le n ws). lia.
Qed.

(** with nothing in flight the file is exactly what was submitted *)
Lemma file_inv_empty r ws : file_inv r ws -> ring_ r = [] -> file_ r = store ∅ 0 (concat ws).
Proof.
  intros (H1 & H2 & H3 & H4) He. apply map_eq. intros i. rewrite store_lookup, lookup_empty.
  case_decide as Hi.
  2:{ destruct (file_ r !! i) eqn:E; [|done]. exfalso. apply Hi. specialize (H4 i ltac:(congruence)). lia. }
  clear H4. rewrite Z.sub_0_r. assert (Hp : forall k, (k <= length ws)%nat -> i < start_of k ws ->
    file_ r !! i = concat ws !! Z.to_nat i).
  { induction k as [|k IH]; intros Hk Hlt; [unfold start_of in Hlt; simpl in Hlt; rewrite blen_nil in Hlt; lia|].
    destruct (decide (i < start_of k ws)) as [?|Hge]; [apply IH; lia|].
    destruct (lookup_lt_is_Some_2 ws k ltac:(lia)) as [w Hw]. rewrite (start_of_next _ _ _ Hw) in Hlt.
    destruct (H3 k w Hw) as [(e & Hin & _)|Hf]; [rewrite He in Hin; by apply not_elem_of_nil in Hin|].
    specialize (Hf (Z.to_nat (i - start_of k ws))). unfold blen in Hlt.
    replace (start_of k ws + Z.of_nat (Z.to_nat (i - start_of k ws))) with i in Hf by lia.
    assert (concat ws = concat (take k ws) ++ w ++ concat (drop (S k) ws)) as Hc
      by (rewrite <- (take_drop_middle _ _ _ Hw) at 1; by rewrite concat_app).
    rewrite Hf, Hc by lia. unfold start_of, blen in *. rewrite lookup_app_r by lia.
    rewrite lookup_app_l by lia. f_equal. lia. }
  apply (Hp (length ws)); [lia|]. rewrite start_of_end. lia.
Qed.
