(* ===== verification/Example.v ===== *)
(** * Example: concrete instances, to run the definitions

    A back end ([LevelDB] over a finite map), an index, an adapter
    ([plain_nic]), and contexts with a region of a given size. *)

From S2P Require Import Prelude Buf Request Rdma Message DBType.

#[export] Existing Instance plain_nic.
#[export] Instance example_db : DBType (gmap bytes bytes) := @LevelDB_DBType _ gmap_leveldb.
#[export] Instance example_db_ok : DBTypeOk (gmap bytes bytes) := @LevelDB_ok _ gmap_leveldb gmap_leveldb_ok.
#[export] Instance example_index : CuckooMap Meta (gmap bytes Meta) := gmap_cuckoo Meta.
#[export] Instance example_index_ok : CuckooMapOk Meta (gmap bytes Meta) := gmap_cuckoo_ok Meta.

(** a context with a write region of [size] bytes *)
Definition example_region (size : Z) : RDMAContext :=
  match @open plain_verbs plain_device with
  | (Some c, _, _) => (@register_write_buf plain_verbs c 0x20000000 size).1
  | _ => make_rdma_context
  end.

Lemma example_region_wf size h r :
  0 < size < 2 ^ 31 -> buf_size (h_send h) = SEND_BUF_SIZE -> buf_size (h_write h) = size ->
  ctx_wf (with_remote (example_region size) r) h.
Proof.
  intros Hs H1 H2. unfold ctx_wf. rewrite H1, H2.
  exists {| mr_addr := 0x10000000; mr_length := SEND_BUF_SIZE; mr_lkey := 0x10000000; mr_rkey := 0x10000000 |},
    {| mr_addr := 0x20000000; mr_length := size; mr_lkey := 0x20000000; mr_rkey := 0x20000000 |},
    0x10000000.
  change (write_buf (with_remote (example_region size) r)) with 0x20000000.
  cbn [mr_addr mr_length mr_lkey mr_rkey]. change SEND_BUF_SIZE with 1048576. pows.
  split_and!; try reflexivity; lia.
Qed.

(** the contexts of the two ends of a connection, and their memory *)
Definition example_pair (csize ksize : Z) : RDMAContext * RDMAContext :=
  (with_remote (example_region csize) (local (example_region ksize)),
   with_remote (example_region ksize) (local (example_region csize))).

Lemma example_pair_link csize ksize hc hk :
  0 < csize < 2 ^ 31 -> 0 < ksize < 2 ^ 31 ->
  buf_size (h_send hc) = SEND_BUF_SIZE -> buf_size (h_write hc) = csize ->
  buf_size (h_send hk) = SEND_BUF_SIZE -> buf_size (h_write hk) = ksize ->
  link (example_pair csize ksize).1 hc (example_pair csize ksize).2 hk.
Proof. intros. split; try done; by apply example_region_wf. Qed.

Definition psend0 : send_wr -> Z := fun _ => 0.
