(* ===== verification/Pmr.v ===== *)
(** * Pmr: frontend/pmr/pmr.cc, client.h and server.h

    The PMR front end.  A client appends its records to a chunk of the
    server's messaging buffer with one-sided writes and sends only the
    metadata as a message; the clerk thread of the connection indexes the
    record ([map_]), and hands a full chunk to the database and to the log
    ring ([global_queue]).

    A client call is its code up to the spin on the header word ([..._post]),
    the iteration of the clerk's loop that answers it ([Run_once]) and its
    code after the spin ([..._done]); [SendWrite], [SendGet], ... compose the
    three.  Pointers into the messaging buffer are offsets of
    [dmabuf_mem_]. *)

From Stdlib.Strings Require Import Byte.
From S2P Require Import Prelude Buf Bitset Request Rdma Message DBType Uring.

Definition MAX_DMABUF_SIZE : Z := 8 * 1024 * 1024.

(** an entry of [global_queue]: the buffer, its used length, the chunk *)
Record queue_item := { q_buf : bytes; q_len : Z; q_chunk : Z }.

(** ** State *)

Record PMRClient := {
  c_ctx : RDMAContext; c_send : buf; local_buf_ : buf;
  c_chunk_offset_ : Z; c_buf_head_ : Z }.

Definition client_set_buf (c : PMRClient) (b : buf) : PMRClient :=
  {| c_ctx := c_ctx c; c_send := c_send c; local_buf_ := b;
     c_chunk_offset_ := c_chunk_offset_ c; c_buf_head_ := c_buf_head_ c |}.
Definition client_set_head (c : PMRClient) (off head : Z) : PMRClient :=
  {| c_ctx := c_ctx c; c_send := c_send c; local_buf_ := local_buf_ c;
     c_chunk_offset_ := off; c_buf_head_ := head |}.
Definition client_host (c : PMRClient) : host := Host (c_send c) (local_buf_ c).
Definition client_side (c : PMRClient) : side := (c_ctx c, client_host c).

(** [PMRClerk] with the two locals of [Run] *)
Record PMRClerk := {
  k_ctx : RDMAContext; send_buf_ : buf; k_buf_head_ : Z; k_chunk_offset_ : Z;
  key_batch : list bytes; metas : list Meta }.

Definition clerk_set_buf (k : PMRClerk) (b : buf) : PMRClerk :=
  {| k_ctx := k_ctx k; send_buf_ := b; k_buf_head_ := k_buf_head_ k;
     k_chunk_offset_ := k_chunk_offset_ k; key_batch := key_batch k; metas := metas k |}.

Section pmr.
Context {DB : Type} `{DBType DB} {M : Type} `{CuckooMap Meta M} `{Nic}.
(** the return codes of [ibv_post_send], which the front end ignores *)
Variable psend : send_wr -> Z.

Record PMRServer := {
  db_ : DB; map_ : M; bitmap_ : AtomicBitset; dmabuf_mem_ : buf;
  global_queue : list queue_item }.

Definition server_set_dma (s : PMRServer) (d : buf) : PMRServer :=
  {| db_ := db_ s; map_ := map_ s; bitmap_ := bitmap_ s; dmabuf_mem_ := d;
     global_queue := global_queue s |}.
Definition server_set_db (s : PMRServer) (d : DB) : PMRServer :=
  {| db_ := d; map_ := map_ s; bitmap_ := bitmap_ s; dmabuf_mem_ := dmabuf_mem_ s;
     global_queue := global_queue s |}.
Definition server_set_map (s : PMRServer) (m : M) : PMRServer :=
  {| db_ := db_ s; map_ := m; bitmap_ := bitmap_ s; dmabuf_mem_ := dmabuf_mem_ s;
     global_queue := global_queue s |}.
Definition server_set_bitmap (s : PMRServer) (b : AtomicBitset) : PMRServer :=
  {| db_ := db_ s; map_ := map_ s; bitmap_ := b; dmabuf_mem_ := dmabuf_mem_ s;
     global_queue := global_queue s |}.
Definition enqueue (s : PMRServer) (i : queue_item) : PMRServer :=
  {| db_ := db_ s; map_ := map_ s; bitmap_ := bitmap_ s; dmabuf_mem_ := dmabuf_mem_ s;
     global_queue := global_queue s ++ [i] |}.

Definition clerk_host (k : PMRClerk) (s : PMRServer) : host := Host (send_buf_ k) (dmabuf_mem_ s).
Definition clerk_side (k : PMRClerk) (s : PMRServer) : side := (k_ctx k, clerk_host k s).

(** ** The server's chunks *)

(** [AllocChunk]: [blindset], which spins while every chunk is in use *)
Definition AllocChunk (s : PMRServer) : outcome (PMRServer * Z) :=
  '(b, slot) ← blindset 1 (bitmap_ s);
  match slot with
  | Some i => Done (server_set_bitmap s b, i)
  | None => Hangs
  end.

Definition FreeChunk (s : PMRServer) (chunkid : Z) : outcome PMRServer :=
  c_assert (chunkid <? MAX_DMABUF_SIZE / MAX_ASYNC_SIZE) ≫= fun _ =>
  used ← get (bitmap_ s) chunkid;
  c_assert used ≫= fun _ =>
  '(b, _) ← clear (bitmap_ s) chunkid;
  Done (server_set_bitmap s b).

(** [PeekUsage], before the final division: the bytes in use *)
Fixpoint PeekUsage_loop (n : nat) (i usage : Z) (s : PMRServer) : outcome Z :=
  match n with
  | O => Done usage
  | S n' =>
      used ← get (bitmap_ s) i;
      PeekUsage_loop n' (i + 1) (u32 (usage + MAX_ASYNC_SIZE * (if (used : bool) then 1 else 0))) s
  end.
Definition PeekUsage (s : PMRServer) : outcome Z :=
  PeekUsage_loop (Z.to_nat (MAX_DMABUF_SIZE / MAX_ASYNC_SIZE)) 0 0 s.

(** ** Client: the code before the spin *)

(** [*header_ = CLERK_DONE]: spin, then reset the word *)
Definition wait_clerk (c : PMRClient) : outcome PMRClient :=
  b ← wait_reply (local_buf_ c); Done (client_set_buf c b).

(** the peer of the client, its memory replaced *)
Definition clerk_recv (k : PMRClerk) (s : PMRServer) (h : host) : PMRClerk * PMRServer :=
  (clerk_set_buf k (h_send h), server_set_dma s (h_write h)).

Definition state : Type := PMRClient * PMRClerk * PMRServer.

(** the request without payload of [SendAlloc] and [SendClose] *)
Definition post_empty_request (o : Operation) (c : PMRClient) (k : PMRClerk) (s : PMRServer)
    : outcome state :=
  let total_len := u16 sizeof_Request in
  b ← write_empty_request (local_buf_ c) o;
  let c := client_set_buf c b in
  h ← deliver (post_write0 psend (c_ctx c) (client_host c) None total_len RING_HEADER RING_HEADER false)
        (c_ctx c) (clerk_side k s);
  h ← deliver (post_write0 psend (c_ctx c) (client_host c) None 4 0 0 true) (c_ctx c) (k_ctx k, h);
  Done ((c, (clerk_recv k s h).1), (clerk_recv k s h).2).

Definition SendAlloc_post := post_empty_request ALLOC.

(** [SendClose]; the message it finally sends lands in the receive buffer the
    clerk posts, and the connection is over *)
Definition SendClose_post (c : PMRClient) (k : PMRClerk) (s : PMRServer) : outcome state :=
  '(c, k, s) ← post_empty_request CLOSE c k s;
  _ ← post_send psend (c_ctx c) (client_host c) None MAX_REQUEST 0 true;
  Done (c, k, s).

Definition SendWrite_total (key val : bytes) : Z := record_len key val.

(** does [SendWrite] ask for a new chunk first *)
Definition SendWrite_full (c : PMRClient) (key val : bytes) : bool :=
  MAX_ASYNC_SIZE <=? u32 (c_buf_head_ c + SendWrite_total key val).

Definition SendWrite_post (key val : bytes) (o : Operation)
    (c : PMRClient) (k : PMRClerk) (s : PMRServer) : outcome state :=
  let meta_len := u16 (sizeof_Request + u16 (strlen key)) in
  let total_len := SendWrite_total key val in
  b ← write_record (local_buf_ c) o key val;
  let c := client_set_buf c b in
  h ← deliver (post_write0 psend (c_ctx c) (client_host c) None meta_len RING_HEADER RING_HEADER false)
        (c_ctx c) (clerk_side k s);
  h ← deliver (post_write psend (c_ctx c) (client_host c) None total_len RING_HEADER
                 (u32 (c_chunk_offset_ c + c_buf_head_ c)) false) (c_ctx c) (k_ctx k, h);
  h ← deliver (post_write0 psend (c_ctx c) (client_host c) None 4 0 0 true) (c_ctx c) (k_ctx k, h);
  let c := client_set_head c (c_chunk_offset_ c) (u32 (c_buf_head_ c + total_len)) in
  Done ((c, (clerk_recv k s h).1), (clerk_recv k s h).2).

(** the request with a key and no value of [SendGet] and [SendDelete] *)
Definition post_key_request (o : Operation) (key : bytes)
    (c : PMRClient) (k : PMRClerk) (s : PMRServer) : outcome state :=
  let total_len := key_request_len key in
  b ← write_key_request (local_buf_ c) o key;
  let c := client_set_buf c b in
  h ← deliver (post_write0 psend (c_ctx c) (client_host c) None total_len RING_HEADER RING_HEADER false)
        (c_ctx c) (clerk_side k s);
  h ← deliver (post_write0 psend (c_ctx c) (client_host c) None 4 0 0 true) (c_ctx c) (k_ctx k, h);
  Done ((c, (clerk_recv k s h).1), (clerk_recv k s h).2).

Definition SendGet_post := post_key_request GET.
Definition SendDelete_post := post_key_request DELETE.

(** *** ... and after it *)

Definition SendAlloc_done (c : PMRClient) : outcome PMRClient :=
  c ← wait_clerk c;
  st ← reply_status (local_buf_ c) RING_HEADER;
  if st =? status_code OK
  then off ← bread32 (local_buf_ c) (RING_HEADER + sizeof_RequestReply);
       Done (client_set_head c off 0)
  else Done c.

Definition SendGet_done (c : PMRClient) : outcome (PMRClient * option bytes) :=
  c ← wait_clerk c;
  v ← read_reply (local_buf_ c);
  Done (c, v).

Definition SendDelete_done (c : PMRClient) : outcome (PMRClient * bool) :=
  c ← wait_clerk c;
  st ← reply_status (local_buf_ c) RING_HEADER;
  Done (c, st =? status_code OK).

(** ** Clerk: one iteration of [PMRClerk::Run] *)

Inductive verdict := Continue | Closed.

(** where the iteration stands after the [switch] *)
Definition handled : Type := outcome (PMRClerk * PMRServer).

(** [reply->status = st; reply->val_size = n], the reply overlaying the request *)
Definition set_reply (k : PMRClerk) (st : RequestStatus) (n : Z) : outcome PMRClerk :=
  b ← write_reply (send_buf_ k) st n;
  Done (clerk_set_buf k b).

(** [memcpy(reply->value, ...)] *)
Definition set_reply_value (k : PMRClerk) (v : bytes) : outcome PMRClerk :=
  b ← write_value (send_buf_ k) v;
  Done (clerk_set_buf k b).

(** the key that follows the request *)
Definition request_key (k : PMRClerk) (key_size : Z) : outcome bytes :=
  key_at (send_buf_ k) key_size.

(** the offset a [Meta] of [map_] points to *)
Definition mem_ptr (m : Meta) : Z :=
  match m_addr m with memaddr_ p => p | fileaddr_ off idx => off + 2 ^ 32 * idx end.

Definition handle_put (k : PMRClerk) (s : PMRServer) (r : Request) : handled :=
  key ← request_key k (key_size r);
  let meta := Meta_file 0 (k_buf_head_ k + sizeof_Request) (key_size r) (val_size r) in
  let mem_idx := Meta_mem (k_chunk_offset_ k + k_buf_head_ k + sizeof_Request)
                   (key_size r) (val_size r) in
  let s := server_set_map s (cuckoo_insert_or_assign (map_ s) key mem_idx) in
  let k := {| k_ctx := k_ctx k; send_buf_ := send_buf_ k;
              k_buf_head_ := u32 (k_buf_head_ k + Length r);
              k_chunk_offset_ := k_chunk_offset_ k;
              key_batch := key_batch k ++ [key]; metas := metas k ++ [meta] |} in
  k ← set_reply k OK 0;
  Done (k, s).

Definition handle_get (k : PMRClerk) (s : PMRServer) (r : Request) : handled :=
  key ← request_key k (key_size r);
  match cuckoo_find (map_ s) key with
  | Some mem_idx =>
      k ← set_reply k OK (value_size_ mem_idx);
      v ← bread (dmabuf_mem_ s) (mem_ptr mem_idx + key_size r) (value_size_ mem_idx);
      k ← set_reply_value k v;
      Done (k, s)
  | None =>
      found ← db_Get (db_ s) key;
      match found with
      | Some value =>
          k ← set_reply k OK (blen value);
          k ← set_reply_value k (take (Z.to_nat (u32 (blen value))) value);
          Done (k, s)
      | None =>
          k ← set_reply k NOTFOUND 0;
          Done (k, s)
      end
  end.

Definition handle_delete (k : PMRClerk) (s : PMRServer) (r : Request) : handled :=
  key ← request_key k (key_size r);
  let (d, ok) := db_Delete (db_ s) key in
  k ← set_reply k (if ok then OK else NOTFOUND) 0;
  Done (k, server_set_db s d).

(** copy the chunk to DRAM, store its records in the database, drop them from
    the index and queue the copy for the log; [len] is the length passed to
    [PutBatch] *)
Definition flush (k : PMRClerk) (s : PMRServer) (len : Z) : outcome PMRServer :=
  tmp_buf ← bread (dmabuf_mem_ s) (k_chunk_offset_ k) MAX_ASYNC_SIZE;
  '(d, _) ← db_PutBatch (db_ s) (key_batch k) (metas k) tmp_buf len;
  let s := server_set_db s d in
  let s := server_set_map s (foldl cuckoo_erase (map_ s) (key_batch k)) in
  Done (enqueue s {| q_buf := tmp_buf; q_len := k_buf_head_ k;
                     q_chunk := k_chunk_offset_ k / MAX_ASYNC_SIZE |}).

(** [ALLOC], the part before [AllocChunk]: the old chunk, if there is one, is
    flushed *)
Definition alloc_flush (k : PMRClerk) (s : PMRServer) : handled :=
  if k_chunk_offset_ k <? UINT32_MAX
  then s ← flush k s (k_buf_head_ k);
       Done ({| k_ctx := k_ctx k; send_buf_ := send_buf_ k; k_buf_head_ := k_buf_head_ k;
                k_chunk_offset_ := k_chunk_offset_ k; key_batch := []; metas := [] |}, s)
  else Done (k, s).

(** ... and from [AllocChunk] on *)
Definition alloc_take (k : PMRClerk) (s : PMRServer) : handled :=
  '(s, slot) ← AllocChunk s;
  let k := {| k_ctx := k_ctx k; send_buf_ := send_buf_ k; k_buf_head_ := 0;
              k_chunk_offset_ := u32 (MAX_ASYNC_SIZE * slot);
              key_batch := key_batch k; metas := metas k |} in
  k ← set_reply k OK 4;
  k ← set_reply_value k (le_bytes 4 (k_chunk_offset_ k));
  Done (k, s).

Definition handle_alloc (k : PMRClerk) (s : PMRServer) : handled :=
  '(k, s) ← alloc_flush k s; alloc_take k s.

Definition handle_close (k : PMRClerk) (s : PMRServer) : outcome PMRServer :=
  if 0 <? k_buf_head_ k then flush k s MAX_ASYNC_SIZE else Done s.

(** the two writes of the reply, to the client's side [peer] *)
Definition send_reply (k : PMRClerk) (s : PMRServer) (peer : side) : outcome host :=
  n ← reply_val_size (send_buf_ k) RING_HEADER;
  h ← deliver (post_write1 psend (k_ctx k) (clerk_host k s) None (sizeof_RequestReply + n)
                 RING_HEADER RING_HEADER false) (k_ctx k) peer;
  deliver (post_write1 psend (k_ctx k) (clerk_host k s) None 4 0 0 true) (k_ctx k) (peer.1, h).

(** the spin on the header word, and the request that is then in the buffer *)
Definition receive (k : PMRClerk) : outcome (PMRClerk * Request) :=
  '(b, r) ← take_message (send_buf_ k);
  Done (clerk_set_buf k b, r).

(** the [switch], without [CLOSE] *)
Definition handle (o : Operation) (k : PMRClerk) (s : PMRServer) (r : Request) : handled :=
  match o with
  | PUT | UPDATE => handle_put k s r
  | GET => handle_get k s r
  | DELETE => handle_delete k s r
  | ALLOC => handle_alloc k s
  | CLOSE => Done (k, s)
  end.

Definition Run_once (k : PMRClerk) (s : PMRServer) (peer : side)
    : outcome (PMRClerk * PMRServer * host * verdict) :=
  '(k, r) ← receive k;
  match op_of_code (op r) with
  | Some CLOSE => s ← handle_close k s; Done (k, s, peer.2, Closed)
  | Some o =>
      '(k, s) ← handle o k s r;
      h ← send_reply k s peer;
      Done (k, s, h, Continue)
  | None => Exited (-1)
  end.

(** the constructors *)
Definition make_client (ctx : RDMAContext) (send : buf) : PMRClient :=
  {| c_ctx := ctx; c_send := send; local_buf_ := new_buf MAX_REQUEST;
     c_chunk_offset_ := UINT32_MAX; c_buf_head_ := UINT32_MAX |}.

Definition make_clerk (ctx : RDMAContext) (send : buf) : outcome PMRClerk :=
  b ← bwrite32 send 0 CLERK_DONE;
  Done {| k_ctx := ctx; send_buf_ := b; k_buf_head_ := UINT32_MAX;
          k_chunk_offset_ := UINT32_MAX; key_batch := []; metas := [] |}.

Definition make_server (db : DB) : PMRServer :=
  {| db_ := db; map_ := cuckoo_empty; bitmap_ := make_bitset (MAX_DMABUF_SIZE / MAX_ASYNC_SIZE);
     dmabuf_mem_ := new_buf MAX_DMABUF_SIZE; global_queue := [] |}.

(** ** Whole calls *)

(** the clerk answers the request the client has posted *)
Definition answer (st : state) : outcome (state * verdict) :=
  let '(c, k, s) := st in
  '(k, s, h, v) ← Run_once k s (client_side c);
  Done ((client_set_buf c (h_write h), k, s), v).

Definition SendAlloc (st : state) : outcome state :=
  let '(c, k, s) := st in
  st ← SendAlloc_post c k s;
  '(c, k, s, _) ← answer st;
  c ← SendAlloc_done c;
  Done (c, k, s).

Definition SendWrite (key val : bytes) (o : Operation) (st : state) : outcome state :=
  '(c, k, s) ← (if SendWrite_full st.1.1 key val then SendAlloc st else Done st);
  st ← SendWrite_post key val o c k s;
  '(c, k, s, _) ← answer st;
  c ← wait_clerk c;
  Done (c, k, s).

Definition SendPut (key val : bytes) := SendWrite key val PUT.
Definition SendUpdate (key val : bytes) := SendWrite key val UPDATE.

Definition SendGet (key : bytes) (st : state) : outcome (state * option bytes) :=
  let '(c, k, s) := st in
  st ← SendGet_post key c k s;
  '(c, k, s, _) ← answer st;
  '(c, r) ← SendGet_done c;
  Done ((c, k, s), r).

Definition SendDelete (key : bytes) (st : state) : outcome (state * bool) :=
  let '(c, k, s) := st in
  st ← SendDelete_post key c k s;
  '(c, k, s, _) ← answer st;
  '(c, r) ← SendDelete_done c;
  Done ((c, k, s), r).

(** the clerk's iteration ends its thread *)
Definition SendClose (st : state) : outcome PMRServer :=
  let '(c, k, s) := st in
  st ← SendClose_post c k s;
  '(c, k, s, _) ← answer st;
  Done s.

(** [PMRClient::Connect] once the queue pair is connected ([conn] is the result
    of [default_connect]) *)
Definition Connect (conn : Z) (st : state) : outcome state :=
  let '(c, k, s) := st in
  if conn =? -1 then Exited (-1) else
  b ← bwrite32 (local_buf_ c) 0 CLIENT_DONE;
  SendAlloc (client_set_buf c b, k, s).

(** ** The log thread: [UringRun] *)

Record log_state := { l_server : PMRServer; l_ring : IOuring; free_cnt : Z }.

(** [try_dequeue]: [moodycamel::ConcurrentQueue] keeps the order of one producer
    only, so any queued item may be the next; [n] tells which *)
Definition try_dequeue (n : nat) (q : list queue_item) : option (queue_item * list queue_item) :=
  let n := (n mod length q)%nat in
  match q !! n with
  | Some it => Some (it, take n q ++ drop (S n) q)
  | None => None
  end.

(** the inner loop: move queued items to the ring while there is room ([fuel]
    is the length of the queue) *)
Fixpoint fill_ring (fuel : nat) (pick : nat -> nat) (q : list queue_item) (r : IOuring)
    : list queue_item * IOuring :=
  match fuel with
  | O => (q, r)
  | S f =>
      if Full r then (q, r) else
      match try_dequeue (pick f) q with
      | Some (i, q') => fill_ring f pick q' (Write r (q_buf i) (i32 (q_len i)) (q_chunk i))
      | None => (q, r)
      end
  end.

Definition uring_fill (pick : nat -> nat) (l : log_state) : log_state :=
  let s := l_server l in
  let (q, r) := fill_ring (length (global_queue s)) pick (global_queue s) (l_ring l) in
  {| l_server := {| db_ := db_ s; map_ := map_ s; bitmap_ := bitmap_ s;
                    dmabuf_mem_ := dmabuf_mem_ s; global_queue := q |};
     l_ring := r; free_cnt := free_cnt l |}.

(** the rest of the iteration: the kernel completes the [pick]-th entry in
    flight ([wait_ret] is what [Wait] returns), its chunk is freed *)
Definition uring_reap (wait_ret : Z) (pick : nat) (l : log_state) : outcome log_state :=
  c_assert (0 <=? wait_ret) ≫= fun _ =>
  match Wait pick (l_ring l) with
  | None => Hangs
  | Some (chunkid, r) =>
      s ← FreeChunk (l_server l) chunkid;
      Done {| l_server := s; l_ring := Seen r; free_cnt := u32 (free_cnt l + 1) |}
  end.

(** one iteration of the outer loop *)
Definition UringRun_once (deq : nat -> nat) (wait_ret : Z) (pick : nat) (l : log_state)
    : outcome log_state :=
  let l := uring_fill deq l in
  if Empty (l_ring l) then Done l else uring_reap wait_ret pick l.

End pmr.
