(* ===== verification/PmrOps.v ===== *)
(** * PmrOps: what the operations of the PMR front end do

    The lemmas on the parts of client, clerk and server, then the handlers of the
    clerk: what [handle_put], [handle_get], [handle_delete], [flush],
    [alloc_flush] and [alloc_take] do to the clerk, the index, the database, the
    bitmap and the log queue, when the chunk holds the records the clerk has
    indexed. *)

From Stdlib.Strings Require Import Byte.
From S2P Require Import Prelude Buf Bitset Request Rdma Message DBType Records Uring Pmr.

(** What the PMR front end supports: a C string record that fits the message
    buffer, with a value whose reply can be posted inline. *)
Definition entry_ok (e : entry) : Prop :=
  (e_op e = PUT \/ e_op e = UPDATE) /\ cstring (e_key e) /\ cstring (e_val e) /\
  entry_size e <= MAX_MESSAGE /\ blen (e_val e) <= MAX_VALUE.

Lemma entry_record e : entry_ok e -> record_ok e.
Proof. intros (_ & H1 & H2 & H3 & _). done. Qed.

(** [blia] with the size of the messaging buffer *)
Ltac pblia := unfold MAX_DMABUF_SIZE in *; blia.

(** ** Linked connections *)

(** The two ends of a connection: contexts well formed, each holding the
    other's certificate, buffers of the sizes the program gives them. *)
Record linked (c : PMRClient) (k : PMRClerk) (dma : buf) : Prop := {
  l_link : link (c_ctx c) (client_host c) (k_ctx k) (Host (send_buf_ k) dma);
  l_local : buf_size (local_buf_ c) = MAX_REQUEST;
  l_send : buf_size (send_buf_ k) = SEND_BUF_SIZE;
  l_dma : buf_size dma = MAX_DMABUF_SIZE }.

(** Contents do not matter to [linked]. *)
Lemma linked_ext c k dma c' k' dma' :
  linked c k dma -> c_ctx c' = c_ctx c -> c_send c' = c_send c -> k_ctx k' = k_ctx k ->
  buf_size (local_buf_ c') = MAX_REQUEST -> buf_size (send_buf_ k') = SEND_BUF_SIZE ->
  buf_size dma' = MAX_DMABUF_SIZE -> linked c' k' dma'.
Proof.
  intros [H1 H2 H3 H4] E1 E2 E3 E4 E5 E6.
  split; rewrite ?E1, ?E3; try done.
  eapply link_sizes; [| |exact H1]; split; simpl; congruence.
Qed.

(** re-establishes [linked] after changes of contents *)
Ltac relink :=
  match goal with HL : linked _ _ _ |- linked _ _ _ =>
    eapply linked_ext; [exact HL|..]; simpl; rewrite ?buf_size_poke;
    first [reflexivity | assumption | apply (l_local _ _ _ HL) | apply (l_send _ _ _ HL)
          | apply (l_dma _ _ _ HL)]
  end.

Lemma linked_bufs c k dma : linked c k dma -> msg_buf (local_buf_ c) /\ msg_buf (send_buf_ k).
Proof. intros [_ H1 H2 _]. unfold msg_buf. rewrite H1, H2. split; vm_compute; congruence. Qed.

Section specs.
Context {DB : Type} `{DBTypeOk DB} {M : Type} `{CuckooMapOk Meta M} `{Nic}.
Variable psend : send_wr -> Z.
Implicit Types (c : PMRClient) (k : PMRClerk) (s : @PMRServer DB M) (dma : buf).

(** *** A posted request *)

(** the message buffers once [msg] is posted *)
Definition posted (c : PMRClient) (k : PMRClerk) (msg : bytes) : Prop :=
  holds (local_buf_ c) 0 (word CLIENT_DONE) /\ framed (send_buf_ k) CLIENT_DONE msg.

(** the message is in the local buffer: what the posts do *)
Lemma post_message c k s msg n :
  linked c k (dmabuf_mem_ s) -> holds (local_buf_ c) 0 (word CLIENT_DONE) ->
  holds (local_buf_ c) RING_HEADER msg -> n = blen msg -> 0 < n <= MAX_MESSAGE ->
  exists sb, buf_size sb = SEND_BUF_SIZE /\ framed sb CLIENT_DONE msg /\
  exists sb0, deliver (post_write0 psend (c_ctx c) (client_host c) None n RING_HEADER RING_HEADER false)
      (c_ctx c) (clerk_side k s) = Done (Host sb0 (dmabuf_mem_ s)) /\ buf_size sb0 = SEND_BUF_SIZE /\
    forall dma, buf_size dma = MAX_DMABUF_SIZE ->
      deliver (post_write0 psend (c_ctx c) (client_host c) None 4 0 0 true) (c_ctx c) (k_ctx k, Host sb0 dma)
      = Done (Host sb dma).
Proof.
  intros HL Hw Hm Hn Hb. destruct (linked_bufs _ _ _ HL) as [B1 B2].
  destruct (link_message psend _ _ _ _ msg n (l_link _ _ _ HL) Hw Hm Hn Hb B1 B2)
    as (b1 & b2 & E1 & S1 & E2 & S2 & Hf).
  pose proof (l_send _ _ _ HL) as Hs. simpl in *.
  exists b2. split; [congruence|]. split; [done|]. exists b1. split; [exact E1|]. split; [congruence|].
  intros dma Hd. apply E2. by rewrite (l_dma _ _ _ HL).
Qed.

(** a request without the record: [SendGet], [SendDelete] *)
Lemma post_key_request_spec o key c k s :
  linked c k (dmabuf_mem_ s) -> key_ok key -> holds (local_buf_ c) 0 (word CLIENT_DONE) ->
  exists lb sb, buf_size lb = MAX_REQUEST /\ buf_size sb = SEND_BUF_SIZE /\
    post_key_request psend o key c k s = Done (client_set_buf c lb, clerk_set_buf k sb, s) /\
    posted (client_set_buf c lb) (clerk_set_buf k sb) (key_request o key).
Proof.
  intros HL Hk Hw. destruct (linked_bufs _ _ _ HL) as [B1 _].
  destruct (write_key_request_spec _ o key _ B1 Hk Hw) as (lb & E & Hs & Hlw & Hlm).
  rewrite (l_local _ _ _ HL) in Hs.
  assert (HL' : linked (client_set_buf c lb) k (dmabuf_mem_ s)) by relink.
  destruct (post_message (client_set_buf c lb) k s _ (key_request_len key) HL' Hlw Hlm)
    as (sb & S1 & Hf & sb0 & E1 & S0 & E2); [rewrite key_request_len_spec by done; destruct Hk; blia..|].
  exists lb, sb. do 2 (split; [done|]). split; [|by split].
  unfold post_key_request. rewrite E. cbn [mbind outcome_bind]. rewrite E1.
  cbn [mbind outcome_bind]. cbn [k_ctx clerk_set_buf fst snd] in *. rewrite E2 by apply (l_dma _ _ _ HL). simpl. by destruct s.
Qed.

(** [SendAlloc], [SendClose] *)
Lemma post_empty_request_spec o c k s :
  linked c k (dmabuf_mem_ s) -> holds (local_buf_ c) 0 (word CLIENT_DONE) ->
  exists lb sb, buf_size lb = MAX_REQUEST /\ buf_size sb = SEND_BUF_SIZE /\
    post_empty_request psend o c k s = Done (client_set_buf c lb, clerk_set_buf k sb, s) /\
    posted (client_set_buf c lb) (clerk_set_buf k sb) (key_request o []).
Proof.
  intros HL Hw. destruct (linked_bufs _ _ _ HL) as [B1 _].
  destruct (write_empty_request_spec _ o _ B1 Hw) as (lb & E & Hs & Hlw & Hlm).
  rewrite (l_local _ _ _ HL) in Hs.
  assert (HL' : linked (client_set_buf c lb) k (dmabuf_mem_ s)) by relink.
  destruct (post_message (client_set_buf c lb) k s _ (u16 sizeof_Request) HL' Hlw Hlm)
    as (sb & S1 & Hf & sb0 & E1 & S0 & E2); [done|by vm_compute|].
  exists lb, sb. do 2 (split; [done|]). split; [|by split].
  unfold post_empty_request. rewrite E. cbn [mbind outcome_bind]. rewrite E1.
  cbn [mbind outcome_bind]. cbn [k_ctx clerk_set_buf fst snd] in *. rewrite E2 by apply (l_dma _ _ _ HL). simpl. by destruct s.
Qed.

(** the length [SendWrite] computes *)
Lemma SendWrite_total_spec e : entry_ok e -> SendWrite_total (e_key e) (e_val e) = entry_size e.
Proof. intros He. by apply record_len_spec, entry_record. Qed.

(** [SendWrite]: the record in the chunk, its head in the message buffer *)
Lemma SendWrite_post_spec e c k s off :
  linked c k (dmabuf_mem_ s) -> entry_ok e -> holds (local_buf_ c) 0 (word CLIENT_DONE) ->
  off = c_chunk_offset_ c + c_buf_head_ c -> 0 <= off -> off + entry_size e <= MAX_DMABUF_SIZE ->
  0 <= c_buf_head_ c <= MAX_ASYNC_SIZE ->
  exists lb sb, buf_size lb = MAX_REQUEST /\ buf_size sb = SEND_BUF_SIZE /\
    let c' := client_set_head (client_set_buf c lb) (c_chunk_offset_ c) (c_buf_head_ c + entry_size e) in
    SendWrite_post psend (e_key e) (e_val e) (e_op e) c k s =
      Done (c', clerk_set_buf k sb, server_set_dma s (poke (dmabuf_mem_ s) off (entry_bytes e))) /\
    posted c' (clerk_set_buf k sb) (entry_head e).
Proof.
  intros HL He Hw -> Ho Hb Hh. destruct (linked_bufs _ _ _ HL) as [B1 _].
  destruct (write_record_spec _ e _ B1 (entry_record _ He) Hw) as (lb & E & Hs & Hlw & Hlm).
  rewrite (l_local _ _ _ HL) in Hs.
  assert (HL' : linked (client_set_buf c lb) k (dmabuf_mem_ s)) by relink.
  pose proof (SendWrite_total_spec e He) as Ht. destruct He as (_ & Hk & Hv & Hsz & _).
  destruct (post_message (client_set_buf c lb) k s (entry_head e) (u16 (sizeof_Request + u16 (strlen (e_key e))))
    HL' Hlw (proj1 (proj1 (holds_app _ _ _ _) Hlm)))
    as (sb & S1 & Hf & sb0 & E1 & S0 & E2);
    [rewrite strlen_cstring, (u16_small (blen _)), u16_small by (done || blia); blia..|].
  exists lb, sb. do 2 (split; [done|]). split; [|by split].
  unfold SendWrite_post. rewrite Ht, E. cbn [mbind outcome_bind]. rewrite E1.
  cbn [mbind outcome_bind].
  cbn [client_set_buf c_ctx c_send local_buf_ c_chunk_offset_ c_buf_head_ client_set_head] in *.
  rewrite (u32_small (c_chunk_offset_ c + _)), (u32_small (c_buf_head_ c + _)) by pblia.
  assert (HL2 : linked (client_set_buf c lb) (clerk_set_buf k sb0) (dmabuf_mem_ s)) by relink.
  pose proof (link_to_write psend _ _ _ _ RING_HEADER (c_chunk_offset_ c + c_buf_head_ c) (entry_bytes e)
    (entry_size e) false (l_link _ _ _ HL2) Hlm) as E3. simpl in E3.
  rewrite (l_dma _ _ _ HL), Hs in E3.
  rewrite E3 by pblia. cbn [mbind outcome_bind]. simpl in E2.
  rewrite E2 by apply (l_dma _ _ _ HL). done.
Qed.

(** *** The clerk receives and replies *)

(** the clerk's buffer once it has taken a message *)
Definition serving (k : PMRClerk) (msg : bytes) : Prop := framed (send_buf_ k) CLERK_DONE msg.

(** ... and once it has written its reply there *)
Definition replied (k : PMRClerk) (st : RequestStatus) (v : bytes) : Prop :=
  serving k (reply_bytes st v).

Lemma send_msg_buf k : buf_size (send_buf_ k) = SEND_BUF_SIZE -> msg_buf (send_buf_ k).
Proof. intros Hs. unfold msg_buf. rewrite Hs. vm_compute. congruence. Qed.

Lemma receive_key_request k o key :
  buf_size (send_buf_ k) = SEND_BUF_SIZE -> 8 + blen key <= MAX_MESSAGE ->
  framed (send_buf_ k) CLIENT_DONE (key_request o key) ->
  exists sb, buf_size sb = SEND_BUF_SIZE /\ receive k = Done (clerk_set_buf k sb, key_request_of o key) /\
    serving (clerk_set_buf k sb) (key_request o key).
Proof.
  intros Hsz Hk Hf. destruct (take_key_request _ o key (send_msg_buf k Hsz) Hk Hf) as (sb & E & Hs & Hf').
  exists sb. split; [congruence|]. split; [|done]. unfold receive. by rewrite E.
Qed.

Lemma receive_entry k e :
  buf_size (send_buf_ k) = SEND_BUF_SIZE -> entry_size e <= MAX_MESSAGE ->
  framed (send_buf_ k) CLIENT_DONE (entry_head e) ->
  exists sb, buf_size sb = SEND_BUF_SIZE /\ receive k = Done (clerk_set_buf k sb, put_request_of e) /\
    serving (clerk_set_buf k sb) (entry_head e).
Proof.
  intros Hsz Hk Hf. destruct (take_record _ e (e_key e) (send_msg_buf k Hsz) Hk Hf) as (sb & E & Hs & Hf').
  exists sb. split; [congruence|]. split; [|done]. unfold receive. by rewrite E.
Qed.

Lemma request_key_spec k hdr key n :
  buf_size (send_buf_ k) = SEND_BUF_SIZE -> serving k (hdr ++ key) -> blen hdr = 8 ->
  n = blen key -> 8 + n <= MAX_MESSAGE -> request_key k n = Done key.
Proof.
  intros Hsz Hm Hh Hn Hb. eapply (key_at_spec _ CLERK_DONE hdr key []);
    [by apply send_msg_buf|rewrite app_nil_r; exact Hm|done..].
Qed.

(** a reply without value, and one with *)
Lemma reply_nil_spec k st msg :
  buf_size (send_buf_ k) = SEND_BUF_SIZE -> serving k msg ->
  exists sb, buf_size sb = SEND_BUF_SIZE /\ set_reply k st 0 = Done (clerk_set_buf k sb) /\
    replied (clerk_set_buf k sb) st [].
Proof.
  intros Hsz Hm. destruct (write_reply_nil _ st _ (send_msg_buf k Hsz) Hm) as (sb & E & Hs & Hf).
  exists sb. split; [congruence|]. split; [|done]. unfold set_reply. by rewrite E.
Qed.

Lemma reply_value_spec k st v msg :
  buf_size (send_buf_ k) = SEND_BUF_SIZE -> serving k msg -> blen v <= MAX_VALUE ->
  exists sb sb', buf_size sb' = SEND_BUF_SIZE /\
    set_reply k st (blen v) = Done (clerk_set_buf k sb) /\
    set_reply_value (clerk_set_buf k sb) v = Done (clerk_set_buf k sb') /\
    replied (clerk_set_buf k sb') st v.
Proof.
  intros Hsz Hm Hv.
  destruct (write_reply_value _ st v _ (send_msg_buf k Hsz) Hm) as (sb & sb' & E1 & E2 & Hs & Hf); [blia|].
  exists sb, sb'. split; [congruence|]. unfold set_reply, set_reply_value. rewrite E1. simpl.
  by rewrite E2.
Qed.

Lemma send_reply_spec c k s st v :
  linked c k (dmabuf_mem_ s) -> replied k st v -> blen v <= MAX_VALUE ->
  exists lb, buf_size lb = MAX_REQUEST /\
    send_reply psend k s (client_side c) = Done (Host (c_send c) lb) /\
    framed lb CLERK_DONE (reply_bytes st v).
Proof.
  intros HL Hf Hv. destruct (linked_bufs _ _ _ HL) as [B1 B2]. pose proof (l_local _ _ _ HL) as Hl.
  destruct (link_reply psend _ _ _ _ _ (blen (reply_bytes st v)) (link_sym _ _ _ _ (l_link _ _ _ HL)) Hf eq_refl)
    as (b1 & b2 & E1 & E2 & S2 & Hf2); [blia|done|done|].
  simpl in *. exists b2. split; [congruence|]. split; [|done].
  destruct (reply_words _ _ st (blen v) v B2 Hf) as [_ En]; [blia|].
  unfold send_reply, clerk_host, client_side. rewrite En. cbn [mbind outcome_bind].
  replace (sizeof_RequestReply + blen v) with (blen (reply_bytes st v)) by blia.
  rewrite E1. cbn [mbind outcome_bind fst]. by rewrite E2.
Qed.

(** *** The client after the spin *)

(** the client's buffer when the clerk has answered *)
Definition answered (c : PMRClient) (st : RequestStatus) (v : bytes) : Prop :=
  framed (local_buf_ c) CLERK_DONE (reply_bytes st v).

Lemma local_msg_buf c : buf_size (local_buf_ c) = MAX_REQUEST -> msg_buf (local_buf_ c).
Proof. intros Hs. unfold msg_buf. by rewrite Hs. Qed.

Lemma wait_clerk_spec c st v :
  buf_size (local_buf_ c) = MAX_REQUEST -> answered c st v ->
  exists lb, buf_size lb = MAX_REQUEST /\ wait_clerk c = Done (client_set_buf c lb) /\
    framed lb CLIENT_DONE (reply_bytes st v).
Proof.
  intros Hsz Ha. destruct (wait_reply_spec _ _ (local_msg_buf c Hsz) Ha) as (lb & E & Hs & Hf).
  exists lb. split; [congruence|]. unfold wait_clerk. by rewrite E.
Qed.

Lemma SendGet_done_spec c st v :
  buf_size (local_buf_ c) = MAX_REQUEST -> answered c st v -> blen v <= MAX_VALUE ->
  exists lb, buf_size lb = MAX_REQUEST /\ holds lb 0 (word CLIENT_DONE) /\
    SendGet_done c = Done (client_set_buf c lb, if decide (st = OK) then Some v else None).
Proof.
  intros Hsz Ha Hv. destruct (wait_clerk_spec c st v Hsz Ha) as (lb & Hl & E & Hf).
  exists lb. split; [done|]. split; [apply Hf|]. unfold SendGet_done. rewrite E. cbn [mbind outcome_bind local_buf_ client_set_buf].
  rewrite (read_reply_spec lb CLIENT_DONE st v); [done|by apply (local_msg_buf (client_set_buf c lb))|done|blia].
Qed.

Lemma SendDelete_done_spec c st v :
  buf_size (local_buf_ c) = MAX_REQUEST -> answered c st v -> blen v <= MAX_VALUE ->
  exists lb, buf_size lb = MAX_REQUEST /\ holds lb 0 (word CLIENT_DONE) /\
    SendDelete_done c = Done (client_set_buf c lb, bool_decide (st = OK)).
Proof.
  intros Hsz Ha Hv. destruct (wait_clerk_spec c st v Hsz Ha) as (lb & Hl & E & Hf).
  exists lb. split; [done|]. split; [apply Hf|]. unfold SendDelete_done. rewrite E. cbn [mbind outcome_bind local_buf_ client_set_buf].
  destruct (reply_words lb CLIENT_DONE st (blen v) v) as [-> _];
    [by apply (local_msg_buf (client_set_buf c lb))|done|blia|]. by destruct st.
Qed.

Lemma SendAlloc_done_spec c off :
  buf_size (local_buf_ c) = MAX_REQUEST -> answered c OK (word off) -> 0 <= off < 2 ^ 32 ->
  exists lb, buf_size lb = MAX_REQUEST /\ holds lb 0 (word CLIENT_DONE) /\
    SendAlloc_done c = Done (client_set_head (client_set_buf c lb) off 0).
Proof.
  intros Hsz Ha Ho. destruct (wait_clerk_spec c _ _ Hsz Ha) as (lb & Hl & E & Hf).
  exists lb. split; [done|]. split; [apply Hf|]. unfold SendAlloc_done. rewrite E. cbn [mbind outcome_bind local_buf_ client_set_buf].
  destruct (reply_words lb CLIENT_DONE OK (blen (word off)) (word off)) as [-> _];
    [by apply (local_msg_buf (client_set_buf c lb))|done|blia|].
  cbn [mbind outcome_bind]. simpl. destruct Hf as [_ Hr]. unfold reply_bytes in Hr.
  do 2 (apply holds_app in Hr as [_ Hr]). rewrite !blen_word in Hr.
  rewrite (holds_word lb (RING_HEADER + sizeof_RequestReply) off); try done; blia.
Qed.
End specs.

(** ** The chunk of a connection *)

(** what the index holds for a record at offset [p] of the messaging buffer *)
Definition entry_index (p : Z) (e : entry) : Meta :=
  Meta_mem (p + sizeof_Request) (blen (e_key e)) (blen (e_val e)).

(** a map without the keys of a list *)
Definition erase_all {A} (keys : list bytes) (m : gmap bytes A) : gmap bytes A :=
  foldl (fun m key => delete key m) m keys.

Lemma erase_all_lookup {A} (keys : list bytes) (m : gmap bytes A) (key : bytes) :
  erase_all keys m !! key = if decide (key ∈ keys) then None else m !! key.
Proof.
  unfold erase_all. revert m; induction keys as [|x keys IH]; intros m; cbn [foldl].
  - by rewrite decide_False by apply not_elem_of_nil.
  - rewrite IH. destruct (decide (key = x)) as [->|Hne].
    + rewrite lookup_delete_eq, (decide_True (P := x ∈ x :: keys)) by (apply elem_of_cons; by left).
      by case_decide.
    + rewrite lookup_delete_ne by done.
      destruct (decide (key ∈ keys)) as [Hk|Hk].
      * by rewrite decide_True by (apply elem_of_cons; by right).
      * rewrite decide_False; [done|]. rewrite elem_of_cons. tauto.
Qed.

Section handlers.
Context {DB : Type} `{DBTypeOk DB} {M : Type} `{CuckooMapOk Meta M} `{Nic}.
Variable psend : send_wr -> Z.
Implicit Types (c : PMRClient) (k : PMRClerk) (s : @PMRServer DB M) (dma : buf).

(** *** [PUT], [UPDATE] *)

(** the clerk with a record more *)
Definition clerk_add (k : PMRClerk) (e : entry) (sb : buf) : PMRClerk :=
  {| k_ctx := k_ctx k; send_buf_ := sb; k_buf_head_ := k_buf_head_ k + entry_size e;
     k_chunk_offset_ := k_chunk_offset_ k; key_batch := key_batch k ++ [e_key e];
     metas := metas k ++ [entry_meta (k_buf_head_ k) e] |}.

Lemma handle_put_spec e k s :
  entry_ok e -> buf_size (send_buf_ k) = SEND_BUF_SIZE -> serving k (entry_head e) ->
  0 <= k_buf_head_ k <= MAX_ASYNC_SIZE ->
  exists sb, buf_size sb = SEND_BUF_SIZE /\
    handle_put k s (put_request_of e) =
      Done (clerk_add k e sb,
            server_set_map s (cuckoo_insert_or_assign (map_ s) (e_key e)
              (entry_index (k_chunk_offset_ k + k_buf_head_ k) e))) /\
    replied (clerk_add k e sb) OK [].
Proof.
  intros He Hsz Hm Hh. destruct He as (_ & _ & _ & Hs & _).
  pose proof (blen_nonneg (e_key e)). pose proof (blen_nonneg (e_val e)).
  destruct (reply_nil_spec (clerk_add k e (send_buf_ k)) OK _ Hsz Hm) as (sb & Hsb & E & Hr).
  exists sb. split; [done|]. split; [|done]. unfold handle_put, put_request_of. cbn [key_size val_size].
  rewrite (request_key_spec k _ (e_key e) _ Hsz Hm) by (rewrite ?blen_request_header; pblia).
  cbn [mbind outcome_bind].
  unfold Length. cbn [key_size val_size].
  rewrite (u32_small (sizeof_Request + _ + _)) by pblia.
  rewrite (u32_small (k_buf_head_ k + _)) by pblia.
  replace (k_buf_head_ k + (sizeof_Request + blen (e_key e) + blen (e_val e)))
    with (k_buf_head_ k + entry_size e) by pblia.
  unfold clerk_add in E at 1. unfold entry_meta in E. rewrite E. done.
Qed.

(** *** [GET] *)

(** the key is in the index: the value is read from the messaging buffer *)
Lemma handle_get_hit k s key m v :
  key_ok key -> buf_size (send_buf_ k) = SEND_BUF_SIZE -> serving k (key_request GET key) ->
  cuckoo_find (map_ s) key = Some m -> value_size_ m = blen v -> blen v <= MAX_VALUE ->
  bread (dmabuf_mem_ s) (mem_ptr m + blen key) (blen v) = Done v ->
  exists sb, buf_size sb = SEND_BUF_SIZE /\
    handle_get k s (key_request_of GET key) = Done (clerk_set_buf k sb, s) /\
    replied (clerk_set_buf k sb) OK v.
Proof.
  intros [_ Hk] Hsz Hm Hf Hv1 Hv2 Hr.
  destruct (reply_value_spec k OK v _ Hsz Hm Hv2) as (sb & sb' & Hsb & E1 & E2 & Hrep).
  exists sb'. split; [done|]. split; [|done]. unfold handle_get, key_request_of. cbn [key_size].
  rewrite (request_key_spec k _ key _ Hsz Hm) by (rewrite ?blen_request_header; pblia).
  cbn [mbind outcome_bind]. rewrite Hf, Hv1, E1. cbn [mbind outcome_bind].
  rewrite Hr. cbn [mbind outcome_bind]. by rewrite E2.
Qed.

(** it is not: the database is asked *)
Lemma handle_get_db k s key v :
  key_ok key -> buf_size (send_buf_ k) = SEND_BUF_SIZE -> serving k (key_request GET key) ->
  cuckoo_find (map_ s) key = None -> db_Get (db_ s) key = Done v ->
  blen (default [] v) <= MAX_VALUE ->
  exists sb, buf_size sb = SEND_BUF_SIZE /\
    handle_get k s (key_request_of GET key) = Done (clerk_set_buf k sb, s) /\
    replied (clerk_set_buf k sb) (get_status v) (default [] v).
Proof.
  intros [_ Hk] Hsz Hm Hf Hg Hv2. unfold handle_get, key_request_of. cbn [key_size].
  rewrite (request_key_spec k _ key _ Hsz Hm) by (rewrite ?blen_request_header; pblia).
  cbn [mbind outcome_bind]. rewrite Hf, Hg. cbn [mbind outcome_bind]. destruct v as [v|]; simpl in Hv2.
  - destruct (reply_value_spec k OK v _ Hsz Hm Hv2) as (sb & sb' & Hsb & E1 & E2 & Hrep).
    exists sb'. split; [done|]. split; [|done]. rewrite E1. cbn [mbind outcome_bind].
    rewrite u32_small, blen_to_nat, take_ge by (pblia || lia). by rewrite E2.
  - destruct (reply_nil_spec k NOTFOUND _ Hsz Hm) as (sb & Hsb & E & Hr).
    exists sb. split; [done|]. split; [|done]. by rewrite E.
Qed.

(** ... and throws: the exception leaves the clerk *)
Lemma handle_get_throws k s key :
  key_ok key -> buf_size (send_buf_ k) = SEND_BUF_SIZE -> serving k (key_request GET key) ->
  cuckoo_find (map_ s) key = None -> db_Get (db_ s) key = Thrown ->
  handle_get k s (key_request_of GET key) = Thrown.
Proof.
  intros [_ Hk] Hsz Hm Hf Hg. unfold handle_get, key_request_of. cbn [key_size].
  rewrite (request_key_spec k _ key _ Hsz Hm) by (rewrite ?blen_request_header; pblia).
  cbn [mbind outcome_bind]. by rewrite Hf, Hg.
Qed.

(** *** [DELETE] *)

Lemma handle_delete_spec k s key :
  key_ok key -> buf_size (send_buf_ k) = SEND_BUF_SIZE -> serving k (key_request DELETE key) ->
  exists sb d, buf_size sb = SEND_BUF_SIZE /\
    handle_delete k s (key_request_of DELETE key) = Done (clerk_set_buf k sb, server_set_db s d) /\
    contents d = delete key (contents (db_ s)) /\ replied (clerk_set_buf k sb) OK [].
Proof.
  intros [_ Hk] Hsz Hm. destruct (delete_ok (db_ s) key) as (d & E & Hd).
  destruct (reply_nil_spec k OK _ Hsz Hm) as (sb & Hsb & Er & Hr).
  exists sb, d. split; [done|]. split; [|done]. unfold handle_delete, key_request_of. cbn [key_size].
  rewrite (request_key_spec k _ key _ Hsz Hm) by (rewrite ?blen_request_header; pblia).
  cbn [mbind outcome_bind]. by rewrite E, Er.
Qed.

(** *** Flushing a chunk *)

(** The clerk's bookkeeping agrees with the records [es] of its chunk, which
    is slot [slot] of the messaging buffer. *)
Record clerk_chunk (k : PMRClerk) (dma : buf) (slot : Z) (es : list entry) : Prop := {
  cc_slot : 0 <= slot < MAX_DMABUF_SIZE / MAX_ASYNC_SIZE;
  cc_off : k_chunk_offset_ k = MAX_ASYNC_SIZE * slot;
  cc_head : k_buf_head_ k = chunk_size es;
  cc_size : chunk_size es < MAX_ASYNC_SIZE;
  cc_ok : Forall entry_ok es;
  cc_keys : key_batch k = map e_key es;
  cc_metas : metas k = entry_metas 0 es;
  cc_dma : holds dma (MAX_ASYNC_SIZE * slot) (chunk_bytes es) }.

Lemma slot_range slot :
  0 <= slot < MAX_DMABUF_SIZE / MAX_ASYNC_SIZE ->
  0 <= MAX_ASYNC_SIZE * slot /\ MAX_ASYNC_SIZE * slot + MAX_ASYNC_SIZE <= MAX_DMABUF_SIZE.
Proof. change (MAX_DMABUF_SIZE / MAX_ASYNC_SIZE) with 256. pblia. Qed.

Lemma erase_contents keys (m : M) :
  cuckoo_contents (foldl cuckoo_erase m keys) = erase_all keys (cuckoo_contents m).
Proof.
  unfold erase_all. revert m; induction keys as [|key keys IH]; intros m; simpl; [done|].
  by rewrite IH, cuckoo_erase_ok.
Qed.

(** the item of the log queue for the chunk *)
Definition chunk_item (dma : buf) (slot : Z) (es : list entry) : queue_item :=
  {| q_buf := peek dma (MAX_ASYNC_SIZE * slot) (Z.to_nat MAX_ASYNC_SIZE);
     q_len := chunk_size es; q_chunk := slot |}.

Lemma holds_prefix dma off bs n :
  holds dma off bs -> blen bs <= n ->
  exists rest, peek dma off (Z.to_nat n) = bs ++ rest.
Proof.
  intros Hh Hn. exists (peek dma (off + blen bs) (Z.to_nat n - length bs)).
  replace (Z.to_nat n) with (length bs + (Z.to_nat n - length bs))%nat at 1 by (unfold blen in *; lia).
  rewrite peek_app, (holds_peek _ _ _ Hh). done.
Qed.

Lemma flush_spec k s slot es len :
  clerk_chunk k (dmabuf_mem_ s) slot es -> buf_size (dmabuf_mem_ s) = MAX_DMABUF_SIZE ->
  exists s', flush k s len = Done s' /\
    contents (db_ s') = insert_all (map kv es) (contents (db_ s)) /\
    cuckoo_contents (map_ s') = erase_all (map e_key es) (cuckoo_contents (map_ s)) /\
    bitmap_ s' = bitmap_ s /\ dmabuf_mem_ s' = dmabuf_mem_ s /\
    global_queue s' = global_queue s ++ [chunk_item (dmabuf_mem_ s) slot es].
Proof.
  intros [Hs Ho Hh Hsz Hok Hk Hm Hd] Hb. pose proof (slot_range slot Hs) as [R1 R2].
  unfold flush. rewrite Ho, bread_done by pblia. cbn [mbind outcome_bind].
  destruct (holds_prefix _ _ _ MAX_ASYNC_SIZE Hd) as [rest Hp]; [unfold chunk_size in *; lia|].
  pose proof (entry_batch_pairs es [] rest (list.Forall_impl _ _ _ Hok entry_record)) as Hbp. rewrite blen_nil in Hbp. simpl in Hbp.
  rewrite Hk, Hm, Hp.
  destruct (put_batch_ok (db_ s) _ _ _ len _ (Hbp ltac:(pblia))) as (d & -> & Hdc).
  cbn [mbind outcome_bind]. eexists; split; [reflexivity|]. simpl. split; [done|].
  split; [apply erase_contents|]. repeat split. unfold chunk_item. rewrite Hp, Hh. do 3 f_equal.
  rewrite Z.mul_comm. apply Z.div_mul. done.
Qed.

(** *** [ALLOC] *)

Lemma alloc_flush_spec k s slot es :
  clerk_chunk k (dmabuf_mem_ s) slot es -> buf_size (dmabuf_mem_ s) = MAX_DMABUF_SIZE ->
  exists s', flush k s (k_buf_head_ k) = Done s' /\
    alloc_flush k s = Done
      ({| k_ctx := k_ctx k; send_buf_ := send_buf_ k; k_buf_head_ := k_buf_head_ k;
          k_chunk_offset_ := k_chunk_offset_ k; key_batch := []; metas := [] |}, s').
Proof.
  intros Hc Hb. destruct (flush_spec k s slot es (k_buf_head_ k) Hc Hb) as (s' & E & _).
  exists s'. split; [done|]. unfold alloc_flush.
  replace (k_chunk_offset_ k <? UINT32_MAX) with true; [by rewrite E|].
  symmetry. apply Z.ltb_lt. rewrite (cc_off _ _ _ _ Hc).
  pose proof (slot_range slot (cc_slot _ _ _ _ Hc)). unfold UINT32_MAX. pblia.
Qed.

(** the clerk with a new, empty chunk *)
Definition clerk_take (k : PMRClerk) (slot : Z) (sb : buf) : PMRClerk :=
  {| k_ctx := k_ctx k; send_buf_ := sb; k_buf_head_ := 0; k_chunk_offset_ := MAX_ASYNC_SIZE * slot;
     key_batch := key_batch k; metas := metas k |}.

Lemma alloc_take_spec k s msg :
  buf_size (send_buf_ k) = SEND_BUF_SIZE -> serving k msg ->
  bitset_wf (bitmap_ s) -> _size (bitmap_ s) = MAX_DMABUF_SIZE / MAX_ASYNC_SIZE ->
  (exists i, 0 <= i < _size (bitmap_ s) /\ bit (bitmap_ s) i = false) ->
  exists slot sb b, buf_size sb = SEND_BUF_SIZE /\
    0 <= slot < MAX_DMABUF_SIZE / MAX_ASYNC_SIZE /\ bit (bitmap_ s) slot = false /\
    bitset_wf b /\ _size b = _size (bitmap_ s) /\
    (forall j, 0 <= j -> bit b j = if bool_decide (j = slot) then true else bit (bitmap_ s) j) /\
    alloc_take k s = Done (clerk_take k slot sb, server_set_bitmap s b) /\
    replied (clerk_take k slot sb) OK (word (MAX_ASYNC_SIZE * slot)).
Proof.
  intros Hsz Hm Hwf Hbs Hfree.
  destruct (blindset_spec (bitmap_ s) 0 Hwf Hfree) as (b & slot & Eb & Hs & Hbit & _ & Hwf' & Hsz' & Hall).
  rewrite Hbs in Hs. pose proof (slot_range slot Hs) as [R1 R2].
  destruct (reply_value_spec (clerk_take k slot (send_buf_ k)) OK (word (MAX_ASYNC_SIZE * slot)) msg Hsz Hm)
    as (sb & sb' & Hsb & E1 & E2 & Hr); [pblia|].
  exists slot, sb', b. do 6 (split; [done|]). split; [|done].
  unfold alloc_take, AllocChunk. rewrite Eb. cbn [mbind outcome_bind].
  rewrite u32_small by pblia. rewrite blen_word in E1.
  unfold clerk_take in E1 at 1. rewrite E1. cbn [mbind outcome_bind].
  unfold clerk_set_buf at 1 2, clerk_take at 1. simpl.
  unfold clerk_set_buf, clerk_take in E2. simpl in E2.
  change (le_bytes 4 (MAX_ASYNC_SIZE * slot)) with (word (MAX_ASYNC_SIZE * slot)). by rewrite E2.
Qed.

(** with every chunk in use the clerk waits *)
Lemma alloc_take_hangs k s :
  bitset_wf (bitmap_ s) -> (forall i, 0 <= i < _size (bitmap_ s) -> bit (bitmap_ s) i = true) ->
  alloc_take k s = Hangs.
Proof. intros Hwf Hall. unfold alloc_take, AllocChunk. by rewrite blindset_spins. Qed.
End handlers.
