(* ===== verification/PmrSystem.v ===== *)
(** * PmrSystem: every client, its clerk and the log thread

    The state of the whole PMR front end and its steps.  A call of a client is
    three steps (its code up to the spin, the clerk's iteration, its code after
    the spin), an [ALLOC] one more: the clerk flushes, and later gets a chunk,
    since [AllocChunk] waits while the log thread and other clerks run.  Steps
    of different connections and of the log thread interleave in any order.

    The specification is a map in two layers: [stored], the database, and
    [fresh], the records not flushed yet; [pending i] are the records in the
    chunk of connection [i]. *)

From Stdlib.Strings Require Import Byte.
From S2P Require Import Prelude Buf Bitset Request Rdma Message DBType Records Uring Pmr PmrOps.

(** ** The system *)

(** the request a client has posted *)
Inductive call :=
  | CallWrite (e : entry) | CallGet (key : bytes) | CallDelete (key : bytes) | CallAlloc | CallClose.

Definition call_ok (r : call) : Prop :=
  match r with
  | CallWrite e => entry_ok e
  | CallGet key | CallDelete key => key_ok key
  | CallAlloc | CallClose => True
  end.

(** where a connection is: the client is between calls; it has posted a
    request; the clerk has flushed and is in [AllocChunk]; the reply is in the
    client's buffer; the clerk has returned *)
Inductive phase := Ready | Posted (r : call) | Flushed | Answered (r : call) | Gone.

Record conn := Conn { cn_client : PMRClient; cn_clerk : PMRClerk; cn_phase : phase }.

Section system.
Context {DB : Type} `{DBType DB} {M : Type} `{CuckooMap Meta M} `{Nic}.
Variable psend : send_wr -> Z.

Record sys := Sys { y_log : @log_state DB M; conns : gmap nat conn }.
Definition srv (y : sys) : @PMRServer DB M := l_server (y_log y).

(** the system after connection [i] has moved *)
Definition moved (y : sys) (i : nat) (cn : conn) (s : @PMRServer DB M) : sys :=
  Sys {| l_server := s; l_ring := l_ring (y_log y); free_cnt := free_cnt (y_log y) |}
    (<[i := cn]> (conns y)).

(** the client's code up to the spin *)
Definition post (r : call) (c : PMRClient) (k : PMRClerk) (s : @PMRServer DB M) : outcome (@state DB M) :=
  match r with
  | CallWrite e => SendWrite_post psend (e_key e) (e_val e) (e_op e) c k s
  | CallGet key => SendGet_post psend key c k s
  | CallDelete key => SendDelete_post psend key c k s
  | CallAlloc => SendAlloc_post psend c k s
  | CallClose => SendClose_post psend c k s
  end.

(** [SendWrite] posts the record once it is known to fit the chunk *)
Definition may_post (r : call) (c : PMRClient) : bool :=
  match r with
  | CallWrite e => negb (SendWrite_full c (e_key e) (e_val e))
  | _ => true
  end.

(** the client's code after the spin; the value [SendGet] returns *)
Definition finish (r : call) (c : PMRClient) : outcome (PMRClient * option bytes) :=
  match r with
  | CallWrite _ | CallClose => c ← wait_clerk c; Done (c, None)
  | CallGet _ => SendGet_done c
  | CallDelete _ => '(c, _) ← SendDelete_done c; Done (c, None)
  | CallAlloc => c ← SendAlloc_done c; Done (c, None)
  end.

(** what a step shows: a request takes effect at the clerk, a chunk is
    flushed, a call returns *)
Inductive label :=
  | Internal | Serve (i : nat) (r : call) | Flush (i : nat) | Return (i : nat) (r : call) (v : option bytes).

Inductive step (y : sys) : label -> sys -> Prop :=
  (** [Connect], up to the spin of its [SendAlloc]: new objects over contexts
      that [default_connect] has linked *)
  | step_connect i cctx csend kctx ksend k lb c' k' s' :
      conns y !! i = None ->
      make_clerk kctx ksend = Done k ->
      bwrite32 (local_buf_ (make_client cctx csend)) 0 CLIENT_DONE = Done lb ->
      linked (make_client cctx csend) k (dmabuf_mem_ (srv y)) ->
      SendAlloc_post psend (client_set_buf (make_client cctx csend) lb) k (srv y) = Done (c', k', s') ->
      step y Internal (moved y i (Conn c' k' (Posted CallAlloc)) s')
  | step_post i c k r c' k' s' :
      conns y !! i = Some (Conn c k Ready) -> call_ok r -> may_post r c = true ->
      post r c k (srv y) = Done (c', k', s') ->
      step y Internal (moved y i (Conn c' k' (Posted r)) s')
  | step_serve i c k r k' s' h :
      conns y !! i = Some (Conn c k (Posted r)) -> r <> CallAlloc ->
      Run_once psend k (srv y) (client_side c) = Done (k', s', h, Continue) ->
      step y (Serve i r) (moved y i (Conn (client_set_buf c (h_write h)) k' (Answered r)) s')
  | step_close i c k k' s' h :
      conns y !! i = Some (Conn c k (Posted CallClose)) ->
      Run_once psend k (srv y) (client_side c) = Done (k', s', h, Closed) ->
      step y (Serve i CallClose) (moved y i (Conn c k' Gone) s')
  | step_flush i c k k1 r k' s' :
      conns y !! i = Some (Conn c k (Posted CallAlloc)) ->
      receive k = Done (k1, r) -> alloc_flush k1 (srv y) = Done (k', s') ->
      step y (Flush i) (moved y i (Conn c k' Flushed) s')
  | step_take i c k k' s' h :
      conns y !! i = Some (Conn c k Flushed) ->
      alloc_take k (srv y) = Done (k', s') ->
      send_reply psend k' s' (client_side c) = Done h ->
      step y Internal (moved y i (Conn (client_set_buf c (h_write h)) k' (Answered CallAlloc)) s')
  | step_return i c k r c' v :
      conns y !! i = Some (Conn c k (Answered r)) ->
      finish r c = Done (c', v) ->
      step y (Return i r v) (moved y i (Conn c' k Ready) (srv y))
  | step_fill pick :
      step y Internal (Sys (uring_fill pick (y_log y)) (conns y))
  | step_reap ret pick l :
      uring_reap ret pick (y_log y) = Done l ->
      step y Internal (Sys l (conns y)).

(** a sequence of steps, with what it shows *)
Inductive steps : sys -> list label -> sys -> Prop :=
  | steps_nil y : steps y [] y
  | steps_snoc y ls y' l y'' : steps y ls y' -> step y' l y'' -> steps y (ls ++ [l]) y''.

Definition sys_start (db : DB) (r : IOuring) : sys :=
  Sys {| l_server := make_server db; l_ring := r; free_cnt := 1 |} ∅.
End system.

(** ** The specification *)

Record kv_state := KV {
  stored : gmap bytes bytes; fresh : gmap bytes bytes;
  pending : nat -> list entry; reply : nat -> option bytes;
  logged : list (list entry) (** the records of each chunk that was flushed *) }.

(** what a [GET] answers *)
Definition view (σ : kv_state) (key : bytes) : option bytes :=
  match fresh σ !! key with Some v => Some v | None => stored σ !! key end.

(** the chunks a flush adds to the log *)
Definition flushed_chunk (es : list entry) : list (list entry) :=
  match es with [] => [] | _ => [es] end.

Definition kv_flush (i : nat) (σ : kv_state) : kv_state :=
  KV (insert_all (map kv (pending σ i)) (stored σ))
     (erase_all (map e_key (pending σ i)) (fresh σ))
     (<[i := []]> (pending σ)) (reply σ)
     (logged σ ++ flushed_chunk (pending σ i)).

Definition kv_serve (i : nat) (r : call) (σ : kv_state) : kv_state :=
  match r with
  | CallWrite e =>
      KV (stored σ) (<[e_key e := e_val e]> (fresh σ))
        (<[i := pending σ i ++ [e]]> (pending σ)) (reply σ) (logged σ)
  | CallGet key => KV (stored σ) (fresh σ) (pending σ) (<[i := view σ key]> (reply σ)) (logged σ)
  | CallDelete key => KV (delete key (stored σ)) (fresh σ) (pending σ) (reply σ) (logged σ)
  | CallClose => kv_flush i σ
  | CallAlloc => σ
  end.

Definition kv_apply (l : label) (σ : kv_state) : kv_state :=
  match l with
  | Serve i r => kv_serve i r σ
  | Flush i => kv_flush i σ
  | Internal | Return _ _ _ => σ
  end.

(** a returning [SendGet] returns the value found when its request was served *)
Definition kv_accepts (l : label) (σ : kv_state) : Prop :=
  match l with
  | Return i (CallGet _) v => v = reply σ i
  | _ => True
  end.

Definition kv_start (db : gmap bytes bytes) : kv_state := KV db ∅ (fun _ => []) (fun _ => None) [].

(** the specification runs through a sequence of labels *)
Inductive kv_runs : kv_state -> list label -> kv_state -> Prop :=
  | kv_nil σ : kv_runs σ [] σ
  | kv_snoc σ ls σ' l : kv_runs σ ls σ' -> kv_accepts l σ' -> kv_runs σ (ls ++ [l]) (kv_apply l σ').

(** ** Running the system: a scheduler

    [exec1] performs a step chosen by an [action] and is a [step]; it runs the
    definitions on concrete systems. *)

#[export] Instance entry_ok_dec e : Decision (entry_ok e).
Proof. unfold entry_ok. apply _. Defined.
#[export] Instance call_ok_dec r : Decision (call_ok r).
Proof. destruct r; simpl; apply _. Defined.

Inductive action :=
  | DoPost (i : nat) (r : call) | DoClerk (i : nat) | DoReturn (i : nat) | DoFill | DoReap (pick : nat).

Section exec.
Context {DB : Type} `{DBType DB} {M : Type} `{CuckooMap Meta M} `{Nic}.
Variable psend : send_wr -> Z.

Definition exec_clerk (i : nat) (y : @sys DB M) : option (label * @sys DB M) :=
  match conns y !! i with
  | Some (Conn c k (Posted CallAlloc)) =>
      match receive k with
      | Done (k1, _) =>
          match alloc_flush k1 (srv y) with
          | Done (k', s') => Some (Flush i, moved y i (Conn c k' Flushed) s')
          | _ => None
          end
      | _ => None
      end
  | Some (Conn c k (Posted r)) =>
      match Run_once psend k (srv y) (client_side c) with
      | Done (k', s', h, Continue) =>
          Some (Serve i r, moved y i (Conn (client_set_buf c (h_write h)) k' (Answered r)) s')
      | _ => None
      end
  | Some (Conn c k Flushed) =>
      match alloc_take k (srv y) with
      | Done (k', s') =>
          match send_reply psend k' s' (client_side c) with
          | Done h =>
              Some (Internal, moved y i (Conn (client_set_buf c (h_write h)) k' (Answered CallAlloc)) s')
          | _ => None
          end
      | _ => None
      end
  | _ => None
  end.

Definition exec1 (a : action) (y : @sys DB M) : option (label * @sys DB M) :=
  match a with
  | DoPost i r =>
      match conns y !! i with
      | Some (Conn c k Ready) =>
          if bool_decide (call_ok r) && may_post r c then
            match post psend r c k (srv y) with
            | Done (c', k', s') => Some (Internal, moved y i (Conn c' k' (Posted r)) s')
            | _ => None
            end
          else None
      | _ => None
      end
  | DoClerk i => exec_clerk i y
  | DoReturn i =>
      match conns y !! i with
      | Some (Conn c k (Answered r)) =>
          match finish r c with
          | Done (c', v) => Some (Return i r v, moved y i (Conn c' k Ready) (srv y))
          | _ => None
          end
      | _ => None
      end
  | DoFill => Some (Internal, Sys (uring_fill (fun _ => 0%nat) (y_log y)) (conns y))
  | DoReap pick =>
      match uring_reap 0 pick (y_log y) with
      | Done l => Some (Internal, Sys l (conns y))
      | _ => None
      end
  end.

Fixpoint exec (l : list action) (y : @sys DB M) : option (list label * @sys DB M) :=
  match l with
  | [] => Some ([], y)
  | a :: l' =>
      match exec1 a y with
      | Some (lb, y1) =>
          match exec l' y1 with Some (ls, y2) => Some (lb :: ls, y2) | None => None end
      | None => None
      end
  end.

Lemma exec_clerk_step i y lb y' : exec_clerk i y = Some (lb, y') -> step psend y lb y'.
Proof.
  unfold exec_clerk. destruct (conns y !! i) as [[c k ph]|] eqn:Hi; [|done].
  destruct ph as [|r| | |]; try done.
  - destruct r as [e|key|key| |];
      try (destruct (Run_once psend k (srv y) (client_side c)) as [[[[k' s'] h] []]| | | | |] eqn:E;
           intros [= <- <-]; by eapply step_serve).
    destruct (receive k) as [[k1 q]| | | | |] eqn:Er; simpl; try done.
    destruct (alloc_flush k1 (srv y)) as [[k' s']| | | | |] eqn:E; try done.
    intros [= <- <-]. by eapply step_flush.
  - destruct (alloc_take k (srv y)) as [[k' s']| | | | |] eqn:E; simpl; try done.
    destruct (send_reply psend k' s' (client_side c)) as [h| | | | |] eqn:Es; simpl; try done.
    intros [= <- <-]. by eapply step_take.
Qed.

Lemma exec1_step a y lb y' : exec1 a y = Some (lb, y') -> step psend y lb y'.
Proof.
  destruct a as [i r|i|i| |pick]; simpl.
  - destruct (conns y !! i) as [[c k [|?| |?|]]|] eqn:Hi; try done.
    case_bool_decide as Hr; simpl; [|done]. destruct (may_post r c) eqn:Hm; [|done].
    destruct (post psend r c k (srv y)) as [[[c' k'] s']| | | | |] eqn:E; try done.
    intros [= <- <-]. by eapply step_post.
  - apply exec_clerk_step.
  - destruct (conns y !! i) as [[c k [|?| |r|]]|] eqn:Hi; try done.
    destruct (finish r c) as [[c' v]| | | | |] eqn:E; try done.
    intros [= <- <-]. by eapply step_return.
  - intros [= <- <-]. constructor.
  - destruct (uring_reap 0 pick (y_log y)) as [l| | | | |] eqn:E; try done.
    intros [= <- <-]. by eapply step_reap.
Qed.

Lemma steps_cons y l y1 ls y2 : step psend y l y1 -> steps psend y1 ls y2 -> steps psend y (l :: ls) y2.
Proof.
  intros Ha Hb. induction Hb as [y1|y1 ls y' l' y2 Hs IH Hl].
  - apply (steps_snoc _ _ [] _ _ _ (steps_nil _ _) Ha).
  - rewrite app_comm_cons. eapply steps_snoc; [by apply IH|done].
Qed.

Lemma steps_app y ls y1 ls' y2 : steps psend y ls y1 -> steps psend y1 ls' y2 -> steps psend y (ls ++ ls') y2.
Proof.
  intros Ha Hb. induction Hb as [y1|y1 ls' y' l' y2 Hs IH Hl].
  - by rewrite app_nil_r.
  - rewrite app_assoc. eapply steps_snoc; [by apply IH|done].
Qed.

Lemma exec_steps l y ls y' : exec l y = Some (ls, y') -> steps psend y ls y'.
Proof.
  revert y ls; induction l as [|a l IH]; intros y ls; simpl.
  - intros [= <- <-]. constructor.
  - destruct (exec1 a y) as [[lb y1]|] eqn:E1; [|done].
    destruct (exec l y1) as [[ls1 y2]|] eqn:E2; [|done].
    intros [= <- <-]. eapply steps_cons; [by apply exec1_step in E1|eauto].
Qed.
End exec.
