(* ===== verification/PmrExample.v ===== *)
(** * PmrExample: a concrete PMR system, to run

    Two clients connected to a server whose back end is [LevelDB] over a
    finite map, with the adapter [plain_nic]. *)

From Stdlib.Strings Require Import Byte.
From S2P Require Import Prelude Buf Bitset Request Rdma Message DBType Records Uring Example Pmr PmrOps PmrSystem.

Definition example_sys : Type := @sys (gmap bytes bytes) (gmap bytes Meta).

Definition example_cctx : RDMAContext :=
  with_remote (example_region MAX_REQUEST) (local (example_region MAX_DMABUF_SIZE)).
Definition example_kctx : RDMAContext :=
  with_remote (example_region MAX_DMABUF_SIZE) (local (example_region MAX_REQUEST)).

Definition example_new_client : PMRClient := make_client example_cctx (new_buf SEND_BUF_SIZE).
Definition example_header : buf := poke (new_buf MAX_REQUEST) 0 (word CLIENT_DONE).
Definition example_clerk : PMRClerk :=
  {| k_ctx := example_kctx; send_buf_ := poke (new_buf SEND_BUF_SIZE) 0 (word CLERK_DONE);
     k_buf_head_ := UINT32_MAX; k_chunk_offset_ := UINT32_MAX; key_batch := []; metas := [] |}.

Lemma example_linked dma :
  buf_size dma = MAX_DMABUF_SIZE -> linked example_new_client example_clerk dma.
Proof.
  intros Hd. split; try done. split; try done.
  - apply example_region_wf; done.
  - apply example_region_wf; done.
Qed.

Lemma example_header_ok : bwrite32 (local_buf_ example_new_client) 0 CLIENT_DONE = Done example_header.
Proof. unfold example_header. apply bwrite32_word; vm_compute; congruence. Qed.

Lemma example_clerk_ok : make_clerk example_kctx (new_buf SEND_BUF_SIZE) = Done example_clerk.
Proof. unfold make_clerk. rewrite bwrite32_word by (vm_compute; congruence). done. Qed.

Definition ring0 : IOuring := {| ring_ := []; file_ := ∅; inflight_ := 0; offset_ := 0; qd_ := 64 |}.
Definition example_start : example_sys := sys_start ∅ ring0.

(** connection [i] is made *)
Definition example_connect (i : nat) (y : example_sys) : example_sys :=
  match SendAlloc_post psend0 (client_set_buf example_new_client example_header) example_clerk (srv y) with
  | Done (c, k, s) => moved y i (Conn c k (Posted CallAlloc)) s
  | _ => y
  end.

Lemma example_connect_step i (y : example_sys) :
  conns y !! i = None -> buf_size (dmabuf_mem_ (srv y)) = MAX_DMABUF_SIZE ->
  step psend0 y Internal (example_connect i y) /\
  dmabuf_mem_ (srv (example_connect i y)) = dmabuf_mem_ (srv y) /\
  forall j, j <> i -> conns (example_connect i y) !! j = conns y !! j.
Proof.
  intros Hi Hd. pose proof (example_linked _ Hd) as HL.
  assert (HL' : linked (client_set_buf example_new_client example_header) example_clerk (dmabuf_mem_ (srv y)))
    by relink.
  destruct (post_empty_request_spec psend0 ALLOC _ _ (srv y) HL') as (lb & sb & _ & _ & E & _);
    [apply holds_poke|].
  unfold example_connect, SendAlloc_post. rewrite E. split; [|split].
  - apply (step_connect _ _ _ example_cctx (new_buf SEND_BUF_SIZE) example_kctx (new_buf SEND_BUF_SIZE)
      example_clerk example_header);
      [done|apply example_clerk_ok|apply example_header_ok|exact HL|exact E].
  - done.
  - intros j Hj. simpl. by rewrite lookup_insert_ne.
Qed.

(** two clients, both in the [SendAlloc] of [Connect] *)
Definition example_two : example_sys := example_connect 1 (example_connect 0 example_start).

(** ... after the actions [l] *)
Definition example_after (l : list action) : example_sys :=
  match exec psend0 l example_two with Some (_, y) => y | None => example_two end.

Lemma example_two_steps : steps psend0 example_start [Internal; Internal] example_two.
Proof.
  destruct (example_connect_step 0 example_start) as (S1 & D1 & C1); [done|done|].
  destruct (example_connect_step 1 (example_connect 0 example_start)) as (S2 & _ & _);
    [by rewrite C1|by rewrite D1|].
  eapply steps_cons; [exact S1|]. eapply steps_cons; [exact S2|apply steps_nil].
Qed.

Lemma example_steps l ls :
  (exec psend0 l example_two ≫= fun p => Some p.1) = Some ls ->
  steps psend0 example_start ([Internal; Internal] ++ ls) (example_after l).
Proof.
  intros E. eapply steps_app; [apply example_two_steps|]. unfold example_after.
  destruct (exec psend0 l example_two) as [[ls' y]|] eqn:E2; [|done].
  simpl in E. injection E as <-. by eapply exec_steps.
Qed.
