(* ===== verification/PmrInv.v ===== *)
(** * PmrInv: the invariant of the PMR front end, and its preservation

    [sys_inv] relates a system to the specification state: what each
    connection's buffers and chunk hold in each phase, who owns which chunk of
    the messaging buffer, what the index points to. *)

From Stdlib.Strings Require Import Byte.
From S2P Require Import Prelude Buf Bitset Request Rdma Message DBType Records Uring Pmr PmrOps PmrSystem.

(** ** One connection *)

Definition call_bytes (r : call) : bytes :=
  match r with
  | CallWrite e => entry_head e
  | CallGet key => key_request GET key
  | CallDelete key => key_request DELETE key
  | CallAlloc => key_request ALLOC []
  | CallClose => key_request CLOSE []
  end.

(** the client's idea of the chunk *)
Definition client_at (c : PMRClient) (slot head : Z) : Prop :=
  c_chunk_offset_ c = MAX_ASYNC_SIZE * slot /\ c_buf_head_ c = head.

(** a record that is in the chunk and not indexed yet *)
Definition extra (r : call) : list entry := match r with CallWrite e => [e] | _ => [] end.
Definition extra_at (dma : buf) (slot : Z) (es : list entry) (r : call) : Prop :=
  holds dma (MAX_ASYNC_SIZE * slot) (chunk_bytes (es ++ extra r)) /\
  chunk_size (es ++ extra r) < MAX_ASYNC_SIZE.

(** a clerk that never had a chunk *)
Definition clerk_fresh (k : PMRClerk) : Prop :=
  k_chunk_offset_ k = UINT32_MAX /\ key_batch k = [] /\ metas k = [].

(** status and value of the reply to a request *)
Definition reply_of (r : call) (slot : Z) (rep : option bytes) : RequestStatus * bytes :=
  match r with
  | CallGet _ => (get_status rep, default [] rep)
  | CallAlloc => (OK, word (MAX_ASYNC_SIZE * slot))
  | _ => (OK, [])
  end.

Definition phase_inv (dma : buf) (es : list entry) (rep : option bytes) (oslot : option Z)
    (c : PMRClient) (k : PMRClerk) (ph : phase) : Prop :=
  match ph with
  | Ready =>
      holds (local_buf_ c) 0 (word CLIENT_DONE) /\ holds (send_buf_ k) 0 (word CLERK_DONE) /\
      exists slot, oslot = Some slot /\ clerk_chunk k dma slot es /\ client_at c slot (chunk_size es)
  | Posted r =>
      call_ok r /\ posted c k (call_bytes r) /\
      match oslot with
      | Some slot => clerk_chunk k dma slot es /\ extra_at dma slot es r /\
                     client_at c slot (chunk_size (es ++ extra r))
      | None => r = CallAlloc /\ clerk_fresh k /\ es = []
      end
  | Flushed =>
      oslot = None /\ es = [] /\ key_batch k = [] /\ metas k = [] /\
      holds (local_buf_ c) 0 (word CLIENT_DONE) /\ exists msg, serving k msg
  | Answered r =>
      exists slot, oslot = Some slot /\ clerk_chunk k dma slot es /\ r <> CallClose /\
        holds (send_buf_ k) 0 (word CLERK_DONE) /\
        answered c (reply_of r slot rep).1 (reply_of r slot rep).2 /\
        blen (reply_of r slot rep).2 <= MAX_VALUE /\
        match r with CallAlloc => es = [] | _ => client_at c slot (chunk_size es) end
  | Gone => oslot = None /\ es = []
  end.

Definition conn_inv (dma : buf) (es : list entry) (rep : option bytes) (oslot : option Z)
    (cn : conn) : Prop :=
  linked (cn_client cn) (cn_clerk cn) dma /\
  phase_inv dma es rep oslot (cn_client cn) (cn_clerk cn) (cn_phase cn).

Lemma extra_at_nil dma slot es r : extra r = [] ->
  holds dma (MAX_ASYNC_SIZE * slot) (chunk_bytes es) -> chunk_size es < MAX_ASYNC_SIZE ->
  extra_at dma slot es r.
Proof. intros E Hh Hs. unfold extra_at. by rewrite E, app_nil_r. Qed.

(** The chunk of a connection that has one. *)
Lemma conn_inv_chunk dma es rep slot cn :
  conn_inv dma es rep (Some slot) cn -> clerk_chunk (cn_clerk cn) dma slot es.
Proof.
  intros [_ Hp]. unfold phase_inv in Hp. destruct (cn_phase cn).
  - destruct Hp as (_ & _ & s & [= <-] & Hc & _). done.
  - destruct Hp as (_ & _ & Hc & _). done.
  - destruct Hp as [? _]. done.
  - destruct Hp as (s & [= <-] & Hc & _). done.
  - destruct Hp as [? _]. done.
Qed.

Definition same_chunk (dma dma' : buf) (slot : Z) : Prop :=
  forall x, MAX_ASYNC_SIZE * slot <= x < MAX_ASYNC_SIZE * slot + MAX_ASYNC_SIZE ->
    bget dma' x = bget dma x.

Lemma clerk_chunk_frame k dma dma' slot es :
  same_chunk dma dma' slot -> clerk_chunk k dma slot es -> clerk_chunk k dma' slot es.
Proof.
  intros Hd [H1 H2 H3 H4 H5 H6 H7 H8]. split; try done.
  eapply holds_ext; [|exact H8]. intros x Hx. apply Hd. fold (chunk_size es) in Hx. lia.
Qed.

(** A connection only depends on its own chunk of the messaging buffer. *)
Lemma conn_inv_frame dma dma' es rep oslot cn :
  buf_size dma' = MAX_DMABUF_SIZE ->
  (forall slot, oslot = Some slot -> same_chunk dma dma' slot) ->
  conn_inv dma es rep oslot cn -> conn_inv dma' es rep oslot cn.
Proof.
  intros Hsz Hd [HL Hp]. split; [by relink|]. unfold phase_inv in *.
  destruct (cn_phase cn); try done.
  - destruct Hp as (? & ? & slot & -> & Hc & ?). do 2 (split; [done|]).
    exists slot. split; [done|]. split; [|done]. eapply clerk_chunk_frame; eauto.
  - destruct Hp as (? & ? & Hp). do 2 (split; [done|]). destruct oslot as [slot|]; [|done].
    destruct Hp as (Hc & [He1 He2] & ?).
    split; [eapply clerk_chunk_frame; eauto|]. split; [|done]. split; [|done].
    eapply holds_ext; [|exact He1]. intros x Hx. apply (Hd slot eq_refl).
    unfold chunk_size in He2. lia.
  - destruct Hp as (slot & -> & Hc & Hp). exists slot. split; [done|]. split; [|done].
    eapply clerk_chunk_frame; eauto.
Qed.

(** ** The chunks of the messaging buffer and their owners *)

Definition pool_inv (b : AtomicBitset) (owners : list Z) : Prop :=
  bitset_wf b /\ _size b = MAX_DMABUF_SIZE / MAX_ASYNC_SIZE /\ NoDup owners /\
  Forall (fun a => 0 <= a < MAX_DMABUF_SIZE / MAX_ASYNC_SIZE) owners /\
  forall a, 0 <= a < MAX_DMABUF_SIZE / MAX_ASYNC_SIZE -> bit b a = bool_decide (a ∈ owners).

#[export] Instance pool_inv_perm b : Proper ((≡ₚ) ==> iff) (pool_inv b).
Proof.
  assert (forall x y, x ≡ₚ y -> pool_inv b x -> pool_inv b y) as Himp.
  { intros x y Hxy (H1 & H2 & H3 & H4 & H5). split; [done|]. split; [done|].
    split; [by rewrite <- Hxy|]. split; [by rewrite <- Hxy|].
    intros a Ha. rewrite H5 by done. apply bool_decide_ext. by rewrite Hxy. }
  intros x y Hxy. split; apply Himp; [done|by symmetry].
Qed.

Lemma pool_take b b' owners slot :
  pool_inv b owners -> 0 <= slot < MAX_DMABUF_SIZE / MAX_ASYNC_SIZE ->
  bit b slot = false -> bitset_wf b' -> _size b' = _size b ->
  (forall j, 0 <= j -> bit b' j = if bool_decide (j = slot) then true else bit b j) ->
  pool_inv b' (slot :: owners).
Proof.
  intros (H1 & H2 & H3 & H4 & H5) Hs Hb Hwf Hsz Hbits.
  split; [done|]. split; [congruence|]. split; [|split].
  - constructor; [|done]. rewrite H5 in Hb by done. by apply bool_decide_eq_false in Hb.
  - by constructor.
  - intros a Ha. rewrite Hbits by lia. rewrite H5 by done.
    repeat case_bool_decide; rewrite ?elem_of_cons in *; naive_solver.
Qed.

Lemma pool_free b owners a :
  pool_inv b (a :: owners) ->
  0 <= a < MAX_DMABUF_SIZE / MAX_ASYNC_SIZE /\ bit b a = true /\
  exists b', clear b a = Done (b', true) /\ pool_inv b' owners.
Proof.
  intros (H1 & H2 & H3 & H4 & H5). apply list.NoDup_cons in H3 as [Hn H3].
  apply list.Forall_cons in H4 as [Ha H4].
  assert (bit b a = true) as Hb by (rewrite H5 by done; apply bool_decide_eq_true; rewrite elem_of_cons; by left).
  split; [done|]. split; [done|].
  destruct (clear_spec b a H1 ltac:(lia)) as (b' & E & Hwf & Hsz & Hbits).
  rewrite Hb in E. exists b'. split; [done|]. split; [done|]. split; [congruence|].
  split; [done|]. split; [done|]. intros x Hx. rewrite Hbits, H5 by (done || lia).
  repeat case_bool_decide; rewrite ?elem_of_cons in *; naive_solver.
Qed.

(** the owners: connections, entries of the log queue and of the ring, and
    chunks that were never given back *)
Definition owners (slots : gmap nat Z) (q : list queue_item) (r : list sqe) (leaked : list Z) : list Z :=
  (map_to_list slots).*2 ++ map q_chunk q ++ map sq_data r ++ leaked.

Lemma owners_insert slots i a q r leaked :
  slots !! i = None -> owners (<[i := a]> slots) q r leaked ≡ₚ a :: owners slots q r leaked.
Proof.
  intros Hi. unfold owners. rewrite map_to_list_insert by done. done.
Qed.

Lemma owners_delete slots i a q r leaked :
  slots !! i = Some a -> owners slots q r leaked ≡ₚ a :: owners (delete i slots) q r leaked.
Proof.
  intros Hi. rewrite <- (owners_insert (delete i slots) i a) by apply lookup_delete_eq.
  by rewrite insert_delete_id.
Qed.

(** Two connections never have the same chunk. *)
Lemma pool_distinct b slots q r leaked i j a :
  pool_inv b (owners slots q r leaked) -> slots !! i = Some a -> slots !! j = Some a -> i = j.
Proof.
  intros Hp Hi Hj. destruct (decide (i = j)) as [|Hne]; [done|]. exfalso.
  rewrite (owners_delete _ _ _ _ _ _ Hi) in Hp. destruct Hp as (_ & _ & Hn & _).
  apply list.NoDup_cons in Hn as [Hn _]. apply Hn. unfold owners. apply elem_of_app. left.
  apply list_elem_of_fmap. exists (j, a). split; [done|]. apply elem_of_map_to_list.
  by rewrite lookup_delete_ne.
Qed.

(** ** The index *)

(** [m] points to a record of some chunk, of key [key] and value [v] *)
Definition indexed (slots : gmap nat Z) (pend : nat -> list entry) (key : bytes) (m : Meta) (v : bytes) : Prop :=
  exists i slot pre e post, slots !! i = Some slot /\ pend i = pre ++ e :: post /\
    e_key e = key /\ e_val e = v /\ m = entry_index (MAX_ASYNC_SIZE * slot + chunk_size pre) e.

Definition index_inv (idx : gmap bytes Meta) (fr : gmap bytes bytes) (slots : gmap nat Z)
    (pend : nat -> list entry) : Prop :=
  forall key, match idx !! key, fr !! key with
    | Some m, Some v => indexed slots pend key m v
    | None, None => True
    | _, _ => False
    end.

Lemma index_add idx fr slots pend i slot e :
  index_inv idx fr slots pend -> slots !! i = Some slot ->
  index_inv (<[e_key e := entry_index (MAX_ASYNC_SIZE * slot + chunk_size (pend i)) e]> idx)
    (<[e_key e := e_val e]> fr) slots (<[i := pend i ++ [e]]> pend).
Proof.
  intros Hi Hs key. destruct (decide (key = e_key e)) as [->|Hne].
  - rewrite !lookup_insert_eq. exists i, slot, (pend i), e, []. split; [done|].
    by rewrite fn_lookup_insert.
  - rewrite !lookup_insert_ne by done. specialize (Hi key).
    destruct (idx !! key), (fr !! key); try done.
    destruct Hi as (j & sl & pre & e' & post & H1 & H2 & H3).
    destruct (decide (j = i)) as [->|Hj].
    + exists i, sl, pre, e', (post ++ [e]). split; [done|]. rewrite fn_lookup_insert, H2.
      split; [|done]. by rewrite <- app_assoc.
    + exists j, sl, pre, e', post. rewrite fn_lookup_insert_ne by done. done.
Qed.

Lemma index_flush idx fr slots pend i :
  index_inv idx fr slots pend ->
  index_inv (erase_all (map e_key (pend i)) idx) (erase_all (map e_key (pend i)) fr)
    (delete i slots) (<[i := []]> pend).
Proof.
  intros Hi key. rewrite !erase_all_lookup. case_decide as Hk; [done|]. specialize (Hi key).
  destruct (idx !! key), (fr !! key); try done.
  destruct Hi as (j & sl & pre & e & post & H1 & H2 & H3 & H4). destruct (decide (j = i)) as [->|Hj].
  - exfalso. apply Hk. rewrite H2, map_app. simpl. set_solver.
  - exists j, sl, pre, e, post. rewrite lookup_delete_ne, fn_lookup_insert_ne by done. done.
Qed.

Lemma index_slots idx fr slots slots' pend :
  (forall i a, slots !! i = Some a -> slots' !! i = Some a) ->
  index_inv idx fr slots pend -> index_inv idx fr slots' pend.
Proof.
  intros Hs Hi key. specialize (Hi key). destruct (idx !! key), (fr !! key); try done.
  destruct Hi as (j & sl & pre & e & post & H1 & H2). exists j, sl, pre, e, post. eauto.
Qed.

(** ** The log: what is queued, in flight and in the file

    [w] are the bytes of an item that are to be logged; what was submitted to
    the ring and what is queued are together the chunks flushed so far, [lg],
    in some order (a chunk without records has no bytes). *)

Definition item_bytes (it : queue_item) (w : bytes) : Prop :=
  q_len it = blen w /\ blen w < MAX_ASYNC_SIZE /\ take (length w) (q_buf it) = w.

Definition nonempty (ws : list bytes) : list bytes := filter (fun w => w <> []) ws.

Definition log_inv (q : list queue_item) (r : IOuring) (lg : list (list entry)) : Prop :=
  exists ws wq, file_inv r ws /\ Forall2 item_bytes q wq /\
    nonempty (ws ++ wq) ≡ₚ map chunk_bytes lg.

Lemma nonempty_chunk es : nonempty [chunk_bytes es] = map chunk_bytes (flushed_chunk es).
Proof.
  unfold nonempty. destruct es as [|e es]; [done|]. cbn [flushed_chunk map].
  rewrite filter_cons_True; [done|]. intros E.
  pose proof (chunk_size_cons e es) as Hs. unfold chunk_size at 1 in Hs. rewrite E, blen_nil in Hs.
  pose proof (entry_size_pos e). pose proof (chunk_size_nonneg es). lia.
Qed.

Lemma concat_nonempty ws : concat (nonempty ws) = concat ws.
Proof.
  induction ws as [|w ws IH]; [done|]. unfold nonempty in *. destruct w as [|x w].
  - rewrite filter_cons_False by (intros Hn; by apply Hn). done.
  - rewrite filter_cons_True by done. simpl. by rewrite IH.
Qed.

Lemma chunk_item_bytes dma slot es :
  holds dma (MAX_ASYNC_SIZE * slot) (chunk_bytes es) -> chunk_size es < MAX_ASYNC_SIZE ->
  item_bytes (chunk_item dma slot es) (chunk_bytes es).
Proof.
  intros Hh Hs. split; [done|]. split; [done|]. simpl.
  destruct (holds_prefix _ _ _ MAX_ASYNC_SIZE Hh) as [rest ->]; [unfold chunk_size in Hs; lia|].
  apply take_app_length.
Qed.

Lemma log_enqueue q r lg it es :
  log_inv q r lg -> item_bytes it (chunk_bytes es) -> log_inv (q ++ [it]) r (lg ++ flushed_chunk es).
Proof.
  intros (ws & wq & H1 & H2 & H3) Hi. exists ws, (wq ++ [chunk_bytes es]). split; [done|].
  split; [by apply Forall2_app; [|constructor]|].
  rewrite app_assoc, map_app, <- H3, <- nonempty_chunk. unfold nonempty. by rewrite list.filter_app.
Qed.

(** dequeuing keeps the items, whichever is taken *)
Lemma try_dequeue_spec n q it q' :
  try_dequeue n q = Some (it, q') -> exists a b, q = a ++ it :: b /\ q' = a ++ b.
Proof.
  unfold try_dequeue. destruct (q !! (n mod length q)%nat) as [x|] eqn:E; [|done].
  intros [= -> <-]. do 2 eexists. split; [|reflexivity]. symmetry. by apply take_drop_middle.
Qed.

Lemma log_filled fuel pick q r q' r' lg :
  fill_ring fuel pick q r = (q', r') -> log_inv q r lg -> log_inv q' r' lg.
Proof.
  revert q r. induction fuel as [|f IH]; intros q r; simpl; [by intros [= <- <-]|].
  destruct (Full r); [by intros [= <- <-]|].
  destruct (try_dequeue (pick f) q) as [[it q1]|] eqn:E; [|by intros [= <- <-]].
  apply try_dequeue_spec in E as (a & b & -> & ->). intros E (ws & wq & H1 & H2 & H3).
  apply Forall2_app_inv_l in H2 as (wa & wb' & Ha & Hb & ->).
  apply Forall2_cons_inv_l in Hb as (w & wb & (I1 & I2 & I3) & Hb & ->).
  apply (IH _ _ E). exists (ws ++ [w]), (wa ++ wb). split; [|split; [by apply Forall2_app|]].
  - rewrite I1. replace (i32 (blen w)) with (blen w) by (unfold i32; pows; rewrite Z.mod_small; pblia).
    by apply file_inv_write.
  - rewrite <- H3. unfold nonempty. apply filter_Permutation. solve_Permutation.
Qed.

Lemma log_waited q r lg pick d r' :
  Wait pick r = Some (d, r') -> log_inv q r lg -> log_inv q (Seen r') lg.
Proof.
  intros E (ws & wq & H1 & H2 & H3). exists ws, wq. split; [by eapply file_inv_reap|done].
Qed.

(** ** The whole system *)

Section invariant.
Context {DB : Type} `{DBTypeOk DB} {M : Type} `{CuckooMapOk Meta M} `{Nic}.
Variable psend : send_wr -> Z.
Implicit Types (c : PMRClient) (k : PMRClerk) (s : @PMRServer DB M) (y : @sys DB M).

Record sys_inv y (σ : kv_state) (slots : gmap nat Z) (leaked : list Z) : Prop := {
  si_conns : forall i cn, conns y !! i = Some cn ->
    conn_inv (dmabuf_mem_ (srv y)) (pending σ i) (reply σ i) (slots !! i) cn;
  si_absent : forall i, conns y !! i = None -> slots !! i = None /\ pending σ i = [];
  si_pool : pool_inv (bitmap_ (srv y))
    (owners slots (global_queue (srv y)) (ring_ (l_ring (y_log y))) leaked);
  si_ring : ring_wf (l_ring (y_log y));
  si_index : index_inv (cuckoo_contents (map_ (srv y))) (fresh σ) slots (pending σ);
  si_stored : contents (db_ (srv y)) = stored σ;
  si_log : log_inv (global_queue (srv y)) (l_ring (y_log y)) (logged σ);
  si_values : forall key v, stored σ !! key = Some v -> blen v <= MAX_VALUE;
  si_dma : buf_size (dmabuf_mem_ (srv y)) = MAX_DMABUF_SIZE }.

(** What has to be shown of a step of connection [i]: the others only see
    that their chunks have not changed. *)
Lemma sys_inv_moved y σ slots leaked i cn s' σ' slots' leaked' :
  sys_inv y σ slots leaked ->
  (forall j, j <> i -> pending σ' j = pending σ j /\ reply σ' j = reply σ j /\ slots' !! j = slots !! j) ->
  (forall j slot, j <> i -> slots !! j = Some slot ->
     same_chunk (dmabuf_mem_ (srv y)) (dmabuf_mem_ s') slot) ->
  buf_size (dmabuf_mem_ s') = MAX_DMABUF_SIZE ->
  conn_inv (dmabuf_mem_ s') (pending σ' i) (reply σ' i) (slots' !! i) cn ->
  pool_inv (bitmap_ s') (owners slots' (global_queue s') (ring_ (l_ring (y_log y))) leaked') ->
  index_inv (cuckoo_contents (map_ s')) (fresh σ') slots' (pending σ') ->
  contents (db_ s') = stored σ' ->
  log_inv (global_queue s') (l_ring (y_log y)) (logged σ') ->
  (forall key v, stored σ' !! key = Some v -> blen v <= MAX_VALUE) ->
  sys_inv (moved y i cn s') σ' slots' leaked'.
Proof.
  intros [C1 C2 C3 C4 C5 C6 C7 C8 C9] Hj Hd Hsz Hcn Hp Hi Hs Hlg Hv. split; try done.
  - intros j cn'. simpl. destruct (decide (j = i)) as [->|Hne].
    + rewrite lookup_insert_eq. by intros [= <-].
    + rewrite lookup_insert_ne by done. intros Hcj. destruct (Hj j Hne) as (-> & -> & E).
      eapply conn_inv_frame; [done| |rewrite E; by apply C1]. intros slot. rewrite E. eauto.
  - intros j. simpl. destruct (decide (j = i)) as [->|Hne].
    + by rewrite lookup_insert_eq.
    + rewrite lookup_insert_ne by done. intros Hcj. destruct (Hj j Hne) as (-> & _ & ->). by apply C2.
Qed.
End invariant.
