(* ===== verification/PmrSteps.v ===== *)
(** * PmrSteps: every step of the PMR front end keeps the invariant

    For each kind of step: the code returns (it neither fails an assertion nor
    leaves a buffer), and the system it leads to is related to the
    specification state that [kv_apply] gives. *)

From Stdlib.Strings Require Import Byte.
From S2P Require Import Prelude Buf Bitset Request Rdma Message DBType Records Uring Pmr PmrOps PmrSystem PmrInv.

Definition call_op (r : call) : Operation :=
  match r with
  | CallWrite e => e_op e
  | CallGet _ => GET | CallDelete _ => DELETE | CallAlloc => ALLOC | CallClose => CLOSE
  end.

Definition request_of (r : call) : Request :=
  match r with
  | CallWrite e => put_request_of e
  | CallGet key => key_request_of GET key
  | CallDelete key => key_request_of DELETE key
  | CallAlloc => key_request_of ALLOC []
  | CallClose => key_request_of CLOSE []
  end.

Lemma op_request_of r : op (request_of r) = op_code (call_op r).
Proof. by destruct r. Qed.

Section steps.
Context {DB : Type} `{DBTypeOk DB} {M : Type} `{CuckooMapOk Meta M} `{Nic}.
Variable psend : send_wr -> Z.
Implicit Types (c : PMRClient) (k : PMRClerk) (s : @PMRServer DB M) (y : @sys DB M).

(** *** The clerk's iteration, assembled *)

Lemma receive_call c k r dma :
  linked c k dma -> call_ok r -> posted c k (call_bytes r) ->
  exists sb, buf_size sb = SEND_BUF_SIZE /\ receive k = Done (clerk_set_buf k sb, request_of r) /\
    serving (clerk_set_buf k sb) (call_bytes r).
Proof.
  intros HL Hr (_ & Hf). pose proof (l_send _ _ _ HL) as Hs. destruct r as [e|key|key| |]; simpl in *.
  - apply receive_entry; [done|apply Hr|done].
  - apply receive_key_request; [done|apply Hr|done].
  - apply receive_key_request; [done|apply Hr|done].
  - by apply receive_key_request.
  - by apply receive_key_request.
Qed.

Lemma Run_once_reply c k s r k1 k2 s2 st v :
  receive k = Done (k1, request_of r) -> r <> CallClose -> (forall e, r = CallWrite e -> entry_ok e) ->
  handle (call_op r) k1 s (request_of r) = Done (k2, s2) ->
  linked c k2 (dmabuf_mem_ s2) -> replied k2 st v -> blen v <= MAX_VALUE ->
  exists lb, buf_size lb = MAX_REQUEST /\
    Run_once psend k s (client_side c) = Done (k2, s2, Host (c_send c) lb, Continue) /\
    answered (client_set_buf c lb) st v.
Proof.
  intros Er Hne Hok Eh HL Hrep Hv.
  destruct (send_reply_spec psend c k2 s2 st v HL Hrep Hv) as (lb & Hs & Es & Ha).
  exists lb. split; [done|]. split; [|done]. unfold Run_once. rewrite Er. cbn [mbind outcome_bind].
  rewrite op_request_of, op_of_op_code.
  destruct r as [e|key|key| |]; simpl call_op in *; try done;
    try (rewrite Eh; cbn [mbind outcome_bind]; by rewrite Es).
  destruct (Hok e eq_refl) as ([Eo|Eo] & _); rewrite Eo in *;
    rewrite Eh; cbn [mbind outcome_bind]; by rewrite Es.
Qed.

(** *** Serving a [SendPut] or [SendUpdate] *)

Lemma clerk_chunk_add k dma slot es e sb :
  clerk_chunk k dma slot es -> entry_ok e -> extra_at dma slot es (CallWrite e) ->
  clerk_chunk (clerk_add k e sb) dma slot (es ++ [e]).
Proof.
  intros [C1 C2 C3 C4 C5 C6 C7 C8] He [E1 E2]. simpl in E1, E2. split; simpl; try done.
  - rewrite chunk_size_app, chunk_size_one. congruence.
  - by apply Forall_app_2; [|constructor].
  - rewrite C6, map_app. done.
  - rewrite C7, entry_metas_app, C3. done.
Qed.

Lemma serve_write y σ slots leaked i c k e :
  sys_inv y σ slots leaked -> conns y !! i = Some (Conn c k (Posted (CallWrite e))) ->
  exists k' s' h, Run_once psend k (srv y) (client_side c) = Done (k', s', h, Continue) /\
    sys_inv (moved y i (Conn (client_set_buf c (h_write h)) k' (Answered (CallWrite e))) s')
      (kv_serve i (CallWrite e) σ) slots leaked.
Proof.
  intros HI Hi. destruct (si_conns _ _ _ _ HI i _ Hi) as [HL (He & Hpost & Hc)]. simpl in *.
  destruct (slots !! i) as [slot|] eqn:Hslot; [|by destruct Hc as [? _]].
  destruct Hc as (Hc & Hx & Hat).
  destruct (receive_call c k (CallWrite e) _ HL He Hpost) as (sb & Hsb & Er & Hserv).
  set (k1 := clerk_set_buf k sb) in *.
  assert (Hc1 : clerk_chunk k1 (dmabuf_mem_ (srv y)) slot (pending σ i)) by (destruct Hc; by split).
  destruct (handle_put_spec e k1 (srv y) He Hsb Hserv) as (sb2 & Hsb2 & Eh & Hrep).
  { rewrite (cc_head _ _ _ _ Hc1). pose proof (chunk_size_nonneg (pending σ i)).
    pose proof (cc_size _ _ _ _ Hc1). lia. }
  destruct (Run_once_reply c k (srv y) (CallWrite e) k1 (clerk_add k1 e sb2)
    (server_set_map (srv y) (cuckoo_insert_or_assign (map_ (srv y)) (e_key e)
       (entry_index (k_chunk_offset_ k1 + k_buf_head_ k1) e))) OK []) as (lb & Hlb & ER & Ha); try done.
  { intros e' [= <-]. done. }
  { simpl. by destruct (proj1 He) as [-> | ->]. }
  { simpl. relink. }
  do 3 eexists. split; [exact ER|].
  eapply sys_inv_moved; [exact HI|..]; simpl; try (by destruct HI).
  - intros j Hj. by rewrite fn_lookup_insert_ne.
  - rewrite fn_lookup_insert, Hslot. split; [simpl; relink|].
    exists slot. split; [done|]. split; [by apply clerk_chunk_add|].
    split; [done|]. split; [apply Hrep|]. split; [done|]. split; [vm_compute; congruence|]. apply Hat.
  - rewrite cuckoo_insert_ok. rewrite (cc_off _ _ _ _ Hc), (cc_head _ _ _ _ Hc).
    apply index_add; [apply HI|done].
Qed.

(** *** Serving a [SendGet] or a [SendDelete]: the connection only gets its
    reply *)

(** The connection after its request was served with a reply and nothing in
    its chunk changed. *)
Lemma answered_inv y σ slots leaked i c k r sb lb st v rep :
  sys_inv y σ slots leaked -> conns y !! i = Some (Conn c k (Posted r)) ->
  extra r = [] -> r <> CallAlloc -> r <> CallClose ->
  buf_size sb = SEND_BUF_SIZE -> buf_size lb = MAX_REQUEST ->
  holds sb 0 (word CLERK_DONE) -> answered (client_set_buf c lb) st v ->
  (forall slot, reply_of r slot rep = (st, v)) -> blen v <= MAX_VALUE ->
  conn_inv (dmabuf_mem_ (srv y)) (pending σ i) rep (slots !! i)
    (Conn (client_set_buf c lb) (clerk_set_buf k sb) (Answered r)).
Proof.
  intros HI Hi Hx Hne Hne2 Hsb Hlb Hw Ha Hrep Hv.
  destruct (si_conns _ _ _ _ HI i _ Hi) as [HL (Hr & Hpost & Hc)]. simpl in *.
  destruct (slots !! i) as [slot|] eqn:Hslot; [|by destruct Hc as [? _]].
  destruct Hc as (Hc & _ & Hat). rewrite Hx, app_nil_r in Hat.
  split; [simpl; relink|]. simpl. exists slot. rewrite Hrep. split; [done|].
  split; [destruct Hc; by split|]. do 4 (split; [done|]). by destruct r.
Qed.

(** what the index says of a key is what the specification says *)
Lemma index_value y σ slots leaked key m :
  sys_inv y σ slots leaked -> cuckoo_find (map_ (srv y)) key = Some m ->
  exists v, fresh σ !! key = Some v /\ value_size_ m = blen v /\ blen v <= MAX_VALUE /\
    bread (dmabuf_mem_ (srv y)) (mem_ptr m + blen key) (blen v) = Done v.
Proof.
  intros HI Hf. rewrite cuckoo_find_ok in Hf. pose proof (si_index _ _ _ _ HI key) as Hk.
  rewrite Hf in Hk. destruct (fresh σ !! key) as [v|]; [|done]. exists v. split; [done|].
  destruct Hk as (j & slot & pre & e & post & Hs & Hp & <- & <- & ->).
  destruct (conns y !! j) as [cn|] eqn:Hcn.
  2:{ destruct (si_absent _ _ _ _ HI j Hcn) as [? _]. congruence. }
  pose proof (si_conns _ _ _ _ HI j _ Hcn) as HC. rewrite Hs, Hp in HC.
  apply conn_inv_chunk in HC as [C1 C2 C3 C4 C5 C6 C7 C8].
  pose proof (slot_range slot C1) as [R1 R2].
  apply Forall_app in C5 as [_ C5]. apply list.Forall_cons in C5 as [(_ & _ & _ & Hsz & Hv) _].
  rewrite chunk_size_app, chunk_size_cons in C4. 
  pose proof (chunk_size_nonneg pre). pose proof (chunk_size_nonneg post).
  unfold entry_index, Meta_mem, mem_ptr. simpl.
  split; [rewrite u32_small by pblia; done|]. split; [done|].
  apply chunk_value in C8. apply holds_bread.
  - by replace (MAX_ASYNC_SIZE * slot + chunk_size pre + sizeof_Request + blen (e_key e))
      with (MAX_ASYNC_SIZE * slot + chunk_size pre + 8 + blen (e_key e)) by pblia.
  - pblia.
  - rewrite (si_dma _ _ _ _ HI). pblia.
Qed.

Lemma index_none y σ slots leaked key :
  sys_inv y σ slots leaked -> cuckoo_find (map_ (srv y)) key = None -> fresh σ !! key = None.
Proof.
  intros HI Hf. rewrite cuckoo_find_ok in Hf. pose proof (si_index _ _ _ _ HI key) as Hk.
  rewrite Hf in Hk. by destruct (fresh σ !! key).
Qed.

(** the clerk's handling of [GET]: it replies with the value of the view, or
    the database throws for want of the key *)
Lemma handle_get_view y σ slots leaked k key :
  sys_inv y σ slots leaked -> key_ok key -> buf_size (send_buf_ k) = SEND_BUF_SIZE ->
  serving k (key_request GET key) ->
  blen (default [] (view σ key)) <= MAX_VALUE /\
  ((exists sb, buf_size sb = SEND_BUF_SIZE /\
     handle_get k (srv y) (key_request_of GET key) = Done (clerk_set_buf k sb, srv y) /\
     replied (clerk_set_buf k sb) (get_status (view σ key)) (default [] (view σ key))) \/
   (view σ key = None /\ db_Get (db_ (srv y)) key = Thrown /\
    handle_get k (srv y) (key_request_of GET key) = Thrown)).
Proof.
  intros HI Hk Hsz Hs. unfold view. destruct (cuckoo_find (map_ (srv y)) key) as [m|] eqn:Hf.
  - destruct (index_value _ _ _ _ _ _ HI Hf) as (v & -> & Hv & Hb & Hr). split; [done|]. left.
    by apply (handle_get_hit k (srv y) key m v).
  - rewrite (index_none _ _ _ _ _ HI Hf). rewrite <- (si_stored _ _ _ _ HI).
    destruct (contents (db_ (srv y)) !! key) as [v|] eqn:Hc.
    + pose proof Hc as Hv. rewrite (si_stored _ _ _ _ HI) in Hv. apply (si_values _ _ _ _ HI) in Hv.
      split; [done|]. left. apply (handle_get_db k (srv y) key (Some v)); try done. by apply get_present.
    + split; [vm_compute; congruence|]. destruct (get_missing (db_ (srv y)) key Hc) as [E|E].
      * left. apply (handle_get_db k (srv y) key None); try done; vm_compute; congruence.
      * right. split; [done|]. split; [done|]. by apply handle_get_throws.
Qed.

Lemma serve_get y σ slots leaked i c k key :
  sys_inv y σ slots leaked -> conns y !! i = Some (Conn c k (Posted (CallGet key))) ->
  (view σ key = None /\ db_Get (db_ (srv y)) key = Thrown /\
     Run_once psend k (srv y) (client_side c) = Thrown) \/
  exists k' h, Run_once psend k (srv y) (client_side c) = Done (k', srv y, h, Continue) /\
    sys_inv (moved y i (Conn (client_set_buf c (h_write h)) k' (Answered (CallGet key))) (srv y))
      (kv_serve i (CallGet key) σ) slots leaked.
Proof.
  intros HI Hi. destruct (si_conns _ _ _ _ HI i _ Hi) as [HL (Hk & Hpost & Hc)]. simpl in *.
  destruct (receive_call c k (CallGet key) _ HL Hk Hpost) as (sb & Hsb & Er & Hserv).
  destruct (handle_get_view y σ slots leaked (clerk_set_buf k sb) key HI Hk Hsb Hserv)
    as [Hvb [(sb2 & Hsb2 & Eh & Hrep)|(Hn & Ht & Eh)]].
  2:{ left. split; [done|]. split; [done|]. unfold Run_once. rewrite Er. cbn [mbind outcome_bind].
      rewrite op_request_of, op_of_op_code. simpl. simpl in Eh. by rewrite Eh. }
  right. destruct (Run_once_reply c k (srv y) (CallGet key) _ _ _
    (get_status (view σ key)) (default [] (view σ key)) Er ltac:(done) ltac:(done) Eh)
    as (lb & Hlb & ER & Ha); [simpl; relink|exact Hrep|done|].
  do 2 eexists. split; [exact ER|].
  eapply sys_inv_moved; [exact HI|..]; simpl; try (by destruct HI).
  - intros j Hj. by rewrite fn_lookup_insert_ne.
  - rewrite fn_lookup_insert. apply (answered_inv y σ slots leaked i c k (CallGet key) sb2 lb
      (get_status (view σ key)) (default [] (view σ key))); try done. apply Hrep.
Qed.

Lemma serve_delete y σ slots leaked i c k key :
  sys_inv y σ slots leaked -> conns y !! i = Some (Conn c k (Posted (CallDelete key))) ->
  exists k' s' h, Run_once psend k (srv y) (client_side c) = Done (k', s', h, Continue) /\
    sys_inv (moved y i (Conn (client_set_buf c (h_write h)) k' (Answered (CallDelete key))) s')
      (kv_serve i (CallDelete key) σ) slots leaked.
Proof.
  intros HI Hi. destruct (si_conns _ _ _ _ HI i _ Hi) as [HL (Hk & Hpost & Hc)]. simpl in *.
  destruct (receive_call c k (CallDelete key) _ HL Hk Hpost) as (sb & Hsb & Er & Hserv).
  destruct (handle_delete_spec (clerk_set_buf k sb) (srv y) key Hk Hsb Hserv)
    as (sb2 & d & Hsb2 & Eh & Hd & Hrep).
  destruct (Run_once_reply c k (srv y) (CallDelete key) _ _ _ OK [] Er ltac:(done) ltac:(done) Eh)
    as (lb & Hlb & ER & Ha); [simpl; relink|exact Hrep|vm_compute; congruence|].
  do 3 eexists. split; [exact ER|].
  eapply sys_inv_moved; [exact HI|..]; simpl; try (by destruct HI).
  - apply (answered_inv y σ slots leaked i c k (CallDelete key) sb2 lb OK []); try done. apply Hrep.
  - rewrite Hd. f_equal. apply HI.
  - intros x v Hx. apply lookup_delete_Some in Hx as [_ Hx]. by eapply si_values.
Qed.

(** *** Flushing: [ALLOC] and [CLOSE] *)

(** The system after the chunk of connection [i] went to the database and to
    the log queue. *)
Lemma flush_inv y σ slots leaked i slot cn s' :
  sys_inv y σ slots leaked -> slots !! i = Some slot ->
  Forall entry_ok (pending σ i) ->
  holds (dmabuf_mem_ (srv y)) (MAX_ASYNC_SIZE * slot) (chunk_bytes (pending σ i)) ->
  chunk_size (pending σ i) < MAX_ASYNC_SIZE ->
  contents (db_ s') = insert_all (map kv (pending σ i)) (contents (db_ (srv y))) ->
  cuckoo_contents (map_ s') = erase_all (map e_key (pending σ i)) (cuckoo_contents (map_ (srv y))) ->
  bitmap_ s' = bitmap_ (srv y) -> dmabuf_mem_ s' = dmabuf_mem_ (srv y) ->
  global_queue s' = global_queue (srv y) ++ [chunk_item (dmabuf_mem_ (srv y)) slot (pending σ i)] ->
  conn_inv (dmabuf_mem_ (srv y)) [] (reply σ i) None cn ->
  sys_inv (moved y i cn s') (kv_flush i σ) (delete i slots) leaked.
Proof.
  intros HI Hs Hok Hh Hsz Hd Hm Hb Hdma Hq Hcn.
  eapply sys_inv_moved; [exact HI|..]; simpl; rewrite ?Hdma; try done.
  - intros j Hj. by rewrite fn_lookup_insert_ne, lookup_delete_ne.
  - by destruct HI.
  - by rewrite fn_lookup_insert, lookup_delete_eq.
  - rewrite Hb, Hq. pose proof (si_pool _ _ _ _ HI) as Hp. rewrite (owners_delete _ _ _ _ _ _ Hs) in Hp.
    eapply pool_inv_perm; [|exact Hp]. unfold owners. rewrite map_app. simpl. solve_Permutation.
  - rewrite Hm. apply index_flush, HI.
  - rewrite Hd. f_equal. apply HI.
  - rewrite Hq. apply log_enqueue; [apply HI|by apply chunk_item_bytes].
  - intros key v. eapply insert_all_bound; [|apply HI]. apply Forall_map.
    eapply list.Forall_impl; [exact Hok|]. by intros e (_ & _ & _ & _ & He).
Qed.

Lemma serve_close y σ slots leaked i c k :
  sys_inv y σ slots leaked -> conns y !! i = Some (Conn c k (Posted CallClose)) ->
  exists k' s' h slots' leaked', Run_once psend k (srv y) (client_side c) = Done (k', s', h, Closed) /\
    sys_inv (moved y i (Conn c k' Gone) s') (kv_serve i CallClose σ) slots' leaked'.
Proof.
  intros HI Hi. destruct (si_conns _ _ _ _ HI i _ Hi) as [HL (Hk & Hpost & Hc)]. simpl in *.
  destruct (slots !! i) as [slot|] eqn:Hslot; [|by destruct Hc as [? _]].
  destruct Hc as (Hc & _ & _).
  destruct (receive_call c k CallClose _ HL Hk Hpost) as (sb & Hsb & Er & Hserv).
  set (k1 := clerk_set_buf k sb) in *.
  assert (Hc1 : clerk_chunk k1 (dmabuf_mem_ (srv y)) slot (pending σ i)) by (destruct Hc; by split).
  assert (Hgone : conn_inv (dmabuf_mem_ (srv y)) [] (reply σ i) None (Conn c k1 Gone))
    by (split; [simpl; relink|done]).
  assert (ER : Run_once psend k (srv y) (client_side c) =
    s ← handle_close k1 (srv y); Done (k1, s, (client_side c).2, Closed)).
  { unfold Run_once. rewrite Er. cbn [mbind outcome_bind]. by rewrite op_request_of, op_of_op_code. }
  unfold handle_close in ER. destruct (Z.ltb_spec 0 (k_buf_head_ k1)) as [Hh|Hh].
  - destruct (flush_spec k1 (srv y) slot _ MAX_ASYNC_SIZE Hc1 (si_dma _ _ _ _ HI))
      as (s' & E & H6 & H7 & H8 & H9 & H10).
    rewrite E in ER. do 5 eexists. split; [exact ER|].
    eapply flush_inv; eauto; by destruct Hc1.
  - (* nothing was written: the chunk stays allocated for ever *)
    assert (Hes : pending σ i = []).
    { destruct (pending σ i) as [|e es] eqn:E; [done|]. rewrite (cc_head _ _ _ _ Hc1), chunk_size_cons in Hh.
      pose proof (entry_size_pos e). pose proof (chunk_size_nonneg es). lia. }
    exists k1, (srv y), (client_side c).2, (delete i slots), (slot :: leaked). split; [exact ER|].
    unfold kv_serve, kv_flush. rewrite Hes. simpl.
    eapply sys_inv_moved; [exact HI|..]; simpl; try (by destruct HI).
    + intros j Hj. by rewrite fn_lookup_insert_ne, lookup_delete_ne.
    + by rewrite fn_lookup_insert, lookup_delete_eq.
    + pose proof (si_pool _ _ _ _ HI) as Hp. rewrite (owners_delete _ _ _ _ _ _ Hslot) in Hp.
      eapply pool_inv_perm; [|exact Hp]. unfold owners. solve_Permutation.
    + pose proof (index_flush _ _ _ _ i (si_index _ _ _ _ HI)) as Hx. by rewrite Hes in Hx.
    + rewrite app_nil_r. apply HI.
Qed.

Lemma serve_flush y σ slots leaked i c k :
  sys_inv y σ slots leaked -> conns y !! i = Some (Conn c k (Posted CallAlloc)) ->
  exists k1 k' s', receive k = Done (k1, request_of CallAlloc) /\
    alloc_flush k1 (srv y) = Done (k', s') /\
    sys_inv (moved y i (Conn c k' Flushed) s') (kv_flush i σ) (delete i slots) leaked.
Proof.
  intros HI Hi. destruct (si_conns _ _ _ _ HI i _ Hi) as [HL (Hk & Hpost & Hc)]. simpl in *.
  destruct (receive_call c k CallAlloc _ HL Hk Hpost) as (sb & Hsb & Er & Hserv).
  set (k1 := clerk_set_buf k sb) in *. exists k1.
  destruct (slots !! i) as [slot|] eqn:Hslot.
  - destruct Hc as (Hc & _ & _).
    assert (Hc1 : clerk_chunk k1 (dmabuf_mem_ (srv y)) slot (pending σ i)) by (destruct Hc; by split).
    destruct (alloc_flush_spec k1 (srv y) slot _ Hc1 (si_dma _ _ _ _ HI)) as (s' & E & Ef).
    destruct (flush_spec k1 (srv y) slot _ (k_buf_head_ k1) Hc1 (si_dma _ _ _ _ HI))
      as (s'' & E' & H6 & H7 & H8 & H9 & H10).
    rewrite E in E'. injection E' as <-. do 2 eexists. split; [done|]. split; [exact Ef|].
    eapply flush_inv; eauto; [by destruct Hc1..|]. split; [simpl; relink|].
    destruct Hpost as [Hw _]. do 5 (split; [done|]). by eexists.
  - destruct Hc as (_ & (F1 & F2 & F3) & Hes). exists k1, (srv y). split; [done|]. split.
    { unfold alloc_flush. simpl. by rewrite F1. }
    unfold kv_flush. rewrite Hes. simpl.
    eapply sys_inv_moved; [exact HI|..]; simpl; try (by destruct HI).
    + intros j Hj. by rewrite fn_lookup_insert_ne, lookup_delete_ne.
    + rewrite fn_lookup_insert, lookup_delete_eq. split; [simpl; relink|].
      destruct Hpost as [Hw _]. do 5 (split; [done|]). by eexists.
    + rewrite delete_id by done. apply HI.
    + pose proof (index_flush _ _ _ _ i (si_index _ _ _ _ HI)) as Hx. by rewrite Hes in Hx.
    + rewrite app_nil_r. apply HI.
Qed.

(** *** Getting a chunk *)

Lemma serve_take y σ slots leaked i c k :
  sys_inv y σ slots leaked -> conns y !! i = Some (Conn c k Flushed) ->
  (alloc_take k (srv y) = Hangs /\
   forall a, 0 <= a < MAX_DMABUF_SIZE / MAX_ASYNC_SIZE ->
     a ∈ owners slots (global_queue (srv y)) (ring_ (l_ring (y_log y))) leaked) \/
  exists k' s' h slots', alloc_take k (srv y) = Done (k', s') /\
    send_reply psend k' s' (client_side c) = Done h /\
    sys_inv (moved y i (Conn (client_set_buf c (h_write h)) k' (Answered CallAlloc)) s') σ slots' leaked.
Proof.
  intros HI Hi. destruct (si_conns _ _ _ _ HI i _ Hi) as [HL (Hs & Hes & Hkb & Hme & Hw & msg & Hserv)].
  simpl in *. pose proof (si_pool _ _ _ _ HI) as Hpool.
  pose proof Hpool as (Hwf & Hsz & _ & _ & Hbits).
  destruct (decide (Exists (fun n => bit (bitmap_ (srv y)) (Z.of_nat n) = false) (seq 0 256))) as [Hex|Hex].
  - right. apply Exists_exists in Hex as (n & Hn%in_seq & Hbn).
    destruct (alloc_take_spec k (srv y) msg (l_send _ _ _ HL) Hserv Hwf Hsz)
      as (slot & sb & b & Hsb & Hslot & Hfree & Hwf' & Hsz' & Hall & Et & Hrep).
    { exists (Z.of_nat n). rewrite Hsz. change (MAX_DMABUF_SIZE / MAX_ASYNC_SIZE) with 256. split; [lia|done]. }
    pose proof (slot_range slot Hslot) as [R1 R2].
    assert (HL2 : linked c (clerk_take k slot sb) (dmabuf_mem_ (server_set_bitmap (srv y) b)))
      by (simpl; relink).
    destruct (send_reply_spec psend c _ _ _ _ HL2 Hrep) as (lb & Hlb & Es & Ha); [pblia|].
    exists (clerk_take k slot sb), (server_set_bitmap (srv y) b), (Host (c_send c) lb), (<[i := slot]> slots).
    split; [done|]. split; [done|].
    eapply sys_inv_moved; [exact HI|..]; simpl; try (by destruct HI).
    + intros j Hj. by rewrite lookup_insert_ne.
    + rewrite lookup_insert_eq, Hes. split; [simpl; relink|].
      exists slot. split; [done|]. split.
      { split; simpl; try done. all: try (change (chunk_size []) with 0; pblia).
        all: by rewrite ?Hkb, ?Hme. }
      split; [done|]. split; [apply Hrep|]. split; [exact Ha|]. split; [simpl; pblia|done].
    + rewrite owners_insert by done. by eapply pool_take.
    + eapply index_slots; [|apply HI]. intros j a Hj. rewrite lookup_insert_ne; [done|]. congruence.
  - left. assert (Hall : forall a, 0 <= a < 256 -> bit (bitmap_ (srv y)) a = true).
    { intros a Ha. destruct (bit (bitmap_ (srv y)) a) eqn:E; [done|]. exfalso. apply Hex.
      apply Exists_exists. exists (Z.to_nat a). split; [apply in_seq; lia|]. by rewrite Z2Nat.id by lia. }
    split; [apply alloc_take_hangs; [done|]; by rewrite Hsz|].
    intros a Ha. specialize (Hall a Ha). rewrite Hbits in Hall by done. by apply bool_decide_eq_true in Hall.
Qed.

(** *** A call returns *)

Lemma serve_return y σ slots leaked i c k r :
  sys_inv y σ slots leaked -> conns y !! i = Some (Conn c k (Answered r)) ->
  exists c' v, finish r c = Done (c', v) /\ (forall key, r = CallGet key -> v = reply σ i) /\
    (forall key, r = CallDelete key -> SendDelete_done c = Done (c', true)) /\
    sys_inv (moved y i (Conn c' k Ready) (srv y)) σ slots leaked.
Proof.
  intros HI Hi. destruct (si_conns _ _ _ _ HI i _ Hi)
    as [HL (slot & Hs & Hc & Hne & Hw & Ha & Hv & Hat)]. simpl in *.
  pose proof (l_local _ _ _ HL) as Hsz. pose proof (slot_range slot (cc_slot _ _ _ _ Hc)) as [R1 R2].
  assert (exists lb off head v, buf_size lb = MAX_REQUEST /\ holds lb 0 (word CLIENT_DONE) /\
    finish r c = Done (client_set_head (client_set_buf c lb) off head, v) /\
    (forall key, r = CallGet key -> v = reply σ i) /\
    (forall key, r = CallDelete key ->
       SendDelete_done c = Done (client_set_head (client_set_buf c lb) off head, true)) /\
    off = MAX_ASYNC_SIZE * slot /\ head = chunk_size (pending σ i))
    as (lb & off & head & v & Hlb & Hlw & Ef & Hget & Hdel & -> & ->).
  { assert (Hsame : forall lb, client_set_head (client_set_buf c lb) (c_chunk_offset_ c) (c_buf_head_ c)
      = client_set_buf c lb) by done.
    destruct r as [e|key|key| |]; simpl in *; try done.
    - destruct (wait_clerk_spec c _ _ Hsz Ha) as (lb & Hlb & E & Hlw & _).
      exists lb, (c_chunk_offset_ c), (c_buf_head_ c), None. rewrite E, Hsame. by destruct Hat.
    - destruct (SendGet_done_spec c _ _ Hsz Ha Hv) as (lb & Hlb & Hlw & E).
      exists lb, (c_chunk_offset_ c), (c_buf_head_ c), (reply σ i). rewrite E, Hsame.
      destruct Hat. do 2 (split; [done|]). split; [by destruct (reply σ i)|done].
    - destruct (SendDelete_done_spec c _ _ Hsz Ha Hv) as (lb & Hlb & Hlw & E).
      exists lb, (c_chunk_offset_ c), (c_buf_head_ c), None. rewrite E, Hsame. by destruct Hat.
    - destruct (SendAlloc_done_spec c (MAX_ASYNC_SIZE * slot) Hsz Ha) as (lb & Hlb & Hlw & E); [pblia|].
      exists lb, (MAX_ASYNC_SIZE * slot), 0, None. rewrite E, Hat. done. }
  exists (client_set_head (client_set_buf c lb) (MAX_ASYNC_SIZE * slot) (chunk_size (pending σ i))), v.
  split; [done|]. split; [done|]. split; [done|].
  eapply sys_inv_moved; [exact HI|..]; simpl; try (by destruct HI).
  split; [simpl; relink|]. simpl. do 2 (split; [done|]). by exists slot.
Qed.

(** *** A call is posted *)

Lemma same_chunk_poke dma off bs slot slot' :
  MAX_ASYNC_SIZE * slot' <= off -> off + blen bs <= MAX_ASYNC_SIZE * slot' + MAX_ASYNC_SIZE ->
  slot <> slot' -> same_chunk dma (poke dma off bs) slot.
Proof.
  intros H6 H7 Hne x Hx. apply bget_poke_ne. unfold MAX_ASYNC_SIZE in *.
  destruct (Z.lt_total slot slot') as [?|[?|?]]; [lia|done|lia].
Qed.

Lemma SendClose_post_spec c k s :
  linked c k (dmabuf_mem_ s) -> holds (local_buf_ c) 0 (word CLIENT_DONE) ->
  exists lb sb, buf_size lb = MAX_REQUEST /\ buf_size sb = SEND_BUF_SIZE /\
    SendClose_post psend c k s = Done (client_set_buf c lb, clerk_set_buf k sb, s) /\
    posted (client_set_buf c lb) (clerk_set_buf k sb) (key_request CLOSE []).
Proof.
  intros HL Hw. destruct (post_empty_request_spec psend CLOSE c k s HL Hw) as (lb & sb & S1 & S2 & E & Hp).
  exists lb, sb. do 2 (split; [done|]). split; [|done]. unfold SendClose_post. rewrite E.
  cbn [mbind outcome_bind]. destruct (link_c _ _ _ _ (l_link _ _ _ HL)) as (smr & wmr & sa & E1 & E2 & E3 & _).
  unfold post_send, copy_msg, finish_post. simpl. by rewrite E1, E3.
Qed.

(** the requests that do not touch the chunk *)
Lemma post_plain y c k r :
  linked c k (dmabuf_mem_ (srv y)) -> call_ok r -> extra r = [] ->
  holds (local_buf_ c) 0 (word CLIENT_DONE) ->
  exists lb sb, buf_size lb = MAX_REQUEST /\ buf_size sb = SEND_BUF_SIZE /\
    post psend r c k (srv y) = Done (client_set_buf c lb, clerk_set_buf k sb, srv y) /\
    posted (client_set_buf c lb) (clerk_set_buf k sb) (call_bytes r).
Proof.
  intros HL Hr Hx Hw. destruct r as [e|key|key| |]; simpl in *; try done.
  - by apply post_key_request_spec.
  - by apply post_key_request_spec.
  - by apply post_empty_request_spec.
  - by apply SendClose_post_spec.
Qed.

Lemma serve_post y σ slots leaked i c k r :
  sys_inv y σ slots leaked -> conns y !! i = Some (Conn c k Ready) -> call_ok r -> may_post r c = true ->
  exists c' k' s', post psend r c k (srv y) = Done (c', k', s') /\
    sys_inv (moved y i (Conn c' k' (Posted r)) s') σ slots leaked.
Proof.
  intros HI Hi Hr Hmay. destruct (si_conns _ _ _ _ HI i _ Hi)
    as [HL (Hw & Hw2 & slot & Hs & Hc & Hat)]. simpl in *.
  pose proof Hc as [C1 C2 C3 C4 C5 C6 C7 C8]. pose proof (slot_range slot C1) as [R1 R2].
  pose proof (chunk_size_nonneg (pending σ i)) as Hn. destruct Hat as [A1 A2].
  destruct (decide (extra r = [])) as [Hx|Hx].
  - destruct (post_plain y c k r HL Hr Hx Hw) as (lb & sb & S1 & S2 & E & Hp).
    do 3 eexists. split; [exact E|].
    eapply sys_inv_moved; [exact HI|..]; simpl; try (by destruct HI).
    split; [simpl; relink|]. simpl. do 2 (split; [done|]). rewrite Hs, Hx, app_nil_r.
    split; [by split|]. split; [by apply extra_at_nil|done].
  - destruct r as [e|?|?| |]; try done. simpl in Hmay, Hr.
    unfold SendWrite_full in Hmay. rewrite SendWrite_total_spec in Hmay by done.
    assert (Hfit : chunk_size (pending σ i) + entry_size e < MAX_ASYNC_SIZE).
    { apply negb_true_iff, Z.leb_gt in Hmay. pose proof (entry_size_pos e).
      destruct Hr as (_ & _ & _ & Hsz & _). rewrite A2, u32_small in Hmay by pblia. done. }
    destruct (SendWrite_post_spec psend e c k (srv y) (MAX_ASYNC_SIZE * slot + chunk_size (pending σ i)))
      as (lb & sb & S1 & S2 & E & Hp); try done; try (rewrite ?A1, ?A2; pblia).
    do 3 eexists. split; [exact E|].
    eapply sys_inv_moved; [exact HI|..]; simpl; try (by destruct HI).
    + intros j slot' Hj Hs'. apply (same_chunk_poke _ _ _ _ slot); [lia|pblia|].
      intros ->. apply Hj. by eapply pool_distinct; [apply HI|..].
    + split; [simpl; relink|]. simpl. do 2 (split; [done|]). rewrite Hs.
      assert (Hold : holds (poke (dmabuf_mem_ (srv y)) (MAX_ASYNC_SIZE * slot + chunk_size (pending σ i))
        (entry_bytes e)) (MAX_ASYNC_SIZE * slot) (chunk_bytes (pending σ i)))
        by (apply holds_poke_ne; [left; unfold chunk_size; lia|done]).
      split; [by split|]. split; [split|].
      * simpl. rewrite chunk_bytes_app. apply holds_app. split; [done|].
        unfold chunk_bytes at 2. simpl. rewrite app_nil_r. apply holds_poke.
      * simpl. by rewrite chunk_size_app, chunk_size_one.
      * split; simpl; [done|]. rewrite chunk_size_app, chunk_size_one. lia.
Qed.

(** *** A connection is made *)

Lemma serve_connect y σ slots leaked i cctx csend kctx ksend k lb :
  sys_inv y σ slots leaked -> conns y !! i = None -> make_clerk kctx ksend = Done k ->
  bwrite32 (local_buf_ (make_client cctx csend)) 0 CLIENT_DONE = Done lb ->
  linked (make_client cctx csend) k (dmabuf_mem_ (srv y)) ->
  exists c' k' s', SendAlloc_post psend (client_set_buf (make_client cctx csend) lb) k (srv y)
      = Done (c', k', s') /\
    sys_inv (moved y i (Conn c' k' (Posted CallAlloc)) s') σ slots leaked.
Proof.
  intros HI Hi Hk Hb HL. destruct (si_absent _ _ _ _ HI i Hi) as [Hs Hp].
  rewrite bwrite32_word in Hb by (simpl; pblia). injection Hb as <-.
  set (c := client_set_buf (make_client cctx csend) _).
  assert (HL' : linked c k (dmabuf_mem_ (srv y))) by relink.
  destruct (post_empty_request_spec psend ALLOC c k (srv y) HL') as (lb & sb & S1 & S2 & E & Hpost);
    [apply holds_poke|].
  do 3 eexists. split; [exact E|].
  eapply sys_inv_moved; [exact HI|..]; simpl; try (by destruct HI).
  split; [simpl; relink|]. simpl. do 2 (split; [done|]). rewrite Hs. split; [done|]. split; [|done].
  unfold make_clerk in Hk. inv_done. done.
Qed.

(** *** The log thread *)

Lemma fill_ring_spec fuel pick q r q' r' :
  fill_ring fuel pick q r = (q', r') ->
  map q_chunk q' ++ map sq_data (ring_ r') ≡ₚ map q_chunk q ++ map sq_data (ring_ r) /\
  (ring_wf r -> ring_wf r').
Proof.
  revert q r. induction fuel as [|f IH]; intros q r; simpl; [by intros [= <- <-]|].
  destruct (Full r) eqn:Ef; [by intros [= <- <-]|].
  destruct (try_dequeue (pick f) q) as [[it q1]|] eqn:E; [|by intros [= <- <-]].
  apply try_dequeue_spec in E as (x & z & -> & ->). intros E.
  destruct (IH _ _ E) as (E2 & Hwf). split; [|intros; by apply Hwf, Write_wf].
  rewrite E2. unfold Write. simpl. rewrite !map_app. simpl. solve_Permutation.
Qed.

Lemma log_fill y σ slots leaked pick :
  sys_inv y σ slots leaked -> sys_inv (Sys (uring_fill pick (y_log y)) (conns y)) σ slots leaked.
Proof.
  intros [C1 C2 C3 C4 C5 C6 C7 C8 C9]. unfold uring_fill, srv in *.
  destruct (fill_ring _ pick (global_queue (l_server (y_log y))) (l_ring (y_log y))) as [q r] eqn:E.
  destruct (fill_ring_spec _ _ _ _ _ _ E) as (Ep & Hwf). split; try done.
  - unfold srv. simpl. eapply pool_inv_perm; [|exact C3]. unfold owners.
    rewrite !(app_assoc (map q_chunk _)), Ep. done.
  - by apply Hwf.
  - by eapply log_filled.
Qed.

Lemma Wait_spec pick r d r' :
  Wait pick r = Some (d, r') -> map sq_data (ring_ r) ≡ₚ d :: map sq_data (ring_ r').
Proof.
  unfold Wait. destruct (ring_ r !! pick) as [e|] eqn:E; [|done]. intros [= <- <-]. simpl.
  rewrite <- (take_drop_middle _ _ _ E) at 1. rewrite !map_app. simpl. solve_Permutation.
Qed.

Lemma log_reap y σ slots leaked ret pick :
  sys_inv y σ slots leaked -> 0 <= ret -> (pick < length (ring_ (l_ring (y_log y))))%nat ->
  exists l, uring_reap ret pick (y_log y) = Done l /\ sys_inv (Sys l (conns y)) σ slots leaked.
Proof.
  intros HI Hret Hpick. pose proof HI as [C1 C2 C3 C4 C5 C6 C7 C8 C9].
  destruct (Wait pick (l_ring (y_log y))) as [[d r]|] eqn:E.
  2:{ unfold Wait in E. destruct (lookup_lt_is_Some_2 _ _ Hpick) as [e He]. by rewrite He in E. }
  assert (Hp : pool_inv (bitmap_ (srv y)) (d :: owners slots (global_queue (srv y)) (ring_ r) leaked)).
  { eapply pool_inv_perm; [|exact C3]. unfold owners. rewrite (Wait_spec _ _ _ _ E). solve_Permutation. }
  destruct (pool_free _ _ _ Hp) as (Hd & Hb & b' & Ec & Hp').
  destruct Hp as (Hwf & Hsz & _).
  eexists. unfold uring_reap, srv in *. unfold c_assert. zdecide. cbn [mbind outcome_bind]. rewrite E.
  unfold FreeChunk, c_assert. rewrite (proj2 (Z.ltb_lt d _)) by lia. cbn [mbind outcome_bind].
  rewrite get_spec by (done || lia). cbn [mbind outcome_bind]. rewrite Hb. cbn [mbind outcome_bind].
  rewrite Ec. cbn [mbind outcome_bind]. split; [reflexivity|].
  split; try done; unfold srv; simpl; [by eapply Wait_Seen_wf|by eapply log_waited].
Qed.
End steps.
