(* ===== verification/PmrRefine.v ===== *)
(** * PmrRefine: what the PMR front end guarantees

    The theorems about whole executions of [PmrSystem]: the refinement of the
    two-layer map, absence of failures, ownership of the chunks, and what a
    client reads; then the whole calls [SendGet], [SendPut], ... as a single
    client makes them. *)

From Stdlib.Strings Require Import Byte.
From S2P Require Import Prelude Buf Bitset Request Rdma Message DBType Records Uring Example Pmr PmrOps PmrSystem PmrInv PmrSteps PmrExample.

Section execution.
Context {DB : Type} `{DBTypeOk DB} {M : Type} `{CuckooMapOk Meta M} `{Nic}.
Variable psend : send_wr -> Z.
Implicit Types (y : @sys DB M).

Lemma sys_inv_start db r :
  (exists ret, make_ring ret 64 = Done r) -> (forall key v, contents db !! key = Some v -> blen v <= MAX_VALUE) ->
  sys_inv (sys_start (db : DB) r : @sys DB M) (kv_start (contents db)) ∅ [].
Proof.
  intros [ret Hr] Hv. assert (He : ring_ r = [] /\ ring_wf r).
  { unfold make_ring in Hr. destruct (ret <? 0); [done|]. injection Hr as <-. done. }
  destruct He as [He Hwf]. split; simpl; try done.
  - unfold owners. rewrite He. simpl. split; [by apply make_bitset_wf|]. split; [done|].
    split; [constructor|]. split; [constructor|]. intros a Ha. rewrite make_bitset_bit.
    symmetry. apply bool_decide_eq_false. apply not_elem_of_nil.
  - intros key. rewrite cuckoo_empty_ok, !lookup_empty. done.
  - exists [], []. split; [by eapply file_inv_start|done].
Qed.

(** Every step keeps the invariant and is a step of the specification. *)
Lemma step_inv y σ slots leaked l y' :
  sys_inv y σ slots leaked -> step psend y l y' ->
  kv_accepts l σ /\ exists slots' leaked', sys_inv y' (kv_apply l σ) slots' leaked'.
Proof.
  intros HI Hstep.
  destruct Hstep as [i cctx csend kctx ksend k lb c' k' s' Hi Hk Hb HL E|i c k r c' k' s' Hi Hr Hm E
    |i c k r k' s' h Hi Hne E|i c k k' s' h Hi E|i c k k1 r k' s' Hi Er E|i c k k' s' h Hi E Es
    |i c k r c' v Hi E| |ret pick l E].
  - split; [done|]. destruct (serve_connect psend _ _ _ _ _ _ _ _ _ _ _ HI Hi Hk Hb HL) as (? & ? & ? & E' & HI').
    rewrite E in E'. injection E' as <- <- <-. eauto.
  - split; [done|]. destruct (serve_post psend _ _ _ _ _ _ _ _ HI Hi Hr Hm) as (? & ? & ? & E' & HI').
    rewrite E in E'. injection E' as <- <- <-. eauto.
  - split; [done|]. destruct r as [e|key|key| |]; try done.
    + destruct (serve_write psend _ _ _ _ _ _ _ _ HI Hi) as (? & ? & ? & E' & HI').
      rewrite E in E'. injection E' as <- <- <-. eauto.
    + destruct (serve_get psend _ _ _ _ _ _ _ _ HI Hi) as [(_ & _ & E')|(? & ? & E' & HI')];
        rewrite E in E'; [done|]. injection E' as <- -> <-. eauto.
    + destruct (serve_delete psend _ _ _ _ _ _ _ _ HI Hi) as (? & ? & ? & E' & HI').
      rewrite E in E'. injection E' as <- <- <-. eauto.
    + destruct (serve_close psend _ _ _ _ _ _ _ HI Hi) as (? & ? & ? & ? & ? & E' & HI').
      rewrite E in E'. done.
  - split; [done|]. destruct (serve_close psend _ _ _ _ _ _ _ HI Hi) as (? & ? & ? & ? & ? & E' & HI').
    rewrite E in E'. injection E' as <- <- <-. eauto.
  - split; [done|]. destruct (serve_flush _ _ _ _ _ _ _ HI Hi) as (? & ? & ? & Er' & E' & HI').
    rewrite Er in Er'. injection Er' as <- ->. rewrite E in E'. injection E' as <- <-. eauto.
  - split; [done|]. destruct (serve_take psend _ _ _ _ _ _ _ HI Hi) as [[E' _]|(? & ? & ? & ? & E' & Es' & HI')];
      rewrite E in E'; [done|]. injection E' as <- <-. rewrite Es in Es'. injection Es' as <-. eauto.
  - destruct (serve_return _ _ _ _ _ _ _ _ HI Hi) as (? & ? & E' & Hg & _ & HI').
    rewrite E in E'. injection E' as <- <-. split; [|eauto]. destruct r; try done. by eapply Hg.
  - split; [done|]. do 2 eexists. by apply log_fill.
  - split; [done|].
    destruct (decide (pick < length (ring_ (l_ring (y_log y))))%nat) as [Hp|Hp].
    + destruct (decide (0 <= ret)) as [Hret|Hret].
      * destruct (log_reap _ _ _ _ _ _ HI Hret Hp) as (l' & E' & HI'). rewrite E in E'.
        injection E' as <-. eauto.
      * unfold uring_reap, c_assert in E. rewrite (proj2 (Z.leb_gt _ _)) in E by lia. done.
    + unfold uring_reap, c_assert in E. destruct (0 <=? ret); [|done]. cbn [mbind outcome_bind] in E.
      unfold Wait in E. by rewrite lookup_ge_None_2 in E by lia.
Qed.

Lemma steps_inv y σ slots leaked ls y' :
  sys_inv y σ slots leaked -> steps psend y ls y' ->
  exists σ' slots' leaked', kv_runs σ ls σ' /\ sys_inv y' σ' slots' leaked'.
Proof.
  intros HI Hs. induction Hs as [y|y ls y1 l y2 Hs IH Hst]; [do 3 eexists; by split; [constructor|]|].
  destruct (IH HI) as (σ1 & sl & lk & Hr & HI1).
  destruct (step_inv _ _ _ _ _ _ HI1 Hst) as (Ha & sl' & lk' & HI2).
  do 3 eexists. split; [by econstructor|exact HI2].
Qed.

(** an initial system: a new ring of 64 entries, values that fit a reply *)
Definition start_ok (db : DB) (r : IOuring) : Prop :=
  (exists ret, make_ring ret 64 = Done r) /\ forall key v, contents db !! key = Some v -> blen v <= MAX_VALUE.

Lemma reachable_inv db r ls y :
  start_ok db r -> steps psend (sys_start (db : DB) r) ls y ->
  exists σ slots leaked, kv_runs (kv_start (contents db)) ls σ /\ sys_inv y σ slots leaked.
Proof.
  intros (H6 & H7) Hs. eapply steps_inv; [|exact Hs]. by apply sys_inv_start.
Qed.


(** C3: in every reachable state no code of the front end can fail: a client
    between calls posts any supported request, the clerk's iteration returns
    (a [GET] of a missing key excepted, when the database throws), a flush
    returns, [AllocChunk] returns or really finds every chunk in use, and a
    call whose reply is there returns; whichever completion the log thread
    reaps, the assertions of [FreeChunk] hold.  No access leaves a buffer. *)
Theorem pmr_no_failure db r ls y :
  start_ok db r -> steps psend (sys_start (db : DB) r) ls y ->
  (forall i c k ph, conns y !! i = Some (Conn c k ph) ->
     match ph with
     | Ready => forall q, call_ok q -> may_post q c = true -> exists st, post psend q c k (srv y) = Done st
     | Posted CallAlloc =>
         exists k1 q st, receive k = Done (k1, q) /\ alloc_flush k1 (srv y) = Done st
     | Posted q =>
         (exists res, Run_once psend k (srv y) (client_side c) = Done res) \/
         (exists key, q = CallGet key /\ db_Get (db_ (srv y)) key = Thrown /\
                      Run_once psend k (srv y) (client_side c) = Thrown)
     | Flushed =>
         (exists k' s' h, alloc_take k (srv y) = Done (k', s') /\ send_reply psend k' s' (client_side c) = Done h) \/
         (alloc_take k (srv y) = Hangs /\
          forall a, 0 <= a < MAX_DMABUF_SIZE / MAX_ASYNC_SIZE -> get (bitmap_ (srv y)) a = Done true)
     | Answered q => exists res, finish q c = Done res
     | Gone => True
     end) /\
  (forall ret pick, 0 <= ret -> (pick < length (ring_ (l_ring (y_log y))))%nat ->
     exists l, uring_reap ret pick (y_log y) = Done l).
Proof.
  intros Hok Hs. destruct (reachable_inv db r ls y Hok Hs) as (σ & slots & leaked & Hr & HI). split.
  - intros i c k ph Hi. destruct ph as [|q| |q|]; [| | | |done].
    + intros q Hq Hm. destruct (serve_post psend _ _ _ _ _ _ _ _ HI Hi Hq Hm) as (? & ? & ? & E & _). eauto.
    + destruct q as [e|key|key| |].
      * left. destruct (serve_write psend _ _ _ _ _ _ _ _ HI Hi) as (? & ? & ? & E & _). eauto.
      * destruct (serve_get psend _ _ _ _ _ _ _ _ HI Hi) as [(_ & Ht & E)|(? & ? & E & _)]; eauto 6.
      * left. destruct (serve_delete psend _ _ _ _ _ _ _ _ HI Hi) as (? & ? & ? & E & _). eauto.
      * destruct (serve_flush _ _ _ _ _ _ _ HI Hi) as (? & ? & ? & Er & E & _). eauto 6.
      * left. destruct (serve_close psend _ _ _ _ _ _ _ HI Hi) as (? & ? & ? & ? & ? & E & _). eauto.
    + destruct (serve_take psend _ _ _ _ _ _ _ HI Hi) as [[E Hall]|(? & ? & ? & ? & E & Es & _)];
        [right|left; eauto 6]. split; [done|]. intros a Ha.
      destruct (si_pool _ _ _ _ HI) as (Hwf & Hsz & _ & _ & Hb).
      rewrite get_spec, Hb by (done || lia). by rewrite bool_decide_eq_true_2 by auto.
    + destruct (serve_return _ _ _ _ _ _ _ _ HI Hi) as (? & ? & E & _). eauto.
  - intros ret pick Hret Hp. destruct (log_reap _ _ _ _ _ _ HI Hret Hp) as (l & E & _). eauto.
Qed.

(** C4: once the log thread has caught up (queue empty, nothing in flight), the
    log file is exactly the encoded records of the flushed chunks, each chunk
    once and contiguous, whatever the order in which the queue hands the chunks
    out and the kernel completes the writes. *)
Theorem pmr_log_complete db r ls y :
  start_ok db r -> steps psend (sys_start (db : DB) r) ls y ->
  global_queue (srv y) = [] -> ring_ (l_ring (y_log y)) = [] ->
  exists σ chunks, kv_runs (kv_start (contents db)) ls σ /\ chunks ≡ₚ logged σ /\
    file_ (l_ring (y_log y)) = store ∅ 0 (concat (map (fun es => concat (map entry_bytes es)) chunks)).
Proof.
  intros Hok Hs Hq Hr. destruct (reachable_inv db r ls y Hok Hs) as (σ & slots & leaked & Hk & HI).
  destruct (si_log _ _ _ _ HI) as (ws & wq & Hf & Hw & E).
  rewrite Hq in Hw. inversion Hw; subst. rewrite app_nil_r in E.
  apply Permutation_map_inv in E as (chunks & E & Hp). exists σ, chunks. split; [done|].
  split; [by symmetry|]. change (fun es => concat (map entry_bytes es)) with chunk_bytes.
  rewrite <- E, concat_nonempty. by apply file_inv_empty.
Qed.

(** the connection has a chunk *)
Definition has_chunk (ph : phase) (k : PMRClerk) : Prop :=
  match ph with
  | Ready | Answered _ => True
  | Posted _ => k_chunk_offset_ k <> UINT32_MAX
  | Flushed | Gone => False
  end.

Lemma has_chunk_slot y σ slots leaked i c k ph :
  sys_inv y σ slots leaked -> conns y !! i = Some (Conn c k ph) -> has_chunk ph k ->
  exists slot, slots !! i = Some slot /\ k_chunk_offset_ k = MAX_ASYNC_SIZE * slot.
Proof.
  intros HI Hi Hc. pose proof (si_conns _ _ _ _ HI i _ Hi) as HC.
  destruct (slots !! i) as [slot|].
  - exists slot. split; [done|]. apply conn_inv_chunk in HC. by destruct HC.
  - destruct HC as [_ Hp]. destruct ph; simpl in *; try done.
    + by destruct Hp as (_ & _ & ? & ? & _).
    + by destruct Hp as (_ & _ & _ & (? & _) & _).
    + by destruct Hp as (? & ? & _).
Qed.

(** C16: a chunk of the messaging buffer has one owner: two connections never
    write to the same chunk, a chunk in use is marked in the bitmap, and it is
    neither queued for the log nor in flight, so the log thread cannot free it
    under its writer. *)
Theorem pmr_chunks_exclusive db r ls y i c k ph :
  start_ok db r -> steps psend (sys_start (db : DB) r) ls y ->
  conns y !! i = Some (Conn c k ph) -> has_chunk ph k ->
  exists slot, k_chunk_offset_ k = MAX_ASYNC_SIZE * slot /\
    0 <= slot < MAX_DMABUF_SIZE / MAX_ASYNC_SIZE /\ get (bitmap_ (srv y)) slot = Done true /\
    (forall j c' k' ph', j <> i -> conns y !! j = Some (Conn c' k' ph') -> has_chunk ph' k' ->
       k_chunk_offset_ k' <> k_chunk_offset_ k) /\
    slot ∉ map q_chunk (global_queue (srv y)) ++ map sq_data (ring_ (l_ring (y_log y))).
Proof.
  intros Hok Hs Hi Hc. destruct (reachable_inv db r ls y Hok Hs) as (σ & slots & leaked & _ & HI).
  destruct (has_chunk_slot _ _ _ _ _ _ _ _ HI Hi Hc) as (slot & Hsl & Ho). exists slot.
  pose proof (si_pool _ _ _ _ HI) as Hp. pose proof Hp as Hp'.
  rewrite (owners_delete _ _ _ _ _ _ Hsl) in Hp'.
  destruct (pool_free _ _ _ Hp') as (Hr & Hb & _). destruct Hp' as (Hwf & Hsz & Hn & _).
  split; [done|]. split; [done|]. split; [by rewrite get_spec, Hb by (done || lia)|]. split.
  - intros j c' k' ph' Hne Hj Hcj E.
    destruct (has_chunk_slot _ _ _ _ _ _ _ _ HI Hj Hcj) as (slot' & Hsl' & Ho').
    assert (slot' = slot) as -> by (unfold MAX_ASYNC_SIZE in *; lia).
    apply Hne. by eapply pool_distinct.
  - apply list.NoDup_cons in Hn as [Hn _]. intros Hin. apply Hn. unfold owners. set_solver.
Qed.

(** *** What a [SendGet] reads *)

(** the value of the last write of [key], [m] without one *)
Fixpoint latest (key : bytes) (m : option bytes) (ls : list label) : option bytes :=
  match ls with
  | [] => m
  | Serve _ (CallWrite e) :: ls' => latest key (if decide (e_key e = key) then Some (e_val e) else m) ls'
  | _ :: ls' => latest key m ls'
  end.

(** [key] is written by connection [i] only, and never deleted *)
Definition written_by (i : nat) (key : bytes) (l : label) : Prop :=
  match l with
  | Serve j (CallWrite e) => e_key e = key -> j = i
  | Serve _ (CallDelete key') => key' <> key
  | _ => True
  end.

Lemma latest_app key m ls ls' : latest key m (ls ++ ls') = latest key (latest key m ls) ls'.
Proof.
  revert m; induction ls as [|l ls IH]; intros m; [done|].
  destruct l as [|j [e|?|?| |]|?|? ? ?]; simpl; apply IH.
Qed.

(** the last value of [key] in a list of records *)
Definition last_val (key : bytes) (es : list entry) : option bytes :=
  foldl (fun o e => if decide (e_key e = key) then Some (e_val e) else o) None es.

Lemma last_val_snoc key es e :
  last_val key (es ++ [e]) = if decide (e_key e = key) then Some (e_val e) else last_val key es.
Proof. unfold last_val. by rewrite foldl_app. Qed.

Lemma insert_all_last key es m :
  insert_all (map kv es) m !! key = match last_val key es with Some v => Some v | None => m !! key end.
Proof.
  induction es as [|e es IH] using rev_ind; [done|].
  rewrite map_app, insert_all_app, last_val_snoc. simpl. case_decide as Hk.
  - subst. by rewrite lookup_insert_eq.
  - by rewrite lookup_insert_ne.
Qed.

Lemma last_val_none key es : ~ key ∈ map e_key es -> last_val key es = None.
Proof.
  induction es as [|e es IH] using rev_ind; intros Hn; [done|].
  rewrite map_app, elem_of_app in Hn. rewrite last_val_snoc, decide_False; [apply IH; tauto|].
  intros <-. apply Hn. right. simpl. apply elem_of_cons. by left.
Qed.

Lemma last_val_some key es v : last_val key es = Some v -> key ∈ map e_key es.
Proof.
  intros E. destruct (decide (key ∈ map e_key es)) as [|Hn]; [done|]. by rewrite (last_val_none _ _ Hn) in E.
Qed.

(** while a key has one writer, the unflushed layer holds the last record of
    the writer's chunk *)
Definition owned_view (i : nat) (key : bytes) (σ : kv_state) (v : option bytes) : Prop :=
  (forall j, j <> i -> ~ key ∈ map e_key (pending σ j)) /\
  fresh σ !! key = last_val key (pending σ i) /\ view σ key = v.

Lemma owned_flush i key σ v j : owned_view i key σ v -> owned_view i key (kv_flush j σ) v.
Proof.
  intros (Hn & Hf & Hv). unfold owned_view, view in *. unfold kv_flush. simpl. split; [|split].
  - intros j' Hj'. destruct (decide (j' = j)) as [->|Hne].
    + rewrite fn_lookup_insert. apply not_elem_of_nil.
    + rewrite fn_lookup_insert_ne by done. by apply Hn.
  - rewrite erase_all_lookup. destruct (decide (j = i)) as [->|Hne].
    + rewrite fn_lookup_insert. unfold last_val at 1. simpl. case_decide as Hk; [done|].
      rewrite Hf. by apply last_val_none.
    + rewrite fn_lookup_insert_ne by done. by rewrite decide_False by (by apply Hn).
  - rewrite erase_all_lookup, insert_all_last. rewrite <- Hv. destruct (decide (j = i)) as [->|Hne].
    + rewrite Hf. case_decide as Hk.
      * by destruct (last_val key (pending σ i)).
      * by rewrite (last_val_none _ _ Hk).
    + pose proof (Hn j Hne) as Hk. by rewrite decide_False, (last_val_none _ _ Hk).
Qed.

Lemma owned_apply i key σ v l :
  owned_view i key σ v -> written_by i key l -> owned_view i key (kv_apply l σ) (latest key v [l]).
Proof.
  intros Ho Hw. destruct l as [|j [e|key'|key'| |]|j|j r w]; simpl; try done; try by apply owned_flush.
  - simpl in Hw. destruct Ho as (Hn & Hf & Hv). unfold owned_view, view in *. simpl. case_decide as Hk.
    + specialize (Hw Hk) as ->. subst key. split; [|split].
      * intros j' Hj'. rewrite fn_lookup_insert_ne by done. by apply Hn.
      * rewrite lookup_insert_eq, fn_lookup_insert, last_val_snoc. by rewrite decide_True.
      * by rewrite lookup_insert_eq.
    + rewrite lookup_insert_ne by done. split; [|split]; [| |done].
      * intros j' Hj'. destruct (decide (j' = j)) as [->|Hne].
        -- rewrite fn_lookup_insert, map_app, elem_of_app. intros [Hin|Hin]; [by eapply Hn|].
           simpl in Hin. apply elem_of_cons in Hin as [->|Hin]; [done|]. by apply not_elem_of_nil in Hin.
        -- rewrite fn_lookup_insert_ne by done. by apply Hn.
      * destruct (decide (j = i)) as [->|Hne].
        -- rewrite fn_lookup_insert, last_val_snoc. by rewrite decide_False.
        -- rewrite fn_lookup_insert_ne by done. done.
  - destruct Ho as (Hn & Hf & Hv). unfold owned_view, view in *. simpl in *.
    rewrite lookup_delete_ne by done. done.
Qed.

Lemma owned_runs i key σ v ls σ' :
  kv_runs σ ls σ' -> owned_view i key σ v -> Forall (written_by i key) ls ->
  owned_view i key σ' (latest key v ls).
Proof.
  induction 1 as [σ|σ ls σ' l Hr IH Ha]; intros Ho Hw; [done|].
  apply Forall_app in Hw as [Hw1 Hw2]. apply list.Forall_cons in Hw2 as [Hw2 _].
  rewrite latest_app. apply owned_apply; auto.
Qed.

(** the executions of the specification, split *)
Lemma kv_runs_snoc_inv σ ls l σ' :
  kv_runs σ (ls ++ [l]) σ' -> exists σ1, kv_runs σ ls σ1 /\ kv_accepts l σ1 /\ σ' = kv_apply l σ1.
Proof.
  intros Hr. remember (ls ++ [l]) as ls' eqn:E. destruct Hr as [σ|σ ls0 σ1 l0 Hr Ha].
  - by destruct ls.
  - apply app_inj_tail in E as [-> ->]. eauto.
Qed.

Lemma kv_runs_nil_inv σ σ' : kv_runs σ [] σ' -> σ' = σ.
Proof.
  intros Hr. remember [] as ls eqn:E. destruct Hr as [σ|σ ls0 σ1 l0 Hr Ha]; [done|].
  by destruct ls0.
Qed.

Lemma kv_runs_app σ ls ls' σ' :
  kv_runs σ (ls ++ ls') σ' -> exists σ1, kv_runs σ ls σ1 /\ kv_runs σ1 ls' σ'.
Proof.
  revert σ'. induction ls' as [|l ls' IH] using rev_ind; intros σ' Hr.
  - rewrite app_nil_r in Hr. exists σ'. split; [done|constructor].
  - rewrite app_assoc in Hr. apply kv_runs_snoc_inv in Hr as (σ1 & Hr & Ha & ->).
    destruct (IH _ Hr) as (σ2 & H6 & H7). exists σ2. split; [done|]. by constructor.
Qed.

Lemma kv_runs_one σ l σ' : kv_runs σ [l] σ' -> kv_accepts l σ /\ σ' = kv_apply l σ.
Proof.
  intros Hr. apply (kv_runs_snoc_inv σ [] l) in Hr as (σ1 & Hr & Ha & ->).
  by apply kv_runs_nil_inv in Hr as ->.
Qed.

Lemma kv_reply_kept i ls σ σ' :
  kv_runs σ ls σ' -> Forall (fun l => forall r, l <> Serve i r) ls -> reply σ' i = reply σ i.
Proof.
  induction 1 as [σ|σ ls σ' l Hr IH Ha]; intros Hl; [done|].
  apply Forall_app in Hl as [Hl1 Hl2]. apply list.Forall_cons in Hl2 as [Hl2 _]. rewrite <- IH by done.
  destruct l as [|j [e|key|key| |]|j|j r w]; simpl; try done.
  rewrite fn_lookup_insert_ne; [done|]. intros ->. by eapply Hl2.
Qed.

End execution.

(** ** The theorems at work: two clients, the second reads what the first wrote *)

Definition example_write : call := CallWrite (Entry PUT (text "k") (text "v1")).
Definition example_rewrite : call := CallWrite (Entry UPDATE (text "k") (text "v2")).

Definition example_allocs : list action :=
  [DoClerk 0%nat; DoClerk 1%nat; DoClerk 0%nat; DoClerk 1%nat; DoReturn 0%nat; DoReturn 1%nat].
(** client 0 writes twice, flushes and gets a new chunk, the log thread runs,
    client 1 reads *)
Definition example_actions : list action :=
  example_allocs ++
  [DoPost 0%nat example_write; DoClerk 0%nat; DoReturn 0%nat;
   DoPost 0%nat example_rewrite; DoClerk 0%nat; DoReturn 0%nat;
   DoPost 0%nat CallAlloc; DoClerk 0%nat; DoFill; DoReap 0; DoClerk 0%nat; DoReturn 0%nat;
   DoPost 1%nat (CallGet (text "k")); DoClerk 1%nat; DoReturn 1%nat].

(** what the system shows before the [SendGet] *)
Definition example_before : list label :=
  [Internal; Internal; Flush 0; Flush 1; Internal; Internal; Return 0 CallAlloc None; Return 1 CallAlloc None;
   Internal; Serve 0 example_write; Return 0 example_write None;
   Internal; Serve 0 example_rewrite; Return 0 example_rewrite None;
   Internal; Flush 0; Internal; Internal; Internal; Return 0 CallAlloc None; Internal].
Definition example_labels : list label :=
  example_before ++ [Serve 1 (CallGet (text "k"))] ++ [] ++ [Return 1 (CallGet (text "k")) (Some (text "v2"))].

Lemma example_run : steps psend0 example_start example_labels (example_after example_actions).
Proof.
  apply (example_steps example_actions (drop 2 example_labels)). vm_compute. reflexivity.
Qed.

Lemma example_start_ok : start_ok (∅ : gmap bytes bytes) ring0.
Proof. split; [by exists 0|]. intros key v. simpl. by rewrite lookup_empty. Qed.


(** client 1 is between calls *)
Lemma example_ready :
  exists c k, conns (example_after example_actions) !! 1%nat = Some (Conn c k Ready).
Proof.
  assert (cn_phase <$> conns (example_after example_actions) !! 1%nat = Some Ready) as E
    by (vm_compute; reflexivity).
  destruct (conns (example_after example_actions) !! 1%nat) as [[c k ph]|]; [|done].
  injection E as ->. by exists c, k.
Qed.

Lemma pmr_no_failure_witness :
  exists c k st, conns (example_after example_actions) !! 1%nat = Some (Conn c k Ready) /\
    post psend0 (CallDelete (text "k")) c k (srv (example_after example_actions)) = Done st.
Proof.
  destruct example_ready as (c & k & Hc).
  destruct (proj1 (pmr_no_failure psend0 ∅ ring0 example_labels _ example_start_ok example_run) 1%nat c k Ready Hc
    (CallDelete (text "k"))) as [st E]; [by apply (bool_decide_unpack (call_ok (CallDelete (text "k"))))|done|].
  exists c, k, st. split; [exact Hc|exact E].
Defined.

Lemma pmr_log_complete_witness :
  exists σ chunks, kv_runs (kv_start ∅) example_labels σ /\ chunks ≡ₚ logged σ /\
    file_ (l_ring (y_log (example_after example_actions)))
    = store ∅ 0 (concat (map (fun es => concat (map entry_bytes es)) chunks)).
Proof.
  refine (pmr_log_complete psend0 ∅ ring0 example_labels _ example_start_ok example_run _ _);
    vm_compute; reflexivity.
Defined.

Lemma pmr_chunks_exclusive_witness :
  exists c k slot, conns (example_after example_actions) !! 1%nat = Some (Conn c k Ready) /\
    k_chunk_offset_ k = MAX_ASYNC_SIZE * slot /\
    get (bitmap_ (srv (example_after example_actions))) slot = Done true.
Proof.
  destruct example_ready as (c & k & Hc).
  destruct (pmr_chunks_exclusive psend0 ∅ ring0 example_labels _ 1%nat c k Ready example_start_ok example_run Hc I)
    as (slot & Ho & _ & Hg & _).
  exists c, k, slot. split; [exact Hc|]. split; [exact Ho|exact Hg].
Defined.

