(* ===== verification/PmrCalls.v ===== *)
(** * PmrCalls: whole calls of the PMR client

    [SendGet], [SendDelete], [SendAlloc], [SendPut] and [SendUpdate] as a
    client makes them, with nothing else running during the call: they return,
    and they are the steps of [PmrSystem] in sequence, so the theorems about
    executions apply to them. *)

From Stdlib.Strings Require Import Byte.
From S2P Require Import Prelude Buf Bitset Request Rdma Message DBType Records Uring Example Pmr PmrOps PmrSystem PmrInv PmrSteps PmrExample PmrRefine.

Section calls.
Context {DB : Type} `{DBTypeOk DB} {M : Type} `{CuckooMapOk Meta M} `{Nic}.
Variable psend : send_wr -> Z.
Implicit Types (y : @sys DB M) (c : PMRClient) (k : PMRClerk).

Lemma moved_moved y i a s b s' : moved (moved y i a s) i b s' = moved y i b s'.
Proof. unfold moved. simpl. by rewrite insert_insert_eq. Qed.

Lemma moved_conn y i a s : conns (moved y i a s) !! i = Some a.
Proof. apply lookup_insert_eq. Qed.

(** the server of a moved system *)
Ltac srv_moved :=
  repeat match goal with
  | H : context [srv (moved ?y ?i ?cn ?s)] |- _ => change (srv (moved y i cn s)) with s in H
  end.

Lemma moved_id y i cn : conns y !! i = Some cn -> moved y i cn (srv y) = y.
Proof. intros Hi. unfold moved. rewrite insert_id by done. by destruct y as [[]]. Qed.

(** *** The steps of one connection, one after the other *)

Lemma then_post y i c k s r c' k' s' :
  call_ok r -> may_post r c = true -> post psend r c k s = Done (c', k', s') ->
  step psend (moved y i (Conn c k Ready) s) Internal (moved y i (Conn c' k' (Posted r)) s').
Proof.
  intros Hr Hm E. rewrite <- (moved_moved y i (Conn c k Ready) s (Conn c' k' (Posted r)) s').
  eapply step_post; [apply moved_conn|done..].
Qed.

Lemma then_serve y i c k s r k' s' h :
  r <> CallAlloc -> Run_once psend k s (client_side c) = Done (k', s', h, Continue) ->
  step psend (moved y i (Conn c k (Posted r)) s) (Serve i r)
    (moved y i (Conn (client_set_buf c (h_write h)) k' (Answered r)) s').
Proof.
  intros Hr E. rewrite <- (moved_moved y i (Conn c k (Posted r)) s (Conn (client_set_buf c (h_write h)) k' (Answered r)) s').
  eapply step_serve; [apply moved_conn|done..].
Qed.

Lemma then_return y i c k s r c' v :
  finish r c = Done (c', v) ->
  step psend (moved y i (Conn c k (Answered r)) s) (Return i r v) (moved y i (Conn c' k Ready) s).
Proof.
  intros E. rewrite <- (moved_moved y i (Conn c k (Answered r)) s (Conn c' k Ready) s).
  eapply (step_return psend (moved y i (Conn c k (Answered r)) s)); [apply moved_conn|done].
Qed.

Lemma then_flush y i c k s k1 q k' s' :
  receive k = Done (k1, q) -> alloc_flush k1 s = Done (k', s') ->
  step psend (moved y i (Conn c k (Posted CallAlloc)) s) (Flush i) (moved y i (Conn c k' Flushed) s').
Proof.
  intros E1 E2. rewrite <- (moved_moved y i (Conn c k (Posted CallAlloc)) s (Conn c k' Flushed) s').
  eapply step_flush; [apply moved_conn|done..].
Qed.

Lemma then_take y i c k s k' s' h :
  alloc_take k s = Done (k', s') -> send_reply psend k' s' (client_side c) = Done h ->
  step psend (moved y i (Conn c k Flushed) s) Internal
    (moved y i (Conn (client_set_buf c (h_write h)) k' (Answered CallAlloc)) s').
Proof.
  intros E1 E2. rewrite <- (moved_moved y i (Conn c k Flushed) s
    (Conn (client_set_buf c (h_write h)) k' (Answered CallAlloc)) s').
  eapply step_take; [apply moved_conn|done..].
Qed.

(** the clerk's iteration of any request but [ALLOC] and [CLOSE] *)
Lemma serve_any y σ slots leaked i c k r :
  sys_inv y σ slots leaked -> conns y !! i = Some (Conn c k (Posted r)) ->
  r <> CallAlloc -> r <> CallClose ->
  (exists key, r = CallGet key /\ view σ key = None /\ Run_once psend k (srv y) (client_side c) = Thrown) \/
  exists k' s' h, Run_once psend k (srv y) (client_side c) = Done (k', s', h, Continue) /\
    sys_inv (moved y i (Conn (client_set_buf c (h_write h)) k' (Answered r)) s') (kv_serve i r σ) slots leaked.
Proof.
  intros HI Hi Ha Hc. destruct r as [e|key|key| |]; try done.
  - right. by apply serve_write.
  - destruct (serve_get psend _ _ _ _ _ _ _ _ HI Hi) as [(? & _ & E)|(? & ? & E & HI')]; [left|right]; eauto 6.
  - right. by apply serve_delete.
Qed.

(** A request and its answer, from and to the state between calls. *)
Lemma round_trip y σ slots leaked i c k s r :
  sys_inv (moved y i (Conn c k Ready) s) σ slots leaked -> call_ok r -> may_post r c = true ->
  r <> CallAlloc -> r <> CallClose ->
  exists c1 k1 s1, post psend r c k s = Done (c1, k1, s1) /\
  ((exists key, r = CallGet key /\ view σ key = None /\ Run_once psend k1 s1 (client_side c1) = Thrown) \/
   exists k2 s2 h c3 v, Run_once psend k1 s1 (client_side c1) = Done (k2, s2, h, Continue) /\
     finish r (client_set_buf c1 (h_write h)) = Done (c3, v) /\
     (forall key, r = CallGet key -> v = view σ key) /\
     (forall key, r = CallDelete key ->
        SendDelete_done (client_set_buf c1 (h_write h)) = Done (c3, true)) /\
     steps psend (moved y i (Conn c k Ready) s) [Internal; Serve i r; Return i r v] (moved y i (Conn c3 k2 Ready) s2) /\
     sys_inv (moved y i (Conn c3 k2 Ready) s2) (kv_serve i r σ) slots leaked).
Proof.
  intros HI Hr Hm Ha Hc.
  destruct (serve_post psend _ _ _ _ i c k r HI (moved_conn _ _ _ _) Hr Hm) as (c1 & k1 & s1 & E1 & HI1).
  rewrite moved_moved in HI1. exists c1, k1, s1. split; [exact E1|].
  destruct (serve_any _ _ _ _ i c1 k1 r HI1 (moved_conn _ _ _ _) Ha Hc) as [Ht|(k2 & s2 & h & E2 & HI2)];
    [by left|right]. rewrite moved_moved in HI2.
  destruct (serve_return _ _ _ _ i _ _ _ HI2 (moved_conn _ _ _ _)) as (c3 & v & E3 & Hv & Hd & HI3).
  rewrite moved_moved in HI3. exists k2, s2, h, c3, v. split; [exact E2|]. split; [exact E3|]. split; [|split; [exact Hd|split; [|exact HI3]]].
  - intros key ->. rewrite (Hv key eq_refl). simpl. by rewrite fn_lookup_insert.
  - eapply steps_cons; [by eapply then_post|]. eapply steps_cons; [by eapply then_serve|].
    eapply steps_cons; [by eapply then_return|apply steps_nil].
Qed.

(** [SendAlloc]: it waits for ever when every chunk is in use and nothing else
    runs *)
Lemma alloc_trip y σ slots leaked i c k s :
  sys_inv (moved y i (Conn c k Ready) s) σ slots leaked ->
  SendAlloc psend (c, k, s) = Hangs \/
  exists c' k' s' slots', SendAlloc psend (c, k, s) = Done (c', k', s') /\ c_buf_head_ c' = 0 /\
    steps psend (moved y i (Conn c k Ready) s) [Internal; Flush i; Internal; Return i CallAlloc None]
      (moved y i (Conn c' k' Ready) s') /\
    sys_inv (moved y i (Conn c' k' Ready) s') (kv_flush i σ) slots' leaked.
Proof.
  intros HI.
  destruct (serve_post psend _ _ _ _ i c k CallAlloc HI (moved_conn _ _ _ _) I eq_refl) as (c1 & k1 & s1 & E1 & HI1).
  rewrite moved_moved in HI1. srv_moved. pose proof E1 as P1. simpl in P1.
  destruct (serve_flush _ _ _ _ i c1 k1 HI1 (moved_conn _ _ _ _)) as (k1' & k2 & s2 & Er & E2 & HI2).
  rewrite moved_moved in HI2. change (srv (moved y i _ s1)) with s1 in E2.
  assert (EA : SendAlloc psend (c, k, s) =
    '(c', k', s', _) ← ('(k', s') ← alloc_take k2 s2; h ← send_reply psend k' s' (client_side c1);
        Done (client_set_buf c1 (h_write h), k', s', Continue));
    c' ← SendAlloc_done c'; Done (c', k', s')).
  { unfold SendAlloc. rewrite P1. cbn [mbind outcome_bind]. unfold answer, Run_once. rewrite Er.
    cbn [mbind outcome_bind]. rewrite op_request_of, op_of_op_code. simpl.
    unfold handle_alloc. rewrite E2. cbn [mbind outcome_bind].
    destruct (alloc_take k2 s2) as [[k' s']| | | | |]; try done. simpl.
    by destruct (send_reply psend k' s' (client_side c1)). }
  destruct (serve_take psend _ _ _ _ i c1 k2 HI2 (moved_conn _ _ _ _)) as [[E3 _]|(k3 & s3 & h & sl & E3 & Es & HI3)];
    change (srv (moved y i _ s2)) with s2 in E3.
  - left. by rewrite EA, E3.
  - right. rewrite moved_moved in HI3.
    destruct (serve_return _ _ _ _ i _ _ _ HI3 (moved_conn _ _ _ _)) as (c4 & v & E4 & _ & _ & HI4).
    rewrite moved_moved in HI4. pose proof E4 as P4. simpl in P4.
    destruct (SendAlloc_done (client_set_buf c1 (h_write h))) as [c4'| | | | |] eqn:Ed; try done.
    simpl in P4. injection P4 as -> <-.
    exists c4, k3, s3, sl. rewrite EA, E3. cbn [mbind outcome_bind]. rewrite Es. cbn [mbind outcome_bind].
    rewrite Ed. split; [done|]. split; [|split; [|exact HI4]].
    + destruct (si_conns _ _ _ _ HI4 i _ (moved_conn _ _ _ _)) as [_ (_ & _ & slot & _ & _ & _ & Hh)].
      simpl in Hh. rewrite Hh. unfold kv_flush. simpl. by rewrite fn_lookup_insert.
    + eapply steps_cons; [by eapply (then_post y i c k s CallAlloc)|]. eapply steps_cons; [by eapply then_flush|].
      eapply steps_cons; [by eapply then_take|]. eapply steps_cons; [by eapply then_return|apply steps_nil].
Qed.

(** *** The properties *)

(** C20: [SendGet] called between calls of a connection, in any state the front
    end can reach, returns the value of its key in the two-layer map of that
    state (or throws, when the key is in neither layer and the database
    throws); the call is the three steps of the system in a row. *)
Theorem SendGet_correct db r ls y i c k key :
  start_ok db r -> steps psend (sys_start (db : DB) r) ls y ->
  conns y !! i = Some (Conn c k Ready) -> key_ok key ->
  exists σ, kv_runs (kv_start (contents db)) ls σ /\
  ((view σ key = None /\ SendGet psend key (c, k, srv y) = Thrown) \/
   exists c' k' s', SendGet psend key (c, k, srv y) = Done ((c', k', s'), view σ key) /\
     steps psend y [Internal; Serve i (CallGet key); Return i (CallGet key) (view σ key)]
       (moved y i (Conn c' k' Ready) s')).
Proof.
  intros Hok Hs Hi Hk. destruct (reachable_inv psend db r ls y Hok Hs) as (σ & slots & leaked & Hr & HI).
  exists σ. split; [done|]. rewrite <- (moved_id y i _ Hi) in HI.
  destruct (round_trip y σ slots leaked i c k (srv y) (CallGet key) HI Hk eq_refl ltac:(done) ltac:(done))
    as (c1 & k1 & s1 & E1 & [(key' & [= <-] & Hn & E2)|(k2 & s2 & h & c3 & v & E2 & E3 & Hv & _ & Hst & _)]);
    simpl in E1; unfold SendGet; rewrite E1; cbn [mbind outcome_bind]; unfold answer; rewrite E2.
  - by left.
  - right. rewrite (Hv key eq_refl) in *. rewrite (moved_id y i _ Hi) in Hst. cbn [mbind outcome_bind].
    simpl in E3. rewrite E3. by exists c3, k2, s2.
Qed.

(** C19: [SendPut] and [SendUpdate] of a supported record, called in any
    reachable state, return with the record stored in the two-layer map: when
    the record does not fit the chunk the client first exchanges the chunk,
    which flushes it; only then can the call wait, for a chunk. *)
Theorem SendWrite_correct db r ls y i c k e :
  start_ok db r -> steps psend (sys_start (db : DB) r) ls y ->
  conns y !! i = Some (Conn c k Ready) -> entry_ok e ->
  let full := SendWrite_full c (e_key e) (e_val e) in
  let pre := if full then [Internal; Flush i; Internal; Return i CallAlloc None] else [] in
  (full = true /\ SendWrite psend (e_key e) (e_val e) (e_op e) (c, k, srv y) = Hangs) \/
  exists c' k' s' σ, SendWrite psend (e_key e) (e_val e) (e_op e) (c, k, srv y) = Done (c', k', s') /\
    steps psend y (pre ++ [Internal; Serve i (CallWrite e); Return i (CallWrite e) None])
      (moved y i (Conn c' k' Ready) s') /\
    kv_runs (kv_start (contents db))
      (ls ++ pre ++ [Internal; Serve i (CallWrite e); Return i (CallWrite e) None]) σ /\
    view σ (e_key e) = Some (e_val e).
Proof.
  intros Hok Hs Hi He full pre.
  destruct (reachable_inv psend db r ls y Hok Hs) as (σ & slots & leaked & Hr & HI).
  rewrite <- (moved_id y i _ Hi) in HI.
  assert ((full = true /\ SendAlloc psend (c, k, srv y) = Hangs) \/
    exists c0 k0 s0 slots0, (if full then SendAlloc psend (c, k, srv y) else Done (c, k, srv y)) = Done (c0, k0, s0) /\
      may_post (CallWrite e) c0 = true /\ steps psend y pre (moved y i (Conn c0 k0 Ready) s0) /\
      exists σ0, sys_inv (moved y i (Conn c0 k0 Ready) s0) σ0 slots0 leaked) as [[Hf Hh]|Hpre].
  { subst pre. destruct full eqn:Hf.
    - destruct (alloc_trip y σ slots leaked i c k (srv y) HI) as [Hh|(c0 & k0 & s0 & sl & E & Hh & Hst & HI0)];
        [by left|right]. exists c0, k0, s0, sl. rewrite (moved_id y i _ Hi) in Hst. split; [done|].
      split; [|eauto]. simpl. unfold SendWrite_full. rewrite Hh, SendWrite_total_spec by done.
      destruct He as (_ & _ & _ & Hsz & _). pose proof (entry_size_pos e). apply negb_true_iff, Z.leb_gt.
      rewrite u32_small by pblia. pblia.
    - right. exists c, k, (srv y), slots. split; [done|]. split; [simpl; by fold full; rewrite Hf|].
      rewrite (moved_id y i _ Hi) in *. split; [constructor|eauto]. }
  - left. split; [done|]. unfold SendWrite. simpl fst. fold full. rewrite Hf. by rewrite Hh.
  - right. destruct Hpre as (c0 & k0 & s0 & sl & E0 & Hm & Hst0 & σ0 & HI0).
    destruct (round_trip y σ0 sl leaked i c0 k0 s0 (CallWrite e) HI0 He Hm ltac:(done) ltac:(done))
      as (c1 & k1 & s1 & E1 & [(key' & ? & _)|(k2 & s2 & h & c3 & v & E2 & E3 & Hv & _ & Hst & HI3)]); [done|].
    pose proof E3 as P3. simpl in P3.
    destruct (wait_clerk (client_set_buf c1 (h_write h))) as [c3'| | | | |] eqn:Ew; try done.
    simpl in P3. injection P3 as -> <-.
    assert (Hall : steps psend y (pre ++ [Internal; Serve i (CallWrite e); Return i (CallWrite e) None])
      (moved y i (Conn c3 k2 Ready) s2)) by (eapply steps_app; [exact Hst0|exact Hst]).
    destruct (reachable_inv psend db r (ls ++ pre ++ [Internal; Serve i (CallWrite e); Return i (CallWrite e) None])
      (moved y i (Conn c3 k2 Ready) s2) Hok) as (σ3 & _ & _ & Hr3 & _); [by eapply steps_app|].
    exists c3, k2, s2, σ3. split; [|split; [exact Hall|split; [exact Hr3|]]].
    + unfold SendWrite. unfold full in E0. cbn [fst]. setoid_rewrite E0. cbn [mbind outcome_bind].
      simpl in E1. rewrite E1. cbn [mbind outcome_bind]. unfold answer. rewrite E2.
      cbn [mbind outcome_bind]. by rewrite Ew.
    + rewrite app_assoc in Hr3. apply kv_runs_app in Hr3 as (σ4 & _ & Hr4).
      change [Internal; Serve i (CallWrite e); Return i (CallWrite e) None]
        with (([Internal] ++ [Serve i (CallWrite e)]) ++ [Return i (CallWrite e) None]) in Hr4.
      apply kv_runs_snoc_inv in Hr4 as (σ5 & Hr4 & _ & ->).
      apply kv_runs_snoc_inv in Hr4 as (σ6 & _ & _ & ->). unfold view. simpl. by rewrite lookup_insert_eq.
Qed.

(** C35: [SendDelete] reports success and removes the key from the database, but
    not from the unflushed layer: the next [SendGet] still finds a key whose
    last record is not flushed, and misses any other key. *)
Theorem SendDelete_unflushed db r ls y i c k key v :
  start_ok db r -> steps psend (sys_start (db : DB) r) ls y ->
  conns y !! i = Some (Conn c k Ready) -> key_ok key ->
  exists σ, kv_runs (kv_start (contents db)) ls σ /\
  exists c' k' s', SendDelete psend key (c, k, srv y) = Done ((c', k', s'), true) /\
    contents (db_ s') = delete key (contents (db_ (srv y))) /\
    (fresh σ !! key = Some v ->
     exists c2 k2 s2, SendGet psend key (c', k', s') = Done ((c2, k2, s2), Some v)) /\
    (fresh σ !! key = None ->
     (exists c2 k2 s2, SendGet psend key (c', k', s') = Done ((c2, k2, s2), None)) \/
     SendGet psend key (c', k', s') = Thrown).
Proof.
  intros Hok Hs Hi Hk. destruct (reachable_inv psend db r ls y Hok Hs) as (σ & slots & leaked & Hr & HI).
  exists σ. split; [done|]. pose proof (si_stored _ _ _ _ HI) as Hst. rewrite <- (moved_id y i _ Hi) in HI.
  destruct (round_trip y σ slots leaked i c k (srv y) (CallDelete key) HI Hk eq_refl ltac:(done) ltac:(done))
    as (c1 & k1 & s1 & E1 & [(key' & ? & _)|(k2 & s2 & h & c3 & v' & E2 & E3 & _ & Hd & _ & HI2)]); [done|].
  pose proof (Hd key eq_refl) as Ed.
  exists c3, k2, s2. split; [|split].
  - unfold SendDelete. simpl in E1. rewrite E1. cbn [mbind outcome_bind]. unfold answer. rewrite E2.
    cbn [mbind outcome_bind]. by rewrite Ed.
  - transitivity (stored (kv_serve i (CallDelete key) σ)); [apply HI2|simpl; by rewrite Hst].
  - destruct (round_trip y _ _ leaked i c3 k2 s2 (CallGet key) HI2 Hk eq_refl ltac:(done) ltac:(done))
      as (c4 & k4 & s4 & E4 & [(key' & [= <-] & Hn & E5)|(k5 & s5 & h5 & c6 & v6 & E5 & E6 & Hv & _)]);
      simpl in E4; unfold SendGet; rewrite E4; cbn [mbind outcome_bind]; unfold answer; rewrite E5;
      cbn [mbind outcome_bind].
    + unfold view in Hn. simpl in Hn. split; [intros Hf; by rewrite Hf in Hn|by right].
    + simpl in E6. rewrite E6, (Hv key eq_refl). unfold view. simpl. split; intros Hf; rewrite Hf; [eauto|].
      left. rewrite lookup_delete_eq. eauto.
Qed.
End calls.

(** ** The calls of client 1 of the example *)

Lemma SendGet_correct_witness :
  exists c k σ, conns (example_after example_actions) !! 1%nat = Some (Conn c k Ready) /\
    kv_runs (kv_start ∅) example_labels σ /\
    (SendGet psend0 (text "k") (c, k, srv (example_after example_actions)) = Thrown \/
     exists st, SendGet psend0 (text "k") (c, k, srv (example_after example_actions)) = Done (st, view σ (text "k"))).
Proof.
  destruct example_ready as (c & k & Hc). exists c, k.
  destruct (SendGet_correct psend0 ∅ ring0 example_labels _ 1%nat c k (text "k") example_start_ok example_run Hc)
    as (σ & Hr & Hg); [by apply (bool_decide_unpack (key_ok (text "k")))|].
  exists σ. split; [exact Hc|]. split; [exact Hr|]. destruct Hg as [[_ E]|(? & ? & ? & E & _)]; [by left|right].
  eexists. exact E.
Defined.

Definition example_entry : entry := Entry PUT (text "key") (text "value").

Lemma SendWrite_correct_witness :
  exists c k, conns (example_after example_actions) !! 1%nat = Some (Conn c k Ready) /\
    (SendPut psend0 (text "key") (text "value") (c, k, srv (example_after example_actions)) = Hangs \/
     exists st, SendPut psend0 (text "key") (text "value") (c, k, srv (example_after example_actions)) = Done st).
Proof.
  destruct example_ready as (c & k & Hc). exists c, k. split; [exact Hc|].
  destruct (SendWrite_correct psend0 ∅ ring0 example_labels _ 1%nat c k example_entry example_start_ok example_run Hc)
    as [[_ E]|(? & ? & ? & ? & E & _)]; [by apply (bool_decide_unpack (entry_ok example_entry))|by left|right].
  eexists. exact E.
Defined.

Lemma SendDelete_unflushed_witness :
  exists c k st, conns (example_after example_actions) !! 1%nat = Some (Conn c k Ready) /\
    SendDelete psend0 (text "k") (c, k, srv (example_after example_actions)) = Done (st, true).
Proof.
  destruct example_ready as (c & k & Hc).
  destruct (SendDelete_unflushed psend0 ∅ ring0 example_labels _ 1%nat c k (text "k") (text "v2")
    example_start_ok example_run Hc) as (σ & _ & c' & k' & s' & E & _);
    [by apply (bool_decide_unpack (key_ok (text "k")))|].
  exists c, k, (c', k', s'). split; [exact Hc|exact E].
Defined.
