(* ===== verification/PMem.v ===== *)
(** * PMem: frontend/pmem/pmem.cc, client.h and server.h

    The persistent memory front end.  A client writes the whole record into the
    clerk's message buffer and, with a second one-sided write, into its own
    16 MiB region of persistent memory, used as a ring; the clerk stores the
    record in the database before it replies. *)

From Stdlib.Strings Require Import Byte.
From S2P Require Import Prelude Buf Request Rdma Message DBType Example.

Definition PMEM_BUFSIZE : Z := 16 * 1024 * 1024.

Record PMemClient := { pc_ctx : RDMAContext; pc_send : buf; pc_local : buf; buf_head_ : Z }.
Record PMemClerk := { pk_ctx : RDMAContext; pk_local : buf; pk_pmem : buf }.

Definition client_with (c : PMemClient) (b : buf) (head : Z) : PMemClient :=
  {| pc_ctx := pc_ctx c; pc_send := pc_send c; pc_local := b; buf_head_ := head |}.
Definition clerk_with (k : PMemClerk) (b pm : buf) : PMemClerk :=
  {| pk_ctx := pk_ctx k; pk_local := b; pk_pmem := pm |}.
Definition chost (c : PMemClient) : host := Host (pc_send c) (pc_local c).
Definition khost (k : PMemClerk) : host := Host (pk_local k) (pk_pmem k).
Definition clerk_got (k : PMemClerk) (h : host) : PMemClerk := clerk_with k (h_send h) (h_write h).

(** the constructors; [send] is the region [open] registers *)
Definition make_client (ctx : RDMAContext) (send : buf) : PMemClient :=
  {| pc_ctx := ctx; pc_send := send; pc_local := new_buf (MAX_REQUEST + RING_HEADER); buf_head_ := 0 |}.
Definition make_clerk (ctx : RDMAContext) (send pmem : buf) : PMemClerk :=
  {| pk_ctx := ctx; pk_local := send; pk_pmem := pmem |}.

(** [Listen], before [register_write_buf]: the offset in the device of the
    region of the [n]-th clerk, as an [int] product *)
Definition pmem_offset (n : Z) : Z := i32 (n * PMEM_BUFSIZE).

Section pmem.
Context {DB : Type} `{DBType DB} `{Nic}.
Variable psend : send_wr -> Z.

Definition state : Type := PMemClient * PMemClerk * DB.

(** [Connect] once the queue pair is connected *)
Definition Connect (conn : Z) (c : PMemClient) : outcome PMemClient :=
  if conn =? -1 then Exited (-1) else
  b ← bwrite32 (pc_local c) 0 CLIENT_DONE;
  Done (client_with c b (buf_head_ c)).

(** the two posts of a message to the clerk's buffer *)
Definition post_message (c : PMemClient) (k : PMemClerk) (total_len : Z) : outcome PMemClerk :=
  h ← deliver (post_write0 psend (pc_ctx c) (chost c) None total_len RING_HEADER RING_HEADER false)
        (pc_ctx c) (pk_ctx k, khost k);
  h ← deliver (post_write0 psend (pc_ctx c) (chost c) None 4 0 0 true) (pc_ctx c) (pk_ctx k, h);
  Done (clerk_got k h).

(** where [SendWrite] puts a record: the ring starts again when it would not
    fit *)
Definition ring_position (head total_len : Z) : Z :=
  if PMEM_BUFSIZE <=? u64 (head + total_len) then 0 else head.

Definition SendWrite_post (key val : bytes) (o : Operation) (c : PMemClient) (k : PMemClerk)
    : outcome (PMemClient * PMemClerk) :=
  let total_len := record_len key val in
  let head := ring_position (buf_head_ c) total_len in
  b ← write_record (pc_local c) o key val;
  let c := client_with c b head in
  h ← deliver (post_write0 psend (pc_ctx c) (chost c) None total_len RING_HEADER RING_HEADER false)
        (pc_ctx c) (pk_ctx k, khost k);
  h ← deliver (post_write psend (pc_ctx c) (chost c) None total_len RING_HEADER head false)
        (pc_ctx c) (pk_ctx k, h);
  h ← deliver (post_write0 psend (pc_ctx c) (chost c) None 4 0 0 true) (pc_ctx c) (pk_ctx k, h);
  Done (client_with c b (u64 (head + total_len)), clerk_got k h).

Definition post_key_request (o : Operation) (key : bytes) (c : PMemClient) (k : PMemClerk)
    : outcome (PMemClient * PMemClerk) :=
  b ← write_key_request (pc_local c) o key;
  let c := client_with c b (buf_head_ c) in
  k ← post_message c k (key_request_len key);
  Done (c, k).
Definition SendGet_post := post_key_request GET.
Definition SendDelete_post := post_key_request DELETE.

(** [SendClose]; the message it finally sends lands in the receive buffer the
    clerk posts *)
Definition SendClose_post (c : PMemClient) (k : PMemClerk) : outcome (PMemClient * PMemClerk) :=
  b ← write_empty_request (pc_local c) CLOSE;
  let c := client_with c b (buf_head_ c) in
  k ← post_message c k (u16 sizeof_Request);
  _ ← post_send psend (pc_ctx c) (chost c) None MAX_REQUEST 0 true;
  Done (c, k).

Definition wait_clerk (c : PMemClient) : outcome PMemClient :=
  b ← wait_reply (pc_local c); Done (client_with c b (buf_head_ c)).

(** ** The clerk: one iteration of [Run] *)

Inductive verdict := Continue | Closed.

(** the [switch]: the buffer with the reply, the database *)
Definition serve (b : buf) (r : Request) (o : Operation) (db : DB) : outcome (buf * DB) :=
  match o with
  | UPDATE | PUT =>
      key ← key_at b (key_size r);
      val ← bread b (RING_HEADER + sizeof_Request + key_size r) (val_size r);
      let (db, ok) := db_Put db key val in
      b ← write_reply b (if ok : bool then OK else ERROR) 0;
      Done (b, db)
  | GET =>
      key ← key_at b (key_size r);
      found ← db_Get db key;
      match found with
      | Some value =>
          b ← write_reply b OK (blen value);
          b ← write_value b (take (Z.to_nat (u32 (blen value))) value);
          Done (b, db)
      | None => b ← write_reply b NOTFOUND 0; Done (b, db)
      end
  | DELETE =>
      key ← key_at b (key_size r);
      let (db, ok) := db_Delete db key in
      b ← write_reply b (if ok : bool then OK else NOTFOUND) 0;
      Done (b, db)
  | _ => Exited (-1)
  end.

(** the two writes of the reply *)
Definition send_reply (k : PMemClerk) (c : PMemClient) : outcome host :=
  n ← reply_val_size (pk_local k) RING_HEADER;
  h ← deliver (post_write1 psend (pk_ctx k) (khost k) None (sizeof_RequestReply + n) RING_HEADER RING_HEADER false)
        (pk_ctx k) (pc_ctx c, chost c);
  deliver (post_write1 psend (pk_ctx k) (khost k) None 4 0 0 true) (pk_ctx k) (pc_ctx c, h).

Definition Run_once (k : PMemClerk) (db : DB) (c : PMemClient)
    : outcome (PMemClerk * DB * PMemClient * verdict) :=
  '(b, r) ← take_message (pk_local k);
  match op_of_code (op r) with
  | Some CLOSE => Done (clerk_with k b (pk_pmem k), db, c, Closed)
  | Some o =>
      '(b, db) ← serve b r o db;
      let k := clerk_with k b (pk_pmem k) in
      h ← send_reply k c;
      Done (k, db, client_with c (h_write h) (buf_head_ c), Continue)
  | None => Exited (-1)
  end.

(** ** Whole calls *)

Definition SendWrite (key val : bytes) (o : Operation) (st : state) : outcome state :=
  let '(c, k, db) := st in
  '(c, k) ← SendWrite_post key val o c k;
  '(k, db, c, _) ← Run_once k db c;
  c ← wait_clerk c;
  Done (c, k, db).
Definition SendPut (key val : bytes) := SendWrite key val PUT.
Definition SendUpdate (key val : bytes) := SendWrite key val UPDATE.

Definition SendGet (key : bytes) (st : state) : outcome (state * option bytes) :=
  let '(c, k, db) := st in
  '(c, k) ← SendGet_post key c k;
  '(k, db, c, _) ← Run_once k db c;
  c ← wait_clerk c;
  v ← read_reply (pc_local c);
  Done ((c, k, db), v).

Definition SendDelete (key : bytes) (st : state) : outcome (state * bool) :=
  let '(c, k, db) := st in
  '(c, k) ← SendDelete_post key c k;
  '(k, db, c, _) ← Run_once k db c;
  c ← wait_clerk c;
  s ← reply_status (pc_local c) RING_HEADER;
  Done ((c, k, db), s =? status_code OK).

Definition SendClose (st : state) : outcome DB :=
  let '(c, k, db) := st in
  '(c, k) ← SendClose_post c k;
  '(_, db, _, _) ← Run_once k db c;
  Done db.
End pmem.

(** ** Connections *)

(** A connection between calls: linked, buffers of the program's sizes, the
    client's header word idle, and the ring of persistent memory holding the
    records [es] written since it last started again. *)
Record pmem_inv (c : PMemClient) (k : PMemClerk) (es : list entry) : Prop := {
  pi_link : link (pc_ctx c) (chost c) (pk_ctx k) (khost k);
  pi_local : buf_size (pc_local c) = MAX_REQUEST + RING_HEADER;
  pi_send : buf_size (pk_local k) = SEND_BUF_SIZE;
  pi_pmem : buf_size (pk_pmem k) = PMEM_BUFSIZE;
  pi_idle : holds (pc_local c) 0 (word CLIENT_DONE);
  pi_head : buf_head_ c = blen (concat (map entry_bytes es));
  pi_room : buf_head_ c < PMEM_BUFSIZE;
  pi_ring : holds (pk_pmem k) 0 (concat (map entry_bytes es)) }.

Lemma pmem_bufs c k es : pmem_inv c k es -> msg_buf (pc_local c) /\ msg_buf (pk_local k).
Proof.
  intros HI. unfold msg_buf. rewrite (pi_local _ _ _ HI), (pi_send _ _ _ HI).
  split; vm_compute; congruence.
Qed.

(** what the front end supports: [post_write1] replies are inline *)
Definition value_ok (v : bytes) : Prop := blen v <= MAX_VALUE.

Section specs.
Context {DB : Type} `{DBTypeOk DB} `{Nic}.
Variable psend : send_wr -> Z.
Implicit Types (c : PMemClient) (k : PMemClerk) (db : DB).

(** the state in the middle of a call: [b] the client's buffer, [sb] the clerk's *)
Lemma mid_link c k es b sb pm head :
  pmem_inv c k es -> buf_size b = MAX_REQUEST + RING_HEADER -> buf_size sb = SEND_BUF_SIZE ->
  buf_size pm = PMEM_BUFSIZE ->
  link (pc_ctx c) (chost (client_with c b head)) (pk_ctx k) (khost (clerk_with k sb pm)).
Proof.
  intros [L1 L2 L3 L4 _ _ _ _] E1 E2 E3. eapply link_sizes; [| |exact L1]; split; simpl; congruence.
Qed.

Lemma pmem_request_spec o key c k es :
  pmem_inv c k es -> key_ok key ->
  exists b sb, post_key_request psend o key c k
      = Done (client_with c b (buf_head_ c), clerk_with k sb (pk_pmem k)) /\
    buf_size b = MAX_REQUEST + RING_HEADER /\ buf_size sb = SEND_BUF_SIZE /\
    framed sb CLIENT_DONE (key_request o key).
Proof.
  intros HI Hk. destruct (pmem_bufs _ _ _ HI) as [B1 B2].
  destruct (write_key_request_spec _ o key _ B1 Hk (pi_idle _ _ _ HI)) as (b & E & Hs & Hw & Hm).
  rewrite (pi_local _ _ _ HI) in Hs.
  pose proof (mid_link c k es b (pk_local k) (pk_pmem k) (buf_head_ c) HI Hs (pi_send _ _ _ HI) (pi_pmem _ _ _ HI)) as HL.
  destruct (link_message psend _ _ _ _ _ (key_request_len key) HL Hw Hm)
    as (b1 & b2 & E1 & S1 & E2 & S2 & Hf);
    [rewrite key_request_len_spec by done; destruct Hk; blia..|unfold msg_buf; simpl; rewrite Hs; vm_compute; congruence|done|].
  exists b, b2. split; [|split; [done|split; [simpl in S2; by rewrite S2, (pi_send _ _ _ HI)|done]]].
  unfold post_key_request. step E. eapply bind_step; [|reflexivity].
  unfold post_message. step E1. step (E2 (pk_pmem k) eq_refl). done.
Qed.

(** the reply sent and received, the client idle again *)
Lemma answer_spec c k es b sb pm head st v :
  pmem_inv c k es -> buf_size b = MAX_REQUEST + RING_HEADER -> buf_size sb = SEND_BUF_SIZE ->
  buf_size pm = PMEM_BUFSIZE -> framed sb CLERK_DONE (reply_bytes st v) -> value_ok v ->
  exists h b', send_reply psend (clerk_with k sb pm) (client_with c b head) = Done h /\
    wait_clerk (client_with c (h_write h) head) = Done (client_with c b' head) /\
    buf_size b' = MAX_REQUEST + RING_HEADER /\ framed b' CLIENT_DONE (reply_bytes st v).
Proof.
  intros HI Hb Hs Hp Hf Hv. unfold value_ok in Hv.
  assert (msg_buf b) as Mb by (unfold msg_buf; rewrite Hb; vm_compute; congruence).
  assert (msg_buf sb) as Ms by (unfold msg_buf; rewrite Hs; vm_compute; congruence).
  pose proof (mid_link c k es b sb pm head HI Hb Hs Hp) as HL.
  destruct (link_reply psend _ _ _ _ _ (blen (reply_bytes st v)) (link_sym _ _ _ _ HL) Hf eq_refl)
    as (b1 & b2 & E1 & E2 & S2 & Hf2); [blia|done|done|]. simpl in S2.
  destruct (reply_words _ _ st (blen v) v Ms Hf) as [_ En]; [blia|].
  destruct (wait_reply_spec b2 (reply_bytes st v)) as (b3 & E3 & S3 & Hf3);
    [unfold msg_buf; rewrite S2; exact Mb|done|].
  exists (Host (pc_send c) b2), b3. split; [|split; [|split; [congruence|done]]].
  - unfold send_reply. step En.
    replace (sizeof_RequestReply + blen v) with (blen (reply_bytes st v)) by blia.
    step E1. exact E2.
  - unfold wait_clerk. by step E3.
Qed.

(** the connection after the call *)
Lemma idle_inv c k es b' sb head es' pm st v :
  pmem_inv c k es -> buf_size b' = MAX_REQUEST + RING_HEADER -> buf_size sb = SEND_BUF_SIZE ->
  buf_size pm = PMEM_BUFSIZE -> framed b' CLIENT_DONE (reply_bytes st v) ->
  head = blen (concat (map entry_bytes es')) -> head < PMEM_BUFSIZE ->
  holds pm 0 (concat (map entry_bytes es')) ->
  pmem_inv (client_with c b' head) (clerk_with k sb pm) es'.
Proof.
  intros HI Hb Hs Hp [Hw _] Hh Hr Hring. split; try done. by apply (mid_link c k es).
Qed.

(** *** The calls *)

Lemma SendGet_spec c k es db key v :
  pmem_inv c k es -> key_ok key -> db_Get db key = Done v -> value_ok (default [] v) ->
  exists c' k', SendGet psend key (c, k, db) = Done ((c', k', db), v) /\ pmem_inv c' k' es.
Proof.
  intros HI Hk Hg Hv. destruct (pmem_request_spec GET key c k es HI Hk) as (b & sb & E1 & Hb & Hs & Hf).
  assert (msg_buf sb) as Ms by (unfold msg_buf; rewrite Hs; vm_compute; congruence).
  destruct (take_key_request sb GET key Ms) as (sb1 & E2 & Hs1 & Hf1); [apply Hk|done|].
  rewrite Hs in Hs1. assert (msg_buf sb1) as Ms1 by (unfold msg_buf; rewrite Hs1; vm_compute; congruence).
  assert (Ek : key_at sb1 (blen key) = Done key) by (eapply key_of_request; [done|exact Hf1|apply Hk]).
  assert (exists sb2, serve sb1 (key_request_of GET key) GET db = Done (sb2, db) /\ buf_size sb2 = SEND_BUF_SIZE /\
    framed sb2 CLERK_DONE (reply_bytes (get_status v) (default [] v))) as (sb2 & E3 & Hs2 & Hf2).
  { simpl. rewrite Ek. cbn [mbind outcome_bind]. rewrite Hg. cbn [mbind outcome_bind].
    unfold value_ok in Hv. destruct v as [v|]; simpl in Hv.
    - destruct (write_reply_value sb1 OK v _ Ms1 Hf1) as (x1 & x2 & X1 & X2 & X3 & X4); [blia|].
      exists x2. rewrite X1. cbn [mbind outcome_bind].
      rewrite u32_small, blen_to_nat, take_ge by (blia || lia). rewrite X2.
      split; [done|]. split; [congruence|done].
    - destruct (write_reply_nil sb1 NOTFOUND _ Ms1 Hf1) as (x & X1 & X2 & X3).
      exists x. rewrite X1. split; [done|]. split; [congruence|done]. }
  destruct (answer_spec c k es b sb2 (pk_pmem k) (buf_head_ c) _ _ HI Hb Hs2 (pi_pmem _ _ _ HI) Hf2 Hv)
    as (h & b' & E4 & E5 & Hb' & Hf').
  exists (client_with c b' (buf_head_ c)), (clerk_with k sb2 (pk_pmem k)). split.
  - unfold SendGet. step E1. eapply bind_step; [unfold Run_once; step E2; step E3; step E4; reflexivity|].
    cbv beta iota. step E5.
    assert (Er : read_reply b' = Done v).
    { rewrite (read_reply_spec b' CLIENT_DONE (get_status v) (default [] v)); [by destruct v| |done|].
      - unfold msg_buf; rewrite Hb'; vm_compute; congruence.
      - unfold value_ok in Hv. blia. }
    step Er. done.
  - eapply idle_inv; try done; apply HI.
Qed.

Lemma SendDelete_spec c k es db key :
  pmem_inv c k es -> key_ok key ->
  exists c' k' db', SendDelete psend key (c, k, db) = Done ((c', k', db'), true) /\
    contents db' = delete key (contents db) /\ pmem_inv c' k' es.
Proof.
  intros HI Hk. destruct (pmem_request_spec DELETE key c k es HI Hk) as (b & sb & E1 & Hb & Hs & Hf).
  assert (msg_buf sb) as Ms by (unfold msg_buf; rewrite Hs; vm_compute; congruence).
  destruct (take_key_request sb DELETE key Ms) as (sb1 & E2 & Hs1 & Hf1); [apply Hk|done|].
  rewrite Hs in Hs1. assert (msg_buf sb1) as Ms1 by (unfold msg_buf; rewrite Hs1; vm_compute; congruence).
  assert (Ek : key_at sb1 (blen key) = Done key) by (eapply key_of_request; [done|exact Hf1|apply Hk]).
  destruct (delete_ok db key) as (db' & Ed & Ec).
  destruct (write_reply_nil sb1 OK _ Ms1 Hf1) as (sb2 & X1 & X2 & Hf2).
  assert (E3 : serve sb1 (key_request_of DELETE key) DELETE db = Done (sb2, db')).
  { simpl. step Ek. rewrite Ed. by step X1. }
  destruct (answer_spec c k es b sb2 (pk_pmem k) (buf_head_ c) _ _ HI Hb (eq_trans X2 Hs1) (pi_pmem _ _ _ HI) Hf2)
    as (h & b' & E4 & E5 & Hb' & Hf'); [vm_compute; congruence|].
  exists (client_with c b' (buf_head_ c)), (clerk_with k sb2 (pk_pmem k)), db'. split; [|split; [done|]].
  - unfold SendDelete. step E1. eapply bind_step; [unfold Run_once; step E2; step E3; step E4; reflexivity|].
    cbv beta iota. step E5.
    assert (Mb' : msg_buf b') by (unfold msg_buf; rewrite Hb'; vm_compute; congruence).
    destruct (reply_words b' _ OK 0 [] Mb' Hf') as [Er _]; [lia|]. by step Er.
  - eapply idle_inv; try done; [congruence|apply HI..].
Qed.

(** the records of the ring once [e] is written *)
Definition ring_next (es : list entry) (e : entry) : list entry :=
  if PMEM_BUFSIZE <=? blen (concat (map entry_bytes es)) + entry_size e then [e] else es ++ [e].

Lemma ring_next_spec c k es e :
  pmem_inv c k es -> record_ok e ->
  let head := ring_position (buf_head_ c) (entry_size e) in
  0 <= head /\ head + entry_size e < PMEM_BUFSIZE /\
  head + entry_size e = blen (concat (map entry_bytes (ring_next es e))) /\
  holds (poke (pk_pmem k) head (entry_bytes e)) 0 (concat (map entry_bytes (ring_next es e))).
Proof.
  intros HI (_ & _ & He). cbv zeta. unfold ring_position, ring_next. rewrite <- (pi_head _ _ _ HI).
  pose proof (pi_head _ _ _ HI) as Hh. pose proof (blen_nonneg (concat (map entry_bytes es))) as Hn.
  pose proof (pi_room _ _ _ HI) as Hr. pose proof (entry_size_pos e) as Hp.
  change PMEM_BUFSIZE with 16777216 in *. rewrite u64_small by blia.
  destruct (Z.leb_spec 16777216 (buf_head_ c + entry_size e)); cbn [map concat].
  - rewrite app_nil_r, blen_entry. split; [lia|]. split; [blia|]. split; [lia|]. apply holds_poke.
  - rewrite map_app, concat_app. cbn [map concat]. rewrite app_nil_r, blen_app, blen_entry.
    split; [lia|]. split; [lia|]. split; [lia|]. apply holds_app. rewrite <- Hh. split.
    + apply holds_poke_ne; [lia|]. apply HI.
    + apply holds_poke.
Qed.

Lemma SendWrite_spec c k es db e :
  pmem_inv c k es -> record_ok e -> e_op e = PUT \/ e_op e = UPDATE ->
  exists c' k' db', SendWrite psend (e_key e) (e_val e) (e_op e) (c, k, db) = Done (c', k', db') /\
    contents db' = <[e_key e := e_val e]> (contents db) /\ pmem_inv c' k' (ring_next es e).
Proof.
  intros HI He Ho. destruct (pmem_bufs _ _ _ HI) as [B1 B2].
  destruct (ring_next_spec c k es e HI He) as (R1 & R2 & R3 & R4).
  pose proof (entry_size_pos e) as Hp. pose proof He as (_ & _ & Hsz).
  pose proof (record_len_spec e He) as Hlen.
  destruct (write_record_spec _ e _ B1 He (pi_idle _ _ _ HI)) as (b & E & Hb & Hw & Hm).
  rewrite (pi_local _ _ _ HI) in Hb. remember (ring_position (buf_head_ c) (entry_size e)) as head eqn:Eh.
  assert (HL : forall hd, link (pc_ctx c) (chost (client_with c b hd)) (pk_ctx k) (khost k)).
  { intros hd. apply (mid_link c k es b (pk_local k) (pk_pmem k) hd HI Hb (pi_send _ _ _ HI) (pi_pmem _ _ _ HI)). }
  assert (Mb : msg_buf b) by (unfold msg_buf; rewrite Hb; vm_compute; congruence).
  destruct (link_message psend _ _ _ _ _ (entry_size e) (HL head) Hw Hm)
    as (b1 & b2 & E1 & S1 & E2 & S2 & Hf); [by rewrite blen_entry|blia|exact Mb|done|].
  set (pm := poke (pk_pmem k) head (entry_bytes e)).
  assert (E1' : deliver (post_write psend (pc_ctx c) (chost (client_with c b head)) None (entry_size e) RING_HEADER head false)
    (pc_ctx c) (pk_ctx k, Host b1 (pk_pmem k)) = Done (Host b1 pm)).
  { apply (link_to_write psend _ _ _ (Host b1 (pk_pmem k)) RING_HEADER head (entry_bytes e) (entry_size e)); simpl;
      rewrite ?blen_entry, ?(pi_pmem _ _ _ HI), ?Hb; try done; try blia.
    eapply link_sizes; [split; reflexivity| |apply (HL head)]. split; simpl; [exact S1|reflexivity]. }
  assert (Hs2 : buf_size b2 = SEND_BUF_SIZE) by (rewrite S2; apply HI).
  assert (Epost : SendWrite_post psend (e_key e) (e_val e) (e_op e) c k
    = Done (client_with c b (head + entry_size e), clerk_with k b2 pm)).
  { unfold SendWrite_post. rewrite Hlen, <- Eh. step E. step E1. step E1'. step (E2 pm eq_refl).
    rewrite u64_small; [done|]. change PMEM_BUFSIZE with 16777216 in *. lia. }
  assert (msg_buf b2) as M2 by (unfold msg_buf; rewrite Hs2; vm_compute; congruence).
  unfold entry_bytes, entry_head in Hf. rewrite <- app_assoc in Hf.
  destruct (take_record b2 e _ M2 Hsz Hf) as (sb1 & Et & Hs3 & Hf1).
  assert (M3 : msg_buf sb1) by (unfold msg_buf; rewrite Hs3; exact M2).
  assert (Ek : key_at sb1 (blen (e_key e)) = Done (e_key e)).
  { eapply key_at_spec; [done|exact Hf1|apply blen_request_header|done|blia]. }
  assert (Ev : bread sb1 (RING_HEADER + sizeof_Request + blen (e_key e)) (blen (e_val e)) = Done (e_val e)).
  { destruct Hf1 as [_ Hf1]. do 2 (apply holds_app in Hf1 as [_ Hf1]). rewrite blen_request_header in Hf1.
    unfold msg_buf in M3. apply holds_bread; [exact Hf1|blia|blia]. }
  destruct (put_ok db (e_key e) (e_val e)) as (db' & Ed & Ec).
  destruct (write_reply_nil sb1 OK _ M3 Hf1) as (sb2 & X1 & X2 & Hf2).
  assert (E3 : serve sb1 (put_request_of e) (e_op e) db = Done (sb2, db')).
  { destruct Ho as [-> | ->]; simpl; step Ek; step Ev; rewrite Ed; by step X1. }
  assert (Hpm : buf_size pm = PMEM_BUFSIZE) by apply HI.
  assert (Hs4 : buf_size sb2 = SEND_BUF_SIZE) by (rewrite X2, Hs3; exact Hs2).
  destruct (answer_spec c k es b sb2 pm (head + entry_size e) _ _ HI Hb Hs4 Hpm Hf2)
    as (h & b' & E4 & E5 & Hb' & Hf'); [vm_compute; congruence|].
  exists (client_with c b' (head + entry_size e)), (clerk_with k sb2 pm), db'. split; [|split; [done|]].
  - unfold SendWrite. step Epost. eapply bind_step.
    { unfold Run_once. step Et. destruct Ho as [Ho|Ho]; rewrite Ho in *; cbn [put_request_of op]; rewrite Ho;
        change (op_of_code (op_code PUT)) with (Some PUT); change (op_of_code (op_code UPDATE)) with (Some UPDATE);
        cbv beta iota; step E3; step E4; reflexivity. }
    cbv beta iota. step E5. done.
  - eapply idle_inv; try done; congruence.
Qed.
End specs.

(** ** Several clients, calls one after the other

    Each connection has its own clerk, buffers and ring; they share the
    database. *)

Inductive pmem_call := CallWrite (e : entry) | CallGet (key : bytes) | CallDelete (key : bytes).

Abbreviation conns := (list (PMemClient * PMemClerk)).

Section calls.
Context {DB : Type} `{DBType DB} `{Nic}.
Variable psend : send_wr -> Z.

(** one call of a client; the list is what a [SendGet] reports *)
Definition call (p : pmem_call) (st : @state DB) : outcome (@state DB * list (option bytes)) :=
  match p with
  | CallWrite e => st ← SendWrite psend (e_key e) (e_val e) (e_op e) st; Done (st, [])
  | CallGet key => '(st, v) ← SendGet psend key st; Done (st, [v])
  | CallDelete key => '(st, _) ← SendDelete psend key st; Done (st, [])
  end.

Fixpoint run (cs : list (nat * pmem_call)) (y : conns * DB) : outcome (conns * DB * list (option bytes)) :=
  match cs with
  | [] => Done (y, [])
  | (i, p) :: cs' =>
      match y.1 !! i with
      | None => Undefined
      | Some (c, k) =>
          '(st, r) ← call p (c, k, y.2);
          '(y, rs) ← run cs' (<[i := st.1]> y.1, st.2);
          Done (y, r ++ rs)
      end
  end.
End calls.

(** the same calls on a map and on the lists of records in each ring *)
Definition map_call (p : pmem_call) (m : gmap bytes bytes) : gmap bytes bytes * list (option bytes) :=
  match p with
  | CallWrite e => (<[e_key e := e_val e]> m, [])
  | CallGet key => (m, [m !! key])
  | CallDelete key => (delete key m, [])
  end.

Fixpoint map_calls (cs : list (nat * pmem_call)) (m : gmap bytes bytes) : gmap bytes bytes * list (option bytes) :=
  match cs with
  | [] => (m, [])
  | (_, p) :: cs' => let (m, r) := map_call p m in let (m, rs) := map_calls cs' m in (m, r ++ rs)
  end.

Definition ring_call (i : nat) (p : pmem_call) (rings : list (list entry)) : list (list entry) :=
  match p, rings !! i with CallWrite e, Some es => <[i := ring_next es e]> rings | _, _ => rings end.
Definition ring_calls (cs : list (nat * pmem_call)) (rings : list (list entry)) : list (list entry) :=
  foldl (fun rings '(i, p) => ring_call i p rings) rings cs.

(** a call the front end supports, of the [i]-th of [n] clients *)
Definition pmem_call_ok (n : nat) (ip : nat * pmem_call) : Prop :=
  (ip.1 < n)%nat /\
  match ip.2 with
  | CallWrite e => record_ok e /\ value_ok (e_val e) /\ (e_op e = PUT \/ e_op e = UPDATE)
  | CallGet key | CallDelete key => key_ok key
  end.
#[export] Instance pmem_call_ok_dec n ip : Decision (pmem_call_ok n ip).
Proof. unfold pmem_call_ok, value_ok. destruct (ip.2); apply _. Defined.

Definition conns_inv (cks : conns) (rings : list (list entry)) : Prop :=
  Forall2 (fun ck es => pmem_inv ck.1 ck.2 es) cks rings.

Section refine.
Context {DB : Type} `{DBTypeOk DB} `{Nic}.
Variable psend : send_wr -> Z.
Hypothesis get_missing_none : forall db key, contents db !! key = None -> db_Get db key = Done None.

Lemma db_Get_contents db key : db_Get db key = Done (contents db !! key).
Proof.
  destruct (contents db !! key) eqn:E; [by apply get_present|by apply get_missing_none].
Qed.

Definition values_ok (db : DB) : Prop := map_Forall (fun _ v => value_ok v) (contents db).

Lemma call_spec n i p c k es rings db :
  pmem_inv c k es -> rings !! i = Some es -> pmem_call_ok n (i, p) -> values_ok db ->
  exists c' k' db' es', call psend p (c, k, db) = Done ((c', k', db'), (map_call p (contents db)).2) /\
    contents db' = (map_call p (contents db)).1 /\ values_ok db' /\
    pmem_inv c' k' es' /\ ring_call i p rings = <[i := es']> rings.
Proof.
  intros HI Hi [_ Hp] Hv. unfold ring_call. rewrite Hi. destruct p as [e|key|key]; simpl in *.
  - destruct Hp as (He & Hval & Ho).
    destruct (SendWrite_spec psend c k es db e HI He Ho) as (c' & k' & db' & E & Ec & HI').
    exists c', k', db', (ring_next es e). split; [by step E|]. split; [done|]. split; [|split; [done|]].
    + unfold values_ok. rewrite Ec. by apply map_Forall_insert_2.
    + done.
  - destruct (SendGet_spec psend c k es db key (contents db !! key) HI Hp (db_Get_contents db key))
      as (c' & k' & E & HI').
    { destruct (contents db !! key) eqn:Ek; simpl; [by eapply Hv|vm_compute; congruence]. }
    exists c', k', db, es. split; [by step E|]. split; [done|]. split; [done|]. split; [done|].
    by rewrite list_insert_id.
  - destruct (SendDelete_spec psend c k es db key HI Hp) as (c' & k' & db' & E & Ec & HI').
    exists c', k', db', es. split; [by step E|]. split; [done|]. split; [|split; [done|by rewrite list_insert_id]].
    unfold values_ok. rewrite Ec. by apply map_Forall_delete.
Qed.

End refine.

(** ** Connecting *)

(** A connection just made satisfies the invariant, its ring empty. *)
Lemma Connect_inv conn cctx kctx send ksend pm :
  conn <> -1 -> buf_size send = SEND_BUF_SIZE -> buf_size ksend = SEND_BUF_SIZE -> buf_size pm = PMEM_BUFSIZE ->
  link cctx (chost (make_client cctx send)) kctx (khost (make_clerk kctx ksend pm)) ->
  exists c, Connect conn (make_client cctx send) = Done c /\ pmem_inv c (make_clerk kctx ksend pm) [].
Proof.
  intros Hc Hs1 Hs2 Hp HL. unfold Connect. rewrite (proj2 (Z.eqb_neq conn (-1)) Hc).
  rewrite bwrite32_word by (vm_compute; congruence). eexists. split; [done|].
  split; simpl; try first [apply holds_poke|done].
  eapply link_sizes; [| |exact HL]; done.
Qed.



(** *** Two clients, to run *)

Definition pmem_example_client : PMemClient :=
  client_with (make_client (example_pair (MAX_REQUEST + RING_HEADER) PMEM_BUFSIZE).1 (new_buf SEND_BUF_SIZE))
    (poke (new_buf (MAX_REQUEST + RING_HEADER)) 0 (word CLIENT_DONE)) 0.
Definition pmem_example_clerk : PMemClerk :=
  make_clerk (example_pair (MAX_REQUEST + RING_HEADER) PMEM_BUFSIZE).2 (new_buf SEND_BUF_SIZE) (new_buf PMEM_BUFSIZE).

Lemma pmem_example_inv : pmem_inv pmem_example_client pmem_example_clerk [].
Proof.
  destruct (Connect_inv 0 (example_pair (MAX_REQUEST + RING_HEADER) PMEM_BUFSIZE).1
    (example_pair (MAX_REQUEST + RING_HEADER) PMEM_BUFSIZE).2 (new_buf SEND_BUF_SIZE) (new_buf SEND_BUF_SIZE)
    (new_buf PMEM_BUFSIZE)) as (c & E & HI); try done.
  - apply example_pair_link; done.
  - unfold Connect in E. rewrite bwrite32_word in E by (vm_compute; congruence). simpl in E.
    injection E as <-. exact HI.
Qed.

Definition pmem_example_calls : list (nat * pmem_call) :=
  [(0%nat, CallWrite (Entry PUT (text "k") (text "one"))); (1%nat, CallGet (text "k"));
   (1%nat, CallWrite (Entry UPDATE (text "k") (text "two"))); (0%nat, CallGet (text "k"));
   (0%nat, CallDelete (text "k")); (1%nat, CallGet (text "k"))].

