(* ===== verification/RingLog.v ===== *)
(** * RingLog: frontend/group/ringlog.h

    The log of the group front end: a preallocated file written at a position
    that writers reserve with a compare-and-exchange loop on [offset_].  The
    operations for one writer, then writers that interleave. *)

From Stdlib.Strings Require Import Byte.
From S2P Require Import Prelude Buf.

Definition PREALLOCATE_SIZE : Z := 4 * 1024 * 1024 * 1024.

Record RingLog := { file_ : buf; sync_ : bool; offset_ : Z }.

(** the constructor, over the bytes [old] the file held *)
Definition make_ringlog (old : gmap Z byte) (sync : bool) : RingLog :=
  {| file_ := Buf PREALLOCATE_SIZE old; sync_ := sync; offset_ := 0 |}.

(** [pwrite]: the file grows when the bytes end past its end *)
Definition pwrite (f : buf) (pos : Z) (bs : bytes) : buf :=
  Buf (Z.max (buf_size f) (pos + blen bs)) (buf_data (poke f pos bs)).

(** where [offset_] goes when [len] bytes are reserved at [pos] *)
Definition next_pos (pos len : Z) : Z :=
  if pos <? PREALLOCATE_SIZE then u64 (pos + len) else u64 len.

(** the loop, nobody else writing: the weak exchange fails [spurious] times and
    leaves the current value in [pos] *)
Fixpoint cas_loop (spurious : nat) (offset pos next len : Z) : Z * Z :=
  match spurious with
  | O => (pos, next)
  | S n => cas_loop n offset offset (next_pos offset len) len
  end.
Definition reserve (spurious : nat) (l : RingLog) (len : Z) : Z * Z :=
  cas_loop spurious (offset_ l) (offset_ l) (next_pos (offset_ l) len) len.

Definition PutBatch (spurious : nat) (l : RingLog) (bs : bytes) : RingLog :=
  let (pos, next) := reserve spurious l (blen bs) in
  {| file_ := pwrite (file_ l) pos bs; sync_ := sync_ l; offset_ := next |}.

(** [Put] builds the record in an array of its stack frame *)
Definition Put (spurious : nat) (l : RingLog) (key val : bytes) : outcome RingLog :=
  b ← bwrite32 (new_buf (8 * 1024)) 0 (i32 (blen key));
  b ← bwrite32 b 4 (i32 (blen val));
  b ← bwrite b 8 key;
  b ← bwrite b (8 + blen key) val;
  bs ← bread b 0 (i32 (8 + blen key + blen val));
  Done (PutBatch spurious l bs).

(** ** One writer *)

Lemma reserve_spec spurious l len : reserve spurious l len = (offset_ l, next_pos (offset_ l) len).
Proof. unfold reserve. induction spurious as [|n IH]; [done|exact IH]. Qed.

Lemma PutBatch_spec spurious l bs :
  PutBatch spurious l bs =
    {| file_ := pwrite (file_ l) (offset_ l) bs; sync_ := sync_ l; offset_ := next_pos (offset_ l) (blen bs) |}.
Proof. unfold PutBatch. by rewrite reserve_spec. Qed.

Lemma bget_pwrite f pos bs i : bget (pwrite f pos bs) i = bget (poke f pos bs) i.
Proof. done. Qed.

Lemma holds_pwrite f pos bs : holds (pwrite f pos bs) pos bs.
Proof. eapply holds_ext; [|apply (holds_poke f)]. done. Qed.

Lemma holds_pwrite_ne f pos bs off bs' :
  off + blen bs' <= pos \/ pos + blen bs <= off ->
  holds f off bs' -> holds (pwrite f pos bs) off bs'.
Proof. intros Hd Hh. eapply holds_ext; [|apply (holds_poke_ne f pos bs off bs' Hd Hh)]. done. Qed.

(** the log has just the records [bs] behind each other, as long as they fit *)
Definition log_holds (l : RingLog) (bs : bytes) : Prop :=
  blen bs <= PREALLOCATE_SIZE -> offset_ l = blen bs /\ holds (file_ l) 0 bs.

Lemma make_ringlog_holds old sync : log_holds (make_ringlog old sync) [].
Proof. done. Qed.

Lemma PutBatch_holds spurious l bs new :
  new <> [] -> log_holds l bs -> log_holds (PutBatch spurious l new) (bs ++ new).
Proof.
  intros Hne Hl Hsz. rewrite PutBatch_spec. simpl. rewrite blen_app in Hsz.
  assert (0 < blen new) by (destruct new; [done|rewrite blen_cons; pose proof (blen_nonneg new); lia]).
  pose proof (blen_nonneg bs). destruct Hl as [Ho Hh]; [lia|]. rewrite Ho. split.
  - unfold next_pos. change PREALLOCATE_SIZE with 4294967296 in *. zdecide.
    rewrite blen_app. apply u64_small. lia.
  - apply holds_app. split.
    + apply holds_pwrite_ne; [left; lia|done].
    + apply holds_pwrite.
Qed.

(** when the position has reached the preallocated size, the next batch is
    still written at that position, past the end, growing the file, and only
    the position after it goes back to the start of the file, past [len] bytes
    that were never written there. *)
Theorem PutBatch_past_end spurious l bs :
  PREALLOCATE_SIZE <= offset_ l -> bs <> [] -> blen bs < 2 ^ 31 ->
  let l' := PutBatch spurious l bs in
  holds (file_ l') (offset_ l) bs /\ PREALLOCATE_SIZE < buf_size (file_ l') /\
  offset_ l' = blen bs /\ (forall i, 0 <= i < blen bs -> bget (file_ l') i = bget (file_ l) i).
Proof.
  intros Ho Hne Hb. cbv zeta. rewrite PutBatch_spec. simpl.
  assert (0 < blen bs) by (destruct bs; [done|rewrite blen_cons; pose proof (blen_nonneg bs); lia]).
  split; [apply holds_pwrite|]. split; [lia|]. split.
  - unfold next_pos. zdecide. pows. apply u64_small. lia.
  - intros i Hi. rewrite bget_pwrite. apply bget_poke_ne. change PREALLOCATE_SIZE with 4294967296 in *. pows. lia.
Qed.

Lemma PutBatch_past_end_witness :
  let l := {| file_ := Buf PREALLOCATE_SIZE ∅; sync_ := false; offset_ := PREALLOCATE_SIZE |} in
  offset_ (PutBatch 2 l (text "record")) = 6.
Proof.
  apply (PutBatch_past_end 2 {| file_ := Buf PREALLOCATE_SIZE ∅; sync_ := false; offset_ := PREALLOCATE_SIZE |}
    (text "record")); [vm_compute; congruence|discriminate|vm_compute; done].
Defined.

(** a record of [Put] *)
Definition put_record (key val : bytes) : bytes := le_bytes 4 (blen key) ++ le_bytes 4 (blen val) ++ key ++ val.

(** [Put] appends the two lengths, the key and the value to the log when
    they fit its 8 KiB array, and writes outside the array when they do not. *)
Theorem Put_appends spurious l key val bs :
  log_holds l bs ->
  (8 + blen key + blen val <= 8 * 1024 ->
   exists l', Put spurious l key val = Done l' /\ log_holds l' (bs ++ put_record key val)) /\
  (8 * 1024 < 8 + blen key + blen val -> Put spurious l key val = Undefined).
Proof.
  intros Hl. pose proof (blen_nonneg key) as Hk. pose proof (blen_nonneg val) as Hv. unfold Put, bwrite32.
  rewrite (bwrite_done (new_buf _) 0) by (rewrite ?blen_le_bytes; simpl; lia). cbn [mbind outcome_bind].
  rewrite bwrite_done by (rewrite ?blen_le_bytes; simpl; lia). cbn [mbind outcome_bind].
  split; intros Hsz.
  - rewrite !bwrite_done by (simpl; lia). cbn [mbind outcome_bind]. rewrite bwrite_done by (simpl; lia).
    cbn [mbind outcome_bind].
    assert (Ei : forall z, 0 <= z < 10000 -> i32 z = z).
    { intros z Hz. unfold i32. pows. rewrite Z.mod_small; lia. }
    rewrite !Ei by lia.
    rewrite <- (Z.add_assoc 8), <- blen_app. set (b := poke _ _ val).
    assert (Hh : holds b 0 (put_record key val)).
    { unfold put_record, b. repeat (apply holds_app; rewrite ?blen_le_bytes; split).
      - do 3 (apply holds_poke_ne; [rewrite ?blen_le_bytes; lia|]). apply holds_poke.
      - do 2 (apply holds_poke_ne; [rewrite ?blen_le_bytes; lia|]). apply holds_poke.
      - apply holds_poke_ne; [rewrite ?blen_le_bytes; lia|]. apply holds_poke.
      - replace (0 + Z.of_nat 4 + Z.of_nat 4 + blen key) with (8 + blen key) by lia. apply holds_poke. }
    assert (El : 8 + blen (key ++ val) = blen (put_record key val)).
    { unfold put_record. autorewrite with blen. lia. }
    rewrite El. rewrite (holds_bread b 0 _ Hh); [|lia|rewrite <- El, blen_app; simpl; lia].
    eexists. split; [done|]. apply PutBatch_holds; [|done]. done.
  - destruct (Z_le_gt_dec (8 + blen key) (8 * 1024)).
    + rewrite bwrite_done by (simpl; lia). cbn [mbind outcome_bind].
      by rewrite bwrite_undefined by (simpl; lia).
    + by rewrite bwrite_undefined by (simpl; lia).
Qed.

Lemma Put_appends_witness :
  exists l', Put 1 (make_ringlog ∅ true) (text "k") (text "v") = Done l' /\
    log_holds l' (put_record (text "k") (text "v")).
Proof.
  apply (proj1 (Put_appends 1 (make_ringlog ∅ true) (text "k") (text "v") [] (make_ringlog_holds ∅ true))).
  vm_compute. congruence.
Defined.

(** ** Writers that interleave

    Each writer loads [offset_], tries the exchange until it succeeds, then
    writes; the steps of several writers come in any order. *)

Inductive writer :=
  | Loading (bs : bytes)
  | Trying (bs : bytes) (pos next : Z)
  | Writing (bs : bytes) (pos : Z)
  | Written (bs : bytes) (pos : Z).

Definition writer_bytes (w : writer) : bytes :=
  match w with Loading bs | Trying bs _ _ | Writing bs _ | Written bs _ => bs end.

(** the region the writer has reserved *)
Definition reserved (w : writer) : option Z :=
  match w with Writing _ pos | Written _ pos => Some pos | _ => None end.

Definition set_offset (l : RingLog) (o : Z) : RingLog :=
  {| file_ := file_ l; sync_ := sync_ l; offset_ := o |}.
Definition set_file (l : RingLog) (f : buf) : RingLog :=
  {| file_ := f; sync_ := sync_ l; offset_ := offset_ l |}.

Inductive write_step : RingLog * list writer -> RingLog * list writer -> Prop :=
  | step_load l ws i bs :
      ws !! i = Some (Loading bs) ->
      write_step (l, ws) (l, <[i := Trying bs (offset_ l) (next_pos (offset_ l) (blen bs))]> ws)
  | step_cas l ws i bs pos next :
      ws !! i = Some (Trying bs pos next) -> offset_ l = pos ->
      write_step (l, ws) (set_offset l next, <[i := Writing bs pos]> ws)
  | step_cas_fails l ws i bs pos next :
      ws !! i = Some (Trying bs pos next) ->
      write_step (l, ws) (l, <[i := Trying bs (offset_ l) (next_pos (offset_ l) (blen bs))]> ws)
  | step_pwrite l ws i bs pos :
      ws !! i = Some (Writing bs pos) ->
      write_step (l, ws) (set_file l (pwrite (file_ l) pos bs), <[i := Written bs pos]> ws).

Definition zsum {A} (f : A -> Z) (l : list A) : Z := foldr (fun x s => f x + s) 0 l.

Lemma zsum_insert {A} (f : A -> Z) l i x y :
  l !! i = Some x -> zsum f (<[i := y]> l) = zsum f l - f x + f y.
Proof.
  revert i; induction l as [|a l IH]; intros [|i] Hi; simpl in *; simplify_eq; [lia|].
  rewrite (IH i Hi). lia.
Qed.

Lemma zsum_le {A} (f g : A -> Z) l i x :
  (forall a, f a <= g a) -> l !! i = Some x -> zsum f l <= zsum g l - (g x - f x).
Proof.
  intros Hle. revert i; induction l as [|a l IH]; intros [|i] Hi; simpl in *; simplify_eq.
  - assert (zsum f l <= zsum g l); [|lia]. clear -Hle.
    induction l as [|b l IH]; simpl; [lia|]. specialize (Hle b). lia.
  - specialize (IH i Hi). specialize (Hle a). lia.
Qed.

Definition writer_len (w : writer) : Z := blen (writer_bytes w).
Definition reserved_len (w : writer) : Z := match reserved w with Some _ => writer_len w | None => 0 end.

Record writers_inv (l : RingLog) (ws : list writer) : Prop := {
  wi_nonempty : forall i w, ws !! i = Some w -> writer_bytes w <> [];
  wi_room : zsum writer_len ws <= PREALLOCATE_SIZE;
  wi_offset : offset_ l = zsum reserved_len ws;
  wi_region : forall i w pos, ws !! i = Some w -> reserved w = Some pos ->
    0 <= pos /\ pos + writer_len w <= offset_ l;
  wi_disjoint : forall i j w w' pos pos', i <> j -> ws !! i = Some w -> ws !! j = Some w' ->
    reserved w = Some pos -> reserved w' = Some pos' ->
    pos + writer_len w <= pos' \/ pos' + writer_len w' <= pos;
  wi_next : forall i bs pos next, ws !! i = Some (Trying bs pos next) -> next = next_pos pos (blen bs);
  wi_written : forall i bs pos, ws !! i = Some (Written bs pos) -> holds (file_ l) pos bs }.

Lemma reserved_len_le w : reserved_len w <= writer_len w.
Proof. unfold reserved_len, writer_len. pose proof (blen_nonneg (writer_bytes w)). destruct (reserved w); lia. Qed.

(** a writer that changes its program counter without reserving anything *)
Lemma writers_inv_try l ws i w bs :
  writers_inv l ws -> ws !! i = Some w -> writer_bytes w = bs -> reserved w = None ->
  writers_inv l (<[i := Trying bs (offset_ l) (next_pos (offset_ l) (blen bs))]> ws).
Proof.
  intros [I1 I2 I3 I4 I5 I6 I7] Hi Hb Hr.
  assert (Hl : forall j w', <[i := Trying bs (offset_ l) (next_pos (offset_ l) (blen bs))]> ws !! j = Some w' ->
    (j = i /\ w' = Trying bs (offset_ l) (next_pos (offset_ l) (blen bs))) \/ ws !! j = Some w').
  { intros j w' Hj. apply list_lookup_insert_Some in Hj as [(-> & -> & _)|[_ Hj]]; [by left|by right]. }
  split; intros.
  - destruct (Hl _ _ ltac:(eassumption)) as [[-> ->]|?]; [|eauto]. simpl. rewrite <- Hb. eauto.
  - rewrite (zsum_insert _ _ _ _ _ Hi). unfold writer_len at 2 3. simpl. rewrite Hb. lia.
  - rewrite (zsum_insert _ _ _ _ _ Hi). unfold reserved_len at 2 3. rewrite Hr. simpl. lia.
  - destruct (Hl _ _ ltac:(eassumption)) as [[-> ->]|?]; [done|eauto].
  - destruct (Hl i0 w0 ltac:(eassumption)) as [[-> ->]|?]; [done|].
    destruct (Hl j w' ltac:(eassumption)) as [[-> ->]|?]; [done|eauto].
  - destruct (Hl _ _ ltac:(eassumption)) as [[-> [= -> -> ->]]|?]; [done|eauto].
  - destruct (Hl _ _ ltac:(eassumption)) as [[-> ?]|?]; [done|eauto].
Qed.

Lemma writers_inv_step l ws l' ws' :
  writers_inv l ws -> write_step (l, ws) (l', ws') -> writers_inv l' ws'.
Proof.
  intros HI Hs. pose proof HI as [I1 I2 I3 I4 I5 I6 I7]. inversion Hs; subst; clear Hs.
  - by eapply writers_inv_try.
  - rename H2 into Hi. pose proof (I6 _ _ _ _ Hi) as ->. set (o := offset_ l) in *.
    assert (Hne : 0 < blen bs).
    { pose proof (I1 _ _ Hi) as Hb. simpl in Hb. destruct bs; [done|]. rewrite blen_cons. pose proof (blen_nonneg bs). lia. }
    pose proof (zsum_le _ _ _ _ _ reserved_len_le Hi) as Hle.
    unfold writer_len at 2, reserved_len at 2 in Hle. simpl in Hle.
    assert (0 <= o).
    { rewrite I3. clear. induction ws as [|w ws IH]; simpl; [lia|].
      unfold reserved_len at 1, writer_len. pose proof (blen_nonneg (writer_bytes w)). destruct (reserved w); lia. }
    assert (En : next_pos o (blen bs) = o + blen bs).
    { unfold next_pos. change PREALLOCATE_SIZE with 4294967296 in *. zdecide. apply u64_small. lia. }
    rewrite En.
    assert (Hl : forall j w', <[i := Writing bs o]> ws !! j = Some w' ->
      (j = i /\ w' = Writing bs o) \/ (j <> i /\ ws !! j = Some w')).
    { intros j w' Hj. apply list_lookup_insert_Some in Hj as [(-> & -> & _)|[? Hj]]; [by left|by right]. }
    split; simpl; intros.
    + destruct (Hl _ _ ltac:(eassumption)) as [[-> ->]|[_ ?]]; [by apply (I1 _ _ Hi)|eauto].
    + rewrite (zsum_insert _ _ _ _ _ Hi). unfold writer_len at 2 3. simpl. lia.
    + rewrite (zsum_insert _ _ _ _ _ Hi). unfold reserved_len at 2 3, writer_len. simpl. lia.
    + destruct (Hl _ _ ltac:(eassumption)) as [[-> ->]|[_ ?]].
      * simpl in *. simplify_eq. unfold writer_len. simpl. lia.
      * destruct (I4 _ _ _ ltac:(eassumption) ltac:(eassumption)). lia.
    + destruct (Hl i0 w ltac:(eassumption)) as [[-> ->]|[? Ha]], (Hl j w' ltac:(eassumption)) as [[-> ->]|[? Hb]];
        simpl in *; simplify_eq; [| |eauto].
      * right. unfold writer_len at 1. destruct (I4 _ _ _ Hb ltac:(eassumption)). unfold writer_len in *. lia.
      * left. destruct (I4 _ _ _ Ha ltac:(eassumption)). lia.
    + destruct (Hl _ _ ltac:(eassumption)) as [[-> ?]|[_ ?]]; [done|eauto].
    + destruct (Hl _ _ ltac:(eassumption)) as [[-> ?]|[_ ?]]; [done|eauto].
  - by eapply writers_inv_try.
  - rename H0 into Hi. assert (Hl : forall j w', <[i := Written bs pos]> ws !! j = Some w' ->
      (j = i /\ w' = Written bs pos) \/ (j <> i /\ ws !! j = Some w')).
    { intros j w' Hj. apply list_lookup_insert_Some in Hj as [(-> & -> & _)|[? Hj]]; [by left|by right]. }
    split; simpl; intros.
    + destruct (Hl _ _ ltac:(eassumption)) as [[-> ->]|[_ ?]]; [by apply (I1 _ _ Hi)|eauto].
    + rewrite (zsum_insert _ _ _ _ _ Hi). unfold writer_len at 2 3. simpl. lia.
    + rewrite (zsum_insert _ _ _ _ _ Hi). unfold reserved_len at 2 3, writer_len. simpl. lia.
    + destruct (Hl _ _ ltac:(eassumption)) as [[-> ->]|[_ ?]]; [|eauto]. simpl in *. simplify_eq.
      by apply (I4 _ _ _ Hi).
    + destruct (Hl i0 w ltac:(eassumption)) as [[-> ->]|[? Ha]], (Hl j w' ltac:(eassumption)) as [[-> ->]|[? Hb]];
        simpl in *; simplify_eq; [| |eauto].
      * apply (I5 i j (Writing bs pos0) w' pos0 pos'); eauto.
      * apply (I5 i0 i w (Writing bs pos') pos0 pos'); eauto.
    + destruct (Hl _ _ ltac:(eassumption)) as [[-> ?]|[_ ?]]; [done|eauto].
    + destruct (Hl _ _ ltac:(eassumption)) as [[-> [= -> ->]]|[Hne Hj]]; [apply holds_pwrite|].
      apply holds_pwrite_ne; [|eauto].
      destruct (I5 i0 i (Written bs0 pos0) (Writing bs pos) pos0 pos Hne Hj Hi eq_refl eq_refl); [by left|by right].
Qed.

Lemma writers_inv_start old sync (recs : list bytes) :
  Forall (fun bs => bs <> []) recs -> zsum blen recs <= PREALLOCATE_SIZE ->
  writers_inv (make_ringlog old sync) (map Loading recs).
Proof.
  intros Hne Hsum.
  assert (Hl : forall i w, map Loading recs !! i = Some w -> exists bs, w = Loading bs /\ bs <> []).
  { intros i w Hi. change (map Loading recs) with (Loading <$> recs) in Hi. rewrite list_lookup_fmap in Hi.
    destruct (recs !! i) as [bs|] eqn:E; [|done]. simpl in Hi. injection Hi as <-.
    exists bs. split; [done|]. by apply (Forall_lookup_1 _ _ _ _ Hne E). }
  split; intros; 
    try (destruct (Hl _ _ ltac:(eassumption)) as (? & ? & ?); simplify_eq/=; done).
  - clear Hl Hne. enough (zsum writer_len (map Loading recs) = zsum blen recs) by lia.
    induction recs as [|r recs IH]; simpl; [done|]. rewrite IH; [done|]. simpl in Hsum. pose proof (blen_nonneg r). lia.
  - simpl. clear. induction recs as [|r recs IH]; simpl; [done|]. rewrite <- IH. done.
Qed.

(** C34: however the writers interleave, as long as the records of all of them
    fit the preallocated file, no two of them reserve overlapping bytes, and a
    record that was written stays in the file, intact, where its writer
    reserved the room. *)
Theorem concurrent_writers_intact old sync recs l ws :
  Forall (fun bs => bs <> []) recs -> zsum blen recs <= PREALLOCATE_SIZE ->
  rtc write_step (make_ringlog old sync, map Loading recs) (l, ws) ->
  (forall i bs pos, ws !! i = Some (Written bs pos) -> holds (file_ l) pos bs) /\
  (forall i j w w' pos pos', i <> j -> ws !! i = Some w -> ws !! j = Some w' ->
     reserved w = Some pos -> reserved w' = Some pos' ->
     pos + writer_len w <= pos' \/ pos' + writer_len w' <= pos).
Proof.
  intros Hne Hsum Hr.
  enough (HI : forall s, rtc write_step (make_ringlog old sync, map Loading recs) s -> writers_inv s.1 s.2)
    by (destruct (HI _ Hr); done).
  apply rtc_ind_r; [by apply writers_inv_start|].
  intros [l1 ws1] [l2 ws2] _ Hs IH. by eapply writers_inv_step.
Qed.

Lemma concurrent_writers_intact_witness :
  exists l, rtc write_step (make_ringlog ∅ false, map Loading [text "a"; text "bc"])
      (l, [Written (text "a") 0; Written (text "bc") 1]) /\ holds (file_ l) 1 (text "bc").
Proof.
  assert (Hr : exists l, rtc write_step (make_ringlog ∅ false, map Loading [text "a"; text "bc"])
      (l, [Written (text "a") 0; Written (text "bc") 1])).
  { eexists. eapply rtc_l; [eapply (step_load _ _ 0); reflexivity|]. eapply rtc_l; [eapply (step_load _ _ 1); reflexivity|].
    eapply rtc_l; [eapply (step_cas _ _ 0); reflexivity|]. eapply rtc_l; [eapply (step_cas_fails _ _ 1); reflexivity|].
    eapply rtc_l; [eapply (step_pwrite _ _ 0); reflexivity|]. eapply rtc_l; [eapply (step_cas _ _ 1); reflexivity|].
    eapply rtc_l; [eapply (step_pwrite _ _ 1); reflexivity|]. apply rtc_refl. }
  destruct Hr as [l Hr]. exists l. split; [exact Hr|].
  refine (proj1 (concurrent_writers_intact ∅ false [text "a"; text "bc"] l _ _ _ Hr) 1%nat (text "bc") 1 eq_refl).
  - repeat constructor; discriminate.
  - vm_compute. congruence.
Defined.
