(* ===== verification/Group.v ===== *)
(** * Group: frontend/group/group.cc, client.h, server.h and mutex.h

    The group-commit front end.  A client writes its request into the clerk's
    buffer; clerks that have something to store queue up ([writers_queue],
    under [global_mutex]); the clerk at the front becomes the leader, collects
    the requests of the queue in [batch], stores the batch in the database and
    in the log, and marks the writers of the batch done.

    The code of a clerk is cut at the points where other threads can run: its
    program counter [pc] says which statement comes next. *)

From Stdlib.Strings Require Import Byte.
From S2P Require Import Prelude Buf Request Rdma Message DBType RingLog.

Definition BUF_SIZE : Z := MAX_REQUEST + RING_HEADER.

Record GroupClient := { gc_ctx : RDMAContext; gc_send : buf; local_buf_ : buf }.
Record GroupClerk := { gk_ctx : RDMAContext; gk_send : buf; gk_local : buf }.

Definition client_set (c : GroupClient) (b : buf) : GroupClient :=
  {| gc_ctx := gc_ctx c; gc_send := gc_send c; local_buf_ := b |}.
Definition clerk_set (k : GroupClerk) (b : buf) : GroupClerk :=
  {| gk_ctx := gk_ctx k; gk_send := gk_send k; gk_local := b |}.
Definition chost (c : GroupClient) : host := Host (gc_send c) (local_buf_ c).
Definition khost (k : GroupClerk) : host := Host (gk_send k) (gk_local k).

(** the constructors, over the regions [open] has registered *)
Definition make_client (ctx : RDMAContext) (send : buf) : GroupClient :=
  {| gc_ctx := ctx; gc_send := send; local_buf_ := new_buf BUF_SIZE |}.
Definition make_clerk (ctx : RDMAContext) (send : buf) : GroupClerk :=
  {| gk_ctx := ctx; gk_send := send; gk_local := new_buf BUF_SIZE |}.

(** [Connect], once the queue pair is connected *)
Definition Connect (conn : Z) (c : GroupClient) : outcome GroupClient :=
  if conn =? -1 then Exited (-1) else
  b ← bwrite32 (local_buf_ c) 0 CLIENT_DONE;
  Done (client_set c b).

(** ** The client *)

Section client.
Context `{Nic}.
Variable psend : send_wr -> Z.

(** the two posts of a message: the message, then the header word *)
Definition post_message (c : GroupClient) (k : GroupClerk) (total_len : Z) : outcome GroupClerk :=
  h ← deliver (post_write psend (gc_ctx c) (chost c) None total_len RING_HEADER RING_HEADER false)
        (gc_ctx c) (gk_ctx k, khost k);
  h ← deliver (post_write psend (gc_ctx c) (chost c) None 4 0 0 true) (gc_ctx c) (gk_ctx k, h);
  Done (clerk_set k (h_write h)).

Definition SendWrite_post (key val : bytes) (o : Operation) (c : GroupClient) (k : GroupClerk)
    : outcome (GroupClient * GroupClerk) :=
  b ← write_record (local_buf_ c) o key val;
  let c := client_set c b in
  k ← post_message c k (record_len key val);
  Done (c, k).

Definition post_key_request (o : Operation) (key : bytes) (c : GroupClient) (k : GroupClerk)
    : outcome (GroupClient * GroupClerk) :=
  b ← write_key_request (local_buf_ c) o key;
  let c := client_set c b in
  k ← post_message c k (key_request_len key);
  Done (c, k).
Definition SendGet_post := post_key_request GET.
Definition SendDelete_post := post_key_request DELETE.

Definition SendClose_post (c : GroupClient) (k : GroupClerk) : outcome (GroupClient * GroupClerk) :=
  b ← write_empty_request (local_buf_ c) CLOSE;
  let c := client_set c b in
  k ← post_message c k (u16 sizeof_Request);
  _ ← post_send psend (gc_ctx c) (chost c) None MAX_REQUEST 0 true;
  Done (c, k).

(** the spin, and what the call returns after it *)
Definition wait_clerk (c : GroupClient) : outcome GroupClient :=
  b ← wait_reply (local_buf_ c); Done (client_set c b).
Definition SendGet_done (c : GroupClient) : outcome (GroupClient * option bytes) :=
  c ← wait_clerk c; v ← read_reply (local_buf_ c); Done (c, v).
Definition SendDelete_done (c : GroupClient) : outcome (GroupClient * bool) :=
  c ← wait_clerk c; s ← reply_status (local_buf_ c) RING_HEADER; Done (c, s =? status_code OK).

(** ** The clerk *)

(** the two writes of the reply *)
Definition send_reply (k : GroupClerk) (c : GroupClient) : outcome GroupClient :=
  n ← reply_val_size (gk_local k) RING_HEADER;
  h ← deliver (post_write psend (gk_ctx k) (khost k) None (sizeof_RequestReply + n) RING_HEADER RING_HEADER false)
        (gk_ctx k) (gc_ctx c, chost c);
  h ← deliver (post_write psend (gk_ctx k) (khost k) None 4 0 0 true) (gk_ctx k) (gc_ctx c, h);
  Done (client_set c (h_write h)).

(** the branch of [GET]; [val_size] keeps what the request had there when the
    key is missing *)
Definition handle_get {DB} `{DBType DB} (b : buf) (r : Request) (db : DB) : outcome buf :=
  key ← key_at b (key_size r);
  found ← db_Get db key;
  match found with
  | Some value =>
      b ← write_reply b OK (blen value);
      write_value b (take (Z.to_nat (u32 (blen value))) value)
  | None => set_status b RING_HEADER NOTFOUND
  end.
End client.

(** *** The batch *)

Record WriteBatch := { batch_length : Z; keys : list bytes; metas : list Meta; buffer : buf }.

Definition empty_batch (b : WriteBatch) : WriteBatch :=
  {| batch_length := 0; keys := []; metas := []; buffer := buffer b |}.

(** the body of the loop: the request of one writer, from its buffer [m] *)
Definition add_request (m : buf) (b : WriteBatch) : outcome WriteBatch :=
  r ← read_request m RING_HEADER;
  key ← key_at m (key_size r);
  let meta := Meta_file 0 (batch_length b + sizeof_Request) (key_size r) (val_size r) in
  bs ← bread m RING_HEADER (Length r);
  d ← bwrite (buffer b) (batch_length b) bs;
  Done {| batch_length := i32 (batch_length b + Length r); keys := keys b ++ [key];
          metas := metas b ++ [meta]; buffer := d |}.

(** [mem w] is the buffer the request of writer [w] is in *)
Fixpoint BuildBatchGroup_loop (mem : nat -> option buf) (q : list nat) (b : WriteBatch) (last : option nat)
    : outcome (WriteBatch * option nat) :=
  match q with
  | [] => Done (b, last)
  | w :: q' =>
      match mem w with
      | None => Undefined
      | Some m =>
          b ← add_request m b;
          if MAX_ASYNC_SIZE <=? batch_length b then Done (b, Some w)
          else BuildBatchGroup_loop mem q' b (Some w)
      end
  end.
Definition BuildBatchGroup (mem : nat -> option buf) (q : list nat) (b : WriteBatch)
    : outcome (WriteBatch * option nat) :=
  BuildBatchGroup_loop mem q (empty_batch b) None.

(** ** Threads *)

Inductive pc :=
  | PLock            (* [MutexLock l(&global_mutex)] *)
  | PLoop            (* the condition of the [while], mutex held *)
  | PAsleep          (* in [cv.Wait] *)
  | PWoken           (* in [cv.Wait], notified, to take the mutex again *)
  | PWindow          (* leader: [usleep(5)], then [lock] *)
  | PBuild           (* leader: [BuildBatchGroup], mutex held *)
  | PStore (last : nat)   (* leader: [db_->PutBatch] *)
  | PLog (last : nat)     (* leader: [log_->PutBatch] *)
  | PRelock (last : nat)  (* leader: [lock] *)
  | PMark (last : nat)    (* leader: marks the followers, mutex held *)
  | PReply.          (* [send_reply] *)

#[export] Instance pc_eq_dec : EqDecision pc.
Proof. solve_decision. Defined.

Inductive call := CallWrite (e : entry) | CallGet (key : bytes) | CallDelete (key : bytes) | CallClose.

(** where a connection is; [done] is the flag of the clerk's [Writer] *)
Inductive phase :=
  | Ready | Posted (r : call) | Serving (r : call) (p : pc) (done : bool) | Answered (r : call) | Gone.

Record conn := Conn { cn_client : GroupClient; cn_clerk : GroupClerk; cn_phase : phase }.

Definition set_phase (p : phase) (cn : conn) : conn := Conn (cn_client cn) (cn_clerk cn) p.

(** [cv.Signal()] on the [Writer] of a connection, and [done = true] before it *)
Definition signal_pc (p : pc) : pc := match p with PAsleep => PWoken | _ => p end.
Definition signal (cn : conn) : conn :=
  match cn_phase cn with Serving r p d => set_phase (Serving r (signal_pc p) d) cn | _ => cn end.
Definition mark_done (cn : conn) : conn :=
  match cn_phase cn with Serving r p d => set_phase (Serving r (signal_pc p) true) cn | _ => cn end.

(** the loop that pops the queue up to the last writer of the batch *)
Fixpoint mark_loop (self last : nat) (q : list nat) (cs : gmap nat conn) : outcome (list nat * gmap nat conn) :=
  match q with
  | [] => Undefined
  | ready :: q' =>
      let cs := if decide (ready = self) then cs else alter mark_done ready cs in
      if decide (ready = last) then Done (q', cs) else mark_loop self last q' cs
  end.

(** ... and the new front is notified *)
Definition notify_front (q : list nat) (cs : gmap nat conn) : gmap nat conn :=
  match q with [] => cs | w :: _ => alter signal w cs end.

(** ** The system *)

Section system.
Context {DB : Type} `{DBType DB} `{Nic}.
Variable psend : send_wr -> Z.

Record sys := Sys {
  conns : gmap nat conn; global_mutex : option nat; writers_queue : list nat;
  batch : WriteBatch; db_ : DB; log_ : RingLog }.

Definition set_conns (y : sys) (cs : gmap nat conn) : sys :=
  Sys cs (global_mutex y) (writers_queue y) (batch y) (db_ y) (log_ y).
Definition set_mutex (y : sys) (m : option nat) : sys :=
  Sys (conns y) m (writers_queue y) (batch y) (db_ y) (log_ y).
Definition set_queue (y : sys) (q : list nat) : sys :=
  Sys (conns y) (global_mutex y) q (batch y) (db_ y) (log_ y).
Definition set_batch (y : sys) (b : WriteBatch) : sys :=
  Sys (conns y) (global_mutex y) (writers_queue y) b (db_ y) (log_ y).
Definition set_db (y : sys) (d : DB) : sys :=
  Sys (conns y) (global_mutex y) (writers_queue y) (batch y) d (log_ y).
Definition set_log (y : sys) (l : RingLog) : sys :=
  Sys (conns y) (global_mutex y) (writers_queue y) (batch y) (db_ y) l.
Definition moved (y : sys) (i : nat) (cn : conn) : sys := set_conns y (<[i := cn]> (conns y)).

(** the requests the writers of the queue point to *)
Definition requests (y : sys) (w : nat) : option buf := cn ← conns y !! w; Some (gk_local (cn_clerk cn)).

Definition post (r : call) (c : GroupClient) (k : GroupClerk) : outcome (GroupClient * GroupClerk) :=
  match r with
  | CallWrite e => SendWrite_post psend (e_key e) (e_val e) (e_op e) c k
  | CallGet key => SendGet_post psend key c k
  | CallDelete key => SendDelete_post psend key c k
  | CallClose => SendClose_post psend c k
  end.

(** what a call returns: nothing, the value found, success or not *)
Inductive result := Returned | Got (v : option bytes) | Deleted (ok : bool).

Definition finish (r : call) (c : GroupClient) : outcome (GroupClient * result) :=
  match r with
  | CallWrite _ | CallClose => c ← wait_clerk c; Done (c, Returned)
  | CallGet _ => '(c, v) ← SendGet_done c; Done (c, Got v)
  | CallDelete _ => '(c, ok) ← SendDelete_done c; Done (c, Deleted ok)
  end.

(** what a call needs to be supported *)
Definition call_ok (r : call) : Prop :=
  match r with
  | CallWrite e => record_ok e /\ (e_op e = PUT \/ e_op e = UPDATE)
  | CallGet key | CallDelete key => key_ok key
  | CallClose => True
  end.

(** new calls, wake-ups without a signal, and the rest *)
Inductive kind := Arrival | Spurious | Work.

Inductive label :=
  | Internal | Post (i : nat) (r : call) | Served (i : nat)
  | Stored (ws : list nat) | Logged (ws : list nat) | Return (i : nat) (r : call) (v : result).

(** the writers of the batch: the queue up to the last one *)
Fixpoint upto (last : nat) (q : list nat) : list nat :=
  match q with
  | [] => []
  | w :: q' => if decide (w = last) then [w] else w :: upto last q'
  end.

Inductive step (y : sys) : kind -> label -> sys -> Prop :=
  (** a connection is made *)
  | step_connect i n c0 k c :
      conns y !! i = None -> Connect n c0 = Done c ->
      c0 = make_client (gc_ctx c0) (gc_send c0) -> k = make_clerk (gk_ctx k) (gk_send k) ->
      link (gc_ctx c0) (chost c0) (gk_ctx k) (khost k) ->
      step y Arrival Internal (moved y i (Conn c k Ready))
  (** the client's code up to its spin *)
  | step_post i c k r c' k' :
      conns y !! i = Some (Conn c k Ready) -> call_ok r -> post r c k = Done (c', k') ->
      step y Arrival (Post i r) (moved y i (Conn c' k' (Posted r)))
  (** the clerk leaves its spin *)
  | step_take i c k r b q :
      conns y !! i = Some (Conn c k (Posted r)) -> take_message (gk_local k) = Done (b, q) ->
      op_of_code (op q) <> Some CLOSE -> op_of_code (op q) <> Some GET ->
      step y Work Internal (moved y i (Conn c (clerk_set k b) (Serving r PLock false)))
  | step_get i c k r b q b' :
      conns y !! i = Some (Conn c k (Posted r)) -> take_message (gk_local k) = Done (b, q) ->
      op_of_code (op q) = Some GET -> handle_get b q (db_ y) = Done b' ->
      step y Work (Served i) (moved y i (Conn c (clerk_set k b') (Serving r PReply false)))
  | step_close i c k r b q :
      conns y !! i = Some (Conn c k (Posted r)) -> take_message (gk_local k) = Done (b, q) ->
      op_of_code (op q) = Some CLOSE ->
      step y Work (Served i) (moved y i (Conn c (clerk_set k b) Gone))
  (** [MutexLock], [push_back] *)
  | step_lock i c k r d :
      conns y !! i = Some (Conn c k (Serving r PLock d)) -> global_mutex y = None ->
      step y Work Internal
        (set_queue (set_mutex (moved y i (Conn c k (Serving r PLoop false))) (Some i)) (writers_queue y ++ [i]))
  (** the condition of the loop: done; at the front; neither *)
  | step_done i c k r b :
      conns y !! i = Some (Conn c k (Serving r PLoop true)) -> write_reply (gk_local k) OK 0 = Done b ->
      step y Work Internal (set_mutex (moved y i (Conn c (clerk_set k b) (Serving r PReply true))) None)
  | step_lead i c k r :
      conns y !! i = Some (Conn c k (Serving r PLoop false)) -> head (writers_queue y) = Some i ->
      step y Work Internal (set_mutex (moved y i (Conn c k (Serving r PWindow false))) None)
  | step_sleep i c k r :
      conns y !! i = Some (Conn c k (Serving r PLoop false)) -> head (writers_queue y) <> Some i ->
      step y Work Internal (set_mutex (moved y i (Conn c k (Serving r PAsleep false))) None)
  (** a spurious wake-up; the end of [Wait] *)
  | step_spurious i c k r d :
      conns y !! i = Some (Conn c k (Serving r PAsleep d)) ->
      step y Spurious Internal (moved y i (Conn c k (Serving r PWoken d)))
  | step_reacquire i c k r d :
      conns y !! i = Some (Conn c k (Serving r PWoken d)) -> global_mutex y = None ->
      step y Work Internal (set_mutex (moved y i (Conn c k (Serving r PLoop d))) (Some i))
  (** the leader *)
  | step_window i c k r d :
      conns y !! i = Some (Conn c k (Serving r PWindow d)) -> global_mutex y = None ->
      step y Work Internal (set_mutex (moved y i (Conn c k (Serving r PBuild d))) (Some i))
  | step_build i c k r d b last :
      conns y !! i = Some (Conn c k (Serving r PBuild d)) ->
      BuildBatchGroup (requests y) (writers_queue y) (batch y) = Done (b, Some last) ->
      step y Work Internal (set_batch (set_mutex (moved y i (Conn c k (Serving r (PStore last) d))) None) b)
  | step_store i c k r d last db' ok :
      conns y !! i = Some (Conn c k (Serving r (PStore last) d)) ->
      db_PutBatch (db_ y) (keys (batch y)) (metas (batch y)) (peek (buffer (batch y)) 0 (Z.to_nat MAX_ASYNC_SIZE))
        (batch_length (batch y)) = Done (db', ok) ->
      step y Work (Stored (upto last (writers_queue y)))
        (set_db (moved y i (Conn c k (Serving r (PLog last) d))) db')
  | step_log i c k r d last bs spurious :
      conns y !! i = Some (Conn c k (Serving r (PLog last) d)) ->
      bread (buffer (batch y)) 0 (batch_length (batch y)) = Done bs ->
      step y Work (Logged (upto last (writers_queue y)))
        (set_log (moved y i (Conn c k (Serving r (PRelock last) d))) (PutBatch spurious (log_ y) bs))
  | step_relock i c k r d last :
      conns y !! i = Some (Conn c k (Serving r (PRelock last) d)) -> global_mutex y = None ->
      step y Work Internal (set_mutex (moved y i (Conn c k (Serving r (PMark last) d))) (Some i))
  | step_mark i c k r d last q cs :
      conns y !! i = Some (Conn c k (Serving r (PMark last) d)) ->
      mark_loop i last (writers_queue y) (conns y) = Done (q, cs) ->
      step y Work Internal
        (set_queue (set_mutex
           (set_conns y (<[i := Conn c k (Serving r PReply d)]> (notify_front q cs))) None) q)
  (** the reply, and the client's code after its spin *)
  | step_reply i c k r d c' :
      conns y !! i = Some (Conn c k (Serving r PReply d)) -> send_reply psend k c = Done c' ->
      step y Work Internal (moved y i (Conn c' k (Answered r)))
  | step_return i c k r c' v :
      conns y !! i = Some (Conn c k (Answered r)) -> finish r c = Done (c', v) ->
      step y Work (Return i r v) (moved y i (Conn c' k Ready)).

Inductive steps : sys -> list label -> sys -> Prop :=
  | steps_nil y : steps y [] y
  | steps_snoc y ls y' t l y'' : steps y ls y' -> step y' t l y'' -> steps y (ls ++ [l]) y''.

(** [GroupServer] and the static objects *)
Definition sys_start (db : DB) (log : RingLog) : sys :=
  Sys ∅ None [] {| batch_length := 0; keys := []; metas := []; buffer := new_buf MAX_ASYNC_SIZE |} db log.
End system.
