(* ===== verification/GroupQueue.v ===== *)
(** * GroupQueue: the queue of the group front end, and [BuildBatchGroup]

    What a thread's program counter says of its place in the queue; then the
    batch: the longest prefix of the queue that stays below [MAX_ASYNC_SIZE]
    before its last record; it is built when it fits the 32 KiB buffer, and
    written past its end when it does not. *)

From Stdlib.Strings Require Import Byte.
From S2P Require Import Prelude Buf Request Rdma Message DBType Records RingLog Group.

(** what a program counter says of its thread *)
Definition queued (p : pc) : bool := match p with PLock | PReply => false | _ => true end.
Definition holding (p : pc) : bool := match p with PLoop | PBuild | PMark _ => true | _ => false end.
Definition leading (p : pc) : bool :=
  match p with PWindow | PBuild | PStore _ | PLog _ | PRelock _ | PMark _ => true | _ => false end.
Definition last_of (p : pc) : option nat :=
  match p with PStore l | PLog l | PRelock l | PMark l => Some l | _ => None end.

Definition thread : Type := option (pc * bool).
Definition in_queue (t : thread) : bool := match t with Some (p, d) => queued p && negb d | None => false end.
Definition has_mutex (t : thread) : bool := match t with Some (p, _) => holding p | None => false end.
Definition leads (t : thread) : bool := match t with Some (p, _) => leading p | None => false end.

(** the threads of the clerks *)
Definition phase_thread (p : phase) : thread := match p with Serving _ p d => Some (p, d) | _ => None end.
Definition threads (cs : gmap nat conn) (i : nat) : thread := cn ← cs !! i; phase_thread (cn_phase cn).

(** what one thread must satisfy, the queue being [q] *)
Record thread_ok (q : list nat) (i : nat) (t : thread) : Prop := {
  to_leads : leads t = true -> head q = Some i /\ exists p, t = Some (p, false);
  to_asleep : forall d, t = Some (PAsleep, d) -> d = false /\ head q <> Some i;
  to_done : forall p, t = Some (p, true) -> p = PWoken \/ p = PLoop \/ p = PReply;
  to_lock : forall d, t = Some (PLock, d) -> d = false;
  to_last : forall p d l, t = Some (p, d) -> last_of p = Some l -> l ∈ q }.

Record lock_inv (m : option nat) (q : list nat) (t : nat -> thread) : Prop := {
  li_nodup : NoDup q;
  li_queue : forall i, i ∈ q <-> in_queue (t i) = true;
  li_mutex : forall i, m = Some i <-> has_mutex (t i) = true;
  li_thread : forall i, thread_ok q i (t i) }.

Lemma lock_inv_ext m q t t' : (forall i, t' i = t i) -> lock_inv m q t -> lock_inv m q t'.
Proof. intros E [H1 H2 H3 H4]. split; [done|..]; intros i; rewrite E; auto. Qed.

Lemma threads_insert cs i cn j :
  threads (<[i := cn]> cs) j = if decide (j = i) then phase_thread (cn_phase cn) else threads cs j.
Proof.
  unfold threads. case_decide as Hj; [subst; by rewrite lookup_insert_eq|by rewrite lookup_insert_ne by done].
Qed.

(** *** One thread moves, the queue stays *)

Lemma lock_inv_move m m' q t t' i :
  lock_inv m q t -> (forall j, j <> i -> t' j = t j) ->
  in_queue (t' i) = in_queue (t i) ->
  (forall j, m' = Some j <-> has_mutex (t' j) = true) -> thread_ok q i (t' i) ->
  lock_inv m' q t'.
Proof.
  intros [H1 H2 H3 H4] Ho Hq Hm Ht. split; [done| |done|].
  - intros j. destruct (decide (j = i)) as [->|Hj]; [rewrite Hq|rewrite Ho by done]; apply H2.
  - intros j. destruct (decide (j = i)) as [->|Hj]; [done|rewrite Ho by done]; apply H4.
Qed.

(** the mutex after thread [i] takes it, gives it back, or leaves it alone *)
Lemma mutex_take q t t' i :
  lock_inv None q t -> (forall j, j <> i -> t' j = t j) -> has_mutex (t' i) = true ->
  forall j, Some i = Some j <-> has_mutex (t' j) = true.
Proof.
  intros [_ _ H3 _] Ho Hi j. destruct (decide (j = i)) as [->|Hj]; [done|].
  rewrite Ho, <- H3 by done. naive_solver.
Qed.
Lemma mutex_release m q t t' i :
  lock_inv m q t -> (forall j, j <> i -> t' j = t j) -> has_mutex (t i) = true -> has_mutex (t' i) = false ->
  forall j, None = Some j <-> has_mutex (t' j) = true.
Proof.
  intros [_ _ H3 _] Ho Hi Hi' j. destruct (decide (j = i)) as [->|Hj]; [by rewrite Hi'|].
  rewrite Ho by done. apply H3 in Hi. subst m. rewrite <- H3. naive_solver.
Qed.
Lemma mutex_keep m q t t' i :
  lock_inv m q t -> (forall j, j <> i -> t' j = t j) -> has_mutex (t' i) = has_mutex (t i) ->
  forall j, m = Some j <-> has_mutex (t' j) = true.
Proof.
  intros [_ _ H3 _] Ho Hi j. destruct (decide (j = i)) as [->|Hj]; [rewrite Hi|rewrite Ho by done]; apply H3.
Qed.

(** *** A thread enters the queue *)

Lemma head_snoc {A} (q : list A) x y : head q = Some x -> head (q ++ [y]) = Some x.
Proof. by destruct q. Qed.

Lemma thread_ok_snoc q i j t :
  thread_ok q j t -> (head q = None -> t <> Some (PAsleep, false)) -> j <> i -> thread_ok (q ++ [i]) j t.
Proof.
  intros [H1 H2 H3 H4 H5] Hn Hj. split; try done.
  - intros Hl. destruct (H1 Hl) as [Hh ?]. split; [by apply head_snoc|done].
  - intros d Hd. destruct (H2 d Hd) as [-> Hh]. split; [done|].
    destruct q as [|x q]; [by specialize (Hn eq_refl)|exact Hh].
  - intros p d l Hp Hl. apply elem_of_app. left. by eapply H5.
Qed.

Lemma lock_inv_enter q t t' i d :
  lock_inv None q t -> t i = Some (PLock, d) -> (forall j, j <> i -> t' j = t j) ->
  t' i = Some (PLoop, false) -> lock_inv (Some i) (q ++ [i]) t'.
Proof.
  intros HI Hi Ho Hi'. pose proof HI as [H1 H2 H3 H4]. 
  assert (Hni : i ∉ q) by (rewrite H2, Hi; done).
  split.
  - apply list.NoDup_app. split; [done|]. split; [|apply NoDup_singleton].
    intros x Hx ->%list_elem_of_singleton. done.
  - intros j. rewrite elem_of_app, list_elem_of_singleton. destruct (decide (j = i)) as [->|Hj].
    + rewrite Hi'. naive_solver.
    + rewrite (Ho j Hj), H2. naive_solver.
  - apply (mutex_take q t); [done|done|by rewrite Hi'].
  - intros j. destruct (decide (j = i)) as [->|Hj].
    + rewrite Hi'. split; try done. intros p d' l [= <- <-] [=].
    + rewrite (Ho j Hj). apply thread_ok_snoc; [done| |done].
      intros Hh He. assert (Hjq : j ∈ q) by (rewrite H2, He; done). destruct q; [by apply not_elem_of_nil in Hjq|done].
Qed.

(** *** The leader pops its batch *)

Lemma upto_elem l q w : w ∈ upto l q -> w ∈ q.
Proof.
  induction q as [|x q IH]; simpl; [done|]. destruct (decide (x = l)).
  - rewrite list_elem_of_singleton. intros ->. apply list_elem_of_here.
  - rewrite !elem_of_cons. naive_solver.
Qed.

Lemma upto_NoDup l q : NoDup q -> NoDup (upto l q).
Proof.
  induction 1 as [|x q Hx Hq IH]; simpl; [apply NoDup_nil_2|]. destruct (decide (x = l)).
  - apply NoDup_singleton.
  - apply NoDup_cons_2; [|done]. by intros Hy%upto_elem.
Qed.

Lemma upto_snoc l q w : l ∈ q -> upto l (q ++ [w]) = upto l q.
Proof.
  induction q as [|x q IH]; simpl; [by intros ?%not_elem_of_nil|]. intros Hl.
  destruct (decide (x = l)); [done|]. rewrite IH; [done|]. apply elem_of_cons in Hl as [->|Hl]; done.
Qed.

(** a prefix of a queue without repetitions is [upto] its last element *)
Lemma upto_prefix l pre post : NoDup (pre ++ [l] ++ post) -> upto l (pre ++ [l] ++ post) = pre ++ [l].
Proof.
  induction pre as [|x pre IH]; intros Hn; simpl.
  - by rewrite decide_True.
  - simpl in Hn. apply list.NoDup_cons in Hn as [Hx Hn]. rewrite decide_False.
    + f_equal. by apply IH.
    + intros ->. apply Hx. apply elem_of_app. right. apply list_elem_of_here.
Qed.

(** the members of the batch other than the leader, marked *)
Definition marked (self : nat) (ws : list nat) (cs : gmap nat conn) : gmap nat conn :=
  foldl (fun cs w => if decide (w = self) then cs else alter mark_done w cs) cs ws.

Lemma mark_loop_spec self l q cs :
  l ∈ q -> exists q', mark_loop self l q cs = Done (q', marked self (upto l q) cs) /\ q = upto l q ++ q'.
Proof.
  revert cs; induction q as [|x q IH]; intros cs Hl; [by apply not_elem_of_nil in Hl|].
  simpl. destruct (decide (x = l)) as [->|Hx].
  - exists q. done.
  - destruct (IH (if decide (x = self) then cs else alter mark_done x cs)) as (q' & E & Eq).
    { apply elem_of_cons in Hl as [->|Hl]; done. }
    exists q'. split; [by rewrite E|]. simpl. by f_equal.
Qed.

Lemma marked_lookup self ws cs i :
  NoDup ws ->
  marked self ws cs !! i = (if decide (i ∈ ws /\ i <> self) then mark_done <$> cs !! i else cs !! i).
Proof.
  unfold marked. revert cs; induction ws as [|w ws IH]; intros cs Hn; cbn [foldl].
  - rewrite decide_False; [done|]. intros [?%not_elem_of_nil _]. done.
  - apply list.NoDup_cons in Hn as [Hw Hn]. rewrite IH by done.
    destruct (decide (i = w)) as [->|Hi].
    + rewrite (decide_False (P := w ∈ ws /\ _)) by tauto. destruct (decide (w = self)) as [->|Hs].
      * rewrite decide_False by tauto. done.
      * rewrite decide_True by (split; [apply list_elem_of_here|done]). by rewrite lookup_alter_eq.
    + assert (E : (if decide (w = self) then cs else alter mark_done w cs) !! i = cs !! i).
      { destruct (decide (w = self)); [done|]. rewrite lookup_alter_ne; [done|congruence]. }
      rewrite E. destruct (decide (i ∈ ws /\ i <> self)) as [Hd|Hd], (decide (i ∈ w :: ws /\ i <> self)) as [Hd'|Hd']; try done;
        rewrite elem_of_cons in Hd'; tauto.
Qed.

Lemma notify_front_lookup q cs i :
  notify_front q cs !! i = if decide (head q = Some i) then signal <$> cs !! i else cs !! i.
Proof.
  destruct q as [|w q]; cbn [notify_front head]; [by rewrite decide_False|]. destruct (decide (i = w)) as [->|Hi].
  - by rewrite decide_True, lookup_alter_eq.
  - rewrite decide_False by congruence. rewrite lookup_alter_ne; [done|congruence].
Qed.

Definition signal_thread (t : thread) : thread := match t with Some (p, d) => Some (signal_pc p, d) | None => None end.
Definition mark_thread (t : thread) : thread := match t with Some (p, _) => Some (signal_pc p, true) | None => None end.

(** the threads once the leader has marked its batch and notified the new front *)
Lemma threads_marked self ws q cs cn j :
  NoDup ws ->
  threads (<[self := cn]> (notify_front q (marked self ws cs))) j =
    if decide (j = self) then phase_thread (cn_phase cn)
    else let t := if decide (j ∈ ws) then mark_thread (threads cs j) else threads cs j in
         if decide (head q = Some j) then signal_thread t else t.
Proof.
  intros Hn. rewrite threads_insert. case_decide as Hj; [done|]. unfold threads.
  rewrite notify_front_lookup, marked_lookup by done. cbv zeta.
  destruct (decide (j ∈ ws)) as [Hw|Hw].
  - rewrite (decide_True (P := j ∈ ws /\ j <> self)) by done.
    destruct (cs !! j) as [[c k []]|]; case_decide; simpl; try done.
  - rewrite (decide_False (P := j ∈ ws /\ j <> self)) by tauto. destruct (cs !! j) as [[c k []]|]; case_decide; simpl; done.
Qed.

(** members of the queue other than the leader, while the leader holds the mutex *)
Lemma followers_wait cs q i :
  lock_inv (Some i) q (threads cs) -> head q = Some i ->
  forall j, j <> i -> j ∈ q -> threads cs j = Some (PAsleep, false) \/ threads cs j = Some (PWoken, false).
Proof.
  intros [H1 H2 H3 H4] Hh j Hj Hq.
  pose proof (proj1 (H2 j) Hq) as Hin. pose proof (H3 j) as Hm. pose proof (H4 j) as Ht.
  destruct (threads cs j) as [[p' d']|]; [|done]. simpl in *.
  assert (Hl : leading p' = false).
  { destruct (leading p') eqn:El; [|done]. destruct (to_leads _ _ _ Ht El) as [Hh' _]. naive_solver. }
  assert (Hho : holding p' = false) by (destruct (holding p'); [naive_solver|done]).
  destruct d'; [by rewrite andb_false_r in Hin|]. destruct p'; try done; auto.
Qed.

Lemma head_elem {A} (q : list A) x : head q = Some x -> x ∈ q.
Proof. destruct q; [done|]. intros [= ->]. apply list_elem_of_here. Qed.

Lemma head_upto l q x : head q = Some x -> x ∈ upto l q.
Proof. destruct q as [|y q]; [done|]. intros [= ->]. simpl. case_decide; apply list_elem_of_here. Qed.

Lemma threads_after_mark cs q q' i ws cn :
  lock_inv (Some i) q (threads cs) -> head q = Some i -> q = ws ++ q' -> i ∈ ws ->
  phase_thread (cn_phase cn) = Some (PReply, false) ->
  forall j, threads (<[i := cn]> (notify_front q' (marked i ws cs))) j =
    if decide (j = i) then Some (PReply, false) else
    if decide (j ∈ ws) then Some (PWoken, true) else
    if decide (head q' = Some j) then Some (PWoken, false) else threads cs j.
Proof.
  intros HL Hh Eq Hiw Hcn j. pose proof (followers_wait _ _ _ HL Hh) as Hmem.
  pose proof (li_nodup _ _ _ HL) as N. rewrite Eq in N. apply list.NoDup_app in N as (N1 & N2 & N3).
  rewrite threads_marked by done. case_decide as Hj; [done|]. cbv zeta.
  destruct (decide (j ∈ ws)) as [Hw|Hw].
  - rewrite decide_False by (intros Hx; exact (N2 j Hw (head_elem _ _ Hx))).
    destruct (Hmem j Hj) as [-> | ->]; try done. rewrite Eq. apply elem_of_app. by left.
  - case_decide as Hx; [|done]. destruct (Hmem j Hj) as [-> | ->]; try done.
    rewrite Eq. apply elem_of_app. right. by apply head_elem.
Qed.

Lemma lock_inv_mark cs q q' i last cn :
  lock_inv (Some i) q (threads cs) -> threads cs i = Some (PMark last, false) -> q = upto last q ++ q' ->
  phase_thread (cn_phase cn) = Some (PReply, false) ->
  lock_inv None q' (threads (<[i := cn]> (notify_front q' (marked i (upto last q) cs)))).
Proof.
  intros HL Hi Eq Hcn. pose proof HL as [H1 H2 H3 H4].
  destruct (to_leads _ _ _ (H4 i)) as [Hh _]; [by rewrite Hi|].
  pose proof (head_upto last q i Hh) as Hiw. set (ws := upto last q) in *.
  pose proof (threads_after_mark cs q q' i ws cn HL Hh Eq Hiw Hcn) as HT.
  rewrite Eq in H1. apply list.NoDup_app in H1 as (N1 & N2 & N3).
  split; [done|..].
  - intros j. rewrite HT. destruct (decide (j = i)) as [->|Hj]; [split; [intros Hx; by destruct (N2 i Hiw)|done]|].
    destruct (decide (j ∈ ws)) as [Hw|Hw]; [split; [intros Hx; by destruct (N2 j Hw)|done]|].
    case_decide as Hx.
    + split; [done|]. intros _. destruct q'; [done|]. injection Hx as ->. apply list_elem_of_here.
    + rewrite <- H2, Eq, elem_of_app. tauto.
  - intros j. split; [done|]. rewrite HT. case_decide as Hj; [done|]. case_decide; [done|]. case_decide; [done|].
    intros Hm. apply H3 in Hm. naive_solver.
  - intros j. rewrite HT. case_decide as Hj; [split; intros; by simplify_eq/=|].
    case_decide as Hw; [split; intros; simplify_eq/=; auto|].
    case_decide as Hx; [split; intros; by simplify_eq/=|]. pose proof (H4 j) as Ht.
    assert (Hnl : leads (threads cs j) = false).
    { destruct (leads (threads cs j)) eqn:El; [|done]. destruct (to_leads _ _ _ Ht El) as [Hh' _]. naive_solver. }
    split.
    + by rewrite Hnl.
    + intros d' Hd. split; [by apply (to_asleep _ _ _ Ht)|done].
    + apply (to_done _ _ _ Ht).
    + apply (to_lock _ _ _ Ht).
    + intros p' d' l Hp Hl. rewrite Hp in Hnl. by destruct p'.
Qed.

(** the batch holds the records [es] *)
Record batch_holds (b : WriteBatch) (es : list entry) : Prop := {
  bh_length : batch_length b = chunk_size es;
  bh_keys : keys b = map e_key es;
  bh_metas : metas b = entry_metas 0 es;
  bh_size : buf_size (buffer b) = MAX_ASYNC_SIZE;
  bh_buffer : holds (buffer b) 0 (chunk_bytes es);
  bh_fits : chunk_size es <= MAX_ASYNC_SIZE }.

(** the request of a record, as its clerk received it *)
Definition request_in (m : buf) (e : entry) : Prop :=
  buf_size m = BUF_SIZE /\ framed m CLERK_DONE (entry_bytes e) /\ record_ok e.

(** the pairs that [PutBatch] finds in the first [n] bytes of the buffer *)
Lemma batch_holds_pairs b es n :
  batch_holds b es -> Forall record_ok es -> MAX_ASYNC_SIZE <= Z.of_nat n ->
  batch_pairs (keys b) (metas b) (peek (buffer b) 0 n) = Done (map kv es).
Proof.
  intros [_ -> -> _ B5 B6] Hok Hn. pose proof (chunk_size_nonneg es) as Hnn. unfold chunk_size, blen in *.
  replace n with (length (chunk_bytes es) + (n - length (chunk_bytes es)))%nat by lia.
  rewrite peek_app, (holds_peek _ _ _ B5).
  apply (entry_batch_pairs es []); [done|]. rewrite blen_nil. unfold chunk_size, blen. blia.
Qed.

Lemma add_request_spec m b es e :
  batch_holds b es -> request_in m e ->
  (chunk_size es + entry_size e <= MAX_ASYNC_SIZE ->
   exists b', add_request m b = Done b' /\ batch_holds b' (es ++ [e])) /\
  (MAX_ASYNC_SIZE < chunk_size es + entry_size e -> add_request m b = Undefined).
Proof.
  intros [B1 B2 B3 B4 B5 B6] (Hs & Hf & He). pose proof He as (Hk & Hv & Hsz).
  assert (Mm : msg_buf m) by (unfold msg_buf; rewrite Hs; vm_compute; congruence).
  assert (Hr : read_request m RING_HEADER = Done (put_request_of e)).
  { unfold put_request_of. rewrite (read_request_spec _ _ (op_code (e_op e)) (blen (e_key e)) (blen (e_val e))).
    - cbn [mbind outcome_bind]. by rewrite u8_op_code, u24_small, u32_small by blia.
    - blia.
    - rewrite Hs. unfold BUF_SIZE. blia.
    - destruct Hf as [_ Hf]. unfold entry_bytes, entry_head in Hf. rewrite <- app_assoc in Hf.
      apply holds_app in Hf as [Hf _]. apply (holds_peek _ _ _ Hf). }
  assert (Hkey : key_at m (blen (e_key e)) = Done (e_key e)).
  { unfold entry_bytes, entry_head in Hf. rewrite <- app_assoc in Hf.
    eapply key_at_spec; [done|exact Hf|apply blen_request_header|done|blia]. }
  assert (Hlen : Length (put_request_of e) = entry_size e).
  { unfold Length, put_request_of. cbn [key_size val_size]. apply u32_small. blia. }
  assert (Hbytes : bread m RING_HEADER (entry_size e) = Done (entry_bytes e)).
  { rewrite <- blen_entry. apply holds_bread; [apply Hf|blia|rewrite Hs; unfold BUF_SIZE; blia]. }
  pose proof (chunk_size_nonneg es) as Hc. pose proof (entry_size_pos e) as Hp.
  unfold add_request. rewrite Hr. cbn [mbind outcome_bind]. cbn [put_request_of key_size val_size].
  rewrite Hkey. cbn [mbind outcome_bind]. fold (put_request_of e). rewrite Hlen, Hbytes. cbn [mbind outcome_bind].
  rewrite B1. split; intros Hfit.
  - rewrite bwrite_done by (rewrite ?blen_entry, ?B4; lia). cbn [mbind outcome_bind].
    eexists. split; [done|]. split; cbn [batch_length keys metas buffer].
    + rewrite chunk_size_app, chunk_size_one. unfold i32. pows. rewrite Z.mod_small; blia.
    + rewrite B2, map_app. done.
    + rewrite B3, entry_metas_app. done.
    + done.
    + rewrite chunk_bytes_app. apply holds_app. split.
      * apply holds_poke_ne; [left; unfold chunk_size; lia|done].
      * unfold chunk_bytes at 2. simpl. rewrite app_nil_r, Z.add_0_l. apply holds_poke.
    + rewrite chunk_size_app, chunk_size_one. lia.
  - rewrite bwrite_undefined; [done|]. rewrite blen_entry, B4. lia.
Qed.

(** the number of records the loop takes, [acc] bytes being in the batch *)
Fixpoint batch_count (acc : Z) (es : list entry) : nat :=
  match es with
  | [] => 0
  | e :: es' => S (if MAX_ASYNC_SIZE <=? acc + entry_size e then 0 else batch_count (acc + entry_size e) es')
  end.

Lemma chunk_size_take_le n es : chunk_size (take n es) <= chunk_size es.
Proof. rewrite <- (take_drop n es) at 2. rewrite chunk_size_app. pose proof (chunk_size_nonneg (drop n es)). lia. Qed.

Lemma BuildBatchGroup_loop_spec mem q es : Forall2 (fun w e => exists m, mem w = Some m /\ request_in m e) q es ->
  forall b es0 l, batch_holds b es0 ->
  let n := batch_count (chunk_size es0) es in
  (chunk_size (es0 ++ take n es) <= MAX_ASYNC_SIZE ->
   exists b', BuildBatchGroup_loop mem q b l = Done (b', list.last (option_list l ++ take n q)) /\
     batch_holds b' (es0 ++ take n es)) /\
  (MAX_ASYNC_SIZE < chunk_size (es0 ++ take n es) -> BuildBatchGroup_loop mem q b l = Undefined).
Proof.
  induction 1 as [|w e q es (m & Hm & Hreq) _ IH]; intros b es0 l Hb; cbv zeta.
  - simpl. rewrite !app_nil_r. split.
    + intros _. exists b. split; [by destruct l|done].
    + intros Hx. pose proof (bh_fits _ _ Hb). lia.
  - cbn [batch_count]. destruct (add_request_spec m b es0 e Hb Hreq) as [A1 A2].
    assert (Hl : list.last (option_list l ++ [w]) = Some w) by apply last_snoc.
    cbn [BuildBatchGroup_loop]. rewrite Hm. cbn [take].
    assert (Ecs : forall r, chunk_size (es0 ++ e :: r) = chunk_size es0 + entry_size e + chunk_size r).
    { intros r. rewrite chunk_size_app, chunk_size_cons. lia. }
    destruct (Z.leb_spec MAX_ASYNC_SIZE (chunk_size es0 + entry_size e)) as [Hfull|Hroom].
    + rewrite !take_0, Ecs. change (chunk_size []) with 0. split; intros Hx.
      * destruct A1 as (b' & E & Hb'); [lia|]. exists b'. rewrite E. cbn [mbind outcome_bind].
        rewrite (bh_length _ _ Hb'), chunk_size_app, chunk_size_one. zdecide. by rewrite Hl.
      * rewrite A2 by lia. done.
    + destruct A1 as (b' & E & Hb'); [lia|]. rewrite E. cbn [mbind outcome_bind].
      assert (El : batch_length b' = chunk_size es0 + entry_size e)
        by (by rewrite (bh_length _ _ Hb'), chunk_size_app, chunk_size_one).
      rewrite El. replace (MAX_ASYNC_SIZE <=? _) with false by (symmetry; apply Z.leb_gt; lia).
      assert (Ecs' : chunk_size es0 + entry_size e = chunk_size (es0 ++ [e]))
        by (by rewrite chunk_size_app, chunk_size_one).
      rewrite Ecs'. destruct (IH b' (es0 ++ [e]) (Some w) Hb') as [I1 I2].
      rewrite <- app_assoc in I1, I2. simpl in I1, I2. split; [|exact I2].
      intros Hx. destruct (I1 Hx) as (b2 & E2 & Hb2). exists b2. split; [|done]. rewrite E2. do 2 f_equal.
      destruct l as [l|]; [|done]. simpl. by destruct (take _ q).
Qed.

Lemma batch_count_pos acc e es : (0 < batch_count acc (e :: es))%nat.
Proof. simpl. lia. Qed.

(** C39: over a queue of supported requests, [BuildBatchGroup] copies the
    requests of the longest prefix of the queue whose total stays below
    [MAX_ASYNC_SIZE] before its last record, with the keys, the [Meta]s and the
    length that describe them, when that prefix fits the buffer; when it does
    not, the copy of the last request writes past the end of the buffer. *)
Theorem BuildBatchGroup_spec mem q es b :
  Forall2 (fun w e => exists m, mem w = Some m /\ request_in m e) q es ->
  buf_size (buffer b) = MAX_ASYNC_SIZE ->
  let n := batch_count 0 es in
  (chunk_size (take n es) <= MAX_ASYNC_SIZE ->
   exists b', BuildBatchGroup mem q b = Done (b', list.last (take n q)) /\ batch_holds b' (take n es)) /\
  (MAX_ASYNC_SIZE < chunk_size (take n es) -> BuildBatchGroup mem q b = Undefined).
Proof.
  intros HF Hb. apply (BuildBatchGroup_loop_spec mem q es HF (empty_batch b) [] None).
  by split.
Qed.

(** *** Eight clients always fit, nine need not *)

Lemma chunk_size_bound es :
  Forall record_ok es -> chunk_size es <= Z.of_nat (length es) * MAX_MESSAGE.
Proof.
  induction 1 as [|e es (_ & _ & He) _ IH]; [done|]. rewrite chunk_size_cons. simpl length. blia.
Qed.

Lemma eight_fit es : Forall record_ok es -> (length es <= 8)%nat -> chunk_size es <= MAX_ASYNC_SIZE.
Proof. intros Hok Hl. pose proof (chunk_size_bound es Hok). blia. Qed.

Definition example_request (e : entry) : buf :=
  poke (poke (new_buf BUF_SIZE) 0 (word CLERK_DONE)) RING_HEADER (entry_bytes e).

Lemma example_request_in e : record_ok e -> request_in (example_request e) e.
Proof.
  intros He. split; [done|]. split; [split|done].
  - apply holds_poke_ne; [left; vm_compute; congruence|]. apply holds_poke.
  - apply holds_poke.
Qed.

(** a record of the longest supported length *)
Definition long_entry : entry := Entry PUT (repeat x01 80) (repeat x01 4000).

Lemma long_entry_ok : record_ok long_entry.
Proof. apply (bool_decide_unpack (record_ok long_entry)). vm_compute. exact I. Qed.

Lemma long_request (w : nat) : exists m, Some (example_request long_entry) = Some m /\ request_in m long_entry.
Proof. exact (ex_intro _ _ (conj eq_refl (example_request_in long_entry long_entry_ok))). Qed.

Lemma BuildBatchGroup_spec_witness :
  BuildBatchGroup (fun _ => Some (example_request long_entry)) (seq 0 9)
    {| batch_length := 0; keys := []; metas := []; buffer := new_buf MAX_ASYNC_SIZE |} = Undefined.
Proof.
  refine (proj2 (BuildBatchGroup_spec (fun _ => Some (example_request long_entry)) (seq 0 9)
    (repeat long_entry 9) _ _ _) _).
  - change (seq 0 9) with [0; 1; 2; 3; 4; 5; 6; 7; 8]%nat. cbn [repeat].
    repeat (apply Forall2_cons; [apply (long_request 0)|]). apply Forall2_nil.
  - reflexivity.
  - vm_compute. reflexivity.
Defined.
