(* ===== verification/GroupOps.v ===== *)
(** * GroupOps: the specification of the group front end, and what each of its
    statements does to a connection

    The specification: stages of a call and the steps between them.  [conn_ok]
    ties a connection (buffers, program counters) to the stage of its call; one
    lemma per statement of the client and of the clerk. *)

From Stdlib.Strings Require Import Byte.
From S2P Require Import Prelude Buf Request Rdma Message DBType Records RingLog Group GroupQueue.

Inductive stage := Waiting | Batched | Finished (v : option bytes).

Record spec_state := Spec {
  stored : gmap bytes bytes; logged : list entry;
  unlogged : list nat; (* the writers of the batch that is stored and not in the log *)
  status : gmap nat (call * stage) }.

(** the record a call stores; a [DELETE] stores the empty value *)
Definition call_entry (r : call) : option entry :=
  match r with
  | CallWrite e => Some e
  | CallDelete key => Some (Entry DELETE key [])
  | _ => None
  end.

(** the records of the writers [ws] *)
Definition entries (σ : spec_state) (ws : list nat) : list entry :=
  omap (fun w => '(r, _) ← status σ !! w; call_entry r) ws.

Definition set_stage (g : stage) (w : nat) (m : gmap nat (call * stage)) : gmap nat (call * stage) :=
  alter (fun p => (p.1, g)) w m.
Definition set_stages (g : stage) (ws : list nat) (m : gmap nat (call * stage)) : gmap nat (call * stage) :=
  foldr (set_stage g) m ws.

(** does the result of a call agree with the answer of the specification *)
Definition result_of (r : call) (v : option bytes) (res : result) : Prop :=
  match r, res with
  | CallWrite _, Returned => True
  | CallGet _, Got v' => v' = v
  | CallDelete _, Deleted _ => True
  | _, _ => False
  end.

Inductive spec_step (σ : spec_state) : label -> spec_state -> Prop :=
  | spec_internal : spec_step σ Internal σ
  | spec_post i r :
      status σ !! i = None ->
      spec_step σ (Post i r) (Spec (stored σ) (logged σ) (unlogged σ) (<[i := (r, Waiting)]> (status σ)))
  | spec_get i key :
      status σ !! i = Some (CallGet key, Waiting) ->
      spec_step σ (Served i)
        (Spec (stored σ) (logged σ) (unlogged σ) (<[i := (CallGet key, Finished (stored σ !! key))]> (status σ)))
  | spec_close i :
      status σ !! i = Some (CallClose, Waiting) ->
      spec_step σ (Served i) (Spec (stored σ) (logged σ) (unlogged σ) (<[i := (CallClose, Finished None)]> (status σ)))
  | spec_store ws :
      NoDup ws -> ws <> [] -> unlogged σ = [] ->
      (forall w, w ∈ ws -> exists r e, status σ !! w = Some (r, Waiting) /\ call_entry r = Some e) ->
      spec_step σ (Stored ws)
        (Spec (insert_all (map kv (entries σ ws)) (stored σ)) (logged σ) ws (set_stages Batched ws (status σ)))
  | spec_log ws :
      unlogged σ = ws ->
      (forall w, w ∈ ws -> exists r e, status σ !! w = Some (r, Batched) /\ call_entry r = Some e) ->
      spec_step σ (Logged ws)
        (Spec (stored σ) (logged σ ++ entries σ ws) [] (set_stages (Finished None) ws (status σ)))
  | spec_return i r v res :
      status σ !! i = Some (r, Finished v) -> result_of r v res ->
      spec_step σ (Return i r res) (Spec (stored σ) (logged σ) (unlogged σ) (delete i (status σ))).

Inductive spec_steps : spec_state -> list label -> spec_state -> Prop :=
  | spec_nil σ : spec_steps σ [] σ
  | spec_snoc σ ls σ' l σ'' : spec_steps σ ls σ' -> spec_step σ' l σ'' -> spec_steps σ (ls ++ [l]) σ''.

Definition spec_start (m : gmap bytes bytes) : spec_state := Spec m [] [] ∅.

(** ** Lemmas *)

Lemma set_stages_lookup g ws m i :
  set_stages g ws m !! i = if decide (i ∈ ws) then (fun p => (p.1, g)) <$> m !! i else m !! i.
Proof.
  unfold set_stages. induction ws as [|w ws IH]; cbn [foldr].
  - by rewrite decide_False by apply not_elem_of_nil.
  - unfold set_stage at 1. destruct (decide (i = w)) as [->|Hi].
    + rewrite lookup_alter_eq, IH, (decide_True (P := w ∈ w :: ws)) by apply list_elem_of_here.
      destruct (decide (w ∈ ws)); [|done]. by destruct (m !! w).
    + rewrite lookup_alter_ne, IH by congruence.
      destruct (decide (i ∈ ws)) as [Hw|Hw].
      * rewrite decide_True; [done|]. by apply list_elem_of_further.
      * rewrite decide_False; [done|]. by intros [?|?]%elem_of_cons.
Qed.

(** the records only depend on the calls of the writers *)
Lemma entries_ext σ σ' ws :
  (forall w, w ∈ ws -> fst <$> status σ' !! w = fst <$> status σ !! w) -> entries σ' ws = entries σ ws.
Proof.
  intros Hs. unfold entries. induction ws as [|w ws IH]; [done|]. cbn [omap list_omap].
  assert (Hw := Hs w (list_elem_of_here _ _)).
  rewrite IH by (intros x Hx; apply Hs; by apply list_elem_of_further).
  destruct (status σ' !! w) as [[r g]|], (status σ !! w) as [[r' g']|]; simpl in *; try done. by injection Hw as ->.
Qed.

Lemma entries_app σ a b : entries σ (a ++ b) = entries σ a ++ entries σ b.
Proof. unfold entries. by rewrite omap_app. Qed.

Lemma entries_length σ ws : (length (entries σ ws) <= length ws)%nat.
Proof.
  unfold entries. induction ws as [|w ws IH]; [done|]. cbn [omap list_omap].
  destruct (_ ≫= _); simpl in *; lia.
Qed.

(** ** What the specification implies *)

Record spec_inv (m : gmap bytes bytes) (σ : spec_state) : Prop := {
  (* replaying the log, and the batch that is on its way to it, gives the map *)
  sv_replay : stored σ = insert_all (map kv (logged σ ++ entries σ (unlogged σ))) m;
  (* a finished call is in the log *)
  sv_logged : forall i r v e, status σ !! i = Some (r, Finished v) -> call_entry r = Some e -> e ∈ logged σ;
  sv_unlogged : forall i, i ∈ unlogged σ -> exists r e, status σ !! i = Some (r, Batched) /\ call_entry r = Some e }.

Lemma spec_inv_start m : spec_inv m (spec_start m).
Proof. split; try done. intros i Hi. by apply not_elem_of_nil in Hi. Qed.

(** a status that changes outside the batch on its way to the log *)
Lemma spec_inv_other m σ i st :
  spec_inv m σ -> (i ∈ unlogged σ -> False) -> (forall j, j <> i -> st !! j = status σ !! j) ->
  (forall r v e, st !! i = Some (r, Finished v) -> call_entry r = Some e -> e ∈ logged σ) ->
  spec_inv m (Spec (stored σ) (logged σ) (unlogged σ) st).
Proof.
  intros [S1 S2 S3] Hi Ho Hf. assert (Hne : forall w, w ∈ unlogged σ -> st !! w = status σ !! w).
  { intros w Hw. apply Ho. by intros ->. }
  split; simpl.
  - rewrite (entries_ext σ); [done|]. intros w Hw. simpl. by rewrite Hne.
  - intros j r v e. destruct (decide (j = i)) as [->|Hj]; [apply Hf|]. rewrite Ho by done. apply S2.
  - intros j Hj. rewrite Hne by done. auto.
Qed.

Lemma entry_in_entries σ ws w r g e :
  w ∈ ws -> status σ !! w = Some (r, g) -> call_entry r = Some e -> e ∈ entries σ ws.
Proof.
  intros Hw Hs He. unfold entries. apply list_elem_of_omap. exists w. split; [done|]. by rewrite Hs.
Qed.

Lemma spec_inv_step m σ l σ' : spec_inv m σ -> spec_step σ l σ' -> spec_inv m σ'.
Proof.
  intros HS Hs. pose proof HS as [S1 S2 S3].
  assert (Hnw : forall i r, status σ !! i = Some (r, Waiting) -> i ∈ unlogged σ -> False).
  { intros i r Hi Hu. destruct (S3 i Hu) as (r' & e & Hx & _). congruence. }
  destruct Hs as [|i r Hi|i key Hi|i Hi|ws Hn Hne Hu Hw|ws Hu Hw|i r v res Hi Hres].
  - done.
  - apply (spec_inv_other m σ i); try done.
    + intros Hx. destruct (S3 i Hx) as (? & ? & ? & _). congruence.
    + intros j Hj. by rewrite lookup_insert_ne.
    + intros r' v e. rewrite lookup_insert_eq. done.
  - apply (spec_inv_other m σ i); [done|by eapply Hnw| |].
    + intros j Hj. by rewrite lookup_insert_ne.
    + intros r' v e. rewrite lookup_insert_eq. by intros [= <- _].
  - apply (spec_inv_other m σ i); [done|by eapply Hnw| |].
    + intros j Hj. by rewrite lookup_insert_ne.
    + intros r' v e. rewrite lookup_insert_eq. by intros [= <- _].
  - assert (Ee : entries (Spec (insert_all (map kv (entries σ ws)) (stored σ)) (logged σ) ws (set_stages Batched ws (status σ))) ws
      = entries σ ws).
    { apply entries_ext. intros w Hx. simpl. rewrite set_stages_lookup, decide_True by done. by destruct (status σ !! w). }
    split; cbn [stored logged unlogged status].
    + rewrite Ee. rewrite S1, Hu. change (entries σ []) with (@nil entry). rewrite app_nil_r, map_app, insert_all_app. done.
    + intros i r v e. rewrite set_stages_lookup. destruct (decide (i ∈ ws)); [|apply S2].
      destruct (Hw i e0) as (? & ? & -> & _). by intros [= ].
    + intros i Hx. destruct (Hw i Hx) as (r & e & Es & He). exists r, e.
      by rewrite set_stages_lookup, decide_True, Es by done.
  - split; cbn [stored logged unlogged status].
    + change (entries _ []) with (@nil entry). by rewrite app_nil_r, S1, Hu.
    + intros i r v e. rewrite set_stages_lookup. destruct (decide (i ∈ ws)) as [Hx|Hx].
      * destruct (Hw i Hx) as (r' & e' & Es & He'). rewrite Es. simpl. intros [= <- _] He. rewrite He' in He.
        injection He as <-. apply elem_of_app. right. by eapply entry_in_entries.
      * intros Hs He. apply elem_of_app. left. by eapply S2.
    + intros i Hx. by apply not_elem_of_nil in Hx.
  - apply (spec_inv_other m σ i); try done.
    + intros Hx. destruct (S3 i Hx) as (? & ? & ? & _). congruence.
    + intros j Hj. by rewrite lookup_delete_ne.
    + intros r' v' e. by rewrite lookup_delete_eq.
Qed.

Lemma spec_inv_steps m ls σ : spec_steps (spec_start m) ls σ -> spec_inv m σ.
Proof.
  intros Hs. remember (spec_start m) as σ0 eqn:E. induction Hs; subst; [apply spec_inv_start|].
  by eapply spec_inv_step; [apply IHHs|].
Qed.

Definition call_op (r : call) : Operation :=
  match r with CallWrite e => e_op e | CallGet _ => GET | CallDelete _ => DELETE | CallClose => CLOSE end.

(** the message of a call *)
Definition call_record (r : call) : entry :=
  match r with
  | CallWrite e => e
  | CallGet key => Entry GET key []
  | CallDelete key => Entry DELETE key []
  | CallClose => Entry CLOSE [] []
  end.
Definition call_bytes (r : call) : bytes := entry_bytes (call_record r).

Definition reply_msg (st : Z) (v : bytes) : bytes := word st ++ word (blen v) ++ v.

(** the reply of a finished call; only a [GET] has one that matters *)
Definition reply_ok (r : call) (fin : option bytes) (st : Z) (v : bytes) : Prop :=
  0 <= st < 2 ^ 32 /\ 8 + blen v <= MAX_MESSAGE /\
  match r with CallGet _ => st = status_code (get_status fin) /\ v = default [] fin | _ => fin = None end.

(** the header word keeps the clerk in its spin *)
Definition quiet (k : GroupClerk) : Prop :=
  exists w, holds (gk_local k) 0 (word w) /\ 0 <= w < 2 ^ 32 /\ w <> CLIENT_DONE.

Definition phase_ok (c : GroupClient) (k : GroupClerk) (p : phase) (s : option (call * stage)) : Prop :=
  match p with
  | Ready => s = None /\ holds (local_buf_ c) 0 (word CLIENT_DONE) /\ quiet k
  | Posted r => s = Some (r, Waiting) /\ call_ok r /\ holds (local_buf_ c) 0 (word CLIENT_DONE) /\
      framed (gk_local k) CLIENT_DONE (call_bytes r)
  | Serving r PReply _ => holds (local_buf_ c) 0 (word CLIENT_DONE) /\
      exists fin st v, s = Some (r, Finished fin) /\ r <> CallClose /\ reply_ok r fin st v /\
        framed (gk_local k) CLERK_DONE (reply_msg st v)
  | Serving r p d => holds (local_buf_ c) 0 (word CLIENT_DONE) /\
      exists g e, s = Some (r, g) /\ call_entry r = Some e /\ record_ok e /\
        framed (gk_local k) CLERK_DONE (entry_bytes e) /\
        (p = PLock -> g = Waiting) /\ (d = true -> g = Finished None)
  | Answered r => quiet k /\
      exists fin st v, s = Some (r, Finished fin) /\ r <> CallClose /\ reply_ok r fin st v /\
        framed (local_buf_ c) CLERK_DONE (reply_msg st v)
  | Gone => s = Some (CallClose, Finished None)
  end.

Record conn_ok (cn : conn) (s : option (call * stage)) : Prop := {
  co_link : link (gc_ctx (cn_client cn)) (chost (cn_client cn)) (gk_ctx (cn_clerk cn)) (khost (cn_clerk cn));
  co_local : buf_size (local_buf_ (cn_client cn)) = BUF_SIZE;
  co_clerk : buf_size (gk_local (cn_clerk cn)) = BUF_SIZE;
  co_phase : phase_ok (cn_client cn) (cn_clerk cn) (cn_phase cn) s }.

Lemma size_msg_buf b : buf_size b = BUF_SIZE -> msg_buf b.
Proof. unfold msg_buf. intros ->. vm_compute. congruence. Qed.
#[export] Hint Resolve size_msg_buf : pmr.

(** new buffers of the same size at both ends *)
Lemma conn_ok_bufs c k p s b b' p' s' :
  conn_ok (Conn c k p) s -> buf_size b = BUF_SIZE -> buf_size b' = BUF_SIZE ->
  phase_ok (client_set c b) (clerk_set k b') p' s' ->
  conn_ok (Conn (client_set c b) (clerk_set k b') p') s'.
Proof.
  intros [L1 L2 L3 _] Hb Hb' Hp. split; try done. simpl in *. eapply link_sizes; [| |exact L1].
  - split; simpl; congruence.
  - split; simpl; congruence.
Qed.

Lemma client_set_id c : client_set c (local_buf_ c) = c.
Proof. by destruct c. Qed.
Lemma clerk_set_id k : clerk_set k (gk_local k) = k.
Proof. by destruct k. Qed.

Lemma conn_ok_phase c k p s p' s' :
  conn_ok (Conn c k p) s -> phase_ok c k p' s' -> conn_ok (Conn c k p') s'.
Proof. intros [L1 L2 L3 _] Hp. by split. Qed.

Lemma call_record_ok r : call_ok r -> record_ok (call_record r).
Proof.
  destruct r as [e|key|key|]; simpl.
  - tauto.
  - intros [H1 H2]. repeat split; [done|constructor|]. unfold entry_size. simpl. rewrite blen_nil. lia.
  - intros [H1 H2]. repeat split; [done|constructor|]. unfold entry_size. simpl. rewrite blen_nil. lia.
  - intros _. repeat split; [constructor..|]. vm_compute. congruence.
Qed.

Lemma key_request_record o key : key_request o key = entry_bytes (Entry o key []).
Proof. unfold key_request, entry_bytes, entry_head. simpl. by rewrite app_nil_r. Qed.

Section ops.
Context {DB : Type} `{DBTypeOk DB} `{Nic}.
Variable psend : send_wr -> Z.

(** *** The client posts *)

(** a request built in the client's buffer reaches the clerk *)
Lemma post_message_spec c k s r b :
  conn_ok (Conn c k Ready) s -> call_ok r -> buf_size b = BUF_SIZE -> framed b CLIENT_DONE (call_bytes r) ->
  exists b', post_message psend (client_set c b) k (entry_size (call_record r)) = Done (clerk_set k b') /\
    conn_ok (Conn (client_set c b) (clerk_set k b') (Posted r)) (Some (r, Waiting)).
Proof.
  intros HC Hr Hb Hf. pose proof (call_record_ok r Hr) as (_ & _ & Hsz). pose proof HC as [L1 L2 L3 _].
  assert (HL : link (gc_ctx c) (chost (client_set c b)) (gk_ctx k) (khost k)).
  { eapply link_sizes; [| |exact L1]; split; simpl in *; congruence. }
  destruct (link_message_write psend _ _ _ _ CLIENT_DONE (call_bytes r) (entry_size (call_record r)) HL)
    as (b1 & b2 & E1 & E2 & S2 & Hf2); [exact Hf|unfold call_bytes; by rewrite blen_entry| | | |].
  { pose proof (entry_size_pos (call_record r)). lia. }
  { by apply size_msg_buf. }
  { apply size_msg_buf. exact L3. }
  exists b2. split.
  - unfold post_message. step E1. step E2. done.
  - apply (conn_ok_bufs c k Ready s); [done|done|simpl in *; congruence|].
    split; [done|]. split; [done|]. split; [exact (proj1 Hf)|exact Hf2].
Qed.

Lemma post_spec c k r :
  conn_ok (Conn c k Ready) None -> call_ok r ->
  exists c' k', post psend r c k = Done (c', k') /\ conn_ok (Conn c' k' (Posted r)) (Some (r, Waiting)).
Proof.
  intros HC Hr. pose proof HC as [L1 L2 L3 (_ & Hw & _)]. simpl in L2, L3, Hw.
  pose proof (size_msg_buf _ L2) as Mb.
  destruct r as [e|key|key|]; simpl in Hr.
  - destruct (write_record_spec _ e _ Mb (proj1 Hr) Hw) as (b & E & Hs & Hf).
    destruct (post_message_spec c k None (CallWrite e) b HC Hr) as (b' & E2 & HC2); [congruence|exact Hf|].
    exists (client_set c b), (clerk_set k b'). split; [|done].
    simpl. unfold SendWrite_post. step E. rewrite record_len_spec by apply Hr. by step E2.
  - destruct (write_key_request_spec _ GET key _ Mb Hr Hw) as (b & E & Hs & Hf).
    rewrite key_request_record in Hf.
    destruct (post_message_spec c k None (CallGet key) b HC Hr) as (b' & E2 & HC2); [congruence|exact Hf|].
    exists (client_set c b), (clerk_set k b'). split; [|done].
    simpl. unfold SendGet_post, post_key_request. step E. rewrite key_request_len_spec by done.
    unfold entry_size in E2. simpl in E2. rewrite blen_nil, Z.add_0_r in E2. by step E2.
  - destruct (write_key_request_spec _ DELETE key _ Mb Hr Hw) as (b & E & Hs & Hf).
    rewrite key_request_record in Hf.
    destruct (post_message_spec c k None (CallDelete key) b HC Hr) as (b' & E2 & HC2); [congruence|exact Hf|].
    exists (client_set c b), (clerk_set k b'). split; [|done].
    simpl. unfold SendDelete_post, post_key_request. step E. rewrite key_request_len_spec by done.
    unfold entry_size in E2. simpl in E2. rewrite blen_nil, Z.add_0_r in E2. by step E2.
  - destruct (write_empty_request_spec _ CLOSE _ Mb Hw) as (b & E & Hs & Hf).
    rewrite key_request_record in Hf.
    destruct (post_message_spec c k None CallClose b HC I) as (b' & E2 & HC2); [congruence|exact Hf|].
    exists (client_set c b), (clerk_set k b'). split; [|done].
    simpl. unfold SendClose_post. step E. step E2.
    destruct (link_c _ _ _ _ L1) as (smr & wmr & sa & X1 & X2 & X3 & _).
    eapply bind_step; [|reflexivity]. unfold post_send, copy_msg, finish_post. simpl in *. by rewrite X1, X3.
Qed.

(** *** The clerk takes the message *)

Lemma take_spec c k r s :
  conn_ok (Conn c k (Posted r)) s ->
  exists b, take_message (gk_local k) = Done (b, put_request_of (call_record r)) /\
    buf_size b = BUF_SIZE /\ framed b CLERK_DONE (call_bytes r) /\
    op_of_code (op (put_request_of (call_record r))) = Some (call_op r).
Proof.
  intros [_ _ L3 (_ & Hr & _ & Hf)]. simpl in L3. pose proof (call_record_ok r Hr) as (_ & _ & Hsz).
  unfold call_bytes, entry_bytes, entry_head in Hf. rewrite <- app_assoc in Hf.
  destruct (take_record _ _ _ (size_msg_buf _ L3) Hsz Hf) as (b & E & Hs & Hf').
  exists b. split; [exact E|]. split; [congruence|]. split.
  - unfold call_bytes, entry_bytes, entry_head. by rewrite <- app_assoc.
  - cbn [put_request_of op]. rewrite op_of_op_code. by destruct r.
Qed.

Lemma enqueued_ok c k r s b :
  conn_ok (Conn c k (Posted r)) s -> call_op r <> CLOSE -> call_op r <> GET ->
  buf_size b = BUF_SIZE -> framed b CLERK_DONE (call_bytes r) ->
  conn_ok (Conn c (clerk_set k b) (Serving r PLock false)) s.
Proof.
  intros HC Ho1 Ho2 Hb Hf. pose proof HC as [_ L2 _ (-> & Hr & Hw & _)].
  rewrite <- (client_set_id c). apply (conn_ok_bufs c k (Posted r) (Some (r, Waiting))); [done|done|done|].
  rewrite client_set_id. split; [exact Hw|]. exists Waiting, (call_record r).
  split; [done|]. split; [by destruct r|]. split; [by apply call_record_ok|]. done.
Qed.

(** the answer to a [GET] *)
Lemma handle_get_spec c k key s db b v :
  conn_ok (Conn c k (Posted (CallGet key))) s ->
  buf_size b = BUF_SIZE -> framed b CLERK_DONE (call_bytes (CallGet key)) ->
  db_Get db key = Done v -> 8 + blen (default [] v) <= MAX_MESSAGE ->
  exists b', handle_get b (put_request_of (call_record (CallGet key))) db = Done b' /\
    conn_ok (Conn c (clerk_set k b') (Serving (CallGet key) PReply false)) (Some (CallGet key, Finished v)).
Proof.
  intros HC Hb Hf Hg Hv. pose proof HC as [_ L2 _ (-> & Hr & Hw & _)]. simpl in L2, Hr.
  pose proof (size_msg_buf _ Hb) as Mb. unfold call_bytes, call_record in Hf. rewrite <- key_request_record in Hf.
  assert (Hkey : key_at b (blen key) = Done key) by (eapply key_of_request; [done|exact Hf|apply Hr]).
  enough (exists b', handle_get b (put_request_of (Entry GET key [])) db = Done b' /\ buf_size b' = BUF_SIZE /\
    framed b' CLERK_DONE (reply_bytes (get_status v) (default [] v))) as (b' & E & Hs & Hf').
  { exists b'. split; [exact E|]. rewrite <- (client_set_id c).
    apply (conn_ok_bufs c k (Posted (CallGet key)) (Some (CallGet key, Waiting))); [done|done|done|].
    rewrite client_set_id. split; [exact Hw|]. exists v, (status_code (get_status v)), (default [] v).
    split; [done|]. split; [done|]. split; [|exact Hf']. split; [by destruct v|]. done. }
  unfold handle_get. cbn [put_request_of key_size e_key e_op e_val]. rewrite Hkey. cbn [mbind outcome_bind].
  rewrite Hg. cbn [mbind outcome_bind]. destruct v as [v|]; simpl in Hv.
  - destruct (write_reply_value b OK v _ Mb Hf Hv) as (x1 & x2 & X1 & X2 & X3 & X4).
    exists x2. rewrite X1. cbn [mbind outcome_bind].
    rewrite u32_small, blen_to_nat, take_ge by (blia || lia). rewrite X2. split; [done|]. split; [congruence|done].
  - unfold msg_buf in Mb. unfold set_status. rewrite bwrite32_word by blia.
    eexists. split; [done|]. split; [done|]. destruct Hf as [Hf1 Hf2]. split; [keep_word|].
    unfold key_request in Hf2. apply holds_app in Hf2 as [Hf2 _]. simpl. unfold reply_bytes. rewrite app_nil_r.
    apply holds_app. split; [apply holds_poke|]. apply holds_poke_ne; [rewrite !blen_word; lia|].
    rewrite blen_word. rewrite request_header_words in Hf2.
    apply holds_app in Hf2 as [_ Hf2]. rewrite blen_word in Hf2. exact Hf2.
Qed.

(** *** The replies *)

(** a follower's reply *)
Lemma done_spec c k r s :
  conn_ok (Conn c k (Serving r PLoop true)) s ->
  exists b, write_reply (gk_local k) OK 0 = Done b /\
    conn_ok (Conn c (clerk_set k b) (Serving r PReply true)) s.
Proof.
  intros HC. pose proof HC as [_ L2 L3 (Hw & g & e & -> & He & _ & Hf & _ & Hd)]. simpl in L2, L3.
  rewrite (Hd eq_refl) in *.
  destruct (write_reply_nil _ OK _ (size_msg_buf _ L3) Hf) as (b & E & Hs & Hf').
  exists b. split; [exact E|]. rewrite <- (client_set_id c).
  apply (conn_ok_bufs c k (Serving r PLoop true) (Some (r, Finished None))); [done|done|congruence|].
  rewrite client_set_id. split; [exact Hw|]. exists None, 0, []. split; [done|]. split; [by destruct r|].
  split; [|exact Hf']. split; [lia|]. split; [vm_compute; congruence|]. by destruct r.
Qed.

(** the leader's reply: nobody writes one, the request is sent back *)
Lemma echo_spec c k r p d s :
  conn_ok (Conn c k (Serving r p d)) s -> p <> PReply ->
  conn_ok (Conn c k (Serving r PReply d)) ((fun q => (q.1, Finished None)) <$> s).
Proof.
  intros HC Hp. pose proof HC as [_ _ _ Hph].
  assert (exists g e, s = Some (r, g) /\ call_entry r = Some e /\ record_ok e /\
    framed (gk_local k) CLERK_DONE (entry_bytes e) /\ holds (local_buf_ c) 0 (word CLIENT_DONE)) as
    (g & e & -> & He & (_ & _ & Hsz) & Hf & Hw).
  { destruct p; try done; destruct Hph as (Hw & g & e & ? & ? & ? & ? & _); by exists g, e. }
  eapply conn_ok_phase; [exact HC|]. split; [exact Hw|].
  exists None, (u8 (op_code (e_op e)) + 2 ^ 8 * u24 (blen (e_key e))),
    (take (length (e_val e)) (e_key e ++ e_val e)).
  assert (Hlen : blen (take (length (e_val e)) (e_key e ++ e_val e)) = blen (e_val e)).
  { unfold blen. rewrite length_take, length_app. lia. }
  split; [done|]. split; [by destruct r|]. split; [split; [|split]|].
  - unfold u8, u24. pose proof (Z.mod_pos_bound (op_code (e_op e)) (2 ^ 8) ltac:(lia)).
    pose proof (Z.mod_pos_bound (blen (e_key e)) (2 ^ 24) ltac:(lia)). pows. lia.
  - rewrite Hlen. blia.
  - by destruct r.
  - destruct Hf as [Hf1 Hf2]. split; [done|]. unfold reply_msg. rewrite Hlen, app_assoc.
    unfold entry_bytes, entry_head in Hf2. rewrite <- app_assoc, request_header_words in Hf2.
    rewrite u32_small in Hf2 by blia.
    apply holds_app in Hf2 as [F1 F2]. apply holds_app. split; [done|].
    rewrite <- (take_drop (length (e_val e)) (e_key e ++ e_val e)) in F2. by apply holds_app in F2 as [F2 _].
Qed.

Lemma group_reply_spec c k r d s :
  conn_ok (Conn c k (Serving r PReply d)) s ->
  exists c', send_reply psend k c = Done c' /\ conn_ok (Conn c' k (Answered r)) s.
Proof.
  intros HC. pose proof HC as [L1 L2 L3 (Hw & fin & st & v & -> & Hr & Hok & Hf)]. simpl in L1, L2, L3.
  pose proof Hok as (Hst & Hv & _). pose proof (blen_nonneg v) as Hv0.
  destruct (link_message_write psend _ _ _ _ CLERK_DONE (reply_msg st v) (8 + blen v) (link_sym _ _ _ _ L1))
    as (b1 & b2 & E1 & E2 & S2 & Hf2); [exact Hf|unfold reply_msg; rewrite !blen_app, !blen_word; lia|lia| | |].
  { apply size_msg_buf. exact L3. }
  { apply size_msg_buf. exact L2. }
  exists (client_set c b2). split.
  - unfold send_reply.
    assert (En : reply_val_size (gk_local k) RING_HEADER = Done (blen v)).
    { destruct Hf as [_ Hm]. unfold reply_msg in Hm. apply holds_app in Hm as [_ Hm]. apply holds_app in Hm as [Hm _].
      rewrite blen_word in Hm. unfold reply_val_size.
      unfold BUF_SIZE in L3. apply (holds_word _ _ _ Hm); [blia|blia|change (buf_size (gk_local k)) with (buf_size (h_write (khost k))); simpl; blia]. }
    step En. change (sizeof_RequestReply + blen v) with (8 + blen v). step E1. step E2. done.
  - rewrite <- (clerk_set_id k). simpl in S2.
    apply (conn_ok_bufs c k (Serving r PReply d) (Some (r, Finished fin))); [done|congruence|done|].
    rewrite clerk_set_id. split.
    + exists CLERK_DONE. split; [apply Hf|]. vm_compute. intuition congruence.
    + by exists fin, st, v.
Qed.

(** the client's code after its spin *)
Lemma finish_spec c k r v s :
  conn_ok (Conn c k (Answered r)) (Some (r, Finished v)) -> s = None ->
  exists c' res, finish r c = Done (c', res) /\ result_of r v res /\ conn_ok (Conn c' k Ready) s.
Proof.
  intros HC ->. pose proof HC as [L1 L2 L3 (Hq & fin & st & w & [= <-] & Hr & (Hst & Hv & Hok) & Hf)]. simpl in L2, L3.
  pose proof (size_msg_buf _ L2) as Mb. pose proof (blen_nonneg w) as Hw0.
  destruct (wait_reply_spec _ _ Mb Hf) as (b & E & Hs & Hf').
  assert (Mb' : msg_buf b) by (apply size_msg_buf; congruence).
  assert (HC' : conn_ok (Conn (client_set c b) k Ready) None).
  { rewrite <- (clerk_set_id k). eapply conn_ok_bufs; [exact HC|congruence|exact L3|].
    rewrite clerk_set_id. split; [done|]. split; [apply Hf'|done]. }
  assert (Ew : wait_clerk c = Done (client_set c b)) by (unfold wait_clerk; by step E).
  assert (Est : reply_status b RING_HEADER = Done st).
  { destruct Hf' as [_ Hm]. unfold reply_msg in Hm. apply holds_app in Hm as [Hm _]. unfold reply_status.
    unfold msg_buf in Mb'. apply (holds_word _ _ _ Hm); [blia|blia|blia]. }
  exists (client_set c b).
  destruct r as [e|key|key|]; [exists Returned|exists (Got v)|exists (Deleted (st =? status_code OK))|done].
  - split; [|done]. simpl. by step Ew.
  - split; [|done]. destruct Hok as [-> ->]. simpl. unfold SendGet_done.
    assert (Er : read_reply b = Done v).
    { rewrite (read_reply_spec b CLIENT_DONE (get_status v) (default [] v) Mb' Hf' Hv). by destruct v. }
    eapply bind_step; [step Ew; by step Er|]. done.
  - split; [|done]. simpl. unfold SendDelete_done. eapply bind_step; [step Ew; by step Est|]. done.
Qed.
End ops.
