(* ===== verification/GroupInv.v ===== *)
(** * GroupInv: the invariant of the group front end

    [group_inv] relates a state of the system to a state of the
    specification; every step keeps it, the specification following with the
    step's label. *)

From Stdlib.Strings Require Import Byte.
From S2P Require Import Prelude Buf Request Rdma Message DBType Records RingLog Group GroupQueue GroupOps.

(** the program counter of the front of the queue *)
Definition front (q : list nat) (t : nat -> thread) : option pc := w ← head q; '(p, _) ← t w; Some p.

(** the writers of the batch in flight and how far they are *)
Definition in_flight (f : option pc) (q : list nat) : list nat * stage :=
  match f with
  | Some (PLog l) => (upto l q, Batched)
  | Some (PRelock l) | Some (PMark l) => (upto l q, Finished None)
  | _ => ([], Waiting)
  end.
Definition stage_of (f : option pc) (q : list nat) (i : nat) : stage :=
  if decide (i ∈ (in_flight f q).1) then (in_flight f q).2 else Waiting.
Definition unlogged_of (f : option pc) (q : list nat) : list nat :=
  match f with Some (PLog l) => upto l q | _ => [] end.
(** ... and the batch, from its construction until it is in the log *)
Definition batch_of (f : option pc) (q : list nat) : option (list nat) :=
  match f with Some (PStore l) | Some (PLog l) => Some (upto l q) | _ => None end.

Definition thread_last (t : thread) : option nat := '(p, _) ← t; last_of p.

Section inv.
Context {DB : Type} `{DBTypeOk DB} `{Nic}.
Variable psend : send_wr -> Z.
Implicit Types (y : @sys DB) (σ : spec_state).

Record group_inv y σ : Prop := {
  gi_lock : lock_inv (global_mutex y) (writers_queue y) (threads (conns y));
  gi_conn : forall i cn, conns y !! i = Some cn -> conn_ok cn (status σ !! i);
  gi_none : forall i, conns y !! i = None -> status σ !! i = None;
  gi_stage : forall i, i ∈ writers_queue y -> exists r e,
    status σ !! i = Some (r, stage_of (front (writers_queue y) (threads (conns y))) (writers_queue y) i) /\
    call_entry r = Some e /\ record_ok e;
  gi_unlogged : unlogged σ = unlogged_of (front (writers_queue y) (threads (conns y))) (writers_queue y);
  gi_batch : forall ws, batch_of (front (writers_queue y) (threads (conns y))) (writers_queue y) = Some ws ->
    batch_holds (batch y) (entries σ ws);
  gi_buffer : buf_size (buffer (batch y)) = MAX_ASYNC_SIZE;
  gi_db : contents (db_ y) = stored σ;
  gi_vals : forall key v, stored σ !! key = Some v -> 8 + blen v <= MAX_MESSAGE;
  gi_log : log_holds (log_ y) (chunk_bytes (logged σ)) }.

(** *** One connection moves, the queue stays *)

Definition with_status σ (st : gmap nat (call * stage)) : spec_state :=
  Spec (stored σ) (logged σ) (unlogged σ) st.

Lemma front_same q t t' i :
  (forall j, j <> i -> t' j = t j) ->
  (head q = Some i -> thread_last (t i) = None /\ thread_last (t' i) = None) ->
  in_flight (front q t') q = in_flight (front q t) q /\
  unlogged_of (front q t') q = unlogged_of (front q t) q /\
  batch_of (front q t') q = batch_of (front q t) q.
Proof.
  intros Ho Hh. unfold front. destruct (head q) as [w|] eqn:E; [|done]. simpl.
  destruct (decide (w = i)) as [->|Hw]; [|by rewrite Ho].
  destruct (Hh eq_refl) as [X1 X2]. destruct (t i) as [[[] ?]|], (t' i) as [[[] ?]|]; done.
Qed.

Lemma inv_move y σ i cn m' st' :
  group_inv y σ ->
  lock_inv m' (writers_queue y) (threads (<[i := cn]> (conns y))) ->
  conn_ok cn (st' !! i) ->
  (head (writers_queue y) = Some i ->
     thread_last (threads (conns y) i) = None /\ thread_last (phase_thread (cn_phase cn)) = None) ->
  (i ∈ writers_queue y -> st' !! i = status σ !! i) ->
  (forall j, j <> i -> st' !! j = status σ !! j) ->
  group_inv (set_mutex (moved y i cn) m') (with_status σ st').
Proof.
  intros [G1 G2 G3 G4 G5 G6 G7 G8 G9 G10] HL HC Hh Hq Ho.
  destruct (front_same (writers_queue y) (threads (conns y)) (threads (<[i := cn]> (conns y))) i) as (F1 & F2 & F3).
  { intros j Hj. by rewrite threads_insert, decide_False. }
  { intros E. rewrite (threads_insert _ _ _ i), decide_True by done. by apply Hh. }
  assert (Hs : forall w, w ∈ writers_queue y -> st' !! w = status σ !! w).
  { intros w Hw. destruct (decide (w = i)) as [->|Hne]; auto. }
  split; simpl; try done.
  - intros j cn' Hj. destruct (decide (j = i)) as [->|Hne].
    + rewrite lookup_insert_eq in Hj. by injection Hj as <-.
    + rewrite lookup_insert_ne in Hj by done. rewrite Ho by done. auto.
  - intros j Hj. destruct (decide (j = i)) as [->|Hne].
    + by rewrite lookup_insert_eq in Hj.
    + rewrite lookup_insert_ne in Hj by done. rewrite Ho by done. auto.
  - intros j Hj. unfold stage_of. rewrite F1, Hs by done. by apply G4.
  - by rewrite F2.
  - intros ws Hws. rewrite F3 in Hws. rewrite (entries_ext σ); [auto|].
    intros w Hw. simpl. rewrite Hs; [done|].
    destruct (front _ _) as [[]|]; simpl in Hws; simplify_eq; by eapply upto_elem.
Qed.

(** the lock protocol for such a move *)
Lemma lock_move y i cn m' :
  lock_inv (global_mutex y) (writers_queue y) (threads (conns y)) ->
  let t := threads (conns y) i in let t' := phase_thread (cn_phase cn) in
  in_queue t' = in_queue t ->
  thread_ok (writers_queue y) i t' ->
  (m' = global_mutex y /\ has_mutex t' = has_mutex t \/
   m' = Some i /\ global_mutex y = None /\ has_mutex t' = true \/
   m' = None /\ has_mutex t = true /\ has_mutex t' = false) ->
  lock_inv m' (writers_queue y) (threads (<[i := cn]> (conns y))).
Proof.
  intros HL. cbv zeta. intros Hq Ht Hm.
  assert (Ho : forall j, j <> i -> threads (<[i := cn]> (conns y)) j = threads (conns y) j).
  { intros j Hj. by rewrite threads_insert, decide_False. }
  assert (Hi : threads (<[i := cn]> (conns y)) i = phase_thread (cn_phase cn)).
  { by rewrite threads_insert, decide_True. }
  eapply lock_inv_move; [exact HL|exact Ho|by rewrite Hi| |by rewrite Hi].
  destruct Hm as [[-> Hm]|[(-> & E & Hm)|(-> & E1 & E2)]].
  - eapply mutex_keep; [exact HL|exact Ho|by rewrite Hi].
  - rewrite E in HL. eapply mutex_take; [exact HL|exact Ho|by rewrite Hi].
  - eapply mutex_release; [exact HL|exact Ho|exact E1|by rewrite Hi].
Qed.

Lemma status_at y σ i cn : group_inv y σ -> conns y !! i = Some cn -> conn_ok cn (status σ !! i).
Proof. intros HI. apply HI. Qed.

Lemma thread_at y i c k p : conns y !! i = Some (Conn c k p) -> threads (conns y) i = phase_thread p.
Proof. intros Hi. unfold threads. by rewrite Hi. Qed.

(** a thread that is neither leading nor asleep *)
Lemma plain_thread_ok q i p d :
  leading p = false -> p <> PAsleep -> last_of p = None ->
  (d = true -> p = PWoken \/ p = PLoop \/ p = PReply) -> thread_ok q i (Some (p, d)).
Proof.
  intros X1 X2 X3 X4. split; simpl.
  - by rewrite X1.
  - by intros d' [= -> ->].
  - intros p' [= -> ->]. auto.
  - intros d' [= -> ->]. destruct d'; [|done]. destruct (X4 eq_refl) as [|[|]]; done.
  - intros p' d' l [= -> ->]. by rewrite X3.
Qed.
Lemma no_thread_ok q i : thread_ok q i None.
Proof. by split. Qed.

Lemma with_status_id σ : with_status σ (status σ) = σ.
Proof. by destruct σ. Qed.

(** *** A clerk changes its program counter only *)

Lemma serving_ok c k r p p' d s :
  conn_ok (Conn c k (Serving r p d)) s -> p <> PReply -> p' <> PReply -> p' <> PLock ->
  conn_ok (Conn c k (Serving r p' d)) s.
Proof.
  intros HC Hp Hp' Hl. eapply conn_ok_phase; [exact HC|]. pose proof (co_phase _ _ HC) as Hph.
  assert (Hph' : holds (local_buf_ c) 0 (word CLIENT_DONE) /\
      exists g e, s = Some (r, g) /\ call_entry r = Some e /\ record_ok e /\
        framed (gk_local k) CLERK_DONE (entry_bytes e) /\ (p' = PLock -> g = Waiting) /\ (d = true -> g = Finished None)).
  { destruct p; try done; destruct Hph as (Hw & g & e & X1 & X2 & X3 & X4 & X5 & X6);
      (split; [exact Hw|]); exists g, e; repeat (split; [done|]); done. }
  by destruct p'.
Qed.

Lemma inv_pc y σ i c k r p p' d m' :
  group_inv y σ -> conns y !! i = Some (Conn c k (Serving r p d)) ->
  p <> PReply -> p <> PLock -> p' <> PReply -> p' <> PLock -> last_of p = None -> last_of p' = None ->
  thread_ok (writers_queue y) i (Some (p', d)) ->
  (m' = global_mutex y /\ holding p' = holding p \/
   m' = Some i /\ global_mutex y = None /\ holding p' = true \/
   m' = None /\ holding p = true /\ holding p' = false) ->
  group_inv (set_mutex (moved y i (Conn c k (Serving r p' d))) m') σ.
Proof.
  intros HI Hi Hp1 Hp2 Hp1' Hp2' Hl Hl' Ht Hm. rewrite <- (with_status_id σ).
  assert (Eth : threads (conns y) i = Some (p, d)) by exact (thread_at y i _ _ _ Hi).
  apply inv_move; [done| |by eapply serving_ok; [eapply status_at|..]| |done|done].
  - apply lock_move; [apply HI|rewrite Eth|exact Ht|rewrite Eth; exact Hm].
    destruct p, p'; done.
  - intros _. rewrite Eth. done.
Qed.

(** *** The protocol's own steps *)

Lemma inv_lead y σ i c k r :
  group_inv y σ -> conns y !! i = Some (Conn c k (Serving r PLoop false)) -> head (writers_queue y) = Some i ->
  group_inv (set_mutex (moved y i (Conn c k (Serving r PWindow false))) None) σ.
Proof.
  intros HI Hi Hh. eapply inv_pc; try done; [|by right; right].
  split; try done; [by split; [|eexists]|by intros ? ? ? [= <- <-]].
Qed.

Lemma inv_sleep y σ i c k r :
  group_inv y σ -> conns y !! i = Some (Conn c k (Serving r PLoop false)) -> head (writers_queue y) <> Some i ->
  group_inv (set_mutex (moved y i (Conn c k (Serving r PAsleep false))) None) σ.
Proof.
  intros HI Hi Hh. eapply inv_pc; try done; [|by right; right].
  split; try done; [by intros d [= <-]|by intros ? ? ? [= <- <-]].
Qed.

Lemma inv_spurious y σ i c k r d :
  group_inv y σ -> conns y !! i = Some (Conn c k (Serving r PAsleep d)) ->
  group_inv (moved y i (Conn c k (Serving r PWoken d))) σ.
Proof.
  intros HI Hi. change (moved y i (Conn c k (Serving r PWoken d))) with
    (set_mutex (moved y i (Conn c k (Serving r PWoken d))) (global_mutex y)).
  eapply inv_pc; try done; [|by left]. apply plain_thread_ok; auto; done.
Qed.

Lemma inv_reacquire y σ i c k r d :
  group_inv y σ -> conns y !! i = Some (Conn c k (Serving r PWoken d)) -> global_mutex y = None ->
  group_inv (set_mutex (moved y i (Conn c k (Serving r PLoop d))) (Some i)) σ.
Proof.
  intros HI Hi Hm. eapply inv_pc; try done; [|by right; left]. apply plain_thread_ok; auto; done.
Qed.

Lemma leader_at y σ i c k r p d :
  group_inv y σ -> conns y !! i = Some (Conn c k (Serving r p d)) -> leading p = true ->
  head (writers_queue y) = Some i /\ d = false /\ i ∈ writers_queue y /\
  front (writers_queue y) (threads (conns y)) = Some p.
Proof.
  intros HI Hi Hl. pose proof (thread_at y i _ _ _ Hi) as Eth. simpl in Eth.
  pose proof (li_thread _ _ _ (gi_lock _ _ HI) i) as Ht. rewrite Eth in Ht.
  destruct (to_leads _ _ _ Ht Hl) as [Hh (p0 & [= _ ->])]. split; [done|]. split; [done|]. split.
  - destruct (writers_queue y); [done|]. injection Hh as ->. apply list_elem_of_here.
  - unfold front. rewrite Hh. simpl. by rewrite Eth.
Qed.

Lemma leading_ok q i p d :
  leading p = true -> head q = Some i -> d = false -> (forall l, last_of p = Some l -> l ∈ q) ->
  thread_ok q i (Some (p, d)).
Proof.
  intros Hl Hh -> Hlast. split; try done.
  - intros _. split; [done|by eexists].
  - intros d [= ->]. done.
  - intros d [= -> ->]. done.
  - intros p' d' l [= <- <-]. auto.
Qed.

Lemma inv_window y σ i c k r d :
  group_inv y σ -> conns y !! i = Some (Conn c k (Serving r PWindow d)) -> global_mutex y = None ->
  group_inv (set_mutex (moved y i (Conn c k (Serving r PBuild d))) (Some i)) σ.
Proof.
  intros HI Hi Hm. destruct (leader_at _ _ _ _ _ _ _ _ HI Hi eq_refl) as (Hh & -> & _ & _).
  eapply inv_pc; try done; [|by right; left]. by apply leading_ok.
Qed.

(** *** Steps outside the queue *)

(** a connection that is not in the queue before or after *)
Lemma inv_out y σ i cn m' st' :
  group_inv y σ -> conn_ok cn (st' !! i) ->
  in_queue (threads (conns y) i) = false -> in_queue (phase_thread (cn_phase cn)) = false ->
  thread_ok (writers_queue y) i (phase_thread (cn_phase cn)) ->
  (m' = global_mutex y /\ has_mutex (phase_thread (cn_phase cn)) = has_mutex (threads (conns y) i) \/
   m' = None /\ has_mutex (threads (conns y) i) = true /\ has_mutex (phase_thread (cn_phase cn)) = false) ->
  (forall j, j <> i -> st' !! j = status σ !! j) ->
  group_inv (set_mutex (moved y i cn) m') (with_status σ st').
Proof.
  intros HI HC Hq Hq' Ht Hm Ho.
  assert (Hni : i ∉ writers_queue y) by (rewrite (li_queue _ _ _ (gi_lock _ _ HI)), Hq; done).
  apply inv_move; try done.
  - apply lock_move; [apply HI|congruence|done|]. destruct Hm as [?|?]; [by left|by right; right].
  - intros Hh. destruct Hni. destruct (writers_queue y); [done|]. injection Hh as ->. apply list_elem_of_here.
Qed.

Lemma inv_out_same y σ i cn st' :
  group_inv y σ -> conn_ok cn (st' !! i) ->
  in_queue (threads (conns y) i) = false -> in_queue (phase_thread (cn_phase cn)) = false ->
  thread_ok (writers_queue y) i (phase_thread (cn_phase cn)) ->
  has_mutex (phase_thread (cn_phase cn)) = has_mutex (threads (conns y) i) ->
  (forall j, j <> i -> st' !! j = status σ !! j) ->
  group_inv (moved y i cn) (with_status σ st').
Proof. intros. apply (inv_out y σ i cn (global_mutex y)); auto. Qed.

Lemma inv_connect y σ i n c0 k c :
  group_inv y σ -> conns y !! i = None -> Connect n c0 = Done c ->
  c0 = make_client (gc_ctx c0) (gc_send c0) -> k = make_clerk (gk_ctx k) (gk_send k) ->
  link (gc_ctx c0) (chost c0) (gk_ctx k) (khost k) ->
  group_inv (moved y i (Conn c k Ready)) σ.
Proof.
  intros HI Hi Hc Ec Ek HL. rewrite <- (with_status_id σ).
  assert (Eth : threads (conns y) i = None) by (unfold threads; by rewrite Hi).
  unfold Connect in Hc. destruct (n =? -1); [done|]. rewrite Ec in Hc.
  rewrite bwrite32_word in Hc by (vm_compute; congruence). simpl in Hc. injection Hc as <-.
  apply inv_out_same; rewrite ?Eth; try done.
  rewrite (gi_none _ _ HI i Hi). split; simpl; try done.
  - eapply link_sizes; [| |exact HL]; [|done]. rewrite Ec. done.
  - rewrite Ek. done.
  - split; [done|]. split; [apply holds_poke|]. exists 0. rewrite Ek. split; [|vm_compute; intuition congruence].
    vm_compute. reflexivity.
Qed.

Lemma inv_post y σ i c k r c' k' :
  group_inv y σ -> conns y !! i = Some (Conn c k Ready) -> call_ok r -> post psend r c k = Done (c', k') ->
  spec_step σ (Post i r) (with_status σ (<[i := (r, Waiting)]> (status σ))) /\
  group_inv (moved y i (Conn c' k' (Posted r))) (with_status σ (<[i := (r, Waiting)]> (status σ))).
Proof.
  intros HI Hi Hr E. pose proof (status_at _ _ _ _ HI Hi) as HC.
  pose proof (thread_at y i _ _ _ Hi) as Eth. simpl in Eth.
  destruct (co_phase _ _ HC) as (Hs & _). rewrite Hs in HC.
  destruct (post_spec psend c k r HC Hr) as (c2 & k2 & E2 & HC2). rewrite E in E2. injection E2 as <- <-.
  split; [by apply spec_post|].
  apply inv_out_same; rewrite ?Eth; try done.
  - by rewrite lookup_insert_eq.
  - intros j Hj. by rewrite lookup_insert_ne.
Qed.

Lemma inv_take y σ i c k r b q :
  group_inv y σ -> conns y !! i = Some (Conn c k (Posted r)) -> take_message (gk_local k) = Done (b, q) ->
  op_of_code (op q) <> Some CLOSE -> op_of_code (op q) <> Some GET ->
  group_inv (moved y i (Conn c (clerk_set k b) (Serving r PLock false))) σ.
Proof.
  intros HI Hi E Ho1 Ho2. pose proof (status_at _ _ _ _ HI Hi) as HC.
  pose proof (thread_at y i _ _ _ Hi) as Eth. simpl in Eth.
  destruct (take_spec c k r _ HC) as (b' & E' & Hb & Hf & Eo). rewrite E in E'. injection E' as <- ->.
  rewrite Eo in Ho1, Ho2. rewrite <- (with_status_id σ). apply inv_out_same; rewrite ?Eth; try done.
  - apply (enqueued_ok c k r (status σ !! i)); congruence || done.
  - by apply plain_thread_ok.
Qed.

Lemma inv_get y σ i c k r b q b' :
  group_inv y σ -> conns y !! i = Some (Conn c k (Posted r)) -> take_message (gk_local k) = Done (b, q) ->
  op_of_code (op q) = Some GET -> handle_get b q (db_ y) = Done b' ->
  exists σ', spec_step σ (Served i) σ' /\ group_inv (moved y i (Conn c (clerk_set k b') (Serving r PReply false))) σ'.
Proof.
  intros HI Hi E Ho Eg. pose proof (status_at _ _ _ _ HI Hi) as HC.
  pose proof (thread_at y i _ _ _ Hi) as Eth. simpl in Eth.
  destruct (take_spec c k r _ HC) as (b2 & E' & Hb & Hf & Eo). rewrite E in E'. injection E' as <- ->.
  rewrite Ho in Eo. destruct r as [e|key|key|]; try done.
  { exfalso. destruct (co_phase _ _ HC) as (_ & (_ & [Hp|Hp]) & _); simpl in Eo; congruence. }
  pose proof (co_phase _ _ HC) as (Hs & Hk & _). simpl in Hk.
  assert (Hv : db_Get (db_ y) key = Done (stored σ !! key)).
  { rewrite <- (gi_db _ _ HI). destruct (contents (db_ y) !! key) as [v|] eqn:Ev; [by apply get_present|].
    destruct (get_missing (db_ y) key Ev) as [|Hthrow]; [done|]. exfalso. unfold handle_get in Eg.
    cbn [put_request_of call_record key_size e_key] in Eg.
    rewrite (key_of_request b CLERK_DONE GET key) in Eg; [|by apply size_msg_buf| |apply Hk].
    - cbn [mbind outcome_bind] in Eg. by rewrite Hthrow in Eg.
    - rewrite key_request_record. exact Hf. }
  destruct (handle_get_spec c k key _ (db_ y) b (stored σ !! key) HC Hb Hf Hv) as (b3 & E3 & HC3).
  { destruct (stored σ !! key) eqn:Ev; [by apply (gi_vals _ _ HI key)|vm_compute; congruence]. }
  rewrite Eg in E3. injection E3 as <-.
  exists (with_status σ (<[i := (CallGet key, Finished (stored σ !! key))]> (status σ))).
  split; [by apply spec_get|]. apply inv_out_same; rewrite ?Eth; try done.
  - by rewrite lookup_insert_eq.
  - by apply plain_thread_ok.
  - intros j Hj. by rewrite lookup_insert_ne.
Qed.

Lemma inv_close y σ i c k r b q :
  group_inv y σ -> conns y !! i = Some (Conn c k (Posted r)) -> take_message (gk_local k) = Done (b, q) ->
  op_of_code (op q) = Some CLOSE ->
  exists σ', spec_step σ (Served i) σ' /\ group_inv (moved y i (Conn c (clerk_set k b) Gone)) σ'.
Proof.
  intros HI Hi E Ho. pose proof (status_at _ _ _ _ HI Hi) as HC.
  pose proof (thread_at y i _ _ _ Hi) as Eth. simpl in Eth.
  destruct (take_spec c k r _ HC) as (b2 & E' & Hb & Hf & Eo). rewrite E in E'. injection E' as <- ->.
  rewrite Ho in Eo. pose proof (co_phase _ _ HC) as (Hs & Hr & _).
  destruct r as [e|key|key|]; try done.
  { exfalso. destruct Hr as (_ & [Hp|Hp]); simpl in Eo; congruence. }
  exists (with_status σ (<[i := (CallClose, Finished None)]> (status σ))). split; [by apply spec_close|].
  apply inv_out_same; rewrite ?Eth; try done.
  - rewrite lookup_insert_eq, <- (client_set_id c). eapply conn_ok_bufs; [exact HC|apply HC|done|done].
  - intros j Hj. by rewrite lookup_insert_ne.
Qed.

Lemma inv_done y σ i c k r b :
  group_inv y σ -> conns y !! i = Some (Conn c k (Serving r PLoop true)) -> write_reply (gk_local k) OK 0 = Done b ->
  group_inv (set_mutex (moved y i (Conn c (clerk_set k b) (Serving r PReply true))) None) σ.
Proof.
  intros HI Hi E. pose proof (status_at _ _ _ _ HI Hi) as HC.
  pose proof (thread_at y i _ _ _ Hi) as Eth. simpl in Eth.
  destruct (done_spec c k r _ HC) as (b' & E' & HC'). rewrite E in E'. injection E' as <-.
  rewrite <- (with_status_id σ). apply inv_out; rewrite ?Eth; try done.
  - apply plain_thread_ok; auto.
  - by right.
Qed.

Lemma inv_reply y σ i c k r d c' :
  group_inv y σ -> conns y !! i = Some (Conn c k (Serving r PReply d)) -> send_reply psend k c = Done c' ->
  group_inv (moved y i (Conn c' k (Answered r))) σ.
Proof.
  intros HI Hi E. pose proof (status_at _ _ _ _ HI Hi) as HC.
  pose proof (thread_at y i _ _ _ Hi) as Eth. simpl in Eth.
  destruct (group_reply_spec psend c k r d _ HC) as (c2 & E' & HC'). rewrite E in E'. injection E' as <-.
  rewrite <- (with_status_id σ). apply inv_out_same; rewrite ?Eth; try done.
Qed.

Lemma inv_return y σ i c k r c' res :
  group_inv y σ -> conns y !! i = Some (Conn c k (Answered r)) -> finish r c = Done (c', res) ->
  exists σ', spec_step σ (Return i r res) σ' /\ group_inv (moved y i (Conn c' k Ready)) σ'.
Proof.
  intros HI Hi E. pose proof (status_at _ _ _ _ HI Hi) as HC.
  pose proof (thread_at y i _ _ _ Hi) as Eth. simpl in Eth.
  destruct (co_phase _ _ HC) as (_ & fin & st & v & Hs & _). rewrite Hs in HC.
  destruct (finish_spec c k r fin None HC eq_refl) as (c2 & res' & E' & Hres & HC'). rewrite E in E'.
  injection E' as <- <-. exists (with_status σ (delete i (status σ))). split; [by eapply spec_return|].
  apply inv_out_same; rewrite ?Eth; try done.
  - by rewrite lookup_delete_eq.
  - intros j Hj. by rewrite lookup_delete_ne.
Qed.

(** *** A clerk enters the queue *)

Lemma front_last q t p l :
  (forall i, thread_ok q i (t i)) -> front q t = Some p -> last_of p = Some l -> l ∈ q.
Proof.
  intros Ht Hf Hl. unfold front in Hf. destruct (head q) as [w|] eqn:E; [|done]. simpl in Hf.
  destruct (t w) as [[p' d]|] eqn:Ew; [|done]. simpl in Hf. injection Hf as <-.
  by apply (to_last _ _ _ (Ht w) p' d).
Qed.

Lemma in_flight_snoc f q i :
  (forall p l, f = Some p -> last_of p = Some l -> l ∈ q) ->
  in_flight f (q ++ [i]) = in_flight f q /\ unlogged_of f (q ++ [i]) = unlogged_of f q /\
  batch_of f (q ++ [i]) = batch_of f q.
Proof.
  intros Hf. destruct f as [[]|]; simpl; try done; (rewrite upto_snoc; [done|]; by eapply Hf).
Qed.

Lemma in_flight_elem f q j : j ∈ (in_flight f q).1 -> j ∈ q.
Proof. destruct f as [[]|]; simpl; try (by intros ?%not_elem_of_nil); apply upto_elem. Qed.

Lemma inv_enter y σ i c k r d :
  group_inv y σ -> conns y !! i = Some (Conn c k (Serving r PLock d)) -> global_mutex y = None ->
  group_inv (set_queue (set_mutex (moved y i (Conn c k (Serving r PLoop false))) (Some i)) (writers_queue y ++ [i])) σ.
Proof.
  intros HI Hi Hm. pose proof HI as [G1 G2 G3 G4 G5 G6 G7 G8 G9 G10].
  pose proof (thread_at y i _ _ _ Hi) as Eth. simpl in Eth. pose proof (G2 _ _ Hi) as HC.
  assert (Ed : d = false) by (by apply (to_lock _ _ _ (li_thread _ _ _ G1 i))). subst d.
  assert (Hni : i ∉ writers_queue y) by (rewrite (li_queue _ _ _ G1), Eth; done).
  set (cs' := <[i := Conn c k (Serving r PLoop false)]> (conns y)).
  assert (Ho : forall j, j <> i -> threads cs' j = threads (conns y) j).
  { intros j Hj. unfold cs'. by rewrite threads_insert, decide_False. }
  assert (Hii : threads cs' i = Some (PLoop, false)) by (unfold cs'; by rewrite threads_insert, decide_True).
  pose proof (lock_inv_enter (writers_queue y) (threads (conns y)) (threads cs') i false) as HL.
  rewrite Hm in G1. specialize (HL G1 Eth Ho Hii). pose proof (li_thread _ _ _ G1) as Hto.
  assert (Hfront : in_flight (front (writers_queue y ++ [i]) (threads cs')) (writers_queue y ++ [i])
      = in_flight (front (writers_queue y) (threads (conns y))) (writers_queue y) /\
    unlogged_of (front (writers_queue y ++ [i]) (threads cs')) (writers_queue y ++ [i])
      = unlogged_of (front (writers_queue y) (threads (conns y))) (writers_queue y) /\
    batch_of (front (writers_queue y ++ [i]) (threads cs')) (writers_queue y ++ [i])
      = batch_of (front (writers_queue y) (threads (conns y))) (writers_queue y)).
  { destruct (head (writers_queue y)) as [w|] eqn:Eh.
    - assert (front (writers_queue y ++ [i]) (threads cs') = front (writers_queue y) (threads (conns y))) as ->.
      { unfold front. rewrite (head_snoc _ w), Eh by done. simpl. rewrite Ho; [done|].
        intros ->. by apply Hni, head_elem. }
      apply in_flight_snoc. intros p l Hp. by apply (front_last _ _ _ _ Hto Hp).
    - destruct (writers_queue y); [|done]. unfold front. simpl. by rewrite Hii. }
  destruct Hfront as (F1 & F2 & F3).
  assert (HC' : conn_ok (Conn c k (Serving r PLoop false)) (status σ !! i)).
  { eapply conn_ok_phase; [exact HC|]. destruct (co_phase _ _ HC) as (Hw & g & e & X1 & X2 & X3 & X4 & X5 & X6).
    split; [done|]. by exists g, e. }
  split; cbn [conns global_mutex writers_queue batch db_ log_ set_queue set_mutex moved set_conns]; fold cs'; try done.
  - intros j cn Hj. unfold cs' in Hj. destruct (decide (j = i)) as [->|Hne].
    + rewrite lookup_insert_eq in Hj. by injection Hj as <-.
    + rewrite lookup_insert_ne in Hj by done. auto.
  - intros j Hj. unfold cs' in Hj. destruct (decide (j = i)) as [->|Hne]; [by rewrite lookup_insert_eq in Hj|].
    rewrite lookup_insert_ne in Hj by done. auto.
  - intros j Hj. unfold stage_of. rewrite F1. apply elem_of_app in Hj as [Hj| ->%list_elem_of_singleton]; [by apply G4|].
    rewrite decide_False by (intros Hx; by apply Hni, (in_flight_elem _ _ _ Hx)).
    destruct (co_phase _ _ HC) as (_ & g & e & X1 & X2 & X3 & _ & X5 & _). exists r, e. rewrite X1, X5; done.
  - by rewrite F2.
  - intros ws Hws. apply G6. by rewrite <- F3.
Qed.

(** *** The leader works on its batch *)

Definition restage (g : stage) : option (call * stage) -> option (call * stage) := fmap (fun q => (q.1, g)).

Lemma restage_ok c k r p p' g s :
  conn_ok (Conn c k (Serving r p false)) s -> queued p = true -> queued p' = true ->
  conn_ok (Conn c k (Serving r p' false)) (restage g s).
Proof.
  intros HC Hp Hp'. eapply conn_ok_phase; [exact HC|]. pose proof (co_phase _ _ HC) as Hph.
  assert (Hph' : holds (local_buf_ c) 0 (word CLIENT_DONE) /\
      exists g0 e, s = Some (r, g0) /\ call_entry r = Some e /\ record_ok e /\
        framed (gk_local k) CLERK_DONE (entry_bytes e)).
  { destruct p; try done; destruct Hph as (Hw & g0 & e & X1 & X2 & X3 & X4 & _); (split; [exact Hw|]); by exists g0, e. }
  destruct Hph' as (Hw & g0 & e & -> & X2 & X3 & X4).
  destruct p'; try done; (split; [exact Hw|]); exists g, e; done.
Qed.

Lemma in_queue_conn y σ j :
  group_inv y σ -> j ∈ writers_queue y ->
  exists c k r p, conns y !! j = Some (Conn c k (Serving r p false)) /\ queued p = true.
Proof.
  intros HI Hj. apply (li_queue _ _ _ (gi_lock _ _ HI)) in Hj. unfold threads in Hj.
  destruct (conns y !! j) as [[c k []]|]; try done. simpl in Hj. apply andb_true_iff in Hj as [Hp Hd].
  destruct done; [done|]. by exists c, k, r, p.
Qed.

Lemma inv_leader y σ i c k r p p' d l m' b' db' log' σ' :
  group_inv y σ -> conns y !! i = Some (Conn c k (Serving r p d)) -> leading p = true -> leading p' = true ->
  last_of p' = Some l -> l ∈ writers_queue y ->
  (m' = global_mutex y /\ holding p' = holding p \/
   m' = Some i /\ global_mutex y = None /\ holding p' = true \/
   m' = None /\ holding p = true /\ holding p' = false) ->
  (forall j, j ∈ writers_queue y ->
     status σ' !! j = restage (stage_of (Some p') (writers_queue y) j) (status σ !! j)) ->
  (forall j, j ∉ writers_queue y -> status σ' !! j = status σ !! j) ->
  unlogged σ' = unlogged_of (Some p') (writers_queue y) ->
  (forall ws, batch_of (Some p') (writers_queue y) = Some ws -> batch_holds b' (entries σ ws)) ->
  buf_size (buffer b') = MAX_ASYNC_SIZE -> contents db' = stored σ' ->
  (forall key v, stored σ' !! key = Some v -> 8 + blen v <= MAX_MESSAGE) ->
  log_holds log' (chunk_bytes (logged σ')) ->
  group_inv (Sys (<[i := Conn c k (Serving r p' d)]> (conns y)) m' (writers_queue y) b' db' log') σ'.
Proof.
  intros HI Hi Hp Hp' Hl Hlq Hm Hst Hso Hun Hb Hbs Hdb Hv Hlog.
  destruct (leader_at _ _ _ _ _ _ _ _ HI Hi Hp) as (Hh & -> & Hiq & Hf).
  pose proof HI as [G1 G2 G3 G4 G5 G6 G7 G8 G9 G10].
  pose proof (thread_at y i _ _ _ Hi) as Eth. simpl in Eth.
  set (cs' := <[i := Conn c k (Serving r p' false)]> (conns y)).
  assert (Hf' : front (writers_queue y) (threads cs') = Some p').
  { unfold front. rewrite Hh. simpl. unfold cs'. by rewrite threads_insert, decide_True. }
  split; cbn [conns global_mutex writers_queue batch db_ log_]; try done.
  - apply lock_move; [done|rewrite Eth; simpl; by destruct p, p'| |by rewrite Eth].
    apply leading_ok; try done. intros l' Hl'. rewrite Hl in Hl'. by injection Hl' as <-.
  - intros j cn Hj. unfold cs' in Hj. destruct (decide (j ∈ writers_queue y)) as [Hjq|Hjq].
    + destruct (in_queue_conn y σ j HI Hjq) as (cj & kj & rj & pj & Ej & Hqj). rewrite (Hst j Hjq).
      destruct (decide (j = i)) as [->|Hne].
      * rewrite lookup_insert_eq in Hj. injection Hj as <-.
        apply (restage_ok c k r p); [by apply G2|by destruct p|by destruct p'].
      * rewrite lookup_insert_ne in Hj by done. rewrite Ej in Hj. injection Hj as <-.
        apply (restage_ok cj kj rj pj); [by apply G2|done|done].
    + rewrite (Hso j Hjq). apply G2. rewrite lookup_insert_ne in Hj; [done|]. by intros ->.
  - intros j Hj. unfold cs' in Hj. destruct (decide (j = i)) as [->|Hne]; [by rewrite lookup_insert_eq in Hj|].
    rewrite lookup_insert_ne in Hj by done. rewrite Hso; [auto|].
    intros Hjq. destruct (in_queue_conn y σ j HI Hjq) as (? & ? & ? & ? & Ej & _). congruence.
  - intros j Hj. rewrite Hf', (Hst j Hj). destruct (G4 j Hj) as (rj & ej & -> & He). by exists rj, ej.
  - by rewrite Hf'.
  - intros ws Hws. rewrite Hf' in Hws. rewrite (entries_ext σ); [auto|].
    intros w Hw. rewrite Hst; [by destruct (status σ !! w)|].
    destruct p'; simpl in Hws; simplify_eq; by eapply upto_elem.
Qed.
End inv.
