(* ===== verification/GroupRefine.v ===== *)
(** * GroupRefine: the group front end implements its specification

    The leader's steps, then the theorems: every run of the system is a run of
    the specification; mutual exclusion and one leader; no lost wake-up; and
    progress. *)

From Stdlib.Strings Require Import Byte.
From S2P Require Import Prelude Buf Request Rdma Message DBType Records RingLog Group GroupQueue GroupOps GroupInv.

Section refine.
Context {DB : Type} `{DBTypeOk DB} `{Nic}.
Variable psend : send_wr -> Z.
Implicit Types (y : @sys DB) (σ : spec_state).

(** *** [BuildBatchGroup] *)

(** the requests of the queue are in their buffers *)
Lemma queue_requests y σ q :
  group_inv y σ -> (forall w, w ∈ q -> w ∈ writers_queue y) ->
  Forall2 (fun w e => exists m, requests y w = Some m /\ request_in m e) q (entries σ q) /\
  Forall record_ok (entries σ q) /\ length (entries σ q) = length q.
Proof.
  intros HI. induction q as [|w q IH]; intros Hq; [done|].
  destruct IH as (I1 & I2 & I3); [intros x Hx; apply Hq; by apply list_elem_of_further|].
  assert (Hw : w ∈ writers_queue y) by (apply Hq, list_elem_of_here).
  destruct (gi_stage _ _ HI w Hw) as (r & e & Es & He & Hok).
  destruct (in_queue_conn y σ w HI Hw) as (c & k & r' & p & Ew & Hp).
  pose proof (gi_conn _ _ HI _ _ Ew) as HC.
  assert (Ee : entries σ (w :: q) = e :: entries σ q).
  { unfold entries. cbn [omap list_omap]. rewrite Es. cbn [mbind option_bind]. by rewrite He. }
  rewrite Ee. split; [|split; [by constructor|simpl; by rewrite I3]].
  constructor; [|done]. exists (gk_local k). split; [unfold requests; by rewrite Ew|].
  split; [apply HC|]. split; [|done]. pose proof (co_phase _ _ HC) as Hph.
  assert (Hf : exists g e', status σ !! w = Some (r', g) /\ call_entry r' = Some e' /\
    framed (gk_local k) CLERK_DONE (entry_bytes e')).
  { destruct p; try done; destruct Hph as (_ & g & e' & X1 & X2 & _ & X4 & _); by exists g, e'. }
  destruct Hf as (g & e' & X1 & X2 & X3). rewrite Es in X1. injection X1 as -> <-. rewrite He in X2. by injection X2 as <-.
Qed.

Lemma entries_take σ n q : length (entries σ q) = length q -> entries σ (take n q) = take n (entries σ q).
Proof.
  revert n; induction q as [|w q IH]; intros n Hl; [by destruct n|]. destruct n as [|n]; [done|].
  unfold entries in *. cbn [take omap list_omap] in *. pose proof (entries_length σ q) as Hle. unfold entries in Hle.
  destruct (_ ≫= _) as [e|]; simpl in *; [|lia]. f_equal. apply IH. lia.
Qed.

(** what the leader gets when the batch is built *)
Lemma build_spec y σ b last :
  group_inv y σ -> BuildBatchGroup (requests y) (writers_queue y) (batch y) = Done (b, Some last) ->
  last ∈ writers_queue y /\ batch_holds b (entries σ (upto last (writers_queue y))).
Proof.
  intros HI E. set (q := writers_queue y) in *.
  destruct (queue_requests y σ q HI (fun w Hw => Hw)) as (HF & _ & Hlen).
  destruct (BuildBatchGroup_spec _ _ _ (batch y) HF (gi_buffer _ _ HI)) as [S1 S2].
  set (n := batch_count 0 (entries σ q)) in *.
  destruct (Z_le_gt_dec (chunk_size (take n (entries σ q))) MAX_ASYNC_SIZE) as [Hle|Hgt].
  2: { rewrite S2 in E by lia. done. }
  destruct (S1 Hle) as (b' & E' & Hb). rewrite E in E'. injection E' as <- Hlast.
  symmetry in Hlast. rewrite last_Some in Hlast. destruct Hlast as [pre Hpre].
  assert (Eq : q = pre ++ [last] ++ drop n q).
  { rewrite app_assoc, <- Hpre. by rewrite take_drop. }
  assert (Hup : upto last q = take n q).
  { rewrite Hpre. pose proof (li_nodup _ _ _ (gi_lock _ _ HI)) as N. fold q in N. rewrite Eq in N.
    rewrite Eq at 1. by apply upto_prefix. }
  split.
  - rewrite Eq. apply elem_of_app. right. apply list_elem_of_here.
  - by rewrite Hup, entries_take.
Qed.

Lemma stage_restage y σ j f :
  group_inv y σ -> j ∈ writers_queue y ->
  stage_of f (writers_queue y) j = stage_of (front (writers_queue y) (threads (conns y))) (writers_queue y) j ->
  status σ !! j = restage (stage_of f (writers_queue y) j) (status σ !! j).
Proof. intros HI Hj ->. by destruct (gi_stage _ _ HI j Hj) as (r & e & -> & _). Qed.

Lemma inv_build y σ i c k r d b last :
  group_inv y σ -> conns y !! i = Some (Conn c k (Serving r PBuild d)) ->
  BuildBatchGroup (requests y) (writers_queue y) (batch y) = Done (b, Some last) ->
  group_inv (set_batch (set_mutex (moved y i (Conn c k (Serving r (PStore last) d))) None) b) σ.
Proof.
  intros HI Hi E. destruct (build_spec y σ b last HI E) as [Hl Hb].
  destruct (leader_at _ _ _ _ _ _ _ _ HI Hi eq_refl) as (Hh & -> & Hiq & Hf).
  apply (inv_leader y σ i c k r PBuild (PStore last) false last None b (db_ y) (log_ y) σ); try done; try apply HI.
  - right; right. done.
  - intros j Hj. apply stage_restage; [done|done|]. by rewrite Hf.
  - rewrite (gi_unlogged _ _ HI), Hf. done.
  - intros ws [= <-]. done.
  - apply Hb.
Qed.

Lemma inv_relock y σ i c k r d last :
  group_inv y σ -> conns y !! i = Some (Conn c k (Serving r (PRelock last) d)) -> global_mutex y = None ->
  group_inv (set_mutex (moved y i (Conn c k (Serving r (PMark last) d))) (Some i)) σ.
Proof.
  intros HI Hi Hm. destruct (leader_at _ _ _ _ _ _ _ _ HI Hi eq_refl) as (Hh & -> & Hiq & Hf).
  assert (Hl : last ∈ writers_queue y) by (by eapply front_last; [apply HI|exact Hf|]).
  apply (inv_leader y σ i c k r (PRelock last) (PMark last) false last (Some i) (batch y) (db_ y) (log_ y) σ);
    try done; try apply HI.
  - by right; left.
  - intros j Hj. apply stage_restage; [done|done|]. by rewrite Hf.
  - rewrite (gi_unlogged _ _ HI), Hf. done.
Qed.

(** *** The batch is stored, then logged *)

(** the stages of the writers of the batch *)
Lemma group_status y σ i c k r p l g :
  group_inv y σ -> conns y !! i = Some (Conn c k (Serving r p false)) -> last_of p = Some l ->
  in_flight (Some p) (writers_queue y) = (upto l (writers_queue y), g) \/
    (in_flight (Some p) (writers_queue y) = ([], Waiting) /\ g = Waiting) ->
  leading p = true ->
  l ∈ writers_queue y /\ NoDup (upto l (writers_queue y)) /\ upto l (writers_queue y) <> [] /\
  forall w, w ∈ upto l (writers_queue y) -> exists r e, status σ !! w = Some (r, g) /\ call_entry r = Some e.
Proof.
  intros HI Hi Hl Hfl Hp. destruct (leader_at _ _ _ _ _ _ _ _ HI Hi Hp) as (Hh & _ & Hiq & Hf).
  split; [by eapply front_last; [apply HI|exact Hf|]|]. split; [|split].
  - pose proof (li_nodup _ _ _ (gi_lock _ _ HI)) as N. set (q := writers_queue y) in *. clearbody q.
    clear -N. by apply upto_NoDup.
  - pose proof (head_upto l _ _ Hh) as Hx. intros E. rewrite E in Hx. by apply not_elem_of_nil in Hx.
  - intros w Hw. destruct (gi_stage _ _ HI w (upto_elem _ _ _ Hw)) as (rw & ew & Es & He & _).
    exists rw, ew. split; [|done]. rewrite Es, Hf. unfold stage_of.
    destruct Hfl as [-> |[-> ->]]; cbn [fst snd]; [by rewrite decide_True|].
    by rewrite decide_False by apply not_elem_of_nil.
Qed.

(** the outcome of [set_stages] on the writers of the queue *)
Lemma set_stages_restage y σ g f ws j :
  group_inv y σ -> j ∈ writers_queue y -> in_flight f (writers_queue y) = (ws, g) ->
  (j ∉ ws -> stage_of (front (writers_queue y) (threads (conns y))) (writers_queue y) j = Waiting) ->
  set_stages g ws (status σ) !! j = restage (stage_of f (writers_queue y) j) (status σ !! j).
Proof.
  intros HI Hj Hf Hw. rewrite set_stages_lookup. unfold stage_of. rewrite Hf. simpl.
  destruct (decide (j ∈ ws)) as [Hx|Hx]; [done|].
  destruct (gi_stage _ _ HI j Hj) as (r & e & -> & _). by rewrite (Hw Hx).
Qed.

Lemma inv_store y σ i c k r d last db' ok :
  group_inv y σ -> conns y !! i = Some (Conn c k (Serving r (PStore last) d)) ->
  db_PutBatch (db_ y) (keys (batch y)) (metas (batch y)) (peek (buffer (batch y)) 0 (Z.to_nat MAX_ASYNC_SIZE))
    (batch_length (batch y)) = Done (db', ok) ->
  exists σ', spec_step σ (Stored (upto last (writers_queue y))) σ' /\
    group_inv (set_db (moved y i (Conn c k (Serving r (PLog last) d))) db') σ'.
Proof.
  intros HI Hi E. destruct (leader_at _ _ _ _ _ _ _ _ HI Hi eq_refl) as (Hh & -> & Hiq & Hf).
  set (ws := upto last (writers_queue y)).
  destruct (group_status y σ i c k r (PStore last) last Waiting HI Hi eq_refl) as (Hl & Hn & Hne & Hst); [by right|done|].
  assert (Hb : batch_holds (batch y) (entries σ ws)) by (apply (gi_batch _ _ HI); by rewrite Hf).
  destruct (queue_requests y σ ws HI (upto_elem last _)) as (_ & Hok & _).
  assert (Hup : batch_pairs (keys (batch y)) (metas (batch y)) (peek (buffer (batch y)) 0 (Z.to_nat MAX_ASYNC_SIZE))
    = Done (map kv (entries σ ws))).
  { apply batch_holds_pairs; [done|done|]. rewrite Z2Nat.id; [lia|done]. }
  destruct (put_batch_ok (db_ y) _ _ _ (batch_length (batch y)) _ Hup) as (db2 & E2 & Hc).
  rewrite E in E2. injection E2 as <- ->.
  exists (Spec (insert_all (map kv (entries σ ws)) (stored σ)) (logged σ) ws (set_stages Batched ws (status σ))).
  split.
  { apply spec_store; [done|done| |done]. by rewrite (gi_unlogged _ _ HI), Hf. }
  apply (inv_leader y σ i c k r (PStore last) (PLog last) false last (global_mutex y) (batch y) db' (log_ y)); try done.
  - by left.
  - intros j Hj. apply (set_stages_restage y σ Batched (Some (PLog last)) ws j HI Hj eq_refl).
    intros _. rewrite Hf. done.
  - intros j Hj. simpl. rewrite set_stages_lookup, decide_False; [done|]. intros Hx%upto_elem. done.
  - intros ws' [= <-]. done.
  - apply HI.
  - simpl. rewrite Hc, (gi_db _ _ HI). done.
  - simpl. intros key v Hv. enough (blen v <= MAX_MESSAGE - 8) by lia. revert key v Hv.
    apply insert_all_bound; [|intros key v Hv; pose proof (gi_vals _ _ HI key v Hv); lia].
    apply Forall_map. eapply list.Forall_impl; [exact Hok|]. intros e (_ & _ & He). simpl. blia.
  - apply HI.
Qed.

Lemma inv_log y σ i c k r d last bs spurious :
  group_inv y σ -> conns y !! i = Some (Conn c k (Serving r (PLog last) d)) ->
  bread (buffer (batch y)) 0 (batch_length (batch y)) = Done bs ->
  exists σ', spec_step σ (Logged (upto last (writers_queue y))) σ' /\
    group_inv (set_log (moved y i (Conn c k (Serving r (PRelock last) d))) (PutBatch spurious (log_ y) bs)) σ'.
Proof.
  intros HI Hi E. destruct (leader_at _ _ _ _ _ _ _ _ HI Hi eq_refl) as (Hh & -> & Hiq & Hf).
  set (ws := upto last (writers_queue y)).
  destruct (group_status y σ i c k r (PLog last) last Batched HI Hi eq_refl) as (Hl & Hn & Hne & Hst); [by left|done|].
  assert (Hb : batch_holds (batch y) (entries σ ws)) by (apply (gi_batch _ _ HI); by rewrite Hf).
  assert (Hun : unlogged σ = ws) by (by rewrite (gi_unlogged _ _ HI), Hf).
  assert (Ebs : bs = chunk_bytes (entries σ ws)).
  { rewrite (bh_length _ _ Hb) in E. unfold chunk_size in E. rewrite (holds_bread _ _ _ (bh_buffer _ _ Hb)) in E.
    - by injection E.
    - lia.
    - pose proof (bh_fits _ _ Hb) as Hfit. rewrite (bh_size _ _ Hb). unfold chunk_size in Hfit. lia. }
  exists (Spec (stored σ) (logged σ ++ entries σ ws) [] (set_stages (Finished None) ws (status σ))).
  split; [by apply spec_log|].
  apply (inv_leader y σ i c k r (PLog last) (PRelock last) false last (global_mutex y) (batch y) (db_ y)); try done.
  - by left.
  - intros j Hj. apply (set_stages_restage y σ (Finished None) (Some (PRelock last)) ws j HI Hj eq_refl).
    intros Hx. rewrite Hf. unfold stage_of. simpl. by rewrite decide_False.
  - intros j Hj. simpl. rewrite set_stages_lookup, decide_False; [done|]. intros Hx%upto_elem. done.
  - apply HI.
  - apply HI.
  - apply HI.
  - simpl. rewrite chunk_bytes_app, Ebs. apply PutBatch_holds; [|apply HI].
    destruct ws as [|w ws'] eqn:Ews; [done|]. rewrite <- Ews in *.
    destruct (queue_requests y σ ws HI (upto_elem last _)) as (_ & _ & Hlen).
    destruct (entries σ ws) as [|e es]; [by rewrite Ews in Hlen|]. intros Hnil.
    pose proof (chunk_size_cons e es) as Hcs. unfold chunk_size at 1 in Hcs. rewrite Hnil in Hcs.
    pose proof (chunk_size_nonneg es). pose proof (entry_size_pos e). change (blen []) with 0 in Hcs. lia.
Qed.

(** *** The leader marks its batch *)

Lemma mark_done_ok c k r p s :
  conn_ok (Conn c k (Serving r p false)) s -> p = PAsleep \/ p = PWoken -> (exists r' , s = Some (r', Finished None)) ->
  conn_ok (mark_done (Conn c k (Serving r p false))) s.
Proof.
  intros HC Hp (r' & ->). eapply conn_ok_phase; [exact HC|]. pose proof (co_phase _ _ HC) as Hph. simpl.
  destruct Hp as [-> | ->]; destruct Hph as (Hw & g & e & [= -> <-] & X2 & X3 & X4 & _);
    (split; [exact Hw|]); by exists (Finished None), e.
Qed.

Lemma signal_ok c k r p d s :
  conn_ok (Conn c k (Serving r p d)) s -> conn_ok (signal (Conn c k (Serving r p d))) s.
Proof.
  intros HC. destruct p; try exact HC. unfold signal. simpl. by eapply serving_ok.
Qed.

Lemma waiting_conn cs q i j :
  lock_inv (Some i) q (threads cs) -> head q = Some i -> j <> i -> j ∈ q ->
  exists c k r p, cs !! j = Some (Conn c k (Serving r p false)) /\ (p = PAsleep \/ p = PWoken).
Proof.
  intros HL Hh Hj Hq. pose proof (followers_wait _ _ _ HL Hh j Hj Hq) as Hw. unfold threads in Hw.
  destruct (cs !! j) as [[c k [|?|r p d|?|]]|]; simpl in Hw; try (by destruct Hw).
  exists c, k, r, p. destruct Hw as [[= -> ->]|[= -> ->]]; auto.
Qed.

Lemma inv_mark y σ i c k r d last q cs :
  group_inv y σ -> conns y !! i = Some (Conn c k (Serving r (PMark last) d)) ->
  mark_loop i last (writers_queue y) (conns y) = Done (q, cs) ->
  group_inv (set_queue (set_mutex
    (set_conns y (<[i := Conn c k (Serving r PReply d)]> (notify_front q cs))) None) q) σ.
Proof.
  intros HI Hi E. destruct (leader_at _ _ _ _ _ _ _ _ HI Hi eq_refl) as (Hh & -> & Hiq & Hf).
  assert (Hl : last ∈ writers_queue y) by (by eapply front_last; [apply HI|exact Hf|]).
  destruct (mark_loop_spec i last (writers_queue y) (conns y) Hl) as (q' & E' & Eq).
  rewrite E in E'. injection E' as <- ->. set (ws := upto last (writers_queue y)) in *.
  pose proof HI as [G1 G2 G3 G4 G5 G6 G7 G8 G9 G10].
  pose proof (thread_at y i _ _ _ Hi) as Eth. simpl in Eth.
  assert (Hm : global_mutex y = Some i) by (apply (li_mutex _ _ _ G1); by rewrite Eth).
  rewrite Hm in G1. set (cn := Conn c k (Serving r PReply false)).
  set (cs' := <[i := cn]> (notify_front q (marked i ws (conns y)))).
  pose proof (head_upto last _ _ Hh) as Hiw. fold ws in Hiw.
  pose proof (threads_after_mark (conns y) _ q i ws cn G1 Hh Eq Hiw eq_refl) as HT.
  pose proof (upto_NoDup last _ (li_nodup _ _ _ G1)) as Hn. fold ws in Hn.
  assert (Hst : forall j, j ∈ ws -> exists r', status σ !! j = Some (r', Finished None)).
  { intros j Hj. destruct (G4 j (upto_elem _ _ _ Hj)) as (r' & e & Es & _). exists r'. rewrite Es, Hf.
    unfold stage_of. simpl. by rewrite decide_True. }
  assert (Hin : forall j, j ∈ q -> j ∈ writers_queue y /\ j ∉ ws).
  { intros j Hj. pose proof (li_nodup _ _ _ G1) as N. rewrite Eq in N. apply list.NoDup_app in N as (_ & N & _).
    split; [rewrite Eq; apply elem_of_app; by right|]. intros Hx. by apply (N j). }
  assert (Hlook : forall j, j <> i -> cs' !! j =
    if decide (head q = Some j) then signal <$> (if decide (j ∈ ws) then mark_done <$> conns y !! j else conns y !! j)
    else if decide (j ∈ ws) then mark_done <$> conns y !! j else conns y !! j).
  { intros j Hj. unfold cs'. rewrite lookup_insert_ne, notify_front_lookup, marked_lookup by done.
    destruct (decide (j ∈ ws)) as [Hx|Hx]; [rewrite (decide_True (P := _ /\ _)) by done|rewrite (decide_False (P := _ /\ _)) by tauto];
      done. }
  assert (Hfr : in_flight (front q (threads cs')) q = ([], Waiting) /\ unlogged_of (front q (threads cs')) q = [] /\
    batch_of (front q (threads cs')) q = None).
  { unfold front. destruct (head q) as [w|] eqn:Eh; [|done]. simpl. unfold cs'. rewrite HT.
    destruct (Hin w (head_elem _ _ Eh)) as [_ Hw].
    rewrite decide_False by (intros ->; done). by rewrite decide_False, decide_True. }
  destruct Hfr as (F1 & F2 & F3).
  split; cbn [conns global_mutex writers_queue batch db_ log_ set_queue set_mutex set_conns]; fold cn; fold cs'; try done.
  - by apply (lock_inv_mark (conns y) (writers_queue y) q i last cn).
  - intros j cnj Hj. destruct (decide (j = i)) as [->|Hne].
    + unfold cs' in Hj. rewrite lookup_insert_eq in Hj. injection Hj as <-.
      destruct (Hst i Hiw) as [r' Es]. pose proof (echo_spec c k r (PMark last) false _ (G2 _ _ Hi)) as He.
      rewrite Es in *. by apply He.
    + rewrite Hlook in Hj by done. destruct (decide (j ∈ ws)) as [Hjw|Hjw].
      * destruct (waiting_conn _ _ _ _ G1 Hh Hne (upto_elem _ _ _ Hjw)) as (cj & kj & rj & pj & Ej & Hpj).
        rewrite Ej in Hj. simpl in Hj. pose proof (mark_done_ok _ _ _ _ _ (G2 _ _ Ej) Hpj (Hst j Hjw)) as Hmd.
        case_decide; simplify_eq/=; [by apply signal_ok|done].
      * case_decide as Hx; [|by apply G2]. destruct (Hin j (head_elem _ _ Hx)) as [Hjq _].
        destruct (waiting_conn _ _ _ _ G1 Hh Hne Hjq) as (cj & kj & rj & pj & Ej & Hpj).
        rewrite Ej in Hj. simpl in Hj. injection Hj as <-. by apply signal_ok, G2.
  - intros j Hj. destruct (decide (j = i)) as [->|Hne]; [unfold cs' in Hj; by rewrite lookup_insert_eq in Hj|].
    rewrite Hlook in Hj by done. apply G3. destruct (conns y !! j); [|done]. repeat case_decide; done.
  - intros j Hj. destruct (Hin j Hj) as [Hjq Hjw]. destruct (G4 j Hjq) as (r' & e & Es & He & Hok).
    exists r', e. split; [|done]. rewrite Es, Hf. unfold stage_of. rewrite F1. cbn [in_flight fst snd]. fold ws.
    rewrite decide_False by done. by rewrite decide_False by apply not_elem_of_nil.
  - rewrite G5, Hf. by rewrite F2.
  - intros ws' Hws. by rewrite F3 in Hws.
Qed.

(** *** Every step is a step of the specification *)

Lemma group_step y σ t l y' :
  group_inv y σ -> step psend y t l y' -> exists σ', spec_step σ l σ' /\ group_inv y' σ'.
Proof.
  intros HI Hs. destruct Hs.
  - exists σ. split; [constructor|by eapply inv_connect].
  - eexists. by eapply inv_post.
  - exists σ. split; [constructor|by eapply inv_take].
  - by eapply inv_get.
  - by eapply inv_close.
  - exists σ. split; [constructor|by eapply inv_enter].
  - exists σ. split; [constructor|by eapply inv_done].
  - exists σ. split; [constructor|by eapply inv_lead].
  - exists σ. split; [constructor|by eapply inv_sleep].
  - exists σ. split; [constructor|by eapply inv_spurious].
  - exists σ. split; [constructor|by eapply inv_reacquire].
  - exists σ. split; [constructor|by eapply inv_window].
  - exists σ. split; [constructor|by eapply inv_build].
  - by eapply inv_store.
  - by eapply inv_log.
  - exists σ. split; [constructor|by eapply inv_relock].
  - exists σ. split; [constructor|by eapply inv_mark].
  - exists σ. split; [constructor|by eapply inv_reply].
  - by eapply inv_return.
Qed.

Lemma group_start (db : DB) log :
  (forall key v, contents db !! key = Some v -> 8 + blen v <= MAX_MESSAGE) -> log_holds log [] ->
  group_inv (sys_start db log) (spec_start (contents db)).
Proof.
  intros Hv Hl. split; try done.
  - split; [apply NoDup_nil_2|..].
    + intros i. unfold threads. simpl. rewrite lookup_empty. split; [by intros ?%not_elem_of_nil|done].
    + intros i. unfold threads. simpl. rewrite lookup_empty. done.
    + intros i. unfold threads. simpl. rewrite lookup_empty. apply no_thread_ok.
  - intros i Hi. by apply not_elem_of_nil in Hi.
Qed.

Lemma group_runs (db : DB) log ls y :
  (forall key v, contents db !! key = Some v -> 8 + blen v <= MAX_MESSAGE) -> log_holds log [] ->
  steps psend (sys_start db log) ls y ->
  exists σ, spec_steps (spec_start (contents db)) ls σ /\ group_inv y σ.
Proof.
  intros Hv Hl Hs. remember (sys_start db log) as y0 eqn:E.
  induction Hs as [y|y ls y' t l y'' Hs IH Hl']; subst.
  - exists (spec_start (contents db)). split; [constructor|by apply group_start].
  - destruct (IH eq_refl) as (σ & Hr & HI). destruct (group_step _ _ _ _ _ HI Hl') as (σ' & Hs' & HI').
    exists σ'. split; [by eapply spec_snoc|done].
Qed.

End refine.
