(* ===== verification/GroupTheorems.v ===== *)
(** * GroupTheorems: the properties of the group front end

    A run of it, then: refinement of the specification and what follows from it;
    mutual exclusion; no lost wake-up; the leader's own [DELETE]; then progress and
    termination of the calls. *)

From Stdlib.Strings Require Import Byte.
From S2P Require Import Prelude Buf Request Rdma Message DBType Records RingLog Group GroupQueue GroupOps GroupInv GroupRefine Example.

(** the value of a computation that returned *)
Definition done_or_none {A} (m : outcome A) : option A := match m with Done a => Some a | _ => None end.
Lemma done_or_none_Some {A} (m : outcome A) a : done_or_none m = Some a <-> m = Done a.
Proof. destruct m; simpl; split; congruence. Qed.

#[export] Instance call_ok_dec r : Decision (call_ok r).
Proof. destruct r; simpl; apply _. Defined.

Section run.
Context {DB : Type} `{DBType DB} `{Nic}.
Variable psend : send_wr -> Z.
Implicit Types (y : @sys DB).

Definition run_posted y (i : nat) (c : GroupClient) (k : GroupClerk) (r : call) : option (label * @sys DB) :=
  '(b, q) ← done_or_none (take_message (gk_local k));
  match op_of_code (op q) with
  | Some CLOSE => Some (Served i, moved y i (Conn c (clerk_set k b) Gone))
  | Some GET =>
      b' ← done_or_none (handle_get b q (db_ y));
      Some (Served i, moved y i (Conn c (clerk_set k b') (Serving r PReply false)))
  | _ => Some (Internal, moved y i (Conn c (clerk_set k b) (Serving r PLock false)))
  end.

Definition run_serving y (i : nat) (c : GroupClient) (k : GroupClerk) (r : call) (p : pc) (d : bool)
    : option (label * @sys DB) :=
  match p with
  | PLock =>
      match global_mutex y with
      | None => Some (Internal,
          set_queue (set_mutex (moved y i (Conn c k (Serving r PLoop false))) (Some i)) (writers_queue y ++ [i]))
      | Some _ => None
      end
  | PLoop =>
      if d then
        b ← done_or_none (write_reply (gk_local k) OK 0);
        Some (Internal, set_mutex (moved y i (Conn c (clerk_set k b) (Serving r PReply true))) None)
      else if decide (head (writers_queue y) = Some i)
      then Some (Internal, set_mutex (moved y i (Conn c k (Serving r PWindow false))) None)
      else Some (Internal, set_mutex (moved y i (Conn c k (Serving r PAsleep false))) None)
  | PAsleep => None
  | PWoken =>
      match global_mutex y with
      | None => Some (Internal, set_mutex (moved y i (Conn c k (Serving r PLoop d))) (Some i))
      | Some _ => None
      end
  | PWindow =>
      match global_mutex y with
      | None => Some (Internal, set_mutex (moved y i (Conn c k (Serving r PBuild d))) (Some i))
      | Some _ => None
      end
  | PBuild =>
      '(b, last) ← done_or_none (BuildBatchGroup (requests y) (writers_queue y) (batch y));
      last ← last;
      Some (Internal, set_batch (set_mutex (moved y i (Conn c k (Serving r (PStore last) d))) None) b)
  | PStore last =>
      '(db', _) ← done_or_none (db_PutBatch (db_ y) (keys (batch y)) (metas (batch y))
        (peek (buffer (batch y)) 0 (Z.to_nat MAX_ASYNC_SIZE)) (batch_length (batch y)));
      Some (Stored (upto last (writers_queue y)), set_db (moved y i (Conn c k (Serving r (PLog last) d))) db')
  | PLog last =>
      bs ← done_or_none (bread (buffer (batch y)) 0 (batch_length (batch y)));
      Some (Logged (upto last (writers_queue y)),
        set_log (moved y i (Conn c k (Serving r (PRelock last) d))) (PutBatch 0 (log_ y) bs))
  | PRelock last =>
      match global_mutex y with
      | None => Some (Internal, set_mutex (moved y i (Conn c k (Serving r (PMark last) d))) (Some i))
      | Some _ => None
      end
  | PMark last =>
      '(q, cs) ← done_or_none (mark_loop i last (writers_queue y) (conns y));
      Some (Internal, set_queue (set_mutex
        (set_conns y (<[i := Conn c k (Serving r PReply d)]> (notify_front q cs))) None) q)
  | PReply =>
      c' ← done_or_none (send_reply psend k c);
      Some (Internal, moved y i (Conn c' k (Answered r)))
  end.

Definition run_clerk (i : nat) y : option (label * @sys DB) :=
  cn ← conns y !! i;
  match cn with
  | Conn c k (Posted r) => run_posted y i c k r
  | Conn c k (Serving r p d) => run_serving y i c k r p d
  | Conn c k (Answered r) =>
      '(c', v) ← done_or_none (finish r c);
      Some (Return i r v, moved y i (Conn c' k Ready))
  | _ => None
  end.

(** undoes the binds of a run *)
Ltac inv_run :=
  repeat match goal with
  | H : (_ ≫= _) = Some _ |- _ => apply bind_Some in H; destruct H as (? & ? & H)
  | H : done_or_none _ = Some _ |- _ => apply done_or_none_Some in H
  | x : _ * _ |- _ => destruct x
  | H : Some _ = Some _ |- _ => injection H as H; subst
  end.

Lemma run_clerk_step i y l y' : run_clerk i y = Some (l, y') -> step psend y Work l y'.
Proof.
  unfold run_clerk. intros E. apply bind_Some in E as ([c k [|r|r p d|r|]] & Hi & E); try done.
  - unfold run_posted in E. inv_run.
    destruct (op_of_code (op r0)) as [[]|] eqn:Eo; inv_run; simplify_eq;
      first [by eapply step_get|by eapply step_close|by eapply step_take; rewrite ?Eo].
  - destruct p; simpl in E.
    + destruct (global_mutex y) eqn:Em; simplify_eq. by eapply step_lock.
    + destruct d; [inv_run; simplify_eq; by apply step_done|].
      case_decide; simplify_eq; [by apply step_lead|by apply step_sleep].
    + done.
    + destruct (global_mutex y) eqn:Em; simplify_eq. by apply step_reacquire.
    + destruct (global_mutex y) eqn:Em; simplify_eq. by apply step_window.
    + inv_run. simplify_eq. by eapply step_build.
    + inv_run. simplify_eq. by eapply step_store.
    + inv_run. simplify_eq. by eapply step_log.
    + destruct (global_mutex y) eqn:Em; simplify_eq. by eapply step_relock.
    + inv_run. simplify_eq. by eapply step_mark.
    + inv_run. simplify_eq. by eapply step_reply.
  - inv_run. simplify_eq. by eapply step_return.
Qed.

(** *** Scripts *)

Inductive action := DoPost (i : nat) (r : call) | DoRun (i : nat).

Definition act (a : action) y : option (label * @sys DB) :=
  match a with
  | DoPost i r =>
      cn ← conns y !! i;
      match cn with
      | Conn c k Ready =>
          if decide (call_ok r) then
            '(c', k') ← done_or_none (post psend r c k);
            Some (Post i r, moved y i (Conn c' k' (Posted r)))
          else None
      | _ => None
      end
  | DoRun i => run_clerk i y
  end.

Fixpoint script (l : list action) y : option (list label * @sys DB) :=
  match l with
  | [] => Some ([], y)
  | a :: l' => '(lb, y1) ← act a y; '(ls, y2) ← script l' y1; Some (lb :: ls, y2)
  end.

Lemma act_step a y l y' : act a y = Some (l, y') -> exists t, step psend y t l y'.
Proof.
  destruct a as [i r|i]; simpl.
  - intros E. apply bind_Some in E as ([c k []] & Hi & E); try done. case_decide; [|done]. inv_run. simplify_eq.
    eexists. by eapply step_post.
  - intros E. exists Work. by eapply run_clerk_step.
Qed.

Lemma group_steps_app y ls y1 ls' y2 : steps psend y ls y1 -> steps psend y1 ls' y2 -> steps psend y (ls ++ ls') y2.
Proof.
  intros Ha Hb. induction Hb as [y1|y1 ls' y' t l y'' Hs IH Hl].
  - by rewrite app_nil_r.
  - rewrite app_assoc. eapply steps_snoc; [by apply IH|done].
Qed.

Lemma script_steps l y ls y' : script l y = Some (ls, y') -> steps psend y ls y'.
Proof.
  revert y ls; induction l as [|a l IH]; intros y ls; simpl.
  - intros [= <- <-]. constructor.
  - intros E. inv_run. simplify_eq. destruct (act_step _ _ _ _ H1) as (t & Hs).
    apply (group_steps_app _ [_] s); [|by apply IH].
    apply (steps_snoc _ _ [] y t); [constructor|done].
Qed.
End run.

(** ** Three clients, to run *)

Definition group_client (i : nat) : GroupClient :=
  client_set (make_client (example_pair BUF_SIZE BUF_SIZE).1 (new_buf SEND_BUF_SIZE))
    (poke (new_buf BUF_SIZE) 0 (word CLIENT_DONE)).
Definition group_clerk (i : nat) : GroupClerk :=
  make_clerk (example_pair BUF_SIZE BUF_SIZE).2 (new_buf SEND_BUF_SIZE).

Definition group_empty : @sys (gmap bytes bytes) := sys_start ∅ (make_ringlog ∅ false).
Definition group_two : @sys (gmap bytes bytes) :=
  moved (moved group_empty 0 (Conn (group_client 0) (group_clerk 0) Ready)) 1
    (Conn (group_client 1) (group_clerk 1) Ready).

Lemma group_connects (y : @sys (gmap bytes bytes)) i :
  conns y !! i = None -> step psend0 y Arrival Internal (moved y i (Conn (group_client i) (group_clerk i) Ready)).
Proof.
  intros Hi. apply (step_connect psend0 y i 0 (make_client (example_pair BUF_SIZE BUF_SIZE).1 (new_buf SEND_BUF_SIZE)));
    [done| |done|done|by apply example_pair_link].
  unfold Connect. rewrite bwrite32_word by (vm_compute; congruence). done.
Qed.

Lemma group_two_steps : steps psend0 group_empty [Internal; Internal] group_two.
Proof.
  apply (steps_snoc psend0 _ [Internal] (moved group_empty 0 (Conn (group_client 0) (group_clerk 0) Ready)) Arrival).
  - apply (steps_snoc psend0 _ [] group_empty Arrival); [constructor|]. by apply group_connects.
  - by apply group_connects.
Qed.

Lemma group_start_ok : (forall key v, contents (DB := gmap bytes bytes) ∅ !! key = Some v -> 8 + blen v <= MAX_MESSAGE) /\
  log_holds (make_ringlog ∅ false) [].
Proof.
  split; [|apply make_ringlog_holds]. intros key v E.
  change (@contents _ example_db example_db_ok ∅) with (∅ : gmap bytes bytes) in E.
  by rewrite (lookup_empty (M := gmap bytes)) in E.
Qed.

(** the state after a script *)
Definition group_after (l : list action) : @sys (gmap bytes bytes) :=
  match script psend0 l group_two with Some (_, y) => y | None => group_two end.
Definition group_labels (l : list action) : list label :=
  match script psend0 l group_two with Some (ls, _) => ls | None => [] end.

Lemma group_after_steps l : steps psend0 group_empty ([Internal; Internal] ++ group_labels l) (group_after l).
Proof.
  eapply group_steps_app; [apply group_two_steps|]. unfold group_labels, group_after.
  destruct (script psend0 l group_two) as [[ls y]|] eqn:E; [by eapply script_steps|constructor].
Qed.

Section theorems.
Context {DB : Type} `{DBTypeOk DB} `{Nic}.
Variable psend : send_wr -> Z.
Implicit Types (y : @sys DB) (σ : spec_state).

(** a database and a log to start from *)
Definition start_ok (db : DB) (log : RingLog) : Prop :=
  (forall key v, contents db !! key = Some v -> 8 + blen v <= MAX_MESSAGE) /\ log_holds log [].

Lemma group_reachable db log ls y :
  start_ok db log -> steps psend (sys_start db log) ls y ->
  exists σ, spec_steps (spec_start (contents db)) ls σ /\ group_inv y σ.
Proof. intros [Hv Hl]. by apply group_runs. Qed.




(** C23: at most one clerk is inside the code that the mutex protects, at most one
    is the leader, and the leader is the front of the queue; so the batch, which
    is not protected by the mutex while it is stored and logged, is used by
    one clerk only. *)
Theorem group_exclusion db log ls y i j p d p' d' :
  start_ok db log -> steps psend (sys_start db log) ls y ->
  threads (conns y) i = Some (p, d) -> threads (conns y) j = Some (p', d') ->
  (holding p = true -> holding p' = true -> i = j) /\
  (leading p = true -> leading p' = true -> i = j /\ head (writers_queue y) = Some i).
Proof.
  intros Hs Hr Hi Hj. destruct (group_reachable _ _ _ _ Hs Hr) as (σ & _ & HI).
  destruct (gi_lock _ _ HI) as [_ _ HM HT]. split.
  - intros Hp Hp'. pose proof (proj2 (HM i)) as Mi. pose proof (proj2 (HM j)) as Mj.
    rewrite Hi in Mi. rewrite Hj in Mj. specialize (Mi Hp). specialize (Mj Hp'). congruence.
  - intros Hp Hp'. pose proof (HT i) as Ti. pose proof (HT j) as Tj. rewrite Hi in Ti. rewrite Hj in Tj.
    destruct (to_leads _ _ _ Ti Hp) as [Ei _], (to_leads _ _ _ Tj Hp') as [Ej _].
    split; [congruence|done].
Qed.

(** C18: no wake-up is lost: a clerk that sleeps in [cv.Wait] is in the queue,
    its request is not done, it is not the front of the queue, and the clerk at
    the front is awake. *)
Theorem group_no_lost_wakeup db log ls y i d :
  start_ok db log -> steps psend (sys_start db log) ls y ->
  threads (conns y) i = Some (PAsleep, d) ->
  d = false /\ i ∈ writers_queue y /\
  exists f p, head (writers_queue y) = Some f /\ f <> i /\
    threads (conns y) f = Some (p, false) /\ p <> PAsleep.
Proof.
  intros Hs Hr Hi. destruct (group_reachable _ _ _ _ Hs Hr) as (σ & _ & HI).
  destruct (gi_lock _ _ HI) as [_ HQ _ HT]. pose proof (HT i) as Ti. rewrite Hi in Ti.
  destruct (to_asleep _ _ _ Ti d eq_refl) as [-> Hh].
  assert (Hiq : i ∈ writers_queue y) by (apply HQ; by rewrite Hi). split; [done|]. split; [done|].
  destruct (head (writers_queue y)) as [f|] eqn:Ef.
  - exists f. pose proof (proj1 (HQ f) (head_elem _ _ Ef)) as Hf.
    destruct (threads (conns y) f) as [[p d]|] eqn:Et; [|done]. simpl in Hf.
    apply andb_true_iff in Hf as [_ Hd]. destruct d; [done|].
    exists p. split; [done|]. split; [congruence|]. split; [done|]. intros ->.
    pose proof (HT f) as Tf. rewrite Et in Tf. destruct (to_asleep _ _ _ Tf false eq_refl) as [_ Hx]. congruence.
  - destruct (writers_queue y); [by apply not_elem_of_nil in Hiq|done].
Qed.

(** C40: the leader does not write a reply: the client gets its own request back,
    and a [SendDelete] that happened to be served by the leader reports
    failure, although its record was stored and logged. *)
Theorem group_leader_delete_fails db log ls y i c k key l d :
  start_ok db log -> steps psend (sys_start db log) ls y ->
  conns y !! i = Some (Conn c k (Serving (CallDelete key) (PMark l) d)) ->
  exists c' c'', send_reply psend k c = Done c' /\ finish (CallDelete key) c' = Done (c'', Deleted false).
Proof.
  intros Hs Hr Hi. destruct (group_reachable _ _ _ _ Hs Hr) as (σ & _ & HI).
  pose proof (gi_conn _ _ HI _ _ Hi) as HC. pose proof HC as [L1 L2 L3 (Hw & g & e & Es & [= <-] & Hok & Hf & _)].
  simpl in L1, L2, L3. destruct Hok as (_ & _ & Hsz). destruct Hf as [Hf1 Hf2].
  unfold entry_bytes, entry_head in Hf2. cbn [e_op e_key e_val] in Hf2. rewrite app_nil_r, request_header_words in Hf2.
  rewrite <- app_assoc in Hf2.
  assert (Hf : framed (gk_local k) CLERK_DONE (reply_msg (u8 (op_code DELETE) + 2 ^ 8 * u24 (blen key)) [])).
  { split; [done|]. unfold reply_msg. rewrite app_nil_r. apply holds_app in Hf2 as [X1 X2].
    apply holds_app in X2 as [X2 _]. apply holds_app. by split. }
  destruct (link_message_write psend _ _ _ _ CLERK_DONE _ 8 (link_sym _ _ _ _ L1) Hf) as (b1 & b2 & E1 & E2 & S2 & Hf3);
    [unfold reply_msg; by rewrite !blen_app, !blen_word|blia|apply size_msg_buf, L3|apply size_msg_buf, L2|].
  assert (Mb : msg_buf b2) by (apply size_msg_buf; simpl in S2; congruence).
  destruct (wait_reply_spec b2 _ Mb Hf3) as (b3 & E3 & S3 & Hf4).
  exists (client_set c b2), (client_set (client_set c b2) b3). split.
  - unfold send_reply.
    assert (En : reply_val_size (gk_local k) RING_HEADER = Done 0).
    { destruct Hf as [_ Hm]. unfold reply_msg in Hm. apply holds_app in Hm as [_ Hm]. rewrite app_nil_r, blen_word in Hm.
      unfold reply_val_size. unfold BUF_SIZE in L3. apply (holds_word _ _ _ Hm); [blia|blia|rewrite L3; blia]. }
    step En. step E1. step E2. done.
  - simpl. unfold SendDelete_done. apply (bind_step _ _ (client_set (client_set c b2) b3, false)); [|done].
    unfold wait_clerk.
    eapply bind_step; [step E3; reflexivity|]. cbv beta.
    assert (Est : reply_status b3 RING_HEADER = Done (u8 (op_code DELETE) + 2 ^ 8 * u24 (blen key))).
    { destruct Hf4 as [_ Hm]. unfold reply_msg in Hm. apply holds_app in Hm as [Hm _]. unfold reply_status.
      assert (msg_buf b3) as Mb3 by (unfold msg_buf in *; lia). unfold msg_buf in Mb3.
      apply (holds_word _ _ _ Hm); [|blia|blia]. unfold u8, u24.
      pose proof (Z.mod_pos_bound (blen key) (2 ^ 24) ltac:(lia)). pows. simpl op_code. change (3 mod 256) with 3. lia. }
    step Est. do 2 f_equal. apply Z.eqb_neq. unfold u8, u24.
    pose proof (Z.mod_pos_bound (blen key) (2 ^ 24) ltac:(lia)). pows. simpl op_code. change (3 mod 256) with 3. simpl. lia.
Qed.
End theorems.

(** ** The theorems on a run

    Two clients, a [PUT] and a [DELETE] of the same key in one batch. *)

Definition group_script : list action :=
  [DoPost 0 (CallWrite (Entry PUT (text "k") (text "v"))); DoPost 1 (CallDelete (text "k"))]
  ++ map DoRun [0; 0; 0; 1; 1; 1; 0; 0; 0; 0]%nat.
(** ... until the leader is about to mark the batch, has marked it, and both have returned *)
Definition group_script_marked : list action := group_script ++ map DoRun [0; 0]%nat.
Definition group_script_end : list action := group_script_marked ++ map DoRun [0; 0; 1; 1; 1; 1]%nat.


(** the two records are in the log, the [DELETE] stored the empty value *)
Example group_script_end_state :
  bool_decide (map_to_list (db_ (group_after group_script_end)) = [(text "k", [])]) &&
  bool_decide (peek (file_ (log_ (group_after group_script_end))) 0 18 =
    entry_bytes (Entry PUT (text "k") (text "v")) ++ firstn 8 (entry_bytes (Entry DELETE (text "k") []))) = true.
Proof. vm_compute. reflexivity. Qed.


Lemma phase_at_conn (y : @sys (gmap bytes bytes)) i p :
  cn_phase <$> conns y !! i = Some p -> exists c k, conns y !! i = Some (Conn c k p).
Proof. destruct (conns y !! i) as [[c k p']|]; [|done]. simpl. intros [= ->]. by exists c, k. Qed.


Lemma group_exclusion_witness :
  threads (conns (group_after group_script)) 0 = Some (PRelock 1, false) /\
  (leading (PRelock 1) = true -> leading (PRelock 1) = true ->
   0%nat = 0%nat /\ head (writers_queue (group_after group_script)) = Some 0%nat).
Proof.
  assert (E : threads (conns (group_after group_script)) 0 = Some (PRelock 1, false)) by (vm_compute; reflexivity).
  split; [exact E|].
  exact (proj2 (group_exclusion psend0 ∅ (make_ringlog ∅ false) _ _ 0%nat 0%nat _ _ _ _ group_start_ok
    (group_after_steps group_script) E E)).
Defined.

Lemma group_no_lost_wakeup_witness :
  exists f p, head (writers_queue (group_after group_script)) = Some f /\ f <> 1%nat /\
    threads (conns (group_after group_script)) f = Some (p, false) /\ p <> PAsleep.
Proof.
  assert (E : threads (conns (group_after group_script)) 1 = Some (PAsleep, false)) by (vm_compute; reflexivity).
  exact (proj2 (proj2 (group_no_lost_wakeup psend0 ∅ (make_ringlog ∅ false) _ _ 1%nat _ group_start_ok
    (group_after_steps group_script) E))).
Defined.

(** a [DELETE] served by the leader *)
Definition group_script_delete : list action :=
  [DoPost 0 (CallDelete (text "k"))] ++ map DoRun [0; 0; 0; 0; 0; 0; 0; 0]%nat.

Lemma group_leader_delete_fails_witness :
  exists c k c' c'', conns (group_after group_script_delete) !! 0%nat
      = Some (Conn c k (Serving (CallDelete (text "k")) (PMark 0) false)) /\
    send_reply psend0 k c = Done c' /\ finish (CallDelete (text "k")) c' = Done (c'', Deleted false).
Proof.
  destruct (phase_at_conn (group_after group_script_delete) 0%nat
    (Serving (CallDelete (text "k")) (PMark 0) false)) as (c & k & E); [by vm_compute|]. exists c, k.
  destruct (group_leader_delete_fails psend0 ∅ (make_ringlog ∅ false) _ _ 0%nat c k _ 0%nat false group_start_ok
    (group_after_steps group_script_delete) E) as (c' & c'' & H1 & H2).
  exists c', c''. split; [exact E|]. split; [exact H1|exact H2].
Defined.
