(* ===== verification/GroupLive.v ===== *)
(** * GroupLive: the calls of the group front end return

    Progress: as long as a call is outstanding some clerk or client can run.
    Termination: without new calls and spurious wake-ups every run is finite,
    by a measure on the program counters.  Together: left alone, the system
    runs until every call has returned. *)

From Stdlib.Strings Require Import Byte.
From S2P Require Import Prelude Buf Request Rdma Message DBType Records RingLog Group GroupQueue GroupOps GroupInv Example GroupRefine GroupTheorems.

Section progress.
Context {DB : Type} `{DBTypeOk DB} `{Nic}.
Variable psend : send_wr -> Z.
Hypothesis get_missing_none : forall db key, contents db !! key = None -> db_Get db key = Done None.
Implicit Types (y : @sys DB) (σ : spec_state).

Lemma db_Get_done (db : DB) key : db_Get db key = Done (contents db !! key).
Proof. destruct (contents db !! key) eqn:E; [by apply get_present|by apply get_missing_none]. Qed.

(** is a clerk stopped: asleep, or waiting for a mutex that is taken *)
Definition needs_mutex (p : pc) : bool :=
  match p with PLock | PWoken | PWindow | PRelock _ => true | _ => false end.
Definition can_run (m : option nat) (p : phase) : Prop :=
  match p with
  | Ready | Gone => False
  | Serving _ p _ => p <> PAsleep /\ (needs_mutex p = true -> m = None)
  | _ => True
  end.

Lemma queue_length y σ : group_inv y σ -> (length (writers_queue y) <= size (conns y))%nat.
Proof.
  intros HI. pose proof (li_nodup _ _ _ (gi_lock _ _ HI)) as N.
  rewrite <- (size_list_to_set (C := gset nat) _ N). rewrite <- size_dom. apply subseteq_size.
  intros w Hw%elem_of_list_to_set. apply elem_of_dom. destruct (in_queue_conn y σ w HI Hw) as (c & k & r & p & -> & _). done.
Qed.

Lemma run_posted_some y σ i c k r :
  group_inv y σ -> conns y !! i = Some (Conn c k (Posted r)) -> is_Some (run_clerk psend i y).
Proof.
  intros HI Hi. unfold run_clerk. rewrite Hi. cbn [mbind option_bind]. unfold run_posted.
  pose proof (gi_conn _ _ HI _ _ Hi) as HC. destruct (take_spec c k r _ HC) as (b & -> & Hb & Hf & Eo).
  cbn [done_or_none mbind option_bind]. rewrite Eo. pose proof (co_phase _ _ HC) as (Hs & Hr & _).
  destruct r as [e|key|key|]; simpl; try (by eexists).
  - destruct Hr as (_ & [-> | ->]); by eexists.
  - rewrite Hs in HC.
    destruct (handle_get_spec c k key _ (db_ y) b (stored σ !! key) HC Hb Hf) as (b' & E & _).
    + rewrite <- (gi_db _ _ HI). apply db_Get_done.
    + destruct (stored σ !! key) eqn:Ev; [by apply (gi_vals _ _ HI key)|vm_compute; congruence].
    + simpl in E. rewrite E. by eexists.
Qed.

Lemma run_build_some y σ i c k r d :
  group_inv y σ -> (size (conns y) <= 8)%nat -> conns y !! i = Some (Conn c k (Serving r PBuild d)) ->
  is_Some (run_serving psend y i c k r PBuild d).
Proof.
  intros HI Hsz Hi. destruct (leader_at _ _ _ _ _ _ _ _ HI Hi eq_refl) as (Hh & _ & Hiq & _).
  destruct (queue_requests y σ (writers_queue y) HI (fun w Hw => Hw)) as (HF & Hok & Hlen).
  pose proof (queue_length _ _ HI) as Hql.
  destruct (BuildBatchGroup_spec _ _ _ (batch y) HF (gi_buffer _ _ HI)) as [S1 _].
  set (n := batch_count 0 (entries σ (writers_queue y))) in *.
  destruct S1 as (b & E & _).
  { etransitivity; [apply chunk_size_take_le|]. apply eight_fit; [done|]. rewrite Hlen. lia. }
  unfold run_serving. rewrite E. cbn [done_or_none mbind option_bind].
  destruct (list.last (take n (writers_queue y))) as [l|] eqn:El; [by eexists|].
  apply last_None in El. exfalso. destruct (writers_queue y) as [|w q]; [by apply not_elem_of_nil in Hiq|].
  destruct (entries σ (w :: q)) as [|e es]; [done|]. unfold n in El. pose proof (batch_count_pos 0 e es).
  destruct (batch_count 0 (e :: es)); [lia|done].
Qed.

Lemma run_store_some y σ i c k r d last :
  group_inv y σ -> conns y !! i = Some (Conn c k (Serving r (PStore last) d)) ->
  is_Some (run_serving psend y i c k r (PStore last) d).
Proof.
  intros HI Hi. destruct (leader_at _ _ _ _ _ _ _ _ HI Hi eq_refl) as (Hh & _ & Hiq & Hf).
  assert (Hb : batch_holds (batch y) (entries σ (upto last (writers_queue y)))) by (apply (gi_batch _ _ HI); by rewrite Hf).
  destruct (queue_requests y σ _ HI (upto_elem last _)) as (_ & Hok & _).
  pose proof (batch_holds_pairs (batch y) _ (Z.to_nat MAX_ASYNC_SIZE) Hb Hok) as Hp.
  destruct (put_batch_ok (db_ y) _ _ _ (batch_length (batch y)) _ (Hp ltac:(rewrite Z2Nat.id; [lia|done]))) as (db' & E & _).
  unfold run_serving. rewrite E. by eexists.
Qed.

Lemma run_log_some y σ i c k r d last :
  group_inv y σ -> conns y !! i = Some (Conn c k (Serving r (PLog last) d)) ->
  is_Some (run_serving psend y i c k r (PLog last) d).
Proof.
  intros HI Hi. destruct (leader_at _ _ _ _ _ _ _ _ HI Hi eq_refl) as (Hh & _ & Hiq & Hf).
  assert (Hb : batch_holds (batch y) (entries σ (upto last (writers_queue y)))) by (apply (gi_batch _ _ HI); by rewrite Hf).
  unfold run_serving. rewrite bread_done; [by eexists|lia|rewrite (bh_length _ _ Hb); apply chunk_size_nonneg|].
  rewrite (bh_length _ _ Hb), (bh_size _ _ Hb). apply Hb.
Qed.

(** a connection that is not stopped can run *)
Lemma run_some y σ i cn :
  group_inv y σ -> (size (conns y) <= 8)%nat -> conns y !! i = Some cn ->
  can_run (global_mutex y) (cn_phase cn) -> is_Some (run_clerk psend i y).
Proof.
  intros HI Hsz Hi Hr. destruct cn as [c k [|r|r p d|r|]]; try done; simpl in Hr.
  - by eapply run_posted_some.
  - unfold run_clerk. rewrite Hi. cbn [mbind option_bind]. destruct Hr as [Hp Hm].
    pose proof (gi_conn _ _ HI _ _ Hi) as HC.
    destruct p; try done; try (simpl; rewrite (Hm eq_refl); by eexists).
    + simpl. destruct d; [|case_decide; by eexists].
      destruct (done_spec c k r _ HC) as (b & -> & _). by eexists.
    + by eapply run_build_some.
    + by eapply run_store_some.
    + by eapply run_log_some.
    + destruct (leader_at _ _ _ _ _ _ _ _ HI Hi eq_refl) as (Hh & _ & Hiq & Hf).
      assert (Hl : last ∈ writers_queue y) by (by eapply front_last; [apply HI|exact Hf|]).
      destruct (mark_loop_spec i last (writers_queue y) (conns y) Hl) as (q' & E & _). simpl. rewrite E. by eexists.
    + destruct (group_reply_spec psend c k r d _ HC) as (c' & E & _). simpl. rewrite E. by eexists.
  - unfold run_clerk. rewrite Hi. cbn [mbind option_bind].
    pose proof (gi_conn _ _ HI _ _ Hi) as HC. destruct (co_phase _ _ HC) as (_ & fin & st & v & Es & _).
    rewrite Es in HC. destruct (finish_spec c k r fin None HC eq_refl) as (c' & res & -> & _). by eexists.
Qed.

Definition idle (p : phase) : Prop := p = Ready \/ p = Gone.

(** some connection is not stopped *)
Lemma somebody_runs y σ i cn :
  group_inv y σ -> conns y !! i = Some cn -> ~ idle (cn_phase cn) ->
  exists j cn', conns y !! j = Some cn' /\ can_run (global_mutex y) (cn_phase cn').
Proof.
  intros HI Hi Hni. pose proof (gi_lock _ _ HI) as HL.
  destruct (global_mutex y) as [m|] eqn:Em.
  - (* the holder of the mutex *)
    pose proof (proj1 (li_mutex _ _ _ HL m) eq_refl) as Hm. unfold threads in Hm.
    destruct (conns y !! m) as [cm|] eqn:Ecm; [|done]. simpl in Hm. exists m, cm. split; [done|].
    destruct (cn_phase cm) as [| |r p d| |]; try done. simpl in *. split; [by intros ->|]. by destruct p.
  - destruct (cn_phase cn) as [|r|r p d|r|] eqn:Ep; try (by destruct Hni; left); try (by destruct Hni; right).
    + exists i, cn. by rewrite Ep.
    + destruct (decide (p = PAsleep)) as [->|Hp].
      2: { exists i, cn. rewrite Ep. split; [done|]. split; done. }
      (* asleep: the front of the queue is awake *)
      assert (Et : threads (conns y) i = Some (PAsleep, d)) by (unfold threads; rewrite Hi; simpl; by rewrite Ep).
      pose proof (li_thread _ _ _ HL i) as Ti. rewrite Et in Ti. destruct (to_asleep _ _ _ Ti d eq_refl) as [-> Hh].
      assert (Hiq : i ∈ writers_queue y) by (apply (li_queue _ _ _ HL); by rewrite Et).
      destruct (head (writers_queue y)) as [f|] eqn:Ef.
      2: { destruct (writers_queue y); [by apply not_elem_of_nil in Hiq|done]. }
      destruct (in_queue_conn y σ f HI (head_elem _ _ Ef)) as (cf & kf & rf & pf & Ecf & Hqf).
      exists f, (Conn cf kf (Serving rf pf false)). split; [done|]. split; [|done]. intros ->.
      assert (Etf : threads (conns y) f = Some (PAsleep, false)) by (unfold threads; by rewrite Ecf).
      pose proof (li_thread _ _ _ HL f) as Tf. rewrite Etf in Tf. destruct (to_asleep _ _ _ Tf false eq_refl) as [_ Hx]. congruence.
    + exists i, cn. by rewrite Ep.
Qed.

Lemma progress y σ :
  group_inv y σ -> (size (conns y) <= 8)%nat ->
  (forall l y', ~ step psend y Work l y') -> forall i cn, conns y !! i = Some cn -> idle (cn_phase cn).
Proof.
  intros HI Hsz Hstuck i cn Hi. destruct (cn_phase cn) as [|r|r p d|r|] eqn:Ep; try (by left); try (by right);
    (exfalso; destruct (somebody_runs y σ i cn HI Hi) as (j & cn' & Hj & Hr);
      [rewrite Ep; by intros [|]|];
      destruct (run_some y σ j cn' HI Hsz Hj Hr) as [[l y'] E]; apply (Hstuck l y'); by eapply run_clerk_step).
Qed.
End progress.

(** ** A measure *)

(** how far a connection is from its return; [near] says that it is done or at
    the front of the queue, so that it will not sleep again *)
Definition pc_rank (near : bool) (p : pc) : nat :=
  match p with
  | PLock => 20
  | PWoken => if near then 12 else 16
  | PLoop => if near then 11 else 15
  | PAsleep => 14
  | PWindow => 10 | PBuild => 9 | PStore _ => 8 | PLog _ => 7 | PRelock _ => 6 | PMark _ => 5
  | PReply => 2
  end.
Definition rank (front : option nat) (i : nat) (p : phase) : nat :=
  match p with
  | Ready | Gone => 0
  | Posted _ => 30
  | Serving _ p d => pc_rank (d || bool_decide (front = Some i)) p
  | Answered _ => 1
  end.

Section measure.
Context {DB : Type} `{DBTypeOk DB} `{Nic}.
Variable psend : send_wr -> Z.
Implicit Types (y : @sys DB) (σ : spec_state).

Definition conn_rank (y : @sys DB) (i : nat) : nat :=
  match conns y !! i with Some cn => rank (head (writers_queue y)) i (cn_phase cn) | None => 0 end.
Definition measure (y : @sys DB) : nat := sum_list_with (conn_rank y) (elements (dom (conns y))).

Lemma sum_list_lt (f g : nat -> nat) l i :
  i ∈ l -> (g i < f i)%nat -> (forall j, (g j <= f j)%nat) -> (sum_list_with g l < sum_list_with f l)%nat.
Proof.
  intros Hi Hlt Hle. induction l as [|x l IH]; [by apply not_elem_of_nil in Hi|]. simpl.
  assert (sum_list_with g l <= sum_list_with f l)%nat.
  { clear -Hle. induction l as [|z l IH]; simpl; [lia|]. specialize (Hle z). lia. }
  apply elem_of_cons in Hi as [->|Hi]; [lia|]. specialize (IH Hi). specialize (Hle x). lia.
Qed.

(** one connection gets nearer to its return, the others not further away *)
Lemma measure_lt y y' i :
  dom (conns y') = dom (conns y) -> i ∈ dom (conns y) ->
  (conn_rank y' i < conn_rank y i)%nat -> (forall j, j <> i -> (conn_rank y' j <= conn_rank y j)%nat) ->
  (measure y' < measure y)%nat.
Proof.
  intros Hd Hi Hlt Hle. unfold measure. rewrite Hd. apply (sum_list_lt _ _ _ i); [by apply elem_of_elements|done|].
  intros j. destruct (decide (j = i)) as [->|Hj]; [lia|auto].
Qed.

(** ... when only its phase changes and the queue stays *)
Lemma measure_move y y' i cn cn' :
  conns y !! i = Some cn -> conns y' = <[i := cn']> (conns y) -> writers_queue y' = writers_queue y ->
  (rank (head (writers_queue y)) i (cn_phase cn') < rank (head (writers_queue y)) i (cn_phase cn))%nat ->
  (measure y' < measure y)%nat.
Proof.
  intros Hi Hc Hq Hlt. apply (measure_lt y y' i).
  - rewrite Hc. apply dom_insert_lookup_L. by eexists.
  - apply elem_of_dom. by eexists.
  - unfold conn_rank. rewrite Hc, Hq, lookup_insert_eq, Hi. done.
  - intros j Hj. unfold conn_rank. rewrite Hc, Hq, lookup_insert_ne by done. lia.
Qed.

Lemma measure_enter y i c k r d :
  lock_inv (global_mutex y) (writers_queue y) (threads (conns y)) ->
  conns y !! i = Some (Conn c k (Serving r PLock d)) ->
  (measure (set_queue (set_mutex (moved y i (Conn c k (Serving r PLoop false))) (Some i)) (writers_queue y ++ [i]))
   < measure y)%nat.
Proof.
  intros HL Hi. apply (measure_lt _ _ i).
  - simpl. apply dom_insert_lookup_L. by eexists.
  - apply elem_of_dom. by eexists.
  - unfold conn_rank. simpl. rewrite lookup_insert_eq, Hi. simpl. case_bool_decide; lia.
  - intros j Hj. unfold conn_rank. simpl. rewrite lookup_insert_ne by done.
    destruct (conns y !! j) as [[cj kj pj]|]; [|done]. simpl.
    destruct (head (writers_queue y)) as [w|] eqn:Eh; [by rewrite (head_snoc _ w)|].
    destruct (writers_queue y); [|done]. simpl. destruct pj; simpl; try done.
    rewrite !bool_decide_eq_false_2 by congruence. done.
Qed.

Lemma measure_mark y i c k r d last q cs :
  lock_inv (global_mutex y) (writers_queue y) (threads (conns y)) ->
  conns y !! i = Some (Conn c k (Serving r (PMark last) d)) ->
  mark_loop i last (writers_queue y) (conns y) = Done (q, cs) ->
  (measure (set_queue (set_mutex
     (set_conns y (<[i := Conn c k (Serving r PReply d)]> (notify_front q cs))) None) q) < measure y)%nat.
Proof.
  intros HL Hi E. assert (Eth : threads (conns y) i = Some (PMark last, d)) by (unfold threads; by rewrite Hi).
  pose proof (li_thread _ _ _ HL i) as Ti. rewrite Eth in Ti.
  destruct (to_leads _ _ _ Ti eq_refl) as [Hh (p0 & [= _ ->])].
  destruct (mark_loop_spec i last (writers_queue y) (conns y) (to_last _ _ _ Ti _ _ _ eq_refl eq_refl)) as (q' & E' & Eq).
  rewrite E in E'. injection E' as <- ->. set (ws := upto last (writers_queue y)) in *.
  pose proof (upto_NoDup last _ (li_nodup _ _ _ HL)) as Hn. fold ws in Hn.
  assert (Hm : global_mutex y = Some i) by (apply (li_mutex _ _ _ HL); by rewrite Eth). rewrite Hm in HL.
  set (cs' := notify_front q (marked i ws (conns y))).
  assert (Hlk : forall j, is_Some (cs' !! j) <-> is_Some (conns y !! j)).
  { intros j. unfold cs'. rewrite notify_front_lookup, marked_lookup by done. repeat case_decide; rewrite ?fmap_is_Some; done. }
  apply (measure_lt _ _ i).
  - simpl. rewrite dom_insert_lookup_L by (apply Hlk; by eexists). apply set_eq. intros j. rewrite !elem_of_dom. apply Hlk.
  - apply elem_of_dom. by eexists.
  - unfold conn_rank. simpl. rewrite lookup_insert_eq, Hi. simpl. lia.
  - intros j Hj. unfold conn_rank. cbn [conns writers_queue set_queue set_mutex set_conns]. rewrite lookup_insert_ne by done.
    assert (Ej : cs' !! j = if decide (head q = Some j)
      then signal <$> (if decide (j ∈ ws) then mark_done <$> conns y !! j else conns y !! j)
      else if decide (j ∈ ws) then mark_done <$> conns y !! j else conns y !! j).
    { unfold cs'. rewrite notify_front_lookup, marked_lookup by done.
      destruct (decide (j ∈ ws)); [rewrite (decide_True (P := _ /\ _)) by done|rewrite (decide_False (P := _ /\ _)) by tauto]; done. }
    rewrite Ej, Hh. destruct (decide (j ∈ writers_queue y)) as [Hjq|Hjq].
    + destruct (waiting_conn _ _ _ _ HL Hh Hj Hjq) as (cj & kj & rj & pj & -> & Hpj).
      assert (HB : bool_decide (Some i = Some j) = false) by (apply bool_decide_eq_false_2; congruence).
      destruct (decide (j ∈ ws)) as [Hjw|Hjw]; destruct (decide (head q = Some j)) as [Hx|Hx];
        cbn [fmap option_fmap option_map]; unfold signal, mark_done; cbn [cn_phase set_phase rank orb];
        rewrite HB; cbn [orb]; try (rewrite (bool_decide_eq_true_2 (head q = Some j)) by done);
        try (rewrite (bool_decide_eq_false_2 (head q = Some j)) by done);
        destruct Hpj as [-> | ->]; simpl; lia.
    + assert (j ∉ q /\ j ∉ ws) as [Hx1 Hx2] by (rewrite Eq in Hjq; rewrite elem_of_app in Hjq; tauto).
      rewrite (decide_False (P := j ∈ ws)) by done.
      assert (Hnh : head q <> Some j) by (intros Hx; by apply Hx1, head_elem).
      rewrite decide_False by done. destruct (conns y !! j) as [[cj kj []]|]; simpl; try done.
      rewrite (bool_decide_eq_false_2 (head q = Some j)) by done.
      rewrite (bool_decide_eq_false_2 (Some i = Some j)) by congruence. done.
Qed.

Lemma measure_step y σ l y' : group_inv y σ -> step psend y Work l y' -> (measure y' < measure y)%nat.
Proof.
  intros HI Hs. pose proof (gi_lock _ _ HI) as HL. inversion Hs; subst; clear Hs;
    try (by eapply measure_enter); try (by eapply measure_mark);
    (eapply measure_move; [eassumption|done|done|]); simpl; try lia; try (case_bool_decide; simpl; lia).
  - rewrite bool_decide_eq_false_2 by done. simpl. lia.
  - destruct d; simpl; [lia|]. case_bool_decide; lia.
Qed.
End measure.

(** ** Every call returns *)

Section live.
Context {DB : Type} `{DBTypeOk DB} `{Nic}.
Variable psend : send_wr -> Z.
Hypothesis get_missing_none : forall db key, contents db !! key = None -> db_Get db key = Done None.
Implicit Types (y : @sys DB).

(** runs without new calls and spurious wake-ups *)
Inductive work_steps y : nat -> @sys DB -> Prop :=
  | work_nil : work_steps y 0 y
  | work_snoc n y' l y'' : work_steps y n y' -> step psend y' Work l y'' -> work_steps y (S n) y''.

Lemma work_steps_inv y n y' σ :
  group_inv y σ -> work_steps y n y' ->
  exists σ', group_inv y' σ' /\ (n + measure y' <= measure y)%nat.
Proof.
  intros HI. induction 1 as [|n y' l y'' _ (σ' & HI' & IH) Hs]; [by exists σ|].
  destruct (group_step psend _ _ _ _ _ HI' Hs) as (σ2 & _ & HI2). exists σ2. split; [done|].
  pose proof (measure_step psend _ _ _ _ HI' Hs). lia.
Qed.

Lemma notify_front_dom q cs : dom (notify_front q cs) = dom cs.
Proof. destruct q; [done|apply dom_alter_L]. Qed.

Lemma mark_loop_dom self last q cs q' cs' : mark_loop self last q cs = Done (q', cs') -> dom cs' = dom cs.
Proof.
  revert cs; induction q as [|w q IH]; intros cs; simpl; [done|]. intros E.
  assert (Hd : dom (if decide (w = self) then cs else alter mark_done w cs) = dom cs)
    by (destruct (decide (w = self)); [done|apply dom_alter_L]).
  rewrite <- Hd. destruct (decide (w = last)); [by injection E as <- <-|by apply IH].
Qed.

Lemma work_conns y n y' : work_steps y n y' -> size (conns y') = size (conns y).
Proof.
  induction 1 as [|n y' l y'' _ IH Hs]; [done|]. rewrite <- IH. clear IH. rewrite <- !size_dom. f_equal.
  assert (Hins : forall i cn cn' (cs : gmap nat conn), cs !! i = Some cn -> dom (<[i := cn']> cs) = dom cs).
  { intros i cn cn' cs Hi. apply dom_insert_lookup_L. by eexists. }
  inversion Hs; subst; clear Hs; simpl; try (by eapply Hins).
  match goal with E : mark_loop _ _ _ _ = Done _ |- _ => apply mark_loop_dom in E; rename E into Hd end.
  rewrite dom_insert_L, notify_front_dom, Hd.
  assert (i ∈ dom (conns y')) by (apply elem_of_dom; by eexists). set_solver.
Qed.

End live.

Lemma example_get_missing (db : gmap bytes bytes) key :
  contents db !! key = None -> db_Get db key = Done None.
Proof. intros E. simpl in *. unfold LevelDB.Get. simpl. by rewrite E. Qed.

