(* ===== verification/Generator.v ===== *)
(** * Generator: include/generator.h

    The keys and values the benchmark and the tests send.  [VALUE_POOL] is the
    array of the source with its terminating NUL, so that
    [blen VALUE_POOL = sizeof(VALUE_POOL)]. *)

From Stdlib.Strings Require Import Byte.
From S2P Require Import Prelude.

Definition KEY_PREFIX : bytes := text "KEY_".

Definition VALUE_POOL : bytes :=
  text "l9hd62^dfh.pxrC6ZU79OnfCZ06DsNXWY3U4dt1JTGQVvylBdZSlHWXC4PokCxsMdjv8xRptFMMQyH12DEr7Zur" ++
  text "tZpsyreMmPwuw7WMRnoN5wAYWtkqDwXyQlYb4RgtSc4xsonpTx2UhIUi15oJTx1CXAhmECacCQf4eeJ9Utus0N" ++
  text "mKgEFV8qYDsNtJ21TkjCyCDhVIATkEugCw1BfNIB9AZDGiqXc0llp4rlJPl4bIG2QC4La3M1oh3yIGkolpdoYV" ++
  text "er1dc9EfQz88q5Hv00g53Q3H6jcgicoY8YW5K4josd2e53ikesQi2kzqvTI9xxM5wtFexkFm8wFdTf37Hz204w" ++
  text "fQErGZkdMnRxXJ5EJ627e7zuFuVtazb0L65B3nU5R9tyUl2bTZiDcakK9evrTXoTkbkGjkCOiMSTNCzlUZCxof" ++
  text "jYQCLusRkXEm0CNVuifTnytctwLfKjwob4hJ0WxlQN9FV9Mm9zT61EQ8zEMrqr6hf7XMqhcQR7DWAKaspUaU6h" ++
  text "oP2w3t3MktVaBp6MgS6Apbkb7EsihETHHqKFkKMCkYBbKfgsq7Jy49T1Wx2UJsD3XX03kVBbqRWmrjIKzqQEnN" ++
  text "sd0f-0d09540936/.f/dfprjetroeijtte0985409609254fj/.s.1293@1!$43556oi5y6o54yi6ikjsdbfsd" ++
  text ")(*7^hdjdyf484*^%$$3{}}{}{POI)_IUOHH&*^^&$Dydyutd65456djug(*_(*OIHJHKJBKJBKJB@A@A$gggg" ++
  text "+_0-8435906IYWV79364ngkbo5m788*()M<:>><:Lpkdfgmgrtjyoyij5yj657i6509ju560ju560ju0uj0uj6" ++
  text "NvhE8N7yR26fgHncH6QbsI10HyxlvYHKFiMk5nPNDbffueF2xKLzteSd0NazU2APkJWXvBW2oUu8dkZnWMM8TH" ++
  text "vrUoLDWwMdh14MfxwmEQbtGnUHEpRktUB6b7JTJN8IHyxlvYHKFiMk5nPND()bueF2xKLz;|@f,t" ++ [x00].

(** the [n] low decimal digits of [z], the most significant first *)
Fixpoint decimal (n : nat) (z : Z) : bytes :=
  match n with
  | O => []
  | S n' => decimal n' (z / 10) ++ [z2b (48 + z mod 10)]
  end.

(** [sprintf(buf, "%0*d", 12, i)]: an [int] has at most ten digits, so the
    result has twelve characters *)
Definition print_int12 (i : Z) : bytes :=
  if i <? 0 then x2d :: decimal 11 (- i) else decimal 12 i.

(** [key_num] is a [uint32_t] that [sprintf] reads as an [int] *)
Definition BuildKey (key_num : Z) : bytes :=
  KEY_PREFIX ++ take 12 (print_int12 (i32 key_num)).

(** The loop of [BuildValue].  The comparison is one of [unsigned] values, and
    [cur_length] an [int] whose overflow is undefined. *)
Fixpoint BuildValue_loop (fuel : nat) (length cur_length : Z) (result : bytes) : outcome bytes :=
  match fuel with
  | O => Hangs
  | S fuel' =>
      if u32 cur_length <? length then
        let cut_len := Z.min (u32 (length - cur_length)) (blen VALUE_POOL) in
        if 2 ^ 31 <=? cur_length + cut_len then Undefined else
        BuildValue_loop fuel' length (cur_length + cut_len)
          (result ++ take (Z.to_nat cut_len) VALUE_POOL)
      else Done result
  end.

Definition BuildValue (length : Z) (key : bytes) : outcome bytes :=
  let result := text "VALUE_" ++ key in
  let length := u32 (length - blen result) in
  BuildValue_loop (Z.to_nat (length / blen VALUE_POOL + 2)) length 0 result.

(** what [strlen] and [strcpy] see of a [std::string] through [c_str] *)
Definition c_str (s : bytes) : bytes := take (Z.to_nat (strlen s)) s.

(** ** Keys *)

Fixpoint decimal_val (bs : bytes) : Z :=
  match bs with
  | [] => 0
  | b :: bs' => (b2z b - 48) * 10 ^ blen bs' + decimal_val bs'
  end.

Lemma decimal_val_snoc bs b : decimal_val (bs ++ [b]) = 10 * decimal_val bs + (b2z b - 48).
Proof.
  induction bs as [|x bs IH]; [cbn [app decimal_val]; rewrite blen_nil; lia|]. cbn [app decimal_val]. rewrite IH, blen_app.
  change (blen [b]) with 1. rewrite Z.pow_add_r by (pose proof (blen_nonneg bs); lia). lia.
Qed.

Lemma length_decimal n z : length (decimal n z) = n.
Proof. revert z; induction n; intros; simpl; [done|]. rewrite length_app, IHn. simpl. lia. Qed.

Lemma decimal_val_decimal n z : 0 <= z < 10 ^ Z.of_nat n -> decimal_val (decimal n z) = z.
Proof.
  revert z; induction n as [|n IH]; intros z Hz; [change (10 ^ Z.of_nat 0) with 1 in Hz; simpl; lia|]. cbn [decimal].
  rewrite decimal_val_snoc, b2z_z2b. rewrite Nat2Z.inj_succ, Z.pow_succ_r in Hz by lia.
  rewrite IH by (split; [apply Z.div_pos; lia|apply Z.div_lt_upper_bound; lia]).
  pose proof (Z.mod_pos_bound z 10 ltac:(lia)). pose proof (Z.div_mod z 10 ltac:(lia)).
  rewrite (Z.mod_small (48 + _)) by lia. lia.
Qed.

(** every character of a number is a digit *)
Lemma decimal_digits n z : Forall (fun b => 48 <= b2z b < 58) (decimal n z).
Proof.
  revert z; induction n as [|n IH]; intros z; [constructor|]. cbn [decimal].
  apply Forall_app; split; [apply IH|]. repeat constructor; rewrite b2z_z2b;
    pose proof (Z.mod_pos_bound z 10); rewrite Z.mod_small; lia.
Qed.

Lemma length_print_int12 i : length (print_int12 i) = 12%nat.
Proof. unfold print_int12. case_match; cbn [length]; by rewrite length_decimal. Qed.

Lemma print_int12_inj i j :
  - 2 ^ 31 <= i < 2 ^ 31 -> - 2 ^ 31 <= j < 2 ^ 31 -> print_int12 i = print_int12 j -> i = j.
Proof.
  intros Hi Hj. unfold print_int12.
  assert (Hd : forall z, 0 <= z -> head (decimal 12 z) <> Some x2d).
  { intros z Hz Heq. pose proof (decimal_digits 12 z) as Hf.
    destruct (decimal 12 z) as [|b bs]; [done|]. injection Heq as ->. apply Forall_inv in Hf.
    vm_compute in Hf. destruct Hf as [Hf _]. by apply Hf. }
  destruct (Z.ltb_spec i 0), (Z.ltb_spec j 0); intros E.
  - apply (f_equal tail), (f_equal decimal_val) in E. cbn [tail] in E. rewrite !decimal_val_decimal in E by lia. lia.
  - exfalso. apply (Hd j); [done|]. by rewrite <- E.
  - exfalso. apply (Hd i); [done|]. by rewrite E.
  - apply (f_equal decimal_val) in E. rewrite !decimal_val_decimal in E by lia. lia.
Qed.

(** Two numbers have two keys; every key is sixteen characters, none of them
    NUL. *)
Lemma BuildKey_injective a b :
  0 <= a < 2 ^ 32 -> 0 <= b < 2 ^ 32 -> BuildKey a = BuildKey b -> a = b.
Proof.
  intros Ha Hb E. unfold BuildKey in E. apply app_inv_head in E.
  rewrite !take_ge in E by (rewrite length_print_int12; lia).
  assert (i32 a = i32 b) as Ei.
  { apply print_int12_inj; [| |done]; unfold i32; pows;
      [pose proof (Z.mod_pos_bound (a + 2147483648) 4294967296)
      |pose proof (Z.mod_pos_bound (b + 2147483648) 4294967296)]; lia. }
  unfold i32 in Ei. pows.
  assert ((a + 2147483648) mod 4294967296 = (b + 2147483648) mod 4294967296) as Em by lia.
  pose proof (Z.div_mod (a + 2147483648) 4294967296 ltac:(lia)).
  pose proof (Z.div_mod (b + 2147483648) 4294967296 ltac:(lia)).
  pose proof (Z.mod_pos_bound (a + 2147483648) 4294967296 ltac:(lia)).
  assert ((a + 2147483648) / 4294967296 = (b + 2147483648) / 4294967296 \/
    (a + 2147483648) / 4294967296 <> (b + 2147483648) / 4294967296) as [Hq|Hq] by lia; lia.
Qed.

Lemma BuildKey_shape n : blen (BuildKey n) = 16 /\ cstring (BuildKey n).
Proof.
  unfold BuildKey. rewrite take_ge by (rewrite length_print_int12; lia). split.
  - rewrite blen_app. unfold blen at 2. by rewrite length_print_int12.
  - apply Forall_app; split; [repeat constructor; discriminate|].
    assert (Hc : forall k z, Forall (fun b => b <> x00) (decimal k z)).
    { intros k z. refine (list.Forall_impl _ _ _ (decimal_digits k z) _). intros b Hb; cbv beta in Hb; intros ->.
      vm_compute in Hb. destruct Hb as [Hb _]. by apply Hb. }
    unfold print_int12. case_match; [constructor; [discriminate|]|]; apply Hc.
Qed.

(** ** Values *)

Lemma blen_VALUE_POOL : blen VALUE_POOL = 1024.
Proof. reflexivity. Qed.
#[local] Opaque VALUE_POOL.

(** the pool repeated [k] times *)
Definition pool_stream (k : nat) : bytes := concat (replicate k VALUE_POOL).

Lemma BuildValue_loop_spec fuel k length cur res :
  0 <= cur <= length -> length < 2 ^ 31 -> length - cur <= 1024 * Z.of_nat k ->
  length - cur + 1023 < 1024 * Z.of_nat fuel ->
  BuildValue_loop fuel length cur res
  = Done (res ++ take (Z.to_nat (length - cur)) (pool_stream k)).
Proof.
  revert k cur res; induction fuel as [|fuel IH]; intros k cur res Hc Hl Hk Hf; [lia|].
  cbn [BuildValue_loop]. rewrite blen_VALUE_POOL, !u32_small by lia.
  destruct (Z.ltb_spec cur length) as [Hlt|Hge].
  - rewrite (proj2 (Z.leb_gt _ _)) by lia. destruct k as [|k]; [lia|].
    rewrite (IH k) by lia. f_equal. rewrite <- app_assoc. f_equal.
    unfold pool_stream. cbn [replicate concat].
    pose proof blen_VALUE_POOL as Hp. unfold blen in Hp.
    destruct (Z.le_gt_cases 1024 (length - cur)) as [Hm|Hm].
    + rewrite Z.min_r by lia. rewrite (take_ge VALUE_POOL) by lia. rewrite take_app_ge by lia.
      do 2 f_equal. lia.
    + rewrite Z.min_l by lia. rewrite take_app_le by lia.
      replace (Z.to_nat (length - (cur + (length - cur)))) with O by lia. by rewrite app_nil_r.
  - replace (Z.to_nat (length - cur)) with O by lia. by rewrite app_nil_r.
Qed.

(** past [INT_MAX] the loop overflows *)
Lemma BuildValue_loop_overflow fuel length cur res :
  0 <= cur < 2 ^ 31 -> 2 ^ 31 <= length < 2 ^ 32 -> 2 ^ 31 - cur <= 1024 * Z.of_nat fuel ->
  BuildValue_loop fuel length cur res = Undefined.
Proof.
  revert cur res; induction fuel as [|fuel IH]; intros cur res Hc Hl Hf; [lia|].
  cbn [BuildValue_loop]. rewrite blen_VALUE_POOL, !u32_small, (proj2 (Z.ltb_lt _ _)) by lia.
  destruct (Z.leb_spec (2 ^ 31) (cur + Z.min (length - cur) 1024)); [done|].
  apply IH; lia.
Qed.

(** [BuildValue] makes a value of exactly [length] characters, [VALUE_], the
    key, and the pool repeated, when [length] leaves room for the first two;
    otherwise [length] wraps around and the loop overflows its counter. *)
Lemma BuildValue_spec length key :
  0 <= length < 2 ^ 31 -> blen key < 2 ^ 30 ->
  BuildValue length key =
    if 6 + blen key <=? length
    then Done (text "VALUE_" ++ key ++
      take (Z.to_nat (length - (6 + blen key))) (pool_stream (Z.to_nat (length / 1024 + 1))))
    else Undefined.
Proof.
  intros Hl Hk. unfold BuildValue. rewrite blen_app, blen_VALUE_POOL.
  change (blen (text "VALUE_")) with 6. pose proof (blen_nonneg key).
  destruct (Z.leb_spec (6 + blen key) length) as [Hle|Hgt].
  - rewrite u32_small by lia.
    pose proof (Z.div_mod (length - (6 + blen key)) 1024 ltac:(lia)).
    pose proof (Z.mod_pos_bound (length - (6 + blen key)) 1024 ltac:(lia)).
    pose proof (Z.div_mod length 1024 ltac:(lia)). pose proof (Z.mod_pos_bound length 1024 ltac:(lia)).
    rewrite (BuildValue_loop_spec _ (Z.to_nat (length / 1024 + 1))) by lia.
    by rewrite Z.sub_0_r, <- app_assoc.
  - replace (u32 (length - (6 + blen key))) with (length - (6 + blen key) + 2 ^ 32).
    + pose proof (Z.div_mod (length - (6 + blen key) + 2 ^ 32) 1024 ltac:(lia)).
      pose proof (Z.mod_pos_bound (length - (6 + blen key) + 2 ^ 32) 1024 ltac:(lia)).
      apply BuildValue_loop_overflow; lia.
    + unfold u32. rewrite <- (Z.mod_add _ 1) by lia. rewrite Z.mod_small; lia.
Qed.
