(* ===== verification/Socket.v ===== *)
(** * Socket: rdmautil/socketutil.h and socketutil.cc

    The TCP sockets over which the two sides find each other.  The operating
    system is the class [Os]: what a call returns, and what [read] stores, may
    depend on every call made before.  Code that makes system calls is an [io]
    computation: it extends the trace of the calls made, and ends with an
    [outcome]. *)

From Stdlib.Strings Require Import Byte.
From S2P Require Import Prelude.

Inductive SockType := CLIENT | SERVER.
#[export] Instance SockType_eq_dec : EqDecision SockType.
Proof. solve_decision. Defined.

(** the system calls of the program, with the arguments that matter *)
Inductive syscall :=
  | sys_socket | sys_setsockopt (fd : Z) | sys_bind (fd port : Z) | sys_listen (fd backlog : Z)
  | sys_accept (fd : Z) | sys_inet_pton (addr : bytes) | sys_connect (fd port : Z) (addr : bytes)
  | sys_send (fd : Z) (bs : bytes) | sys_read (fd len : Z) | sys_close (fd : Z) | sys_shutdown (fd : Z)
  | sys_stat (path : bytes) | sys_access (path : bytes) | sys_mkdir (path : bytes) | sys_open (path : bytes)
  | sys_ftruncate (fd size : Z) | sys_lseek (fd : Z) | sys_mmap (fd size offset : Z).

Abbreviation trace := (list syscall).

Class Os := {
  os : trace -> syscall -> Z;
  os_data : trace -> Z -> bytes;
  os_isdir : trace -> bytes -> bool }.

(** ** The monad *)

Definition io (A : Type) : Type := trace -> trace * outcome A.

#[export] Instance io_ret : MRet io := fun A a t => (t, Done a).
#[export] Instance io_bind : MBind io := fun A B f m t =>
  let (t', r) := m t in
  match r with
  | Done a => f a t'
  | Exited n => (t', Exited n)
  | Asserted => (t', Asserted)
  | Thrown => (t', Thrown)
  | Undefined => (t', Undefined)
  | Hangs => (t', Hangs)
  end.

Definition stop {A} (r : outcome A) : io A := fun t => (t, r).
Definition sys `{Os} (c : syscall) : io Z := fun t => (t ++ [c], Done (os t c)).

Definition sys_recv `{Os} (fd len : Z) : io (Z * bytes) :=
  fun t => (t ++ [sys_read fd len], Done (os t (sys_read fd len), os_data t fd)).

Lemma io_bind_done {A B} (f : A -> io B) (m : io A) t t' b :
  (m ≫= f) t = (t', Done b) <-> exists t1 a, m t = (t1, Done a) /\ f a t1 = (t', Done b).
Proof.
  unfold mbind, io_bind. destruct (m t) as [t1 r]. split.
  - destruct r; try discriminate. eauto.
  - by intros (t2 & a & [= -> ->] & E).
Qed.

Lemma stop_done {A} (r : outcome A) t t' a : stop r t = (t', Done a) <-> t' = t /\ r = Done a.
Proof. unfold stop. split; [by intros [= -> ->]|by intros [-> ->]]. Qed.

(** Inverts a hypothesis saying that a sequence of calls returned. *)
Ltac inv_io :=
  repeat match goal with
  | H : (_ ≫= _) _ = (_, Done _) |- _ =>
      let E := fresh "E" in apply io_bind_done in H; destruct H as (? & ? & E & H); cbv beta iota zeta in H
  | H : stop _ _ = (_, Done _) |- _ => apply stop_done in H; destruct H as [? H]; subst
  | H : mret _ _ = (_, Done _) |- _ => injection H as H; subst
  | H : sys _ _ = (_, Done _) |- _ => injection H as H; subst
  end.

(** [if(failed(call)) { perror(...); exit(EXIT_FAILURE); }] *)
Definition checked `{Os} (c : syscall) (failed : Z -> bool) : io Z :=
  r ← sys c; if failed r then stop (Exited 1) else mret r.
Definition negative (r : Z) : bool := r <? 0.
Definition nonzero (r : Z) : bool := negb (r =? 0).
Definition not_positive (r : Z) : bool := r <=? 0.

(** ** Socket *)

Record Socket := { socktype : SockType; listen_sock : Z; commu_sock : list Z }.

Definition MTU : Z := 256.

(** the constructor *)
Definition new_Socket (t : SockType) : Socket :=
  {| socktype := t; listen_sock := -1; commu_sock := [] |}.

Definition with_listen (s : Socket) (fd : Z) : Socket :=
  {| socktype := socktype s; listen_sock := fd; commu_sock := commu_sock s |}.
Definition push_commu (s : Socket) (fd : Z) : Socket :=
  {| socktype := socktype s; listen_sock := listen_sock s; commu_sock := commu_sock s ++ [fd] |}.

Section socket.
Context `{Os}.

Definition make_socket (s : SockType) (port : Z) (ipaddr : bytes) : io Socket :=
  let new_socket := new_Socket s in
  init_sock ← checked sys_socket negative;
  match s with
  | SERVER =>
      let new_socket := with_listen new_socket init_sock in
      _ ← checked (sys_setsockopt (listen_sock new_socket)) nonzero;
      _ ← checked (sys_bind (listen_sock new_socket) port) negative;
      _ ← checked (sys_listen (listen_sock new_socket) 3) negative;
      new_commu_sock ← checked (sys_accept (listen_sock new_socket)) negative;
      mret (push_commu new_socket new_commu_sock)
  | CLIENT =>
      _ ← stop (c_assert (0 <? blen ipaddr));
      let new_socket := push_commu new_socket init_sock in
      _ ← checked (sys_inet_pton ipaddr) not_positive;
      _ ← checked (sys_connect init_sock port ipaddr) negative;
      mret new_socket
  end.

(** the port only fills the address that [accept] overwrites *)
Definition NewChannel (s : Socket) (port : Z) : io (Socket * Z) :=
  _ ← stop (c_assert (bool_decide (socktype s = SERVER)));
  _ ← checked (sys_listen (listen_sock s) 3) negative;
  new_commu_sock ← checked (sys_accept (listen_sock s)) negative;
  mret (push_commu s new_commu_sock, new_commu_sock).

(** [commu_sock[0]] *)
Definition GetFirst (s : Socket) : outcome Z :=
  match commu_sock s with fd :: _ => Done fd | [] => Undefined end.

(** what [send] and [read] return, as a [size_t] *)
Definition Send (s : Socket) (buf : bytes) : io Z :=
  _ ← stop (c_assert (blen buf <=? MTU));
  fd ← stop (GetFirst s);
  r ← sys (sys_send fd buf); mret (u64 r).
Definition Recv (s : Socket) (len : Z) : io (Z * bytes) :=
  _ ← stop (c_assert (len <=? MTU));
  fd ← stop (GetFirst s);
  '(r, buf) ← sys_recv fd len; mret (u64 r, buf).

(** the destructor: the descriptors it closes or shuts down, in order *)
Fixpoint close_all (fds : list Z) : io unit :=
  match fds with
  | [] => mret tt
  | fd :: rest => _ ← sys (sys_close fd); close_all rest
  end.
Definition delete_Socket (s : Socket) : io unit :=
  match socktype s with
  | SERVER => _ ← close_all (commu_sock s); _ ← sys (sys_shutdown (listen_sock s)); mret tt
  | CLIENT => fd ← stop (GetFirst s); _ ← sys (sys_close fd); mret tt
  end.

(** ** The calls a set-up makes

    A list of calls, each with its test for failure, made in order up to the
    first that fails. *)
Fixpoint first_failure (t : trace) (calls : list (syscall * (Z -> bool))) : trace * bool :=
  match calls with
  | [] => (t, true)
  | (c, failed) :: rest =>
      if failed (os t c) then (t ++ [c], false) else first_failure (t ++ [c]) rest
  end.

Definition server_calls (fd port : Z) : list (syscall * (Z -> bool)) :=
  [(sys_setsockopt fd, nonzero); (sys_bind fd port, negative); (sys_listen fd 3, negative);
   (sys_accept fd, negative)].
Definition client_calls (fd port : Z) (ipaddr : bytes) : list (syscall * (Z -> bool)) :=
  [(sys_inet_pton ipaddr, not_positive); (sys_connect fd port ipaddr, negative)].

(** A set-up makes its calls in order; the first that fails ends the program
    with [EXIT_FAILURE], no call is made after it; when none fails the socket
    has its descriptors: [make_socket] never returns a half-made one. *)
Lemma make_socket_spec s port ipaddr t :
  let fd := os t sys_socket in
  let t0 := t ++ [sys_socket] in
  make_socket s port ipaddr t =
    if fd <? 0 then (t0, Exited 1) else
    match s with
    | SERVER =>
        let (t', ok) := first_failure t0 (server_calls fd port) in
        (t', if ok then Done {| socktype := SERVER; listen_sock := fd;
               commu_sock := [os (removelast t') (sys_accept fd)] |} else Exited 1)
    | CLIENT =>
        if 0 <? blen ipaddr then
          let (t', ok) := first_failure t0 (client_calls fd port ipaddr) in
          (t', if ok then Done {| socktype := CLIENT; listen_sock := -1; commu_sock := [fd] |}
               else Exited 1)
        else (t0, Asserted)
    end.
Proof.
  intros fd t0. unfold make_socket, checked, sys, stop, mbind, io_bind, mret, io_ret.
  fold fd t0. unfold negative at 1. destruct (fd <? 0); [done|]. destruct s.
  - unfold c_assert. destruct (0 <? blen ipaddr); [|done].
    cbn [client_calls first_failure].
    destruct (not_positive _); [done|]. by destruct (negative _).
  - cbn [with_listen listen_sock new_Socket server_calls first_failure].
    destruct (nonzero _); [done|]. do 2 (destruct (negative _); [done|]).
    destruct (negative _); [done|]. by rewrite removelast_last.
Qed.

(** the channels of a server are the ones accepted, in order *)
Lemma NewChannel_spec s port t :
  socktype s = SERVER ->
  let l := sys_listen (listen_sock s) 3 in
  let a := sys_accept (listen_sock s) in
  NewChannel s port t =
    if os t l <? 0 then (t ++ [l], Exited 1) else
    let fd := os (t ++ [l]) a in
    if fd <? 0 then (t ++ [l] ++ [a], Exited 1)
    else (t ++ [l] ++ [a], Done (push_commu s fd, fd)).
Proof.
  intros Hs l a. unfold NewChannel, checked, sys, stop, mbind, io_bind, mret, io_ret, negative, c_assert.
  rewrite bool_decide_true by done. fold l. destruct (os t l <? 0); [done|]. fold a.
  rewrite <- app_assoc. by destruct (os (t ++ [l]) a <? 0).
Qed.

(** the first channel stays the first *)
Lemma GetFirst_push s fd fd' : GetFirst s = Done fd -> GetFirst (push_commu s fd') = Done fd.
Proof. unfold GetFirst. simpl. by destruct (commu_sock s). Qed.
End socket.
