(* ===== verification/Setup.v ===== *)
(** * Setup: include/flags.h, include/instance.h, server.cc, and the
    constructors and [Listen] loops of the front ends

    From a [MyOption] to a running server and its clients: the choice of the
    back end and of the front end, the RDMA device and context of each side,
    and the loops that accept clients and start a clerk for each. *)

From Stdlib.Strings Require Import Byte.
From S2P Require Import Prelude Buf Bitset Request Rdma DBType Uring RingLog Pmr PMem Group Socket.

(** ** flags.h *)

Record MyOption := {
  dir : bytes; pmem : bytes; cmb_device : bytes; rdma_device : bytes; port : Z; gid : Z;
  ipaddr : bytes; ipport : Z; front_type : bytes; client_num : Z; lat_mode : bool;
  db_type : bytes; sync : bool; opnum : Z; initnum : Z; valsize : Z;
  init_file : bytes; txn_file : bytes }.

Definition default_opt : MyOption := {|
  dir := text "/data/nvme0"; pmem := text "/dev/dax1.0";
  cmb_device := text "/dev/nvme0"; rdma_device := text "mlx5_0"; port := 1; gid := 3;
  ipaddr := text "192.168.2.1"; ipport := 4040;
  front_type := text "pmraccess"; client_num := 1; lat_mode := false;
  db_type := text "cuckoodb"; sync := true;
  opnum := 1000; initnum := 0; valsize := 40;
  init_file := text "/home/lyp/pmraccess/build/dataset.dat";
  txn_file := text "/home/lyp/pmraccess/build/query.dat" |}.

Definition with_front (o : MyOption) (front db : bytes) : MyOption := {|
  dir := dir o; pmem := pmem o; cmb_device := cmb_device o; rdma_device := rdma_device o;
  port := port o; gid := gid o; ipaddr := ipaddr o; ipport := ipport o;
  front_type := front; client_num := client_num o; lat_mode := lat_mode o;
  db_type := db; sync := sync o; opnum := opnum o; initnum := initnum o;
  valsize := valsize o; init_file := init_file o; txn_file := txn_file o |}.

(** ** The back end *)

(** the object behind a [DBType *]; [L] and [T] are the states of the two
    libraries *)
Inductive database (L T : Type) := db_level (s : L) | db_cuckoo (m : T) | db_null.
Arguments db_level {L T} s.
Arguments db_cuckoo {L T} m.
Arguments db_null {L T}.

Definition OpenDB {L T} `{LevelDBStore L} `{CuckooMap bytes T}
    (Open : LevelDB.Options -> bytes -> option L) (opt : MyOption) : outcome (database L T) :=
  if bool_decide (db_type opt = text "leveldb")
  then s ← LevelDB.LevelDB Open (dir opt) (db_type opt) (sync opt); Done (db_level s)
  else if bool_decide (db_type opt = text "cuckoodb")
  then Done (db_cuckoo (CuckooDB.CuckooDB (dir opt) (db_type opt) (sync opt)))
  else Done db_null.

Section setup.
Context `{Os} `{Verbs}.
(** the list of RDMA devices, and what a connected socket gives: writing a
    certificate, reading one, and the adapter's answers to [ibv_modify_qp] *)
Variable devices : option (list (bytes * option Z)).
Variable link : Z -> (bytes -> Z) * (Z * bytes) * (qp_attr -> list qp_mask -> Z).

(** ** Contexts *)

Definition find_rdma (opt : MyOption) : outcome RDMADevice :=
  match make_rdma devices (rdma_device opt) (port opt) (gid opt) with
  | Some d => Done d
  | None => Asserted
  end.

(** [open] and the use of the context it returned, which is the null pointer
    when opening failed: the failure is only printed *)
Definition open_context (d : RDMADevice) : outcome RDMAContext :=
  match (Rdma.open d).1.1 with Some c => Done c | None => Undefined end.

Definition client_context (opt : MyOption) (size : Z) : outcome RDMAContext :=
  d ← find_rdma opt;
  c ← open_context d;
  Done (register_write_buf c (new_bytes size) size).1.

(** ** The clients *)

Inductive front_client :=
  | pmem_client (c : PMemClient) | pmr_client (c : PMRClient) | group_client (c : GroupClient).
Record Client := { client_id_ : Z; ip_ : bytes; port_ : Z; front : front_client }.

Definition make_front (opt : MyOption) (id size : Z) (make : RDMAContext -> front_client)
    : outcome Client :=
  c ← client_context opt size;
  Done {| client_id_ := id; ip_ := ipaddr opt; port_ := ipport opt; front := make c |}.

Definition NewPMemClient (opt : MyOption) (id : Z) : outcome Client :=
  make_front opt id (MAX_REQUEST + RING_HEADER)
    (fun c => pmem_client (PMem.make_client c (new_buf SEND_BUF_SIZE))).
Definition NewPMRClient (opt : MyOption) (id : Z) : outcome Client :=
  make_front opt id MAX_REQUEST
    (fun c => pmr_client (Pmr.make_client c (new_buf SEND_BUF_SIZE))).
Definition NewGroupClient (opt : MyOption) (id : Z) : outcome Client :=
  make_front opt id (MAX_REQUEST + RING_HEADER)
    (fun c => group_client (Group.make_client c (new_buf SEND_BUF_SIZE))).

Definition NewClient (opt : MyOption) (client_id : Z) : outcome (option Client) :=
  if bool_decide (front_type opt = text "pmemaccess")
  then c ← NewPMemClient opt client_id; Done (Some c)
  else if bool_decide (front_type opt = text "pmraccess")
  then c ← NewPMRClient opt client_id; Done (Some c)
  else if bool_decide (front_type opt = text "groupaccess")
  then c ← NewGroupClient opt client_id; Done (Some c)
  else Done None.

Definition GetClientID (c : Client) : Z := client_id_ c.

(** [Connect] up to the header word: the socket, the exchange of certificates
    over its first channel, the check of the write buffer *)
Definition exchange (fd : Z) (c : RDMAContext) : outcome RDMAContext :=
  let '(wr, rd, modify) := link fd in
  let '(c, ret, _) := default_connect wr rd modify c in
  if ret =? -1 then Exited (-1) else Done c.

Definition connect_channel (ip : bytes) (port : Z) (c : RDMAContext) : io RDMAContext :=
  socket ← make_socket CLIENT port ip;
  commu_fd ← stop (GetFirst socket);
  c ← stop (exchange commu_fd c);
  _ ← stop (c_assert (negb (get_write_buf c =? 0)));
  _ ← delete_Socket socket;
  mret c.

(** ** The servers *)

Record server_of (DB Log K : Type) := Server {
  device : RDMADevice; sdb : DB; sport : Z; shared : Log; clerk_num_ : Z; clerks : list K }.
Arguments Server {DB Log K} device sdb sport shared clerk_num_ clerks.
Arguments device {DB Log K} _.
Arguments sdb {DB Log K} _.
Arguments sport {DB Log K} _.
Arguments shared {DB Log K} _.
Arguments clerk_num_ {DB Log K} _.
Arguments clerks {DB Log K} _.

(** [clerk_num_++] and the new thread *)
Definition add_clerk {DB Log K} (s : server_of DB Log K) (k : K) : server_of DB Log K :=
  Server (device s) (sdb s) (sport s) (shared s) (i32 (clerk_num_ s + 1)) (clerks s ++ [k]).

(** The [do]/[while(true)] loop of [Listen], [n] clients having come: one clerk
    per channel, then the next channel.  [serve] is the body up to the
    thread. *)
Fixpoint listen_loop {DB Log K} (n : nat) (serve : server_of DB Log K -> Z -> io K)
    (socket : Socket) (commu_fd : Z) (s : server_of DB Log K) : io (server_of DB Log K) :=
  match n with
  | O => mret s
  | S n' =>
      k ← serve s commu_fd;
      let s := add_clerk s k in
      '(socket, commu_fd) ← NewChannel socket (sport s);
      listen_loop n' serve socket commu_fd s
  end.

Definition Listen {DB Log K} (n : nat) (serve : server_of DB Log K -> Z -> io K)
    (s : server_of DB Log K) : io (server_of DB Log K) :=
  socket ← make_socket SERVER (sport s) [];
  commu_fd ← stop (GetFirst socket);
  listen_loop n serve socket commu_fd s.

(** *** The persistent memory server

    The address of the mapping stands for the region; its bytes are [pmem_at]
    of the offset in the device. *)
Section pmem_server.
Context {DB : Type}.
Variable pmem_at : Z -> buf.

Definition PMemServer (opt : MyOption) (db : DB) (clerk_num : Z)
    : outcome (server_of DB bytes PMemClerk) :=
  d ← find_rdma opt;
  Done (Server d db (ipport opt) (pmem opt) clerk_num []).

Definition pmem_serve (dax_fd : Z) (s : server_of DB bytes PMemClerk) (commu_fd : Z)
    : io PMemClerk :=
  c ← stop (open_context (device s));
  pmemaddr ← sys (sys_mmap dax_fd PMEM_BUFSIZE (pmem_offset (clerk_num_ s)));
  if (pmemaddr =? 0) || (u64 pmemaddr =? 2 ^ 64 - 1) then stop (Exited (-1)) else
  c ← stop (exchange commu_fd (register_write_buf c pmemaddr PMEM_BUFSIZE).1);
  mret (PMem.make_clerk c (new_buf SEND_BUF_SIZE) (pmem_at (pmem_offset (clerk_num_ s)))).

Definition pmem_Listen (n : nat) (s : server_of DB bytes PMemClerk)
    : io (server_of DB bytes PMemClerk) :=
  socket ← make_socket SERVER (sport s) [];
  commu_fd ← stop (GetFirst socket);
  dax_fd ← sys (sys_open (shared s));
  _ ← stop (c_assert (3 <? dax_fd));
  listen_loop n (pmem_serve dax_fd) socket commu_fd s.
End pmem_server.

(** *** The PMR server *)
Section pmr_server.
Context {DB M : Type} `{CuckooMap Meta M}.

(** what every clerk shares: the messaging buffer's address, the log's ring *)
Record pmr_shared := { dmabuf_addr : Z; path_ : bytes; ring : IOuring; state : @PMRServer DB M }.

(** [queue_init] is what [io_uring_queue_init] returns *)
Definition new_PMRServer (opt : MyOption) (db : DB) (clerk_num queue_init : Z)
    : io (server_of DB pmr_shared PMRClerk) :=
  let db_dir := dir opt ++ text "/" ++ db_type opt in
  st ← sys (sys_stat db_dir);
  isdir ← (fun t => (t, Done (os_isdir t db_dir)));
  _ ← (if (st =? 0) && isdir then mret tt else _ ← sys (sys_mkdir db_dir); mret tt);
  let path := db_dir ++ text "/pmrlog.dat" in
  d ← stop (find_rdma opt);
  log_fd ← sys (sys_open path);
  _ ← stop (c_assert (3 <? log_fd));
  r ← sys (sys_ftruncate log_fd Uring.PREALLOCATE_SIZE);
  _ ← stop (c_assert (r =? 0));
  _ ← sys (sys_lseek log_fd);
  r ← stop (make_ring queue_init 64);
  mret (Server d db (ipport opt)
    {| dmabuf_addr := new_bytes MAX_DMABUF_SIZE; path_ := path; ring := r; state := make_server db |}
    clerk_num []).

Definition pmr_serve (s : server_of DB pmr_shared PMRClerk) (commu_fd : Z) : io PMRClerk :=
  c ← stop (open_context (device s));
  let c := (register_write_buf c (dmabuf_addr (shared s)) MAX_DMABUF_SIZE).1 in
  c ← stop (exchange commu_fd c);
  stop (Pmr.make_clerk c (new_buf SEND_BUF_SIZE)).

Definition pmr_Listen (n : nat) := Listen (DB := DB) n pmr_serve.
End pmr_server.

(** *** The group server *)
Section group_server.
Context {DB : Type}.

(** the log file, with the bytes [old] it held *)
Definition open_ringlog (old : gmap Z byte) (directory dbname : bytes) (sync : bool) : io RingLog :=
  let dir := directory ++ text "/" ++ dbname in
  r ← sys (sys_access dir);
  _ ← (if r =? 0 then mret tt else _ ← sys (sys_mkdir dir); mret tt);
  fd ← sys (sys_open (dir ++ text "/grouplog.dat"));
  ret ← sys (sys_ftruncate fd RingLog.PREALLOCATE_SIZE);
  _ ← stop (c_assert ((2 <? fd) && (ret =? 0)));
  _ ← sys (sys_lseek fd);
  mret (make_ringlog old sync).

Definition GroupServer (old : gmap Z byte) (opt : MyOption) (db : DB) (clerk_num : Z)
    : io (server_of DB RingLog GroupClerk) :=
  log ← open_ringlog old (dir opt) (db_type opt) (sync opt);
  d ← stop (find_rdma opt);
  mret (Server d db (ipport opt) log clerk_num []).

Definition group_serve (s : server_of DB RingLog GroupClerk) (commu_fd : Z) : io GroupClerk :=
  c ← stop (open_context (device s));
  let size := MAX_REQUEST + RING_HEADER in
  c ← stop (exchange commu_fd (register_write_buf c (new_bytes size) size).1);
  mret (Group.make_clerk c (new_buf SEND_BUF_SIZE)).

Definition group_Listen (n : nat) := Listen (DB := DB) n group_serve.
End group_server.

(** *** [NewServer] and the main function of server.cc *)
Section main.
Context {L T M : Type} `{LevelDBStore L} `{CuckooMap bytes T} `{CuckooMap Meta M}.

Inductive front_server :=
  | pmem_server (s : server_of (database L T) bytes PMemClerk)
  | pmr_server (s : server_of (database L T) (@pmr_shared (database L T) M) PMRClerk)
  | group_server (s : server_of (database L T) RingLog GroupClerk).

(** [clerk_num]: no constructor initialises [clerk_num_] *)
Variable clerk_num : Z.
Variable queue_init : Z.
Variable old_log : gmap Z byte.

Definition NewServer (opt : MyOption) (db : database L T) : io (option front_server) :=
  if bool_decide (front_type opt = text "pmemaccess")
  then s ← stop (PMemServer opt db clerk_num); mret (Some (pmem_server s))
  else if bool_decide (front_type opt = text "pmraccess")
  then s ← new_PMRServer opt db clerk_num queue_init; mret (Some (pmr_server s))
  else if bool_decide (front_type opt = text "groupaccess")
  then s ← GroupServer old_log opt db clerk_num; mret (Some (group_server s))
  else mret None.

Variable pmem_at : Z -> buf.

(** [s->Listen()], until [n] clients have come *)
Definition server_Listen (n : nat) (s : front_server) : io front_server :=
  match s with
  | pmem_server s => s ← pmem_Listen pmem_at n s; mret (pmem_server s)
  | pmr_server s => s ← pmr_Listen n s; mret (pmr_server s)
  | group_server s => s ← group_Listen n s; mret (group_server s)
  end.

(** [main] of server.cc, the two options parsed *)
Definition server_main (Open : LevelDB.Options -> bytes -> option L) (n : nat) (front db : bytes)
    : io front_server :=
  let opt := with_front default_opt front db in
  db ← stop (OpenDB Open opt);
  s ← NewServer opt db;
  match s with
  | None => stop (Exited (-1))
  | Some s => server_Listen n s
  end.
End main.

(** ** What the set-up guarantees *)

(** A front end is made exactly for the three names; any other name gives the
    null pointer and a message. *)
Definition front_known (name : bytes) : Prop :=
  name ∈ [text "pmemaccess"; text "pmraccess"; text "groupaccess"].

Lemma NewClient_known opt id r :
  NewClient opt id = Done r -> (r = None <-> ~ front_known (front_type opt)).
Proof.
  unfold NewClient, front_known. rewrite !elem_of_cons, elem_of_nil.
  repeat case_bool_decide; intros E; inv_done; naive_solver.
Qed.

(** a client carries its number and the address it will connect to *)
Lemma NewClient_id opt id c :
  NewClient opt id = Done (Some c) ->
  GetClientID c = id /\ ip_ c = ipaddr opt /\ port_ c = ipport opt.
Proof.
  unfold NewClient, NewPMemClient, NewPMRClient, NewGroupClient, make_front.
  repeat case_bool_decide; intros E; inv_done; naive_solver.
Qed.

(** The loop makes one clerk per client, after the ones there were, with
    consecutive numbers, and keeps the rest of the server. *)
Lemma listen_loop_spec {DB Log K} n (serve : server_of DB Log K -> Z -> io K) sk fd s t t' s' :
  listen_loop n serve sk fd s t = (t', Done s') ->
  length (clerks s') = (length (clerks s) + n)%nat /\
  (device s', sdb s', sport s', shared s') = (device s, sdb s, sport s, shared s) /\
  (0 <= clerk_num_ s -> clerk_num_ s + Z.of_nat n < 2 ^ 31 -> clerk_num_ s' = clerk_num_ s + Z.of_nat n).
Proof.
  revert sk fd s t; induction n as [|n IH]; intros sk fd s t E; cbn [listen_loop] in E.
  - inv_io. repeat split; lia.
  - inv_io. destruct x2 as [sk' fd']. apply IH in E as (F1 & F2 & F3). simpl in *.
    rewrite length_app in F1. split; [simpl in F1; lia|]. split; [exact F2|].
    intros H1 H2. unfold i32 in F3. pows. rewrite (Z.mod_small (_ + _)) in F3 by lia.
    rewrite F3; lia.
Qed.

(** The clerks of the persistent memory server have the regions of the device
    at the offsets of their numbers, in order. *)
Lemma pmem_loop_regions {DB} (pmem_at : Z -> buf) dax n sk fd (s : server_of DB bytes PMemClerk) t t' s' :
  0 <= clerk_num_ s -> clerk_num_ s + Z.of_nat n < 2 ^ 31 ->
  listen_loop n (pmem_serve pmem_at dax) sk fd s t = (t', Done s') ->
  map pk_pmem (clerks s') = map pk_pmem (clerks s) ++
    map (fun i => pmem_at (pmem_offset (clerk_num_ s + Z.of_nat i))) (seq 0 n).
Proof.
  revert sk fd s t; induction n as [|n IH]; intros sk fd s t H1 H2 E; cbn [listen_loop] in E.
  - inv_io. by rewrite app_nil_r.
  - inv_io. destruct x2 as [sk' fd']. apply IH in E; cbn [add_clerk clerk_num_ clerks] in *;
      unfold i32 in *; pows; rewrite ?(Z.mod_small (_ + _)) in * by lia; [|lia..].
    rewrite E, map_app, <- app_assoc. f_equal. cbn [map seq app]. rewrite Z.add_0_r.
    f_equal.
    + unfold pmem_serve in E0. inv_io. case_match; [by apply stop_done in E0 as [_ ?]|]. by inv_io.
    + rewrite (map_seq_shift _ 1 n). apply map_ext. intros i. do 2 f_equal. lia.
Qed.

(** An unknown database type is not an error of [main]: the server listens with
    the null pointer for a database. *)
Lemma OpenDB_null {L T} `{LevelDBStore L} `{CuckooMap bytes T} Open opt :
  db_type opt <> text "leveldb" -> db_type opt <> text "cuckoodb" ->
  OpenDB (L := L) (T := T) Open opt = Done db_null.
Proof. intros E1 E2. unfold OpenDB. by rewrite !bool_decide_false. Qed.

Definition server_db {L T M} (s : @front_server L T M) : database L T :=
  match s with pmem_server s => sdb s | pmr_server s => sdb s | group_server s => sdb s end.

Lemma server_main_db {L T M} `{LevelDBStore L} `{CuckooMap bytes T} `{CuckooMap Meta M}
    num qi old pmem_at Open n front db t t' s :
  server_main (L := L) (T := T) (M := M) num qi old pmem_at Open n front db t = (t', Done s) ->
  front_known front /\ OpenDB Open (with_front default_opt front db) = Done (server_db s).
Proof.
  unfold server_main, NewServer, front_known. intros E. inv_io.
  rewrite !elem_of_cons, elem_of_nil. simpl in E0.
  assert (Hl : forall Lg K sv sk fd (s0 s1 : server_of (database L T) Lg K) u u',
    listen_loop n sv sk fd s0 u = (u', Done s1) -> sdb s1 = sdb s0).
  { intros * El. apply listen_loop_spec in El as (_ & [= _ Hs _ _] & _). done. }
  repeat (case_bool_decide; [|]); inv_io; try discriminate; (split; [tauto|]);
    rewrite E0; f_equal; unfold server_Listen, pmem_Listen, pmr_Listen, group_Listen, Listen in E;
    inv_io; cbn [server_db];
    match goal with E : listen_loop _ _ _ _ _ _ = _ |- _ => apply Hl in E; rewrite E end;
    unfold PMemServer, new_PMRServer, GroupServer in *; inv_io; by inv_done.
Qed.
End setup.
