(* ===== verification/Front.v ===== *)
(** * Front: the class [Client] of frontend/cs.h

    What the benchmark and the tests use of a front end, as a type class; and
    what they may rely on, as a second one: the calls of one client read and
    change a finite map.  The persistent memory front end is an instance over
    any back end. *)

From Stdlib.Strings Require Import Byte.
From S2P Require Import Prelude Buf Request Rdma Message DBType PMem.

(** the state of one client, its clerk and the database *)
Class FrontClient (St : Type) := {
  fc_SendPut : bytes -> bytes -> St -> outcome St;
  fc_SendUpdate : bytes -> bytes -> St -> outcome St;
  fc_SendGet : bytes -> St -> outcome (St * option bytes);
  fc_SendDelete : bytes -> St -> outcome (St * bool) }.

(** a record every front end supports *)
Definition pair_ok (key val : bytes) : Prop := record_ok (Entry PUT key val) /\ value_ok val.
#[export] Instance pair_ok_dec key val : Decision (pair_ok key val).
Proof. unfold pair_ok, value_ok. apply _. Defined.

(** [fc_holds s m]: the client is idle and what it can read is [m] *)
Class FrontClientOk (St : Type) `{FrontClient St} := {
  fc_holds : St -> gmap bytes bytes -> Prop;
  fc_put_ok : forall s m key val, fc_holds s m -> pair_ok key val ->
    exists s', fc_SendPut key val s = Done s' /\ fc_holds s' (<[key := val]> m);
  fc_update_ok : forall s m key val, fc_holds s m -> pair_ok key val ->
    exists s', fc_SendUpdate key val s = Done s' /\ fc_holds s' (<[key := val]> m);
  fc_get_ok : forall s m key val, fc_holds s m -> m !! key = Some val -> key_ok key ->
    exists s', fc_SendGet key s = Done (s', Some val) /\ fc_holds s' m;
  fc_delete_ok : forall s m key, fc_holds s m -> key_ok key ->
    exists s', fc_SendDelete key s = Done (s', true) /\ fc_holds s' (delete key m) }.

(** a front end that also answers a [SendGet] of a missing key *)
Class FrontMissingOk (St : Type) `{FrontClientOk St} :=
  fc_get_missing : forall s m key, fc_holds s m -> m !! key = None -> key_ok key ->
    exists s', fc_SendGet key s = Done (s', None) /\ fc_holds s' m.

Lemma pair_ok_key key val : pair_ok key val -> key_ok key.
Proof. intros [(Hk & _ & Hs) _]. split; [done|]. unfold entry_size in Hs. simpl in Hs. pose proof (blen_nonneg val). lia. Qed.

(** ** The persistent memory front end *)

Section pmem.
Context {DB : Type} `{DBTypeOk DB} `{Nic}.
Variable psend : send_wr -> Z.

#[export] Instance pmem_front : FrontClient (@PMem.state DB) := {|
  fc_SendPut := PMem.SendPut psend;
  fc_SendUpdate := PMem.SendUpdate psend;
  fc_SendGet := PMem.SendGet psend;
  fc_SendDelete := PMem.SendDelete psend |}.

Definition pmem_holds (st : @PMem.state DB) (m : gmap bytes bytes) : Prop :=
  let '(c, k, db) := st in
  (exists es, pmem_inv c k es) /\ contents db = m /\ values_ok db.

Lemma pmem_write_holds o s m key val :
  o = PUT \/ o = UPDATE -> pmem_holds s m -> pair_ok key val ->
  exists s', PMem.SendWrite psend key val o s = Done s' /\ pmem_holds s' (<[key := val]> m).
Proof.
  destruct s as [[c k] db]. intros Ho ([es HI] & <- & Hv) [Hr Hval].
  destruct (SendWrite_spec psend c k es db (Entry o key val) HI Hr Ho) as (c' & k' & db' & E & Ec & HI').
  exists (c', k', db'). split; [exact E|]. split; [by eexists|]. split; [done|].
  unfold values_ok. rewrite Ec. by apply map_Forall_insert_2.
Qed.

#[export] Instance pmem_front_ok : FrontClientOk (@PMem.state DB).
Proof.
  refine {| fc_holds := pmem_holds |}.
  - intros *. apply pmem_write_holds. by left.
  - intros *. apply pmem_write_holds. by right.
  - intros [[c k] db] m key val ([es HI] & <- & Hv) Hm Hk.
    destruct (SendGet_spec psend c k es db key (Some val) HI Hk) as (c' & k' & E & HI').
    { by apply get_present. }
    { by eapply Hv. }
    exists (c', k', db). split; [exact E|]. split; [by eexists|done].
  - intros [[c k] db] m key ([es HI] & <- & Hv) Hk.
    destruct (SendDelete_spec psend c k es db key HI Hk) as (c' & k' & db' & E & Ec & HI').
    exists (c', k', db'). split; [exact E|]. split; [by eexists|]. split; [done|].
    unfold values_ok. rewrite Ec. by apply map_Forall_delete.
Defined.

Lemma pmem_missing_ok :
  (forall db key, contents db !! key = None -> db_Get db key = Done None) ->
  FrontMissingOk (@PMem.state DB).
Proof.
  intros Hmiss [[c k] db] m key ([es HI] & <- & Hv) Hm Hk.
  destruct (SendGet_spec psend c k es db key None HI Hk (Hmiss _ _ Hm)) as (c' & k' & E & HI').
  { vm_compute. congruence. }
  exists (c', k', db). split; [exact E|]. split; [by eexists|done].
Qed.
End pmem.
