(* ===== verification/Tests.v ===== *)
(** * Tests: test.cc

    The functional tests of the repository, over the interface of Front: the
    four test functions, the test bed that runs them, and that they pass on
    every front end that keeps the interface's promise. *)

From Stdlib.Strings Require Import Byte.
From S2P Require Import Prelude Buf Request Rdma Message DBType Example PMem Generator Front.

Definition TEST_SCALE : Z := 100000.

(** [for(int i = start; ...; i += step)], [n] iterations *)
Fixpoint for_range {St} (n : nat) (i step : Z) (body : Z -> St -> outcome St) (s : St) : outcome St :=
  match n with
  | O => Done s
  | S n' => s ← body i s; for_range n' (i + step) step body s
  end.

Section tests.
Context {St : Type} `{FrontClient St}.

Definition put_key (i : Z) (s : St) : outcome St :=
  let k := BuildKey i in fc_SendPut (c_str k) (c_str k) s.

Definition update_key (i : Z) (s : St) : outcome St :=
  let k := BuildKey i in let v2 := BuildKey (i + 1) in fc_SendUpdate (c_str k) (c_str v2) s.

Definition delete_key (i : Z) (s : St) : outcome St :=
  let k := BuildKey i in '(s, _) ← fc_SendDelete (c_str k) s; Done s.

(** [SendGet] and the comparison with [v2], which throws when they differ; the
    string [v] is empty when the key is missing *)
Definition get_key (v2 : bytes) (i : Z) (s : St) : outcome St :=
  '(s, v) ← fc_SendGet (c_str (BuildKey i)) s;
  if bool_decide (v2 = default [] v) then Done s else Thrown.

(** the last loop of [TestDelete] *)
Definition check_deleted (start i : Z) (s : St) : outcome St :=
  let k := BuildKey i in
  '(s, v) ← fc_SendGet (c_str k) s;
  match v with
  | Some v =>
      if Z.rem (i - start) 2 =? 0 then Thrown
      else if (Z.rem (i - start) 2 =? 1) && bool_decide (k <> v) then Thrown else Done s
  | None => Done s
  end.

(** the test functions; [n] is [TEST_SCALE] *)
Definition TestPut (n : nat) (s : St) : outcome St := for_range n 0 1 put_key s.

Definition TestGet (n : nat) (s : St) : outcome St :=
  let start := 1000000 in
  s ← for_range n start 1 put_key s;
  for_range n start 1 (fun i => get_key (BuildKey i) i) s.

Definition TestUpdate (n : nat) (s : St) : outcome St :=
  let start := 2000000 in
  s ← for_range n start 1 put_key s;
  s ← for_range n start 1 update_key s;
  for_range n start 1 (fun i => get_key (BuildKey (i + 1)) i) s.

Definition TestDelete (n : nat) (s : St) : outcome St :=
  let start := 3000000 in
  s ← for_range n start 1 put_key s;
  s ← for_range ((n + 1) / 2) start 2 delete_key s;
  for_range n start 1 (check_deleted start) s.

(** ** The test bed *)

Abbreviation test := (bytes * (St -> outcome St))%type.

(** [Start]: the tests in order, up to the first that throws; the state is lost
    with the exception *)
Fixpoint Start (tests : list test) (s : St) : outcome (option St * list (bytes * bool)) :=
  match tests with
  | [] => Done (Some s, [])
  | (name, f) :: rest =>
      match f s with
      | Done s => '(s, rs) ← Start rest s; Done (s, (name, true) :: rs)
      | Thrown => Done (None, [(name, false)])
      | Exited n => Exited n
      | Asserted => Asserted
      | Undefined => Undefined
      | Hangs => Hangs
      end
  end.

(** [Addtest] *)
Definition Addtest (tests : list test) (f : St -> outcome St) (name : bytes) : list test :=
  tests ++ [(name, f)].

(** the tests [main] adds, and the two it has commented out *)
Definition main_tests (n : nat) : list test :=
  Addtest (Addtest [] (TestPut n) (text "Put")) (TestGet n) (text "Get").
Definition all_tests (n : nat) : list test :=
  Addtest (Addtest (main_tests n) (TestUpdate n) (text "Update")) (TestDelete n) (text "Delete").
End tests.

(** ** The keys of a test *)

Lemma c_str_id s : cstring s -> c_str s = s.
Proof. intros Hs. unfold c_str. rewrite strlen_cstring, blen_to_nat by done. by rewrite take_ge. Qed.

Lemma c_str_BuildKey i : c_str (BuildKey i) = BuildKey i.
Proof. apply c_str_id, BuildKey_shape. Qed.

Lemma BuildKey_pair_ok i j : pair_ok (BuildKey i) (BuildKey j).
Proof.
  destruct (BuildKey_shape i) as [L1 C1], (BuildKey_shape j) as [L2 C2].
  split; [split; [done|split; [done|]]|]; unfold entry_size, value_ok; simpl; rewrite ?L1, L2;
    vm_compute; congruence.
Qed.

Lemma BuildKey_key_ok i : key_ok (BuildKey i).
Proof. eapply pair_ok_key, (BuildKey_pair_ok i i). Qed.

Lemma BuildKey_ne i j : 0 <= i < 2 ^ 32 -> 0 <= j < 2 ^ 32 -> i <> j -> BuildKey i <> BuildKey j.
Proof. intros Hi Hj Hne E. by apply BuildKey_injective in E. Qed.

(** the map after one operation per key *)
Fixpoint range_map (n : nat) (i step : Z) (f : Z -> option bytes) (m : gmap bytes bytes)
    : gmap bytes bytes :=
  match n with
  | O => m
  | S n' => range_map n' (i + step) step f (partial_alter (fun _ => f i) (BuildKey i) m)
  end.

(** [j] is one of the [n] indices from [i] on *)
Definition in_range (n : nat) (i step j : Z) : Prop :=
  exists k, 0 <= k < Z.of_nat n /\ j = i + k * step.

Lemma range_map_lookup n i step f m j :
  0 <= i -> 0 < step -> i + Z.of_nat n * step <= 2 ^ 31 -> 0 <= j < 2 ^ 31 ->
  (in_range n i step j -> range_map n i step f m !! BuildKey j = f j) /\
  (~ in_range n i step j -> range_map n i step f m !! BuildKey j = m !! BuildKey j).
Proof.
  revert i m; induction n as [|n IH]; intros i m Hi Hs Hb Hj; cbn [range_map].
  - split; [|done]. intros (k & Hk & _). lia.
  - destruct (IH (i + step) (partial_alter (fun _ => f i) (BuildKey i) m)) as [I1 I2]; [nia..|].
    assert (Hout : j = i -> ~ in_range n (i + step) step j) by (intros -> (k & Hk & E); nia).
    split.
    + intros (k & Hk & ->). destruct (decide (k = 0)) as [->|Hk0].
      * rewrite I2 by (apply Hout; lia). replace (i + 0 * step) with i by lia.
        by rewrite lookup_partial_alter_eq.
      * apply I1. exists (k - 1). split; [lia|]. lia.
    + intros Hn. assert (j <> i) by (intros ->; apply Hn; exists 0; lia).
      rewrite I2.
      * rewrite lookup_partial_alter_ne; [done|]. apply BuildKey_ne; nia.
      * intros (k & Hk & ->). apply Hn. exists (k + 1). lia.
Qed.

(** ** The loops, on a front end that keeps its promise *)

Section passes.
Context {St : Type} `{FrontClientOk St}.

(** a loop whose body changes one key *)
Lemma for_range_spec n i step f body (s : St) m :
  (forall j s m, fc_holds s m -> exists s', body j s = Done s' /\
    fc_holds s' (partial_alter (fun _ => f j) (BuildKey j) m)) ->
  fc_holds s m ->
  exists s', for_range n i step body s = Done s' /\ fc_holds s' (range_map n i step f m).
Proof.
  intros Hb. revert i s m; induction n as [|n IH]; intros i s m Hs; cbn [for_range range_map]; [by eauto|].
  destruct (Hb i s m Hs) as (s1 & E & Hs1). destruct (IH (i + step) s1 _ Hs1) as (s' & E' & Hs').
  exists s'. split; [by step E|done].
Qed.

(** a loop that only reads, each body succeeding on the keys of the range *)
Lemma for_range_read n i body (s : St) m :
  (forall j s, in_range n i 1 j -> fc_holds s m -> exists s', body j s = Done s' /\ fc_holds s' m) ->
  fc_holds s m -> exists s', for_range n i 1 body s = Done s' /\ fc_holds s' m.
Proof.
  revert i s; induction n as [|n IH]; intros i s Hb Hs; cbn [for_range]; [by eauto|].
  destruct (Hb i s) as (s1 & E & Hs1); [exists 0; lia|done|].
  destruct (IH (i + 1) s1) as (s' & E' & Hs'); [|done|].
  { intros j s2 (k & Hk & ->). apply Hb. exists (k + 1). lia. }
  exists s'. split; [by step E|done].
Qed.

Lemma put_loop n i (s : St) m :
  fc_holds s m ->
  exists s', for_range n i 1 put_key s = Done s' /\
    fc_holds s' (range_map n i 1 (fun j => Some (BuildKey j)) m).
Proof.
  apply for_range_spec. intros j s0 m0 Hs. unfold put_key. rewrite c_str_BuildKey.
  apply fc_put_ok; [done|apply BuildKey_pair_ok].
Qed.

Lemma get_loop n i (f : Z -> bytes) (s : St) m :
  (forall j, in_range n i 1 j -> m !! BuildKey j = Some (f j)) -> fc_holds s m ->
  exists s', for_range n i 1 (fun j => get_key (f j) j) s = Done s' /\ fc_holds s' m.
Proof.
  intros Hm. apply for_range_read. intros j s0 Hj Hs. unfold get_key. rewrite c_str_BuildKey.
  destruct (fc_get_ok s0 m (BuildKey j) (f j) Hs (Hm j Hj) (BuildKey_key_ok j)) as (s' & E & Hs').
  exists s'. split; [|done]. step E. by rewrite bool_decide_true.
Qed.
Lemma TestGet_passes n (s : St) m :
  Z.of_nat n <= TEST_SCALE -> fc_holds s m ->
  exists s' m', TestGet n s = Done s' /\ fc_holds s' m'.
Proof.
  intros Hn Hs. unfold TEST_SCALE in Hn. unfold TestGet.
  destruct (put_loop n 1000000 s m Hs) as (s1 & E1 & Hs1).
  edestruct (get_loop n 1000000 BuildKey s1) as (s2 & E2 & Hs2); [|exact Hs1|].
  { intros j Hj. apply range_map_lookup; [lia..| |done]. destruct Hj as (k & Hk & ->). lia. }
  eexists _, _. split; [|exact Hs2]. by step E1.
Qed.

Lemma TestUpdate_passes n (s : St) m :
  Z.of_nat n <= TEST_SCALE -> fc_holds s m ->
  exists s' m', TestUpdate n s = Done s' /\ fc_holds s' m'.
Proof.
  intros Hn Hs. unfold TEST_SCALE in Hn. unfold TestUpdate.
  destruct (put_loop n 2000000 s m Hs) as (s1 & E1 & Hs1).
  edestruct (for_range_spec n 2000000 1 (fun j => Some (BuildKey (j + 1))) update_key s1) as (s2 & E2 & Hs2); [|exact Hs1|].
  { intros j s0 m0 H0'. unfold update_key. rewrite !c_str_BuildKey.
    apply fc_update_ok; [done|apply BuildKey_pair_ok]. }
  edestruct (get_loop n 2000000 (fun j => BuildKey (j + 1)) s2) as (s3 & E3 & Hs3); [|exact Hs2|].
  { intros j Hj. apply range_map_lookup; [lia..| |done]. destruct Hj as (k & Hk & ->). lia. }
  eexists _, _. split; [|exact Hs3]. step E1. by step E2.
Qed.

(** the odd keys keep their value, the even ones are gone *)
Lemma deleted_lookup n start m j :
  0 <= start -> start + Z.of_nat n < 2 ^ 31 -> in_range n start 1 j ->
  range_map ((n + 1) / 2) start 2 (fun _ => None) (range_map n start 1 (fun i => Some (BuildKey i)) m)
    !! BuildKey j = if Z.rem (j - start) 2 =? 0 then None else Some (BuildKey j).
Proof.
  intros Hs Hb (k & Hk & ->). replace (start + k * 1 - start) with k by lia. rewrite Z.mul_1_r.
  pose proof (Nat.div_mod (n + 1) 2 ltac:(lia)) as Hd. pose proof (Nat.mod_upper_bound (n + 1) 2 ltac:(lia)).
  rewrite Z.rem_mod_nonneg by lia.
  pose proof (Z.div_mod k 2 ltac:(lia)) as Hk2. pose proof (Z.mod_pos_bound k 2 ltac:(lia)).
  destruct (range_map_lookup ((n + 1) / 2) start 2 (fun _ => None)
    (range_map n start 1 (fun i => Some (BuildKey i)) m) (start + k)) as [R1 R2]; [lia..|].
  destruct (range_map_lookup n start 1 (fun i => Some (BuildKey i)) m (start + k)) as [R3 _]; [lia..|].
  destruct (Z.eqb_spec (k mod 2) 0) as [He|He].
  - apply R1. exists (k / 2). lia.
  - rewrite R2; [apply R3; exists k; lia|]. intros (q & Hq & E). lia.
Qed.
End passes.

Lemma TestDelete_passes {St} `{FrontMissingOk St} n (s : St) m :
  Z.of_nat n <= TEST_SCALE -> fc_holds s m ->
  exists s' m', TestDelete n s = Done s' /\ fc_holds s' m'.
Proof.
  intros Hn Hs. unfold TEST_SCALE in Hn. unfold TestDelete.
  destruct (put_loop n 3000000 s m Hs) as (s1 & E1 & Hs1).
  edestruct (for_range_spec ((n + 1) / 2) 3000000 2 (fun _ => None) delete_key s1) as (s2 & E2 & Hs2); [|exact Hs1|].
  { intros j s0 m0 H0'. unfold delete_key. rewrite c_str_BuildKey.
    destruct (fc_delete_ok s0 m0 (BuildKey j) H0' (BuildKey_key_ok j)) as (s' & E & Hs').
    exists s'. split; [by step E|exact Hs']. }
  edestruct (for_range_read n 3000000 (check_deleted 3000000) s2) as (s3 & E3 & Hs3); [|exact Hs2|].
  { intros j s0 Hj H0'. unfold check_deleted. rewrite c_str_BuildKey.
    pose proof (deleted_lookup n 3000000 m j ltac:(lia) ltac:(lia) Hj) as Hl.
    destruct (Z.rem (j - 3000000) 2 =? 0).
    - destruct (fc_get_missing s0 _ _ H0' Hl (BuildKey_key_ok j)) as (s' & E & Hs').
      exists s'. split; [by step E|done].
    - destruct (fc_get_ok s0 _ _ _ H0' Hl (BuildKey_key_ok j)) as (s' & E & Hs').
      exists s'. split; [|done]. step E. rewrite (bool_decide_false (BuildKey j <> BuildKey j)) by naive_solver.
      by rewrite andb_false_r. }
  eexists _, _. split; [|exact Hs3]. step E1. by step E2.
Qed.

(** C32: the repository's functional tests pass on every front end that runs like
    a map and answers the [SendGet] of a missing key, the persistent memory one
    over LevelDB among them: [Start] runs all four to their end and reports each
    as passed, at the scale of the source and at any smaller one. *)
Theorem all_tests_pass {St} `{FrontMissingOk St} n (s : St) m :
  Z.of_nat n <= TEST_SCALE -> fc_holds s m ->
  exists s', Start (all_tests n) s =
    Done (Some s', [(text "Put", true); (text "Get", true); (text "Update", true); (text "Delete", true)]).
Proof.
  intros Hn Hs.
  destruct (put_loop n 0 s m Hs) as (s1 & E1 & Hs1).
  destruct (TestGet_passes n s1 _ Hn Hs1) as (s2 & m2 & E2 & Hs2).
  destruct (TestUpdate_passes n s2 _ Hn Hs2) as (s3 & m3 & E3 & Hs3).
  destruct (TestDelete_passes n s3 _ Hn Hs3) as (s4 & m4 & E4 & _).
  exists s4. cbn [all_tests main_tests Addtest app Start]. unfold TestPut.
  rewrite E1. rewrite E2. rewrite E3. by rewrite E4.
Qed.

Lemma example_missing : @FrontMissingOk _ _ (pmem_front_ok (DB := gmap bytes bytes) psend0).
Proof.
  apply pmem_missing_ok. intros db key E. simpl in *. unfold DBType.LevelDB.Get. simpl. by rewrite E.
Qed.

Lemma example_holds :
  @fc_holds _ _ (pmem_front_ok (DB := gmap bytes bytes) psend0) (pmem_example_client, pmem_example_clerk, ∅ : gmap bytes bytes) ∅.
Proof.
  split; [exists []; apply pmem_example_inv|]. split; [done|].
  intros x v Hx. change (@contents _ example_db example_db_ok ∅) with (∅ : gmap bytes bytes) in Hx.
  by rewrite (lookup_empty (M := gmap bytes)) in Hx.
Qed.

Lemma all_tests_pass_witness :
  exists s', @Start _ (all_tests (H := pmem_front (DB := gmap bytes bytes) psend0) (Z.to_nat TEST_SCALE))
      (pmem_example_client, pmem_example_clerk, ∅ : gmap bytes bytes) =
    Done (Some s', [(text "Put", true); (text "Get", true); (text "Update", true); (text "Delete", true)]).
Proof.
  refine (@all_tests_pass _ _ _ example_missing (Z.to_nat TEST_SCALE) _ ∅ _ example_holds).
  unfold TEST_SCALE. lia.
Defined.
