(* ===== verification/Bench.v ===== *)
(** * Bench: benchmark.cc

    The YCSB benchmark: reading the two files of operations, dividing them among
    the clients, and what each client's thread sends.  Time is not modelled: of
    the latency mode only the number of samples is left. *)

From Stdlib.Strings Require Import Byte.
From S2P Require Import Prelude Buf Request Rdma Message DBType Example PMem Generator Front Tests.

(** ** Reading the files

    [in >> op >> key] skips white space, takes characters up to the next white
    space, and does not leave the stream [good] when it met the end of the
    file, even after the last character of [key]. *)

Definition is_space (b : byte) : bool := (b2z b =? 32) || ((9 <=? b2z b) && (b2z b <=? 13)).

Fixpoint skip_space (s : bytes) : bytes :=
  match s with
  | b :: s' => if is_space b then skip_space s' else s
  | [] => []
  end.

Fixpoint take_token (s : bytes) : bytes * bytes :=
  match s with
  | b :: s' => if is_space b then ([], s) else let (t, r) := take_token s' in (b :: t, r)
  | [] => ([], [])
  end.

(** one [>>] into a string: the word and the rest, when the stream stays good *)
Definition read_word (s : bytes) : option (bytes * bytes) :=
  match take_token (skip_space s) with
  | ([], _) | (_, []) => None
  | (w, rest) => Some (w, rest)
  end.

Definition read_pair (s : bytes) : option (bytes * bytes * bytes) :=
  match read_word s with
  | Some (op, s) => match read_word s with Some (key, s) => Some (op, key, s) | None => None end
  | None => None
  end.

(** the members [LoadData] fills *)
Record loaded := Loaded { init_keys_ : list bytes; ops_ : list Operation; keys_ : list bytes }.

(** the first loop; [false]: it met another operation, and [LoadData] returned *)
Fixpoint load_init (fuel : nat) (s : bytes) (keys : list bytes) : list bytes * bool :=
  match fuel with
  | O => (keys, true)
  | S fuel' =>
      match read_pair s with
      | None => (keys, true)
      | Some (op, key, s) =>
          if bool_decide (op = text "INSERT") then load_init fuel' s (keys ++ [key]) else (keys, false)
      end
  end.

Definition op_of_word (w : bytes) : option Operation :=
  if bool_decide (w = text "INSERT") then Some PUT
  else if bool_decide (w = text "READ") then Some GET
  else if bool_decide (w = text "UPDATE") then Some UPDATE
  else if bool_decide (w = text "DELETE") then Some DELETE
  else None.

Fixpoint load_txn (fuel : nat) (s : bytes) (ops : list Operation) (keys : list bytes)
    : list Operation * list bytes :=
  match fuel with
  | O => (ops, keys)
  | S fuel' =>
      match read_pair s with
      | None => (ops, keys)
      | Some (w, key, s) =>
          match op_of_word w with
          | Some o => load_txn fuel' s (ops ++ [o]) (keys ++ [key])
          | None => (ops, keys)
          end
      end
  end.

(** [LoadData]; a file is [None] when it cannot be opened.  A round of a loop
    takes characters of the file, so its length bounds the rounds. *)
Definition LoadData (queryonly loadonly : bool) (init_file txn_file : option bytes) : outcome loaded :=
  match init_file with
  | None => Exited (-1)
  | Some f =>
      let (init_keys, ok) := if queryonly then ([], true) else load_init (length f) f [] in
      if ok then
        match txn_file with
        | None => Exited (-1)
        | Some g =>
            let (ops, keys) := if loadonly then ([], []) else load_txn (length g) g [] [] in
            Done (Loaded init_keys ops keys)
        end
      else Done (Loaded init_keys [] [])
  end.

(** ** Dividing the work *)

(** the first index and the end of the [i]-th thread's part *)
Definition part (total clients i : Z) : Z * Z :=
  let piece := Z.quot total clients in
  (i * piece, i * piece + Z.min piece (total - i * piece)).

(** ** The threads *)

Section threads.
Context {St : Type} `{FrontClient St}.

(** [keys[i]] of a vector *)
Definition at_index {A} (l : list A) (i : Z) : outcome A :=
  match l !! Z.to_nat i with Some x => Done x | None => Undefined end.

Definition Populate (valsize : Z) (init_keys : list bytes) (start stop : Z) (s : St) : outcome St :=
  for_range (Z.to_nat (stop - start)) start 1 (fun i s =>
    key ← at_index init_keys i;
    value ← BuildValue (u32 valsize) key;
    fc_SendPut (c_str key) (c_str value) s) s.

(** one round of the loop of [Run] *)
Definition Run_op (valsize : Z) (o : Operation) (key : bytes) (s : St) : outcome St :=
  match o with
  | PUT => value ← BuildValue (u32 valsize) key; fc_SendPut (c_str key) (c_str (key ++ value)) s
  | UPDATE => value ← BuildValue (u32 valsize) key; fc_SendUpdate (c_str key) (c_str value) s
  | GET => '(s, res) ← fc_SendGet (c_str key) s; _ ← c_assert (bool_decide (is_Some res)); Done s
  | DELETE => '(s, found) ← fc_SendDelete (c_str key) s; _ ← c_assert found; Done s
  | _ => Done s
  end.

Definition Run (valsize : Z) (d : loaded) (start stop : Z) (s : St) : outcome St :=
  for_range (Z.to_nat (stop - start)) start 1 (fun i s =>
    key ← at_index (keys_ d) i;
    o ← at_index (ops_ d) i;
    Run_op valsize o key s) s.

(** the two globals, as the source sets them *)
Definition queryonly : bool := false.
Definition loadonly : bool := true.

(** [Start] with one client: its two threads, one after the other *)
Definition Start1 (queryonly loadonly : bool) (valsize : Z) (init_file txn_file : option bytes) (s : St)
    : outcome St :=
  d ← LoadData queryonly loadonly init_file txn_file;
  let initnum := Z.of_nat (length (init_keys_ d)) in
  let opnum := Z.of_nat (length (keys_ d)) in
  s ← (if queryonly then Done s
       else let (start, stop) := part initnum 1 0 in Populate valsize (init_keys_ d) start stop s);
  if loadonly then Done s
  else let (start, stop) := part opnum 1 0 in Run valsize d start stop s.
End threads.

(** ** Files *)

(** a word of a line *)
Definition word_ok (w : bytes) : Prop := w <> [] /\ Forall (fun b => is_space b = false) w.

Definition line (op key : bytes) : bytes := op ++ text " " ++ key ++ [x0a].

Lemma take_token_word w r b :
  word_ok w -> is_space b = true -> take_token (w ++ b :: r) = (w, b :: r).
Proof.
  intros [_ Hw] Hb. induction Hw as [|x w Hx Hw IH]; simpl; [by rewrite Hb|]. by rewrite Hx, IH.
Qed.

Lemma read_word_spec w b r :
  word_ok w -> is_space b = true -> read_word (w ++ b :: r) = Some (w, b :: r).
Proof.
  intros Hw Hb. unfold read_word. assert (skip_space (w ++ b :: r) = w ++ b :: r) as ->.
  { destruct Hw as [Hne Hf]. destruct w as [|x w]; [done|]. apply Forall_inv in Hf. simpl. by rewrite Hf. }
  rewrite (take_token_word _ _ _ Hw Hb). destruct Hw as [Hne _]. by destruct w.
Qed.

Lemma read_word_skip b s : is_space b = true -> read_word (b :: s) = read_word s.
Proof. intros Hb. unfold read_word. simpl. by rewrite Hb. Qed.

(** a line is read back, whatever follows it *)
Lemma read_pair_line op key r :
  word_ok op -> word_ok key -> read_pair (line op key ++ r) = Some (op, key, x0a :: r).
Proof.
  intros Ho Hk. unfold read_pair, line. rewrite <- !app_assoc.
  change (text " " ++ key ++ [x0a] ++ r) with (x20 :: (key ++ x0a :: r)).
  rewrite read_word_spec by done. rewrite read_word_skip by done. by rewrite read_word_spec.
Qed.

Lemma read_pair_newline s : read_pair (x0a :: s) = read_pair s.
Proof. unfold read_pair. by rewrite read_word_skip. Qed.

(** the file of a list of keys to insert *)
Definition init_text (ks : list bytes) : bytes := concat (map (line (text "INSERT")) ks).

Lemma load_init_nl fuel s acc : load_init fuel (x0a :: s) acc = load_init fuel s acc.
Proof. destruct fuel; [done|]. cbn [load_init]. by rewrite read_pair_newline. Qed.

Lemma INSERT_word : word_ok (text "INSERT").
Proof. split; [done|]. by repeat constructor. Qed.

Lemma load_init_text ks fuel acc tail :
  Forall word_ok ks -> (length ks < fuel)%nat -> read_pair tail = None ->
  load_init fuel (init_text ks ++ tail) acc = (acc ++ ks, true).
Proof.
  intros Hk. revert fuel acc; induction Hk as [|k ks Hk _ IH]; intros fuel acc Hf Ht;
    (destruct fuel as [|fuel]; [simpl in Hf; lia|]); cbn [load_init].
  - cbn [init_text map concat app]. by rewrite Ht, app_nil_r.
  - change (init_text (k :: ks)) with (line (text "INSERT") k ++ init_text ks).
    rewrite <- app_assoc, read_pair_line by (done || apply INSERT_word).
    rewrite bool_decide_true by done. rewrite load_init_nl, IH by (simpl in Hf; lia || done).
    by rewrite <- app_assoc.
Qed.

(** the last line of a file that does not end in a newline is lost *)
Lemma read_pair_unterminated op key : word_ok op -> word_ok key -> read_pair (op ++ text " " ++ key) = None.
Proof.
  intros Ho Hk. unfold read_pair. change (text " " ++ key) with (x20 :: key). rewrite (read_word_spec op x20 key) by done.
  rewrite read_word_skip by done. unfold read_word.
  assert (skip_space key = key) as ->.
  { destruct Hk as [Hne Hf]. destruct key as [|x w]; [done|]. apply Forall_inv in Hf. simpl. by rewrite Hf. }
  assert (take_token key = (key, [])) as ->.
  { destruct Hk as [_ Hf]. induction Hf as [|x w Hx _ IH]; [done|]. simpl. by rewrite Hx, IH. }
  by destruct key.
Qed.

Lemma length_init_text ks : (length ks <= length (init_text ks))%nat.
Proof.
  induction ks as [|k ks IH]; [done|]. change (init_text (k :: ks)) with (line (text "INSERT") k ++ init_text ks).
  rewrite length_app. unfold line. rewrite !length_app. simpl. lia.
Qed.

(** [LoadData] reads back the keys of the file, in order; the last line needs
    its newline. *)
Lemma LoadData_text ks last txn :
  Forall word_ok ks -> word_ok last ->
  LoadData false true (Some (init_text ks)) (Some txn) = Done (Loaded ks [] []) /\
  LoadData false true (Some (init_text ks ++ text "INSERT" ++ text " " ++ last)) (Some txn)
    = Done (Loaded ks [] []).
Proof.
  intros Hk Hl. split; unfold LoadData.
  - rewrite <- (app_nil_r (init_text ks)) at 2.
    destruct ks as [|k ks]; [done|].
    rewrite load_init_text with (ks := k :: ks); [done|done| |done].
    change (init_text (k :: ks)) with (line (text "INSERT") k ++ init_text ks).
    pose proof (length_init_text ks). rewrite length_app. unfold line. rewrite !length_app. simpl. lia.
  - pose proof (length_init_text ks). rewrite load_init_text; [done|done| |].
    + rewrite !length_app. simpl. lia.
    + apply read_pair_unterminated; [apply INSERT_word|done].
Qed.

(** ** The division *)

(** The parts of the threads follow one another and stop at the last multiple
    of the number of clients: the last [total mod clients] keys are nobody's. *)
Lemma parts_cover total clients :
  0 <= total -> 0 < clients ->
  concat (map (fun i => let (a, b) := part total clients (Z.of_nat i) in
      map (fun j => a + Z.of_nat j) (seq 0 (Z.to_nat (b - a)))) (seq 0 (Z.to_nat clients)))
  = map Z.of_nat (seq 0 (Z.to_nat (total - total mod clients))).
Proof.
  intros Ht Hc. pose proof (Z.div_mod total clients ltac:(lia)) as Hd.
  pose proof (Z.mod_pos_bound total clients ltac:(lia)).
  pose proof (Z.div_pos total clients ltac:(lia) ltac:(lia)) as Hq.
  replace (total - total mod clients) with (clients * (total / clients)) by lia.
  unfold part. rewrite Z.quot_div_nonneg by lia.
  rewrite <- (Z2Nat.id clients) in Hd, H, Hq |- * by lia. set (n := Z.to_nat clients) in *.
  set (p := total / Z.of_nat n) in *.
  assert (Hgen : forall m, (m <= n)%nat ->
    concat (map (fun i => map (fun j => Z.of_nat i * p + Z.of_nat j)
      (seq 0 (Z.to_nat (Z.of_nat i * p + Z.min p (total - Z.of_nat i * p) - Z.of_nat i * p)))) (seq 0 m))
    = map Z.of_nat (seq 0 (Z.to_nat (Z.of_nat m * p)))).
  { induction m as [|m IH]; intros Hm; [done|].
    rewrite seq_S, map_app, concat_app, IH by lia. cbn [map concat]. rewrite app_nil_r, Nat.add_0_l.
    replace (Z.to_nat (Z.of_nat (S m) * p)) with (Z.to_nat (Z.of_nat m * p) + Z.to_nat p)%nat by nia.
    rewrite seq_app, map_app, Nat.add_0_l. f_equal.
    rewrite (map_seq_shift _ (Z.to_nat (Z.of_nat m * p))).
    replace (Z.of_nat m * p + Z.min p (total - Z.of_nat m * p) - Z.of_nat m * p) with p by nia.
    apply map_ext. intros a. nia. }
  rewrite <- (Hgen n) by lia. by rewrite Nat2Z.id.
Qed.

Lemma part_one total : part total 1 0 = (0, total).
Proof. unfold part. rewrite Z.quot_1_r. f_equal; lia. Qed.

(** ** What the benchmark stores *)

(** keys whose value, made of [valsize] characters, the front ends support *)
Definition bench_key (valsize : Z) (key : bytes) : Prop :=
  word_ok key /\ cstring key /\ 6 + blen key <= valsize <= MAX_VALUE.
#[export] Instance bench_key_dec valsize key : Decision (bench_key valsize key).
Proof. unfold bench_key, word_ok. apply _. Defined.

Definition bench_value (valsize : Z) (key : bytes) : bytes :=
  text "VALUE_" ++ key ++ take (Z.to_nat (valsize - (6 + blen key))) VALUE_POOL.

Lemma bench_value_spec valsize key :
  bench_key valsize key ->
  BuildValue (u32 valsize) key = Done (bench_value valsize key) /\
  c_str key = key /\ c_str (bench_value valsize key) = bench_value valsize key /\
  pair_ok key (bench_value valsize key).
Proof.
  intros (_ & Hc & Hv). pose proof (blen_nonneg key) as Hk. change MAX_VALUE with 120 in Hv.
  assert (Hl : blen (bench_value valsize key) = valsize).
  { unfold bench_value, blen. rewrite !length_app, length_take.
    pose proof blen_VALUE_POOL as Hp. unfold blen in *. change (length (text "VALUE_")) with 6%nat. lia. }
  assert (Hcv : cstring (bench_value valsize key)).
  { unfold bench_value, cstring. apply Forall_app; split; [by repeat constructor|].
    apply Forall_app; split; [exact Hc|].
    assert (Forall (fun b => b <> x00) (take 1023 VALUE_POOL)) as Hp.
    { apply (bool_decide_unpack _). vm_compute. exact I. }
    replace (Z.to_nat (valsize - (6 + blen key))) with (Nat.min (Z.to_nat (valsize - (6 + blen key))) 1023) by lia.
    rewrite <- take_take. by apply Forall_take. }
  rewrite u32_small, BuildValue_spec by lia. rewrite (proj2 (Z.leb_le _ _)) by lia.
  split; [|split; [by apply c_str_id|split; [by apply c_str_id|]]].
  - f_equal. unfold bench_value. do 2 f_equal.
    replace (Z.to_nat (valsize / 1024 + 1)) with 1%nat by (rewrite Z.div_small by lia; done).
    unfold pool_stream. cbn [replicate concat]. by rewrite app_nil_r.
  - split; [split; [done|split; [done|]]|]; unfold entry_size, value_ok; simpl; rewrite Hl;
      [change MAX_MESSAGE with 4088|change MAX_VALUE with 120]; lia.
Qed.

Section bench.
Context {St : Type} `{FrontClientOk St}.

Lemma Populate_spec valsize keys start stop (s : St) m :
  Forall (bench_key valsize) keys -> 0 <= start <= stop -> stop <= Z.of_nat (length keys) -> fc_holds s m ->
  exists s', Populate valsize keys start stop s = Done s' /\
    fc_holds s' (insert_all (map (fun k => (k, bench_value valsize k))
      (take (Z.to_nat (stop - start)) (drop (Z.to_nat start) keys))) m).
Proof.
  intros Hk. unfold Populate.
  remember (Z.to_nat (stop - start)) as n eqn:En. revert start s m En.
  induction n as [|n IH]; intros start s m En Hs Hst Hm; cbn [for_range]; [by eauto|].
  destruct (lookup_lt_is_Some_2 keys (Z.to_nat start)) as [k Ek]; [lia|].
  assert (Hbk : bench_key valsize k) by (eapply list.Forall_lookup_1; [exact Hk|exact Ek]).
  destruct (bench_value_spec valsize k Hbk) as (E1 & E2 & E3 & Hp).
  destruct (fc_put_ok s m k (bench_value valsize k) Hm Hp) as (s1 & E & Hs1).
  destruct (IH (start + 1) s1 _ ltac:(lia) ltac:(lia) Hst Hs1) as (s' & E' & Hs').
  exists s'. split.
  - eapply bind_step; [unfold at_index; rewrite Ek; cbn [mbind outcome_bind]; rewrite E1; cbn [mbind outcome_bind];
      rewrite E2, E3; exact E|exact E'].
  - rewrite (drop_S keys k (Z.to_nat start)) by done. cbn [take map insert_all].
    replace (Z.to_nat (start + 1)) with (S (Z.to_nat start)) in Hs' by lia. exact Hs'.
Qed.

(** run as its source sets it up, the benchmark with one client loads the
    keys of its file, in order, and stores each with the value made for it,
    [VALUE_], the key and characters of the pool; the queries are never run.  A
    last line without its newline is not stored. *)
Theorem Start1_populates valsize ks (unterminated : option bytes) txn (s : St) m :
  Forall (bench_key valsize) ks -> Forall word_ok (option_list unterminated) -> fc_holds s m ->
  let file := init_text ks ++ match unterminated with
    | Some k => text "INSERT" ++ text " " ++ k | None => [] end in
  exists s', Start1 queryonly loadonly valsize (Some file) (Some txn) s = Done s' /\
    fc_holds s' (insert_all (map (fun k => (k, bench_value valsize k)) ks) m).
Proof.
  intros Hk Hu Hm file. assert (Hw : Forall word_ok ks) by (eapply Forall_impl; [|exact Hk]; by intros k []).
  assert (El : LoadData queryonly loadonly (Some file) (Some txn) = Done (Loaded ks [] [])).
  { subst file. destruct unterminated as [k|]; [|rewrite app_nil_r].
    - apply LoadData_text; [done|]. by apply Forall_inv in Hu.
    - by apply (LoadData_text ks (text "x") txn Hw); split; [|repeat constructor]. }
  destruct (Populate_spec valsize ks 0 (Z.of_nat (length ks)) s m) as (s' & E & Hs'); [done|lia..|done|].
  exists s'. split.
  - unfold Start1. step El. cbn [init_keys_]. rewrite !part_one. by step E.
  - rewrite Z.sub_0_r, Nat2Z.id in Hs'. change (Z.to_nat 0) with O in Hs'. rewrite drop_0, take_ge in Hs' by done. done.
Qed.
End bench.

Lemma Start1_populates_witness :
  exists s', @Start1 _ (pmem_front (DB := gmap bytes bytes) psend0) queryonly loadonly 40
      (Some (init_text [text "user1"; text "user2"; text "user1"] ++ text "INSERT" ++ text " " ++ text "user3"))
      (Some []) (pmem_example_client, pmem_example_clerk, ∅ : gmap bytes bytes) = Done s' /\
    @fc_holds _ _ (pmem_front_ok (DB := gmap bytes bytes) psend0) s'
      (insert_all (map (fun k => (k, bench_value 40 k)) [text "user1"; text "user2"; text "user1"]) ∅).
Proof.
  refine (Start1_populates (St := @PMem.state (gmap bytes bytes)) 40 [text "user1"; text "user2"; text "user1"]
    (Some (text "user3")) [] _ ∅ _ _ example_holds).
  - apply (bool_decide_unpack _). vm_compute. exact I.
  - repeat constructor. discriminate.
Defined.
