(* ===== verification/Coding.v ===== *)
(** * Coding: database/leveldb/util/coding.h and coding.cc

    Fixed-width and variable-width integers and length-prefixed strings.  A
    pair of pointers [p], [limit] is the list of bytes between them; a routine
    that advances a pointer returns the bytes left. *)

From Stdlib.Strings Require Import Byte.
From S2P Require Import Prelude.

(** ** Fixed width *)

Definition EncodeFixed32 (value : Z) : bytes :=
  [z2b value; z2b (Z.shiftr value 8); z2b (Z.shiftr value 16); z2b (Z.shiftr value 24)].

Definition EncodeFixed64 (value : Z) : bytes :=
  [z2b value; z2b (Z.shiftr value 8); z2b (Z.shiftr value 16); z2b (Z.shiftr value 24);
   z2b (Z.shiftr value 32); z2b (Z.shiftr value 40); z2b (Z.shiftr value 48); z2b (Z.shiftr value 56)].

Definition PutFixed32 (dst : bytes) (value : Z) : bytes := dst ++ EncodeFixed32 value.
Definition PutFixed64 (dst : bytes) (value : Z) : bytes := dst ++ EncodeFixed64 value.

(** the first bytes of the buffer, or an access past its end *)
Definition DecodeFixed32 (ptr : bytes) : outcome Z :=
  match ptr with
  | b0 :: b1 :: b2 :: b3 :: _ =>
      Done (Z.lor (Z.lor (Z.lor (b2z b0) (Z.shiftl (b2z b1) 8)) (Z.shiftl (b2z b2) 16))
                  (Z.shiftl (b2z b3) 24))
  | _ => Undefined
  end.

Definition DecodeFixed64 (ptr : bytes) : outcome Z :=
  match ptr with
  | b0 :: b1 :: b2 :: b3 :: b4 :: b5 :: b6 :: b7 :: _ =>
      Done (Z.lor (Z.lor (Z.lor (Z.lor (Z.lor (Z.lor (Z.lor
        (b2z b0) (Z.shiftl (b2z b1) 8)) (Z.shiftl (b2z b2) 16)) (Z.shiftl (b2z b3) 24))
        (Z.shiftl (b2z b4) 32)) (Z.shiftl (b2z b5) 40)) (Z.shiftl (b2z b6) 48)) (Z.shiftl (b2z b7) 56))
  | _ => Undefined
  end.

(** ** Variable width *)

(** [v | B] stored in a [uint8_t] *)
Definition more (v : Z) : byte := z2b (Z.lor v 128).

Definition EncodeVarint32 (v : Z) : bytes :=
  if v <? Z.shiftl 1 7 then [z2b v]
  else if v <? Z.shiftl 1 14 then [more v; z2b (Z.shiftr v 7)]
  else if v <? Z.shiftl 1 21 then [more v; more (Z.shiftr v 7); z2b (Z.shiftr v 14)]
  else if v <? Z.shiftl 1 28 then
    [more v; more (Z.shiftr v 7); more (Z.shiftr v 14); z2b (Z.shiftr v 21)]
  else
    [more v; more (Z.shiftr v 7); more (Z.shiftr v 14); more (Z.shiftr v 21); z2b (Z.shiftr v 28)].

Definition PutVarint32 (dst : bytes) (v : Z) : bytes := dst ++ EncodeVarint32 v.

(** the [while] loop: ten rounds are enough for a [uint64_t] *)
Fixpoint EncodeVarint64_loop (fuel : nat) (v : Z) : bytes :=
  match fuel with
  | O => []
  | S fuel' => if 128 <=? v then more v :: EncodeVarint64_loop fuel' (Z.shiftr v 7) else [z2b v]
  end.
Definition EncodeVarint64 (v : Z) : bytes := EncodeVarint64_loop 10 v.
Definition PutVarint64 (dst : bytes) (v : Z) : bytes := dst ++ EncodeVarint64 v.

(** [len] after the loop of [VarintLength] *)
Fixpoint VarintLength_loop (fuel : nat) (v len : Z) : Z :=
  match fuel with
  | O => len
  | S fuel' => if 128 <=? v then VarintLength_loop fuel' (Z.shiftr v 7) (len + 1) else len
  end.
Definition VarintLength (v : Z) : Z := VarintLength_loop 10 v 1.

(** The loop of [GetVarint32PtrFallback] and of [GetVarint64Ptr]: [rounds] shifts
    are left from [shift] on, [wrap] is the width of [result]. *)
Fixpoint GetVarint_loop (wrap : Z -> Z) (rounds : nat) (shift result : Z) (p : bytes)
    : option (Z * bytes) :=
  match rounds, p with
  | S rounds', byte :: p' =>
      if Z.land (b2z byte) 128 =? 0
      then Some (Z.lor result (wrap (Z.shiftl (b2z byte) shift)), p')
      else GetVarint_loop wrap rounds' (shift + 7)
             (Z.lor result (wrap (Z.shiftl (Z.land (b2z byte) 127) shift))) p'
  | _, _ => None
  end.

Definition GetVarint32PtrFallback (p : bytes) : option (Z * bytes) := GetVarint_loop u32 5 0 0 p.
Definition GetVarint64Ptr (p : bytes) : option (Z * bytes) := GetVarint_loop u64 10 0 0 p.

Definition GetVarint32Ptr (p : bytes) : option (Z * bytes) :=
  match p with
  | b :: p' => if Z.land (b2z b) 128 =? 0 then Some (b2z b, p') else GetVarint32PtrFallback p
  | [] => GetVarint32PtrFallback p
  end.

Definition GetVarint32 (input : bytes) : option (Z * bytes) := GetVarint32Ptr input.
Definition GetVarint64 (input : bytes) : option (Z * bytes) := GetVarint64Ptr input.

(** ** Length-prefixed strings *)

Definition PutLengthPrefixedSlice (dst value : bytes) : bytes :=
  PutVarint32 dst (u32 (blen value)) ++ value.

(** the string and the bytes after it; both overloads *)
Definition GetLengthPrefixedSlice (input : bytes) : option (bytes * bytes) :=
  match GetVarint32 input with
  | Some (len, input) =>
      if len <=? blen input
      then Some (take (Z.to_nat len) input, drop (Z.to_nat len) input) else None
  | None => None
  end.

(** ** Bits *)

(** or-ing a shifted number over smaller bits is an addition *)
Lemma lor_shiftl_add r x s : 0 <= s -> 0 <= r < 2 ^ s -> Z.lor r (Z.shiftl x s) = r + x * 2 ^ s.
Proof.
  intros Hs Hr. rewrite <- Z.shiftl_mul_pow2 by done. symmetry. apply Z.add_nocarry_lor.
  apply Z.bits_inj'. intros n Hn. rewrite Z.land_spec, Z.bits_0.
  destruct (Z.lt_ge_cases n s).
  - by rewrite (Z.shiftl_spec_low x s n), andb_false_r.
  - destruct (decide (r = 0)) as [->|]; [by rewrite Z.bits_0|].
    rewrite (Z.bits_above_log2 r n); [done|lia|]. apply Z.log2_lt_pow2; [lia|].
    eapply Z.lt_le_trans; [apply Hr|]. apply Z.pow_le_mono_r; lia.
Qed.

(** bytes or-ed into place, from the lowest on *)
Ltac add_bytes :=
  repeat match goal with
  | |- context [Z.lor ?a (Z.shiftl ?x ?s)] =>
      lazymatch a with context [Z.lor] => fail | _ => rewrite (lor_shiftl_add a x s) by lia end
  end.

Lemma b2z_more v : b2z (more v) = v mod 128 + 128.
Proof.
  unfold more. rewrite b2z_z2b. change 256 with (2 ^ 8). change 128 with (2 ^ 7) at 2.
  replace (v mod 2 ^ 7 + 128) with (Z.lor (v mod 2 ^ 7) (Z.shiftl 1 7)).
  2: { rewrite lor_shiftl_add; [lia|lia|]. apply Z.mod_pos_bound; lia. }
  apply Z.bits_inj'. intros n Hn. change 128 with (2 ^ 7). rewrite Z.lor_spec.
  rewrite Z.shiftl_1_l, Z.pow2_bits_eqb by lia.
  destruct (Z.lt_ge_cases n 8).
  - rewrite Z.mod_pow2_bits_low, Z.lor_spec, Z.pow2_bits_eqb by lia.
    destruct (Z.eqb_spec 7 n); [by rewrite !orb_true_r|].
    rewrite Z.mod_pow2_bits_low by lia. done.
  - rewrite !Z.mod_pow2_bits_high by lia. by destruct (Z.eqb_spec 7 n); [lia|].
Qed.

Lemma land_127 b : Z.land (b2z b) 127 = b2z b mod 128.
Proof. change 127 with (Z.ones 7). by rewrite Z.land_ones by lia. Qed.

Lemma land_128 b : Z.land (b2z b) 128 = 0 <-> b2z b < 128.
Proof.
  pose proof (b2z_range b) as Hb. split; intros H.
  - destruct (Z.lt_ge_cases (b2z b) 128); [done|exfalso].
    assert (Z.testbit (Z.land (b2z b) 128) 7 = true) as Ht; [|by rewrite H, Z.bits_0 in Ht].
    rewrite Z.land_spec. change (Z.testbit 128 7) with true. rewrite andb_true_r.
    rewrite Z.testbit_eqb by lia. change (2 ^ 7) with 128.
    replace (b2z b / 128) with 1; [done|]. apply (Z.div_unique _ _ 1 (b2z b - 128)); lia.
  - apply Z.bits_inj'. intros n Hn. rewrite Z.land_spec, Z.bits_0. change 128 with (2 ^ 7).
    rewrite Z.pow2_bits_eqb by lia. destruct (Z.eqb_spec 7 n) as [<-|]; [|by rewrite andb_false_r].
    rewrite Z.testbit_eqb by lia. change (2 ^ 7) with 128. by rewrite Z.div_small by lia.
Qed.

(** ** Fixed width round trips *)

Lemma EncodeFixed32_le v : EncodeFixed32 v = le_bytes 4 v.
Proof.
  unfold EncodeFixed32. cbv [le_bytes]. rewrite !Z.shiftr_div_pow2 by lia.
  rewrite !Z.div_div by lia. done.
Qed.
Lemma EncodeFixed64_le v : EncodeFixed64 v = le_bytes 8 v.
Proof.
  unfold EncodeFixed64. cbv [le_bytes]. rewrite !Z.shiftr_div_pow2 by lia.
  rewrite !Z.div_div by lia. done.
Qed.

Lemma DecodeFixed32_le bs rest : length bs = 4%nat -> DecodeFixed32 (bs ++ rest) = Done (le_val bs).
Proof.
  intros Hl. destruct bs as [|b0 [|b1 [|b2 [|b3 [|]]]]]; try discriminate. cbn [app DecodeFixed32]. f_equal.
  cbv [le_val].
  pose proof (b2z_range b0). pose proof (b2z_range b1). pose proof (b2z_range b2). pose proof (b2z_range b3).
  add_bytes. lia.
Qed.

Lemma DecodeFixed64_le bs rest : length bs = 8%nat -> DecodeFixed64 (bs ++ rest) = Done (le_val bs).
Proof.
  intros Hl. destruct bs as [|b0 [|b1 [|b2 [|b3 [|b4 [|b5 [|b6 [|b7 [|]]]]]]]]]; try discriminate.
  cbn [app DecodeFixed64]. f_equal. cbv [le_val].
  pose proof (b2z_range b0). pose proof (b2z_range b1). pose proof (b2z_range b2). pose proof (b2z_range b3).
  pose proof (b2z_range b4). pose proof (b2z_range b5). pose proof (b2z_range b6). pose proof (b2z_range b7).
  add_bytes. lia.
Qed.

Lemma Fixed32_roundtrip v rest : 0 <= v < 2 ^ 32 -> DecodeFixed32 (EncodeFixed32 v ++ rest) = Done v.
Proof.
  intros Hv. rewrite DecodeFixed32_le by done. rewrite EncodeFixed32_le, le_val_le_bytes.
  f_equal. by apply Z.mod_small.
Qed.
Lemma Fixed64_roundtrip v rest : 0 <= v < 2 ^ 64 -> DecodeFixed64 (EncodeFixed64 v ++ rest) = Done v.
Proof.
  intros Hv. rewrite DecodeFixed64_le by done. rewrite EncodeFixed64_le, le_val_le_bytes.
  f_equal. by apply Z.mod_small.
Qed.

Lemma blen_EncodeFixed32 v : blen (EncodeFixed32 v) = 4.
Proof. done. Qed.
Lemma blen_EncodeFixed64 v : blen (EncodeFixed64 v) = 8.
Proof. done. Qed.
#[export] Hint Rewrite blen_EncodeFixed32 blen_EncodeFixed64 : blen.

(** ** Variable width: both encoders write seven bits per byte *)

Fixpoint varint (n : nat) (v : Z) : bytes :=
  match n with
  | O => [z2b v]
  | S n' => if 128 <=? v then more v :: varint n' (v / 128) else [z2b v]
  end.

Lemma EncodeVarint32_varint v : 0 <= v < 2 ^ 32 -> EncodeVarint32 v = varint 4 v.
Proof.
  intros Hv. unfold EncodeVarint32. rewrite !Z.shiftl_1_l, !Z.shiftr_div_pow2 by lia.
  cbn [varint]. rewrite !Z.div_div by lia.
  change (128 * 128) with (2 ^ 14). change (2 ^ 14 * 128) with (2 ^ 21). change (2 ^ 21 * 128) with (2 ^ 28).
  change 128 with (2 ^ 7).
  repeat match goal with
  | |- context [Z.leb (2 ^ 7) (v / 2 ^ ?k)] =>
      replace (Z.leb (2 ^ 7) (v / 2 ^ k)) with (negb (v <? 2 ^ (7 + k)))
        by (pose proof (Z.div_mod v (2 ^ k) ltac:(lia)); pose proof (Z.mod_pos_bound v (2 ^ k) ltac:(lia)); zcases; lia)
  | |- context [Z.leb (2 ^ 7) v] => replace (Z.leb (2 ^ 7) v) with (negb (v <? 2 ^ 7)) by (zcases; lia)
  end.
  change (7 + 7) with 14. change (7 + 14) with 21. change (7 + 21) with 28.
  zcases; simpl negb; cbv iota; try done; lia.
Qed.

Lemma pow_7S n : 2 ^ (7 * Z.of_nat (S (S n))) = 128 * 2 ^ (7 * Z.of_nat (S n)).
Proof. replace (7 * Z.of_nat (S (S n))) with (7 + 7 * Z.of_nat (S n)) by lia. by rewrite Z.pow_add_r by lia. Qed.

Lemma EncodeVarint64_loop_varint n v :
  0 <= v < 2 ^ (7 * Z.of_nat (S n)) -> EncodeVarint64_loop (S n) v = varint n v.
Proof.
  revert v; induction n as [|n IH]; intros v Hv.
  - change (2 ^ (7 * Z.of_nat 1)) with 128 in Hv. cbn. destruct (Z.leb_spec 128 v); [lia|done].
  - rewrite pow_7S in Hv. cbn [varint]. change (EncodeVarint64_loop (S (S n)) v) with
      (if 128 <=? v then more v :: EncodeVarint64_loop (S n) (Z.shiftr v 7) else [z2b v]).
    destruct (128 <=? v); [|done]. rewrite Z.shiftr_div_pow2 by lia. change (2 ^ 7) with 128.
    rewrite IH; [done|]. split; [apply Z.div_pos; lia|]. apply Z.div_lt_upper_bound; lia.
Qed.

Lemma EncodeVarint64_varint v : 0 <= v < 2 ^ 64 -> EncodeVarint64 v = varint 9 v.
Proof.
  intros Hv. apply (EncodeVarint64_loop_varint 9). change (2 ^ (7 * Z.of_nat 10)) with (2 ^ 6 * 2 ^ 64). lia.
Qed.

Lemma GetVarint_loop_cons wrap n shift result b p :
  GetVarint_loop wrap (S n) shift result (b :: p) =
    if Z.land (b2z b) 128 =? 0 then Some (Z.lor result (wrap (Z.shiftl (b2z b) shift)), p)
    else GetVarint_loop wrap n (shift + 7) (Z.lor result (wrap (Z.shiftl (Z.land (b2z b) 127) shift))) p.
Proof. done. Qed.

(** one decoding loop reads both widths *)
Lemma GetVarint_loop_varint w n shift result v rest :
  0 <= v < 2 ^ (7 * Z.of_nat (S n)) -> 0 <= shift -> 0 <= result < 2 ^ shift -> v * 2 ^ shift < 2 ^ w ->
  GetVarint_loop (fun z => z mod 2 ^ w) (S n) shift result (varint n v ++ rest)
  = Some (result + v * 2 ^ shift, rest).
Proof.
  revert shift result v; induction n as [|n IH]; intros shift result v Hv Hs Hr Hw;
    cbn [varint]; pose proof (Z.pow_pos_nonneg 2 shift ltac:(lia) Hs) as Hp.
  - change (2 ^ (7 * Z.of_nat 1)) with 128 in Hv. cbn [app GetVarint_loop].
    assert (b2z (z2b v) = v) as Eb by (rewrite b2z_z2b; apply Z.mod_small; lia).
    rewrite (proj2 (Z.eqb_eq _ _)) by (apply land_128; lia). rewrite Eb.
    rewrite Z.mod_small by (rewrite Z.shiftl_mul_pow2 by lia; lia). by rewrite lor_shiftl_add by lia.
  - rewrite pow_7S in Hv. destruct (Z.leb_spec 128 v) as [Hge|Hlt]; cbn [app].
    + pose proof (Z.div_mod v 128 ltac:(lia)) as Hd. pose proof (Z.mod_pos_bound v 128 ltac:(lia)) as Hm.
      rewrite GetVarint_loop_cons.
      rewrite (proj2 (Z.eqb_neq _ _)) by (rewrite land_128, b2z_more; lia).
      rewrite land_127, b2z_more.
      replace ((v mod 128 + 128) mod 128) with (v mod 128)
        by (rewrite <- (Z.mul_1_l 128) at 3; rewrite Z.mod_add, Z.mod_mod by lia; done).
      assert (v mod 128 * 2 ^ shift <= v * 2 ^ shift) by (apply Z.mul_le_mono_nonneg_r; lia).
      rewrite (Z.mod_small (Z.shiftl _ _)) by (rewrite Z.shiftl_mul_pow2 by lia; nia).
      rewrite lor_shiftl_add by lia.
      assert (Hp7 : 2 ^ (shift + 7) = 2 ^ shift * 128) by (by rewrite Z.pow_add_r by lia).
      rewrite IH; [f_equal; f_equal; rewrite Hp7; nia|..|lia| |]; rewrite ?Hp7.
      * split; [apply Z.div_pos; lia|]. apply Z.div_lt_upper_bound; lia.
      * nia.
      * nia.
    + cbn [GetVarint_loop].
      assert (b2z (z2b v) = v) as Eb by (rewrite b2z_z2b; apply Z.mod_small; lia).
      rewrite (proj2 (Z.eqb_eq _ _)) by (apply land_128; lia). rewrite Eb.
      rewrite Z.mod_small by (rewrite Z.shiftl_mul_pow2 by lia; nia). by rewrite lor_shiftl_add by lia.
Qed.

(** *** The round trips *)

Lemma Varint32_roundtrip v rest : 0 <= v < 2 ^ 32 -> GetVarint32 (EncodeVarint32 v ++ rest) = Some (v, rest).
Proof.
  intros Hv. rewrite EncodeVarint32_varint by done.
  assert (Hfb : GetVarint32PtrFallback (varint 4 v ++ rest) = Some (v, rest)).
  { unfold GetVarint32PtrFallback, u32. rewrite (GetVarint_loop_varint 32 4 0 0 v rest); [by rewrite Z.mul_1_r|..|lia|lia|lia].
    change (2 ^ (7 * Z.of_nat 5)) with (2 ^ 3 * 2 ^ 32). lia. }
  unfold GetVarint32, GetVarint32Ptr. destruct (varint 4 v ++ rest) as [|b p] eqn:E; [exact Hfb|].
  destruct (Z.eqb_spec (Z.land (b2z b) 128) 0) as [Hb|_]; [|exact Hfb].
  revert Hfb. unfold GetVarint32PtrFallback. cbn [GetVarint_loop]. rewrite (proj2 (Z.eqb_eq _ _) Hb).
  pose proof (b2z_range b). rewrite Z.shiftl_0_r, u32_small by lia. done.
Qed.

Lemma Varint64_roundtrip v rest : 0 <= v < 2 ^ 64 -> GetVarint64 (EncodeVarint64 v ++ rest) = Some (v, rest).
Proof.
  intros Hv. rewrite EncodeVarint64_varint by done. unfold GetVarint64, GetVarint64Ptr, u64.
  rewrite (GetVarint_loop_varint 64 9 0 0 v rest); [by rewrite Z.mul_1_r|..|lia|lia|lia].
  change (2 ^ (7 * Z.of_nat 10)) with (2 ^ 6 * 2 ^ 64). lia.
Qed.

Lemma LengthPrefixed_roundtrip dst value rest :
  blen value < 2 ^ 32 ->
  GetLengthPrefixedSlice (PutLengthPrefixedSlice [] value ++ rest) = Some (value, rest) /\
  PutLengthPrefixedSlice dst value = dst ++ PutLengthPrefixedSlice [] value.
Proof.
  intros Hv. pose proof (blen_nonneg value). pose proof (blen_nonneg rest).
  unfold PutLengthPrefixedSlice, PutVarint32. rewrite u32_small by lia. split; [|by rewrite <- app_assoc].
  cbn [app]. rewrite <- app_assoc. unfold GetLengthPrefixedSlice. rewrite Varint32_roundtrip by lia.
  rewrite (proj2 (Z.leb_le _ _)) by (rewrite blen_app; lia).
  by rewrite blen_to_nat, take_app_exact, drop_app_exact.
Qed.

(** [VarintLength] is the length of both encodings. *)
Lemma VarintLength_spec v :
  0 <= v < 2 ^ 64 -> VarintLength v = blen (EncodeVarint64 v) /\
  (v < 2 ^ 32 -> VarintLength v = blen (EncodeVarint32 v)).
Proof.
  intros Hv.
  assert (Hgen : forall n v len, 0 <= v < 2 ^ (7 * Z.of_nat (S n)) ->
    VarintLength_loop (S n) v len = len - 1 + blen (varint n v)).
  { induction n as [|n IH]; intros x len Hx.
    - change (2 ^ (7 * Z.of_nat 1)) with 128 in Hx. cbn. destruct (Z.leb_spec 128 x); [lia|]. change (blen [z2b x]) with 1. lia.
    - rewrite pow_7S in Hx. cbn [varint]. change (VarintLength_loop (S (S n)) x len) with
        (if 128 <=? x then VarintLength_loop (S n) (Z.shiftr x 7) (len + 1) else len).
      destruct (128 <=? x); [|change (blen [z2b x]) with 1; lia].
      rewrite Z.shiftr_div_pow2 by lia. change (2 ^ 7) with 128.
      rewrite IH by (split; [apply Z.div_pos; lia|apply Z.div_lt_upper_bound; lia]). rewrite blen_cons. lia. }
  assert (Hsame : forall n m v, 0 <= v < 2 ^ (7 * Z.of_nat (S n)) -> (n <= m)%nat -> varint n v = varint m v).
  { induction n as [|n IH]; intros m x Hx Hm.
    - change (2 ^ (7 * Z.of_nat 1)) with 128 in Hx. destruct m; [done|]. cbn [varint]. by destruct (Z.leb_spec 128 x); [lia|].
    - destruct m as [|m]; [lia|]. rewrite pow_7S in Hx. cbn [varint]. destruct (128 <=? x); [|done].
      f_equal. apply IH; [|lia]. split; [apply Z.div_pos; lia|apply Z.div_lt_upper_bound; lia]. }
  assert (H64 : VarintLength v = blen (varint 9 v)).
  { unfold VarintLength. rewrite (Hgen 9%nat); [lia|]. change (2 ^ (7 * Z.of_nat 10)) with (2 ^ 6 * 2 ^ 64). lia. }
  split; [by rewrite EncodeVarint64_varint|]. intros H32. rewrite EncodeVarint32_varint, H64 by lia.
  rewrite (Hsame 4%nat 9%nat); [done| |lia]. change (2 ^ (7 * Z.of_nat 5)) with (2 ^ 3 * 2 ^ 32). lia.
Qed.
