(* ===== verification/DbFormat.v ===== *)
(** * DbFormat: leveldb's slice.h, util/comparator.cc and db/dbformat.h, dbformat.cc

    The order of strings, and internal keys: a user key followed by eight bytes
    that hold a sequence number and a type, ordered by increasing user key,
    then by decreasing number. *)

From Stdlib.Strings Require Import Byte.
From S2P Require Import Prelude Coding.

(** ** Slices *)

(** [memcmp] of the first [n] bytes; only the sign of the result is meant *)
Fixpoint memcmp (n : nat) (a b : bytes) : Z :=
  match n, a, b with
  | S n', x :: a', y :: b' =>
      if b2z x <? b2z y then -1 else if b2z y <? b2z x then 1 else memcmp n' a' b'
  | _, _, _ => 0
  end.

Definition slice_compare (a b : bytes) : Z :=
  let min_len := if blen a <? blen b then blen a else blen b in
  let r := memcmp (Z.to_nat min_len) a b in
  if r =? 0 then if blen a <? blen b then -1 else if blen b <? blen a then 1 else r else r.

Definition starts_with (a x : bytes) : bool :=
  (blen x <=? blen a) && (memcmp (length x) a x =? 0).

(** the reference: the lexicographic order *)
Fixpoint lex (a b : bytes) : Z :=
  match a, b with
  | [], [] => 0
  | [], _ :: _ => -1
  | _ :: _, [] => 1
  | x :: a', y :: b' => if b2z x <? b2z y then -1 else if b2z y <? b2z x then 1 else lex a' b'
  end.

Lemma slice_compare_lex a b : slice_compare a b = lex a b.
Proof.
  unfold slice_compare. replace (Z.to_nat (if blen a <? blen b then blen a else blen b)) with
    (Nat.min (length a) (length b)) by (unfold blen; zcases; lia).
  revert b; induction a as [|x a IH]; intros [|y b]; try done; cbn [length Nat.min memcmp lex].
  destruct (b2z x <? b2z y); [done|]. destruct (b2z y <? b2z x); [done|].
  rewrite <- IH, !blen_cons.
  replace (1 + blen a <? 1 + blen b) with (blen a <? blen b) by (zcases; lia).
  by replace (1 + blen b <? 1 + blen a) with (blen b <? blen a) by (zcases; lia).
Qed.

Lemma lex_range a b : lex a b = -1 \/ lex a b = 0 \/ lex a b = 1.
Proof.
  revert b; induction a as [|x a IH]; intros [|y b]; cbn [lex]; try tauto.
  destruct (b2z x <? b2z y); [tauto|]. destruct (b2z y <? b2z x); [tauto|apply IH].
Qed.

Lemma lex_eq a b : lex a b = 0 <-> a = b.
Proof.
  revert b; induction a as [|x a IH]; intros [|y b]; cbn [lex]; try (split; [lia|done]); try done.
  split.
  - intros H. zcases; try lia. apply IH in H as ->. f_equal. apply b2z_inj. lia.
  - intros [= -> ->]. rewrite Z.ltb_irrefl. by apply IH.
Qed.

Lemma lex_antisym a b : lex b a = - lex a b.
Proof.
  revert b; induction a as [|x a IH]; intros [|y b]; cbn [lex]; try done.
  zcases; try lia. apply IH.
Qed.

Lemma lex_trans a b c : lex a b < 0 -> lex b c < 0 -> lex a c < 0.
Proof.
  revert b c; induction a as [|x a IH]; intros [|y b] [|z c]; cbn [lex]; try lia.
  zcases; try lia. apply IH.
Qed.

Lemma lex_refl a : lex a a = 0.
Proof. by apply lex_eq. Qed.

(** a common prefix does not matter *)
Lemma lex_app p a b : lex (p ++ a) (p ++ b) = lex a b.
Proof. induction p as [|x p IH]; [done|]. cbn [app lex]. by rewrite Z.ltb_irrefl. Qed.

(** ** comparator.cc: the bytewise comparator *)

Definition Compare (a b : bytes) : Z := slice_compare a b.

(** the length of the common prefix *)
Fixpoint diff_index (a b : bytes) : nat :=
  match a, b with
  | x :: a', y :: b' => if bool_decide (x = y) then S (diff_index a' b') else O
  | _, _ => O
  end.

Definition FindShortestSeparator (start limit : bytes) : outcome bytes :=
  let min_length := Nat.min (length start) (length limit) in
  let d := diff_index start limit in
  if (min_length <=? d)%nat then Done start
  else
    match start !! d, limit !! d with
    | Some x, Some y =>
        if (b2z x <? 255) && (b2z x + 1 <? b2z y) then
          let start := take d start ++ [z2b (b2z x + 1)] in
          _ ← c_assert (Compare start limit <? 0);
          Done start
        else Done start
    | _, _ => Undefined
    end.

Fixpoint FindShortSuccessor (key : bytes) : bytes :=
  match key with
  | [] => []
  | b :: key' => if negb (b2z b =? 255) then [z2b (b2z b + 1)] else b :: FindShortSuccessor key'
  end.

Lemma Compare_total a b : Compare a b = 0 <-> a = b.
Proof. unfold Compare. rewrite slice_compare_lex. apply lex_eq. Qed.

Lemma diff_index_spec a b :
  let d := diff_index a b in
  (d < Nat.min (length a) (length b))%nat ->
  exists p x y a' b', a = p ++ x :: a' /\ b = p ++ y :: b' /\ length p = d /\ x <> y.
Proof.
  revert b; induction a as [|x a IH]; intros [|y b]; simpl; try lia.
  case_bool_decide as E; [subst y|].
  - intros H. destruct (IH b ltac:(lia)) as (p & u & v & a' & b' & -> & -> & Hl & Hn).
    exists (x :: p), u, v, a', b'. simpl. by rewrite Hl.
  - intros _. by exists [], x, y, a, b.
Qed.

(** The separator lies between its two arguments: at or after [start], before
    [limit]; its assertion never fails. *)
Lemma FindShortestSeparator_spec start limit :
  lex start limit < 0 ->
  exists s, FindShortestSeparator start limit = Done s /\ lex start s <= 0 /\ lex s limit < 0 /\
    (length s <= length start)%nat.
Proof.
  intros Hlt. unfold FindShortestSeparator.
  destruct (Nat.leb_spec (Nat.min (length start) (length limit)) (diff_index start limit)) as [|Hd].
  { exists start. rewrite lex_refl. split; [done|]. repeat split; (done || lia). }
  destruct (diff_index_spec start limit Hd) as (p & x & y & a & b & Ea & Eb & Hp & Hn).
  rewrite <- Hp, Ea, Eb. rewrite !list_lookup_middle by done.
  rewrite Ea, Eb, lex_app in Hlt. cbn [lex] in Hlt.
  assert (b2z x <> b2z y) as Hne by (intros E; apply Hn, b2z_inj, E).
  destruct (Z.ltb_spec (b2z x) (b2z y)); [|destruct (Z.ltb_spec (b2z y) (b2z x)); lia].
  destruct ((b2z x <? 255) && (b2z x + 1 <? b2z y)) eqn:Eg.
  - apply andb_true_iff in Eg as [E1 E2]. apply Z.ltb_lt in E1, E2.
    rewrite take_app_exact. pose proof (b2z_range x).
    assert (b2z (z2b (b2z x + 1)) = b2z x + 1) as Ex by (rewrite b2z_z2b; apply Z.mod_small; lia).
    assert (Hs1 : lex (p ++ x :: a) (p ++ [z2b (b2z x + 1)]) = -1).
    { rewrite lex_app. cbn [lex]. rewrite Ex. by rewrite (proj2 (Z.ltb_lt _ _)) by lia. }
    assert (Hs2 : lex (p ++ [z2b (b2z x + 1)]) (p ++ y :: b) = -1).
    { rewrite lex_app. cbn [lex]. rewrite Ex. by rewrite (proj2 (Z.ltb_lt _ _)) by lia. }
    exists (p ++ [z2b (b2z x + 1)]). unfold Compare. rewrite slice_compare_lex, Hs2.
    split; [done|]. rewrite Hs1. split; [lia|]. split; [lia|]. rewrite !length_app. simpl. lia.
  - exists (p ++ x :: a). rewrite lex_refl, lex_app. split; [done|]. split; [lia|]. split; [|lia].
    cbn [lex]. by rewrite (proj2 (Z.ltb_lt _ _)) by lia.
Qed.

(** The successor is at or after its argument, and no longer. *)
Lemma FindShortSuccessor_spec key :
  lex key (FindShortSuccessor key) <= 0 /\ (length (FindShortSuccessor key) <= length key)%nat.
Proof.
  induction key as [|b key [IH1 IH2]]; [done|]. cbn [FindShortSuccessor].
  destruct (Z.eqb_spec (b2z b) 255) as [E|E]; cbn [negb].
  - cbn [lex length]. rewrite Z.ltb_irrefl. split; [done|lia].
  - pose proof (b2z_range b). cbn [lex length]. rewrite b2z_z2b, Z.mod_small by lia.
    rewrite (proj2 (Z.ltb_lt _ _)) by lia. split; lia.
Qed.

(** ** dbformat: internal keys *)

Inductive ValueType := kTypeDeletion | kTypeValue.
#[export] Instance ValueType_eq_dec : EqDecision ValueType.
Proof. solve_decision. Defined.
Definition type_code (t : ValueType) : Z := match t with kTypeDeletion => 0 | kTypeValue => 1 end.
Definition kValueTypeForSeek : ValueType := kTypeValue.
Definition kMaxSequenceNumber : Z := Z.shiftl 1 56 - 1.

Record ParsedInternalKey := { user_key : bytes; sequence : Z; type : Z }.

Definition InternalKeyEncodingLength (k : ParsedInternalKey) : Z := blen (user_key k) + 8.

Definition PackSequenceAndType (seq : Z) (t : Z) : outcome Z :=
  _ ← c_assert (seq <=? kMaxSequenceNumber);
  _ ← c_assert (t <=? type_code kValueTypeForSeek);
  Done (Z.lor (u64 (Z.shiftl seq 8)) t).

Definition AppendInternalKey (result : bytes) (key : ParsedInternalKey) : outcome bytes :=
  p ← PackSequenceAndType (sequence key) (type key);
  Done (PutFixed64 (result ++ user_key key) p).

Definition ExtractUserKey (internal_key : bytes) : outcome bytes :=
  _ ← c_assert (8 <=? blen internal_key);
  Done (take (length internal_key - 8) internal_key).

(** the last eight bytes *)
Definition trailer (key : bytes) : outcome Z := DecodeFixed64 (drop (length key - 8) key).

(** the result and the parsed key, which is stored even when the type is bad *)
Definition ParseInternalKey (internal_key : bytes) : outcome (bool * option ParsedInternalKey) :=
  if blen internal_key <? 8 then Done (false, None) else
  num ← trailer internal_key;
  let c := Z.land num 255 in
  Done (c <=? type_code kTypeValue,
        Some {| user_key := take (length internal_key - 8) internal_key;
                sequence := Z.shiftr num 8; type := c |}).

(** [InternalKeyComparator] over the bytewise comparator *)
Module Internal.

Definition Compare (akey bkey : bytes) : outcome Z :=
  a ← ExtractUserKey akey;
  b ← ExtractUserKey bkey;
  let r := DbFormat.Compare a b in
  if r =? 0 then
    anum ← trailer akey;
    bnum ← trailer bkey;
    Done (if bnum <? anum then -1 else if anum <? bnum then 1 else r)
  else Done r.

(** the common end of the next two: the shortened user key with the earliest
    number, when it is after the user key *)
Definition shortened (key user tmp : bytes) (before : bytes -> outcome unit) : outcome bytes :=
  if (blen tmp <? blen user) && (DbFormat.Compare user tmp <? 0) then
    p ← PackSequenceAndType kMaxSequenceNumber (type_code kValueTypeForSeek);
    let tmp := PutFixed64 tmp p in
    r ← Compare key tmp;
    _ ← c_assert (r <? 0);
    _ ← before tmp;
    Done tmp
  else Done key.

Definition FindShortestSeparator (start limit : bytes) : outcome bytes :=
  user_start ← ExtractUserKey start;
  user_limit ← ExtractUserKey limit;
  tmp ← DbFormat.FindShortestSeparator user_start user_limit;
  shortened start user_start tmp (fun tmp => r ← Compare tmp limit; c_assert (r <? 0)).

Definition FindShortSuccessor (key : bytes) : outcome bytes :=
  user_key ← ExtractUserKey key;
  shortened key user_key (DbFormat.FindShortSuccessor user_key) (fun _ => Done tt).
End Internal.

(** [LookupKey]: the buffer and where the internal key starts in it *)
Record LookupKey := { start_ : bytes; kstart_ : nat }.

Definition make_LookupKey (user_key : bytes) (s : Z) : outcome LookupKey :=
  let klength := EncodeVarint32 (u32 (blen user_key + 8)) in
  p ← PackSequenceAndType s (type_code kValueTypeForSeek);
  Done {| start_ := klength ++ user_key ++ EncodeFixed64 p; kstart_ := length klength |}.

Definition memtable_key (k : LookupKey) : bytes := start_ k.
Definition internal_key (k : LookupKey) : bytes := drop (kstart_ k) (start_ k).
Definition lookup_user_key (k : LookupKey) : bytes :=
  take (length (start_ k) - kstart_ k - 8) (drop (kstart_ k) (start_ k)).

(** ** Lemmas *)

(** an internal key with its eight last bytes as one number *)
Definition ikey (user : bytes) (tag : Z) : bytes := user ++ EncodeFixed64 tag.
Definition tag_of (seq : Z) (t : ValueType) : Z := seq * 256 + type_code t.

Lemma type_code_range t : 0 <= type_code t <= 1.
Proof. destruct t; simpl; lia. Qed.

Lemma PackSequenceAndType_spec seq t :
  0 <= seq < 2 ^ 56 -> PackSequenceAndType seq (type_code t) = Done (tag_of seq t).
Proof.
  intros Hs. unfold PackSequenceAndType, kMaxSequenceNumber. rewrite Z.shiftl_1_l.
  rewrite (proj2 (Z.leb_le seq _)) by lia. pose proof (type_code_range t).
  rewrite (proj2 (Z.leb_le (type_code t) _)) by (simpl; lia). cbn [mbind outcome_bind c_assert]. f_equal.
  rewrite Z.shiftl_mul_pow2, u64_small by lia. rewrite Z.lor_comm, <- Z.shiftl_mul_pow2 by lia.
  rewrite lor_shiftl_add by lia. unfold tag_of. lia.
Qed.

Lemma tag_of_range seq t : 0 <= seq < 2 ^ 56 -> 0 <= tag_of seq t < 2 ^ 64.
Proof. intros Hs. unfold tag_of. pose proof (type_code_range t). lia. Qed.

Lemma blen_ikey u t : blen (ikey u t) = blen u + 8.
Proof. unfold ikey. by rewrite blen_app. Qed.
Lemma length_ikey u t : length (ikey u t) = (length u + 8)%nat.
Proof. unfold ikey. by rewrite length_app. Qed.

Lemma ExtractUserKey_ikey u t : ExtractUserKey (ikey u t) = Done u.
Proof.
  unfold ExtractUserKey. rewrite blen_ikey. rewrite (proj2 (Z.leb_le _ _)) by (pose proof (blen_nonneg u); lia).
  cbn [mbind outcome_bind c_assert]. f_equal. rewrite length_ikey. unfold ikey.
  replace (length u + 8 - 8)%nat with (length u) by lia. apply take_app_exact.
Qed.

Lemma trailer_ikey u t : 0 <= t < 2 ^ 64 -> trailer (ikey u t) = Done t.
Proof.
  intros Ht. unfold trailer. rewrite length_ikey. unfold ikey.
  replace (length u + 8 - 8)%nat with (length u) by lia. rewrite drop_app_exact.
  rewrite <- (app_nil_r (EncodeFixed64 t)). by apply Fixed64_roundtrip.
Qed.

(** The order of internal keys: user keys first, then larger numbers first. *)
Definition icompare (u1 : bytes) (t1 : Z) (u2 : bytes) (t2 : Z) : Z :=
  if lex u1 u2 =? 0 then (if t2 <? t1 then -1 else if t1 <? t2 then 1 else 0) else lex u1 u2.

Lemma Internal_Compare_spec u1 t1 u2 t2 :
  0 <= t1 < 2 ^ 64 -> 0 <= t2 < 2 ^ 64 ->
  Internal.Compare (ikey u1 t1) (ikey u2 t2) = Done (icompare u1 t1 u2 t2).
Proof.
  intros H1 H2. unfold Internal.Compare, icompare, Compare. rewrite !ExtractUserKey_ikey.
  cbn [mbind outcome_bind]. rewrite slice_compare_lex.
  destruct (Z.eqb_spec (lex u1 u2) 0) as [E|]; [|done].
  rewrite !trailer_ikey by done. cbn [mbind outcome_bind]. by rewrite E.
Qed.

Lemma icompare_eq u1 t1 u2 t2 : icompare u1 t1 u2 t2 = 0 <-> u1 = u2 /\ t1 = t2.
Proof.
  unfold icompare. destruct (Z.eqb_spec (lex u1 u2) 0) as [E|E].
  - apply lex_eq in E as ->. zcases; naive_solver lia.
  - split; [lia|]. intros [-> ->]. by rewrite lex_refl in E.
Qed.

Lemma icompare_antisym u1 t1 u2 t2 : icompare u2 t2 u1 t1 = - icompare u1 t1 u2 t2.
Proof.
  unfold icompare. rewrite (lex_antisym u1 u2). zcases; lia.
Qed.

Lemma icompare_trans u1 t1 u2 t2 u3 t3 :
  icompare u1 t1 u2 t2 < 0 -> icompare u2 t2 u3 t3 < 0 -> icompare u1 t1 u3 t3 < 0.
Proof.
  unfold icompare. intros H1 H2.
  destruct (Z.eqb_spec (lex u1 u2) 0) as [E1|E1]; [apply lex_eq in E1 as ->|];
  destruct (Z.eqb_spec (lex u2 u3) 0) as [E2|E2]; try (apply lex_eq in E2 as ->).
  - zcases; lia.
  - lia.
  - zcases; lia.
  - pose proof (lex_trans _ _ _ H1 H2). zcases; lia.
Qed.

(** a written key is parsed back *)
Lemma ParseInternalKey_roundtrip k :
  0 <= sequence k < 2 ^ 56 -> 0 <= type k <= 1 ->
  exists bs, AppendInternalKey [] k = Done bs /\ blen bs = InternalKeyEncodingLength k /\
    ParseInternalKey bs = Done (true, Some k).
Proof.
  intros Hs Ht. destruct k as [u s t]. simpl in *.
  assert (exists ty, type_code ty = t) as [ty <-].
  { destruct (decide (t = 0)); [by exists kTypeDeletion|exists kTypeValue; simpl; lia]. }
  exists (ikey u (tag_of s ty)). unfold AppendInternalKey. simpl. rewrite PackSequenceAndType_spec by done.
  cbn [mbind outcome_bind]. split; [done|]. split; [apply blen_ikey|]. unfold ParseInternalKey.
  pose proof (blen_nonneg u). rewrite blen_ikey, (proj2 (Z.ltb_ge _ _)) by lia.
  rewrite trailer_ikey by (by apply tag_of_range). cbn [mbind outcome_bind].
  rewrite length_ikey. replace (length u + 8 - 8)%nat with (length u) by lia. unfold ikey at 1.
  rewrite take_app_exact. change 255 with (Z.ones 8). rewrite Z.land_ones, Z.shiftr_div_pow2 by lia.
  unfold tag_of. change (2 ^ 8) with 256.
  replace ((s * 256 + type_code ty) mod 256) with (type_code ty)
    by (rewrite Z.add_comm, Z.mod_add, Z.mod_small by lia; done).
  replace ((s * 256 + type_code ty) / 256) with s
    by (rewrite Z.add_comm, Z.div_add, Z.div_small by lia; lia).
  by rewrite (proj2 (Z.leb_le _ _)) by (simpl; lia).
Qed.

(** The three views of a lookup key; the buffer of [usize + 13] bytes is large
    enough. *)
Lemma make_LookupKey_spec u s :
  0 <= s < 2 ^ 56 -> blen u + 8 < 2 ^ 32 ->
  exists k, make_LookupKey u s = Done k /\
    memtable_key k = EncodeVarint32 (blen u + 8) ++ ikey u (tag_of s kTypeValue) /\
    internal_key k = ikey u (tag_of s kTypeValue) /\ lookup_user_key k = u /\
    blen (memtable_key k) <= blen u + 13.
Proof.
  intros Hs Hu. pose proof (blen_nonneg u). unfold make_LookupKey, kValueTypeForSeek.
  rewrite PackSequenceAndType_spec by done. cbn [mbind outcome_bind]. eexists. split; [done|].
  rewrite u32_small by lia. unfold memtable_key, internal_key, lookup_user_key. cbn [start_ kstart_].
  rewrite drop_app_exact. split; [done|]. split; [done|]. split.
  - rewrite !length_app. replace (_ - _ - _)%nat with (length u) by (simpl; lia). apply take_app_exact.
  - rewrite !blen_app. assert (blen (EncodeVarint32 (blen u + 8)) <= 5); [|rewrite blen_EncodeFixed64; lia].
    unfold EncodeVarint32. repeat case_match; unfold blen; simpl; lia.
Qed.
