(* ===== verification/Status.v ===== *)
(** * Status: leveldb's include/leveldb/status.h and util/status.cc

    The result of an operation.  The buffer behind [state_] is its code and its
    message; [NotFound] is called [NotFoundStatus] here, since what a memtable
    finds has that name too. *)

From Stdlib.Strings Require Import Byte.
From S2P Require Import Prelude.

Inductive Status := OK | NotFoundStatus (msg : bytes) | Corruption (msg : bytes) | NotSupported (msg : bytes)
  | InvalidArgument (msg : bytes) | IOError (msg : bytes).
#[export] Instance Status_eq_dec : EqDecision Status.
Proof. solve_decision. Defined.

(** the message made of the two of the constructors *)
Definition status_message (msg msg2 : bytes) : bytes := if bool_decide (msg2 = []) then msg else msg ++ text ": " ++ msg2.

Definition status_ok (s : Status) : bool := bool_decide (s = OK).
Definition IsNotFound (s : Status) : bool := match s with NotFoundStatus _ => true | _ => false end.
Definition IsCorruption (s : Status) : bool := match s with Corruption _ => true | _ => false end.

Definition ToString (s : Status) : bytes :=
  match s with
  | OK => text "OK"
  | NotFoundStatus m => text "NotFound: " ++ m
  | Corruption m => text "Corruption: " ++ m
  | NotSupported m => text "Not implemented: " ++ m
  | InvalidArgument m => text "Invalid argument: " ++ m
  | IOError m => text "IO error: " ++ m
  end.
