(* ===== verification/WriteBatch.v ===== *)
(** * WriteBatch: leveldb's db/write_batch.cc and write_batch_internal.h

    A batch is a string: an eight byte sequence number, a four byte count, then
    the records.  [Iterate] runs a handler on the records in order. *)

From Stdlib.Strings Require Import Byte.
From S2P Require Import Prelude DBType Status Coding DbFormat.

Definition kHeader : Z := 12.

(** the string [rep_] of a batch *)
Definition Clear : bytes := replicate (Z.to_nat kHeader) x00.
Definition ApproximateSize (rep_ : bytes) : Z := blen rep_.

Definition Count (rep_ : bytes) : outcome Z := c ← DecodeFixed32 (drop 8 rep_); Done (i32 c).

(** a write into the middle of the string *)
Definition write_at (rep_ : bytes) (off : nat) (bs : bytes) : outcome bytes :=
  if (off + length bs <=? length rep_)%nat
  then Done (take off rep_ ++ bs ++ drop (off + length bs) rep_) else Undefined.

Definition SetCount (rep_ : bytes) (n : Z) : outcome bytes := write_at rep_ 8 (EncodeFixed32 n).
Definition Sequence (rep_ : bytes) : outcome Z := DecodeFixed64 rep_.
Definition SetSequence (rep_ : bytes) (seq : Z) : outcome bytes := write_at rep_ 0 (EncodeFixed64 seq).

(** the sum of two counts, as [int]s *)
Definition add_count (a b : Z) : outcome Z := if 2 ^ 31 <=? a + b then Undefined else Done (a + b).

Definition Put (rep_ key value : bytes) : outcome bytes :=
  c ← Count rep_;
  n ← add_count c 1;
  rep_ ← SetCount rep_ n;
  Done (PutLengthPrefixedSlice
    (PutLengthPrefixedSlice (rep_ ++ [z2b (type_code kTypeValue)]) key) value).

Definition Delete (rep_ key : bytes) : outcome bytes :=
  c ← Count rep_;
  n ← add_count c 1;
  rep_ ← SetCount rep_ n;
  Done (PutLengthPrefixedSlice (rep_ ++ [z2b (type_code kTypeDeletion)]) key).

Definition SetContents (contents : bytes) : outcome bytes :=
  _ ← c_assert (kHeader <=? blen contents); Done contents.

Definition Append (dst src : bytes) : outcome bytes :=
  a ← Count dst;
  b ← Count src;
  n ← add_count a b;
  dst ← SetCount dst n;
  _ ← c_assert (kHeader <=? blen src);
  Done (dst ++ drop (Z.to_nat kHeader) src).

(** ** Iterate *)

Section iterate.
Context {St : Type}.
(** [WriteBatch::Handler] *)
Variable h_Put : bytes -> bytes -> St -> outcome St.
Variable h_Delete : bytes -> St -> outcome St.

(** The loop: the status when a record is bad, the number of records found when
    the input ends.  A round takes at least one byte. *)
Fixpoint Iterate_loop (fuel : nat) (input : bytes) (found : Z) (s : St) : outcome (St * (Status + Z)) :=
  match input with
  | [] => Done (s, inr found)
  | tag :: input =>
      match fuel with
      | O => Hangs
      | S fuel' =>
          let found := found + 1 in
          if b2z tag =? type_code kTypeValue then
            match GetLengthPrefixedSlice input with
            | Some (key, input) =>
                match GetLengthPrefixedSlice input with
                | Some (value, input) => s ← h_Put key value s; Iterate_loop fuel' input found s
                | None => Done (s, inl (Corruption (text "bad WriteBatch Put")))
                end
            | None => Done (s, inl (Corruption (text "bad WriteBatch Put")))
            end
          else if b2z tag =? type_code kTypeDeletion then
            match GetLengthPrefixedSlice input with
            | Some (key, input) => s ← h_Delete key s; Iterate_loop fuel' input found s
            | None => Done (s, inl (Corruption (text "bad WriteBatch Delete")))
            end
          else Done (s, inl (Corruption (text "unknown WriteBatch tag")))
      end
  end.

Definition Iterate (rep_ : bytes) (s : St) : outcome (St * Status) :=
  if blen rep_ <? kHeader then Done (s, Corruption (text "malformed WriteBatch (too small)")) else
  let input := drop (Z.to_nat kHeader) rep_ in
  '(s, r) ← Iterate_loop (length input) input 0 s;
  match r with
  | inl bad => Done (s, bad)
  | inr found =>
      c ← Count rep_;
      Done (s, if found =? c then OK else Corruption (text "WriteBatch has wrong count"))
  end.

(** the handler run on a list of operations *)
Definition handle (o : batch_op) (s : St) : outcome St :=
  match o with batch_Put k v => h_Put k v s | batch_Delete k => h_Delete k s end.
Fixpoint handle_all (ops : list batch_op) (s : St) : outcome St :=
  match ops with [] => Done s | o :: ops' => s ← handle o s; handle_all ops' s end.
End iterate.

(** a batch made by a sequence of calls *)
Definition add_op (rep_ : bytes) (o : batch_op) : outcome bytes :=
  match o with batch_Put k v => Put rep_ k v | batch_Delete k => Delete rep_ k end.
Fixpoint add_ops (rep_ : bytes) (ops : list batch_op) : outcome bytes :=
  match ops with [] => Done rep_ | o :: ops' => rep_ ← add_op rep_ o; add_ops rep_ ops' end.

(** ** The contents of a batch *)

Definition op_bytes (o : batch_op) : bytes :=
  match o with
  | batch_Put k v => z2b (type_code kTypeValue) :: PutLengthPrefixedSlice (PutLengthPrefixedSlice [] k) v
  | batch_Delete k => z2b (type_code kTypeDeletion) :: PutLengthPrefixedSlice [] k
  end.
Definition ops_bytes (ops : list batch_op) : bytes := concat (map op_bytes ops).

Definition batch_bytes (seq : Z) (ops : list batch_op) : bytes :=
  EncodeFixed64 seq ++ EncodeFixed32 (Z.of_nat (length ops)) ++ ops_bytes ops.

(** strings whose length fits the prefix *)
Definition op_ok (o : batch_op) : Prop :=
  match o with batch_Put k v => blen k < 2 ^ 32 /\ blen v < 2 ^ 32 | batch_Delete k => blen k < 2 ^ 32 end.
#[export] Instance op_ok_dec o : Decision (op_ok o).
Proof. destruct o; simpl; apply _. Defined.

Lemma ops_bytes_cons o ops : ops_bytes (o :: ops) = op_bytes o ++ ops_bytes ops.
Proof. done. Qed.
Lemma ops_bytes_app a b : ops_bytes (a ++ b) = ops_bytes a ++ ops_bytes b.
Proof. unfold ops_bytes. by rewrite map_app, concat_app. Qed.

Lemma Count_batch seq (ops : list batch_op) rest :
  Z.of_nat (length ops) < 2 ^ 31 ->
  Count (EncodeFixed64 seq ++ EncodeFixed32 (Z.of_nat (length ops)) ++ rest) = Done (Z.of_nat (length ops)).
Proof.
  intros Hn. unfold Count. change 8%nat with (length (EncodeFixed64 seq)).
  rewrite drop_app_exact, Fixed32_roundtrip by lia. cbn [mbind outcome_bind]. f_equal.
  unfold i32. pows. rewrite Z.mod_small; lia.
Qed.

Lemma SetCount_batch seq c n rest :
  SetCount (EncodeFixed64 seq ++ EncodeFixed32 c ++ rest) n = Done (EncodeFixed64 seq ++ EncodeFixed32 n ++ rest).
Proof. done. Qed.

Lemma SetSequence_batch seq0 seq rest : SetSequence (EncodeFixed64 seq0 ++ rest) seq = Done (EncodeFixed64 seq ++ rest).
Proof. done. Qed.

Lemma Sequence_batch seq rest : 0 <= seq < 2 ^ 64 -> Sequence (EncodeFixed64 seq ++ rest) = Done seq.
Proof. apply Fixed64_roundtrip. Qed.

Lemma PutLengthPrefixedSlice_app dst v : PutLengthPrefixedSlice dst v = dst ++ PutLengthPrefixedSlice [] v.
Proof. unfold PutLengthPrefixedSlice, PutVarint32. by rewrite <- app_assoc. Qed.

(** one more call appends one more record *)
Lemma add_op_spec seq ops o :
  Z.of_nat (length ops) + 1 < 2 ^ 31 ->
  add_op (batch_bytes seq ops) o = Done (batch_bytes seq (ops ++ [o])).
Proof.
  intros Hn. unfold batch_bytes. rewrite ops_bytes_app, length_app. unfold ops_bytes at 3.
  cbn [map concat length]. rewrite app_nil_r, Nat2Z.inj_add.
  destruct o; cbn [add_op op_bytes]; unfold Put, Delete; rewrite Count_batch by lia;
    cbn [mbind outcome_bind]; unfold add_count; rewrite (proj2 (Z.leb_gt _ _)) by lia;
    cbn [mbind outcome_bind]; rewrite SetCount_batch; cbn [mbind outcome_bind]; f_equal;
    rewrite !(PutLengthPrefixedSlice_app (_ ++ _)), <- !app_assoc; do 3 f_equal.
  rewrite (PutLengthPrefixedSlice_app (PutLengthPrefixedSlice [] k)). done.
Qed.

Lemma add_ops_spec seq ops more :
  Z.of_nat (length ops) + Z.of_nat (length more) < 2 ^ 31 ->
  add_ops (batch_bytes seq ops) more = Done (batch_bytes seq (ops ++ more)).
Proof.
  revert ops; induction more as [|o more IH]; intros ops Hn; cbn [add_ops]; [by rewrite app_nil_r|].
  cbn [length] in Hn. rewrite add_op_spec by lia. cbn [mbind outcome_bind].
  rewrite IH by (rewrite length_app; simpl; lia). by rewrite <- app_assoc.
Qed.

Lemma Clear_batch : Clear = batch_bytes 0 [].
Proof. reflexivity. Qed.

(** ** Reading it back *)

Section read.
Context {St : Type}.
Variable h_Put : bytes -> bytes -> St -> outcome St.
Variable h_Delete : bytes -> St -> outcome St.

(** one record at the front of the input *)
Lemma Iterate_loop_op fuel o rest found s :
  op_ok o ->
  Iterate_loop h_Put h_Delete (S fuel) (op_bytes o ++ rest) found s =
    (s' ← handle h_Put h_Delete o s; Iterate_loop h_Put h_Delete fuel rest (found + 1) s').
Proof.
  intros Ho. destruct o as [k v|k]; simpl in Ho; cbn [op_bytes app Iterate_loop handle].
  - destruct Ho as [Hk Hv]. change (b2z (z2b (type_code kTypeValue)) =? type_code kTypeValue) with true.
    cbv iota. rewrite PutLengthPrefixedSlice_app, <- app_assoc.
    rewrite (proj1 (LengthPrefixed_roundtrip [] k _ Hk)). by rewrite (proj1 (LengthPrefixed_roundtrip [] v _ Hv)).
  - change (b2z (z2b (type_code kTypeDeletion)) =? type_code kTypeValue) with false.
    change (b2z (z2b (type_code kTypeDeletion)) =? type_code kTypeDeletion) with true. cbv iota.
    by rewrite (proj1 (LengthPrefixed_roundtrip [] k _ Ho)).
Qed.

Lemma length_op_bytes o : (1 <= length (op_bytes o))%nat.
Proof. destruct o; cbn [op_bytes length]; lia. Qed.

Lemma Iterate_loop_ops ops fuel rest found s :
  Forall op_ok ops -> (length (ops_bytes ops ++ rest) <= fuel)%nat ->
  exists fuel', (length rest <= fuel')%nat /\
    Iterate_loop h_Put h_Delete fuel (ops_bytes ops ++ rest) found s =
    (s' ← handle_all h_Put h_Delete ops s;
     Iterate_loop h_Put h_Delete fuel' rest (found + Z.of_nat (length ops)) s').
Proof.
  intros Ho. revert fuel found s; induction Ho as [|o ops Ho _ IH]; intros fuel found s Hf.
  - exists fuel. split; [exact Hf|]. cbn [handle_all length mbind outcome_bind ops_bytes map concat app].
    by rewrite Z.add_0_r.
  - rewrite ops_bytes_cons, <- app_assoc, length_app in Hf. pose proof (length_op_bytes o).
    destruct fuel as [|fuel]; [lia|].
    rewrite ops_bytes_cons, <- app_assoc, Iterate_loop_op by done. cbn [handle_all length].
    destruct (handle h_Put h_Delete o s) as [s1| | | | |] eqn:E; cbn [mbind outcome_bind];
      [|exists (length rest); split; [lia|done]..].
    destruct (IH fuel (found + 1) s1) as (fuel' & Hf' & E'); [lia|].
    exists fuel'. split; [done|]. rewrite E'. do 2 f_equal. lia.
Qed.

Lemma Iterate_batch seq ops s :
  Forall op_ok ops -> Z.of_nat (length ops) < 2 ^ 31 ->
  Iterate h_Put h_Delete (batch_bytes seq ops) s =
    (s' ← handle_all h_Put h_Delete ops s; Done (s', OK)).
Proof.
  intros Ho Hn. unfold Iterate, batch_bytes. rewrite (proj2 (Z.ltb_ge _ _)).
  2: { rewrite !blen_app, blen_EncodeFixed32, blen_EncodeFixed64. pose proof (blen_nonneg (ops_bytes ops)).
       unfold kHeader. lia. }
  change (drop (Z.to_nat kHeader) (EncodeFixed64 seq ++ EncodeFixed32 (Z.of_nat (length ops)) ++ ops_bytes ops))
    with (ops_bytes ops).
  destruct (Iterate_loop_ops ops (length (ops_bytes ops)) [] 0 s Ho) as (fuel' & _ & E); [by rewrite app_nil_r|].
  rewrite app_nil_r in E. rewrite E. rewrite Count_batch by done.
  destruct (handle_all h_Put h_Delete ops s); try done. cbn [mbind outcome_bind].
  destruct fuel'; cbn [Iterate_loop mbind outcome_bind]; by rewrite Z.eqb_refl.
Qed.
End read.

Lemma Append_batch s1 s2 a b :
  Z.of_nat (length a) + Z.of_nat (length b) < 2 ^ 31 ->
  Append (batch_bytes s1 a) (batch_bytes s2 b) = Done (batch_bytes s1 (a ++ b)).
Proof.
  intros Hn. unfold Append, batch_bytes. rewrite !Count_batch by lia. cbn [mbind outcome_bind].
  unfold add_count. rewrite (proj2 (Z.leb_gt (2 ^ 31) (Z.of_nat (length a) + Z.of_nat (length b)))) by lia. cbn [mbind outcome_bind].
  rewrite SetCount_batch. cbn [mbind outcome_bind]. unfold c_assert.
  rewrite (proj2 (Z.leb_le kHeader _)).
  2: { rewrite !blen_app, blen_EncodeFixed32, blen_EncodeFixed64. pose proof (blen_nonneg (ops_bytes b)).
       unfold kHeader. lia. }
  cbn [mbind outcome_bind]. f_equal.
  change (drop (Z.to_nat kHeader) (EncodeFixed64 s2 ++ EncodeFixed32 (Z.of_nat (length b)) ++ ops_bytes b))
    with (ops_bytes b).
  by rewrite ops_bytes_app, length_app, Nat2Z.inj_add, <- !app_assoc.
Qed.

(** ** A batch cut short *)

(** bytes added after an input do not change what is read from it *)
Lemma GetVarint_loop_app wrap n shift result p v r q :
  GetVarint_loop wrap n shift result p = Some (v, r) ->
  GetVarint_loop wrap n shift result (p ++ q) = Some (v, r ++ q) /\ (length r < length p)%nat.
Proof.
  revert shift result p; induction n as [|n IH]; intros shift result [|b p]; try done.
  cbn [app GetVarint_loop length]. case_match.
  - intros [= <- <-]. split; [done|lia].
  - intros E. apply IH in E as [-> ?]. split; [done|lia].
Qed.

Lemma GetVarint32_app p v r q :
  GetVarint32 p = Some (v, r) -> GetVarint32 (p ++ q) = Some (v, r ++ q) /\ (length r < length p)%nat.
Proof.
  unfold GetVarint32, GetVarint32Ptr. destruct p as [|b p]; cbn [app].
  - discriminate.
  - destruct (Z.land (b2z b) 128 =? 0).
    + intros [= <- <-]. split; [done|simpl; lia].
    + intros E. by apply (GetVarint_loop_app _ _ _ _ _ _ _ q) in E.
Qed.

Lemma GetLengthPrefixedSlice_app p v r q :
  GetLengthPrefixedSlice p = Some (v, r) ->
  GetLengthPrefixedSlice (p ++ q) = Some (v, r ++ q) /\ (length r < length p)%nat.
Proof.
  unfold GetLengthPrefixedSlice. destruct (GetVarint32 p) as [[len p']|] eqn:E; [|done].
  apply (GetVarint32_app _ _ _ q) in E as [-> Hl].
  destruct (Z.leb_spec len (blen p')) as [Hb|]; [|done]. intros [= <- <-].
  rewrite (proj2 (Z.leb_le _ _)) by (rewrite blen_app; pose proof (blen_nonneg q); lia).
  unfold blen in Hb. rewrite take_app_le, drop_app_le by lia. split; [done|]. rewrite length_drop. lia.
Qed.

Section truncated.
Context {St : Type}.
Variable h_Put : bytes -> bytes -> St -> outcome St.
Variable h_Delete : bytes -> St -> outcome St.

Lemma Iterate_loop_prefix fuel p q found s s' n :
  Iterate_loop h_Put h_Delete fuel p found s = Done (s', inr n) ->
  forall fuel2, (length (p ++ q) <= fuel2)%nat ->
  exists fuel', (length q <= fuel')%nat /\
    Iterate_loop h_Put h_Delete fuel2 (p ++ q) found s = Iterate_loop h_Put h_Delete fuel' q n s'.
Proof.
  revert p found s; induction fuel as [|fuel IH]; intros p found s E fuel2 Hf;
    (destruct p as [|t p]; [injection E as -> ->; by exists fuel2|]); [done|].
  cbn [app] in *. destruct fuel2 as [|fuel2]; [simpl in Hf; lia|]. cbn [Iterate_loop length] in *.
  rewrite length_app in Hf.
  destruct (b2z t =? type_code kTypeValue).
  - destruct (GetLengthPrefixedSlice p) as [[k p1]|] eqn:E1; [|done].
    destruct (GetLengthPrefixedSlice p1) as [[v p2]|] eqn:E2; [|done].
    apply (GetLengthPrefixedSlice_app _ _ _ q) in E1 as [-> H1], E2 as [-> H2].
    destruct (h_Put k v s) as [s1| | | | |]; try done. cbn [mbind outcome_bind] in *.
    apply (IH p2 (found + 1) s1 E fuel2). rewrite length_app. lia.
  - destruct (b2z t =? type_code kTypeDeletion); [|done].
    destruct (GetLengthPrefixedSlice p) as [[k p1]|] eqn:E1; [|done].
    apply (GetLengthPrefixedSlice_app _ _ _ q) in E1 as [-> H1].
    destruct (h_Delete k s) as [s1| | | | |]; try done. cbn [mbind outcome_bind] in *.
    apply (IH p1 (found + 1) s1 E fuel2). rewrite length_app. lia.
Qed.

Lemma Iterate_loop_found fuel p found s s' n :
  Iterate_loop h_Put h_Delete fuel p found s = Done (s', inr n) ->
  (if p is [] then found else found + 1) <= n.
Proof.
  revert p found s; induction fuel as [|fuel IH]; intros [|t p] found s E; try done; cbn [Iterate_loop] in E.
  1,2: injection E as -> ->; lia.
  repeat (case_match; try done); inv_done; try done;
    match goal with E : Iterate_loop _ _ _ _ _ _ = _ |- _ => apply IH in E; case_match; lia end.
Qed.

Lemma Iterate_loop_bad fuel p found s s' bad :
  Iterate_loop h_Put h_Delete fuel p found s = Done (s', inl bad) -> bad <> OK.
Proof.
  revert p found s; induction fuel as [|fuel IH]; intros [|t p] found s E; try discriminate; cbn [Iterate_loop] in E.
  repeat (case_match; try discriminate); inv_done; try done;
    try (match goal with E : (_, _) = (_, _) |- _ => by injection E as <- <- end); by eapply IH.
Qed.

Lemma handle_all_total ops s :
  (forall k v s, exists s', h_Put k v s = Done s') -> (forall k s, exists s', h_Delete k s = Done s') ->
  exists s', handle_all h_Put h_Delete ops s = Done s'.
Proof.
  intros HP HD. revert s; induction ops as [|o ops IH]; intros s; cbn [handle_all]; [by eauto|].
  assert (exists s1, handle h_Put h_Delete o s = Done s1) as [s1 ->] by (destruct o; [apply HP|apply HD]).
  apply IH.
Qed.

(** A batch that lost its end is never taken for a whole one. *)
Lemma Iterate_truncated seq ops n s s' st :
  (forall k v s, exists s', h_Put k v s = Done s') -> (forall k s, exists s', h_Delete k s = Done s') ->
  Forall op_ok ops -> Z.of_nat (length ops) < 2 ^ 31 -> (n < length (batch_bytes seq ops))%nat ->
  Iterate h_Put h_Delete (take n (batch_bytes seq ops)) s = Done (s', st) -> st <> OK.
Proof.
  intros HP HD Ho Hc Hn. unfold Iterate. set (hd := EncodeFixed64 seq ++ EncodeFixed32 (Z.of_nat (length ops))).
  assert (Eb : batch_bytes seq ops = hd ++ ops_bytes ops) by (unfold batch_bytes, hd; by rewrite <- app_assoc).
  assert (Hh : length hd = 12%nat) by done.
  case_match eqn:Hs; [by intros [= _ <-]|]. apply Z.ltb_ge in Hs.
  unfold blen, kHeader in Hs. rewrite length_take in Hs.
  rewrite Eb in *. rewrite length_app, Hh in Hn, Hs. rewrite take_app_ge by lia. rewrite Hh.
  set (p := take (n - 12) (ops_bytes ops)).
  change (drop (Z.to_nat kHeader) (hd ++ p)) with p.
  destruct (Iterate_loop h_Put h_Delete (length p) p 0 s) as [[s1 [bad|found]]| | | | |] eqn:E; try done;
    cbn [mbind outcome_bind].
  { intros [= -> <-]. by eapply Iterate_loop_bad. }
  unfold hd. rewrite <- app_assoc, Count_batch by done. cbn [mbind outcome_bind]. intros [= -> <-].
  destruct (Z.eqb_spec found (Z.of_nat (length ops))) as [->|]; [|done]. exfalso.
  set (q := drop (n - 12) (ops_bytes ops)).
  assert (Epq : ops_bytes ops = p ++ q) by (symmetry; apply take_drop).
  destruct (Iterate_loop_prefix _ _ q _ _ _ _ E (length (p ++ q))) as (f1 & Hf1 & E1); [done|].
  destruct (Iterate_loop_ops h_Put h_Delete ops (length (p ++ q)) [] 0 s Ho) as (f2 & _ & E2);
    [by rewrite app_nil_r, Epq|].
  rewrite app_nil_r, Epq, E1 in E2. destruct (handle_all_total ops s HP HD) as [s2 Es].
  rewrite Es in E2. cbn [mbind outcome_bind] in E2.
  assert (E3 : Iterate_loop h_Put h_Delete f1 q (Z.of_nat (length ops)) s' = Done (s2, inr (Z.of_nat (length ops))))
    by (rewrite E2; by destruct f2).
  apply Iterate_loop_found in E3. assert (q <> []) as Hq.
  { intros Eq. apply (f_equal length) in Eq. unfold q in Eq. rewrite length_drop in Eq. simpl in Eq. lia. }
  destruct q; [done|]. lia.
Qed.
End truncated.

(** C33: a batch built by any sequence of [Put] and [Delete] calls on an empty one
    gives the handler of [Iterate] exactly those calls, in order, and the status
    is [OK]; a batch that lost any number of its last bytes is never [OK]: it
    is reported as corrupt. *)
Theorem batch_roundtrip {St} (h_Put : bytes -> bytes -> St -> outcome St) h_Delete ops s :
  (forall k v s, exists s', h_Put k v s = Done s') -> (forall k s, exists s', h_Delete k s = Done s') ->
  Forall op_ok ops -> Z.of_nat (length ops) < 2 ^ 31 ->
  exists rep_ s', add_ops Clear ops = Done rep_ /\ handle_all h_Put h_Delete ops s = Done s' /\
    Iterate h_Put h_Delete rep_ s = Done (s', OK) /\
    forall n s1 st, (n < length rep_)%nat -> Iterate h_Put h_Delete (take n rep_) s = Done (s1, st) -> st <> OK.
Proof.
  intros HP HD Ho Hn. destruct (handle_all_total h_Put h_Delete ops s HP HD) as [s' Es].
  exists (batch_bytes 0 ops), s'. rewrite Clear_batch, (add_ops_spec 0 []) by done. split; [done|]. split; [done|].
  split; [by rewrite Iterate_batch, Es|]. intros n s1 st Hl. by apply Iterate_truncated.
Qed.

(** a handler that lists the calls it gets *)
Definition list_Put (k v : bytes) (s : list batch_op) : outcome (list batch_op) := Done (s ++ [batch_Put k v]).
Definition list_Delete (k : bytes) (s : list batch_op) : outcome (list batch_op) := Done (s ++ [batch_Delete k]).

Lemma batch_roundtrip_witness :
  let ops := [batch_Put (text "foo") (text "bar"); batch_Delete (text "box")] in
  exists rep_ s', add_ops Clear ops = Done rep_ /\ handle_all list_Put list_Delete ops [] = Done s' /\
    Iterate list_Put list_Delete rep_ [] = Done (s', OK) /\
    forall n s1 st, (n < length rep_)%nat -> Iterate list_Put list_Delete (take n rep_) [] = Done (s1, st) -> st <> OK.
Proof.
  refine (batch_roundtrip list_Put list_Delete _ [] _ _ _ _); [by eauto|by eauto| |done].
  apply (bool_decide_unpack _). vm_compute. exact I.
Defined.
