(* ===== verification/SkipList.v ===== *)
(** * SkipList: leveldb's db/skiplist.h and the generator of util/random.h

    The nodes lie in a heap: a map from addresses to a key and one link per
    level.  [head_] is address 0.  The comparator may fail an assertion, so it
    returns an [outcome], and so do the operations. *)

From Stdlib.Strings Require Import Byte.
From S2P Require Import Prelude.

(** ** util/random.h *)

Definition make_Random (s : Z) : Z :=
  let seed_ := Z.land s 0x7fffffff in
  if (seed_ =? 0) || (seed_ =? 2147483647) then 1 else seed_.

(** [Next]: the new [seed_], which is also the result *)
Definition Random_Next (seed_ : Z) : Z :=
  let M := 2147483647 in
  let product := u64 (seed_ * 16807) in
  let seed_ := u32 (Z.shiftr product 31 + Z.land product M) in
  if M <? seed_ then seed_ - M else seed_.

Definition Uniform (seed_ n : Z) : Z * Z := let s := Random_Next seed_ in (s, s mod n).
Definition OneIn (seed_ n : Z) : Z * bool := let s := Random_Next seed_ in (s, s mod n =? 0).

(** the reduction computes the product modulo [2^31 - 1] *)
Lemma Random_Next_spec seed :
  0 < seed < 2147483647 ->
  Random_Next seed = (seed * 16807) mod 2147483647 /\ 0 < Random_Next seed < 2147483647.
Proof.
  intros Hs. unfold Random_Next. rewrite u64_small by lia.
  set (p := seed * 16807).
  assert (Z.land p 2147483647 = p mod 2147483648) as -> by (apply (Z.land_ones p 31); lia).
  rewrite Z.shiftr_div_pow2 by lia. change (2 ^ 31) with 2147483648.
  pose proof (Z.div_mod p 2147483648 ltac:(lia)) as Hd. pose proof (Z.mod_pos_bound p 2147483648 ltac:(lia)).
  assert (0 <= p / 2147483648 < 16807) by (split; [apply Z.div_pos; lia|apply Z.div_lt_upper_bound; lia]).
  rewrite u32_small by lia. set (q := p / 2147483648) in *. set (r := p mod 2147483648) in *.
  assert (Hm : p mod 2147483647 = if 2147483647 <? q + r then q + r - 2147483647 else q + r).
  { assert (Hne : q + r <> 2147483647).
    { intros E. assert (p = 2147483647 * (q + 1)) as Ep by lia. subst p.
      (* 2^31 - 1 is a prime larger than both factors *)
      assert (Hg : Z.gcd 16807 2147483647 = 1) by reflexivity.
      assert ((2147483647 | 16807 * seed)) as Hdiv by (exists (q + 1); lia).
      apply Z.gauss in Hdiv; [|by rewrite Z.gcd_comm]. apply Z.divide_pos_le in Hdiv; lia. }
    zcases; symmetry; [apply (Z.mod_unique p _ (q + 1))|apply (Z.mod_unique p _ q)]; lia. }
  rewrite Hm. split; [done|].
  assert (p mod 2147483647 <> 0); [|rewrite Hm in *; zcases; lia].
  intros E. apply Z.mod_divide in E; [|done]. subst p. rewrite Z.mul_comm in E.
  apply Z.gauss in E; [|done]. apply Z.divide_pos_le in E; lia.
Qed.

(** ** The list *)

Definition kMaxHeight : nat := 12.
Definition kBranching : Z := 4.

Record Node (K : Type) := { nkey : option K; next_ : list (option nat) }.
Arguments nkey {K} _.
Arguments next_ {K} _.
Arguments Build_Node {K} _ _.

(** [free] is the next address the arena gives *)
Record SkipList (K : Type) := {
  nodes : gmap nat (Node K); free : nat; max_height_ : nat; rnd_ : Z }.
Arguments nodes {K} _.
Arguments free {K} _.
Arguments max_height_ {K} _.
Arguments rnd_ {K} _.
Arguments Build_SkipList {K} _ _ _ _.

Definition head_ : nat := 0.

Section skiplist.
Context {K : Type}.
Variable compare_ : K -> K -> outcome Z.
Implicit Types (s : SkipList K) (key : K).

Definition with_nodes s (m : gmap nat (Node K)) : SkipList K :=
  Build_SkipList m (free s) (max_height_ s) (rnd_ s).

(** the constructor: a head without a key, as tall as can be *)
Definition make_SkipList : SkipList K :=
  Build_SkipList {[head_ := Build_Node None (replicate kMaxHeight None)]} 1 1 (make_Random 0xdeadbeef).

Definition get_node s (x : nat) : outcome (Node K) :=
  match nodes s !! x with Some nd => Done nd | None => Undefined end.
Definition node_key s (x : nat) : outcome K :=
  nd ← get_node s x; match nkey nd with Some k => Done k | None => Undefined end.
Definition Next s (x n : nat) : outcome (option nat) :=
  nd ← get_node s x; match next_ nd !! n with Some p => Done p | None => Undefined end.
Definition SetNext s (x n : nat) (p : option nat) : outcome (SkipList K) :=
  nd ← get_node s x;
  if (n <? length (next_ nd))%nat
  then Done (with_nodes s (<[x := Build_Node (nkey nd) (<[n := p]> (next_ nd))]> (nodes s)))
  else Undefined.

(** [NewNode]: its links are not initialised; they are read only once set *)
Definition NewNode s key (height : nat) : SkipList K * nat :=
  (Build_SkipList (<[free s := Build_Node (Some key) (replicate height None)]> (nodes s))
     (S (free s)) (max_height_ s) (rnd_ s), free s).

Fixpoint RandomHeight_loop (rounds height : nat) (seed : Z) : nat * Z :=
  match rounds with
  | O => (height, seed)
  | S rounds' =>
      let seed := Random_Next seed in
      if seed mod kBranching =? 0 then RandomHeight_loop rounds' (S height) seed else (height, seed)
  end.
(** the loop ends at [kMaxHeight] *)
Definition RandomHeight s : nat * Z := RandomHeight_loop (kMaxHeight - 1) 1 (rnd_ s).

Definition Equal (a b : K) : outcome bool := r ← compare_ a b; Done (r =? 0).

Definition KeyIsAfterNode s key (n : option nat) : outcome bool :=
  match n with
  | None => Done false
  | Some x => k ← node_key s x; r ← compare_ k key; Done (r <? 0)
  end.

(** a round goes to the right or down *)
Definition search_fuel s : nat := size (nodes s) + max_height_ s.

(** the result, and [prev] as far as it was filled *)
Fixpoint FindGreaterOrEqual_loop (fuel : nat) s key (x level : nat) (prev : list (option nat))
    : outcome (option nat * list (option nat)) :=
  match fuel with
  | O => Hangs
  | S fuel' =>
      next ← Next s x level;
      after ← KeyIsAfterNode s key next;
      if after : bool then FindGreaterOrEqual_loop fuel' s key (default head_ next) level prev
      else
        let prev := <[level := Some x]> prev in
        match level with
        | O => Done (next, prev)
        | S level' => FindGreaterOrEqual_loop fuel' s key x level' prev
        end
  end.
Definition FindGreaterOrEqual s key (prev : list (option nat)) : outcome (option nat * list (option nat)) :=
  FindGreaterOrEqual_loop (search_fuel s) s key head_ (max_height_ s - 1) prev.

Fixpoint FindLessThan_loop (fuel : nat) s key (x level : nat) : outcome nat :=
  match fuel with
  | O => Hangs
  | S fuel' =>
      before ← (if bool_decide (x = head_) then Done true
                else k ← node_key s x; r ← compare_ k key; Done (r <? 0));
      _ ← c_assert before;
      next ← Next s x level;
      stop ← (match next with
              | None => Done true
              | Some y => k ← node_key s y; r ← compare_ k key; Done (0 <=? r)
              end);
      if stop : bool then
        match level with
        | O => Done x
        | S level' => FindLessThan_loop fuel' s key x level'
        end
      else FindLessThan_loop fuel' s key (default head_ next) level
  end.
Definition FindLessThan s key : outcome nat :=
  FindLessThan_loop (search_fuel s) s key head_ (max_height_ s - 1).

Fixpoint FindLast_loop (fuel : nat) s (x level : nat) : outcome nat :=
  match fuel with
  | O => Hangs
  | S fuel' =>
      next ← Next s x level;
      match next, level with
      | None, O => Done x
      | None, S level' => FindLast_loop fuel' s x level'
      | Some y, _ => FindLast_loop fuel' s y level
      end
  end.
Definition FindLast s : outcome nat := FindLast_loop (search_fuel s) s head_ (max_height_ s - 1).

(** [for (int i = from; i < to; i++) prev[i] = head_] *)
Definition fill_prev (prev : list (option nat)) (from to : nat) : list (option nat) :=
  imap (fun i p => if (from <=? i)%nat && (i <? to)%nat then Some head_ else p) prev.

(** the last loop of [Insert], [n] levels left from [i] on *)
Fixpoint link_loop (n i : nat) (prev : list (option nat)) (x : nat) s : outcome (SkipList K) :=
  match n with
  | O => Done s
  | S n' =>
      p ← (match prev !! i with Some (Some p) => Done p | _ => Undefined end);
      nx ← Next s p i;
      s ← SetNext s x i nx;
      s ← SetNext s p i (Some x);
      link_loop n' (S i) prev x s
  end.

Definition Insert key s : outcome (SkipList K) :=
  '(x, prev) ← FindGreaterOrEqual s key (replicate kMaxHeight None);
  fresh ← (match x with
           | None => Done true
           | Some x => k ← node_key s x; e ← Equal key k; Done (negb e)
           end);
  _ ← c_assert fresh;
  let (height, seed) := RandomHeight s in
  let prev := fill_prev prev (max_height_ s) height in
  let s := Build_SkipList (nodes s) (free s) (Nat.max (max_height_ s) height) seed in
  let (s, x) := NewNode s key height in
  link_loop height 0 prev x s.

Definition Contains key s : outcome bool :=
  '(x, _) ← FindGreaterOrEqual s key [];
  match x with
  | None => Done false
  | Some x => k ← node_key s x; Equal key k
  end.

(** *** The iterator: the node it is at *)

Definition Valid (it : option nat) : bool := bool_decide (is_Some it).
Definition at_node (it : option nat) : outcome nat := match it with Some x => Done x | None => Asserted end.
Definition iter_key s (it : option nat) : outcome K := x ← at_node it; node_key s x.
Definition iter_Next s (it : option nat) : outcome (option nat) := x ← at_node it; Next s x 0.
Definition iter_Prev s (it : option nat) : outcome (option nat) :=
  x ← at_node it;
  k ← node_key s x;
  y ← FindLessThan s k;
  Done (if bool_decide (y = head_) then None else Some y).
Definition Seek s (target : K) : outcome (option nat) := '(x, _) ← FindGreaterOrEqual s target []; Done x.
Definition SeekToFirst s : outcome (option nat) := Next s head_ 0.
Definition SeekToLast s : outcome (option nat) :=
  y ← FindLast s; Done (if bool_decide (y = head_) then None else Some y).

(** ** Shape and links of the heap *)

Definition shape s (x : nat) : option (option K * nat) :=
  (fun nd => (nkey nd, length (next_ nd))) <$> nodes s !! x.
Definition height s (x : nat) : nat := match shape s x with Some (_, h) => h | None => O end.
Definition nxt s (x i : nat) : option (option nat) := nodes s !! x ≫= fun nd => next_ nd !! i.

Lemma node_key_shape s x k h : shape s x = Some (Some k, h) -> node_key s x = Done k.
Proof.
  unfold shape, node_key, get_node. destruct (nodes s !! x) as [nd|]; [|done]. simpl. by intros [= -> _].
Qed.

Lemma Next_nxt s x i p : nxt s x i = Some p -> Next s x i = Done p.
Proof.
  unfold nxt, Next, get_node. destruct (nodes s !! x) as [nd|]; [|done]. simpl. by intros ->.
Qed.

Definition same_shape s s' : Prop :=
  (forall x, shape s' x = shape s x) /\ size (nodes s') = size (nodes s) /\
  free s' = free s /\ max_height_ s' = max_height_ s /\ rnd_ s' = rnd_ s.

Lemma same_shape_refl s : same_shape s s.
Proof. done. Qed.
Lemma same_shape_trans s1 s2 s3 : same_shape s1 s2 -> same_shape s2 s3 -> same_shape s1 s3.
Proof. intros (A & B & C & D & E) (A' & B' & C' & D' & E'). repeat split; congruence. Qed.
Lemma same_height s s' x : same_shape s s' -> height s' x = height s x.
Proof. intros (A & _). unfold height. by rewrite A. Qed.

Lemma SetNext_spec s x i p :
  (i < height s x)%nat ->
  exists s', SetNext s x i p = Done s' /\ same_shape s s' /\
    forall y j, nxt s' y j = if decide (y = x /\ j = i) then Some p else nxt s y j.
Proof.
  unfold height, shape, SetNext, get_node. destruct (nodes s !! x) as [nd|] eqn:E; simpl; [|lia].
  intros Hi. rewrite (proj2 (Nat.ltb_lt _ _) Hi). eexists. split; [done|]. split.
  - split; [|split; [|done]].
    + intros y. unfold shape. simpl. destruct (decide (y = x)) as [->|].
      * rewrite lookup_insert_eq, E. simpl. by rewrite length_insert.
      * by rewrite lookup_insert_ne.
    + simpl. by rewrite map_size_insert, E.
  - intros y j. unfold nxt. simpl. destruct (decide (y = x)) as [->|].
    + rewrite lookup_insert_eq, E. simpl. destruct (decide (j = i)) as [->|].
      * rewrite decide_True by done. by apply list_lookup_insert_eq.
      * rewrite decide_False by tauto. by apply list_lookup_insert_ne.
    + rewrite lookup_insert_ne by done. by rewrite decide_False by tauto.
Qed.
End skiplist.
