(* ===== verification/SkipListSpec.v ===== *)
(** * SkipListSpec: the skip list of leveldb is a sorted list

    [sl_ok s ls]: the heap of the skip list [s] links, at every level, the nodes
    of the sorted list [ls] (addresses and keys) that are tall enough.  The
    operations are those of a sorted list, and return: no address outside the
    heap is used, no assertion fails, and the loops end. *)

From Stdlib.Strings Require Import Byte.
From stdpp Require Import sorting.
From S2P Require Import Prelude SkipList.

(** What the list needs of its comparator: on valid keys it returns, and what it
    returns is an order up to equivalence. *)
Class KeyOrder {K : Type} (compare_ : K -> K -> outcome Z) := {
  key_ok : K -> Prop;
  cmp : K -> K -> Z;
  cmp_done : forall a b, key_ok a -> key_ok b -> compare_ a b = Done (cmp a b);
  cmp_antisym : forall a b, key_ok a -> key_ok b -> cmp b a = - cmp a b;
  cmp_trans : forall a b c, key_ok a -> key_ok b -> key_ok c -> cmp a b < 0 -> cmp b c < 0 -> cmp a c < 0 }.

Section spec.
Context {K : Type} (compare_ : K -> K -> outcome Z) `{KeyOrder K compare_}.
Implicit Types (s : SkipList K) (key : K) (ls pre mid post lt ge : list (nat * K)).

Definition tall s (i : nat) (p : nat * K) : Prop := (i < height s p.1)%nat.
#[export] Instance tall_dec s i p : Decision (tall s i p).
Proof. unfold tall. apply _. Defined.

(** the first node of a list that has a link of level [i] *)
Fixpoint first_tall s (i : nat) ls : option nat :=
  match ls with
  | [] => None
  | p :: ls' => if decide (tall s i p) then Some p.1 else first_tall s i ls'
  end.

(** the last address of a list; the head of an empty one *)
Definition pos ls : nat := match list.last ls with Some p => p.1 | None => head_ end.
(** the last node of [lt] with a link of level [i] *)
Definition pred s (i : nat) lt : nat := pos (filter (tall s i) lt).

Definition precedes (p q : nat * K) : Prop := cmp p.2 q.2 < 0.

Record sl_ok s ls : Prop := {
  so_keys : Forall (fun p => key_ok p.2) ls;
  so_sorted : StronglySorted precedes ls;
  so_nodup : NoDup (head_ :: map fst ls);
  so_used : forall x, (free s <= x)%nat -> nodes s !! x = None;
  so_head : shape s head_ = Some (None, kMaxHeight);
  so_nodes : Forall (fun p => exists h, shape s p.1 = Some (Some p.2, h) /\ (1 <= h <= max_height_ s)%nat) ls;
  so_max : (1 <= max_height_ s <= kMaxHeight)%nat;
  so_size : size (nodes s) = S (length ls);
  so_links : forall i pre post, ls = pre ++ post -> (i < height s (pos pre))%nat ->
    nxt s (pos pre) i = Some (first_tall s i post) }.

Lemma pos_snoc ls p : pos (ls ++ [p]) = p.1.
Proof. unfold pos. by rewrite last_snoc. Qed.

Lemma pos_cases ls : (ls = [] /\ pos ls = head_) \/ exists ls' p, ls = ls' ++ [p] /\ pos ls = p.1.
Proof.
  destruct ls as [|p ls] using rev_ind; [by left|]. right. exists ls, p. by rewrite pos_snoc.
Qed.

Lemma first_tall_app s i a b :
  first_tall s i (a ++ b) = match first_tall s i a with Some x => Some x | None => first_tall s i b end.
Proof. induction a as [|p a IH]; [done|]. cbn [app first_tall]. by case_decide. Qed.

Lemma first_tall_Some s i ls x :
  first_tall s i ls = Some x ->
  exists skip p rest, ls = skip ++ p :: rest /\ p.1 = x /\ tall s i p /\ Forall (fun q => ~ tall s i q) skip.
Proof.
  induction ls as [|p ls IH]; [done|]. cbn [first_tall]. case_decide as Ht.
  - intros [= <-]. by exists [], p, ls.
  - intros E. destruct (IH E) as (skip & q & rest & -> & Hq & Htq & Hs).
    exists (p :: skip), q, rest. split; [done|]. repeat split; try done. by constructor.
Qed.

Lemma first_tall_None s i ls : first_tall s i ls = None -> Forall (fun q => ~ tall s i q) ls.
Proof.
  induction ls as [|p ls IH]; [by constructor|]. cbn [first_tall]. case_decide; [done|].
  intros E. constructor; [done|by apply IH].
Qed.

Lemma first_tall_ext s s' i ls :
  Forall (fun p => height s' p.1 = height s p.1) ls -> first_tall s' i ls = first_tall s i ls.
Proof.
  induction 1 as [|p ls Hp _ IH]; [done|]. cbn [first_tall]. rewrite IH.
  destruct (decide (tall s' i p)) as [Ht|Ht], (decide (tall s i p)) as [Ht'|Ht']; try done;
    unfold tall in *; rewrite Hp in Ht; contradiction.
Qed.

(** the last tall node, when nothing after it is tall *)
Lemma pred_pos s i pre mid :
  (pre = [] \/ (i < height s (pos pre))%nat) -> Forall (fun q => ~ tall s i q) mid ->
  pred s i (pre ++ mid) = pos pre.
Proof.
  intros Hpre Hmid. unfold pred. rewrite list.filter_app.
  assert (filter (tall s i) mid = []) as ->.
  { induction Hmid as [|q mid Hq _ IH]; [done|]. by rewrite list.filter_cons_False. }
  rewrite app_nil_r. destruct (pos_cases pre) as [[-> _]|(pre' & p & -> & Ep)]; [done|].
  rewrite Ep in *. rewrite list.filter_app, list.filter_cons_True.
  - rewrite list.filter_nil, pos_snoc. done.
  - destruct Hpre as [Hpre|]; [by apply app_eq_nil in Hpre as [_ ?]|done].
Qed.

(** *** Cutting the list at a key *)

Definition cut key lt ge : Prop :=
  Forall (fun p => cmp p.2 key < 0) lt /\ Forall (fun p => 0 <= cmp p.2 key) ge.

Lemma cut_exists s ls key :
  sl_ok s ls -> key_ok key -> exists lt ge, ls = lt ++ ge /\ cut key lt ge.
Proof.
  intros Hok Hk. pose proof (so_keys _ _ Hok) as Hks. pose proof (so_sorted _ _ Hok) as Hso. clear Hok.
  induction Hso as [|p ls Hso IH Hp]; [by exists [], []|].
  apply list.Forall_cons in Hks as [Hkp Hks].
  destruct (Z.lt_ge_cases (cmp p.2 key) 0) as [Hlt|Hge].
  - destruct (IH Hks) as (lt & ge & -> & H1 & H2). exists (p :: lt), ge. split; [done|]. split; [by constructor|done].
  - exists [], (p :: ls). split; [done|]. split; [constructor|]. constructor; [done|].
    rewrite list.Forall_forall in Hp, Hks |- *. intros q Hq.
    destruct (Z.lt_ge_cases (cmp q.2 key) 0) as [Hlt|]; [|done].
    pose proof (cmp_trans p.2 q.2 key Hkp (Hks q Hq) Hk (Hp q Hq) Hlt). lia.
Qed.

(** *** The search *)

Lemma so_node s ls p : sl_ok s ls -> p ∈ ls -> node_key s p.1 = Done p.2 /\ key_ok p.2 /\ (0 < height s p.1 <= max_height_ s)%nat.
Proof.
  intros Hok Hp. pose proof (so_nodes _ _ Hok) as Hn. rewrite list.Forall_forall in Hn.
  destruct (Hn p Hp) as (h & Es & Hh). split; [by eapply node_key_shape|]. split.
  - pose proof (so_keys _ _ Hok) as Hk. rewrite list.Forall_forall in Hk. by apply Hk.
  - unfold height. rewrite Es. lia.
Qed.

Lemma first_tall_0 s ls ge :
  sl_ok s ls -> (forall p, p ∈ ge -> p ∈ ls) -> first_tall s 0 ge = fst <$> head ge.
Proof.
  intros Hok Hsub. destruct ge as [|p ge]; [done|]. cbn [first_tall]. rewrite decide_True; [done|].
  destruct (so_node s ls p Hok (Hsub p ltac:(by left))) as (_ & _ & Hh). apply Hh.
Qed.

Lemma KeyIsAfterNode_node s ls key p :
  sl_ok s ls -> key_ok key -> p ∈ ls ->
  KeyIsAfterNode compare_ s key (Some p.1) = Done (cmp p.2 key <? 0).
Proof.
  intros Hok Hk Hp. destruct (so_node s ls p Hok Hp) as (Ek & Hkp & _).
  cbn [KeyIsAfterNode]. rewrite Ek. cbn [mbind outcome_bind]. by rewrite cmp_done.
Qed.

(** one look to the right: the next tall node is before the key, or not *)
Lemma look_right s key lt ge pre mid level :
  sl_ok s (lt ++ ge) -> key_ok key -> cut key lt ge -> lt = pre ++ mid -> (level < height s (pos pre))%nat ->
  Next s (pos pre) level = Done (first_tall s level (mid ++ ge)) /\
  ((exists p skip rest, first_tall s level (mid ++ ge) = Some p.1 /\ mid = skip ++ p :: rest /\
      (level < height s p.1)%nat /\ p ∈ lt ++ ge /\ cmp p.2 key < 0) \/
   (first_tall s level (mid ++ ge) = first_tall s level ge /\ pred s level lt = pos pre /\
    forall x, first_tall s level ge = Some x -> exists p, p.1 = x /\ p ∈ lt ++ ge /\ 0 <= cmp p.2 key)).
Proof.
  intros Hok Hk [Hlt Hge] -> Hl. split.
  { apply Next_nxt. eapply so_links; [exact Hok|by rewrite app_assoc|done]. }
  rewrite first_tall_app. destruct (first_tall s level mid) as [x|] eqn:E.
  - left. apply first_tall_Some in E as (skip & p & rest & -> & <- & Ht & _).
    exists p, skip, rest. split; [done|]. split; [done|]. split; [done|].
    rewrite list.Forall_forall in Hlt. split; [set_solver|apply Hlt; set_solver].
  - right. split; [done|]. split; [by apply pred_pos; [right|apply first_tall_None]|].
    intros x Ex. apply first_tall_Some in Ex as (skip & p & rest & -> & <- & _ & _).
    exists p. split; [done|]. rewrite list.Forall_forall in Hge. split; [set_solver|apply Hge; set_solver].
Qed.

Lemma FindGreaterOrEqual_loop_spec fuel s key lt ge pre mid level prev :
  sl_ok s (lt ++ ge) -> key_ok key -> cut key lt ge ->
  lt = pre ++ mid -> (level < height s (pos pre))%nat -> (length mid + level < fuel)%nat ->
  exists prev', FindGreaterOrEqual_loop compare_ fuel s key (pos pre) level prev
      = Done (fst <$> head ge, prev') /\ length prev' = length prev /\
    forall j, (j < length prev)%nat ->
      prev' !! j = if decide (j <= level)%nat then Some (Some (pred s j lt)) else prev !! j.
Proof.
  intros Hok Hk Hcut. revert pre mid level prev.
  induction fuel as [|fuel IH]; intros pre mid level prev Elt Hl Hf; [lia|].
  destruct (look_right s key lt ge pre mid level Hok Hk Hcut Elt Hl) as [En Hc].
  cbn [FindGreaterOrEqual_loop]. rewrite En. cbn [mbind outcome_bind].
  destruct Hc as [(p & skip & rest & -> & -> & Hh & Hin & Hlt)|(-> & Hp & Hge)].
  - rewrite (KeyIsAfterNode_node s (lt ++ ge) key p) by done. cbn [mbind outcome_bind default].
    rewrite (proj2 (Z.ltb_lt _ _) Hlt).
    rewrite length_app in Hf. simpl in Hf.
    destruct (IH (pre ++ skip ++ [p]) rest level prev) as (prev' & E & Hl' & Hj).
    + rewrite Elt, <- !app_assoc. done.
    + rewrite app_assoc, pos_snoc. done.
    + lia.
    + rewrite app_assoc, pos_snoc in E. eauto.
  - assert (Ea : KeyIsAfterNode compare_ s key (first_tall s level ge) = Done false).
    { destruct (first_tall s level ge) as [x|] eqn:Ef; [|done].
      destruct (Hge x eq_refl) as (p & <- & Hin & Hc). rewrite (KeyIsAfterNode_node s (lt ++ ge) key p) by done.
      by rewrite (proj2 (Z.ltb_ge _ _) Hc). }
    rewrite Ea. cbn [mbind outcome_bind]. destruct level as [|level].
    + rewrite (first_tall_0 s (lt ++ ge)) by (done || set_solver).
      eexists. split; [done|]. rewrite length_insert. split; [done|]. intros j Hj.
      destruct (decide (j = 0)%nat) as [->|]; [by rewrite list_lookup_insert_eq, Hp|].
      rewrite list_lookup_insert_ne, decide_False by lia. done.
    + destruct (IH pre mid level (<[S level := Some (pos pre)]> prev) Elt ltac:(lia) ltac:(lia)) as (prev' & E & Hl' & Hj).
      rewrite length_insert in *. exists prev'. split; [done|]. split; [done|]. intros j Hlen. rewrite Hj by done.
      destruct (decide (j = S level)) as [->|].
      * rewrite decide_False, decide_True, list_lookup_insert_eq, Hp by lia. done.
      * rewrite list_lookup_insert_ne by done. repeat case_decide; try done; lia.
Qed.

Lemma head_height s ls : sl_ok s ls -> height s head_ = kMaxHeight.
Proof. intros Hok. unfold height. by rewrite (so_head _ _ Hok). Qed.

Lemma FindGreaterOrEqual_spec s key lt ge prev :
  sl_ok s (lt ++ ge) -> key_ok key -> cut key lt ge ->
  exists prev', FindGreaterOrEqual compare_ s key prev = Done (fst <$> head ge, prev') /\
    length prev' = length prev /\
    forall j, (j < length prev)%nat ->
      prev' !! j = if decide (j <= max_height_ s - 1)%nat then Some (Some (pred s j lt)) else prev !! j.
Proof.
  intros Hok Hk Hcut. unfold FindGreaterOrEqual. change head_ with (pos []).
  pose proof (so_max _ _ Hok). apply (FindGreaterOrEqual_loop_spec _ _ _ lt ge [] lt); try done.
  - change (pos []) with head_. rewrite (head_height _ _ Hok). lia.
  - unfold search_fuel. rewrite (so_size _ _ Hok), length_app. lia.
Qed.

(** every node is on the lowest level *)
Lemma pred_0 s lt ge : sl_ok s (lt ++ ge) -> pred s 0 lt = pos lt.
Proof.
  intros Hok. rewrite <- (app_nil_r lt) at 1. apply pred_pos; [|constructor].
  destruct (pos_cases lt) as [[-> _]|(lt' & p & -> & Ep)]; [by left|right]. rewrite Ep.
  destruct (so_node s _ p Hok) as (_ & _ & Hh); [set_solver|]. lia.
Qed.

Lemma so_not_head s ls p : sl_ok s ls -> p ∈ ls -> p.1 <> head_.
Proof.
  intros Hok Hp E. pose proof (so_nodup _ _ Hok) as Hn. apply list.NoDup_cons in Hn as [Hn _].
  apply Hn. rewrite <- E. by apply list_elem_of_fmap_2.
Qed.

Lemma FindLessThan_loop_spec fuel s key lt ge pre mid level :
  sl_ok s (lt ++ ge) -> key_ok key -> cut key lt ge ->
  lt = pre ++ mid -> (level < height s (pos pre))%nat -> (length mid + level < fuel)%nat ->
  FindLessThan_loop compare_ fuel s key (pos pre) level = Done (pos lt).
Proof.
  intros Hok Hk Hcut. revert pre mid level.
  induction fuel as [|fuel IH]; intros pre mid level Elt Hl Hf; [lia|].
  destruct (look_right s key lt ge pre mid level Hok Hk Hcut Elt Hl) as [En Hc].
  assert (Hnode : forall p, p ∈ lt ++ ge ->
    (k ← node_key s p.1; r ← compare_ k key; Done (0 <=? r)) = Done (0 <=? cmp p.2 key) /\
    (k ← node_key s p.1; r ← compare_ k key; Done (r <? 0)) = Done (cmp p.2 key <? 0)).
  { intros p Hp. destruct (so_node s _ p Hok Hp) as (Ek & Hkp & _). rewrite Ek. cbn [mbind outcome_bind].
    by rewrite cmp_done. }
  cbn [FindLessThan_loop].
  assert (Eb : (if bool_decide (pos pre = head_) then Done true
    else k ← node_key s (pos pre); r ← compare_ k key; Done (r <? 0)) = Done true).
  { destruct (pos_cases pre) as [[_ ->]|(pre' & p & -> & ->)]; [by rewrite bool_decide_true|].
    assert (p ∈ lt) as Hp by set_solver. case_bool_decide; [done|].
    rewrite (proj2 (Hnode p ltac:(set_solver))). destruct Hcut as [Hlt _].
    rewrite list.Forall_forall in Hlt. by rewrite (proj2 (Z.ltb_lt _ _) (Hlt p Hp)). }
  rewrite Eb, En. cbn [mbind outcome_bind c_assert].
  destruct Hc as [(p & skip & rest & -> & -> & Hh & Hin & Hlt)|(-> & Hp & Hge)].
  - rewrite (proj1 (Hnode p Hin)). cbn [mbind outcome_bind default]. rewrite (proj2 (Z.leb_gt _ _)) by lia.
    rewrite length_app in Hf. simpl in Hf.
    rewrite <- (pos_snoc (pre ++ skip) p), <- app_assoc. apply (IH _ rest); [by rewrite Elt, <- !app_assoc| |lia].
    by rewrite app_assoc, pos_snoc.
  - assert (Es : (match first_tall s level ge with
      | None => Done true | Some y => k ← node_key s y; r ← compare_ k key; Done (0 <=? r) end) = Done true).
    { destruct (first_tall s level ge) as [x|] eqn:Ef; [|done].
      destruct (Hge x eq_refl) as (p & <- & Hin & Hc). rewrite (proj1 (Hnode p Hin)). by rewrite (proj2 (Z.leb_le _ _) Hc). }
    rewrite Es. cbn [mbind outcome_bind]. destruct level as [|level].
    + rewrite <- Hp. f_equal. by eapply pred_0.
    + apply (IH _ mid); [done|lia..].
Qed.

Lemma FindLessThan_spec s key lt ge :
  sl_ok s (lt ++ ge) -> key_ok key -> cut key lt ge -> FindLessThan compare_ s key = Done (pos lt).
Proof.
  intros Hok Hk Hcut. unfold FindLessThan. change head_ with (pos []).
  pose proof (so_max _ _ Hok). apply (FindLessThan_loop_spec _ _ _ lt ge [] lt); try done.
  - change (pos []) with head_. rewrite (head_height _ _ Hok). lia.
  - unfold search_fuel. rewrite (so_size _ _ Hok), length_app. lia.
Qed.

Lemma FindLast_spec s ls : sl_ok s ls -> FindLast s = Done (pos ls).
Proof.
  intros Hok. unfold FindLast.
  assert (Hgen : forall fuel pre mid level, ls = pre ++ mid -> (level < height s (pos pre))%nat ->
    (length mid + level < fuel)%nat -> FindLast_loop fuel s (pos pre) level = Done (pos ls)).
  { induction fuel as [|fuel IH]; intros pre mid level El Hl Hf; [lia|]. cbn [FindLast_loop].
    rewrite (Next_nxt _ _ _ _ (so_links _ _ Hok level pre mid El Hl)). cbn [mbind outcome_bind].
    destruct (first_tall s level mid) as [x|] eqn:Ef.
    - apply first_tall_Some in Ef as (skip & p & rest & -> & <- & Ht & _).
      rewrite length_app in Hf. simpl in Hf. rewrite <- (pos_snoc (pre ++ skip) p), <- app_assoc.
      apply (IH _ rest); [by rewrite El, <- !app_assoc| |lia]. by rewrite app_assoc, pos_snoc.
    - destruct level as [|level]; [|apply (IH _ mid); [done|lia..]].
      apply first_tall_None in Ef. destruct mid as [|p mid]; [by rewrite El, app_nil_r|]. apply Forall_inv in Ef.
      destruct (so_node s ls p Hok) as (_ & _ & Hh); [rewrite El; set_solver|]. unfold tall in Ef. lia. }
  change head_ with (pos []). pose proof (so_max _ _ Hok). apply (Hgen _ [] ls); [done| |].
  - change (pos []) with head_. rewrite (head_height _ _ Hok). lia.
  - unfold search_fuel. rewrite (so_size _ _ Hok). lia.
Qed.

(** *** Insertion *)

Lemma RandomHeight_bounds s : (1 <= (RandomHeight s).1 <= kMaxHeight)%nat.
Proof.
  assert (Hgen : forall rounds h seed, (h <= (RandomHeight_loop rounds h seed).1 <= h + rounds)%nat).
  { clear. induction rounds as [|r IH]; intros h seed; cbn [RandomHeight_loop fst]; [lia|].
    case_match; cbn [fst]; [|lia]. specialize (IH (S h) (Random_Next seed)). lia. }
  apply (Hgen (kMaxHeight - 1)%nat 1%nat).
Qed.

Lemma nxt_height s x i : (i < height s x)%nat -> exists p, nxt s x i = Some p.
Proof.
  unfold height, shape, nxt. destruct (nodes s !! x) as [nd|]; simpl; [|lia]. intros Hi.
  by apply lookup_lt_is_Some_2.
Qed.

Lemma link_loop_spec n i h prev z pr s :
  (forall j, (j < h)%nat -> prev !! j = Some (Some (pr j))) -> (i + n = h)%nat -> (h <= height s z)%nat ->
  (forall j, (j < h)%nat -> pr j <> z /\ (j < height s (pr j))%nat) ->
  exists s', link_loop n i prev z s = Done s' /\ same_shape s s' /\
    forall y j, nxt s' y j = if decide (i <= j < h)%nat then
        if decide (y = z) then nxt s (pr j) j else if decide (y = pr j) then Some (Some z) else nxt s y j
      else nxt s y j.
Proof.
  intros Hprev. revert i s; induction n as [|n IH]; intros i s Hi Hz Hpr.
  - exists s. split; [done|]. split; [done|]. intros y j. by rewrite decide_False by lia.
  - cbn [link_loop]. destruct (Hpr i ltac:(lia)) as [Hne Hh]. rewrite (Hprev i) by lia. cbn [mbind outcome_bind].
    destruct (nxt_height s (pr i) i Hh) as [nx Enx]. rewrite (Next_nxt _ _ _ _ Enx). cbn [mbind outcome_bind].
    destruct (SetNext_spec s z i nx) as (s1 & E1 & Sh1 & N1); [lia|].
    destruct (SetNext_spec s1 (pr i) i (Some z)) as (s2 & E2 & Sh2 & N2); [by rewrite (same_height _ _ _ Sh1)|].
    pose proof (same_shape_trans _ _ _ Sh1 Sh2) as Sh.
    destruct (IH (S i) s2) as (s3 & E3 & Sh3 & N3).
    { lia. }
    { by rewrite (same_height _ _ _ Sh). }
    { intros j Hj. rewrite (same_height _ _ _ Sh). by apply Hpr. }
    exists s3. rewrite E1. cbn [mbind outcome_bind]. rewrite E2. cbn [mbind outcome_bind]. split; [done|].
    split; [by eapply same_shape_trans|].
    assert (N12 : forall y j, j <> i -> nxt s2 y j = nxt s y j).
    { intros y j Hj. rewrite N2, decide_False, N1, decide_False by tauto. done. }
    intros y j. rewrite N3. destruct (decide (j = i)) as [->|Hji].
    + rewrite decide_False, (decide_True (P := (i <= i < h)%nat)), N2, N1 by lia.
      destruct (decide (y = z)) as [->|Hyz].
      * rewrite decide_False by naive_solver. by rewrite decide_True.
      * destruct (decide (y = pr i)) as [->|Hyp]; [by rewrite decide_True|].
        by rewrite !decide_False by tauto.
    + rewrite !N12 by done. destruct (decide (S i <= j < h)%nat), (decide (i <= j < h)%nat); done || lia.
Qed.

Lemma pred_cases s i lt : pred s i lt = head_ \/ exists p, p ∈ lt /\ pred s i lt = p.1 /\ tall s i p.
Proof.
  unfold pred. destruct (pos_cases (filter (tall s i) lt)) as [[_ ->]|(l & p & E & ->)]; [by left|].
  right. exists p. assert (p ∈ filter (tall s i) lt) as Hp by (rewrite E; set_solver).
  apply list_elem_of_filter in Hp. tauto.
Qed.

Lemma pred_high s i lt :
  Forall (fun p => (height s p.1 <= i)%nat) lt -> pred s i lt = head_.
Proof.
  intros Hl. destruct (pred_cases s i lt) as [?|(p & Hp & _ & Ht)]; [done|].
  rewrite list.Forall_forall in Hl. specialize (Hl p Hp). unfold tall in Ht. lia.
Qed.

Lemma height_max s ls p : sl_ok s ls -> p ∈ ls -> (height s p.1 <= max_height_ s)%nat.
Proof. intros Hok Hp. destruct (so_node s ls p Hok Hp) as (_ & _ & Hh). lia. Qed.

(** a node that is in the list is in the heap *)
Lemma used_ne s ls x : sl_ok s ls -> x ∈ head_ :: map fst ls -> x <> free s.
Proof.
  intros Hok Hx ->. assert (shape s (free s) = None) as Hn by (unfold shape; by rewrite (so_used _ _ Hok)).
  apply elem_of_cons in Hx as [Hx|Hx].
  - rewrite Hx in Hn. by rewrite (so_head _ _ Hok) in Hn.
  - apply list_elem_of_fmap in Hx as (p & Hx & Hp). pose proof (so_nodes _ _ Hok) as Hns.
    rewrite list.Forall_forall in Hns. destruct (Hns p Hp) as (h & E & _). by rewrite Hx, E in Hn.
Qed.

(** the heap once the new node is allocated *)
Lemma NewNode_spec s ls key h seed :
  sl_ok s ls ->
  let s2 := (NewNode (Build_SkipList (nodes s) (free s) (Nat.max (max_height_ s) h) seed) key h).1 in
  shape s2 (free s) = Some (Some key, h) /\ (forall x, x <> free s -> shape s2 x = shape s x) /\
  (forall x i, x <> free s -> nxt s2 x i = nxt s x i) /\ size (nodes s2) = S (size (nodes s)) /\
  (forall x, (S (free s) <= x)%nat -> nodes s2 !! x = None).
Proof.
  intros Hok s2. unfold shape, nxt. simpl. rewrite lookup_insert_eq. simpl. rewrite length_replicate.
  split; [done|]. split; [intros x Hx; by rewrite lookup_insert_ne|]. split; [intros x i Hx; by rewrite lookup_insert_ne|].
  split.
  - rewrite map_size_insert_None; [done|]. by apply (so_used _ _ Hok).
  - intros x Hx. rewrite lookup_insert_ne by lia. apply (so_used _ _ Hok). lia.
Qed.

Lemma pos_app l1 l2 : l2 <> [] -> pos (l1 ++ l2) = pos l2.
Proof.
  intros Hl. unfold pos. rewrite last_app. destruct (list.last l2) eqn:E; [done|]. by apply last_None in E.
Qed.

Lemma pos_in ls : pos ls ∈ head_ :: map fst ls.
Proof.
  destruct (pos_cases ls) as [[_ ->]|(l & p & -> & ->)]; [by left|right].
  apply list_elem_of_fmap_2. set_solver.
Qed.

Lemma pred_in s i lt : pred s i lt ∈ head_ :: map fst lt.
Proof.
  destruct (pred_cases s i lt) as [->|(p & Hp & -> & _)]; [by left|right]. by apply list_elem_of_fmap_2.
Qed.

(** with a tall node in [mid], the last tall node is in [mid] *)
Lemma pred_in_mid s i pre mid x : first_tall s i mid = Some x -> pred s i (pre ++ mid) ∈ map fst mid.
Proof.
  intros E. apply first_tall_Some in E as (skip & p & rest & -> & _ & Ht & _).
  unfold pred. rewrite list.filter_app.
  assert (p ∈ filter (tall s i) (skip ++ p :: rest)) as Hp by (apply list_elem_of_filter; set_solver).
  rewrite pos_app by (intros E; rewrite E in Hp; set_solver).
  destruct (pos_cases (filter (tall s i) (skip ++ p :: rest))) as [[E _]|(l & q & E & ->)];
    [rewrite E in Hp; set_solver|].
  assert (q ∈ filter (tall s i) (skip ++ p :: rest)) as Hq by (rewrite E; set_solver).
  apply list_elem_of_filter in Hq as [_ Hq]. by apply list_elem_of_fmap_2.
Qed.

(** the addresses of two parts of the list differ *)
Lemma parts_ne (a b : list (nat * K)) x y :
  NoDup (head_ :: map fst (a ++ b)) -> x ∈ head_ :: map fst a -> y ∈ map fst b -> x <> y.
Proof.
  rewrite map_app, app_comm_cons. intros Hn Hx Hy ->. apply list.NoDup_app in Hn as (_ & Hn & _). by apply (Hn y).
Qed.

Lemma pred_split s i lt :
  exists pre mid, lt = pre ++ mid /\ pred s i lt = pos pre /\ Forall (fun q => ~ tall s i q) mid /\
    (pre = [] \/ (i < height s (pos pre))%nat).
Proof.
  induction lt as [|p lt (pre & mid & -> & Ep & Hm & Hpre)] using rev_ind.
  - exists [], []. split; [done|]. repeat split; try done; by left.
  - destruct (decide (tall s i p)) as [Ht|Ht].
    + exists ((pre ++ mid) ++ [p]), []. rewrite app_nil_r. split; [done|]. split; [|split; [by constructor|]].
      * rewrite <- (app_nil_r (_ ++ [p])) at 1. apply pred_pos; [right|by constructor]. by rewrite pos_snoc.
      * right. by rewrite pos_snoc.
    + assert (Forall (fun q => ~ tall s i q) (mid ++ [p])) as Hm' by (apply Forall_app; split; [done|by constructor]).
      exists pre, (mid ++ [p]). rewrite <- app_assoc. split; [done|]. split; [by apply pred_pos|done].
Qed.

(** the last tall node links to the first one after *)
Lemma nxt_pred s i lt ge :
  sl_ok s (lt ++ ge) -> (i < kMaxHeight)%nat -> nxt s (pred s i lt) i = Some (first_tall s i ge).
Proof.
  intros Hok Hi. destruct (pred_split s i lt) as (pre & mid & -> & -> & Hm & Hpre).
  rewrite (so_links _ _ Hok i pre (mid ++ ge)).
  - rewrite first_tall_app. destruct (first_tall s i mid) as [x|] eqn:E; [|done].
    apply first_tall_Some in E as (sk & p & rest & -> & _ & Ht & _). rewrite list.Forall_forall in Hm.
    exfalso. apply (Hm p); [set_solver|done].
  - by rewrite app_assoc.
  - destruct Hpre as [->|?]; [|done]. change (pos []) with head_. by rewrite (head_height _ _ Hok).
Qed.

(** the links of the list with one more node *)
Lemma links_insert s s' lt ge z key h :
  sl_ok s (lt ++ ge) -> z ∉ head_ :: map fst (lt ++ ge) -> (h <= kMaxHeight)%nat -> height s' z = h ->
  (forall x, x <> z -> height s' x = height s x) ->
  (forall y j, (j < height s' y)%nat -> nxt s' y j = if decide (j < h)%nat then
      if decide (y = z) then nxt s (pred s j lt) j
      else if decide (y = pred s j lt) then Some (Some z) else nxt s y j
    else nxt s y j) ->
  forall i pre post, lt ++ (z, key) :: ge = pre ++ post -> (i < height s' (pos pre))%nat ->
    nxt s' (pos pre) i = Some (first_tall s' i post).
Proof.
  intros Hok Hz Hh Hhz Hheight Hnxt i pre post E Hi. rewrite Hnxt by done.
  pose proof (so_nodup _ _ Hok) as Hnd.
  assert (Hin : forall l, (forall p, p ∈ l -> p ∈ lt ++ ge) -> pos l <> z).
  { intros l Hl E'. apply Hz. rewrite <- E'. pose proof (pos_in l) as Hp. apply elem_of_cons in Hp as [->|Hp]; [by left|].
    right. apply list_elem_of_fmap in Hp as (p & -> & Hp). by apply list_elem_of_fmap_2, Hl. }
  assert (Hft : forall l, (forall p, p ∈ l -> p ∈ lt ++ ge) -> first_tall s' i l = first_tall s i l).
  { intros l Hl. apply first_tall_ext. apply list.Forall_forall. intros p Hp. apply Hheight. intros Ez.
    apply Hz. rewrite <- Ez. right. by apply list_elem_of_fmap_2, Hl. }
  assert (Hzt : forall l, first_tall s' i ((z, key) :: l) = if decide (i < h)%nat then Some z else first_tall s' i l).
  { intros l. cbn [first_tall fst]. destruct (decide (tall s' i (z, key))) as [Ht|Ht], (decide (i < h)%nat);
      unfold tall in Ht; simpl in Ht; done || lia. }
  apply app_eq_inv in E as [(mid & Epre & Epost)|(mid & Epre & Epost)].
  - (* [pre] ends before the new node *)
    subst lt post. assert (Hpz : pos pre <> z) by (apply Hin; set_solver).
    rewrite Hheight in Hi by done. rewrite (decide_False (P := pos pre = z)) by done.
    assert (Hold : nxt s (pos pre) i = Some (first_tall s i (mid ++ ge))).
    { apply (so_links _ _ Hok); [by rewrite app_assoc|done]. }
    rewrite first_tall_app, Hzt, !Hft by set_solver. rewrite first_tall_app in Hold.
    destruct (first_tall s i mid) as [x|] eqn:Em.
    + rewrite (decide_False (P := pos pre = _)).
      * rewrite Hold. by destruct (decide (i < h)%nat).
      * apply (parts_ne pre mid); [|apply pos_in|by eapply pred_in_mid].
        rewrite map_app, app_comm_cons in Hnd. apply list.NoDup_app in Hnd as [Hnd _]. exact Hnd.
    + assert (pred s i (pre ++ mid) = pos pre) as Ep by (apply pred_pos; [by right|by apply first_tall_None]).
      rewrite Ep, (decide_True (P := pos pre = pos pre)) by done. by destruct (decide (i < h)%nat).
  - destruct mid as [|q mid].
    + (* [pre] is the part before the new node *)
      rewrite app_nil_r in Epre. cbn [app] in Epost. subst pre post.
      rewrite Hheight in Hi by (apply Hin; set_solver).
      rewrite (decide_False (P := pos lt = z)) by (apply Hin; set_solver). rewrite Hzt, Hft by set_solver.
      assert (pred s i lt = pos lt) as Ep.
      { rewrite <- (app_nil_r lt) at 1. apply pred_pos; [by right|constructor]. }
      rewrite Ep, (decide_True (P := pos lt = pos lt)) by done.
      destruct (decide (i < h)%nat); [done|]. by apply (so_links _ _ Hok).
    + cbn [app] in Epost. injection Epost as <- ->. subst pre.
      destruct (pos_cases mid) as [[-> _]|(l & p & -> & Ep)].
      * rewrite pos_snoc in *. cbn [fst app] in *. rewrite Hhz in Hi.
        rewrite !decide_True by done. rewrite Hft by set_solver. apply nxt_pred; [done|lia].
      * assert (Epos : pos (lt ++ (z, key) :: l ++ [p]) = pos (l ++ [p])).
        { rewrite pos_app by done. change ((z, key) :: l ++ [p]) with ([(z, key)] ++ (l ++ [p])).
          rewrite pos_app; [done|]. by intros [_ ?]%app_eq_nil. }
        rewrite Epos in *. assert (Hpz : pos (l ++ [p]) <> z) by (apply Hin; set_solver).
        rewrite Hheight in Hi by done. rewrite (decide_False (P := pos (l ++ [p]) = z)) by done.
        rewrite Hft by set_solver. rewrite (decide_False (P := pos (l ++ [p]) = pred s i lt)).
        -- assert (Hold : nxt s (pos (lt ++ l ++ [p])) i = Some (first_tall s i post)).
           { apply (so_links _ _ Hok); [by rewrite <- !app_assoc|]. rewrite pos_app; [done|by intros [_ ?]%app_eq_nil]. }
           rewrite pos_app in Hold by (by intros [_ ?]%app_eq_nil). rewrite Hold. by destruct (decide (i < h)%nat).
        -- intros E. apply (parts_ne lt ((l ++ [p]) ++ post) (pred s i lt) (pos (l ++ [p]))); [done|apply pred_in| |done].
           rewrite Ep, map_app. apply elem_of_app. left. apply list_elem_of_fmap_2. set_solver.
Qed.

Lemma Insert_spec s ls key :
  sl_ok s ls -> key_ok key -> (forall p, p ∈ ls -> cmp p.2 key <> 0) ->
  exists lt ge z s', ls = lt ++ ge /\ cut key lt ge /\ Insert compare_ key s = Done s' /\
    sl_ok s' (lt ++ (z, key) :: ge).
Proof.
  intros Hok Hk Hne. destruct (cut_exists s ls key Hok Hk) as (lt & ge & -> & Hcut).
  destruct (FindGreaterOrEqual_spec s key lt ge (replicate kMaxHeight None) Hok Hk Hcut) as (prev & Ef & Hlen & Hprev).
  rewrite length_replicate in *. pose proof (RandomHeight_bounds s) as Hh.
  destruct (RandomHeight s) as [h seed] eqn:Erand. simpl in Hh. set (z := free s).
  destruct (NewNode_spec s _ key h seed Hok) as (N1 & N2 & N3 & N4 & N5).
  set (s2 := (NewNode (Build_SkipList (nodes s) (free s) (Nat.max (max_height_ s) h) seed) key h).1) in *.
  fold z in N1, N2, N3, N5.
  assert (Hz : z ∉ head_ :: map fst (lt ++ ge)) by (intros Hz; by eapply used_ne).
  assert (Hpz : forall j, pred s j lt <> z).
  { intros j E. apply Hz. rewrite <- E, map_app, app_comm_cons. apply elem_of_app. left. apply pred_in. }
  assert (H2 : forall x, x <> z -> height s2 x = height s x) by (intros x Hx; unfold height; by rewrite N2).
  assert (H2z : height s2 z = h) by (unfold height; by rewrite N1).
  destruct (link_loop_spec h 0 h (fill_prev prev (max_height_ s) h) z (fun j => pred s j lt) s2) as (s' & El & Sh & Hn).
  { intros j Hj. unfold fill_prev. rewrite list_lookup_imap. rewrite Hprev by lia.
    destruct (decide (j <= max_height_ s - 1)%nat).
    - simpl. rewrite (proj2 (Nat.leb_gt _ _)) by (pose proof (so_max _ _ Hok); lia). done.
    - rewrite lookup_replicate_2 by lia. simpl.
      rewrite (proj2 (Nat.leb_le _ _)), (proj2 (Nat.ltb_lt _ _)) by lia. simpl. do 2 f_equal.
      symmetry. apply pred_high, list.Forall_forall. intros p Hp.
      pose proof (height_max s _ p Hok ltac:(set_solver)). lia. }
  { done. }
  { by rewrite H2z. }
  { intros j Hj. split; [apply Hpz|]. rewrite H2 by apply Hpz.
    destruct (pred_cases s j lt) as [->|(p & _ & -> & Ht)]; [rewrite (head_height _ _ Hok); lia|done]. }
  exists lt, ge, z, s'. split; [done|]. split; [done|]. split.
  - unfold Insert. rewrite Ef. cbn [mbind outcome_bind].
    assert (Efr : (match fst <$> head ge with
      | None => Done true
      | Some x => k ← node_key s x; e ← Equal compare_ key k; Done (negb e) end) = Done true).
    { destruct ge as [|p ge]; [done|]. cbn [head fmap option_fmap option_map].
      destruct (so_node s _ p Hok) as (En & Hkp & _); [set_solver|]. rewrite En. cbn [mbind outcome_bind].
      unfold Equal. rewrite cmp_done by done. cbn [mbind outcome_bind].
      rewrite (proj2 (Z.eqb_neq _ _)); [done|]. pose proof (cmp_antisym key p.2 Hk Hkp).
      specialize (Hne p ltac:(set_solver)). lia. }
    rewrite Efr. cbn [mbind outcome_bind c_assert]. rewrite Erand. exact El.
  - destruct Sh as (Sh1 & Sh2 & Sh3 & Sh4 & Sh5).
    assert (Hh' : forall x, height s' x = height s2 x) by (intros x; unfold height; by rewrite Sh1).
    assert (Hlz : forall p, p ∈ lt ++ ge -> p.1 <> z).
    { intros p Hp E. apply Hz. rewrite <- E. right. by apply list_elem_of_fmap_2. }
    pose proof (so_keys _ _ Hok) as Hkeys. pose proof (so_sorted _ _ Hok) as Hsort.
    pose proof (so_nodup _ _ Hok) as Hnd. pose proof (so_nodes _ _ Hok) as Hnodes.
    destruct Hcut as [Hlt Hge]. split.
    + apply Forall_app in Hkeys as [? ?]. apply Forall_app; split; [done|]. by constructor.
    + apply StronglySorted_app in Hsort as (H1 & Hs1 & Hs2). apply StronglySorted_app.
      rewrite list.Forall_forall in Hlt, Hge, Hkeys.
      assert (Hzge : forall q, q ∈ ge -> precedes (z, key) q).
      { intros q Hq. unfold precedes. simpl. pose proof (cmp_antisym q.2 key (Hkeys q ltac:(set_solver)) Hk).
        pose proof (Hge q Hq). pose proof (Hne q ltac:(set_solver)). lia. }
      split; [|split; [done|]].
      * intros x1 x2 Hx1 Hx2. apply elem_of_cons in Hx2 as [->|Hx2]; [by apply Hlt|by apply H1].
      * constructor; [done|]. by apply list.Forall_forall.
    + rewrite map_app, app_comm_cons in *. cbn [map fst]. rewrite <- Permutation_middle.
      by apply NoDup_cons_2.
    + rewrite Sh3. intros x Hx. pose proof (Sh1 x) as Ex. unfold shape in Ex. rewrite (N5 x Hx) in Ex.
      by destruct (nodes s' !! x).
    + rewrite Sh1, N2; [apply (so_head _ _ Hok)|]. intros E. apply Hz. rewrite <- E. by left.
    + rewrite Sh4. cbn [max_height_ NewNode fst s2]. rewrite list.Forall_forall in Hnodes.
      assert (Hold : forall p, p ∈ lt ++ ge -> exists h0, shape s' p.1 = Some (Some p.2, h0) /\
        (1 <= h0 <= Nat.max (max_height_ s) h)%nat).
      { intros p Hp. destruct (Hnodes p Hp) as (h0 & E & Hh0). exists h0. rewrite Sh1, N2 by (by apply Hlz). split; [done|lia]. }
      apply list.Forall_forall. intros p Hp. apply elem_of_app in Hp as [Hp|Hp]; [apply Hold; set_solver|].
      apply elem_of_cons in Hp as [->|Hp]; [|apply Hold; set_solver].
      exists h. simpl. rewrite Sh1. split; [exact N1|]. lia.
    + rewrite Sh4. cbn [max_height_ NewNode fst s2]. pose proof (so_max _ _ Hok). lia.
    + rewrite Sh2, N4, (so_size _ _ Hok), !length_app. simpl. lia.
    + eapply (links_insert s s' lt ge z key h); [done|done|lia|by rewrite Hh'|intros x Hx; by rewrite Hh', H2|].
      intros y j Hj. rewrite Hn. rewrite Hh' in Hj.
      destruct (decide (j < h)%nat) as [Hjh|Hjh].
      * rewrite decide_True by lia. destruct (decide (y = z)) as [->|Hy]; [by rewrite N3 by apply Hpz|].
        destruct (decide (y = pred s j lt)); [done|by rewrite N3].
      * rewrite decide_False by lia. apply N3. intros ->. lia.
Qed.

(** *** The other operations *)

Lemma make_SkipList_ok : sl_ok make_SkipList [].
Proof.
  split; try by constructor.
  - apply NoDup_singleton.
  - intros x Hx. simpl in *. rewrite lookup_singleton_ne; [done|]. unfold head_. lia.
  - unfold kMaxHeight. simpl. lia.
  - intros i pre post E Hi. symmetry in E. apply app_eq_nil in E as [-> ->].
    change (pos []) with head_ in *. change (height make_SkipList head_) with kMaxHeight in Hi.
    unfold nxt, make_SkipList. cbn [nodes]. rewrite lookup_singleton_eq. cbn [mbind option_bind next_].
    by rewrite lookup_replicate_2.
Qed.

Lemma head_link s ls pre post :
  sl_ok s ls -> ls = pre ++ post -> Next s (pos pre) 0 = Done (fst <$> head post).
Proof.
  intros Hok ->. rewrite <- (first_tall_0 s (pre ++ post)) by (done || set_solver).
  apply Next_nxt, (so_links _ _ Hok); [done|].
  destruct (pos_cases pre) as [[_ ->]|(l & p & -> & ->)]; [rewrite (head_height _ _ Hok); unfold kMaxHeight; lia|].
  destruct (so_node s _ p Hok) as (_ & _ & Hh); [set_solver|]. lia.
Qed.

Lemma SeekToFirst_spec s ls : sl_ok s ls -> SeekToFirst s = Done (fst <$> head ls).
Proof. intros Hok. by apply (head_link s ls []). Qed.

Lemma iter_Next_spec s pre p post :
  sl_ok s (pre ++ p :: post) -> iter_Next s (Some p.1) = Done (fst <$> head post).
Proof.
  intros Hok. cbn [iter_Next at_node mbind outcome_bind]. rewrite <- (pos_snoc pre p).
  apply (head_link s (pre ++ p :: post)); [done|]. by rewrite <- app_assoc.
Qed.

Lemma iter_key_spec s ls p : sl_ok s ls -> p ∈ ls -> iter_key s (Some p.1) = Done p.2.
Proof. intros Hok Hp. by destruct (so_node s ls p Hok Hp). Qed.

(** a position of the list cuts it at its own key *)
Lemma cut_at s pre p post : sl_ok s (pre ++ p :: post) -> cut p.2 pre (p :: post).
Proof.
  intros Hok. pose proof (so_sorted _ _ Hok) as Hs. pose proof (so_keys _ _ Hok) as Hk.
  apply StronglySorted_app in Hs as (H1 & _ & H2). rewrite list.Forall_forall in Hk.
  assert (Hp : key_ok p.2) by (apply Hk; set_solver). split; apply list.Forall_forall.
  - intros q Hq. apply H1; [done|by left].
  - intros q Hq. apply elem_of_cons in Hq as [->|Hq].
    + pose proof (cmp_antisym p.2 p.2 Hp Hp). lia.
    + apply Sorted.StronglySorted_inv in H2 as [_ H2]. rewrite list.Forall_forall in H2. specialize (H2 q Hq).
      pose proof (cmp_antisym p.2 q.2 Hp (Hk q ltac:(set_solver))). unfold precedes in H2. lia.
Qed.

Lemma pos_or_none s ls pre :
  sl_ok s ls -> (forall p, p ∈ pre -> p ∈ ls) ->
  (if bool_decide (pos pre = head_) then None else Some (pos pre)) = fst <$> list.last pre.
Proof.
  intros Hok Hsub. destruct (pos_cases pre) as [[-> _]|(l & q & -> & Eq)]; [done|].
  rewrite Eq, last_snoc. rewrite bool_decide_false; [done|]. apply (so_not_head s ls q Hok), Hsub. set_solver.
Qed.

Lemma iter_Prev_spec s pre p post :
  sl_ok s (pre ++ p :: post) -> iter_Prev compare_ s (Some p.1) = Done (fst <$> list.last pre).
Proof.
  intros Hok. cbn [iter_Prev at_node mbind outcome_bind].
  destruct (so_node s _ p Hok) as (En & Hk & _); [set_solver|]. rewrite En. cbn [mbind outcome_bind].
  rewrite (FindLessThan_spec s p.2 pre (p :: post) Hok Hk (cut_at _ _ _ _ Hok)). cbn [mbind outcome_bind].
  f_equal. apply (pos_or_none s _ _ Hok). set_solver.
Qed.

Lemma SeekToLast_spec s ls : sl_ok s ls -> SeekToLast s = Done (fst <$> list.last ls).
Proof.
  intros Hok. unfold SeekToLast. rewrite (FindLast_spec s ls Hok). cbn [mbind outcome_bind]. f_equal.
  by apply (pos_or_none s ls).
Qed.

Lemma Seek_spec s lt ge target :
  sl_ok s (lt ++ ge) -> key_ok target -> cut target lt ge -> Seek compare_ s target = Done (fst <$> head ge).
Proof.
  intros Hok Hk Hcut. unfold Seek.
  destruct (FindGreaterOrEqual_spec s target lt ge [] Hok Hk Hcut) as (prev & -> & _). done.
Qed.

Lemma Contains_spec s ls key :
  sl_ok s ls -> key_ok key ->
  exists b, Contains compare_ key s = Done b /\ (b = true <-> exists p, p ∈ ls /\ cmp key p.2 = 0).
Proof.
  intros Hok Hk. destruct (cut_exists s ls key Hok Hk) as (lt & ge & -> & [Hlt Hge]).
  unfold Contains. destruct (FindGreaterOrEqual_spec s key lt ge [] Hok Hk (conj Hlt Hge)) as (prev & -> & _).
  cbn [mbind outcome_bind]. rewrite list.Forall_forall in Hlt, Hge.
  assert (Hno : forall p, p ∈ lt -> cmp key p.2 <> 0).
  { intros p Hp. destruct (so_node s _ p Hok) as (_ & Hkp & _); [set_solver|].
    pose proof (cmp_antisym key p.2 Hk Hkp). specialize (Hlt p Hp). lia. }
  destruct ge as [|p ge]; cbn [head fmap option_fmap option_map].
  - exists false. split; [done|]. split; [done|]. rewrite app_nil_r. naive_solver.
  - destruct (so_node s _ p Hok) as (En & Hkp & _); [set_solver|]. rewrite En. cbn [mbind outcome_bind].
    unfold Equal. rewrite cmp_done by done. eexists. split; [done|]. rewrite Z.eqb_eq. split.
    + intros E. exists p. split; [set_solver|done].
    + intros (q & Hq & E). apply elem_of_app in Hq as [Hq|Hq]; [by destruct (Hno q Hq)|].
      apply elem_of_cons in Hq as [->|Hq]; [done|].
      pose proof (cut_at s lt p ge Hok) as [_ Hp]. pose proof (so_sorted _ _ Hok) as Hs.
      apply StronglySorted_app in Hs as (_ & _ & Hs). apply Sorted.StronglySorted_inv in Hs as [_ Hs].
      rewrite list.Forall_forall in Hs. specialize (Hs q Hq). unfold precedes in Hs.
      destruct (so_node s _ q Hok) as (_ & Hkq & _); [set_solver|].
      pose proof (cmp_antisym p.2 q.2 Hkp Hkq). pose proof (cmp_antisym key q.2 Hk Hkq).
      pose proof (cmp_antisym p.2 key Hkp Hk). pose proof (Hge p ltac:(set_solver)).
      destruct (Z.eq_dec (cmp p.2 key) 0) as [|Hn]; [lia|].
      (* key < p < q, so key < q *)
      pose proof (cmp_trans key p.2 q.2 Hk Hkp Hkq). lia.
Qed.

(** ** The reference: a sorted list of keys *)

Fixpoint insert_sorted key (ks : list K) : list K :=
  match ks with
  | [] => [key]
  | k :: ks' => if cmp k key <? 0 then k :: insert_sorted key ks' else key :: ks
  end.

Lemma insert_sorted_cut key lt ge z :
  cut key lt ge -> insert_sorted key (map snd (lt ++ ge)) = map snd (lt ++ (z, key) :: ge).
Proof.
  intros [Hlt Hge]. induction Hlt as [|p lt Hp _ IH]; cbn [app map insert_sorted].
  - destruct Hge as [|q ge Hq _]; [done|]. cbn [map insert_sorted]. by rewrite (proj2 (Z.ltb_ge _ _) Hq).
  - rewrite (proj2 (Z.ltb_lt _ _) Hp). by rewrite IH.
Qed.

Fixpoint inserts (keys : list K) s : outcome (SkipList K) :=
  match keys with [] => Done s | k :: keys' => s ← Insert compare_ k s; inserts keys' s end.

(** the keys an iterator meets, going forward and going back *)
Fixpoint walk (fuel : nat) s (it : option nat) : outcome (list K) :=
  match fuel, it with
  | _, None => Done []
  | O, Some _ => Hangs
  | S fuel', Some _ => k ← iter_key s it; it ← iter_Next s it; ks ← walk fuel' s it; Done (k :: ks)
  end.
Fixpoint walk_back (fuel : nat) s (it : option nat) : outcome (list K) :=
  match fuel, it with
  | _, None => Done []
  | O, Some _ => Hangs
  | S fuel', Some _ => k ← iter_key s it; it ← iter_Prev compare_ s it; ks ← walk_back fuel' s it; Done (k :: ks)
  end.

Lemma walk_spec s ls pre post fuel :
  sl_ok s ls -> ls = pre ++ post -> (length post <= fuel)%nat ->
  walk fuel s (fst <$> head post) = Done (map snd post).
Proof.
  intros Hok. revert pre fuel; induction post as [|p post IH]; intros pre fuel -> Hf; [by destruct fuel|].
  destruct fuel as [|fuel]; [simpl in Hf; lia|]. cbn [head fmap option_fmap option_map walk].
  rewrite (iter_key_spec s _ p Hok) by set_solver. cbn [mbind outcome_bind].
  rewrite (iter_Next_spec s pre p post Hok). cbn [mbind outcome_bind].
  rewrite (IH (pre ++ [p])); [done|by rewrite <- app_assoc|simpl in Hf; lia].
Qed.

Lemma walk_back_spec s ls pre post fuel :
  sl_ok s ls -> ls = pre ++ post -> (length pre <= fuel)%nat ->
  walk_back fuel s (fst <$> list.last pre) = Done (rev (map snd pre)).
Proof.
  intros Hok. revert post fuel; induction pre as [|p pre IH] using rev_ind; intros post fuel -> Hf; [by destruct fuel|].
  rewrite length_app in Hf. simpl in Hf. destruct fuel as [|fuel]; [lia|].
  rewrite last_snoc. cbn [fmap option_fmap option_map walk_back].
  rewrite (iter_key_spec s _ p Hok) by set_solver. cbn [mbind outcome_bind].
  rewrite (iter_Prev_spec s pre p post) by (by rewrite <- app_assoc in Hok). cbn [mbind outcome_bind].
  rewrite (IH (p :: post)); [|by rewrite <- app_assoc|lia]. cbn [mbind outcome_bind]. by rewrite map_app, rev_app_distr.
Qed.

Lemma inserts_spec s ls keys :
  sl_ok s ls -> Forall key_ok keys ->
  (forall i j a b, (i < j)%nat -> keys !! i = Some a -> keys !! j = Some b -> cmp a b <> 0) ->
  (forall p k, p ∈ ls -> k ∈ keys -> cmp p.2 k <> 0) ->
  exists s' ls', inserts keys s = Done s' /\ sl_ok s' ls' /\
    map snd ls' = foldl (fun l k => insert_sorted k l) (map snd ls) keys.
Proof.
  revert s ls; induction keys as [|k keys IH]; intros s ls Hok Hk Hpair Hls; [by exists s, ls|].
  apply list.Forall_cons in Hk as [Hk Hks].
  destruct (Insert_spec s ls k Hok Hk) as (lt & ge & z & s1 & -> & Hcut & E & Hok1).
  { intros p Hp. apply Hls; [done|by left]. }
  destruct (IH s1 (lt ++ (z, k) :: ge)) as (s' & ls' & E' & Hok' & Hm); [done|done| | |].
  - intros i j a b Hij Ha Hb. apply (Hpair (S i) (S j)); [lia|done|done].
  - intros p q Hp Hq. apply elem_of_app in Hp as [Hp|Hp]; [apply Hls; set_solver|].
    apply elem_of_cons in Hp as [->|Hp]; [|apply Hls; set_solver].
    apply list_elem_of_lookup in Hq as [j Hq]. apply (Hpair 0%nat (S j)); [lia|done|done].
  - exists s', ls'. split; [cbn [inserts]; by step E|]. split; [done|].
    cbn [foldl]. by rewrite (insert_sorted_cut k lt ge z).
Qed.

(** C17: keys that no two compare equal, inserted in any order into an empty skip
    list, are the sorted list: the insertions return, an iterator meets the keys
    in increasing order from the first and in decreasing order from the last,
    [Seek] stops at the first key not below its target, and [Contains] finds
    exactly the keys inserted. *)
Theorem skiplist_is_sorted_list (keys : list K) (target : K) :
  Forall key_ok keys -> key_ok target ->
  (forall i j a b, (i < j)%nat -> keys !! i = Some a -> keys !! j = Some b -> cmp a b <> 0) ->
  let sorted := foldl (fun l k => insert_sorted k l) [] keys in
  exists s, inserts keys make_SkipList = Done s /\
    (it ← SeekToFirst s; walk (length keys) s it) = Done sorted /\
    (it ← SeekToLast s; walk_back (length keys) s it) = Done (rev sorted) /\
    (it ← Seek compare_ s target; walk (length keys) s it) = Done (filter (fun k => 0 <= cmp k target) sorted) /\
    exists b, Contains compare_ target s = Done b /\ (b = true <-> exists k, k ∈ sorted /\ cmp target k = 0).
Proof.
  intros Hk Ht Hpair sorted.
  destruct (inserts_spec make_SkipList [] keys make_SkipList_ok Hk Hpair) as (s & ls & E & Hok & Hm); [set_solver|].
  change (map snd []) with (@nil K) in Hm. fold sorted in Hm.
  assert (Hlen : length ls = length keys).
  { rewrite <- (length_map snd ls), Hm. unfold sorted. clear.
    assert (Hi : forall k l, length (insert_sorted k l) = S (length l)).
    { intros k l. induction l as [|x l IH]; [done|]. cbn [insert_sorted]. case_match; simpl; [by rewrite IH|done]. }
    assert (Hg : forall l0, length (foldl (fun l k => insert_sorted k l) l0 keys) = (length l0 + length keys)%nat).
    { induction keys as [|k keys IH]; intros l0; simpl; [lia|]. rewrite IH, Hi. lia. }
    by rewrite Hg. }
  exists s. split; [done|]. rewrite <- Hm. split; [|split; [|split]].
  - rewrite (SeekToFirst_spec s ls Hok). cbn [mbind outcome_bind]. apply (walk_spec s ls [] ls); [done|done|lia].
  - rewrite (SeekToLast_spec s ls Hok). cbn [mbind outcome_bind].
    apply (walk_back_spec s ls ls []); [done|by rewrite app_nil_r|lia].
  - destruct (cut_exists s ls target Hok Ht) as (lt & ge & -> & Hcut). pose proof Hcut as [Hlt Hge].
    rewrite (Seek_spec s lt ge target Hok Ht Hcut). cbn [mbind outcome_bind].
    rewrite length_app in Hlen. rewrite (walk_spec s (lt ++ ge) lt ge) by (done || lia). f_equal.
    rewrite map_app, list.filter_app.
    assert (filter (fun k => 0 <= cmp k target) (map snd lt) = []) as ->.
    { clear -Hlt. induction Hlt as [|p l Hp _ IH]; [done|]. cbn [map]. rewrite list.filter_cons_False by lia. done. }
    clear -Hge. induction Hge as [|p l Hp _ IH]; [done|]. cbn [map app]. rewrite list.filter_cons_True by lia. by rewrite IH at 1.
  - destruct (Contains_spec s ls target Hok Ht) as (b & Eb & Hb). exists b. split; [done|]. rewrite Hb. split.
    + intros (p & Hp & Ec). exists p.2. split; [by apply list_elem_of_fmap_2|done].
    + intros (k & Hkin & Ec). apply list_elem_of_fmap in Hkin as (p & -> & Hp). by exists p.
Qed.
End spec.

(** integers, compared by their difference *)
#[export] Instance Z_order : KeyOrder (fun a b : Z => Done (a - b)).
Proof.
  refine {| key_ok := fun _ => True; cmp := fun a b => a - b |}; intros; [done|lia|lia].
Defined.

Lemma skiplist_is_sorted_list_witness :
  exists s, inserts (fun a b : Z => Done (a - b)) [30; 10; 20] make_SkipList = Done s /\
    (it ← SeekToFirst s; walk 3 s it) = Done [10; 20; 30] /\
    (it ← SeekToLast s; walk_back (fun a b : Z => Done (a - b)) 3 s it) = Done [30; 20; 10] /\
    (it ← Seek (fun a b : Z => Done (a - b)) s 15; walk 3 s it) = Done [20; 30] /\
    exists b, Contains (fun a b : Z => Done (a - b)) 15 s = Done b /\
      (b = true <-> exists k, k ∈ [10; 20; 30] /\ 15 - k = 0).
Proof.
  refine (skiplist_is_sorted_list (fun a b : Z => Done (a - b)) [30; 10; 20] 15 _ _ _).
  - repeat constructor.
  - constructor.
  - intros [|[|[|]]] [|[|[|]]] a b Hij Ha Hb; simplify_eq/=; lia.
Defined.
