(* ===== verification/MemTable.v ===== *)
(** * MemTable: leveldb's db/memtable.h and memtable.cc, and the inserter of
    db/write_batch.cc

    A memtable is a skip list of entries, each one string: the length of the
    internal key, the internal key, the length of the value, the value.  The
    arena that holds them is not modelled: every entry has memory of its own. *)

From Stdlib.Strings Require Import Byte.
From S2P Require Import Prelude DBType Status Coding DbFormat WriteBatch SkipList SkipListSpec.

(** [GetLengthPrefixedSlice] of a pointer: the string is assumed well formed;
    five bytes are enough for the length *)
Definition prefixed_slice (data : bytes) : outcome bytes :=
  match GetVarint32Ptr data with
  | Some (len, p) => if len <=? blen p then Done (take (Z.to_nat len) p) else Undefined
  | None => Undefined
  end.

(** [KeyComparator] *)
Definition KeyComparator (aptr bptr : bytes) : outcome Z :=
  a ← prefixed_slice aptr; b ← prefixed_slice bptr; Internal.Compare a b.

Abbreviation MemTable := (SkipList bytes).
Definition make_MemTable : MemTable := make_SkipList.

Definition EncodeKey (target : bytes) : bytes := PutVarint32 [] (u32 (blen target)) ++ target.

(** the string [Add] builds *)
Definition entry_string (s : Z) (type : ValueType) (key value : bytes) : bytes :=
  EncodeVarint32 (u32 (blen key + 8)) ++ key ++ EncodeFixed64 (Z.lor (u64 (Z.shiftl s 8)) (type_code type)) ++
  EncodeVarint32 (u32 (blen value)) ++ value.

Definition Add (s : Z) (type : ValueType) (key value : bytes) (m : MemTable) : outcome MemTable :=
  let internal_key_size := blen key + 8 in
  let encoded_len := VarintLength internal_key_size + internal_key_size + VarintLength (blen value) + blen value in
  let buf := entry_string s type key value in
  _ ← c_assert (blen buf =? encoded_len);
  Insert KeyComparator buf m.

(** what [Get] finds: a value, a deletion ([NotFound]), or nothing *)
Inductive found := Found (value : bytes) | NotFound | Absent.

Definition Get (key : LookupKey) (m : MemTable) : outcome found :=
  it ← Seek KeyComparator m (memtable_key key);
  if Valid it then
    entry ← iter_key m it;
    match GetVarint32Ptr entry with
    | None => Undefined
    | Some (key_length, key_ptr) =>
        let n := Z.to_nat key_length in
        if Compare (take (n - 8) key_ptr) (lookup_user_key key) =? 0 then
          tag ← DecodeFixed64 (drop (n - 8) key_ptr);
          let t := Z.land tag 255 in
          if t =? type_code kTypeValue then v ← prefixed_slice (drop n key_ptr); Done (Found v)
          else if t =? type_code kTypeDeletion then Done NotFound
          else Done Absent
        else Done Absent
    end
  else Done Absent.

(** *** The iterator *)

Definition mem_Seek (m : MemTable) (k : bytes) : outcome (option nat) := Seek KeyComparator m (EncodeKey k).
Definition mem_key (m : MemTable) (it : option nat) : outcome bytes := e ← iter_key m it; prefixed_slice e.
Definition mem_value (m : MemTable) (it : option nat) : outcome bytes :=
  e ← iter_key m it;
  k ← prefixed_slice e;
  match GetVarint32Ptr e with
  | Some (_, p) => prefixed_slice (drop (length k) p)
  | None => Undefined
  end.

(** *** [MemTableInserter] and [InsertInto]: the number of the next record, the
    memtable *)

Definition inserter_Put (key value : bytes) (st : Z * MemTable) : outcome (Z * MemTable) :=
  m ← Add st.1 kTypeValue key value st.2; Done (u64 (st.1 + 1), m).
Definition inserter_Delete (key : bytes) (st : Z * MemTable) : outcome (Z * MemTable) :=
  m ← Add st.1 kTypeDeletion key [] st.2; Done (u64 (st.1 + 1), m).

Definition InsertInto (rep_ : bytes) (m : MemTable) : outcome (MemTable * Status) :=
  seq ← Sequence rep_;
  '(st, s) ← Iterate inserter_Put inserter_Delete rep_ (seq, m);
  Done (st.2, s).

(** ** Entries *)

(** an entry added: its number, what it says of its key *)
Record add := { a_seq : Z; a_type : ValueType; a_key : bytes; a_value : bytes }.

Definition add_ok (a : add) : Prop :=
  0 <= a_seq a < 2 ^ 56 /\ blen (a_key a) + 8 < 2 ^ 32 /\ blen (a_value a) < 2 ^ 32.
Definition entry_of (a : add) : bytes := entry_string (a_seq a) (a_type a) (a_key a) (a_value a).

Definition prefixed (u : bytes) (tag : Z) (rest : bytes) : bytes :=
  EncodeVarint32 (blen u + 8) ++ ikey u tag ++ rest.

Lemma entry_of_prefixed a :
  add_ok a -> entry_of a = prefixed (a_key a) (tag_of (a_seq a) (a_type a))
    (EncodeVarint32 (blen (a_value a)) ++ a_value a).
Proof.
  intros (Hs & Hk & Hv). unfold entry_of, entry_string, prefixed, ikey.
  pose proof (blen_nonneg (a_key a)). pose proof (blen_nonneg (a_value a)). rewrite !u32_small by lia.
  rewrite <- !app_assoc. do 3 f_equal. pose proof (type_code_range (a_type a)).
  rewrite Z.shiftl_mul_pow2, u64_small by lia. rewrite Z.lor_comm, <- Z.shiftl_mul_pow2 by lia.
  rewrite lor_shiftl_add by lia. unfold tag_of. f_equal. lia.
Qed.

Lemma GetVarint_prefixed u tag rest :
  blen u + 8 < 2 ^ 32 -> GetVarint32Ptr (prefixed u tag rest) = Some (blen u + 8, ikey u tag ++ rest).
Proof. intros Hu. pose proof (blen_nonneg u). apply (Varint32_roundtrip (blen u + 8)). lia. Qed.

Lemma prefixed_slice_spec u tag rest :
  blen u + 8 < 2 ^ 32 -> prefixed_slice (prefixed u tag rest) = Done (ikey u tag).
Proof.
  intros Hu. unfold prefixed_slice. rewrite GetVarint_prefixed by done.
  rewrite <- (blen_ikey u tag) at 1. rewrite (proj2 (Z.leb_le _ _)) by (rewrite blen_app; pose proof (blen_nonneg rest); lia).
  by rewrite <- (blen_ikey u tag), blen_to_nat, take_app_exact.
Qed.

(** ** The order of the entries *)

Definition entry_ok (e : bytes) : Prop :=
  exists u tag rest, e = prefixed u tag rest /\ blen u + 8 < 2 ^ 32 /\ 0 <= tag < 2 ^ 64.
Definition entry_cmp (a b : bytes) : Z := match KeyComparator a b with Done r => r | _ => 0 end.

Lemma KeyComparator_spec u1 t1 r1 u2 t2 r2 :
  blen u1 + 8 < 2 ^ 32 -> 0 <= t1 < 2 ^ 64 -> blen u2 + 8 < 2 ^ 32 -> 0 <= t2 < 2 ^ 64 ->
  KeyComparator (prefixed u1 t1 r1) (prefixed u2 t2 r2) = Done (icompare u1 t1 u2 t2).
Proof.
  intros H1 H2 H3 H4. unfold KeyComparator. rewrite !prefixed_slice_spec by done. cbn [mbind outcome_bind].
  by apply Internal_Compare_spec.
Qed.

Lemma entry_cmp_spec u1 t1 r1 u2 t2 r2 :
  blen u1 + 8 < 2 ^ 32 -> 0 <= t1 < 2 ^ 64 -> blen u2 + 8 < 2 ^ 32 -> 0 <= t2 < 2 ^ 64 ->
  entry_cmp (prefixed u1 t1 r1) (prefixed u2 t2 r2) = icompare u1 t1 u2 t2.
Proof. intros. unfold entry_cmp. by rewrite KeyComparator_spec. Qed.

#[export] Instance entry_order : KeyOrder KeyComparator.
Proof.
  refine {| key_ok := entry_ok; cmp := entry_cmp |}.
  - intros a b (u1 & t1 & r1 & -> & ? & ?) (u2 & t2 & r2 & -> & ? & ?).
    by rewrite KeyComparator_spec, entry_cmp_spec.
  - intros a b (u1 & t1 & r1 & -> & ? & ?) (u2 & t2 & r2 & -> & ? & ?).
    rewrite !entry_cmp_spec by done. apply icompare_antisym.
  - intros a b c (u1 & t1 & r1 & -> & ? & ?) (u2 & t2 & r2 & -> & ? & ?) (u3 & t3 & r3 & -> & ? & ?).
    rewrite !entry_cmp_spec by done. apply icompare_trans.
Defined.

Lemma entry_of_ok a : add_ok a -> entry_ok (entry_of a).
Proof.
  intros Ha. rewrite entry_of_prefixed by done. destruct Ha as (Hs & Hk & Hv).
  eexists _, _, _. split; [done|]. split; [done|]. by apply tag_of_range.
Qed.

Lemma entry_cmp_adds a b :
  add_ok a -> add_ok b ->
  entry_cmp (entry_of a) (entry_of b) =
    icompare (a_key a) (tag_of (a_seq a) (a_type a)) (a_key b) (tag_of (a_seq b) (a_type b)).
Proof.
  intros Ha Hb. rewrite !entry_of_prefixed by done. destruct Ha as (? & ? & ?), Hb as (? & ? & ?).
  apply entry_cmp_spec; try done; by apply tag_of_range.
Qed.

(** ** The memtable and the list of what was added *)

(** [mem_ok m adds]: the skip list holds the entries of [adds], whose numbers
    increase *)
Record mem_ok (m : MemTable) (adds : list add) : Prop := {
  mo_adds : Forall add_ok adds;
  mo_seqs : forall i j a b, (i < j)%nat -> adds !! i = Some a -> adds !! j = Some b -> a_seq a < a_seq b;
  mo_list : exists ls, sl_ok KeyComparator m ls /\ forall e, e ∈ map snd ls <-> exists a, a ∈ adds /\ e = entry_of a }.

Lemma make_MemTable_ok : mem_ok make_MemTable [].
Proof.
  split; [constructor|done|]. exists []. split; [apply make_SkipList_ok|]. set_solver.
Qed.

Lemma tag_seq s1 t1 s2 t2 : tag_of s1 t1 = tag_of s2 t2 -> s1 = s2.
Proof. unfold tag_of. pose proof (type_code_range t1). pose proof (type_code_range t2). lia. Qed.

Lemma Add_spec m adds a :
  mem_ok m adds -> add_ok a -> (forall b, b ∈ adds -> a_seq b < a_seq a) ->
  exists m', Add (a_seq a) (a_type a) (a_key a) (a_value a) m = Done m' /\ mem_ok m' (adds ++ [a]).
Proof.
  intros [Hadds Hseqs (ls & Hok & Hls)] Ha Hnew.
  destruct (Insert_spec KeyComparator m ls (entry_of a) Hok) as (lt & ge & z & m' & -> & _ & E & Hok').
  { by apply entry_of_ok. }
  { intros p Hp Hc. change (entry_cmp p.2 (entry_of a) = 0) in Hc.
    destruct (proj1 (Hls p.2)) as (b & Hb & Ep); [by apply list_elem_of_fmap_2|]. rewrite Ep in Hc.
    rewrite list.Forall_forall in Hadds. rewrite entry_cmp_adds in Hc by (done || by apply Hadds).
    apply icompare_eq in Hc as [_ Ht]. apply tag_seq in Ht. specialize (Hnew b Hb). lia. }
  exists m'. split.
  - unfold Add. fold (entry_of a).
    assert (Hlen : blen (entry_of a) = VarintLength (blen (a_key a) + 8) + (blen (a_key a) + 8) +
      VarintLength (blen (a_value a)) + blen (a_value a)).
    { rewrite entry_of_prefixed by done. destruct Ha as (_ & Hk & Hv). unfold prefixed.
      pose proof (blen_nonneg (a_key a)). pose proof (blen_nonneg (a_value a)).
      rewrite !blen_app, blen_ikey.
      rewrite (proj2 (VarintLength_spec (blen (a_key a) + 8) ltac:(lia))) by lia.
      rewrite (proj2 (VarintLength_spec (blen (a_value a)) ltac:(lia))) by lia. lia. }
    cbv zeta. rewrite Hlen, Z.eqb_refl. exact E.
  - split.
    + apply Forall_app. by split; [|apply Forall_singleton].
    + intros i j b c Hij Hb Hc. apply lookup_snoc_Some in Hc as [[Hj Hc]|[-> <-]].
      * rewrite lookup_app_l in Hb by lia. exact (Hseqs i j b c Hij Hb Hc).
      * rewrite lookup_app_l in Hb by lia. apply Hnew. by eapply list_elem_of_lookup_2.
    + exists (lt ++ (z, entry_of a) :: ge). split; [done|]. intros e.
      rewrite map_app. cbn [map]. rewrite elem_of_app, elem_of_cons. simpl.
      specialize (Hls e). rewrite map_app, elem_of_app in Hls. set_solver.
Qed.

(** *** Lookup *)

(** the newest entry of a key at or before a number *)
Definition newest (adds : list add) (key : bytes) (s : Z) : option add :=
  list.last (filter (fun a => a_key a = key /\ a_seq a <= s) adds).

Definition found_of (o : option add) : found :=
  match o with
  | None => Absent
  | Some a => match a_type a with kTypeValue => Found (a_value a) | kTypeDeletion => NotFound end
  end.

Lemma newest_unique adds key s a :
  (forall i j a b, (i < j)%nat -> adds !! i = Some a -> adds !! j = Some b -> a_seq a < a_seq b) ->
  a ∈ adds -> a_key a = key -> a_seq a <= s ->
  (forall b, b ∈ adds -> a_key b = key -> a_seq b <= s -> a_seq b <= a_seq a) -> newest adds key s = Some a.
Proof.
  intros Hseq Ha Hk Hs Hmax. unfold newest.
  apply list_elem_of_lookup in Ha as [i Hi].
  rewrite <- (take_drop_middle adds i a Hi) at 1. rewrite list.filter_app, list.filter_cons_True by done.
  assert (filter (fun a => a_key a = key /\ a_seq a <= s) (drop (S i) adds) = []) as ->.
  { destruct (filter _ (drop (S i) adds)) as [|b l] eqn:E; [done|exfalso].
    assert (b ∈ filter (fun a => a_key a = key /\ a_seq a <= s) (drop (S i) adds)) as Hb by (rewrite E; by left).
    apply list_elem_of_filter in Hb as [[Hkb Hsb] Hb]. apply list_elem_of_lookup in Hb as [j Hj].
    rewrite lookup_drop in Hj. pose proof (Hseq i (S i + j)%nat a b ltac:(lia) Hi Hj).
    pose proof (Hmax b ltac:(by eapply list_elem_of_lookup_2) Hkb Hsb). lia. }
  by rewrite last_snoc.
Qed.

Lemma newest_none adds key s :
  (forall b, b ∈ adds -> a_key b = key -> s < a_seq b) -> newest adds key s = None.
Proof.
  intros Hno. unfold newest. destruct (filter _ adds) as [|b l] eqn:E; [done|exfalso].
  assert (b ∈ filter (fun a => a_key a = key /\ a_seq a <= s) adds) as Hb by (rewrite E; by left).
  apply list_elem_of_filter in Hb as [[Hkb Hsb] Hb]. specialize (Hno b Hb Hkb). lia.
Qed.

(** numbers compare as the tags of a lookup *)
Lemma tag_le s t s' : tag_of s t <= tag_of s' kTypeValue <-> s <= s'.
Proof. unfold tag_of. pose proof (type_code_range t). simpl. lia. Qed.

Lemma Get_entry a s :
  add_ok a ->
  (let e := entry_of a in
   match GetVarint32Ptr e with
    | None => Undefined
    | Some (key_length, key_ptr) =>
        let n := Z.to_nat key_length in
        if Compare (take (n - 8) key_ptr) s =? 0 then
          tag ← DecodeFixed64 (drop (n - 8) key_ptr);
          let t := Z.land tag 255 in
          if t =? type_code kTypeValue then v ← prefixed_slice (drop n key_ptr); Done (Found v)
          else if t =? type_code kTypeDeletion then Done NotFound
          else Done Absent
        else Done Absent
    end) = Done (if bool_decide (a_key a = s) then found_of (Some a) else Absent).
Proof.
  intros Ha. cbv zeta. rewrite entry_of_prefixed by done. pose proof Ha as (Hs & Hk & Hv).
  rewrite GetVarint_prefixed by done. pose proof (blen_nonneg (a_key a)). pose proof (blen_nonneg (a_value a)).
  replace (Z.to_nat (blen (a_key a) + 8) - 8)%nat with (length (a_key a)) by (unfold blen; lia).
  unfold ikey. rewrite <- !app_assoc, take_app_exact, drop_app_exact.
  destruct (Z.eqb_spec (Compare (a_key a) s) 0) as [Ec|Ec].
  - apply Compare_total in Ec as <-. rewrite bool_decide_true by done.
    rewrite Fixed64_roundtrip by (by apply tag_of_range). cbn [mbind outcome_bind].
    change 255 with (Z.ones 8). rewrite Z.land_ones by lia. unfold tag_of. change (2 ^ 8) with 256.
    pose proof (type_code_range (a_type a)).
    replace ((a_seq a * 256 + type_code (a_type a)) mod 256) with (type_code (a_type a))
      by (rewrite Z.add_comm, Z.mod_add, Z.mod_small by lia; done).
    unfold found_of. destruct (a_type a); [done|].
    change (type_code kTypeValue =? type_code kTypeValue) with true. cbv iota.
    replace (Z.to_nat (blen (a_key a) + 8)) with (length (a_key a ++ EncodeFixed64 (a_seq a * 256 + type_code kTypeValue)))
      by (rewrite length_app; unfold blen; simpl; lia).
    rewrite (app_assoc (a_key a)), drop_app_exact. unfold prefixed_slice.
    change (GetVarint32Ptr (EncodeVarint32 (blen (a_value a)) ++ a_value a)) with
      (GetVarint32 (EncodeVarint32 (blen (a_value a)) ++ a_value a)).
    rewrite Varint32_roundtrip by lia. rewrite Z.leb_refl, blen_to_nat, take_ge by done. done.
  - rewrite bool_decide_false; [done|]. intros E. by apply Ec, Compare_total.
Qed.

(** [Get] finds the newest entry of its key at or before its number. *)
Lemma Get_spec m adds key s k :
  mem_ok m adds -> 0 <= s < 2 ^ 56 -> blen key + 8 < 2 ^ 32 -> make_LookupKey key s = Done k ->
  Get k m = Done (found_of (newest adds key s)).
Proof.
  intros [Hadds Hseqs (ls & Hok & Hls)] Hs Hk Ek.
  destruct (make_LookupKey_spec key s Hs Hk) as (k' & Ek' & Em & _ & Eu & _).
  rewrite Ek in Ek'. injection Ek' as <-.
  set (target := prefixed key (tag_of s kTypeValue) []).
  assert (Et : memtable_key k = target) by (rewrite Em; unfold target, prefixed; by rewrite app_nil_r).
  assert (Htr : 0 <= tag_of s kTypeValue < 2 ^ 64) by (by apply tag_of_range).
  assert (Hto : key_ok (KeyOrder := entry_order) target) by (eexists _, _, _; done).
  assert (Hcmp : forall a, a ∈ adds -> entry_cmp (entry_of a) target =
    icompare (a_key a) (tag_of (a_seq a) (a_type a)) key (tag_of s kTypeValue)).
  { intros a Ha. rewrite list.Forall_forall in Hadds. pose proof (Hadds a Ha) as Hoka.
    rewrite entry_of_prefixed by done. destruct Hoka as (? & ? & ?). apply entry_cmp_spec; try done. by apply tag_of_range. }
  destruct (cut_exists KeyComparator m ls target Hok Hto) as (lt & ge & -> & Hcut).
  pose proof Hcut as [Hlt Hge]. rewrite list.Forall_forall in Hlt, Hge.
  (* an entry of the key at or before [s] is not below the target *)
  assert (Hin_ge : forall b, b ∈ adds -> a_key b = key -> a_seq b <= s ->
    exists p, p ∈ ge /\ p.2 = entry_of b).
  { intros b Hb Hkb Hsb.
    assert (entry_of b ∈ map snd (lt ++ ge)) as Hin by (apply Hls; by exists b).
    apply list_elem_of_fmap in Hin as (p & Ep & Hp). exists p. split; [|done].
    apply elem_of_app in Hp as [Hp|]; [exfalso|done]. specialize (Hlt p Hp). change (entry_cmp p.2 target < 0) in Hlt.
    rewrite <- Ep, Hcmp in Hlt by done. unfold icompare in Hlt. rewrite Hkb, lex_refl in Hlt. simpl in Hlt.
    apply (tag_le _ (a_type b)) in Hsb. zcases; lia. }
  unfold Get. rewrite Et, (Seek_spec KeyComparator m lt ge target Hok Hto Hcut). cbn [mbind outcome_bind].
  destruct ge as [|p ge]; cbn [head fmap option_fmap option_map].
  { rewrite newest_none; [done|]. intros b Hb Hkb. destruct (Z.lt_ge_cases s (a_seq b)); [done|].
    destruct (Hin_ge b Hb Hkb) as (p & Hp & _); [lia|]. by apply not_elem_of_nil in Hp. }
  change (Valid (Some p.1)) with true. cbv iota.
  rewrite (iter_key_spec KeyComparator m _ p Hok) by set_solver. cbn [mbind outcome_bind].
  destruct (proj1 (Hls p.2)) as (a & Ha & Ep); [apply list_elem_of_fmap_2; set_solver|].
  assert (Hoka : add_ok a) by (rewrite list.Forall_forall in Hadds; by apply Hadds).
  rewrite Ep, Eu. pose proof (Get_entry a key Hoka) as Hge_a. cbv zeta in Hge_a. rewrite Hge_a. f_equal.
  pose proof (Hge p ltac:(by left)) as Hpt. change (0 <= entry_cmp p.2 target) in Hpt. rewrite Ep, Hcmp in Hpt by done.
  (* the other entries of [ge] come after [p] *)
  assert (Hafter : forall b, b ∈ adds -> a_key b = key -> a_seq b <= s -> entry_of b = entry_of a \/
    icompare (a_key a) (tag_of (a_seq a) (a_type a)) key (tag_of (a_seq b) (a_type b)) < 0).
  { intros b Hb Hkb Hsb. destruct (Hin_ge b Hb Hkb Hsb) as (q & Hq & Eq).
    apply elem_of_cons in Hq as [->|Hq]; [left; congruence|right].
    pose proof (so_sorted _ _ _ Hok) as Hso. apply stdpp.sorting.StronglySorted_app in Hso as (_ & _ & Hso).
    apply Sorted.StronglySorted_inv in Hso as [_ Hso]. rewrite list.Forall_forall in Hso. specialize (Hso q Hq).
    change (entry_cmp p.2 q.2 < 0) in Hso. rewrite Ep, Eq, entry_cmp_adds in Hso; [by rewrite Hkb in Hso|done|].
    rewrite list.Forall_forall in Hadds. by apply Hadds. }
  case_bool_decide as Hka.
  - (* the key's own entry: the newest *)
    assert (Hsa : a_seq a <= s).
    { unfold icompare in Hpt. rewrite Hka, lex_refl in Hpt. simpl in Hpt.
      apply (tag_le _ (a_type a)). zcases; lia. }
    rewrite (newest_unique adds key s a); [done|done|done|done|done|].
    intros b Hb Hkb Hsb. destruct (Hafter b Hb Hkb Hsb) as [E|E].
    + rewrite list.Forall_forall in Hadds. pose proof (entry_cmp_adds b a (Hadds b Hb) Hoka) as Hc.
      rewrite E in Hc. rewrite (entry_cmp_adds a a Hoka Hoka) in Hc.
      assert (icompare (a_key a) (tag_of (a_seq a) (a_type a)) (a_key a) (tag_of (a_seq a) (a_type a)) = 0) as H0
        by (by apply icompare_eq).
      rewrite H0 in Hc. symmetry in Hc. apply icompare_eq in Hc as [_ Ht]. apply tag_seq in Ht. lia.
    + unfold icompare in E. rewrite Hka, lex_refl in E. simpl in E.
      unfold tag_of in E. pose proof (type_code_range (a_type a)). pose proof (type_code_range (a_type b)). zcases; lia.
  - (* another key: nothing of this one is left *)
    rewrite newest_none; [done|]. intros b Hb Hkb. destruct (Z.lt_ge_cases s (a_seq b)); [done|exfalso].
    destruct (Hafter b Hb Hkb ltac:(lia)) as [E|E].
    + rewrite list.Forall_forall in Hadds. pose proof (entry_cmp_adds b a (Hadds b Hb) Hoka) as Hc.
      rewrite E in Hc. rewrite (entry_cmp_adds a a Hoka Hoka) in Hc.
      assert (icompare (a_key a) (tag_of (a_seq a) (a_type a)) (a_key a) (tag_of (a_seq a) (a_type a)) = 0) as H0
        by (by apply icompare_eq).
      rewrite H0 in Hc. symmetry in Hc. apply icompare_eq in Hc as [E' _]. congruence.
    + unfold icompare in E, Hpt. destruct (Z.eqb_spec (lex (a_key a) key) 0) as [E0|E0];
        [by apply lex_eq in E0|]. lia.
Qed.
