(* ===== verification/LevelStore.v ===== *)
(** * LevelStore: the write and read path of leveldb's db/db_impl.cc

    [Write] as the writer at the front of the queue runs it, and [Get], over the
    two memtables.  The compaction thread and the table files are not modelled:
    what the current version finds is the parameter [tables], and a writer that
    would wait for the compaction [Hangs].  The log is the list of the records
    handed to it. *)

From Stdlib.Strings Require Import Byte.
From S2P Require Import Prelude DBType Status Coding DbFormat WriteBatch SkipList SkipListSpec MemTable.

(** an entry of [writers_] *)
Record Writer := { w_batch : option bytes; w_sync : bool }.

Record DBImpl := {
  mem_ : MemTable; imm_ : option MemTable; log_ : list bytes; last_sequence : Z; bg_error_ : bool }.

(** a database just created *)
Definition new_DBImpl : DBImpl :=
  {| mem_ := make_MemTable; imm_ := None; log_ := []; last_sequence := 0; bg_error_ := false |}.

(** ** BuildBatchGroup *)

(** the loop over the writers after the first: [size] so far, the batch, the
    number of writers it serves *)
Fixpoint BuildBatchGroup_loop (tmp_batch_ : bytes) (first_batch : bytes) (first_sync : bool) (max_size : Z)
    (rest : list Writer) (size : Z) (result : option bytes) (last : nat) : outcome (option bytes * nat) :=
  match rest with
  | [] => Done (result, last)
  | w :: rest' =>
      if w_sync w && negb first_sync then Done (result, last) else
      match w_batch w with
      | None => BuildBatchGroup_loop tmp_batch_ first_batch first_sync max_size rest' size result (S last)
      | Some b =>
          let size := u64 (size + ApproximateSize b) in
          if max_size <? size then Done (result, last) else
          r ← (match result with
               | Some r => Done r
               | None =>
                   c ← Count tmp_batch_;
                   _ ← c_assert (c =? 0);
                   Append tmp_batch_ first_batch
               end);
          r ← Append r b;
          BuildBatchGroup_loop tmp_batch_ first_batch first_sync max_size rest' size (Some r) (S last)
      end
  end.

(** the batch to write and the number of writers served; [tmp_batch_] is empty
    between writes *)
Definition BuildBatchGroup (writers_ : list Writer) : outcome (bytes * nat) :=
  match writers_ with
  | first :: rest =>
      match w_batch first with
      | Some b =>
          let size := ApproximateSize b in
          let max_size := if size <=? Z.shiftl 128 10 then size + Z.shiftl 128 10 else Z.shiftl 1 20 in
          '(r, n) ← BuildBatchGroup_loop Clear b (w_sync first) max_size rest size None 1;
          Done (default b r, n)
      | None => Asserted
      end
  | [] => Asserted
  end.

Section db.
(** [ApproximateMemoryUsage() <= write_buffer_size], and what the table files
    hold for a key at a number *)
Variable has_room : MemTable -> bool.
Variable tables : bytes -> Z -> found.

(** [MakeRoomForWrite(false)], the level 0 files below their limits: [false] is
    the error a failed write of the log left *)
Definition MakeRoomForWrite (d : DBImpl) : outcome (DBImpl * bool) :=
  if bg_error_ d then Done (d, false)
  else if has_room (mem_ d) then Done (d, true)
  else
    match imm_ d with
    | Some _ => Hangs
    | None =>
        let d := {| mem_ := make_MemTable; imm_ := Some (mem_ d); log_ := [];
                    last_sequence := last_sequence d; bg_error_ := bg_error_ d |} in
        if has_room (mem_ d) then Done (d, true) else Hangs
    end.

(** [Write] of the writer at the front of [writers_]: the database, whether the
    status is [OK], and how many writers get it.  [log_ok] and [sync_ok] are
    what the log file answers. *)
Definition Write (log_ok sync_ok : bool) (writers_ : list Writer) (d : DBImpl) : outcome (DBImpl * bool * nat) :=
  '(d, ok) ← MakeRoomForWrite d;
  if ok : bool then
    '(write_batch, n) ← BuildBatchGroup writers_;
    write_batch ← SetSequence write_batch (last_sequence d + 1);
    count ← Count write_batch;
    let sync := match writers_ with w :: _ => w_sync w | [] => false end in
    let sync_error := log_ok && sync && negb sync_ok in
    let log := log_ d ++ (if log_ok then [write_batch] else []) in
    '(m, ok) ← (if log_ok && negb sync_error
                 then '(m, s) ← InsertInto write_batch (mem_ d); Done (m, bool_decide (s = OK))
                 else Done (mem_ d, false));
    Done ({| mem_ := m; imm_ := imm_ d; log_ := log; last_sequence := u64 (last_sequence d + count);
             bg_error_ := sync_error |}, ok, n)
  else Done (d, false, 1%nat).

Definition Get (key : bytes) (d : DBImpl) : outcome (option bytes) :=
  let snapshot := last_sequence d in
  lkey ← make_LookupKey key snapshot;
  r ← MemTable.Get lkey (mem_ d);
  r ← (match r with
       | Absent =>
           r ← (match imm_ d with Some imm => MemTable.Get lkey imm | None => Done Absent end);
           Done (match r with Absent => tables key snapshot | _ => r end)
       | _ => Done r
       end);
  Done (match r with Found v => Some v | _ => None end).
End db.

(** ** Inserting a batch *)

(** the entries a list of operations adds, from a number on *)
Fixpoint adds_of (seq : Z) (ops : list batch_op) : list add :=
  match ops with
  | [] => []
  | batch_Put k v :: ops' =>
      {| a_seq := seq; a_type := kTypeValue; a_key := k; a_value := v |} :: adds_of (seq + 1) ops'
  | batch_Delete k :: ops' =>
      {| a_seq := seq; a_type := kTypeDeletion; a_key := k; a_value := [] |} :: adds_of (seq + 1) ops'
  end.

(** operations whose entries a memtable can hold *)
Definition mop_ok (o : batch_op) : Prop :=
  match o with
  | batch_Put k v => blen k + 8 < 2 ^ 32 /\ blen v < 2 ^ 32
  | batch_Delete k => blen k + 8 < 2 ^ 32
  end.
#[export] Instance mop_ok_dec o : Decision (mop_ok o).
Proof. destruct o; simpl; apply _. Defined.

Lemma mop_op_ok o : mop_ok o -> op_ok o.
Proof. destruct o; simpl; [intros []; split|intros]; lia. Qed.

Lemma length_adds_of seq ops : length (adds_of seq ops) = length ops.
Proof. revert seq; induction ops as [|[] ops IH]; intros; simpl; by rewrite ?IH. Qed.

Lemma adds_of_app seq a b : adds_of seq (a ++ b) = adds_of seq a ++ adds_of (seq + Z.of_nat (length a)) b.
Proof.
  revert seq; induction a as [|o a IH]; intros seq; [by rewrite Z.add_0_r|].
  destruct o; cbn [app adds_of length]; rewrite IH; do 3 f_equal; lia.
Qed.

Lemma adds_of_range seq ops a : a ∈ adds_of seq ops -> seq <= a_seq a < seq + Z.of_nat (length ops).
Proof.
  revert seq; induction ops as [|o ops IH]; intros seq; [by intros ?%not_elem_of_nil|].
  destruct o; cbn [adds_of length]; rewrite elem_of_cons; intros [->|Ha]; simpl; try lia;
    specialize (IH _ Ha); lia.
Qed.

Lemma handle_all_inserter ops seq m adds :
  mem_ok m adds -> Forall mop_ok ops -> 0 <= seq -> seq + Z.of_nat (length ops) <= 2 ^ 56 ->
  (forall b, b ∈ adds -> a_seq b < seq) ->
  exists m', handle_all inserter_Put inserter_Delete ops (seq, m) = Done (seq + Z.of_nat (length ops), m') /\
    mem_ok m' (adds ++ adds_of seq ops).
Proof.
  intros Hm Ho. revert seq m adds Hm; induction Ho as [|o ops Ho _ IH]; intros seq m adds Hm Hs Hb Hlt.
  - exists m. rewrite app_nil_r, Z.add_0_r. done.
  - cbn [length] in Hb.
    assert (exists a, adds_of seq (o :: ops) = a :: adds_of (seq + 1) ops /\ a_seq a = seq /\ add_ok a /\
      handle inserter_Put inserter_Delete o (seq, m) =
        (m' ← Add (a_seq a) (a_type a) (a_key a) (a_value a) m; Done (u64 (seq + 1), m'))) as (a & Ea & Es & Ha & Eh).
    { destruct o as [k v|k]; eexists; (split; [reflexivity|]); (split; [done|]); (split; [|done]);
        unfold add_ok; simpl; simpl in Ho; repeat split; try lia; rewrite blen_nil; lia. }
    destruct (Add_spec m adds a Hm Ha) as (m1 & E1 & Hm1); [intros b Hb'; rewrite Es; by apply Hlt|].
    destruct (IH (seq + 1) m1 (adds ++ [a])) as (m' & E' & Hm'); [done|lia|lia| |].
    { intros b Hb'. apply elem_of_app in Hb' as [Hb'|Hb']; [specialize (Hlt b Hb'); lia|].
      apply list_elem_of_singleton in Hb' as ->. lia. }
    exists m'. cbn [handle_all]. rewrite Eh, E1. cbn [mbind outcome_bind]. rewrite u64_small by lia. rewrite E'.
    split; [f_equal; f_equal; cbn [length]; lia|]. by rewrite Ea, (cons_middle a), app_assoc.
Qed.

Lemma InsertInto_spec ops seq m adds :
  mem_ok m adds -> Forall mop_ok ops -> 0 <= seq -> seq + Z.of_nat (length ops) <= 2 ^ 56 ->
  Z.of_nat (length ops) < 2 ^ 31 -> (forall b, b ∈ adds -> a_seq b < seq) ->
  exists m', InsertInto (batch_bytes seq ops) m = Done (m', OK) /\ mem_ok m' (adds ++ adds_of seq ops).
Proof.
  intros Hm Ho Hs Hb Hn Hlt. destruct (handle_all_inserter ops seq m adds Hm Ho Hs Hb Hlt) as (m' & E & Hm').
  exists m'. split; [|done]. unfold InsertInto, batch_bytes. rewrite Sequence_batch by lia.
  cbn [mbind outcome_bind]. fold (batch_bytes seq ops).
  rewrite Iterate_batch; [|eapply list.Forall_impl; [exact Ho|apply mop_op_ok]|done]. by rewrite E.
Qed.

(** ** The group *)

(** a writer with the operations of its batch *)
Definition writer_ops (w : Writer) (ops : list batch_op) : Prop :=
  exists seq, w_batch w = Some (batch_bytes seq ops).

Definition served (opss : list (list batch_op)) (n : nat) : list batch_op := concat (take n opss).

Lemma served_length opss n : (length (served opss n) <= length (concat opss))%nat.
Proof. unfold served. rewrite <- (take_drop n opss) at 2. rewrite concat_app, length_app. lia. Qed.

Lemma level_BuildBatchGroup_loop_spec first_sync max_size ops0 seq0 rest opss size acc result last :
  Forall2 writer_ops rest opss ->
  (result = None /\ acc = [] \/ result = Some (batch_bytes 0 (ops0 ++ acc))) ->
  Z.of_nat (length (ops0 ++ acc ++ concat opss)) < 2 ^ 31 ->
  exists r n, BuildBatchGroup_loop Clear (batch_bytes seq0 ops0) first_sync max_size rest size result last
      = Done (r, (last + n)%nat) /\ (n <= length rest)%nat /\
    (r = None /\ acc ++ served opss n = [] \/ r = Some (batch_bytes 0 (ops0 ++ acc ++ served opss n))).
Proof.
  intros HF. revert size acc result last; induction HF as [|w ops rest opss (seq & Ew) HF IH];
    intros size acc result last Hr Hlen; cbn [BuildBatchGroup_loop].
  - exists result, 0%nat. rewrite Nat.add_0_r. split; [done|]. split; [lia|].
    destruct Hr as [[-> ->]| ->]; [by left|right]. by rewrite app_nil_r.
  - assert (Hstop : exists r n, Done (result, last) = Done (r, (last + n)%nat) /\ (n <= length (w :: rest))%nat /\
      (r = None /\ acc ++ served (ops :: opss) n = [] \/
       r = Some (batch_bytes 0 (ops0 ++ acc ++ served (ops :: opss) n)))).
    { exists result, 0%nat. rewrite Nat.add_0_r. split; [done|]. split; [lia|].
      destruct Hr as [[-> ->]| ->]; [by left|right]. by rewrite app_nil_r. }
    destruct (w_sync w && negb first_sync); [exact Hstop|]. rewrite Ew. cbv zeta.
    destruct (max_size <? u64 (size + ApproximateSize (batch_bytes seq ops))); [exact Hstop|].
    cbn [concat] in Hlen. rewrite !length_app in Hlen.
    assert (Er : (match result with
      | Some r => Done r
      | None => c ← Count Clear; _ ← c_assert (c =? 0); Append Clear (batch_bytes seq0 ops0) end)
      = Done (batch_bytes 0 (ops0 ++ acc))).
    { destruct Hr as [[-> ->]| ->]; [|done]. change (Count Clear) with (Done 0 : outcome Z).
      cbn [mbind outcome_bind Z.eqb c_assert]. rewrite app_nil_r, Clear_batch. apply (Append_batch 0 seq0 [] ops0). simpl. lia. }
    rewrite Er. cbn [mbind outcome_bind]. rewrite Append_batch by (rewrite length_app; lia). cbn [mbind outcome_bind].
    destruct (IH (u64 (size + ApproximateSize (batch_bytes seq ops))) (acc ++ ops)
      (Some (batch_bytes 0 ((ops0 ++ acc) ++ ops))) (S last)) as (r & n & E & Hn & Hr').
    { right. by rewrite <- app_assoc. }
    { rewrite !length_app. lia. }
    exists r, (S n). rewrite E. split; [do 2 f_equal; lia|]. split; [simpl; lia|].
    change (served (ops :: opss) (S n)) with (ops ++ served opss n). rewrite (app_assoc acc). exact Hr'.
Qed.

(** The batch is made of the operations of the first writers of the queue, at
    least one, in order. *)
Lemma level_BuildBatchGroup_spec ws opss :
  ws <> [] -> Forall2 writer_ops ws opss -> Z.of_nat (length (concat opss)) < 2 ^ 31 ->
  exists n seq, BuildBatchGroup ws = Done (batch_bytes seq (served opss n), n) /\ (1 <= n <= length ws)%nat.
Proof.
  intros Hne HF Hlen. destruct HF as [|w ops ws opss (seq & Ew) HF]; [done|]. cbn [BuildBatchGroup]. rewrite Ew. cbv zeta.
  cbn [concat] in Hlen.
  destruct (level_BuildBatchGroup_loop_spec (w_sync w)
    (if ApproximateSize (batch_bytes seq ops) <=? Z.shiftl 128 10
     then ApproximateSize (batch_bytes seq ops) + Z.shiftl 128 10 else Z.shiftl 1 20)
    ops seq ws opss (ApproximateSize (batch_bytes seq ops)) [] None 1 HF) as (r & n & E & Hn & Hr); [by left|done|].
  exists (S n), (match r with None => seq | Some _ => 0 end). rewrite E. cbn [mbind outcome_bind].
  split; [|simpl; lia]. change (served (ops :: opss) (S n)) with (ops ++ served opss n).
  destruct Hr as [[-> Hs]| ->]; [|done]. cbn [app] in Hs. by rewrite Hs, app_nil_r.
Qed.

(** ** What the database holds *)

(** what a list of entries says of a key: its last entry decides *)
Definition adds_lookup (adds : list add) (key : bytes) : option bytes :=
  match list.last (filter (fun a => a_key a = key) adds) with
  | Some a => match a_type a with kTypeValue => Some (a_value a) | kTypeDeletion => None end
  | None => None
  end.

(** the entries of the two memtables, the immutable one's first *)
Record db_ok (d : DBImpl) (old new : list add) : Prop := {
  do_mem : mem_ok (mem_ d) new;
  do_imm : match imm_ d with Some m => mem_ok m old | None => old = [] end;
  do_last : 0 <= last_sequence d < 2 ^ 56;
  do_seqs : forall a, a ∈ old ++ new -> a_seq a <= last_sequence d }.

Definition db_holds (d : DBImpl) (m : gmap bytes bytes) : Prop :=
  exists old new, db_ok d old new /\ forall k, m !! k = adds_lookup (old ++ new) k.

Lemma filter_key_app a b key :
  list.last (filter (fun a => a_key a = key) (a ++ b)) =
    match list.last (filter (fun a => a_key a = key) b) with
    | Some x => Some x | None => list.last (filter (fun a => a_key a = key) a) end.
Proof. by rewrite list.filter_app, last_app. Qed.

Lemma newest_all adds key s :
  (forall a, a ∈ adds -> a_seq a <= s) -> newest adds key s = list.last (filter (fun a => a_key a = key) adds).
Proof.
  intros Hs. unfold newest. f_equal. induction adds as [|a adds IH]; [done|].
  rewrite !list.filter_cons, IH by set_solver. pose proof (Hs a ltac:(by left)).
  repeat case_decide; naive_solver.
Qed.

(** the operations of a batch, on the entries and on the map *)
Lemma adds_lookup_ops (adds : list add) (seq : Z) (ops : list batch_op) (m : gmap bytes bytes) :
  (forall k : bytes, m !! k = adds_lookup adds k) ->
  forall k : bytes, foldl (fun m o => apply_op o m) m ops !! k = adds_lookup (adds ++ adds_of seq ops) k.
Proof.
  revert adds seq m; induction ops as [|o ops IH]; intros adds seq m Hm k; [by rewrite app_nil_r|].
  cbn [foldl]. assert (exists a, adds_of seq (o :: ops) = a :: adds_of (seq + 1) ops /\
    forall k, apply_op o m !! k = adds_lookup (adds ++ [a]) k) as (a & -> & Ha).
  { destruct o as [k0 v|k0]; eexists; (split; [reflexivity|]); intros k1; unfold adds_lookup; rewrite filter_key_app;
      cbn [apply_op]; destruct (decide (k0 = k1)) as [->|Hne];
      [rewrite list.filter_cons_True by done|rewrite list.filter_cons_False by done
      |rewrite list.filter_cons_True by done|rewrite list.filter_cons_False by done]; simpl.
    - by rewrite lookup_insert_eq.
    - rewrite lookup_insert_ne by done. apply Hm.
    - by rewrite lookup_delete_eq.
    - rewrite lookup_delete_ne by done. apply Hm. }
  rewrite (cons_middle a), app_assoc. by apply IH.
Qed.

Lemma adds_ok_seqs old new a b i j (d : DBImpl) :
  db_ok d old new -> (i < j)%nat -> new !! i = Some a -> new !! j = Some b -> a_seq a < a_seq b.
Proof. intros Hd. by apply (mo_seqs _ _ (do_mem _ _ _ Hd)). Qed.

Section get_spec.
Variable tables : bytes -> Z -> found.
(** no table file yet *)
Hypothesis tables_empty : forall key s, tables key s = Absent.

Lemma Get_holds d m key :
  db_holds d m -> blen key + 8 < 2 ^ 32 -> Get tables key d = Done (m !! key).
Proof.
  intros (old & new & [Hmem Himm Hlast Hseqs] & Hm) Hk. unfold Get.
  destruct (make_LookupKey_spec key (last_sequence d) Hlast Hk) as (lk & Elk & _). rewrite Elk. cbn [mbind outcome_bind].
  rewrite (Get_spec _ _ _ _ _ Hmem Hlast Hk Elk). cbn [mbind outcome_bind].
  rewrite newest_all by (intros a Ha; apply Hseqs; set_solver). rewrite Hm. unfold adds_lookup. rewrite filter_key_app.
  destruct (list.last (filter (fun a => a_key a = key) new)) as [a|]; cbn [found_of].
  { destruct (a_type a); cbn [mbind outcome_bind]; done. }
  cbn [mbind outcome_bind]. destruct (imm_ d) as [im|].
  - rewrite (Get_spec _ _ _ _ _ Himm Hlast Hk Elk). cbn [mbind outcome_bind].
    rewrite newest_all by (intros a Ha; apply Hseqs; set_solver).
    destruct (list.last (filter (fun a => a_key a = key) old)) as [a|]; cbn [found_of].
    + by destruct (a_type a).
    + by rewrite tables_empty.
  - subst old. cbn [mbind outcome_bind]. by rewrite tables_empty.
Qed.
End get_spec.

Section write_spec.
Variable has_room : MemTable -> bool.

Lemma MakeRoom_holds d m :
  db_holds d m ->
  (MakeRoomForWrite has_room d = Hangs /\ exists t, has_room t = false) \/
  exists d', MakeRoomForWrite has_room d = Done (d', negb (bg_error_ d)) /\ db_holds d' m /\
    last_sequence d' = last_sequence d /\ bg_error_ d' = bg_error_ d.
Proof.
  intros (old & new & Hd & Hm). unfold MakeRoomForWrite. destruct (bg_error_ d) eqn:Eb.
  { right. exists d. split; [done|]. split; [by exists old, new|done]. }
  destruct (has_room (mem_ d)) eqn:Er.
  { right. exists d. split; [done|]. split; [by exists old, new|done]. }
  pose proof Hd as [Hmem Himm Hlast Hseqs]. destruct (imm_ d) as [im|]; [by left; eauto|]. subst old.
  cbn [mem_]. destruct (has_room make_MemTable) eqn:Er'; [right|by left; eauto].
  eexists. split; [done|]. split; [|done]. exists new, []. split.
  - split; simpl; [apply make_MemTable_ok|done|done|]. intros a Ha. rewrite app_nil_r in Ha. by apply Hseqs.
  - intros k. by rewrite app_nil_r.
Qed.

(** *** One write *)

Lemma served_ok opss n : Forall mop_ok (concat opss) -> Forall mop_ok (served opss n).
Proof. rewrite <- (take_drop n opss) at 1. rewrite concat_app. by intros [? _]%Forall_app. Qed.

(** what the writer at the front does with its group *)
Lemma write_group_spec ws opss d new :
  mem_ok (mem_ d) new -> 0 <= last_sequence d -> (forall a, a ∈ new -> a_seq a <= last_sequence d) ->
  ws <> [] -> Forall2 writer_ops ws opss -> Forall mop_ok (concat opss) ->
  Z.of_nat (length (concat opss)) < 2 ^ 31 -> last_sequence d + Z.of_nat (length (concat opss)) < 2 ^ 56 ->
  exists n b m', let ops := served opss n in let seq := last_sequence d + 1 in
    (1 <= n <= length ws)%nat /\ BuildBatchGroup ws = Done (b, n) /\
    SetSequence b seq = Done (batch_bytes seq ops) /\ Count (batch_bytes seq ops) = Done (Z.of_nat (length ops)) /\
    InsertInto (batch_bytes seq ops) (mem_ d) = Done (m', OK) /\ mem_ok m' (new ++ adds_of seq ops).
Proof.
  intros Hmem Hlast Hseqs Hne HF Ho Hn31 Hn56.
  destruct (level_BuildBatchGroup_spec ws opss Hne HF Hn31) as (n & seq & Eg & Hn).
  pose proof (served_length opss n) as Hsl.
  pose proof (served_ok opss n Ho) as Hos.
  destruct (InsertInto_spec (served opss n) (last_sequence d + 1) (mem_ d) new Hmem Hos) as (m' & Ei & Hm');
    [lia|lia|lia|intros b Hb; specialize (Hseqs b Hb); lia|].
  exists n, (batch_bytes seq (served opss n)), m'. cbv zeta. split; [done|]. split; [done|].
  split; [unfold batch_bytes; apply SetSequence_batch|]. split; [unfold batch_bytes; by rewrite Count_batch by lia|done].
Qed.

Lemma Write_holds log_ok sync_ok ws opss d m :
  db_holds d m -> ws <> [] -> Forall2 writer_ops ws opss -> Forall mop_ok (concat opss) ->
  Z.of_nat (length (concat opss)) < 2 ^ 31 -> last_sequence d + Z.of_nat (length (concat opss)) < 2 ^ 56 ->
  (Write has_room log_ok sync_ok ws d = Hangs /\ exists t, has_room t = false) \/
  exists d' ok n, Write has_room log_ok sync_ok ws d = Done (d', ok, n) /\ (1 <= n <= length ws)%nat /\
    db_holds d' (if ok : bool then foldl (fun m o => apply_op o m) m (served opss n) else m) /\
    last_sequence d' <= last_sequence d + Z.of_nat (length (concat opss)) /\
    (ok = true <-> bg_error_ d = false /\ log_ok = true /\
      (sync_ok = true \/ (match ws with w :: _ => w_sync w | [] => false end) = false)).
Proof.
  intros Hd Hne HF Ho Hn31 Hn56. unfold Write.
  destruct (MakeRoom_holds d m Hd) as [[-> ?]|(d1 & -> & Hd1 & El & Eb)]; [by left|right].
  cbn [mbind outcome_bind]. destruct (bg_error_ d) eqn:Ebg; cbn [negb].
  { exists d1, false, 1%nat. split; [done|]. split; [destruct ws; [done|simpl; lia]|].
    split; [done|]. split; [lia|]. naive_solver. }
  destruct Hd1 as (old & new & Hd1 & Hm). pose proof Hd1 as [Hmem Himm Hlast Hseqs].
  destruct (write_group_spec ws opss d1 new Hmem) as (n & b & m' & Hn & -> & Es & Ec & Ei & Hm');
    [lia|intros a Ha; apply Hseqs; set_solver|done|done|done|done|lia|].
  cbn [mbind outcome_bind]. rewrite Es. cbn [mbind outcome_bind]. rewrite Ec. cbn [mbind outcome_bind].
  pose proof (served_length opss n) as Hsl. rewrite El in *.
  set (sync := match ws with w :: _ => w_sync w | [] => false end).
  rewrite u64_small by lia.
  destruct (log_ok && negb (log_ok && sync && negb sync_ok)) eqn:Eok.
  - rewrite Ei. cbn [mbind outcome_bind]. rewrite bool_decide_true by done.
    eexists _, true, n. split; [done|]. split; [done|]. split; [|split; [simpl; lia|]].
    + exists old, (new ++ adds_of (last_sequence d + 1) (served opss n)). split.
      * split; simpl; [done|done|lia|]. intros a Ha. rewrite app_assoc in Ha. apply elem_of_app in Ha as [Ha|Ha].
        -- specialize (Hseqs a Ha). lia.
        -- apply adds_of_range in Ha. lia.
      * intros k. rewrite app_assoc. by apply adds_lookup_ops.
    + destruct log_ok, sync, sync_ok; simpl in *; naive_solver.
  - cbn [mbind outcome_bind]. eexists _, false, n. split; [done|]. split; [done|]. split; [|split; [simpl; lia|]].
    + exists old, new. split; [|done]. split; simpl; [done|done|lia|]. intros a Ha. specialize (Hseqs a Ha). lia.
    + destruct log_ok, sync, sync_ok; simpl in *; naive_solver.
Qed.
End write_spec.

(** ** Runs *)

(** a call that reaches the database: the writers in the queue when a [Write]
    comes to the front, each with its operations and [sync]; or a [Get] *)
Inductive store_call :=
  | SWrite (log_ok sync_ok : bool) (ws : list (list batch_op * bool))
  | SGet (key : bytes).
Inductive store_reply := RWrite (ok : bool) (n : nat) | RGet (v : option bytes).

Fixpoint make_writers (ws : list (list batch_op * bool)) : outcome (list Writer) :=
  match ws with
  | [] => Done []
  | (ops, s) :: ws' =>
      b ← add_ops Clear ops;
      rest ← make_writers ws';
      Done ({| w_batch := Some b; w_sync := s |} :: rest)
  end.

Section run.
Variable has_room : MemTable -> bool.
Variable tables : bytes -> Z -> found.

Fixpoint run_store (cs : list store_call) (d : DBImpl) : outcome (DBImpl * list store_reply) :=
  match cs with
  | [] => Done (d, [])
  | SWrite log_ok sync_ok ws :: cs' =>
      ws ← make_writers ws;
      '(d, ok, n) ← Write has_room log_ok sync_ok ws d;
      '(d, rs) ← run_store cs' d;
      Done (d, RWrite ok n :: rs)
  | SGet key :: cs' =>
      v ← Get tables key d;
      '(d, rs) ← run_store cs' d;
      Done (d, RGet v :: rs)
  end.

(** the same calls on a map: a write that is [OK] applies the operations of the
    first [n] writers in order, one that is not changes nothing, a read gets
    what the map holds *)
Fixpoint map_run (cs : list store_call) (rs : list store_reply) (m m' : gmap bytes bytes) : Prop :=
  match cs, rs with
  | [], [] => m' = m
  | SWrite log_ok sync_ok ws :: cs', RWrite ok n :: rs' =>
      (1 <= n <= length ws)%nat /\ (ok = true -> log_ok = true) /\
      map_run cs' rs' (if ok then foldl (fun m o => apply_op o m) m (served (map fst ws) n) else m) m'
  | SGet key :: cs', RGet v :: rs' => v = m !! key /\ map_run cs' rs' m m'
  | _, _ => False
  end.

Definition call_ops (c : store_call) : list batch_op :=
  match c with SWrite _ _ ws => concat (map fst ws) | SGet _ => [] end.
Definition store_call_ok (c : store_call) : Prop :=
  match c with SWrite _ _ ws => ws <> [] /\ Forall mop_ok (call_ops c) | SGet key => blen key + 8 < 2 ^ 32 end.
#[export] Instance store_call_ok_dec c : Decision (store_call_ok c).
Proof. destruct c; simpl; apply _. Defined.

Lemma make_writers_spec ws :
  Z.of_nat (length (concat (map fst ws))) < 2 ^ 31 ->
  exists ws', make_writers ws = Done ws' /\ Forall2 writer_ops ws' (map fst ws) /\ length ws' = length ws.
Proof.
  induction ws as [|[ops s] ws IH]; intros Hlen; [by exists []|].
  cbn [map concat fst] in Hlen. rewrite length_app in Hlen. destruct IH as (ws' & E & HF & Hl); [lia|].
  cbn [make_writers]. rewrite Clear_batch, (add_ops_spec 0 []) by (simpl; lia). cbn [mbind outcome_bind]. rewrite E.
  eexists. split; [done|]. split; [|by simpl; rewrite Hl]. constructor; [by eexists|done].
Qed.

(** C11: from an empty database, any sequence of reads and of writes, each write
    with the queue of writers behind it, runs like a finite map: a write that
    answers [OK] to its first [n] writers has applied all their operations, in
    order, and one that answers an error has applied none; every read returns
    the latest value, or that there is none.  Only a full memtable can make a
    writer wait, for the compaction thread. *)
Theorem level_store_refines_map cs d m :
  (forall key s, tables key s = Absent) -> Forall store_call_ok cs ->
  Z.of_nat (length (concat (map call_ops cs))) < 2 ^ 31 ->
  db_holds d m -> last_sequence d + Z.of_nat (length (concat (map call_ops cs))) < 2 ^ 56 ->
  (run_store cs d = Hangs /\ exists t, has_room t = false) \/
  exists d' rs m', run_store cs d = Done (d', rs) /\ map_run cs rs m m' /\ db_holds d' m'.
Proof.
  intros Htab Hok. revert d m; induction Hok as [|c cs Hc _ IH]; intros d m Hlen Hd Hseq.
  { right. by exists d, [], m. }
  cbn [map concat] in Hlen, Hseq. rewrite length_app in Hlen, Hseq. destruct c as [log_ok sync_ok ws|key]; cbn [run_store].
  - destruct Hc as [Hne Ho]. cbn [call_ops] in *.
    destruct (make_writers_spec ws) as (ws' & Ews & HF & Hl); [lia|]. rewrite Ews. cbn [mbind outcome_bind].
    destruct (Write_holds has_room log_ok sync_ok ws' (map fst ws) d m Hd) as [[-> ?]|(d1 & ok & n & -> & Hn & Hd1 & Hls & Hiff)];
      [by destruct ws', ws|done|done|lia|lia|by left|].
    cbn [mbind outcome_bind].
    destruct (IH d1 _ ltac:(lia) Hd1 ltac:(lia)) as [[-> ?]|(d' & rs & m' & -> & Hmr & Hd')]; [by left|right].
    exists d', (RWrite ok n :: rs), m'. split; [done|]. split; [|done]. cbn [map_run].
    split; [lia|]. split; [|done]. intros Eok. by apply Hiff in Eok as (_ & ? & _).
  - rewrite (Get_holds tables Htab d m key Hd Hc). cbn [mbind outcome_bind].
    destruct (IH d m ltac:(lia) Hd ltac:(simpl in Hseq; lia)) as [[-> ?]|(d' & rs & m' & -> & Hmr & Hd')]; [by left|right].
    by exists d', (RGet (m !! key) :: rs), m'.
Qed.
End run.

Lemma new_DBImpl_holds : db_holds new_DBImpl ∅.
Proof.
  exists [], []. split; [|done]. split; simpl; [apply make_MemTable_ok|done|lia|]. by intros a ?%not_elem_of_nil.
Qed.

Definition example_store_calls : list store_call :=
  [SWrite true true [([batch_Put (text "a") (text "1"); batch_Put (text "b") (text "2")], true);
                     ([batch_Delete (text "a")], false)];
   SGet (text "a"); SGet (text "b"); SWrite false true [([batch_Put (text "b") (text "3")], false)]; SGet (text "b")].

Lemma level_store_refines_map_witness :
  (run_store (fun _ => true) (fun _ _ => Absent) example_store_calls new_DBImpl = Hangs /\
    exists t : MemTable, (fun _ => true) t = false) \/
  exists d' rs m', run_store (fun _ => true) (fun _ _ => Absent) example_store_calls new_DBImpl = Done (d', rs) /\
    map_run example_store_calls rs ∅ m' /\ db_holds d' m'.
Proof.
  refine (level_store_refines_map (fun _ => true) (fun _ _ => Absent) example_store_calls new_DBImpl ∅ _ _ _ new_DBImpl_holds _).
  - done.
  - apply (bool_decide_unpack _). vm_compute. exact I.
  - done.
  - done.
Defined.

(** the replies of that run *)
Example example_store_run :
  snd <$> (match run_store (fun _ => true) (fun _ _ => Absent) example_store_calls new_DBImpl with Done r => Some r | _ => None end)
  = Some [RWrite true 2; RGet None; RGet (Some (text "2")); RWrite false 1; RGet (Some (text "2"))].
Proof. vm_compute. reflexivity. Qed.
