(* ===== verification/Log.v ===== *)
(** * Log: leveldb's db/log_format.h, log_writer and log_reader

    The log is a sequence of 32 KiB blocks.  A record is cut into fragments
    that do not cross a block, each behind a header with a checksum, a length
    and a type; a block's last bytes are zeros when a header does not fit in
    them.  The files behind the writer and the reader are the interfaces
    [WritableFile] and [SequentialFile] of leveldb/env.h. *)

From Stdlib.Strings Require Import Byte.
From S2P Require Import Prelude Status Coding WriteBatch Crc32c.

(** ** The format *)

Inductive RecordType := kZeroType | kFullType | kFirstType | kMiddleType | kLastType.
Definition record_code (t : RecordType) : Z :=
  match t with kZeroType => 0 | kFullType => 1 | kFirstType => 2 | kMiddleType => 3 | kLastType => 4 end.
Definition kMaxRecordType : Z := record_code kLastType.
Definition kBlockSize : Z := 32768.
Definition kHeaderSize : Z := 4 + 2 + 1.
(** the reader's own types *)
Definition kEof : Z := kMaxRecordType + 1.
Definition kBadRecord : Z := kMaxRecordType + 2.

(** ** The files *)

(** whether a call's status is [OK] *)
Class WritableFile (F : Type) := { file_Append : F -> bytes -> F * bool; file_Flush : F -> F * bool }.
(** [Read] of at most so many bytes, and [Skip] *)
Class SequentialFile (F : Type) := { file_Read : F -> Z -> F * bytes * Status; file_Skip : F -> Z -> F * Status }.

(** ** The writer *)

Section writer.
Context {F : Type} `{WritableFile F} `{Machine}.

Record log_Writer := { dest_ : F; block_offset_ : Z; type_crc_ : list Z }.

Definition with_dest (w : log_Writer) (f : F) (offset : Z) : log_Writer :=
  {| dest_ := f; block_offset_ := offset; type_crc_ := type_crc_ w |}.

(** from type [i] on, [n] types left *)
Fixpoint InitTypeCrc (n : nat) (i : Z) : outcome (list Z) :=
  match n with
  | O => Done []
  | S n' => c ← Value [z2b i]; rest ← InitTypeCrc n' (i + 1); Done (c :: rest)
  end.

Definition make_Writer (dest : F) (dest_length : Z) : outcome log_Writer :=
  crcs ← InitTypeCrc (Z.to_nat (kMaxRecordType + 1)) 0;
  Done {| dest_ := dest; block_offset_ := dest_length mod kBlockSize; type_crc_ := crcs |}.

Definition EmitPhysicalRecord (w : log_Writer) (t : RecordType) (ptr : bytes) : outcome (log_Writer * bool) :=
  let length := blen ptr in
  _ ← c_assert (length <=? 0xffff);
  _ ← c_assert (block_offset_ w + kHeaderSize + length <=? kBlockSize);
  type_crc ← (match type_crc_ w !! Z.to_nat (record_code t) with Some c => Done c | None => Undefined end);
  crc ← Extend type_crc ptr;
  let buf := EncodeFixed32 (Mask crc) ++
    [z2b (Z.land length 0xff); z2b (Z.shiftr length 8); z2b (record_code t)] in
  let (f, s) := file_Append (dest_ w) buf in
  let (f, s) := (if s : bool then let (f, s) := file_Append f ptr in if s : bool then file_Flush f else (f, s) else (f, s)) in
  Done (with_dest w f (block_offset_ w + (kHeaderSize + length)), s).

(** the type of a fragment *)
Definition fragment_type (begin_ end_ : bool) : RecordType :=
  if begin_ && end_ then kFullType else if begin_ then kFirstType else if end_ then kLastType else kMiddleType.

(** the [do] loop; a round that emits no byte of the record starts a block, so
    [AddRecord] gives two rounds for each byte *)
Fixpoint AddRecord_loop (fuel : nat) (w : log_Writer) (ptr : bytes) (begin_ : bool) : outcome (log_Writer * bool) :=
  match fuel with
  | O => Hangs
  | S fuel' =>
      let leftover := kBlockSize - block_offset_ w in
      _ ← c_assert (0 <=? leftover);
      let w :=
        if leftover <? kHeaderSize
        then with_dest w (if 0 <? leftover then (file_Append (dest_ w) (replicate (Z.to_nat leftover) x00)).1
                          else dest_ w) 0
        else w in
      _ ← c_assert (0 <=? kBlockSize - block_offset_ w - kHeaderSize);
      let avail := kBlockSize - block_offset_ w - kHeaderSize in
      let fragment_length := if blen ptr <? avail then blen ptr else avail in
      let end_ := blen ptr =? fragment_length in
      let n := Z.to_nat fragment_length in
      '(w, s) ← EmitPhysicalRecord w (fragment_type begin_ end_) (take n ptr);
      let ptr := drop n ptr in
      if (s : bool) && (0 <? blen ptr) then AddRecord_loop fuel' w ptr false else Done (w, s)
  end.
Definition AddRecord (w : log_Writer) (slice : bytes) : outcome (log_Writer * bool) :=
  AddRecord_loop (2 * length slice + 2) w slice true.
End writer.
Arguments log_Writer : clear implicits.

(** ** The reader *)

Section reader.
Context {F : Type} `{SequentialFile F} `{Machine}.

(** [reporter_]: what was reported so far, when there is a reporter *)
Record log_Reader := {
  file_ : F; reporter_ : option (list (Z * Status)); checksum_ : bool; buffer_ : bytes; eof_ : bool;
  last_record_offset_ : Z; end_of_buffer_offset_ : Z; initial_offset_ : Z; resyncing_ : bool }.

Definition make_Reader (file : F) (reporter : option (list (Z * Status))) (checksum : bool) (initial_offset : Z) : log_Reader :=
  {| file_ := file; reporter_ := reporter; checksum_ := checksum; buffer_ := []; eof_ := false;
     last_record_offset_ := 0; end_of_buffer_offset_ := 0; initial_offset_ := initial_offset;
     resyncing_ := 0 <? initial_offset |}.

Definition with_file (r : log_Reader) (f : F) (e : Z) : log_Reader :=
  {| file_ := f; reporter_ := reporter_ r; checksum_ := checksum_ r; buffer_ := buffer_ r; eof_ := eof_ r;
     last_record_offset_ := last_record_offset_ r; end_of_buffer_offset_ := e;
     initial_offset_ := initial_offset_ r; resyncing_ := resyncing_ r |}.
Definition with_buffer (r : log_Reader) (b : bytes) (eof : bool) : log_Reader :=
  {| file_ := file_ r; reporter_ := reporter_ r; checksum_ := checksum_ r; buffer_ := b; eof_ := eof;
     last_record_offset_ := last_record_offset_ r; end_of_buffer_offset_ := end_of_buffer_offset_ r;
     initial_offset_ := initial_offset_ r; resyncing_ := resyncing_ r |}.
Definition with_last (r : log_Reader) (offset : Z) : log_Reader :=
  {| file_ := file_ r; reporter_ := reporter_ r; checksum_ := checksum_ r; buffer_ := buffer_ r; eof_ := eof_ r;
     last_record_offset_ := offset; end_of_buffer_offset_ := end_of_buffer_offset_ r;
     initial_offset_ := initial_offset_ r; resyncing_ := resyncing_ r |}.
Definition with_resyncing (r : log_Reader) (b : bool) : log_Reader :=
  {| file_ := file_ r; reporter_ := reporter_ r; checksum_ := checksum_ r; buffer_ := buffer_ r; eof_ := eof_ r;
     last_record_offset_ := last_record_offset_ r; end_of_buffer_offset_ := end_of_buffer_offset_ r;
     initial_offset_ := initial_offset_ r; resyncing_ := b |}.

Definition ReportDrop (r : log_Reader) (n : Z) (reason : Status) : log_Reader :=
  match reporter_ r with
  | Some reports =>
      if initial_offset_ r <=? u64 (end_of_buffer_offset_ r - blen (buffer_ r) - n)
      then {| file_ := file_ r; reporter_ := Some (reports ++ [(n, reason)]); checksum_ := checksum_ r;
              buffer_ := buffer_ r; eof_ := eof_ r; last_record_offset_ := last_record_offset_ r;
              end_of_buffer_offset_ := end_of_buffer_offset_ r; initial_offset_ := initial_offset_ r;
              resyncing_ := resyncing_ r |}
      else r
  | None => r
  end.
Definition ReportCorruption (r : log_Reader) (n : Z) (reason : bytes) : log_Reader :=
  ReportDrop r n (Corruption reason).

Definition SkipToInitialBlock (r : log_Reader) : log_Reader * bool :=
  let offset_in_block := initial_offset_ r mod kBlockSize in
  let block_start_location := u64 (initial_offset_ r - offset_in_block) in
  let block_start_location :=
    if kBlockSize - 6 <? offset_in_block then u64 (block_start_location + kBlockSize) else block_start_location in
  let r := with_file r (file_ r) block_start_location in
  if 0 <? block_start_location
  then
    let (f, skip_status) := file_Skip (file_ r) block_start_location in
    let r := with_file r f block_start_location in
    if decide (skip_status = OK) then (r, true) else (ReportDrop r block_start_location skip_status, false)
  else (r, true).

(** [header[6]] is a [char], which is signed *)
Definition type_of_byte (b : byte) : Z := u32 (if b2z b <? 128 then b2z b else b2z b - 256).

(** the part of the round that finds a header in the buffer; [result] keeps what
    it held when no record is returned *)
Definition parse_record (r : log_Reader) (result : bytes) : outcome (log_Reader * Z * bytes) :=
  match buffer_ r !! 4%nat, buffer_ r !! 5%nat, buffer_ r !! 6%nat with
  | Some a, Some b, Some t =>
      let type := type_of_byte t in
      let length := Z.lor (b2z a) (Z.shiftl (b2z b) 8) in
      let drop_size := blen (buffer_ r) in
      if drop_size <? kHeaderSize + length
      then
        let r := with_buffer r [] (eof_ r) in
        if negb (eof_ r) then Done (ReportCorruption r drop_size (text "bad record length"), kBadRecord, result)
        else Done (r, kEof, result)
      else if (type =? record_code kZeroType) && (length =? 0)
      then Done (with_buffer r [] (eof_ r), kBadRecord, result)
      else
        mismatch ← (if checksum_ r
                     then
                       masked ← DecodeFixed32 (buffer_ r);
                       actual_crc ← Value (take (Z.to_nat (1 + length)) (drop 6 (buffer_ r)));
                       Done (negb (actual_crc =? Unmask masked))
                     else Done false);
        if mismatch : bool
        then Done (ReportCorruption (with_buffer r [] (eof_ r)) drop_size (text "checksum mismatch"), kBadRecord, result)
        else
          let header := buffer_ r in
          let r := with_buffer r (drop (Z.to_nat (kHeaderSize + length)) header) (eof_ r) in
          if u64 (end_of_buffer_offset_ r - blen (buffer_ r) - kHeaderSize - length) <? initial_offset_ r
          then Done (r, kBadRecord, [])
          else Done (r, type, take (Z.to_nat length) (drop (Z.to_nat kHeaderSize) header))
  | _, _, _ => Undefined
  end.

(** the [while]: a round that reads a block is followed by one that does not *)
Fixpoint ReadPhysicalRecord_loop (fuel : nat) (r : log_Reader) (result : bytes) : outcome (log_Reader * Z * bytes) :=
  match fuel with
  | O => Hangs
  | S fuel' =>
      if blen (buffer_ r) <? kHeaderSize
      then
        if negb (eof_ r)
        then
          let '(f, b, status) := file_Read (file_ r) kBlockSize in
          let r := with_buffer (with_file r f (u64 (end_of_buffer_offset_ r + blen b))) b (eof_ r) in
          if decide (status = OK)
          then ReadPhysicalRecord_loop fuel' (if blen b <? kBlockSize then with_buffer r b true else r) result
          else
            let r := ReportDrop (with_buffer r [] (eof_ r)) kBlockSize status in
            Done (with_buffer r (buffer_ r) true, kEof, result)
        else Done (with_buffer r [] (eof_ r), kEof, result)
      else parse_record r result
  end.
Definition ReadPhysicalRecord := ReadPhysicalRecord_loop 2.

(** ["%u"]: a [uint32_t] has at most ten digits *)
Fixpoint print_u (fuel : nat) (v : Z) : bytes :=
  match fuel with
  | O => []
  | S fuel' => if v <? 10 then [z2b (48 + v)] else print_u fuel' (v / 10) ++ [z2b (48 + v mod 10)]
  end.

(** the loop of [ReadRecord]: its locals are [in_fragmented_record],
    [prospective_record_offset], [fragment] and the caller's [scratch]; [None]
    when it returns [false] *)
Fixpoint ReadRecord_loop (fuel : nat) (r : log_Reader) (in_fragmented_record : bool)
    (prospective_record_offset : Z) (fragment scratch : bytes) : outcome (log_Reader * option bytes) :=
  match fuel with
  | O => Hangs
  | S fuel' =>
      '(r, record_type, fragment) ← ReadPhysicalRecord r fragment;
      let physical_record_offset :=
        u64 (end_of_buffer_offset_ r - blen (buffer_ r) - kHeaderSize - blen fragment) in
      if resyncing_ r && (record_type =? record_code kMiddleType)
      then ReadRecord_loop fuel' r in_fragmented_record prospective_record_offset fragment scratch
      else if resyncing_ r && (record_type =? record_code kLastType)
      then ReadRecord_loop fuel' (with_resyncing r false) in_fragmented_record prospective_record_offset fragment scratch
      else
        let r := with_resyncing r false in
        let again := ReadRecord_loop fuel' in
        let partial (reason : bytes) :=
          if in_fragmented_record && negb (blen scratch =? 0) then ReportCorruption r (blen scratch) reason else r in
        if record_type =? record_code kFullType then
          Done (with_last (partial (text "partial record without end(1)")) physical_record_offset, Some fragment)
        else if record_type =? record_code kFirstType then
          again (partial (text "partial record without end(2)")) true physical_record_offset fragment fragment
        else if record_type =? record_code kMiddleType then
          if negb in_fragmented_record
          then again (ReportCorruption r (blen fragment) (text "missing start of fragmented record(1)"))
                 in_fragmented_record prospective_record_offset fragment scratch
          else again r in_fragmented_record prospective_record_offset fragment (scratch ++ fragment)
        else if record_type =? record_code kLastType then
          if negb in_fragmented_record
          then again (ReportCorruption r (blen fragment) (text "missing start of fragmented record(2)"))
                 in_fragmented_record prospective_record_offset fragment scratch
          else Done (with_last r prospective_record_offset, Some (scratch ++ fragment))
        else if record_type =? kEof then Done (r, None)
        else if record_type =? kBadRecord then
          if in_fragmented_record
          then again (ReportCorruption r (blen scratch) (text "error in middle of record")) false
                 prospective_record_offset fragment []
          else again r false prospective_record_offset fragment scratch
        else
          again (ReportCorruption r (u64 (blen fragment + (if in_fragmented_record then blen scratch else 0)))
                   (text "unknown record type " ++ print_u 10 record_type)) false prospective_record_offset fragment []
  end.

Definition ReadRecord (fuel : nat) (r : log_Reader) : outcome (log_Reader * option bytes) :=
  if last_record_offset_ r <? initial_offset_ r
  then
    let (r, ok) := SkipToInitialBlock r in
    if ok : bool then ReadRecord_loop fuel r false 0 [] [] else Done (r, None)
  else ReadRecord_loop fuel r false 0 [] [].

Definition LastRecordOffset (r : log_Reader) : Z := last_record_offset_ r.
End reader.
Arguments log_Reader : clear implicits.
