(* ===== verification/LogSpec.v ===== *)
(** * LogSpec: what is written to the log is read back, up to a crash

    [fragments pos begin_ data out]: the bytes [out] are the fragments of
    [data], the first one at offset [pos] of the file.  The writer appends such
    bytes; the reader, on any prefix of the file, returns the records that lie
    wholly in the prefix and reports no corruption. *)

From Stdlib.Strings Require Import Byte.
From S2P Require Import Prelude Status Coding WriteBatch Crc32c Log.

(** what the interfaces of the files promise: a file that takes what it is
    given, and one that is read to its end *)
Class WritableFileOk (F : Type) `{WritableFile F} := {
  written : F -> bytes;
  file_Append_ok : forall f bs, (file_Append f bs).2 = true /\ written (file_Append f bs).1 = written f ++ bs;
  file_Flush_ok : forall f, (file_Flush f).2 = true /\ written (file_Flush f).1 = written f }.

Class SequentialFileOk (F : Type) `{SequentialFile F} := {
  unread : F -> bytes;
  file_Read_ok : forall f n, 0 <= n -> exists f',
    file_Read f n = (f', take (Z.to_nat n) (unread f), OK) /\ unread f' = drop (Z.to_nat n) (unread f) }.

#[export] Instance plain_writable : WritableFile bytes :=
  {| file_Append f bs := (f ++ bs, true); file_Flush f := (f, true) |}.
#[export] Instance plain_writable_ok : WritableFileOk bytes.
Proof. refine {| written f := f |}; done. Defined.
#[export] Instance plain_sequential : SequentialFile bytes :=
  {| file_Read f n := (drop (Z.to_nat n) f, take (Z.to_nat n) f, OK);
     file_Skip f n := (drop (Z.to_nat n) f, OK) |}.
#[export] Instance plain_sequential_ok : SequentialFileOk bytes.
Proof. refine {| unread f := f |}. intros f n _. by eexists. Defined.

(** ** The bytes of a record *)

Definition header_bytes (t : RecordType) (frag : bytes) : bytes :=
  EncodeFixed32 (Mask (crc32c 0 (z2b (record_code t) :: frag))) ++
  [z2b (Z.land (blen frag) 0xff); z2b (Z.shiftr (blen frag) 8); z2b (record_code t)].

(** the bytes left in the block are skipped when they hold no header *)
Definition padding (pos : Z) : Z :=
  let left := kBlockSize - pos mod kBlockSize in if left <? kHeaderSize then left else 0.
Definition available (pos : Z) : Z := kBlockSize - (pos + padding pos) mod kBlockSize - kHeaderSize.

Definition chunk (pos : Z) (t : RecordType) (frag : bytes) : bytes :=
  replicate (Z.to_nat (padding pos)) x00 ++ header_bytes t frag ++ frag.

Inductive fragments : Z -> bool -> bytes -> bytes -> Prop :=
  | fragments_last pos begin_ data :
      blen data <= available pos ->
      fragments pos begin_ data (chunk pos (fragment_type begin_ true) data)
  | fragments_more pos begin_ data out :
      available pos < blen data ->
      fragments (pos + padding pos + kHeaderSize + available pos) false (drop (Z.to_nat (available pos)) data) out ->
      fragments pos begin_ data
        (chunk pos (fragment_type begin_ false) (take (Z.to_nat (available pos)) data) ++ out).

(** the records [rs] behind each other, from offset [pos] on; [ends] are the
    offsets where they end *)
Inductive log_bytes : Z -> list bytes -> list Z -> bytes -> Prop :=
  | log_nil pos : log_bytes pos [] [] []
  | log_cons pos r rs ends out rest :
      fragments pos true r out -> log_bytes (pos + blen out) rs ends rest ->
      log_bytes pos (r :: rs) (pos + blen out :: ends) (out ++ rest).

Lemma blen_header t frag : blen (header_bytes t frag) = kHeaderSize.
Proof. unfold header_bytes. by rewrite blen_app, blen_EncodeFixed32. Qed.

Lemma to_boundary x : (x + (kBlockSize - x mod kBlockSize)) mod kBlockSize = 0.
Proof.
  rewrite Z.add_sub_assoc, Zminus_mod, Z.mod_mod, Zplus_mod, Z_mod_same_full, Z.add_0_r, Z.mod_mod, Z.sub_diag by done.
  done.
Qed.

Lemma padding_cases pos :
  (padding pos = 0 /\ pos mod kBlockSize + kHeaderSize <= kBlockSize /\
     available pos = kBlockSize - pos mod kBlockSize - kHeaderSize) \/
  (padding pos = kBlockSize - pos mod kBlockSize /\ 0 < padding pos < kHeaderSize /\
     (pos + padding pos) mod kBlockSize = 0 /\ available pos = kBlockSize - kHeaderSize).
Proof.
  pose proof (Z.mod_pos_bound pos kBlockSize ltac:(done)) as Hm. unfold available, padding.
  destruct (Z.ltb_spec (kBlockSize - pos mod kBlockSize) kHeaderSize) as [Hl|Hl]; [right|left; rewrite Z.add_0_r; lia].
  rewrite to_boundary. lia.
Qed.

Lemma padding_range pos : 0 <= padding pos < kHeaderSize.
Proof. destruct (padding_cases pos); unfold kHeaderSize in *; lia. Qed.

Lemma available_range pos : 0 <= available pos <= kBlockSize - kHeaderSize.
Proof.
  pose proof (Z.mod_pos_bound pos kBlockSize ltac:(done)). destruct (padding_cases pos); unfold kHeaderSize, kBlockSize in *; lia.
Qed.

(** a fragment that is not the last ends its block *)
Lemma block_end pos : (pos + padding pos + kHeaderSize + available pos) mod kBlockSize = 0.
Proof. unfold available. rewrite <- (to_boundary (pos + padding pos)). f_equal. lia. Qed.

Lemma available_boundary pos : pos mod kBlockSize = 0 -> available pos = kBlockSize - kHeaderSize.
Proof. intros E. destruct (padding_cases pos) as [(_ & _ & ->)|(_ & _ & _ & ->)]; lia. Qed.

Lemma blen_chunk pos t frag : blen (chunk pos t frag) = padding pos + kHeaderSize + blen frag.
Proof.
  unfold chunk. rewrite !blen_app, blen_header. unfold blen. rewrite length_replicate.
  pose proof (padding_range pos). lia.
Qed.

(** ** The writer *)

Section writer.
Context {F : Type} `{WritableFileOk F} `{MachineOk}.
Implicit Types w : log_Writer F.

Definition type_crcs : list Z := map (fun i => crc32c 0 [z2b i]) [0; 1; 2; 3; 4].

(** the writer [w] is at offset [pos]; at a block boundary [block_offset_] may be
    at the block's end *)
Record writer_at w (pos : Z) : Prop := {
  wa_pos : 0 <= pos;
  wa_offset : 0 <= block_offset_ w <= kBlockSize;
  wa_mod : block_offset_ w mod kBlockSize = pos mod kBlockSize;
  wa_crcs : type_crc_ w = type_crcs }.

Lemma InitTypeCrc_spec : InitTypeCrc 5 0 = Done type_crcs.
Proof. cbn [InitTypeCrc]. unfold Value. by rewrite !Extend_spec. Qed.

Lemma make_Writer_at f n : 0 <= n -> exists w, make_Writer f n = Done w /\ dest_ w = f /\ writer_at w n.
Proof.
  intros Hn. unfold make_Writer. change (Z.to_nat (kMaxRecordType + 1)) with 5%nat. rewrite InitTypeCrc_spec.
  eexists. split; [done|]. split; [done|]. pose proof (Z.mod_pos_bound n kBlockSize ltac:(done)).
  split; simpl; [done|lia|by apply Z.mod_mod|done].
Qed.

Lemma EmitPhysicalRecord_spec w pos t frag :
  writer_at w pos -> block_offset_ w + kHeaderSize + blen frag <= kBlockSize ->
  exists w', EmitPhysicalRecord w t frag = Done (w', true) /\
    written (dest_ w') = written (dest_ w) ++ header_bytes t frag ++ frag /\
    writer_at w' (pos + kHeaderSize + blen frag).
Proof.
  intros [Hp Ho Hm Hc] Hb. pose proof (blen_nonneg frag). unfold EmitPhysicalRecord, c_assert.
  replace (blen frag <=? 0xffff) with true by (symmetry; apply Z.leb_le; unfold kBlockSize, kHeaderSize in *; lia).
  rewrite (proj2 (Z.leb_le (block_offset_ w + kHeaderSize + blen frag) kBlockSize)) by done. cbn [mbind outcome_bind].
  assert (type_crc_ w !! Z.to_nat (record_code t) = Some (crc32c 0 [z2b (record_code t)])) as ->
    by (rewrite Hc; by destruct t). cbn [mbind outcome_bind].
  rewrite Extend_spec by by apply crc32c_range. cbn [mbind outcome_bind].
  rewrite <- crc32c_app. cbn [app]. fold (header_bytes t frag).
  destruct (file_Append (dest_ w) (header_bytes t frag)) as [f1 s1] eqn:E1.
  destruct (file_Append_ok (dest_ w) (header_bytes t frag)) as [Hs1 Hw1]. rewrite E1 in Hs1, Hw1. simpl in Hs1, Hw1. subst s1.
  destruct (file_Append f1 frag) as [f2 s2] eqn:E2.
  destruct (file_Append_ok f1 frag) as [Hs2 Hw2]. rewrite E2 in Hs2, Hw2. simpl in Hs2, Hw2. subst s2.
  destruct (file_Flush f2) as [f3 s3] eqn:E3.
  destruct (file_Flush_ok f2) as [Hs3 Hw3]. rewrite E3 in Hs3, Hw3. simpl in Hs3, Hw3. subst s3.
  eexists. split; [done|]. split; [simpl; by rewrite Hw3, Hw2, Hw1, <- app_assoc|].
  unfold kHeaderSize in *. split; simpl; [lia|lia| |done].
  rewrite Zplus_mod, Hm, <- Zplus_mod. f_equal. lia.
Qed.

(** the start of a round: the trailer *)
Definition start_block w : log_Writer F :=
  let leftover := kBlockSize - block_offset_ w in
  if leftover <? kHeaderSize
  then with_dest w (if 0 <? leftover then (file_Append (dest_ w) (replicate (Z.to_nat leftover) x00)).1 else dest_ w) 0
  else w.

Lemma start_block_spec w pos :
  writer_at w pos ->
  writer_at (start_block w) (pos + padding pos) /\
  written (dest_ (start_block w)) = written (dest_ w) ++ replicate (Z.to_nat (padding pos)) x00 /\
  kBlockSize - block_offset_ (start_block w) - kHeaderSize = available pos.
Proof.
  intros [Hp Ho Hm Hc]. unfold start_block. pose proof (Z.mod_pos_bound pos kBlockSize ltac:(done)) as Hr.
  assert (block_offset_ w = pos mod kBlockSize \/ block_offset_ w = kBlockSize /\ pos mod kBlockSize = 0) as [E|[E E']].
  { destruct (decide (block_offset_ w = kBlockSize)) as [E|Hne]; [right|left; rewrite <- Hm; symmetry; apply Z.mod_small; lia].
    split; [done|]. by rewrite <- Hm, E, Z_mod_same_full. }
  - rewrite E. destruct (padding_cases pos) as [(Ep & Hl & Ea)|(Ep & Hl & E0 & Ea)].
    + rewrite (proj2 (Z.ltb_ge _ _)) by lia. rewrite Ep, Ea, Z.add_0_r, app_nil_r, E. by split; [|split].
    + rewrite (proj2 (Z.ltb_lt _ _)), (proj2 (Z.ltb_lt 0 _)) by lia.
      destruct (file_Append_ok (dest_ w) (replicate (Z.to_nat (kBlockSize - pos mod kBlockSize)) x00)) as [_ Hw].
      rewrite Ea, Ep in *. split; [|split; [done|simpl; lia]]. split; simpl; [lia|done|by rewrite E0|done].
  - rewrite E. destruct (padding_cases pos) as [(Ep & Hl & Ea)|(Ep & Hl & _)]; [|unfold kHeaderSize, kBlockSize in *; lia].
    cbn -[Z.modulo kBlockSize kHeaderSize]. rewrite Ep, Ea, E', Z.add_0_r, app_nil_r.
    split; [|by split]. split; simpl; [lia|done|by rewrite E'|done].
Qed.

Lemma AddRecord_loop_spec (fuel : nat) w pos begin_ (data : bytes) :
  writer_at w pos -> (2 * length data + (if decide (available pos = 0%Z) then 1 else 0) < fuel)%nat ->
  exists w' out, AddRecord_loop fuel w data begin_ = Done (w', true) /\ fragments pos begin_ data out /\
    written (dest_ w') = written (dest_ w) ++ out /\ writer_at w' (pos + blen out).
Proof.
  revert w pos begin_ data; induction fuel as [|fuel IH]; intros w pos begin_ data Hw Hf; [lia|].
  cbn [AddRecord_loop]. fold (start_block w). destruct (start_block_spec w pos Hw) as (Hw1 & Ed & Ea).
  pose proof (wa_offset _ _ Hw) as Ho. pose proof (available_range pos) as Har. pose proof (blen_nonneg data).
  unfold c_assert. rewrite (proj2 (Z.leb_le 0 (kBlockSize - block_offset_ w))) by lia. cbn [mbind outcome_bind].
  rewrite Ea, (proj2 (Z.leb_le 0 (available pos))) by lia. cbn [mbind outcome_bind].
  destruct (Z.ltb_spec (blen data) (available pos)) as [Hlt|Hge];
    [|destruct (decide (blen data = available pos)) as [Heq|Hne]].
  1, 2: rewrite (proj2 (Z.eqb_eq (blen data) _)) by lia; rewrite take_ge, drop_ge by (unfold blen in *; lia);
    destruct (EmitPhysicalRecord_spec (start_block w) (pos + padding pos) (fragment_type begin_ true) data Hw1)
      as (w' & -> & Ew & Hw'); [lia|]; cbn [mbind outcome_bind andb];
    exists w', (chunk pos (fragment_type begin_ true) data); split; [done|]; split; [constructor; lia|];
    (split; [rewrite Ew, Ed; unfold chunk; by rewrite <- app_assoc|]);
    rewrite blen_chunk; by replace (pos + (padding pos + kHeaderSize + blen data))
      with (pos + padding pos + kHeaderSize + blen data) by lia.
  rewrite (proj2 (Z.eqb_neq (blen data) _)) by lia.
  assert (Et : blen (take (Z.to_nat (available pos)) data) = available pos) by (unfold blen in *; rewrite length_take; lia).
  destruct (EmitPhysicalRecord_spec (start_block w) (pos + padding pos) (fragment_type begin_ false)
    (take (Z.to_nat (available pos)) data) Hw1) as (w1 & -> & Ew & Hw2); [lia|]. cbn [mbind outcome_bind andb].
  rewrite (proj2 (Z.ltb_lt 0 _)) by (unfold blen in *; rewrite length_drop; lia). rewrite Et in Hw2.
  destruct (IH w1 (pos + padding pos + kHeaderSize + available pos) false (drop (Z.to_nat (available pos)) data) Hw2)
    as (w' & out & -> & Hfr & Ew' & Hw').
  { rewrite length_drop. unfold blen in *. case_decide as Ha0; [|case_decide; lia]. case_decide as Hb1; [exfalso|lia].
    by rewrite (available_boundary _ (block_end pos)) in Hb1. }
  exists w', (chunk pos (fragment_type begin_ false) (take (Z.to_nat (available pos)) data) ++ out).
  split; [done|]. split; [by constructor; [lia|]|].
  split; [rewrite Ew', Ew, Ed; unfold chunk; by rewrite <- !app_assoc|].
  rewrite blen_app, blen_chunk, Et. by replace (pos + (padding pos + kHeaderSize + available pos + blen out))
    with (pos + padding pos + kHeaderSize + available pos + blen out) by lia.
Qed.

Lemma AddRecord_spec w pos data :
  writer_at w pos ->
  exists w' out, AddRecord w data = Done (w', true) /\ fragments pos true data out /\
    written (dest_ w') = written (dest_ w) ++ out /\ writer_at w' (pos + blen out).
Proof. intros Hw. apply AddRecord_loop_spec; [done|]. case_decide; lia. Qed.

Fixpoint add_records (w : log_Writer F) (rs : list bytes) : outcome (log_Writer F) :=
  match rs with
  | [] => Done w
  | r :: rs' => '(w, s) ← AddRecord w r; if (s : bool) then add_records w rs' else Done w
  end.

Lemma add_records_spec rs w pos :
  writer_at w pos ->
  exists w' ends out, add_records w rs = Done w' /\ log_bytes pos rs ends out /\
    written (dest_ w') = written (dest_ w) ++ out /\ writer_at w' (pos + blen out) /\
    forall j wj e, add_records w (take j rs) = Done wj -> (pos :: ends) !! j = Some e ->
      blen (written (dest_ wj)) = blen (written (dest_ w)) + (e - pos).
Proof.
  revert w pos; induction rs as [|r rs IH]; intros w pos Hw.
  { exists w, [], []. rewrite app_nil_r, blen_nil, Z.add_0_r. split; [done|]. split; [constructor|]. do 2 (split; [done|]).
    intros j wj e. rewrite take_nil. intros [= <-] Hj. destruct j; [|done]. injection Hj as <-. lia. }
  destruct (AddRecord_spec w pos r Hw) as (w1 & out & E1 & Hf & Ew1 & Hw1). cbn [add_records]. rewrite E1.
  cbn [mbind outcome_bind]. destruct (IH w1 _ Hw1) as (w' & ends & rest & -> & Hl & Ew' & Hw' & Hj).
  exists w', (pos + blen out :: ends), (out ++ rest). split; [done|]. split; [by constructor|].
  split; [by rewrite Ew', Ew1, app_assoc|]. split; [rewrite blen_app; by rewrite Z.add_assoc|].
  intros [|j] wj e; cbn [take add_records].
  { intros [= <-] [= <-]. lia. }
  rewrite E1. cbn [mbind outcome_bind]. intros E2 He. rewrite (Hj j wj e E2 He), Ew1, blen_app. lia.
Qed.

End writer.

(** ** The reader *)

Section reader.
Context {F : Type} `{SequentialFileOk F} `{MachineOk}.
Implicit Types r : log_Reader F.

(** the reader [r] is at offset [pos], [rest] is what follows in the file: the
    buffer lies in one block, and goes to its end unless the file ends before *)
Record reader_at r (pos : Z) (rest : bytes) (reports : option (list (Z * Status))) : Prop := {
  ra_pos : 0 <= pos /\ pos + blen rest < 2 ^ 64;
  ra_rest : buffer_ r ++ unread (file_ r) = rest;
  ra_end : end_of_buffer_offset_ r = pos + blen (buffer_ r);
  ra_block : exists k, k * kBlockSize <= pos /\ pos + blen (buffer_ r) <= (k + 1) * kBlockSize /\
    (eof_ r = false -> pos + blen (buffer_ r) = (k + 1) * kBlockSize);
  ra_eof : eof_ r = true -> unread (file_ r) = [];
  ra_reports : reporter_ r = reports;
  ra_initial : initial_offset_ r = 0 /\ 0 <= last_record_offset_ r /\ resyncing_ r = false }.

Lemma mod_in_block k pos : k * kBlockSize <= pos < (k + 1) * kBlockSize -> pos mod kBlockSize = pos - k * kBlockSize.
Proof. intros Hp. symmetry. apply (Z.mod_unique _ _ k); lia. Qed.

(** with less than a header in the buffer, the buffer is the block's trailer *)
Lemma short_buffer r pos rest reports :
  reader_at r pos rest reports -> blen (buffer_ r) < kHeaderSize -> eof_ r = false -> blen (buffer_ r) = padding pos.
Proof.
  intros [_ _ _ (k & Hk & Hk' & Hf) _ _ _] Hb He. specialize (Hf He). pose proof (blen_nonneg (buffer_ r)).
  destruct (decide (pos = (k + 1) * kBlockSize)) as [->|Hne].
  - unfold padding. rewrite Z_mod_mult. unfold kBlockSize, kHeaderSize in *. zdecide. lia.
  - unfold padding. rewrite (mod_in_block k) by lia.
    replace (kBlockSize - (pos - k * kBlockSize)) with (blen (buffer_ r)) by lia.
    by rewrite (proj2 (Z.ltb_lt _ _)) by lia.
Qed.

(** a header in the buffer is not behind a trailer *)
Lemma long_buffer r pos rest reports :
  reader_at r pos rest reports -> kHeaderSize <= blen (buffer_ r) ->
  padding pos = 0 /\ (eof_ r = false -> blen (buffer_ r) = available pos + kHeaderSize).
Proof.
  intros [_ _ _ (k & Hk & Hk' & Hf) _ _ _] Hb. unfold kHeaderSize in *.
  pose proof (mod_in_block k pos ltac:(unfold kBlockSize in *; lia)) as E.
  destruct (padding_cases pos) as [(-> & _ & Ea)|(Hp0 & Hp & _)]; [|unfold kBlockSize, kHeaderSize in *; lia].
  split; [done|]. intros He. specialize (Hf He). unfold kHeaderSize in *. lia.
Qed.

Lemma kBlockSize_pos : 0 < kBlockSize.
Proof. done. Qed.

(** the next block *)
Definition next_block r : log_Reader F :=
  match file_Read (file_ r) kBlockSize with
  | (f, b, _) =>
      let r := with_buffer (with_file r f (u64 (end_of_buffer_offset_ r + blen b))) b (eof_ r) in
      if blen b <? kBlockSize then with_buffer r b true else r
  end.

Lemma read_next_block fuel r result :
  blen (buffer_ r) < kHeaderSize -> eof_ r = false ->
  ReadPhysicalRecord_loop (S fuel) r result = ReadPhysicalRecord_loop fuel (next_block r) result.
Proof.
  intros Hb He. cbn [ReadPhysicalRecord_loop]. rewrite (proj2 (Z.ltb_lt _ _) Hb), He. cbn [negb]. unfold next_block.
  destruct (file_Read_ok (file_ r) kBlockSize ltac:(done)) as (f & -> & _). cbv zeta. by rewrite decide_True, He by done.
Qed.

Lemma available_16 pos : available pos < 65536.
Proof. pose proof (available_range pos). unfold kBlockSize, kHeaderSize in *. lia. Qed.

#[local] Opaque kBlockSize.

Lemma next_block_at r pos rest reports :
  reader_at r pos rest reports -> blen (buffer_ r) < kHeaderSize -> eof_ r = false ->
  reader_at (next_block r) (pos + padding pos) (drop (Z.to_nat (padding pos)) rest) reports /\
  buffer_ (next_block r) = take (Z.to_nat kBlockSize) (drop (Z.to_nat (padding pos)) rest) /\
  (eof_ (next_block r) = false -> kBlockSize <= blen (buffer_ (next_block r))).
Proof.
  intros Hr Hb He. pose proof (short_buffer _ _ _ _ Hr Hb He) as Ep.
  destruct Hr as [Hpos Hrest Hend (k & Hk & Hk' & Hf) Heof Hrep (Hi & Hl & Hrs)]. specialize (Hf He).
  assert (Eu : drop (Z.to_nat (padding pos)) rest = unread (file_ r)).
  { rewrite <- Hrest, drop_app_ge, <- Ep by (unfold blen in *; lia). unfold blen. by rewrite Nat2Z.id, Nat.sub_diag. }
  pose proof kBlockSize_pos as HB. rewrite Eu. unfold next_block. destruct (file_Read_ok (file_ r) kBlockSize ltac:(lia)) as (f & -> & Ef).
  set (b := take (Z.to_nat kBlockSize) (unread (file_ r))).
  assert (Hb' : blen b <= kBlockSize /\ blen b <= blen (unread (file_ r))) by (unfold b, blen; rewrite length_take; lia).
  pose proof (blen_nonneg b). pose proof (padding_range pos).
  assert (Ee : u64 (end_of_buffer_offset_ r + blen b) = pos + padding pos + blen b).
  { rewrite Hend, Ep. apply Z.mod_small. rewrite <- Hrest, blen_app in Hpos. lia. }
  assert (Hat : forall e, (e = false -> blen b = kBlockSize) -> (e = true -> blen b < kBlockSize) ->
    reader_at (with_buffer (with_file r f (u64 (end_of_buffer_offset_ r + blen b))) b e) (pos + padding pos) (unread (file_ r)) reports).
  { intros e Hef Het. split; simpl; [rewrite <- Hrest, blen_app in Hpos; lia|unfold b; by rewrite Ef, take_drop|done| | |done|done].
    - exists (k + 1). split; [lia|]. split; [lia|]. intros E. rewrite Hef by done. lia.
    - intros E. specialize (Het E). rewrite Ef. apply drop_ge. unfold b, blen in Het. rewrite length_take in Het.
      lia. }
  destruct (Z.ltb_spec (blen b) kBlockSize) as [Hlt|Hge]; (split; [|split; [done|simpl]]); try done.
  - by apply (Hat true).
  - rewrite He. apply (Hat false); [lia|done].
Qed.

Lemma app_prefix {A} (a b c d : list A) :
  a ++ b = c ++ d -> (length c <= length a)%nat -> exists m, a = c ++ m /\ d = m ++ b.
Proof.
  intros E Hl. exists (drop (length c) a).
  assert (a = c ++ drop (length c) a) as Ea.
  { rewrite <- (take_drop (length c) a) at 1. f_equal.
    apply (f_equal (take (length c))) in E. by rewrite take_app_le, take_app_length in E. }
  split; [done|]. rewrite Ea, <- app_assoc in E. by apply app_inv_head in E.
Qed.

Lemma length_field n :
  0 <= n < 65536 -> Z.lor (b2z (z2b (Z.land n 0xff))) (Z.shiftl (b2z (z2b (Z.shiftr n 8))) 8) = n.
Proof.
  intros Hn. change 0xff with (Z.ones 8). rewrite Z.land_ones, !b2z_z2b, Z.shiftr_div_pow2 by lia.
  change (2 ^ 8) with 256. rewrite Z.mod_mod by lia.
  rewrite (Z.mod_small (n / 256)) by (split; [apply Z.div_pos; lia|apply Z.div_lt_upper_bound; lia]).
  rewrite lor_shiftl_add by (try apply Z.mod_pos_bound; lia). pose proof (Z.div_mod n 256 ltac:(lia)). lia.
Qed.

Lemma type_of_record_code t : type_of_byte (z2b (record_code t)) = record_code t.
Proof. by destruct t. Qed.

(** a header at the start of the buffer *)
Lemma header_fields t frag m :
  let b := header_bytes t frag ++ m in
  b !! 4%nat = Some (z2b (Z.land (blen frag) 0xff)) /\ b !! 5%nat = Some (z2b (Z.shiftr (blen frag) 8)) /\
  b !! 6%nat = Some (z2b (record_code t)) /\ drop 6 b = z2b (record_code t) :: m /\ drop 7 b = m /\
  DecodeFixed32 b = Done (Mask (crc32c 0 (z2b (record_code t) :: frag))).
Proof.
  cbv zeta. unfold header_bytes. rewrite <- app_assoc. do 5 (split; [done|]). apply Fixed32_roundtrip, Mask_range.
Qed.

(** the record fits its block, so it is in the buffer unless the file ends *)
Lemma buffer_reaches r pos rest reports frag :
  reader_at r pos rest reports -> kHeaderSize <= blen (buffer_ r) -> blen frag <= available pos ->
  (eof_ r = true /\ buffer_ r = rest) \/ kHeaderSize + blen frag <= blen (buffer_ r).
Proof.
  intros Hr Hb Hf. destruct (eof_ r) eqn:He.
  - left. split; [done|]. rewrite <- (ra_rest _ _ _ _ Hr), (ra_eof _ _ _ _ Hr He). by rewrite app_nil_r.
  - right. destruct (long_buffer _ _ _ _ Hr Hb) as [_ E]. specialize (E He). lia.
Qed.

Lemma parse_record_spec r pos t frag more reports result :
  reader_at r pos (header_bytes t frag ++ frag ++ more) reports -> kHeaderSize <= blen (buffer_ r) ->
  blen frag <= available pos -> t <> kZeroType ->
  exists r', parse_record r result = Done (r', record_code t, frag) /\
    reader_at r' (pos + kHeaderSize + blen frag) more reports.
Proof.
  intros Hr Hb Hf Ht. pose proof (blen_nonneg frag). pose proof (available_16 pos).
  assert (Hlen : kHeaderSize + blen frag <= blen (buffer_ r)).
  { destruct (buffer_reaches _ _ _ _ _ Hr Hb Hf) as [[_ ->]|]; [|done].
    rewrite !blen_app, blen_header. pose proof (blen_nonneg more). lia. }
  destruct Hr as [Hpos Hrest Hend (k & Hk & Hk' & Hfull) Heof Hrep (Hi & Hl & Hrs)].
  rewrite app_assoc in Hrest. apply app_prefix in Hrest as (m & Eb & ->).
  2: { pose proof (blen_header t frag). unfold blen in *. rewrite length_app. lia. }
  destruct (header_fields t frag (frag ++ m)) as (E4 & E5 & E6 & Ed6 & Ed7 & Ecrc).
  rewrite app_assoc, <- Eb in E4, E5, E6, Ed6, Ed7, Ecrc.
  unfold parse_record. rewrite E4, E5, E6. cbv zeta. rewrite type_of_record_code, length_field by lia.
  rewrite (proj2 (Z.ltb_ge _ _)) by lia.
  assert ((record_code t =? record_code kZeroType) && (blen frag =? 0) = false) as -> by (by destruct t).
  rewrite Ecrc. cbn [mbind outcome_bind]. rewrite Ed6.
  replace (Z.to_nat (1 + blen frag)) with (S (length frag)) by (unfold blen; lia). cbn [take]. rewrite take_app_length.
  unfold Value. rewrite Extend_spec by lia. cbn [mbind outcome_bind].
  rewrite Unmask_Mask, Z.eqb_refl by (by apply crc32c_range). cbn [negb].
  assert ((if checksum_ r then Done false else Done false) = Done false) as -> by by destruct checksum_.
  cbn [mbind outcome_bind]. cbn [end_of_buffer_offset_ buffer_ initial_offset_ with_buffer]. rewrite Hi.
  rewrite (proj2 (Z.ltb_ge _ 0)) by (apply Z.mod_pos_bound; lia).
  change (Z.to_nat kHeaderSize) with 7%nat. rewrite Ed7.
  replace (Z.to_nat (blen frag)) with (length frag) by (unfold blen; lia). rewrite take_app_length.
  eexists. split; [done|].
  assert (Edrop : drop (Z.to_nat (kHeaderSize + blen frag)) (buffer_ r) = m).
  { rewrite Eb. replace (Z.to_nat (kHeaderSize + blen frag)) with (length (header_bytes t frag ++ frag)); [apply drop_app_length|].
    pose proof (blen_header t frag). rewrite length_app. unfold blen in *. lia. }
  assert (Ebl : blen (buffer_ r) = kHeaderSize + blen frag + blen m) by (by rewrite Eb, !blen_app, blen_header).
  rewrite Edrop. rewrite !blen_app, blen_header in Hpos. unfold kHeaderSize in *.
  split; simpl; try done; [rewrite blen_app; lia|lia|].
  exists k. split; [lia|]. split; [lia|]. intros He. specialize (Hfull He). lia.
Qed.

(** a record that the file does not hold to its end: the end of the file, and
    no report *)
Lemma parse_truncated r pos t frag rest x reports result :
  reader_at r pos rest reports -> kHeaderSize <= blen (buffer_ r) -> blen frag <= available pos ->
  header_bytes t frag ++ frag = rest ++ x -> x <> [] ->
  exists r', parse_record r result = Done (r', kEof, result) /\ reporter_ r' = reports.
Proof.
  intros Hr Hb Hf E Hx. pose proof (blen_nonneg frag). pose proof (available_16 pos).
  assert (Hlen : blen rest < kHeaderSize + blen frag).
  { apply (f_equal blen) in E. rewrite !blen_app, blen_header in E. destruct x; [done|]. rewrite blen_cons in E.
    pose proof (blen_nonneg x). lia. }
  destruct (buffer_reaches _ _ _ _ _ Hr Hb Hf) as [[He Ebuf]|Hlong].
  2: { pose proof (ra_rest _ _ _ _ Hr) as Er. apply (f_equal blen) in Er. rewrite blen_app in Er.
       pose proof (blen_nonneg (unread (file_ r))). lia. }
  destruct (app_prefix _ _ _ _ (eq_sym E)) as (m & Em & _).
  { rewrite <- Ebuf. pose proof (blen_header t frag). unfold blen in *. lia. }
  destruct (header_fields t frag m) as (E4 & E5 & E6 & _). rewrite <- Em, <- Ebuf in E4, E5, E6.
  unfold parse_record. rewrite E4, E5, E6. cbv zeta. rewrite length_field by lia.
  rewrite (proj2 (Z.ltb_lt _ _)) by (rewrite Ebuf; lia). cbn [eof_ with_buffer]. rewrite He. cbn [negb].
  eexists. split; [done|]. apply Hr.
Qed.

Lemma read_parse fuel r result :
  kHeaderSize <= blen (buffer_ r) -> ReadPhysicalRecord_loop (S fuel) r result = parse_record r result.
Proof. intros Hb. cbn [ReadPhysicalRecord_loop]. by rewrite (proj2 (Z.ltb_ge _ _) Hb). Qed.

Lemma drop_padding pos t frag more :
  drop (Z.to_nat (padding pos)) (chunk pos t frag ++ more) = header_bytes t frag ++ frag ++ more.
Proof.
  unfold chunk. rewrite <- !app_assoc. rewrite drop_app_ge by (by rewrite length_replicate).
  by rewrite length_replicate, Nat.sub_diag.
Qed.

Lemma padding_padded pos : padding (pos + padding pos) = 0 /\ available (pos + padding pos) = available pos.
Proof.
  pose proof kBlockSize_pos. assert (kHeaderSize < kBlockSize) by done.
  destruct (padding_cases pos) as [(E & Hl & Ea)|(E & Hl & Em & Ea)].
  - rewrite E, Z.add_0_r. done.
  - destruct (padding_cases (pos + padding pos)) as [(E' & _ & ->)|(E' & Hl' & _)]; lia.
Qed.

Lemma read_chunk r pos t frag more reports result :
  reader_at r pos (chunk pos t frag ++ more) reports -> blen frag <= available pos -> t <> kZeroType ->
  exists r', ReadPhysicalRecord r result = Done (r', record_code t, frag) /\
    reader_at r' (pos + blen (chunk pos t frag)) more reports.
Proof.
  intros Hr Hf Ht. unfold ReadPhysicalRecord. rewrite blen_chunk.
  destruct (padding_padded pos) as [_ Eav].
  destruct (Z.ltb_spec (blen (buffer_ r)) kHeaderSize) as [Hb|Hb].
  - destruct (eof_ r) eqn:He.
    { exfalso. pose proof (ra_rest _ _ _ _ Hr) as Er. rewrite (ra_eof _ _ _ _ Hr He), app_nil_r in Er.
      apply (f_equal blen) in Er. rewrite blen_app, blen_chunk in Er. pose proof (padding_range pos).
      pose proof (blen_nonneg frag). pose proof (blen_nonneg more). lia. }
    rewrite (read_next_block 1) by done. destruct (next_block_at _ _ _ _ Hr Hb He) as (Hr1 & Eb & _).
    rewrite drop_padding in Hr1, Eb.
    assert (Hb1 : kHeaderSize <= blen (buffer_ (next_block r))).
    { rewrite Eb. pose proof (blen_header t frag) as Eh. unfold blen in *. rewrite length_take, !length_app.
      assert (kHeaderSize <= kBlockSize) by done. lia. }
    rewrite read_parse by done.
    destruct (parse_record_spec _ _ t frag more reports result Hr1 Hb1) as (r' & -> & Hr'); [lia|done|].
    exists r'. split; [done|]. by replace (pos + (padding pos + kHeaderSize + blen frag))
      with (pos + padding pos + kHeaderSize + blen frag) by lia.
  - destruct (long_buffer _ _ _ _ Hr Hb) as [Ep _]. rewrite read_parse by done.
    pose proof (drop_padding pos t frag more) as Ed. rewrite Ep in Ed. change (Z.to_nat 0) with 0%nat in Ed.
    rewrite drop_0 in Ed. rewrite Ed in Hr.
    destruct (parse_record_spec _ _ t frag more reports result Hr Hb Hf Ht) as (r' & -> & Hr').
    exists r'. split; [done|]. rewrite Ep. by replace (pos + (0 + kHeaderSize + blen frag)) with (pos + kHeaderSize + blen frag) by lia.
Qed.

Lemma read_truncated r pos t frag rest x reports result :
  reader_at r pos rest reports -> blen frag <= available pos -> chunk pos t frag = rest ++ x -> x <> [] ->
  exists r', ReadPhysicalRecord r result = Done (r', kEof, result) /\ reporter_ r' = reports.
Proof.
  intros Hr Hf E Hx. unfold ReadPhysicalRecord. pose proof (padding_range pos).
  destruct (padding_padded pos) as [_ Eav].
  assert (Htail : (length (replicate (Z.to_nat (padding pos)) x00) <= length rest)%nat ->
    header_bytes t frag ++ frag = drop (Z.to_nat (padding pos)) rest ++ x).
  { intros Hl. unfold chunk in E. destruct (app_prefix _ _ _ _ (eq_sym E) Hl) as (m & -> & ->).
    by rewrite drop_app_ge, length_replicate, Nat.sub_diag, drop_0 by (by rewrite length_replicate). }
  destruct (Z.ltb_spec (blen (buffer_ r)) kHeaderSize) as [Hb|Hb].
  - destruct (eof_ r) eqn:He.
    { cbn [ReadPhysicalRecord_loop]. rewrite (proj2 (Z.ltb_lt _ _) Hb), He. cbn [negb]. eexists. split; [done|]. apply Hr. }
    pose proof (short_buffer _ _ _ _ Hr Hb He) as Ep.
    rewrite (read_next_block 1) by done. destruct (next_block_at _ _ _ _ Hr Hb He) as (Hr1 & Eb & Hfull).
    destruct (Z.ltb_spec (blen (buffer_ (next_block r))) kHeaderSize) as [Hb1|Hb1].
    + assert (eof_ (next_block r) = true) as He1.
      { destruct (eof_ (next_block r)); [done|]. specialize (Hfull eq_refl). assert (kHeaderSize <= kBlockSize) by done. lia. }
      cbn [ReadPhysicalRecord_loop]. rewrite (proj2 (Z.ltb_lt _ _) Hb1), He1. cbn [negb]. eexists. split; [done|]. apply Hr1.
    + rewrite read_parse by done. apply (parse_truncated _ _ t frag _ x reports result Hr1 Hb1); [lia| |done].
      apply Htail. rewrite length_replicate. pose proof (ra_rest _ _ _ _ Hr) as Er. apply (f_equal length) in Er.
      rewrite length_app in Er. unfold blen in Ep. lia.
  - destruct (long_buffer _ _ _ _ Hr Hb) as [Ep _]. rewrite read_parse by done.
    apply (parse_truncated _ _ t frag _ x reports result Hr Hb Hf); [|done].
    rewrite Ep in Htail. apply Htail. simpl. lia.
Qed.

(** *** Whole records *)

Lemma with_resyncing_id r : resyncing_ r = false -> with_resyncing r false = r.
Proof. destruct r; simpl. by intros ->. Qed.

Lemma reader_at_last r pos rest reports o :
  reader_at r pos rest reports -> 0 <= o -> reader_at (with_last r o) pos rest reports.
Proof. intros [? ? ? ? ? ? (? & ? & ?)] Ho. by split. Qed.

(** a round of [ReadRecord] that got a record: what it does with it *)
Lemma ReadRecord_round fuel r r1 begin_ end_ pro frag f scratch :
  ReadPhysicalRecord r frag = Done (r1, record_code (fragment_type begin_ end_), f) -> resyncing_ r1 = false ->
  (begin_ = true -> scratch = []) ->
  let offset := u64 (end_of_buffer_offset_ r1 - blen (buffer_ r1) - kHeaderSize - blen f) in
  let pro' := if begin_ : bool then offset else pro in
  ReadRecord_loop (S fuel) r (negb begin_) pro frag scratch =
    if end_ : bool then Done (with_last r1 pro', Some (scratch ++ f))
    else ReadRecord_loop fuel r1 true pro' f (scratch ++ f).
Proof.
  intros E Hrs Hs. cbv zeta. cbn [ReadRecord_loop]. rewrite E. cbn [mbind outcome_bind]. rewrite Hrs. cbn [andb].
  rewrite with_resyncing_id by done.
  destruct begin_, end_; try rewrite Hs by done; cbn [negb andb fragment_type Z.eqb app]; try rewrite app_nil_l; reflexivity.
Qed.

Lemma ReadRecord_loop_spec pos begin_ data out :
  fragments pos begin_ data out ->
  forall fuel r more pro frag scratch reports,
  reader_at r pos (out ++ more) reports -> (length out < fuel)%nat -> 0 <= pro -> (begin_ = true -> scratch = []) ->
  exists r', ReadRecord_loop fuel r (negb begin_) pro frag scratch = Done (r', Some (scratch ++ data)) /\
    reader_at r' (pos + blen out) more reports.
Proof.
  induction 1 as [pos begin_ data Ha|pos begin_ data out Ha Hfr IH]; intros fuel r more pro frag scratch reports Hr Hfu Hp Hs.
  - destruct fuel as [|fuel]; [lia|].
    destruct (read_chunk r pos _ data more reports frag Hr Ha) as (r1 & E & Hr1); [by destruct begin_|].
    pose proof (ra_initial _ _ _ _ Hr1) as (_ & _ & Hrs). rewrite (ReadRecord_round _ _ _ _ _ _ _ _ _ E Hrs Hs).
    eexists. split; [done|]. apply reader_at_last; [done|]. destruct begin_; [apply Z.mod_pos_bound; lia|done].
  - destruct fuel as [|fuel]; [lia|]. rewrite <- app_assoc in Hr.
    assert (Et : blen (take (Z.to_nat (available pos)) data) = available pos).
    { pose proof (available_range pos). unfold blen in *. rewrite length_take. lia. }
    destruct (read_chunk r pos _ (take (Z.to_nat (available pos)) data) (out ++ more) reports frag Hr)
      as (r1 & E & Hr1); [lia|by destruct begin_|].
    pose proof (ra_initial _ _ _ _ Hr1) as (_ & _ & Hrs). rewrite (ReadRecord_round _ _ _ _ _ _ _ _ _ E Hrs Hs).
    rewrite blen_chunk, Et in Hr1.
    replace (pos + (padding pos + kHeaderSize + available pos)) with (pos + padding pos + kHeaderSize + available pos) in Hr1 by lia.
    set (pro' := if begin_ then _ else pro). assert (Hp' : 0 <= pro') by (unfold pro'; destruct begin_; [apply Z.mod_pos_bound; lia|done]).
    destruct (IH fuel r1 more pro' (take (Z.to_nat (available pos)) data) (scratch ++ take (Z.to_nat (available pos)) data)
      reports Hr1) as (r' & E' & Hr'); [|done|done|].
    { pose proof (blen_chunk pos (fragment_type begin_ false) (take (Z.to_nat (available pos)) data)) as Ec.
      pose proof (padding_range pos). pose proof (available_range pos).
      rewrite length_app in Hfu. unfold blen, kHeaderSize in *. lia. }
    exists r'. cbn [negb] in E'. rewrite E', <- app_assoc, take_drop. split; [done|]. rewrite blen_app, blen_chunk, Et.
    by replace (pos + (padding pos + kHeaderSize + available pos + blen out))
      with (pos + padding pos + kHeaderSize + available pos + blen out) by lia.
Qed.

Lemma ReadRecord_loop_truncated pos begin_ data out :
  fragments pos begin_ data out ->
  forall fuel r rest x pro frag scratch reports,
  reader_at r pos rest reports -> out = rest ++ x -> x <> [] -> (length rest < fuel)%nat -> 0 <= pro ->
  (begin_ = true -> scratch = []) ->
  exists r', ReadRecord_loop fuel r (negb begin_) pro frag scratch = Done (r', None) /\ reporter_ r' = reports.
Proof.
  assert (Htrunc : forall fuel r pos t f rest x pro frag scratch reports b,
    reader_at r pos rest reports -> blen f <= available pos -> chunk pos t f = rest ++ x -> x <> [] ->
    exists r', ReadRecord_loop (S fuel) r b pro frag scratch = Done (r', None) /\ reporter_ r' = reports).
  { intros fuel r pos' t f rest x pro frag scratch reports b Hr Hf E Hx.
    destruct (read_truncated r pos' t f rest x reports frag Hr Hf E Hx) as (r' & E' & Hrep).
    cbn [ReadRecord_loop]. rewrite E'. cbn [mbind outcome_bind]. rewrite !andb_false_r.
    eexists. split; [reflexivity|done]. }
  induction 1 as [pos begin_ data Ha|pos begin_ data out Ha Hfr IH];
    intros fuel r rest x pro frag scratch reports Hr E Hx Hfu Hp Hs; (destruct fuel as [|fuel]; [lia|]).
  { by apply (Htrunc fuel r pos (fragment_type begin_ true) data rest x). }
  assert (Et : blen (take (Z.to_nat (available pos)) data) = available pos).
  { pose proof (available_range pos). unfold blen in *. rewrite length_take. lia. }
  set (c := chunk pos (fragment_type begin_ false) (take (Z.to_nat (available pos)) data)) in *.
  destruct (decide (length c <= length rest)%nat) as [Hl|Hl].
  - destruct (app_prefix _ _ _ _ (eq_sym E) Hl) as (m & -> & Em).
    destruct (read_chunk r pos _ (take (Z.to_nat (available pos)) data) m reports frag Hr) as (r1 & E1 & Hr1);
      [lia|by destruct begin_|].
    pose proof (ra_initial _ _ _ _ Hr1) as (_ & _ & Hrs). rewrite (ReadRecord_round _ _ _ _ _ _ _ _ _ E1 Hrs Hs).
    rewrite blen_chunk, Et in Hr1.
    replace (pos + (padding pos + kHeaderSize + available pos)) with (pos + padding pos + kHeaderSize + available pos) in Hr1 by lia.
    set (pro' := if begin_ then _ else pro). assert (Hp' : 0 <= pro') by (unfold pro'; destruct begin_; [apply Z.mod_pos_bound; lia|done]).
    apply (IH fuel r1 m x pro' _ _ reports Hr1 Em Hx); [|done|done].
    pose proof (blen_chunk pos (fragment_type begin_ false) (take (Z.to_nat (available pos)) data)) as Ec. fold c in Ec.
    pose proof (padding_range pos). pose proof (available_range pos).
    rewrite length_app in Hfu. unfold blen, kHeaderSize in *. lia.
  - destruct (app_prefix c out rest x E) as (m & Em & _); [lia|].
    apply (Htrunc fuel r pos (fragment_type begin_ false) (take (Z.to_nat (available pos)) data) rest m);
      [done|lia|done|]. intros ->. rewrite app_nil_r in Em. subst rest. lia.
Qed.

(** *** The whole log *)

(** [ReadRecord] until it returns [false], [n] calls at most *)
Fixpoint read_records (fuel n : nat) (r : log_Reader F) : outcome (log_Reader F * list bytes) :=
  match n with
  | O => Hangs
  | S n' =>
      '(r, record) ← ReadRecord fuel r;
      match record with
      | None => Done (r, [])
      | Some b => '(r, bs) ← read_records fuel n' r; Done (r, b :: bs)
      end
  end.

Lemma ReadRecord_start fuel r pos rest reports :
  reader_at r pos rest reports -> ReadRecord fuel r = ReadRecord_loop fuel r (negb true) 0 [] [].
Proof.
  intros Hr. destruct (ra_initial _ _ _ _ Hr) as (Ei & Hl & _). unfold ReadRecord. rewrite Ei.
  by rewrite (proj2 (Z.ltb_ge _ _)) by lia.
Qed.

Lemma log_bytes_length pos rs ends out : log_bytes pos rs ends out -> length ends = length rs.
Proof. induction 1; simpl; congruence. Qed.

Lemma log_bytes_ends pos rs ends out e : log_bytes pos rs ends out -> e ∈ ends -> pos <= e.
Proof.
  induction 1 as [|pos r rs ends out rest Hf Hl IH]; [by intros ?%not_elem_of_nil|].
  pose proof (blen_nonneg out). rewrite elem_of_cons. intros [->|He]; [lia|]. specialize (IH He). lia.
Qed.

(** at the end of the log, and at a record of it, of which the file holds the
    first [n] bytes *)
Lemma ReadRecord_nil fuel r pos reports :
  reader_at r pos [] reports -> (0 < fuel)%nat ->
  exists r', ReadRecord fuel r = Done (r', None) /\ reporter_ r' = reports.
Proof.
  intros Hr Hfu. rewrite (ReadRecord_start _ _ _ _ _ Hr). pose proof (available_range pos).
  apply (ReadRecord_loop_truncated pos true [] _ (fragments_last pos true [] ltac:(rewrite blen_nil; lia))
    fuel r [] _ 0 [] [] reports Hr eq_refl); [|simpl; lia|lia|done].
  unfold chunk. intros E. apply (f_equal blen) in E. rewrite !blen_app, blen_header, blen_nil in E.
  pose proof (blen_nonneg (replicate (Z.to_nat (padding pos)) x00)). unfold kHeaderSize in E. lia.
Qed.

Lemma ReadRecord_cons fuel r pos d out rest n reports :
  fragments pos true d out -> reader_at r pos (take n (out ++ rest)) reports ->
  (length (take n (out ++ rest)) < fuel)%nat ->
  exists r', reporter_ r' = reports /\
    if decide (length out <= n)%nat
    then ReadRecord fuel r = Done (r', Some d) /\ reader_at r' (pos + blen out) (take (n - length out) rest) reports /\
      (length (take (n - length out) rest) < fuel)%nat
    else ReadRecord fuel r = Done (r', None).
Proof.
  intros Hf Hr Hfu. rewrite (ReadRecord_start _ _ _ _ _ Hr). case_decide as Hn.
  - rewrite take_app_ge in Hr, Hfu by done. rewrite length_app in Hfu.
    destruct (ReadRecord_loop_spec pos true d out Hf fuel r (take (n - length out) rest) 0 [] [] reports Hr)
      as (r1 & E & Hr1); [lia|lia|done|]. exists r1. split; [apply Hr1|]. split; [done|]. split; [done|lia].
  - rewrite take_app_le in Hr, Hfu by lia.
    destruct (ReadRecord_loop_truncated pos true d out Hf fuel r (take n out) (drop n out) 0 [] [] reports Hr)
      as (r' & E & Hrep); [by rewrite take_drop| |lia|lia|done|by exists r'].
    intros E. apply (f_equal length) in E. rewrite length_drop in E. simpl in E. lia.
Qed.

(** how many records a prefix of [n] bytes holds *)
Definition whole_records (pos : Z) (ends : list Z) (n k : nat) : Prop :=
  (k <= length ends)%nat /\ forall j e, ends !! j = Some e -> (e <= pos + Z.of_nat n <-> (j < k)%nat).

Lemma whole_records_nil pos n : whole_records pos [] n 0.
Proof. by split. Qed.

Lemma whole_records_cons pos d out rs ends rest n k :
  fragments pos true d out -> log_bytes (pos + blen out) rs ends rest ->
  (if decide (length out <= n)%nat then exists k', k = S k' /\ whole_records (pos + blen out) ends (n - length out) k' else k = 0%nat) ->
  whole_records pos (pos + blen out :: ends) n k.
Proof.
  intros Hf Hl. case_decide as Hn.
  - intros (k' & -> & Hk & Hends). split; [simpl; lia|]. intros [|j] e; cbn [lookup list_lookup].
    { intros [= <-]. unfold blen. lia. }
    intros He. rewrite <- Nat.succ_lt_mono, <- (Hends j e He). unfold blen. lia.
  - intros ->. split; [simpl; lia|]. intros j e He. split; [|lia]. intros Hle. exfalso.
    assert (pos + blen out <= e).
    { apply list_elem_of_lookup_2, elem_of_cons in He as [->|He]; [lia|]. by apply (log_bytes_ends _ _ _ _ _ Hl). }
    unfold blen in *. lia.
Qed.

Lemma read_prefix pos rs ends out :
  log_bytes pos rs ends out ->
  forall fuel r n reports, reader_at r pos (take n out) reports -> (length (take n out) < fuel)%nat ->
  exists k r', read_records fuel (S (length rs)) r = Done (r', take k rs) /\ reporter_ r' = reports /\
    whole_records pos ends n k.
Proof.
  induction 1 as [pos|pos d rs ends out rest Hf Hl IH]; intros fuel r n reports Hr Hfu.
  - rewrite take_nil in Hr. destruct (ReadRecord_nil fuel r pos reports Hr) as (r' & E & Hrep); [lia|].
    exists 0%nat, r'. cbn [read_records length]. rewrite E. split; [done|]. split; [done|apply whole_records_nil].
  - destruct (ReadRecord_cons fuel r pos d out rest n reports Hf Hr Hfu) as (r1 & Hrep & Hread).
    pose proof (fun k => whole_records_cons pos d out rs ends rest n k Hf Hl) as Hwhole.
    destruct (decide (length out <= n)%nat) as [Hn|Hn].
    + destruct Hread as (E & Hr1 & Hfu1).
      destruct (IH fuel r1 (n - length out)%nat reports Hr1 Hfu1) as (k & r' & Ek & Hrep' & Hk).
      exists (S k), r'. cbn [read_records]. rewrite E. cbn [mbind outcome_bind]. cbn [length]. rewrite Ek.
      split; [done|]. split; [done|]. apply Hwhole. by exists k.
    + exists 0%nat, r1. cbn [read_records]. rewrite Hread. split; [done|]. split; [done|]. by apply Hwhole.
Qed.

Lemma make_Reader_at (f : F) reports checksum :
  blen (unread f) < 2 ^ 64 -> reader_at (make_Reader f reports checksum 0) 0 (unread f) reports.
Proof.
  intros Hf. split; simpl; try done. exists (-1). rewrite blen_nil. pose proof kBlockSize_pos. lia.
Qed.
End reader.

Section crash.
Context {F G : Type} `{WritableFileOk F} `{SequentialFileOk G} `{MachineOk}.

(** the records a prefix holds, by what was written when they were added *)
Lemma whole_records_written (w : log_Writer F) rs ends out n k :
  written (dest_ w) = [] -> log_bytes 0 rs ends out ->
  (forall j wj e, add_records w (take j rs) = Done wj -> (0 :: ends) !! j = Some e ->
     blen (written (dest_ wj)) = blen (written (dest_ w)) + (e - 0)) ->
  whole_records 0 ends n k ->
  (k <= length rs)%nat /\ forall j wj, (j <= length rs)%nat -> add_records w (take j rs) = Done wj ->
    (blen (written (dest_ wj)) <= Z.of_nat n <-> (j <= k)%nat).
Proof.
  intros Hw Hl Hj [Hk Hends]. rewrite (log_bytes_length _ _ _ _ Hl) in Hk. split; [done|]. intros j wj Hjl Ej.
  destruct j as [|j].
  { rewrite take_0 in Ej. injection Ej as <-. rewrite Hw, blen_nil. lia. }
  destruct (lookup_lt_is_Some_2 ends j) as [e He]; [by rewrite (log_bytes_length _ _ _ _ Hl)|].
  rewrite (Hj (S j) wj e Ej He), Hw, blen_nil, Z.sub_0_r, !Z.add_0_l. rewrite <- (Z.add_0_l (Z.of_nat n)).
  rewrite (Hends j e He). lia.
Qed.

(** C15: records written to an empty log are read back in order; and when a
    crash leaves only the first [n] bytes of the file, the reader returns
    exactly the records that were wholly in those bytes and reports no
    corruption, whatever the fragments the crash cut. *)
Theorem log_survives_crash (f : F) (rs : list bytes) (n : nat) reports checksum :
  written f = [] ->
  exists w w', make_Writer f 0 = Done w /\ add_records w rs = Done w' /\
    forall (g : G) (fuel : nat),
    unread g = take n (written (dest_ w')) -> blen (unread g) < 2 ^ 64 -> (length (unread g) < fuel)%nat ->
    exists k r', read_records fuel (S (length rs)) (make_Reader g reports checksum 0) = Done (r', take k rs) /\
      reporter_ r' = reports /\ (k <= length rs)%nat /\
      forall j wj, (j <= length rs)%nat -> add_records w (take j rs) = Done wj ->
        (blen (written (dest_ wj)) <= Z.of_nat n <-> (j <= k)%nat).
Proof.
  intros Hf. destruct (make_Writer_at f 0) as (w & Ew & Ed & Hw); [lia|].
  destruct (add_records_spec rs w 0 Hw) as (w' & ends & out & Ew' & Hl & Eo & _ & Hj).
  exists w, w'. split; [done|]. split; [done|]. intros g fuel Eg Hg Hfu.
  rewrite Eo, Ed, Hf, app_nil_l in Eg.
  pose proof (make_Reader_at g reports checksum Hg) as Hr. rewrite Eg in Hr, Hfu.
  destruct (read_prefix 0 rs ends out Hl fuel _ n reports Hr Hfu) as (k & r' & Er & Hrep & Hwhole).
  exists k, r'. split; [done|]. split; [done|]. apply (whole_records_written w rs ends out); [by rewrite Ed|done..].
Qed.
End crash.

(** ** Runs *)

#[local] Transparent kBlockSize.

Definition example_records : list bytes :=
  [text "first"; []; replicate 40 "a"%byte; text "the last one"].

Lemma log_survives_crash_witness :
  exists w w', @make_Writer _ plain_machine ([] : bytes) 0 = Done w /\ @add_records _ _ plain_machine w example_records = Done w' /\
    forall (g : bytes) (fuel : nat),
    unread g = take 75 (written (dest_ w')) -> blen (unread g) < 2 ^ 64 -> (length (unread g) < fuel)%nat ->
    exists k r', @read_records _ _ plain_machine fuel 5 (make_Reader g (Some []) true 0) = Done (r', take k example_records) /\
      reporter_ r' = Some [] /\ (k <= 4)%nat /\
      forall j wj, (j <= 4)%nat -> @add_records _ _ plain_machine w (take j example_records) = Done wj ->
        (blen (written (dest_ wj)) <= 75 <-> (j <= k)%nat).
Proof.
  apply (@log_survives_crash bytes bytes plain_writable plain_writable_ok plain_sequential plain_sequential_ok
    plain_machine plain_machine_ok [] example_records 75 (Some []) true). reflexivity.
Defined.

(** the bytes of a log with the given records, and what is read from bytes *)
Definition written_log (rs : list bytes) : outcome bytes :=
  w ← @make_Writer bytes plain_machine [] 0;
  w ← @add_records _ _ plain_machine w rs;
  Done (dest_ w).
Definition read_log (file : bytes) : outcome (list bytes * option (list (Z * Status))) :=
  '(r, bs) ← @read_records _ _ plain_machine 2000 100 (make_Reader file (Some []) true 0);
  Done (bs, reporter_ r).

(** the prefix of the witness holds three records *)
Example example_log_prefix :
  (f ← written_log example_records; read_log (take 75 f)) = Done (take 3 example_records, Some []).
Proof. vm_compute. reflexivity. Qed.

(** A log that a crash cut inside a record is not fit for reuse: a writer that
    goes on at the file's end, as [RecoverLogFile] makes one when [reuse_logs]
    is set, appends records that the next recovery takes for the rest of the
    cut one.  The checksum fails, and the block's rest is dropped. *)
Example reused_log_loses_records :
  (let a := replicate 100 "a"%byte in let b := replicate 100 "b"%byte in let c := replicate 200 "c"%byte in
   f ← written_log [a; b];
   before ← read_log (take 150 f);
   w ← @make_Writer bytes plain_machine (take 150 f) 150;
   '(w, ok) ← @AddRecord _ _ plain_machine w c;
   after ← read_log (dest_ w);
   Done (before, ok, after)) =
  Done ([replicate 100 "a"%byte], Some [], true,
        ([replicate 100 "a"%byte], Some [(250, Corruption (text "checksum mismatch"))])).
Proof. vm_compute. reflexivity. Qed.
