(* ===== verification/Recovery.v ===== *)
(** * Recovery: leveldb's DBImpl::RecoverLogFile, and crashes

    Recovery reads the log and inserts its batches into a fresh memtable.  The
    file system is left to arguments: the log file (or the status of opening
    it), whether a memtable can be stored as a table, and the file to append to
    when the log is reused.  The theorem composes the write path (LevelStore),
    the log (LogSpec) and this file: after a crash the database is the one some
    of the first writes left, and no write whose record reached the file whole
    is lost. *)

From Stdlib.Strings Require Import Byte.
From S2P Require Import Prelude DBType Status Coding DbFormat WriteBatch SkipList SkipListSpec MemTable LevelStore Crc32c Log LogSpec.

Section recover.
Context {F G : Type} `{WritableFile F} `{SequentialFile G} `{Machine}.
(** [options_.paranoid_checks], [options_.reuse_logs];
    [ApproximateMemoryUsage() <= write_buffer_size]; [WriteLevel0Table] *)
Variable paranoid_checks reuse_logs : bool.
Variable has_room : MemTable -> bool.
Variable WriteLevel0Table : MemTable -> Status.

Definition MaybeIgnoreError (s : Status) : Status :=
  if decide (s = OK) then s else if paranoid_checks then s else OK.

(** the locals of [RecoverLogFile] and what it is passed to change; [tables] are
    the memtables stored *)
Record recovering := {
  status : Status; mem : option MemTable; max_sequence : Z; save_manifest : bool; compactions : Z;
  tables : list MemTable }.

Definition with_status (s : recovering) (st : Status) : recovering :=
  {| status := st; mem := mem s; max_sequence := max_sequence s; save_manifest := save_manifest s;
     compactions := compactions s; tables := tables s |}.

(** [WriteLevel0Table] of a memtable, which is then released *)
Definition compact (s : recovering) (m : MemTable) (n : Z) : recovering :=
  let st := WriteLevel0Table m in
  {| status := st; mem := None; max_sequence := max_sequence s; save_manifest := true;
     compactions := n; tables := if decide (st = OK) then tables s ++ [m] else tables s |}.

(** [LogReporter::Corruption]: the first report is kept when the status is not
    null *)
Definition reported (s : recovering) (reports : list (Z * Status)) : recovering :=
  if paranoid_checks
  then match status s, reports with OK, (_, st) :: _ => with_status s st | _, _ => s end
  else s.

(** one record: the batch goes to the memtable *)
Definition recover_record (s : recovering) (record : bytes) : outcome recovering :=
  let batch := record in
  let m := match mem s with Some m => m | None => make_MemTable end in
  '(m, st) ← InsertInto batch m;
  let s := {| status := MaybeIgnoreError st; mem := Some m; max_sequence := max_sequence s;
              save_manifest := save_manifest s; compactions := compactions s; tables := tables s |} in
  if decide (status s = OK) then
    sequence ← Sequence batch;
    count ← Count batch;
    let last_seq := u64 (sequence + count - 1) in
    let s := {| status := status s; mem := mem s;
                max_sequence := if max_sequence s <? last_seq then last_seq else max_sequence s;
                save_manifest := save_manifest s; compactions := compactions s; tables := tables s |} in
    Done (if negb (has_room m) then compact s m (compactions s + 1) else s)
  else Done s.

(** the loop, for [n] calls of [ReadRecord] at most *)
Fixpoint RecoverLogFile_loop (fuel n : nat) (reader : log_Reader G) (s : recovering) : outcome recovering :=
  match n with
  | O => Hangs
  | S n' =>
      '(reader, record) ← ReadRecord fuel reader;
      let s := reported s (default [] (reporter_ reader)) in
      match record with
      | Some record =>
          if decide (status s = OK) then
            if blen record <? 12
            then RecoverLogFile_loop fuel n' reader
                   (reported s [(blen record, Corruption (text "log record too small"))])
            else
              s ← recover_record s record;
              if decide (status s = OK) then RecoverLogFile_loop fuel n' reader s else Done s
          else Done s
      | None => Done s
      end
  end.

(** what recovery leaves: its locals, and [mem_] and [log_] when the log is
    reused *)
Record recovered := { final : recovering; new_mem : option MemTable; new_log : option (log_Writer F) }.

(** [NewSequentialFile], then the loop, then what to do with the last memtable;
    [appendable] is the file of [NewAppendableFile] and its size *)
Definition RecoverLogFile (fuel n : nat) (file : Status + G) (appendable : option (F * Z)) (last_log : bool)
    (max_seq : Z) (save : bool) : outcome recovered :=
  let start st := {| status := st; mem := None; max_sequence := max_seq; save_manifest := save;
                     compactions := 0; tables := [] |} in
  match file with
  | inl st => Done {| final := start (MaybeIgnoreError st); new_mem := None; new_log := None |}
  | inr f =>
      s ← RecoverLogFile_loop fuel n (make_Reader f (Some []) true 0) (start OK);
      let reuse := bool_decide (status s = OK) && reuse_logs && last_log && (compactions s =? 0) in
      match (if reuse then appendable else None) with
      | Some (lf, lfile_size) =>
          w ← make_Writer lf lfile_size;
          Done {| final := {| status := status s; mem := None; max_sequence := max_sequence s;
                              save_manifest := save_manifest s; compactions := compactions s; tables := tables s |};
                  new_mem := Some (default make_MemTable (mem s)); new_log := Some w |}
      | None =>
          let s := match mem s with
                   | Some m => if decide (status s = OK) then compact s m (compactions s)
                               else {| status := status s; mem := None; max_sequence := max_sequence s;
                                       save_manifest := save_manifest s; compactions := compactions s; tables := tables s |}
                   | None => s
                   end in
          Done {| final := s; new_mem := None; new_log := None |}
      end
  end.
End recover.

(** ** Groups of a log *)

(** what one [Write] logs: its first sequence number and the operations *)
Definition group : Type := Z * list batch_op.
Definition group_bytes (g : group) : bytes := batch_bytes g.1 g.2.
Definition group_adds (gs : list group) : list add := concat (map (fun g => adds_of g.1 g.2) gs).
Definition group_ops (gs : list group) : list batch_op := concat (map snd gs).
(** the number after the last one *)
Definition group_end (s : Z) (gs : list group) : Z := s + Z.of_nat (length (group_ops gs)).
(** the map the groups make *)
Definition groups_map (gs : list group) : gmap bytes bytes := foldl (fun m o => apply_op o m) ∅ (group_ops gs).

(** groups with consecutive numbers after [s] *)
Fixpoint groups_from (s : Z) (gs : list group) : Prop :=
  match gs with
  | [] => True
  | (seq, ops) :: gs' =>
      seq = s + 1 /\ Forall mop_ok ops /\ Z.of_nat (length ops) < 2 ^ 31 /\ groups_from (s + Z.of_nat (length ops)) gs'
  end.

Lemma group_end_cons s seq ops gs : group_end s ((seq, ops) :: gs) = group_end (s + Z.of_nat (length ops)) gs.
Proof. unfold group_end, group_ops. cbn [map concat snd]. rewrite length_app. lia. Qed.

Lemma group_end_snoc s gs seq ops : group_end s (gs ++ [(seq, ops)]) = group_end s gs + Z.of_nat (length ops).
Proof. unfold group_end, group_ops. rewrite map_app, concat_app, length_app. cbn [map concat snd]. rewrite app_nil_r. lia. Qed.

Lemma groups_from_app s a b : groups_from s (a ++ b) <-> groups_from s a /\ groups_from (group_end s a) b.
Proof.
  revert s; induction a as [|[seq ops] a IH]; intros s.
  { cbn [app groups_from]. unfold group_end, group_ops. cbn [map concat length]. rewrite Z.add_0_r. tauto. }
  cbn [app groups_from]. rewrite IH, group_end_cons. tauto.
Qed.

Lemma group_adds_app a b : group_adds (a ++ b) = group_adds a ++ group_adds b.
Proof. unfold group_adds. by rewrite map_app, concat_app. Qed.
Lemma group_ops_app a b : group_ops (a ++ b) = group_ops a ++ group_ops b.
Proof. unfold group_ops. by rewrite map_app, concat_app. Qed.

Lemma group_adds_one seq ops : group_adds [(seq, ops)] = adds_of seq ops.
Proof. apply app_nil_r. Qed.
Lemma group_ops_one seq ops : group_ops [(seq, ops)] = ops.
Proof. apply app_nil_r. Qed.

Lemma group_adds_range s gs a : groups_from s gs -> a ∈ group_adds gs -> s < a_seq a <= group_end s gs.
Proof.
  revert s; induction gs as [|[seq ops] gs IH]; intros s Hg; [by intros ?%not_elem_of_nil|].
  destruct Hg as (-> & _ & _ & Hg). unfold group_adds, group_end, group_ops. cbn [map concat fst snd]. fold (group_adds gs).
  rewrite elem_of_app, length_app. intros [Ha|Ha]; [apply adds_of_range in Ha; lia|].
  specialize (IH _ Hg Ha). unfold group_end, group_ops in IH. lia.
Qed.

Lemma groups_map_lookup gs k : groups_map gs !! k = adds_lookup (group_adds gs) k.
Proof.
  revert k; induction gs as [|[seq ops] gs IH] using rev_ind; intros k; [done|]. unfold groups_map in *.
  rewrite group_ops_app, foldl_app, group_adds_app, group_ops_one, group_adds_one. by apply adds_lookup_ops.
Qed.

Lemma groups_from_take s gs k : groups_from s gs -> groups_from s (take k gs).
Proof. rewrite <- (take_drop k gs) at 1. rewrite groups_from_app. tauto. Qed.

Lemma group_end_take s gs k : s <= group_end s (take k gs) <= group_end s gs.
Proof.
  unfold group_end. rewrite <- (take_drop k gs) at 3. rewrite group_ops_app, length_app. lia.
Qed.

(** ** The loop *)

Section loop.
Context {G : Type} `{SequentialFileOk G} `{MachineOk}.
Variable paranoid_checks : bool.
Variable has_room : MemTable -> bool.
Variable WriteLevel0Table : MemTable -> Status.
Hypothesis room : forall t, has_room t = true.

(** what has been recovered so far: the entries of the groups [gs] *)
Record holds_groups (s : recovering) (gs : list group) : Prop := {
  hg_status : status s = OK;
  hg_mem : match mem s with Some m => mem_ok m (group_adds gs) | None => gs = [] end;
  hg_max : max_sequence s = group_end 0 gs;
  hg_compactions : compactions s = 0;
  hg_tables : tables s = [] }.

Lemma blen_batch seq ops : 12 <= blen (batch_bytes seq ops).
Proof.
  unfold batch_bytes. rewrite !blen_app, blen_EncodeFixed64, blen_EncodeFixed32.
  pose proof (blen_nonneg (ops_bytes ops)). lia.
Qed.

Lemma recover_record_spec s gs seq ops :
  holds_groups s gs -> groups_from 0 (gs ++ [(seq, ops)]) -> group_end 0 (gs ++ [(seq, ops)]) < 2 ^ 56 ->
  exists s', recover_record paranoid_checks has_room WriteLevel0Table s (group_bytes (seq, ops)) = Done s' /\
    holds_groups s' (gs ++ [(seq, ops)]).
Proof.
  intros [Hst Hmem Hmax Hc Ht] Hg Hend. rewrite group_end_snoc in Hend.
  apply groups_from_app in Hg as [Hg (Hseq & Ho & Hl & _)]. pose proof (group_end_take 0 gs 0) as Hpos.
  unfold recover_record, group_bytes. cbn [fst snd]. cbv zeta. set (m := match mem s with Some m => m | None => make_MemTable end).
  assert (Hm : mem_ok m (group_adds gs)).
  { unfold m. destruct (mem s); [done|]. subst gs. apply make_MemTable_ok. }
  destruct (InsertInto_spec ops seq m (group_adds gs) Hm Ho) as (m' & -> & Hm'); [lia|lia|done| |].
  { intros b Hb. apply (group_adds_range 0) in Hb; [lia|done]. }
  cbn [mbind outcome_bind status]. unfold MaybeIgnoreError. rewrite !decide_True by done.
  assert (Sequence (batch_bytes seq ops) = Done seq) as -> by (apply Sequence_batch; lia).
  assert (Count (batch_bytes seq ops) = Done (Z.of_nat (length ops))) as -> by by apply Count_batch.
  cbn [mbind outcome_bind status mem max_sequence save_manifest compactions tables]. rewrite room. cbn [negb].
  eexists. split; [done|]. split; simpl; try done.
  - by rewrite group_adds_app, group_adds_one.
  - rewrite group_end_snoc, Hmax. unfold u64. rewrite Z.mod_small by lia. zcases; lia.
Qed.

Lemma RecoverLogFile_loop_spec pos rs ends out :
  log_bytes pos rs ends out ->
  forall fuel reader n s done_gs gs,
  rs = map group_bytes gs -> groups_from 0 (done_gs ++ gs) -> group_end 0 (done_gs ++ gs) < 2 ^ 56 ->
  reader_at reader pos (take n out) (Some []) -> (length (take n out) < fuel)%nat -> holds_groups s done_gs ->
  exists k s', RecoverLogFile_loop paranoid_checks has_room WriteLevel0Table fuel (S (length rs)) reader s = Done s' /\
    whole_records pos ends n k /\ holds_groups s' (done_gs ++ take k gs).
Proof.
  assert (Hnone : forall s, reported paranoid_checks s [] = s).
  { intros s. unfold reported. destruct paranoid_checks; [|done]. by destruct (status s). }
  induction 1 as [pos|pos d rs ends out rest Hf Hl IH]; intros fuel reader n s dgs gs Ers Hg Hend Hr Hfu Hs.
  - rewrite take_nil in Hr. destruct (ReadRecord_nil fuel reader pos (Some []) Hr) as (r' & E & Hrep); [lia|].
    exists 0%nat, s. cbn [RecoverLogFile_loop length]. rewrite E. cbn [mbind outcome_bind]. rewrite Hrep. cbn [default].
    rewrite Hnone, take_0, app_nil_r. split; [done|]. split; [apply whole_records_nil|done].
  - destruct gs as [|[seq ops] gs]; [done|]. injection Ers as -> Ers.
    destruct (ReadRecord_cons fuel reader pos _ out rest n (Some []) Hf Hr Hfu) as (r1 & Hrep & Hread).
    pose proof (fun k => whole_records_cons pos _ out rs ends rest n k Hf Hl) as Hwhole.
    destruct (decide (length out <= n)%nat) as [Hn|Hn].
    + destruct Hread as (E & Hr1 & Hfu1).
      rewrite (cons_middle (seq, ops)), app_assoc in Hg, Hend.
      pose proof (groups_from_take 0 _ (length (dgs ++ [(seq, ops)])) Hg) as Hg1. rewrite take_app_length in Hg1.
      pose proof (group_end_take 0 ((dgs ++ [(seq, ops)]) ++ gs) (length (dgs ++ [(seq, ops)]))) as He1.
      rewrite take_app_length in He1.
      destruct (recover_record_spec s dgs seq ops Hs Hg1) as (s1 & E1 & Hs1); [eapply Z.le_lt_trans; [apply He1|exact Hend]|].
      destruct (IH fuel r1 (n - length out)%nat s1 (dgs ++ [(seq, ops)]) gs Ers Hg Hend Hr1 Hfu1 Hs1) as (k & s' & Ek & Hk & Hs').
      exists (S k), s'. cbn [RecoverLogFile_loop]. rewrite E. cbn [mbind outcome_bind]. rewrite Hrep. cbn [default].
      rewrite Hnone, decide_True by apply Hs. rewrite (proj2 (Z.ltb_ge _ _)) by (apply (blen_batch seq ops)).
      rewrite E1. cbn [mbind outcome_bind]. rewrite decide_True by apply Hs1. cbn [length]. rewrite Ek.
      split; [done|]. split; [apply Hwhole; by exists k|]. cbn [take]. by rewrite (cons_middle (seq, ops)), app_assoc.
    + exists 0%nat, s. cbn [RecoverLogFile_loop]. rewrite Hread. cbn [mbind outcome_bind]. rewrite Hrep. cbn [default].
      rewrite Hnone, take_0, app_nil_r. split; [done|]. split; [by apply Hwhole|done].
Qed.
End loop.

(** ** The log of a run *)

(** the database [d] has logged and applied the groups [gs] *)
Record db_logged (d : DBImpl) (gs : list group) : Prop := {
  dl_log : log_ d = map group_bytes gs;
  dl_groups : groups_from 0 gs;
  dl_last : last_sequence d = group_end 0 gs;
  dl_mem : mem_ok (mem_ d) (group_adds gs);
  dl_imm : imm_ d = None;
  dl_error : bg_error_ d = false }.

Lemma db_logged_holds d gs : db_logged d gs -> last_sequence d < 2 ^ 56 -> db_holds d (groups_map gs).
Proof.
  intros [_ Hg Hl Hm Hi _] Hb. pose proof (group_end_take 0 gs 0). exists [], (group_adds gs). split.
  - split; [done|by rewrite Hi|lia|]. intros a Ha. apply (group_adds_range 0) in Ha; [|done]. lia.
  - intros k. apply groups_map_lookup.
Qed.

(** writes whose record reaches the file *)
Definition call_durable (c : store_call) : Prop :=
  match c with SWrite log_ok sync_ok _ => log_ok = true /\ sync_ok = true | SGet _ => True end.
#[export] Instance call_durable_dec c : Decision (call_durable c).
Proof. destruct c; simpl; apply _. Defined.

Section run.
Variable has_room : MemTable -> bool.
Hypothesis room : forall t, has_room t = true.

Lemma Write_logged ws opss d gs :
  db_logged d gs -> ws <> [] -> Forall2 writer_ops ws opss -> Forall mop_ok (concat opss) ->
  Z.of_nat (length (concat opss)) < 2 ^ 31 -> last_sequence d + Z.of_nat (length (concat opss)) < 2 ^ 56 ->
  exists d' n ops, Write has_room true true ws d = Done (d', true, n) /\
    db_logged d' (gs ++ [(group_end 0 gs + 1, ops)]) /\
    last_sequence d' <= last_sequence d + Z.of_nat (length (concat opss)).
Proof.
  intros [Hlog Hg Hl Hm Hi He] Hne HF Ho Hn31 Hn56. pose proof (group_end_take 0 gs 0).
  destruct (write_group_spec ws opss d (group_adds gs) Hm) as (n & b & m' & Hn & Eb & Es & Ec & Ei & Hm');
    [lia|intros a Ha; rewrite Hl; apply (group_adds_range 0); done|done..|].
  pose proof (served_length opss n). unfold Write, MakeRoomForWrite. rewrite He, room. cbn [mbind outcome_bind].
  rewrite Eb. cbn [mbind outcome_bind]. rewrite Es. cbn [mbind outcome_bind]. rewrite Ec. cbn [mbind outcome_bind andb negb].
  rewrite !andb_false_r. cbn [negb]. rewrite Ei. cbn [mbind outcome_bind]. rewrite bool_decide_true by done.
  eexists _, n, (served opss n). split; [reflexivity|]. unfold u64. rewrite Z.mod_small by lia.
  split; [|simpl; lia]. rewrite <- Hl. split; simpl; [| | | |done|done].
  - by rewrite Hlog, map_app.
  - apply groups_from_app. split; [done|]. cbn [groups_from]. split_and!; [lia|by apply served_ok|lia|done].
  - rewrite group_end_snoc. lia.
  - by rewrite group_adds_app, group_adds_one.
Qed.

Lemma run_store_logged cs d gs :
  db_logged d gs -> Forall store_call_ok cs -> Forall call_durable cs ->
  Z.of_nat (length (concat (map call_ops cs))) < 2 ^ 31 ->
  last_sequence d + Z.of_nat (length (concat (map call_ops cs))) < 2 ^ 56 ->
  exists d' rs gs', run_store has_room (fun _ _ => Absent) cs d = Done (d', rs) /\ db_logged d' gs' /\
    last_sequence d' < 2 ^ 56.
Proof.
  revert d gs; induction cs as [|c cs IH]; intros d gs Hd Hok Hdur Hlen Hseq.
  { exists d, [], gs. simpl in Hseq. split_and!; [done|done|lia]. }
  apply list.Forall_cons in Hok as [Hc Hok]. apply list.Forall_cons in Hdur as [Hdc Hdur].
  cbn [map concat] in Hlen, Hseq. rewrite length_app in Hlen, Hseq. destruct c as [log_ok sync_ok ws|key]; cbn [run_store].
  - destruct Hc as [Hne Ho], Hdc as [-> ->]. cbn [call_ops] in *.
    destruct (make_writers_spec ws) as (ws' & Ews & HF & Hl); [lia|]. rewrite Ews. cbn [mbind outcome_bind].
    destruct (Write_logged ws' (map fst ws) d gs Hd) as (d1 & n & ops & -> & Hd1 & Hls); [by destruct ws', ws|done|done|lia|lia|].
    cbn [mbind outcome_bind]. destruct (IH d1 _ Hd1 Hok Hdur ltac:(lia) ltac:(lia)) as (d' & rs & gs' & -> & Hd' & Hl').
    by exists d', (RWrite true n :: rs), gs'.
  - rewrite (Get_holds _ (fun _ _ => eq_refl) d (groups_map gs) key); [|apply db_logged_holds; [done|lia]|done].
    cbn [mbind outcome_bind]. destruct (IH d gs Hd Hok Hdur ltac:(lia) ltac:(simpl in Hseq; lia)) as (d' & rs & gs' & -> & Hd').
    by exists d', (RGet (groups_map gs !! key) :: rs), gs'.
Qed.

Lemma new_DBImpl_logged : db_logged new_DBImpl [].
Proof. split; simpl; try done. apply make_MemTable_ok. Qed.

(** ** Recovery after a crash *)

Context {F G : Type} `{WritableFileOk F} `{SequentialFileOk G} `{MachineOk}.

(** the database [Open] makes of what was recovered *)
Definition reopened (m : MemTable) (log : list bytes) (r : recovering) : DBImpl :=
  {| mem_ := m; imm_ := None; log_ := log; last_sequence := max_sequence r; bg_error_ := false |}.

End run.

(** ** A run *)

Definition example_durable_calls : list store_call :=
  [SWrite true true [([batch_Put (text "a") (text "1"); batch_Put (text "b") (text "2")], true)];
   SGet (text "a");
   SWrite true true [([batch_Delete (text "a")], false); ([batch_Put (text "b") (text "3")], false)]].


(** write, crash after [n] bytes of the log, recover, and read two keys *)
Definition crash_and_recover (n : nat) : outcome (option bytes * option bytes) :=
  '(d, _) ← run_store (fun _ => true) (fun _ _ => Absent) example_durable_calls new_DBImpl;
  f ← written_log (log_ d);
  r ← @RecoverLogFile bytes bytes _ plain_machine true true (fun _ => true) (fun _ => OK) 1000 10 (inr (take n f))
        (Some (take n f, blen (take n f))) true 0 false;
  let d' := reopened (default make_MemTable (new_mem r)) [] (final r) in
  a ← LevelStore.Get (fun _ _ => Absent) (text "a") d';
  b ← LevelStore.Get (fun _ _ => Absent) (text "b") d';
  Done (a, b).

Example example_recovery :
  crash_and_recover 1000 = Done (None, Some (text "3")) /\
  crash_and_recover 50 = Done (Some (text "1"), Some (text "2")) /\
  crash_and_recover 20 = Done (None, None).
Proof. vm_compute. split_and!; reflexivity. Qed.
