(* ===== verification/Bloom.v ===== *)
(** * Bloom: util/hash.cc, util/bloom.cc, filter_policy.h and the filter of db/dbformat.cc

    Filters of sets of keys.  The class [FilterPolicy] is the abstract class of
    that name; its contract [FilterPolicyOk] says that a filter matches every
    key it was made of.  The Bloom filter satisfies it, and so does the policy
    on internal keys, which hands user keys to another policy. *)

From Stdlib.Strings Require Import Byte.
From S2P Require Import Prelude Coding DbFormat.

(** ** util/hash.cc *)

Definition hash_m : Z := 0xc6a4a793.
Definition hash_r : Z := 24.

(** four bytes at a time, then the [switch] on what remains *)
Fixpoint Hash_loop (data : bytes) (h : Z) : outcome Z :=
  match data with
  | _ :: _ :: _ :: _ :: rest =>
      w ← DecodeFixed32 data;
      let h := u32 (h + w) in
      let h := u32 (h * hash_m) in
      Hash_loop rest (Z.lxor h (Z.shiftr h 16))
  | [] => Done h
  | b0 :: tl =>
      let h := match tl with _ :: b2 :: _ => u32 (h + Z.shiftl (b2z b2) 16) | _ => h end in
      let h := match tl with b1 :: _ => u32 (h + Z.shiftl (b2z b1) 8) | _ => h end in
      let h := u32 (h + b2z b0) in
      let h := u32 (h * hash_m) in
      Done (Z.lxor h (Z.shiftr h hash_r))
  end.

Definition Hash (data : bytes) (seed : Z) : outcome Z :=
  Hash_loop data (u32 (Z.lxor seed (u64 (blen data * hash_m)))).

(** ** The interface of filter_policy.h *)

Class FilterPolicy (P : Type) := {
  policy_Name : P -> bytes;
  policy_CreateFilter : P -> list bytes -> bytes -> outcome bytes;
  policy_KeyMayMatch : P -> bytes -> bytes -> outcome bool }.

(** What a filter promises: it is appended to [dst], matches every key that the
    policy does not tell from one of those it was made of, and has a size in
    proportion to their number. *)
Class FilterPolicyOk (P : Type) `{FilterPolicy P} := {
  policy_ok : P -> Prop;
  filter_key : P -> bytes -> Prop;
  same_key : P -> bytes -> bytes -> Prop;
  filter_bytes : P -> Z;
  same_key_refl p k : filter_key p k -> same_key p k k;
  filter_bytes_nonneg p : policy_ok p -> 0 <= filter_bytes p;
  filter_complete p keys dst :
    policy_ok p -> Z.of_nat (length keys) < 2 ^ 31 -> Forall (filter_key p) keys ->
    exists f, policy_CreateFilter p keys dst = Done (dst ++ f) /\
      blen f <= filter_bytes p * (1 + Z.of_nat (length keys)) /\
      forall key k, key ∈ keys -> same_key p key k -> policy_KeyMayMatch p k f = Done true;
  filter_total p k f :
    policy_ok p -> filter_key p k -> blen f < 2 ^ 32 -> exists b, policy_KeyMayMatch p k f = Done b }.

(** ** util/bloom.cc *)

Definition BloomHash (key : bytes) : outcome Z := Hash key 0xbc9f1d34.

Record BloomFilterPolicy := { bits_per_key_ : Z; k_ : Z }.

Definition bloom_Name : bytes := text "leveldb.BuiltinBloomFilter2".

(** [bits_per_key * 0.69] rounded down is exact below the cut at 30 *)
Definition make_BloomFilterPolicy (bits_per_key : Z) : BloomFilterPolicy :=
  let k := bits_per_key * 69 / 100 in
  let k := if k <? 1 then 1 else k in
  let k := if 30 <? k then 30 else k in
  {| bits_per_key_ := bits_per_key; k_ := k |}.

Definition rotate_right_17 (h : Z) : Z := Z.lor (Z.shiftr h 17) (u32 (Z.shiftl h 15)).

(** the inner loops of the two methods: [k] probes from [h] on *)
Fixpoint CreateFilter_probes (k : nat) (bits h delta : Z) (array : bytes) : outcome bytes :=
  match k with
  | O => Done array
  | S k' =>
      let bitpos := h mod bits in
      match array !! Z.to_nat (bitpos / 8) with
      | Some b =>
          CreateFilter_probes k' bits (u32 (h + delta)) delta
            (<[Z.to_nat (bitpos / 8) := z2b (Z.lor (b2z b) (Z.shiftl 1 (bitpos mod 8)))]> array)
      | None => Undefined
      end
  end.

Fixpoint CreateFilter_loop (k : nat) (bits : Z) (keys : list bytes) (array : bytes) : outcome bytes :=
  match keys with
  | [] => Done array
  | key :: keys' =>
      h ← BloomHash key;
      array ← CreateFilter_probes k bits h (rotate_right_17 h) array;
      CreateFilter_loop k bits keys' array
  end.

Definition bloom_CreateFilter (p : BloomFilterPolicy) (keys : list bytes) (dst : bytes) : outcome bytes :=
  let bits := u64 (Z.of_nat (length keys) * bits_per_key_ p) in
  let bits := if bits <? 64 then 64 else bits in
  let nbytes := u64 (bits + 7) / 8 in
  let bits := u64 (nbytes * 8) in
  let array := replicate (Z.to_nat nbytes) x00 ++ [z2b (k_ p)] in
  array ← CreateFilter_loop (Z.to_nat (k_ p)) bits keys array;
  Done (dst ++ array).

Fixpoint KeyMayMatch_probes (k : nat) (bits h delta : Z) (array : bytes) : outcome bool :=
  match k with
  | O => Done true
  | S k' =>
      let bitpos := h mod bits in
      match array !! Z.to_nat (bitpos / 8) with
      | Some b =>
          if Z.land (b2z b) (Z.shiftl 1 (bitpos mod 8)) =? 0 then Done false
          else KeyMayMatch_probes k' bits (u32 (h + delta)) delta array
      | None => Undefined
      end
  end.

(** a (signed) [char] converted to [size_t] *)
Definition size_of_char (b : byte) : Z := u64 (if b2z b <? 128 then b2z b else b2z b - 256).

Definition bloom_KeyMayMatch (key bloom_filter : bytes) : outcome bool :=
  let len := blen bloom_filter in
  if len <? 2 then Done false else
  let array := bloom_filter in
  let bits := u64 ((len - 1) * 8) in
  match array !! Z.to_nat (len - 1) with
  | None => Undefined
  | Some b =>
      let k := size_of_char b in
      if 30 <? k then Done true else
      h ← BloomHash key;
      KeyMayMatch_probes (Z.to_nat k) bits h (rotate_right_17 h) array
  end.

#[export] Instance bloom_policy : FilterPolicy BloomFilterPolicy := {|
  policy_Name := fun _ => bloom_Name;
  policy_CreateFilter := bloom_CreateFilter;
  policy_KeyMayMatch := fun _ => bloom_KeyMayMatch |}.

(** ** db/dbformat.cc: the policy on internal keys *)

Record InternalFilterPolicy (P : Type) := { user_policy_ : P }.
Arguments user_policy_ {P}.

Section Internal.
Context {P : Type} `{!FilterPolicy P}.

Definition internal_CreateFilter (p : InternalFilterPolicy P) (keys : list bytes) (dst : bytes) : outcome bytes :=
  mkey ← (fix adjust (keys : list bytes) : outcome (list bytes) :=
    match keys with
    | [] => Done []
    | key :: keys' => u ← ExtractUserKey key; us ← adjust keys'; Done (u :: us)
    end) keys;
  policy_CreateFilter (user_policy_ p) mkey dst.

Definition internal_KeyMayMatch (p : InternalFilterPolicy P) (key f : bytes) : outcome bool :=
  u ← ExtractUserKey key;
  policy_KeyMayMatch (user_policy_ p) u f.

#[export] Instance internal_policy : FilterPolicy (InternalFilterPolicy P) := {|
  policy_Name := fun p => policy_Name (user_policy_ p);
  policy_CreateFilter := internal_CreateFilter;
  policy_KeyMayMatch := internal_KeyMayMatch |}.
End Internal.

(** ** Lemmas *)

Lemma Hash_loop_total n data h : (length data <= n)%nat -> exists v, Hash_loop data h = Done v.
Proof.
  revert data h; induction n as [|n IH]; intros data h Hn.
  { destruct data; [by eexists|simpl in Hn; lia]. }
  destruct data as [|b0 [|b1 [|b2 [|b3 data]]]]; try by eexists.
  cbn [Hash_loop DecodeFixed32 mbind outcome_bind]. apply IH. simpl in Hn. lia.
Qed.

Lemma BloomHash_total key : exists h, BloomHash key = Done h.
Proof. by eapply Hash_loop_total. Qed.

(** Byte [b] has every bit of byte [a]; an array has every bit of another. *)
Definition byte_le (a b : byte) : Prop :=
  forall i, Z.testbit (b2z a) i = true -> Z.testbit (b2z b) i = true.
Definition bits_le : relation bytes := Forall2 byte_le.

#[export] Instance byte_le_preorder : PreOrder byte_le.
Proof. split; unfold byte_le; [intros a i; done|intros a b c H1 H2 i Hi; auto]. Qed.
#[export] Instance bits_le_preorder : PreOrder bits_le.
Proof. unfold bits_le. apply _. Qed.

(** a bit set in a byte *)
Lemma or_bit b i :
  0 <= i < 8 -> byte_le b (z2b (Z.lor (b2z b) (Z.shiftl 1 i))) /\
  Z.testbit (b2z (z2b (Z.lor (b2z b) (Z.shiftl 1 i)))) i = true.
Proof.
  intros Hi. unfold byte_le. rewrite b2z_z2b. change 256 with (2 ^ 8). split.
  - intros j Hj. pose proof (b2z_range b) as Hb.
    destruct (Z.lt_ge_cases j 0); [by rewrite Z.testbit_neg_r in Hj|].
    destruct (Z.lt_ge_cases j 8).
    + by rewrite Z.mod_pow2_bits_low, Z.lor_spec, Hj by lia.
    + rewrite <- (Z.mod_small (b2z b) (2 ^ 8)) in Hj by lia. by rewrite Z.mod_pow2_bits_high in Hj by lia.
  - rewrite Z.mod_pow2_bits_low, Z.lor_spec, Z.shiftl_1_l, Z.pow2_bits_true by lia. apply orb_true_r.
Qed.

Lemma land_bit v i : 0 <= i -> Z.land v (Z.shiftl 1 i) = 0 <-> Z.testbit v i = false.
Proof.
  intros Hi. rewrite Z.shiftl_1_l. split; intros H.
  - rewrite <- (andb_true_r (Z.testbit v i)). rewrite <- (Z.pow2_bits_true i) by done.
    by rewrite <- Z.land_spec, H, Z.bits_0.
  - apply Z.bits_inj'. intros n Hn. rewrite Z.land_spec, Z.bits_0, Z.pow2_bits_eqb by done.
    destruct (Z.eqb_spec i n) as [<-|]; [by rewrite H|apply andb_false_r].
Qed.

Lemma bits_le_insert (a : bytes) i b b' : a !! i = Some b -> byte_le b b' -> bits_le a (<[i := b']> a).
Proof.
  unfold bits_le. intros Hi Hb. apply Forall2_same_length_lookup. split; [by rewrite length_insert|].
  intros j x y Hx Hy. destruct (decide (i = j)) as [<-|Hn].
  - rewrite list_lookup_insert_eq in Hy by (by eapply lookup_lt_Some). by simplify_eq.
  - rewrite list_lookup_insert_ne in Hy by done. by simplify_eq.
Qed.

(** the position of a bit in an array of [n] bytes *)
Lemma bitpos_byte h n : 0 < n -> (Z.to_nat (h mod (n * 8) / 8) < Z.to_nat n)%nat /\ 0 <= h mod (n * 8) mod 8 < 8.
Proof.
  intros Hn. pose proof (Z.mod_pos_bound h (n * 8) ltac:(lia)). split; [|apply Z.mod_pos_bound; lia].
  assert (h mod (n * 8) / 8 < n) by (apply Z.div_lt_upper_bound; lia).
  assert (0 <= h mod (n * 8) / 8) by (apply Z.div_pos; lia). lia.
Qed.

Section Probes.
Context (n : Z) (Hn : 0 < n).
Implicit Types a : bytes.

(** a probe that succeeds also does when more bits are set *)
Lemma probes_mono k h delta a a' :
  bits_le a a' -> KeyMayMatch_probes k (n * 8) h delta a = Done true ->
  KeyMayMatch_probes k (n * 8) h delta a' = Done true.
Proof.
  intros Ha. revert h; induction k as [|k IH]; intros h; [done|]. cbn [KeyMayMatch_probes].
  destruct (a !! _) as [b|] eqn:Eb; [|done].
  destruct (Forall2_lookup_l _ _ _ _ _ Ha Eb) as (b' & Eb' & Hb). rewrite Eb'.
  destruct (bitpos_byte h n Hn) as [_ Hm].
  destruct (Z.eqb_spec (Z.land (b2z b) (Z.shiftl 1 (h mod (n * 8) mod 8))) 0) as [|Hz]; [done|].
  rewrite (proj2 (Z.eqb_neq _ _)); [apply IH|]. intros E. apply land_bit in E; [|lia].
  apply Hz, land_bit; [lia|]. destruct (Z.testbit (b2z b) _) eqn:Et; [|done]. apply Hb in Et. congruence.
Qed.

Lemma probes_total k h delta a :
  n <= blen a -> exists b, KeyMayMatch_probes k (n * 8) h delta a = Done b.
Proof.
  intros Ha. revert h; induction k as [|k IH]; intros h; [by eexists|]. cbn [KeyMayMatch_probes].
  destruct (bitpos_byte h n Hn) as [Hi _].
  destruct (lookup_lt_is_Some_2 a (Z.to_nat (h mod (n * 8) / 8))) as [b ->]; [unfold blen in Ha; lia|].
  destruct (_ =? 0); [by eexists|apply IH].
Qed.

(** what the probes of [CreateFilter] do to the first [n] bytes *)
Lemma CreateFilter_probes_spec k h delta a c :
  blen a = n ->
  exists a', CreateFilter_probes k (n * 8) h delta (a ++ c) = Done (a' ++ c) /\ bits_le a a' /\
    KeyMayMatch_probes k (n * 8) h delta (a' ++ c) = Done true.
Proof.
  revert h a; induction k as [|k IH]; intros h a Ha; [by exists a|].
  cbn [CreateFilter_probes KeyMayMatch_probes]. set (i := Z.to_nat (h mod (n * 8) / 8)).
  destruct (bitpos_byte h n Hn) as [Hi Hm]. fold i in Hi. assert (i < length a)%nat by (unfold blen in Ha; lia).
  destruct (lookup_lt_is_Some_2 a i) as [b Eb]; [done|]. rewrite (lookup_app_l_Some _ _ _ _ Eb).
  destruct (or_bit b _ Hm) as [Hle Hbit]. set (b' := z2b _) in *. rewrite insert_app_l by done.
  pose proof (bits_le_insert a i b b' Eb Hle) as Ha1.
  destruct (IH (u32 (h + delta)) (<[i := b']> a)) as (a' & E & Ha' & Et).
  { unfold blen in *. by rewrite length_insert. }
  exists a'. split; [done|]. split; [by etrans|].
  assert (Eb1 : <[i := b']> a !! i = Some b') by (by apply list_lookup_insert_eq).
  destruct (Forall2_lookup_l _ _ _ _ _ Ha' Eb1) as (b2 & Eb2 & Hb2).
  rewrite (lookup_app_l_Some _ _ _ _ Eb2), (proj2 (Z.eqb_neq _ _)); [done|].
  intros E0. apply land_bit in E0; [|lia]. apply Hb2 in Hbit. congruence.
Qed.

Definition matches (k : nat) (array key : bytes) : Prop :=
  exists h, BloomHash key = Done h /\ KeyMayMatch_probes k (n * 8) h (rotate_right_17 h) array = Done true.

Lemma CreateFilter_loop_spec k keys a c :
  blen a = n ->
  exists a', CreateFilter_loop k (n * 8) keys (a ++ c) = Done (a' ++ c) /\ bits_le a a' /\
    Forall (matches k (a' ++ c)) keys.
Proof.
  revert a; induction keys as [|key keys IH]; intros a Ha.
  { exists a. split; [done|]. split; [done|constructor]. }
  cbn [CreateFilter_loop]. destruct (BloomHash_total key) as [h Eh]. rewrite Eh. cbn [mbind outcome_bind].
  destruct (CreateFilter_probes_spec k h (rotate_right_17 h) a c Ha) as (a1 & E1 & Ha1 & Et).
  rewrite E1. cbn [mbind outcome_bind].
  destruct (IH a1) as (a' & E & Ha' & Hf).
  { unfold blen in *. by rewrite <- (list.Forall2_length _ _ _ Ha1). }
  exists a'. split; [done|]. split; [by etrans|]. constructor; [|done].
  exists h. split; [done|]. eapply probes_mono, Et. apply Forall2_app; [done|]. by apply (reflexivity (R := bits_le)).
Qed.
End Probes.

Lemma replicate_blen n : 0 <= n -> blen (replicate (Z.to_nat n) x00) = n.
Proof. intros Hn. unfold blen. rewrite length_replicate. lia. Qed.

(** the parameters of a policy *)
Definition bloom_ok (p : BloomFilterPolicy) : Prop := 0 <= bits_per_key_ p < 2 ^ 31 /\ 0 <= k_ p <= 30.

Lemma make_BloomFilterPolicy_ok bits : 0 <= bits < 2 ^ 31 -> bloom_ok (make_BloomFilterPolicy bits).
Proof.
  intros Hb. split; [done|]. unfold make_BloomFilterPolicy. cbn [k_].
  pose proof (Z.div_pos (bits * 69) 100 ltac:(lia) ltac:(lia)). zcases; lia.
Qed.

Lemma size_of_small_char k : 0 <= k <= 30 -> size_of_char (z2b k) = k.
Proof. intros Hk. unfold size_of_char. rewrite b2z_z2b, Z.mod_small by lia. zdecide. apply u64_small. lia. Qed.

Lemma CreateFilter_spec p keys dst :
  bloom_ok p -> Z.of_nat (length keys) < 2 ^ 31 ->
  exists f, bloom_CreateFilter p keys dst = Done (dst ++ f) /\
    blen f <= (bits_per_key_ p + 10) * (1 + Z.of_nat (length keys)) /\
    forall key, key ∈ keys -> bloom_KeyMayMatch key f = Done true.
Proof.
  intros [Hb Hk] Hl. unfold bloom_CreateFilter.
  set (b0 := u64 (Z.of_nat (length keys) * bits_per_key_ p)). set (b1 := if b0 <? 64 then 64 else b0).
  assert (Hb0 : b0 = Z.of_nat (length keys) * bits_per_key_ p) by (apply u64_small; nia).
  assert (Hb1 : 64 <= b1 < 2 ^ 62) by (unfold b1; pows; zcases; nia).
  rewrite (u64_small (b1 + 7)) by lia. set (n := (b1 + 7) / 8).
  assert (Hn : 8 <= n < 2 ^ 60).
  { unfold n. split; [apply Z.div_le_lower_bound; lia|apply Z.div_lt_upper_bound; lia]. }
  rewrite (u64_small (n * 8)) by lia.
  destruct (CreateFilter_loop_spec n ltac:(lia) (Z.to_nat (k_ p)) keys (replicate (Z.to_nat n) x00) [z2b (k_ p)])
    as (a & E & Ha & Hf); [apply replicate_blen; lia|].
  rewrite E. cbn [mbind outcome_bind]. exists (a ++ [z2b (k_ p)]). split; [done|].
  assert (Hla : blen a = n).
  { unfold blen. rewrite <- (list.Forall2_length _ _ _ Ha). apply replicate_blen. lia. }
  split.
  { rewrite blen_app, Hla. change (blen [z2b (k_ p)]) with 1.
    pose proof (Z.mul_div_le (b1 + 7) 8 ltac:(lia)) as Hn8. fold n in Hn8.
    assert (b1 <= 64 \/ b1 = b0) as Hcase by (unfold b1; zcases; lia).
    assert (10 + bits_per_key_ p * Z.of_nat (length keys) <= (bits_per_key_ p + 10) * (1 + Z.of_nat (length keys))) by nia.
    destruct Hcase; lia. }
  intros key Hkey. rewrite list.Forall_forall in Hf. destruct (Hf key Hkey) as (h & Eh & Et).
  unfold bloom_KeyMayMatch. rewrite blen_app, blen_cons, blen_nil, Hla.
  rewrite (proj2 (Z.ltb_ge _ _)) by lia. replace (n + (1 + 0) - 1) with n by lia.
  rewrite (u64_small (n * 8)) by lia. rewrite <- Hla at 1. rewrite blen_to_nat, list_lookup_middle by done.
  rewrite size_of_small_char by done. rewrite (proj2 (Z.ltb_ge _ _)) by lia. by rewrite Eh.
Qed.

Lemma KeyMayMatch_total key f : blen f < 2 ^ 32 -> exists b, bloom_KeyMayMatch key f = Done b.
Proof.
  intros Hf. unfold bloom_KeyMayMatch. destruct (Z.ltb_spec (blen f) 2); [by eexists|].
  destruct (lookup_lt_is_Some_2 f (Z.to_nat (blen f - 1))) as [b ->]; [unfold blen in *; lia|].
  destruct (30 <? size_of_char b); [by eexists|]. destruct (BloomHash_total key) as [h ->].
  cbn [mbind outcome_bind]. rewrite u64_small by lia. apply probes_total; lia.
Qed.

(** The Bloom filter has no false negatives. *)
#[export] Program Instance bloom_policy_ok : FilterPolicyOk BloomFilterPolicy := {|
  policy_ok := bloom_ok;
  filter_key := fun _ _ => True;
  same_key := fun _ key k => key = k;
  filter_bytes := fun p => bits_per_key_ p + 10 |}.
Next Obligation. done. Qed.
Next Obligation. intros p [Hb _]. lia. Qed.
Next Obligation.
  intros p keys dst Hp Hl _. destruct (CreateFilter_spec p keys dst Hp Hl) as (f & E & Hs & Hf).
  exists f. split; [done|]. split; [done|]. intros key k Hkey <-. by apply Hf.
Qed.
Next Obligation. intros p k f _ _ Hf. by apply KeyMayMatch_total. Qed.

(** ** Internal keys

    A filter of internal keys matches every key with one of their user keys. *)

Section InternalOk.
Context {P : Type} `{!FilterPolicy P} `{!FilterPolicyOk P}.
Implicit Types p : InternalFilterPolicy P.

Definition internal_filter_key p (key : bytes) : Prop :=
  exists u tag, key = ikey u tag /\ filter_key (user_policy_ p) u.
Definition internal_same_key p (key k : bytes) : Prop :=
  exists u v t1 t2, key = ikey u t1 /\ k = ikey v t2 /\ same_key (user_policy_ p) u v.

#[export] Program Instance internal_policy_ok : FilterPolicyOk (InternalFilterPolicy P) := {|
  policy_ok := fun p => policy_ok (user_policy_ p);
  filter_key := internal_filter_key;
  same_key := internal_same_key;
  filter_bytes := fun p => filter_bytes (user_policy_ p) |}.
Next Obligation. intros p k (u & t & -> & Hu). exists u, u, t, t. repeat split; try done. by apply same_key_refl. Qed.
Next Obligation. intros p Hp. by apply filter_bytes_nonneg. Qed.
Next Obligation.
  intros p keys dst Hp Hl Hk. cbn [policy_CreateFilter policy_KeyMayMatch internal_policy]. unfold internal_CreateFilter.
  match goal with |- context [mbind _ (?f keys)] => set (adjust := f) end.
  assert (Ha : exists us, adjust keys = Done us /\ length us = length keys /\ Forall (filter_key (user_policy_ p)) us /\
    forall u t, ikey u t ∈ keys -> u ∈ us).
  { clear Hl. induction Hk as [|key keys (u & t & -> & Hu) Hk IH].
    - exists []. repeat split; [constructor|]. intros u t Hin. by apply elem_of_nil in Hin.
    - destruct IH as (us & E & Hlen & Hf & Hin). exists (u :: us). simpl. rewrite ExtractUserKey_ikey. cbn [mbind outcome_bind].
      rewrite E. cbn [mbind outcome_bind]. split; [done|]. split; [lia|]. split; [by constructor|].
      intros v t' Hv. apply elem_of_cons in Hv as [Hv|Hv]; [|right; by eapply Hin].
      assert (Done v = Done u) as [= ->]; [|left]. rewrite <- (ExtractUserKey_ikey v t'), Hv. apply ExtractUserKey_ikey. }
  destruct Ha as (us & E & Hlen & Hf & Hin). rewrite E. cbn [mbind outcome_bind].
  destruct (filter_complete (user_policy_ p) us dst Hp ltac:(lia) Hf) as (f & Ef & Hs & Hm).
  exists f. split; [done|]. split; [by rewrite <- Hlen|]. intros key k Hkey (u & v & t1 & t2 & -> & -> & Hsame). unfold internal_KeyMayMatch.
  rewrite ExtractUserKey_ikey. cbn [mbind outcome_bind]. eapply Hm; [|done]. by eapply Hin.
Qed.
Next Obligation.
  intros p k f Hp (u & t & -> & Hu) Hf. cbn. unfold internal_KeyMayMatch. rewrite ExtractUserKey_ikey. cbn.
  by apply filter_total.
Qed.
End InternalOk.
