(* ===== verification/FilterBlock.v ===== *)
(** * FilterBlock: table/filter_block.h and filter_block.cc

    The filter block of a table: one filter for each 2 KiB of the file, made of
    the keys of the data blocks that start there. *)

From Stdlib.Strings Require Import Byte.
From S2P Require Import Prelude Coding Bloom.

Definition kFilterBaseLg : Z := 11.
Definition kFilterBase : Z := Z.shiftl 1 kFilterBaseLg.

Record FilterBlockBuilder (P : Type) := {
  builder_policy : P; keys_ : bytes; start_ : list Z; result_ : bytes;
  tmp_keys_ : list bytes; filter_offsets_ : list Z }.
Arguments builder_policy {P}. Arguments keys_ {P}. Arguments start_ {P}. Arguments result_ {P}.
Arguments tmp_keys_ {P}. Arguments filter_offsets_ {P}.

(** a null [data_] is an empty option; [offset_] is an index into the data *)
Record FilterBlockReader (P : Type) := {
  reader_policy : P; data_ : option bytes; offset_ : Z; num_ : Z; base_lg_ : Z }.
Arguments reader_policy {P}. Arguments data_ {P}. Arguments offset_ {P}. Arguments num_ {P}. Arguments base_lg_ {P}.

Section FilterBlock.
Context {P : Type} `{!FilterPolicy P}.
Implicit Types b : FilterBlockBuilder P.

Definition make_FilterBlockBuilder (policy : P) : FilterBlockBuilder P :=
  {| builder_policy := policy; keys_ := []; start_ := []; result_ := []; tmp_keys_ := []; filter_offsets_ := [] |}.

(** the slices between two starts each *)
Fixpoint slices (keys : bytes) (start : list Z) : list bytes :=
  match start with
  | s :: (s' :: _) as rest => take (Z.to_nat (s' - s)) (drop (Z.to_nat s) keys) :: slices keys rest
  | _ => []
  end.

Definition GenerateFilter b : outcome (FilterBlockBuilder P) :=
  let num_keys := Z.of_nat (length (start_ b)) in
  if num_keys =? 0 then
    Done {| builder_policy := builder_policy b; keys_ := keys_ b; start_ := start_ b; result_ := result_ b;
            tmp_keys_ := tmp_keys_ b; filter_offsets_ := filter_offsets_ b ++ [u32 (blen (result_ b))] |}
  else
    let start := start_ b ++ [blen (keys_ b)] in
    let tmp_keys := slices (keys_ b) start in
    let filter_offsets := filter_offsets_ b ++ [u32 (blen (result_ b))] in
    result ← policy_CreateFilter (builder_policy b) (take (Z.to_nat (i32 num_keys)) tmp_keys) (result_ b);
    Done {| builder_policy := builder_policy b; keys_ := []; start_ := []; result_ := result;
            tmp_keys_ := []; filter_offsets_ := filter_offsets |}.

(** the [while] loop: each round adds an offset *)
Fixpoint StartBlock_loop (fuel : nat) (filter_index : Z) b : outcome (FilterBlockBuilder P) :=
  if Z.of_nat (length (filter_offsets_ b)) <? filter_index then
    match fuel with
    | O => Hangs
    | S fuel' => b ← GenerateFilter b; StartBlock_loop fuel' filter_index b
    end
  else Done b.

Definition StartBlock b (block_offset : Z) : outcome (FilterBlockBuilder P) :=
  let filter_index := block_offset / kFilterBase in
  _ ← c_assert (Z.of_nat (length (filter_offsets_ b)) <=? filter_index);
  StartBlock_loop (Z.to_nat filter_index) filter_index b.

Definition AddKey b (key : bytes) : FilterBlockBuilder P :=
  {| builder_policy := builder_policy b; keys_ := keys_ b ++ key; start_ := start_ b ++ [blen (keys_ b)];
     result_ := result_ b; tmp_keys_ := tmp_keys_ b; filter_offsets_ := filter_offsets_ b |}.

Definition Finish b : outcome (FilterBlockBuilder P * bytes) :=
  b ← match start_ b with [] => Done b | _ :: _ => GenerateFilter b end;
  let array_offset := u32 (blen (result_ b)) in
  let result := fold_left PutFixed32 (filter_offsets_ b) (result_ b) in
  let result := PutFixed32 result array_offset ++ [z2b kFilterBaseLg] in
  Done ({| builder_policy := builder_policy b; keys_ := keys_ b; start_ := start_ b; result_ := result;
           tmp_keys_ := tmp_keys_ b; filter_offsets_ := filter_offsets_ b |}, result).

Definition make_FilterBlockReader (policy : P) (contents : bytes) : outcome (FilterBlockReader P) :=
  let n := blen contents in
  if n <? 5 then Done {| reader_policy := policy; data_ := None; offset_ := 0; num_ := 0; base_lg_ := 0 |} else
  match contents !! Z.to_nat (n - 1) with
  | None => Undefined
  | Some c =>
      let base_lg := size_of_char c in
      last_word ← DecodeFixed32 (drop (Z.to_nat (n - 5)) contents);
      if n - 5 <? last_word
      then Done {| reader_policy := policy; data_ := None; offset_ := 0; num_ := 0; base_lg_ := base_lg |}
      else Done {| reader_policy := policy; data_ := Some contents; offset_ := last_word;
                   num_ := (n - 5 - last_word) / 4; base_lg_ := base_lg |}
  end.

(** a shift by the width of its operand or more is undefined *)
Definition KeyMayMatch (r : FilterBlockReader P) (block_offset : Z) (key : bytes) : outcome bool :=
  if 64 <=? base_lg_ r then Undefined else
  let index := Z.shiftr block_offset (base_lg_ r) in
  if index <? num_ r then
    match data_ r with
    | None => Undefined
    | Some data =>
        let at_ i := DecodeFixed32 (drop (Z.to_nat (offset_ r + i)) data) in
        start ← at_ (index * 4);
        limit ← at_ (index * 4 + 4);
        if (start <=? limit) && (limit <=? offset_ r)
        then policy_KeyMayMatch (reader_policy r) key (take (Z.to_nat (limit - start)) (drop (Z.to_nat start) data))
        else if start =? limit then Done false else Done true
    end
  else Done true.
End FilterBlock.

(** ** Running sums *)

(** where each of a list of strings starts, when they lie one behind the other from [o] on *)
Fixpoint offsets (o : Z) (l : list bytes) : list Z :=
  match l with [] => [] | f :: l' => o :: offsets (o + blen f) l' end.

Lemma blen_concat_cons (f : bytes) l : blen (concat (f :: l)) = blen f + blen (concat l).
Proof. simpl. apply blen_app. Qed.

Lemma length_offsets o l : length (offsets o l) = length l.
Proof. revert o; induction l; intros; simpl; auto. Qed.

Lemma offsets_app o l l' : offsets o (l ++ l') = offsets o l ++ offsets (o + blen (concat l)) l'.
Proof.
  revert o; induction l as [|f l IH]; intros o; [by cbn; rewrite Z.add_0_r|].
  cbn [app offsets]. by rewrite IH, blen_concat_cons, Z.add_assoc.
Qed.

Lemma slices_offsets pre l :
  slices (pre ++ concat l) (offsets (blen pre) l ++ [blen pre + blen (concat l)]) = l.
Proof.
  revert pre; induction l as [|f l IH]; intros pre; [done|].
  rewrite blen_concat_cons. cbn [offsets concat app]. specialize (IH (pre ++ f)).
  rewrite blen_app, <- app_assoc in IH. rewrite <- Z.add_assoc in IH.
  assert (Hhd : exists tl, offsets (blen pre + blen f) l ++ [blen pre + (blen f + blen (concat l))] =
    (blen pre + blen f) :: tl).
  { destruct l; simpl; [|by eexists]. rewrite blen_nil, Z.add_0_r. by eexists. }
  destruct Hhd as [tl E]. cbn [slices]. rewrite IH, E. f_equal.
  rewrite blen_to_nat, drop_app_exact. replace (Z.to_nat (blen pre + blen f - blen pre)) with (length f) by (unfold blen; lia).
  apply take_app_exact.
Qed.

(** the i-th string, cut out between the i-th start and the next one *)
Lemma offsets_lookup o l rest i f :
  l !! i = Some f -> 0 <= o ->
  exists start, (offsets o l ++ [o + blen (concat l)]) !! i = Some start /\
    (offsets o l ++ [o + blen (concat l)]) !! S i = Some (start + blen f) /\
    o <= start /\ start + blen f <= o + blen (concat l) /\
    take (length f) (drop (Z.to_nat (start - o)) (concat l ++ rest)) = f.
Proof.
  revert o i; induction l as [|g l IH]; intros o i Hi Ho; [by destruct i|].
  pose proof (blen_nonneg g). rewrite blen_concat_cons, Z.add_assoc. destruct i as [|i]; cbn [lookup] in Hi.
  - injection Hi as ->. exists o. split; [done|]. split.
    { destruct l; simpl; [by rewrite blen_nil, Z.add_0_r|done]. }
    pose proof (blen_nonneg (concat l)). split; [lia|]. split; [lia|]. rewrite Z.sub_diag.
    cbn [concat Z.to_nat drop]. rewrite <- app_assoc. apply take_app_exact.
  - destruct (IH (o + blen g) i Hi ltac:(lia)) as (start & E1 & E2 & H1 & H2 & Et).
    exists start. cbn [offsets app]. split; [done|]. split; [done|]. split; [lia|]. split; [lia|].
    etrans; [|exact Et]. f_equal. cbn [concat]. rewrite <- app_assoc.
    replace (Z.to_nat (start - o)) with (length g + Z.to_nat (start - (o + blen g)))%nat by (unfold blen in *; lia).
    by rewrite <- drop_drop, drop_app_exact.
Qed.

(** [PutFixed32] of each element, and reading the i-th back *)
Lemma fold_PutFixed32 l s : fold_left PutFixed32 l s = s ++ concat (map EncodeFixed32 l).
Proof.
  revert s; induction l as [|x l IH]; intros s; [by rewrite app_nil_r|].
  simpl fold_left. rewrite IH. unfold PutFixed32. by rewrite <- app_assoc.
Qed.

Lemma blen_fixed32_array l : blen (concat (map EncodeFixed32 l)) = 4 * Z.of_nat (length l).
Proof. induction l as [|x l IH]; [done|]. cbn [map]. rewrite blen_concat_cons, IH, blen_EncodeFixed32. cbn [length]. lia. Qed.

Lemma fixed32_array_lookup l i x rest :
  l !! i = Some x -> 0 <= x < 2 ^ 32 ->
  DecodeFixed32 (drop (4 * i) (concat (map EncodeFixed32 l) ++ rest)) = Done x.
Proof.
  revert i; induction l as [|y l IH]; intros i Hi Hx; [by destruct i|]. destruct i as [|i]; cbn [lookup] in Hi.
  - injection Hi as ->. cbn [map concat Nat.mul drop]. rewrite <- app_assoc. by apply Fixed32_roundtrip.
  - cbn [map concat]. rewrite <- app_assoc. replace (4 * S i)%nat with (length (EncodeFixed32 y) + 4 * i)%nat by (simpl; lia).
    rewrite <- drop_drop, drop_app_exact. by apply IH.
Qed.

(** ** The builder's state

    [gs] holds the keys of each filter; the last of them is still pending. *)

Section Spec.
Context {P : Type} `{!FilterPolicy P} `{!FilterPolicyOk P}.
Implicit Types b : FilterBlockBuilder P.

Definition filter_of (p : P) (ks : list bytes) (f : bytes) : Prop :=
  forall key k, key ∈ ks -> same_key p key k -> policy_KeyMayMatch p k f = Done true.

Record generated (p : P) b (done : list (list bytes)) (pending fs : list bytes) : Prop := {
  gen_policy : builder_policy b = p;
  gen_keys : keys_ b = concat pending;
  gen_start : start_ b = offsets 0 pending;
  gen_result : result_ b = concat fs;
  gen_offsets : filter_offsets_ b = map u32 (offsets 0 fs);
  gen_filters : Forall2 (filter_of p) done fs;
  gen_size : blen (concat fs) <= 2 * filter_bytes p * Z.of_nat (length (concat done)) }.

Definition filter_inv (p : P) b (gs : list (list bytes)) : Prop :=
  policy_ok p /\ Forall (Forall (filter_key p)) gs /\ Z.of_nat (length (concat gs)) < 2 ^ 31 /\
  exists done pending fs, gs = done ++ [pending] /\ generated p b done pending fs.

Lemma filter_inv_init p : policy_ok p -> filter_inv p (make_FilterBlockBuilder p) [[]].
Proof.
  intros Hp. split; [done|]. split; [by repeat constructor|]. split; [done|]. exists [], [], []. split; [done|].
  split; try done; simpl. by rewrite Z.mul_0_r.
Qed.

Lemma GenerateFilter_spec p b gs :
  filter_inv p b gs -> exists b', GenerateFilter b = Done b' /\ filter_inv p b' (gs ++ [[]]).
Proof.
  intros (Hp & Hk & Hl & done & pending & fs & -> & [Ep Ek Es Er Eo Ef Esz]).
  assert (Hinv : forall b' f, filter_of p pending f -> blen f <= 2 * filter_bytes p * Z.of_nat (length pending) ->
    builder_policy b' = p -> keys_ b' = [] -> start_ b' = [] -> result_ b' = concat fs ++ f ->
    filter_offsets_ b' = filter_offsets_ b ++ [u32 (blen (result_ b))] -> filter_inv p b' ((done ++ [pending]) ++ [[]])).
  { intros b' f Hf Hfs E1 E2 E3 E4 E5. split; [done|]. split; [apply list.Forall_app; split; [done|by repeat constructor]|].
    split; [by rewrite concat_app, app_nil_r|]. exists (done ++ [pending]), [], (fs ++ [f]). split; [done|].
    constructor; [done..| | | |].
    - by rewrite concat_app, E4; simpl; rewrite app_nil_r.
    - by rewrite E5, Eo, offsets_app, map_app, Er, Z.add_0_l.
    - apply Forall2_app; [done|]. by repeat constructor.
    - rewrite !concat_app, blen_app, length_app. simpl. rewrite !app_nil_r. lia. }
  apply list.Forall_app in Hk as [_ Hk]. inversion Hk as [|? ? Hpend _]; subst.
  rewrite concat_app, length_app in Hl. simpl in Hl. rewrite app_nil_r in Hl.
  unfold GenerateFilter. rewrite Es, length_offsets.
  destruct (Z.eqb_spec (Z.of_nat (length pending)) 0) as [E|E].
  - destruct pending; [|simpl in E; lia]. eexists. split; [done|].
    apply (Hinv _ []); try done; [| |by rewrite app_nil_r].
    + intros key k Hin. by apply elem_of_nil in Hin.
    + rewrite blen_nil. simpl. lia.
  - rewrite Ek. pose proof (slices_offsets [] pending) as Hs. cbn [app] in Hs. rewrite blen_nil, Z.add_0_l in Hs. rewrite Hs.
    rewrite (take_ge pending) by (unfold i32; rewrite Z.mod_small by lia; lia).
    destruct (filter_complete (builder_policy b) pending (result_ b) Hp ltac:(lia) Hpend) as (f & Ef' & Hs' & Hm).
    rewrite Ef'. cbn [mbind outcome_bind]. eexists. split; [done|]. apply (Hinv _ f); try done.
    + pose proof (filter_bytes_nonneg (builder_policy b) Hp). nia.
    + cbn [result_]. by rewrite Er.
Qed.

Lemma filter_inv_offsets p b gs : filter_inv p b gs -> S (length (filter_offsets_ b)) = length gs.
Proof.
  intros (_ & _ & _ & done & pending & fs & -> & [_ _ _ _ Eo Ef _]).
  rewrite Eo, length_map, length_offsets, length_app, (list.Forall2_length _ _ _ Ef). simpl. lia.
Qed.

(** [StartBlock] opens filters up to the one of the offset *)
Lemma StartBlock_spec p b gs block_offset :
  filter_inv p b gs -> Z.of_nat (length gs) <= block_offset / kFilterBase + 1 ->
  exists b' k, StartBlock b block_offset = Done b' /\ filter_inv p b' (gs ++ replicate k []) /\
    Z.of_nat (length (gs ++ replicate k [])) = block_offset / kFilterBase + 1.
Proof.
  intros Hb Hoff. unfold StartBlock. set (idx := block_offset / kFilterBase) in *.
  pose proof (filter_inv_offsets p b gs Hb) as Hlen.
  rewrite (proj2 (Z.leb_le _ _)) by lia. cbn [c_assert mbind outcome_bind].
  assert (Hloop : forall fuel b gs, filter_inv p b gs -> idx - (Z.of_nat (length gs) - 1) <= Z.of_nat fuel ->
    Z.of_nat (length gs) <= idx + 1 ->
    exists b' k, StartBlock_loop fuel idx b = Done b' /\ filter_inv p b' (gs ++ replicate k []) /\
      Z.of_nat (length (gs ++ replicate k [])) = idx + 1).
  { clear b gs Hb Hoff Hlen. induction fuel as [|fuel IH]; intros b gs Hb Hf Hoff; pose proof (filter_inv_offsets p b gs Hb) as Hlen;
      cbn [StartBlock_loop]; destruct (Z.ltb_spec (Z.of_nat (length (filter_offsets_ b))) idx) as [Hlt|Hge]; try lia;
      try (exists b, O; cbn [replicate]; rewrite app_nil_r; split; [done|split; [done|lia]]).
    destruct (GenerateFilter_spec p b gs Hb) as (b1 & E1 & Hb1). rewrite E1. cbn [mbind outcome_bind].
    destruct (IH b1 _ Hb1) as (b' & k & E & Hb' & Hl); rewrite ?length_app in *; simpl in *; try lia.
    exists b', (S k). rewrite <- app_assoc in Hb'. simpl in *. split; [done|]. split; [done|]. rewrite length_app. simpl. lia. }
  apply Hloop; [done|lia|lia].
Qed.

Lemma AddKey_spec p b gs g key :
  filter_inv p b (gs ++ [g]) -> filter_key p key -> Z.of_nat (length (concat (gs ++ [g]))) + 1 < 2 ^ 31 ->
  filter_inv p (AddKey b key) (gs ++ [g ++ [key]]).
Proof.
  intros (Hp & Hk & Hl & done & pending & fs & E & [Ep Ek Es Er Eo Ef Esz]) Hkey Hn.
  apply app_inj_tail in E as [<- <-]. split; [done|]. apply list.Forall_app in Hk as [Hk1 Hk2].
  inversion Hk2 as [|? ? Hg _]; subst. split.
  { apply list.Forall_app. split; [done|]. repeat constructor. apply list.Forall_app. split; [done|by repeat constructor]. }
  rewrite concat_app, length_app in *. simpl in *. rewrite !app_nil_r, ?length_app in *. simpl. split; [lia|].
  exists gs, (g ++ [key]), fs. split; [done|]. constructor; try done; unfold AddKey; cbn [keys_ start_].
  - rewrite concat_app, Ek. simpl. by rewrite app_nil_r.
  - by rewrite Es, offsets_app, Ek.
Qed.

(** ** What a reader of a finished block sees *)

(** the block: the filters, the start of each and of the array, the parameter *)
Definition filter_block (fs : list bytes) : bytes :=
  concat fs ++ concat (map EncodeFixed32 (offsets 0 fs ++ [blen (concat fs)])) ++ [z2b kFilterBaseLg].

Lemma offsets_range o l x : x ∈ offsets o l -> o <= x <= o + blen (concat l).
Proof.
  revert o; induction l as [|f l IH]; intros o Hx; [by apply elem_of_nil in Hx|].
  rewrite blen_concat_cons. pose proof (blen_nonneg f). pose proof (blen_nonneg (concat l)).
  apply elem_of_cons in Hx as [->|Hx]; [lia|]. apply IH in Hx. lia.
Qed.

Lemma EncodeFixed32_u32 z : EncodeFixed32 (u32 z) = EncodeFixed32 z.
Proof.
  rewrite !EncodeFixed32_le. unfold u32. pose proof (le_bytes_le_val (le_bytes 4 z)) as H1.
  pose proof (le_bytes_le_val (le_bytes 4 (z mod 2 ^ 32))) as H2. rewrite length_le_bytes, le_val_le_bytes in H1, H2.
  change (256 ^ Z.of_nat 4) with (2 ^ 32) in *. rewrite Z.mod_mod in H2 by lia. congruence.
Qed.

Lemma Finish_block p b gs :
  filter_inv p b gs ->
  exists b' fs done, Finish b = Done (b', filter_block fs) /\ Forall2 (filter_of p) done fs /\
    blen (concat fs) <= 2 * filter_bytes p * Z.of_nat (length (concat done)) /\
    (gs = done \/ gs = done ++ [[]]).
Proof.
  intros Hb. assert (Hgen : exists b' fs done pending,
    match start_ b with [] => Done b | _ :: _ => GenerateFilter b end = Done b' /\
    generated p b' done pending fs /\ pending = [] /\ (gs = done \/ gs = done ++ [[]])).
  { destruct (start_ b) as [|x start] eqn:Est.
    - destruct Hb as (_ & _ & _ & done & pending & fs & -> & Hg).
      destruct pending as [|k pending]; [|rewrite (gen_start _ _ _ _ _ Hg) in Est; discriminate].
      exists b, fs, done, []. split; [done|]. split; [done|]. split; [done|by right].
    - destruct (GenerateFilter_spec p b gs Hb) as (b' & E & (_ & _ & _ & done & pending & fs & E2 & Hg)).
      apply app_inj_tail in E2 as [-> <-]. exists b', fs, done, []. split; [done|]. split; [done|]. split; [done|by left]. }
  destruct Hgen as (b' & fs & done & pending & E & [Ep Ek Es Er Eo Ef Esz] & -> & Hgs).
  unfold Finish. rewrite E. cbn [mbind outcome_bind]. eexists _, fs, done. split; [|done].
  do 2 f_equal. unfold filter_block, PutFixed32. rewrite fold_PutFixed32, Eo, Er, map_map, EncodeFixed32_u32.
  rewrite (map_ext _ EncodeFixed32) by apply EncodeFixed32_u32.
  rewrite map_app, concat_app. cbn [map concat]. by rewrite app_nil_r, <- !app_assoc.
Qed.

(** a finished block, opened *)
Definition block_reader (p : P) (fs : list bytes) : FilterBlockReader P :=
  {| reader_policy := p; data_ := Some (filter_block fs); offset_ := blen (concat fs);
     num_ := Z.of_nat (length fs); base_lg_ := kFilterBaseLg |}.

Lemma blen_filter_block fs : blen (filter_block fs) = blen (concat fs) + 4 * Z.of_nat (length fs) + 5.
Proof.
  unfold filter_block. rewrite !blen_app, blen_fixed32_array, length_app, length_offsets, blen_cons, blen_nil. simpl. lia.
Qed.

Lemma make_FilterBlockReader_spec p fs :
  blen (filter_block fs) < 2 ^ 32 -> make_FilterBlockReader p (filter_block fs) = Done (block_reader p fs).
Proof.
  intros Hl. unfold make_FilterBlockReader, block_reader. rewrite blen_filter_block in *.
  pose proof (blen_nonneg (concat fs)). set (m := Z.of_nat (length fs)) in *.
  rewrite (proj2 (Z.ltb_ge _ _)) by lia.
  set (pre := concat fs ++ concat (map EncodeFixed32 (offsets 0 fs))).
  assert (Hpre : blen pre = blen (concat fs) + 4 * m).
  { unfold pre. rewrite blen_app, blen_fixed32_array, length_offsets. done. }
  assert (Eb : filter_block fs = pre ++ EncodeFixed32 (blen (concat fs)) ++ [z2b kFilterBaseLg]).
  { unfold filter_block, pre. rewrite map_app, concat_app. cbn [map concat]. by rewrite app_nil_r, <- !app_assoc. }
  rewrite Eb. rewrite (app_assoc pre). set (front := pre ++ EncodeFixed32 (blen (concat fs))).
  assert (Hfront : length front = Z.to_nat (blen (concat fs) + 4 * m + 5 - 1)).
  { unfold front. rewrite length_app. unfold blen in *. simpl. lia. }
  rewrite <- Hfront, list_lookup_middle by done. unfold front. rewrite <- app_assoc.
  replace (Z.to_nat (blen (concat fs) + 4 * m + 5 - 5)) with (length pre) by (unfold blen in *; lia).
  rewrite drop_app_exact, Fixed32_roundtrip by lia. cbn [mbind outcome_bind].
  rewrite (proj2 (Z.ltb_ge _ _)) by lia. do 2 f_equal. symmetry. apply Z.div_unique_exact; lia.
Qed.

(** The reader cuts out the filter of the block's offset, and asks the policy. *)
Lemma KeyMayMatch_block p fs off key :
  blen (filter_block fs) < 2 ^ 32 -> 0 <= off ->
  KeyMayMatch (block_reader p fs) off key =
    match fs !! Z.to_nat (off / kFilterBase) with Some f => policy_KeyMayMatch p key f | None => Done true end.
Proof.
  intros Hl Hoff. rewrite blen_filter_block in Hl. pose proof (blen_nonneg (concat fs)).
  unfold KeyMayMatch, block_reader. cbn [base_lg_ num_ data_ offset_ reader_policy]. rewrite (proj2 (Z.leb_gt _ _)) by done.
  rewrite Z.shiftr_div_pow2 by done. change (2 ^ kFilterBaseLg) with kFilterBase.
  set (i := off / kFilterBase). assert (0 <= i) by (apply Z.div_pos; [done|done]).
  destruct (Z.ltb_spec i (Z.of_nat (length fs))) as [Hi|Hi]; [|by rewrite lookup_ge_None_2 by lia].
  destruct (lookup_lt_is_Some_2 fs (Z.to_nat i)) as [f Ef]; [lia|]. rewrite Ef.
  destruct (offsets_lookup 0 fs
    (concat (map EncodeFixed32 (offsets 0 fs ++ [blen (concat fs)])) ++ [z2b kFilterBaseLg]) _ _ Ef ltac:(done))
    as (start & E1 & E2 & H1 & H2 & Et).
  rewrite Z.add_0_l in *. pose proof (blen_nonneg f). unfold filter_block.
  assert (Hat : forall j x, (offsets 0 fs ++ [blen (concat fs)]) !! j = Some x -> 0 <= x < 2 ^ 32 ->
    DecodeFixed32 (drop (Z.to_nat (blen (concat fs) + 4 * Z.of_nat j))
      (concat fs ++ concat (map EncodeFixed32 (offsets 0 fs ++ [blen (concat fs)])) ++ [z2b kFilterBaseLg])) = Done x).
  { intros j x Hj Hx. replace (Z.to_nat (blen (concat fs) + 4 * Z.of_nat j)) with (length (concat fs) + 4 * j)%nat
      by (unfold blen; lia). rewrite <- drop_drop, drop_app_exact. by apply fixed32_array_lookup. }
  replace (i * 4) with (4 * Z.of_nat (Z.to_nat i)) by lia.
  rewrite (Hat _ _ E1) by lia. cbn [mbind outcome_bind].
  replace (4 * Z.of_nat (Z.to_nat i) + 4) with (4 * Z.of_nat (S (Z.to_nat i))) by lia.
  rewrite (Hat _ _ E2) by lia. cbn [mbind outcome_bind].
  rewrite (proj2 (Z.leb_le _ _)), (proj2 (Z.leb_le _ _)) by lia. cbn [andb]. f_equal.
  replace (Z.to_nat (start + blen f - start)) with (length f) by (unfold blen; lia). by rewrite Z.sub_0_r in Et.
Qed.

(** Everything together: the block of a finished builder, opened, lets every key
    of a filter through for the offsets of that filter, and answers all questions. *)
Lemma filter_block_spec p b gs :
  filter_inv p b gs ->
  exists b' contents, Finish b = Done (b', contents) /\
    blen contents <= 2 * filter_bytes p * Z.of_nat (length (concat gs)) + 4 * Z.of_nat (length gs) + 5 /\
    (blen contents < 2 ^ 32 ->
    exists r, make_FilterBlockReader p contents = Done r /\
      (forall off ks key k, gs !! Z.to_nat (off / kFilterBase) = Some ks -> 0 <= off -> key ∈ ks -> same_key p key k ->
         KeyMayMatch r off k = Done true) /\
      (forall off k, 0 <= off -> filter_key p k -> exists m : bool, KeyMayMatch r off k = Done m)).
Proof.
  intros Hb. destruct (Finish_block p b gs Hb) as (b' & fs & done & E & Hf & Hfs & Hgs). exists b', (filter_block fs).
  split; [exact E|]. split.
  { rewrite blen_filter_block, <- (list.Forall2_length _ _ _ Hf).
    destruct Hgs as [->| ->]; rewrite ?concat_app, ?length_app; simpl; rewrite ?app_nil_r; simpl; lia. }
  intros Hl. exists (block_reader p fs). split; [by apply make_FilterBlockReader_spec|].
  split; intros off.
  - intros ks key k Hks Hoff Hkey Hsame. rewrite KeyMayMatch_block by lia.
    assert (Hd : done !! Z.to_nat (off / kFilterBase) = Some ks).
    { destruct Hgs as [->| ->]; [exact Hks|]. apply lookup_app_Some in Hks as [Hks|[_ Hks]]; [exact Hks|].
      apply list_lookup_singleton_Some in Hks as [_ <-]. by apply elem_of_nil in Hkey. }
    destruct (Forall2_lookup_l _ _ _ _ _ Hf Hd) as (f & Ef & Hm). rewrite Ef. by eapply Hm.
  - intros k Hoff Hk. rewrite KeyMayMatch_block by lia. destruct Hb as [Hp _].
    destruct (fs !! _) as [f|] eqn:Ef; [|by eexists]. apply filter_total; [exact Hp|exact Hk|].
    rewrite blen_filter_block in Hl. destruct (offsets_lookup 0 fs [] _ _ Ef ltac:(reflexivity)) as (? & _ & _ & ? & ? & _). lia.
Qed.
End Spec.
