(* ===== verification/Block.v ===== *)
(** * Block: table/block_builder.h, block_builder.cc, block.h and block.cc

    A block of a table: entries in key order, each key without the prefix it
    shares with the one before it; at the end the offsets of the entries that
    are stored whole ([restarts]).  A position in a block is an offset; a
    pointer past the block is never followed. *)

From Stdlib.Strings Require Import Byte.
From S2P Require Import Prelude Status Coding DbFormat WriteBatch.

(** [BytewiseComparator()->Compare], as a comparator that could fail *)
Definition bytewise (a b : bytes) : outcome Z := Done (Compare a b).

(** ** Building *)

Section Builder.
Variable compare_ : bytes -> bytes -> outcome Z.

(** [options_] is its restart interval; the comparator is the section's *)
Record BlockBuilder := {
  block_restart_interval : Z; buffer_ : bytes; restarts_ : list Z; counter_ : Z; finished_ : bool;
  last_key_ : bytes }.

Definition make_BlockBuilder (interval : Z) : outcome BlockBuilder :=
  _ ← c_assert (1 <=? interval);
  Done {| block_restart_interval := interval; buffer_ := []; restarts_ := [0]; counter_ := 0;
          finished_ := false; last_key_ := [] |}.

Definition Reset (b : BlockBuilder) : BlockBuilder :=
  {| block_restart_interval := block_restart_interval b; buffer_ := []; restarts_ := [0]; counter_ := 0;
     finished_ := false; last_key_ := [] |}.

Definition CurrentSizeEstimate (b : BlockBuilder) : Z :=
  blen (buffer_ b) + Z.of_nat (length (restarts_ b)) * 4 + 4.

Definition builder_empty (b : BlockBuilder) : bool := blen (buffer_ b) =? 0.

(** the block and the builder that still holds it *)
Definition Finish (b : BlockBuilder) : BlockBuilder * bytes :=
  let buffer := fold_left PutFixed32 (restarts_ b) (buffer_ b) in
  let buffer := PutFixed32 buffer (u32 (Z.of_nat (length (restarts_ b)))) in
  ({| block_restart_interval := block_restart_interval b; buffer_ := buffer; restarts_ := restarts_ b;
      counter_ := counter_ b; finished_ := true; last_key_ := last_key_ b |}, buffer).

(** "<shared><non_shared><value_size>", the rest of the key, the value *)
Definition entry_bytes (shared : nat) (key value : bytes) : bytes :=
  EncodeVarint32 (u32 (Z.of_nat shared)) ++ EncodeVarint32 (u32 (blen key - Z.of_nat shared)) ++
  EncodeVarint32 (u32 (blen value)) ++ drop shared key ++ value.

(** the shared prefix is that of [diff_index] *)
Definition Add (b : BlockBuilder) (key value : bytes) : outcome BlockBuilder :=
  _ ← c_assert (negb (finished_ b));
  _ ← c_assert (counter_ b <=? block_restart_interval b);
  _ ← (if builder_empty b then Done tt else r ← compare_ key (last_key_ b); c_assert (0 <? r));
  let '(shared, restarts, counter) :=
    if counter_ b <? block_restart_interval b
    then (diff_index (last_key_ b) key, restarts_ b, counter_ b)
    else (O, restarts_ b ++ [u32 (blen (buffer_ b))], 0) in
  let buffer := buffer_ b ++ entry_bytes shared key value in
  let last_key := take shared (last_key_ b) ++ drop shared key in
  _ ← c_assert (bool_decide (last_key = key));
  Done {| block_restart_interval := block_restart_interval b; buffer_ := buffer; restarts_ := restarts;
          counter_ := counter + 1; finished_ := finished_ b; last_key_ := last_key |}.
End Builder.

(** ** Reading *)

Record Block := { data_ : bytes; size_ : Z; restart_offset_ : Z }.

Definition NumRestarts (b : Block) : outcome Z :=
  _ ← c_assert (4 <=? size_ b);
  DecodeFixed32 (drop (Z.to_nat (size_ b - 4)) (data_ b)).

(** [restart_offset_] is left unset when the contents are bad *)
Definition make_Block (contents : bytes) : outcome Block :=
  let b size restart := {| data_ := contents; size_ := size; restart_offset_ := restart |} in
  let size := blen contents in
  if size <? 4 then Done (b 0 0) else
  let max_restarts_allowed := (size - 4) / 4 in
  n ← NumRestarts (b size 0);
  if max_restarts_allowed <? n then Done (b 0 0) else Done (b size (u32 (size - u32 (1 + n) * 4))).

(** [size] bytes read from [offset] on *)
Definition read_bytes (data : bytes) (offset size : Z) : outcome bytes :=
  if size =? 0 then Done []
  else if blen data <? offset + size then Undefined
  else Done (take (Z.to_nat size) (drop (Z.to_nat offset) data)).

(** what lies between two pointers into the data *)
Definition between (data : bytes) (p limit : Z) : bytes :=
  if limit <=? p then [] else take (Z.to_nat (limit - p)) (drop (Z.to_nat p) data).

(** [p] is what lies between the two pointers; the result is [shared],
    [non_shared], [value_length] and what lies after them *)
Definition DecodeEntry (p : bytes) : option (Z * Z * Z * bytes) :=
  match p with
  | b0 :: b1 :: b2 :: tl =>
      let fields :=
        if Z.lor (Z.lor (b2z b0) (b2z b1)) (b2z b2) <? 128
        then Some (b2z b0, b2z b1, b2z b2, tl)
        else
          '(shared, p) ← GetVarint32Ptr p;
          '(non_shared, p) ← GetVarint32Ptr p;
          '(value_length, p) ← GetVarint32Ptr p;
          Some (shared, non_shared, value_length, p) in
      '(shared, non_shared, value_length, p) ← fields;
      if u32 (blen p) <? u32 (non_shared + value_length) then None
      else Some (shared, non_shared, value_length, p)
  | _ => None
  end.

(** [Block::Iter]; [it_value] is where the value starts and its length, none for a
    slice that does not point into the block *)
Record Iter := {
  it_data : bytes; it_restarts : Z; it_num_restarts : Z;
  it_current : Z; it_restart_index : Z; it_key : bytes; it_value : option (Z * Z); it_status : Status }.

Definition make_Iter (data : bytes) (restarts num_restarts : Z) : outcome Iter :=
  _ ← c_assert (0 <? num_restarts);
  Done {| it_data := data; it_restarts := restarts; it_num_restarts := num_restarts; it_current := restarts;
          it_restart_index := num_restarts; it_key := []; it_value := None; it_status := OK |}.

(** the position and what is read there *)
Definition it_at (it : Iter) (current index : Z) (key : bytes) (value : option (Z * Z)) (st : Status) : Iter :=
  {| it_data := it_data it; it_restarts := it_restarts it; it_num_restarts := it_num_restarts it;
     it_current := current; it_restart_index := index; it_key := key; it_value := value; it_status := st |}.

Definition Valid (it : Iter) : bool := it_current it <? it_restarts it.

Definition NextEntryOffset (it : Iter) : outcome Z :=
  match it_value it with Some (offset, size) => Done (u32 (offset + size)) | None => Undefined end.

Definition GetRestartPoint (it : Iter) (index : Z) : outcome Z :=
  _ ← c_assert (index <? it_num_restarts it);
  DecodeFixed32 (drop (Z.to_nat (it_restarts it + index * 4)) (it_data it)).

Definition SeekToRestartPoint (it : Iter) (index : Z) : outcome Iter :=
  offset ← GetRestartPoint it index;
  Done (it_at it (it_current it) index [] (Some (offset, 0)) (it_status it)).

Definition CorruptionError (it : Iter) : Iter :=
  it_at it (it_restarts it) (it_num_restarts it) [] None (Corruption (text "bad entry in block")).

(** no more entries: the position is invalid, the key and the value stay *)
Definition at_end (it : Iter) : Iter :=
  it_at it (it_restarts it) (it_num_restarts it) (it_key it) (it_value it) (it_status it).

(** the [while] loop at the end of [ParseNextKey]: at most a round for each restart *)
Fixpoint advance_restart_index (fuel : nat) (it : Iter) : outcome Iter :=
  if u32 (it_restart_index it + 1) <? it_num_restarts it then
    p ← GetRestartPoint it (u32 (it_restart_index it + 1));
    if p <? it_current it then
      match fuel with
      | O => Hangs
      | S fuel' => advance_restart_index fuel'
          (it_at it (it_current it) (u32 (it_restart_index it + 1)) (it_key it) (it_value it) (it_status it))
      end
    else Done it
  else Done it.

Definition ParseNextKey (it : Iter) : outcome (Iter * bool) :=
  current ← NextEntryOffset it;
  let it := it_at it current (it_restart_index it) (it_key it) (it_value it) (it_status it) in
  if it_restarts it <=? current then Done (at_end it, false) else
  match DecodeEntry (between (it_data it) current (it_restarts it)) with
  | None => Done (CorruptionError it, false)
  | Some (shared, non_shared, value_length, rest) =>
      if blen (it_key it) <? shared then Done (CorruptionError it, false) else
      let p := it_restarts it - blen rest in
      delta ← read_bytes (it_data it) p non_shared;
      let key := take (Z.to_nat shared) (it_key it) ++ delta in
      it ← advance_restart_index (Z.to_nat (it_num_restarts it))
             (it_at it current (it_restart_index it) key (Some (p + non_shared, value_length)) (it_status it));
      Done (it, true)
  end.

Definition iter_key (it : Iter) : outcome bytes := _ ← c_assert (Valid it); Done (it_key it).
(** the bytes of the value *)
Definition iter_value (it : Iter) : outcome bytes :=
  _ ← c_assert (Valid it);
  match it_value it with
  | None => Done []
  | Some (offset, size) => read_bytes (it_data it) offset size
  end.

Definition Next (it : Iter) : outcome Iter :=
  _ ← c_assert (Valid it);
  '(it, _) ← ParseNextKey it;
  Done it.

(** the loops [while (ParseNextKey() && NextEntryOffset() < original)], in both
    forms: an entry has three bytes at least *)
Fixpoint skip_to (fuel : nat) (original : Z) (it : Iter) : outcome Iter :=
  match fuel with
  | O => Hangs
  | S fuel' =>
      '(it, ok) ← ParseNextKey it;
      if (ok : bool) then
        n ← NextEntryOffset it;
        if n <? original then skip_to fuel' original it else Done it
      else Done it
  end.

(** the backward scan: true when there are no more entries *)
Fixpoint Prev_loop (fuel : nat) (original : Z) (it : Iter) : outcome (Iter * bool) :=
  p ← GetRestartPoint it (it_restart_index it);
  if original <=? p then
    if it_restart_index it =? 0 then Done (at_end it, true) else
    match fuel with
    | O => Hangs
    | S fuel' => Prev_loop fuel' original
        (it_at it (it_current it) (it_restart_index it - 1) (it_key it) (it_value it) (it_status it))
    end
  else Done (it, false).

Definition Prev (it : Iter) : outcome Iter :=
  _ ← c_assert (Valid it);
  let original := it_current it in
  '(it, done) ← Prev_loop (Z.to_nat (it_restart_index it)) original it;
  if (done : bool) then Done it else
  it ← SeekToRestartPoint it (it_restart_index it);
  skip_to (length (it_data it)) original it.

Definition SeekToFirst (it : Iter) : outcome Iter :=
  it ← SeekToRestartPoint it 0;
  '(it, _) ← ParseNextKey it;
  Done it.

Definition SeekToLast (it : Iter) : outcome Iter :=
  it ← SeekToRestartPoint it (it_num_restarts it - 1);
  skip_to (S (length (it_data it))) (it_restarts it) it.

Section Seek.
Variable compare_ : bytes -> bytes -> outcome Z.

(** the binary search in the restart array: [left] at the end, or none after a
    corrupted entry *)
Fixpoint Seek_search (fuel : nat) (target : bytes) (left_ right_ : Z) (it : Iter) : outcome (option Z) :=
  if left_ <? right_ then
    match fuel with
    | O => Hangs
    | S fuel' =>
        let mid := u32 (left_ + right_ + 1) / 2 in
        region_offset ← GetRestartPoint it mid;
        match DecodeEntry (between (it_data it) region_offset (it_restarts it)) with
        | None => Done None
        | Some (shared, non_shared, _, rest) =>
            if negb (shared =? 0) then Done None else
            mid_key ← read_bytes (it_data it) (it_restarts it - blen rest) non_shared;
            r ← compare_ mid_key target;
            if r <? 0 then Seek_search fuel' target mid right_ it
            else Seek_search fuel' target left_ (mid - 1) it
        end
    end
  else Done (Some left_).

(** the linear search for the first key that is not less than the target *)
Fixpoint Seek_scan (fuel : nat) (target : bytes) (it : Iter) : outcome Iter :=
  match fuel with
  | O => Hangs
  | S fuel' =>
      '(it, ok) ← ParseNextKey it;
      if negb ok then Done it else
      r ← compare_ (it_key it) target;
      if 0 <=? r then Done it else Seek_scan fuel' target it
  end.

Definition Seek (it : Iter) (target : bytes) : outcome Iter :=
  let right_ := it_num_restarts it - 1 in
  current_key_compare ← (if Valid it then compare_ (it_key it) target else Done 0);
  if Valid it && (current_key_compare =? 0) then Done it else
  let left_ := if current_key_compare <? 0 then it_restart_index it else 0 in
  let right_ := if 0 <? current_key_compare then it_restart_index it else right_ in
  found ← Seek_search (Z.to_nat (it_num_restarts it)) target left_ right_ it;
  match found with
  | None => Done (CorruptionError it)
  | Some left_ =>
      _ ← c_assert ((current_key_compare =? 0) || Valid it);
      let skip_seek := (left_ =? it_restart_index it) && (current_key_compare <? 0) in
      it ← (if skip_seek then Done it else SeekToRestartPoint it left_);
      Seek_scan (S (length (it_data it))) target it
  end.
End Seek.

(** what [NewIterator] makes: an iterator over the block, or an empty one with a
    status *)
Inductive BlockIterator := BlockIter (it : Iter) | EmptyIter (st : Status).

Definition NewIterator (b : Block) : outcome BlockIterator :=
  if size_ b <? 4 then Done (EmptyIter (Corruption (text "bad block contents"))) else
  num_restarts ← NumRestarts b;
  if num_restarts =? 0 then Done (EmptyIter OK)
  else it ← make_Iter (data_ b) (restart_offset_ b) num_restarts; Done (BlockIter it).
