(* ===== verification/BlockSpec.v ===== *)
(** * BlockSpec: a block is the sorted list it was built of

    [items_ok its rs]: the entries [its], each with the length of the prefix
    that is not stored, and the restart points [rs] make a well-formed block.
    The iterator over it is a cursor into the list; [Seek] stops at the first
    key that is not less than its target, wherever the iterator was before; and
    what [BlockBuilder] makes of increasing keys is such a block. *)

From Stdlib.Strings Require Import Byte.
From S2P Require Import Prelude Status Coding DbFormat WriteBatch SkipListSpec FilterBlock Block.

(** ** Comparators: only equal keys compare equal *)

Class ExactOrder (compare_ : bytes -> bytes -> outcome Z) `{KeyOrder bytes compare_} :=
  cmp_exact : forall a b, key_ok a -> key_ok b -> cmp a b = 0 -> a = b.

#[export] Instance bytewise_order : KeyOrder bytewise.
Proof.
  refine {| key_ok := fun _ => True; cmp := lex |}.
  - intros a b _ _. unfold bytewise, Compare. by rewrite slice_compare_lex.
  - intros a b _ _. apply lex_antisym.
  - intros a b c _ _ _. apply lex_trans.
Defined.
#[export] Instance bytewise_exact : ExactOrder bytewise.
Proof. intros a b _ _. apply lex_eq. Qed.

Definition ikey_ok (k : bytes) : Prop := exists u tag, k = ikey u tag /\ 0 <= tag < 2 ^ 64.
Definition ikey_cmp (a b : bytes) : Z := match Internal.Compare a b with Done r => r | _ => 0 end.

Lemma ikey_cmp_spec u1 t1 u2 t2 :
  0 <= t1 < 2 ^ 64 -> 0 <= t2 < 2 ^ 64 -> ikey_cmp (ikey u1 t1) (ikey u2 t2) = icompare u1 t1 u2 t2.
Proof. intros H1 H2. unfold ikey_cmp. by rewrite Internal_Compare_spec. Qed.

#[export] Instance internal_order : KeyOrder Internal.Compare.
Proof.
  refine {| key_ok := ikey_ok; cmp := ikey_cmp |}.
  - intros a b (u1 & t1 & -> & ?) (u2 & t2 & -> & ?). by rewrite ikey_cmp_spec, Internal_Compare_spec.
  - intros a b (u1 & t1 & -> & ?) (u2 & t2 & -> & ?). rewrite !ikey_cmp_spec by done. apply icompare_antisym.
  - intros a b c (u1 & t1 & -> & ?) (u2 & t2 & -> & ?) (u3 & t3 & -> & ?). rewrite !ikey_cmp_spec by done. apply icompare_trans.
Defined.
#[export] Instance internal_exact : ExactOrder Internal.Compare.
Proof.
  intros a b (u1 & t1 & -> & ?) (u2 & t2 & -> & ?). change (cmp (KeyOrder := internal_order)) with ikey_cmp.
  rewrite ikey_cmp_spec by done. intros E. by apply icompare_eq in E as [-> ->].
Qed.

(** ** Entries *)

Record item := { i_shared : nat; i_key : bytes; i_value : bytes }.
Definition enc (x : item) : bytes := entry_bytes (i_shared x) (i_key x) (i_value x).
Definition body (its : list item) : bytes := concat (map enc its).
(** where entry [n] starts *)
Definition off (its : list item) (n : nat) : Z := blen (body (take n its)).

Definition item_ok (x : item) : Prop :=
  blen (i_key x) < 2 ^ 32 /\ blen (i_value x) < 2 ^ 32 /\ (i_shared x <= length (i_key x))%nat.

Lemma lor_ge a b : 0 <= a -> 0 <= b -> a <= Z.lor a b.
Proof.
  intros Ha Hb. assert (Z.lor a b = a + Z.ldiff b a) as ->.
  { assert (Hl : Z.land a (Z.ldiff b a) = 0).
    { apply Z.bits_inj'. intros n Hn. rewrite Z.land_spec, Z.ldiff_spec, Z.bits_0.
      by destruct (Z.testbit a n), (Z.testbit b n). }
    rewrite Z.add_nocarry_lor by exact Hl. apply Z.bits_inj'. intros n Hn.
    rewrite !Z.lor_spec, Z.ldiff_spec. by destruct (Z.testbit a n), (Z.testbit b n). }
  pose proof (proj2 (Z.ldiff_nonneg b a) (or_introl Hb)). lia.
Qed.

(** the first byte of an encoded integer tells whether it is the only one *)
Lemma EncodeVarint32_head v :
  0 <= v < 2 ^ 32 -> exists b tl, EncodeVarint32 v = b :: tl /\ (b2z b < 128 -> tl = [] /\ b2z b = v).
Proof.
  intros Hv. unfold EncodeVarint32. rewrite !Z.shiftl_1_l. change (2 ^ 7) with 128.
  assert (Hmore : forall w, 128 <= b2z (more w)).
  { intros w. rewrite b2z_more. pose proof (Z.mod_pos_bound w 128 ltac:(lia)). lia. }
  destruct (Z.ltb_spec v 128).
  { eexists _, _. split; [done|]. intros _. split; [done|]. rewrite b2z_z2b. apply Z.mod_small. lia. }
  repeat (destruct (_ <? _); [eexists _, _; split; [done|]; intros Hlt; specialize (Hmore v); lia|]).
  eexists _, _. split; [done|]. intros Hlt. specialize (Hmore v). lia.
Qed.

Lemma GetVarint32Ptr_roundtrip v rest : 0 <= v < 2 ^ 32 -> GetVarint32Ptr (EncodeVarint32 v ++ rest) = Some (v, rest).
Proof. apply Varint32_roundtrip. Qed.

(** the fast path and the slow path read the same *)
Lemma DecodeEntry_fields a b c rest :
  0 <= a < 2 ^ 32 -> 0 <= b < 2 ^ 32 -> 0 <= c < 2 ^ 32 ->
  DecodeEntry (EncodeVarint32 a ++ EncodeVarint32 b ++ EncodeVarint32 c ++ rest) =
    if u32 (blen rest) <? u32 (b + c) then None else Some (a, b, c, rest).
Proof.
  intros Ha Hb Hc.
  assert (Hslow : ('(shared, p) ← GetVarint32Ptr (EncodeVarint32 a ++ EncodeVarint32 b ++ EncodeVarint32 c ++ rest);
          '(non_shared, p) ← GetVarint32Ptr p;
          '(value_length, p) ← GetVarint32Ptr p;
          Some (shared, non_shared, value_length, p)) = Some (a, b, c, rest)).
  { rewrite GetVarint32Ptr_roundtrip by done. simpl. rewrite GetVarint32Ptr_roundtrip by done. simpl.
    by rewrite GetVarint32Ptr_roundtrip by done. }
  destruct (EncodeVarint32_head a Ha) as (x & xs & Ex & Hx). destruct (EncodeVarint32_head b Hb) as (y & ys & Ey & Hy).
  destruct (EncodeVarint32_head c Hc) as (z & zs & Ez & Hz).
  set (l := EncodeVarint32 a ++ EncodeVarint32 b ++ EncodeVarint32 c ++ rest) in *.
  assert (Hl : exists b0 b1 b2 tl, l = b0 :: b1 :: b2 :: tl /\
    (Z.lor (Z.lor (b2z b0) (b2z b1)) (b2z b2) < 128 -> (b2z b0, b2z b1, b2z b2, tl) = (a, b, c, rest))).
  { unfold l. rewrite Ex, Ey, Ez.
    assert (Hlor : forall b0 b1 b2, Z.lor (Z.lor (b2z b0) (b2z b1)) (b2z b2) < 128 -> b2z b0 < 128 /\ b2z b1 < 128 /\ b2z b2 < 128).
    { intros b0 b1 b2 Hlt. pose proof (b2z_range b0). pose proof (b2z_range b1). pose proof (b2z_range b2).
      pose proof (lor_ge (Z.lor (b2z b0) (b2z b1)) (b2z b2) ltac:(apply Z.lor_nonneg; lia) ltac:(lia)).
      pose proof (lor_ge (b2z b2) (Z.lor (b2z b0) (b2z b1)) ltac:(lia) ltac:(apply Z.lor_nonneg; lia)) as Hl2.
      rewrite Z.lor_comm in Hl2.
      pose proof (lor_ge (b2z b0) (b2z b1) ltac:(lia) ltac:(lia)). pose proof (lor_ge (b2z b1) (b2z b0) ltac:(lia) ltac:(lia)) as Hl3.
      rewrite Z.lor_comm in Hl3. lia. }
    destruct xs as [|x1 xs].
    - destruct ys as [|y1 ys].
      + exists x, y, z, (zs ++ rest). split; [done|]. intros Hlt. destruct (Hlor _ _ _ Hlt) as (Hx1 & Hy1 & Hz1).
        destruct (Hx Hx1) as [_ ->], (Hy Hy1) as [_ ->], (Hz Hz1) as [-> ->]. done.
      + assert (Hq : exists q tl, ys ++ z :: zs ++ rest = q :: tl) by (destruct ys; by eexists _, _). destruct Hq as (q & tl & Hq).
        exists x, y, y1, (ys ++ z :: zs ++ rest). split; [done|]. intros Hlt. destruct (Hlor _ _ _ Hlt) as (_ & Hy1 & _).
        destruct (Hy Hy1) as [[=] _].
    - set (w := xs ++ y :: ys ++ z :: zs ++ rest).
      assert (Hq : exists q tl, w = q :: tl) by (unfold w; destruct xs; by eexists _, _).
      destruct Hq as (q & tl & Hq). exists x, x1, q, tl. split; [cbn [app]; fold w; by rewrite Hq|].
      intros Hlt. destruct (Hlor _ _ _ Hlt) as (Hx1 & _). destruct (Hx Hx1) as [[=] _]. }
  destruct Hl as (b0 & b1 & b2 & tl & El & Hfast). rewrite El in *. cbn [DecodeEntry].
  destruct (Z.ltb_spec (Z.lor (Z.lor (b2z b0) (b2z b1)) (b2z b2)) 128) as [Hlt|Hge].
  - by rewrite (Hfast Hlt).
  - by rewrite Hslow.
Qed.

Lemma DecodeEntry_spec x rest :
  item_ok x -> blen (enc x ++ rest) < 2 ^ 32 ->
  DecodeEntry (enc x ++ rest) =
    Some (Z.of_nat (i_shared x), blen (i_key x) - Z.of_nat (i_shared x), blen (i_value x),
          drop (i_shared x) (i_key x) ++ i_value x ++ rest).
Proof.
  intros (Hk & Hv & Hs) Hl. unfold enc, entry_bytes in *. rewrite <- !app_assoc in *.
  pose proof (blen_nonneg (i_key x)). pose proof (blen_nonneg (i_value x)). pose proof (blen_nonneg rest).
  assert (Z.of_nat (i_shared x) <= blen (i_key x)) by (unfold blen; lia).
  assert (Hd : blen (drop (i_shared x) (i_key x)) = blen (i_key x) - Z.of_nat (i_shared x)).
  { unfold blen. rewrite length_drop. lia. }
  rewrite !blen_app, Hd in Hl. revert Hl. rewrite !u32_small by lia. intros Hl.
  pose proof (blen_nonneg (EncodeVarint32 (Z.of_nat (i_shared x)))).
  pose proof (blen_nonneg (EncodeVarint32 (blen (i_key x) - Z.of_nat (i_shared x)))).
  pose proof (blen_nonneg (EncodeVarint32 (blen (i_value x)))).
  rewrite DecodeEntry_fields by lia. rewrite !blen_app, Hd, !u32_small by lia.
  by rewrite (proj2 (Z.ltb_ge _ _)) by lia.
Qed.

Lemma enc_length x : (3 <= length (enc x))%nat.
Proof.
  unfold enc, entry_bytes. rewrite !length_app.
  assert (Hne : forall v, (1 <= length (EncodeVarint32 v))%nat).
  { intros v. unfold EncodeVarint32. repeat (destruct (_ <? _); [simpl; lia|]). simpl. lia. }
  pose proof (Hne (u32 (Z.of_nat (i_shared x)))). pose proof (Hne (u32 (blen (i_key x) - Z.of_nat (i_shared x)))).
  pose proof (Hne (u32 (blen (i_value x)))). lia.
Qed.

Lemma body_app a b : body (a ++ b) = body a ++ body b.
Proof. unfold body. by rewrite map_app, concat_app. Qed.

Lemma off_0 its : off its 0 = 0.
Proof. done. Qed.
Lemma off_all its n : (length its <= n)%nat -> off its n = blen (body its).
Proof. intros Hn. unfold off. by rewrite take_ge. Qed.
Lemma off_S its n x : its !! n = Some x -> off its (S n) = off its n + blen (enc x).
Proof.
  intros Hn. unfold off. rewrite (take_S_r _ _ _ Hn), body_app, blen_app. do 2 f_equal. apply app_nil_r.
Qed.
Lemma off_nonneg its n : 0 <= off its n.
Proof. apply blen_nonneg. Qed.

(** the offsets increase, by three bytes at least *)
Lemma off_lt its i j : (i < j)%nat -> (j <= length its)%nat -> off its i + 3 * Z.of_nat (j - i) <= off its j.
Proof.
  intros Hij. induction Hij as [|j Hij IH]; intros Hj.
  - destruct (lookup_lt_is_Some_2 its i) as [x Hx]; [lia|]. rewrite (off_S _ _ _ Hx).
    pose proof (enc_length x). unfold blen. lia.
  - destruct (lookup_lt_is_Some_2 its j) as [x Hx]; [lia|]. rewrite (off_S _ _ _ Hx).
    pose proof (enc_length x). specialize (IH ltac:(lia)). unfold blen. lia.
Qed.
Lemma off_inj its i j : (i <= length its)%nat -> (j <= length its)%nat -> off its i = off its j -> i = j.
Proof.
  intros Hi Hj E. destruct (Nat.lt_trichotomy i j) as [H|[H|H]]; [|done|].
  - pose proof (off_lt its i j H Hj). lia.
  - pose proof (off_lt its j i H Hi). lia.
Qed.
Lemma off_le its n : off its n <= blen (body its).
Proof.
  destruct (decide (n < length its)%nat); [|rewrite off_all by lia; lia].
  rewrite <- (off_all its (length its)) by lia. pose proof (off_lt its n (length its)). lia.
Qed.

(** ** The block of a list of entries *)

Record items_ok (its : list item) (rs : list Z) : Prop := {
  io_items : Forall item_ok its;
  io_shared : forall i x, its !! i = Some x -> i_shared x = O \/ exists j prev, i = S j /\ its !! j = Some prev /\
    (i_shared x <= length (i_key prev))%nat /\ take (i_shared x) (i_key prev) = take (i_shared x) (i_key x);
  io_first : rs !! O = Some 0;
  io_sorted : forall i j a b, (i < j)%nat -> rs !! i = Some a -> rs !! j = Some b -> a < b;
  io_restarts : forall r, r ∈ rs -> r = 0 \/ exists i x, its !! i = Some x /\ r = off its i /\ i_shared x = O }.

Definition block_tail (rs : list Z) : bytes := concat (map EncodeFixed32 (rs ++ [Z.of_nat (length rs)])).
Definition block_bytes (its : list item) (rs : list Z) : bytes := body its ++ block_tail rs.

Lemma blen_block its rs : blen (block_bytes its rs) = blen (body its) + 4 * Z.of_nat (length rs) + 4.
Proof. unfold block_bytes, block_tail. rewrite blen_app, blen_fixed32_array, length_app. simpl. lia. Qed.

Lemma read_bytes_app a x b : read_bytes (a ++ x ++ b) (blen a) (blen x) = Done x.
Proof.
  unfold read_bytes. pose proof (blen_nonneg b). destruct (Z.eqb_spec (blen x) 0) as [E|E].
  - destruct x; [done|rewrite blen_cons in E; pose proof (blen_nonneg x); lia].
  - rewrite (proj2 (Z.ltb_ge _ _)) by (rewrite !blen_app; lia).
    by rewrite !blen_to_nat, drop_app_exact, take_app_exact.
Qed.

Section Cursor.
Context (its : list item) (rs : list Z) (Hok : items_ok its rs) (Hsize : blen (block_bytes its rs) < 2 ^ 32).
Implicit Types it : Iter.

Lemma body_small : 0 <= blen (body its) /\ blen (body its) + 4 * Z.of_nat (length rs) + 4 < 2 ^ 32.
Proof. rewrite blen_block in Hsize. split; [apply blen_nonneg|done]. Qed.

Lemma off_small n : 0 <= off its n < 2 ^ 32.
Proof. pose proof (off_le its n). pose proof (off_nonneg its n). pose proof body_small. lia. Qed.

(** a restart point is the start of an entry that is stored whole, or of the end
    of an empty block *)
Lemma restart_item k r :
  rs !! k = Some r -> exists i, (i <= length its)%nat /\ r = off its i /\ (forall x, its !! i = Some x -> i_shared x = O) /\
    (k <> O -> (i < length its)%nat).
Proof.
  intros Hk. destruct (io_restarts _ _ Hok r) as [->|(i & x & Hi & -> & Hs)]; [by eapply list_elem_of_lookup_2| |].
  - exists O. split; [lia|]. split; [done|]. split.
    + intros x Hx. destruct (io_shared _ _ Hok O x Hx) as [|(j & prev & E & _)]; [done|lia].
    + intros Hn. pose proof (io_sorted _ _ Hok O k 0 0 ltac:(lia) (io_first _ _ Hok) Hk). lia.
  - pose proof (lookup_lt_Some _ _ _ Hi). exists i. split; [lia|]. split; [done|]. split; [|lia].
    intros y Hy. congruence.
Qed.

Lemma restart_range k r : rs !! k = Some r -> 0 <= r < 2 ^ 32.
Proof. intros Hk. destruct (restart_item k r Hk) as (i & _ & -> & _). apply off_small. Qed.

(** the iterator over this block *)
Definition over it : Prop :=
  it_data it = block_bytes its rs /\ it_restarts it = blen (body its) /\ it_num_restarts it = Z.of_nat (length rs) /\
  it_status it = OK.

Lemma GetRestartPoint_spec it k r :
  over it -> rs !! k = Some r -> GetRestartPoint it (Z.of_nat k) = Done r.
Proof.
  intros (Ed & Er & En & _) Hk. unfold GetRestartPoint. pose proof (lookup_lt_Some _ _ _ Hk).
  rewrite En, (proj2 (Z.ltb_lt _ _)) by lia. cbn [c_assert mbind outcome_bind]. rewrite Ed, Er.
  unfold block_bytes. replace (Z.to_nat (blen (body its) + Z.of_nat k * 4)) with (length (body its) + 4 * k)%nat
    by (unfold blen; lia).
  rewrite <- drop_drop, drop_app_exact. unfold block_tail. rewrite <- (app_nil_r (concat _)).
  apply fixed32_array_lookup; [by apply lookup_app_l_Some|by eapply restart_range].
Qed.

Lemma between_body i : (i <= length its)%nat -> between (block_bytes its rs) (off its i) (blen (body its)) = body (drop i its).
Proof.
  intros Hi. unfold between. pose proof (off_nonneg its i).
  assert (E : body its = body (take i its) ++ body (drop i its)) by (by rewrite <- body_app, take_drop).
  assert (El : blen (body its) = off its i + blen (body (drop i its))) by (by rewrite E, blen_app).
  destruct (Z.leb_spec (blen (body its)) (off its i)) as [Hle|Hgt].
  - pose proof (blen_nonneg (body (drop i its))) as Hn. unfold blen in El, Hn. destruct (body (drop i its)); [done|simpl in *; unfold blen in *; lia].
  - rewrite El. unfold block_bytes. rewrite E, <- app_assoc. unfold off. rewrite blen_to_nat, drop_app_exact.
    replace (Z.to_nat _) with (length (body (drop i its))) by (unfold blen; lia). apply take_app_exact.
Qed.

(** the restart index the iterator keeps *)
Definition index_le it (c : Z) : Prop :=
  0 <= it_restart_index it /\ exists r, rs !! Z.to_nat (it_restart_index it) = Some r /\ r <= c.

(** at entry [i] *)
Definition at_item it (i : nat) : Prop :=
  over it /\ exists x, its !! i = Some x /\ it_current it = off its i /\ it_key it = i_key x /\
    it_value it = Some (off its (S i) - blen (i_value x), blen (i_value x)) /\ index_le it (off its i).
Definition ended it : Prop := over it /\ it_current it = blen (body its).
(** a cursor between the first entry and the end *)
Definition cursor it (i : nat) : Prop := ((i < length its)%nat /\ at_item it i) \/ (i = length its /\ ended it).
(** ready to parse entry [i] *)
Definition before it (i : nat) : Prop :=
  over it /\ (i <= length its)%nat /\ NextEntryOffset it = Done (off its i) /\ index_le it (off its i) /\
  forall x, its !! i = Some x -> (i_shared x <= length (it_key it))%nat /\ take (i_shared x) (it_key it) = take (i_shared x) (i_key x).

Lemma rs_small : Z.of_nat (length rs) < 2 ^ 30.
Proof. pose proof body_small. lia. Qed.

Lemma advance_spec fuel it c :
  over it -> it_current it = c -> index_le it c -> Z.of_nat (length rs) <= Z.of_nat fuel + it_restart_index it ->
  exists it', advance_restart_index fuel it = Done it' /\ over it' /\ it_current it' = c /\ it_key it' = it_key it /\
    it_value it' = it_value it /\ index_le it' c.
Proof.
  revert it; induction fuel as [|fuel IH]; intros it Ho Ec Hi Hf; pose proof Ho as (Ed & Er & En & Est);
    pose proof Hi as (H0 & r & Hr & Hrc); pose proof (lookup_lt_Some _ _ _ Hr); pose proof rs_small; [lia|].
  cbn [advance_restart_index]. rewrite u32_small, En by lia.
  destruct (Z.ltb_spec (it_restart_index it + 1) (Z.of_nat (length rs))) as [Hlt|Hge]; [|exists it; do 5 (split; [done|]); done].
  destruct (lookup_lt_is_Some_2 rs (Z.to_nat (it_restart_index it + 1))) as [r' Hr']; [lia|].
  pose proof (GetRestartPoint_spec it _ _ Ho Hr') as Eg. rewrite Z2Nat.id in Eg by lia. rewrite Eg. cbn [mbind outcome_bind]. rewrite Ec.
  destruct (Z.ltb_spec r' c) as [Hlt'|Hge']; [|exists it; do 5 (split; [done|]); done].
  edestruct (IH (it_at it (it_current it) (it_restart_index it + 1) (it_key it) (it_value it) (it_status it)))
    as (it' & E & Ho' & Ec' & Ek & Ev & Hi'); [by repeat split|done| |cbn [it_restart_index it_at]; lia|].
  { split; cbn [it_restart_index it_at]; [lia|]. exists r'. split; [done|lia]. }
  rewrite Ec in E. by exists it'.
Qed.

(** [ParseNextKey] reads the entry it is before, or finds the end. *)
Lemma ParseNextKey_spec it i :
  before it i -> exists it', ParseNextKey it = Done (it', bool_decide (i < length its)%nat) /\ cursor it' i.
Proof.
  intros (Ho & Hle & En & Hi & Hsh). pose proof Ho as (Ed & Er & Enum & Est). unfold ParseNextKey. rewrite En.
  cbn [mbind outcome_bind]. cbv zeta. cbn [it_at it_restarts it_data it_key it_num_restarts]. rewrite Er, Ed.
  destruct (decide (i < length its)%nat) as [Hlt|Hge].
  2: { rewrite off_all by lia. rewrite Z.leb_refl, bool_decide_eq_false_2 by lia.
       eexists. split; [done|]. right. split; [lia|]. split; [by repeat split|exact Er]. }
  destruct (lookup_lt_is_Some_2 its i Hlt) as [x Hx]. pose proof (off_S _ _ _ Hx) as HS. pose proof (enc_length x).
  pose proof (off_le its (S i)). pose proof body_small. rewrite bool_decide_eq_true_2 by done.
  rewrite (proj2 (Z.leb_gt _ _)) by (unfold blen in *; lia). rewrite between_body by lia.
  rewrite (drop_S _ _ _ Hx). change (body (x :: drop (S i) its)) with (enc x ++ body (drop (S i) its)).
  assert (E : body its = body (take i its) ++ enc x ++ body (drop (S i) its)).
  { change (enc x ++ body (drop (S i) its)) with (body (x :: drop (S i) its)). by rewrite <- (drop_S _ _ _ Hx), <- body_app, take_drop. }
  assert (El : blen (body its) = off its i + (blen (enc x) + blen (body (drop (S i) its)))).
  { rewrite E, !blen_app. done. }
  assert (Hxok : item_ok x). { pose proof (io_items _ _ Hok) as Hf. rewrite list.Forall_lookup in Hf. by eapply Hf. }
  rewrite DecodeEntry_spec by (try done; rewrite blen_app; pose proof (off_nonneg its i); lia).
  destruct (Hsh x Hx) as [Hs1 Hs2]. destruct Hxok as (Hk & Hv & Hs).
  rewrite (proj2 (Z.ltb_ge _ _)) by (unfold blen; lia). rewrite Nat2Z.id.
  (* the rest of the key *)
  set (tl := i_value x ++ body (drop (S i) its)). set (d := drop (i_shared x) (i_key x)).
  assert (Hd : blen d = blen (i_key x) - Z.of_nat (i_shared x)) by (unfold d, blen; rewrite length_drop; lia).
  unfold enc, entry_bytes in E, El. fold d in E, El.
  set (hd := EncodeVarint32 (u32 (Z.of_nat (i_shared x))) ++ EncodeVarint32 (u32 (blen (i_key x) - Z.of_nat (i_shared x))) ++
    EncodeVarint32 (u32 (blen (i_value x)))).
  assert (E2 : block_bytes its rs = (body (take i its) ++ hd) ++ d ++ (tl ++ block_tail rs)).
  { unfold block_bytes, tl, hd. rewrite E, <- !app_assoc. done. }
  assert (Hp : blen (body its) - blen (d ++ tl) = blen (body (take i its) ++ hd)).
  { rewrite El. unfold off, tl, hd. rewrite !blen_app. lia. }
  rewrite Hp, E2, <- Hd, read_bytes_app. cbn [mbind outcome_bind].
  edestruct (advance_spec (Z.to_nat (it_num_restarts it)) (it_at it (off its i) (it_restart_index it)
    (take (i_shared x) (it_key it) ++ d) (Some (blen (body (take i its) ++ hd) + blen d, blen (i_value x))) (it_status it)) (off its i))
    as (it' & E' & Ho' & Ec' & Ek & Ev & Hi'); [by repeat split|done|done|cbn [it_restart_index it_at]; destruct Hi; lia|].
  exists it'. split; [by step E'|]. left. split; [done|]. split; [done|]. exists x. split; [done|]. split; [done|].
  split; [rewrite Ek; cbn [it_at it_key]; rewrite Hs2; apply take_drop|]. split; [|done].
  rewrite Ev. cbn [it_at it_value]. do 2 f_equal. rewrite HS. unfold enc, entry_bytes. fold d.
  unfold off, hd. rewrite !blen_app. lia.
Qed.

(** *** Moving *)

Lemma cursor_le it i : cursor it i -> (i <= length its)%nat.
Proof. intros [[? _]|[-> _]]; lia. Qed.

Lemma cursor_over it i : cursor it i -> over it.
Proof. intros [[_ [? _]]|[_ [? _]]]; done. Qed.

(** what a cursor shows *)
Lemma cursor_valid it i : cursor it i -> Valid it = bool_decide (i < length its)%nat.
Proof.
  intros [[Hi [(_ & Er & _) (x & Hx & Ec & _)]]|[-> [(_ & Er & _) Ec]]]; unfold Valid; rewrite Ec, Er.
  - rewrite bool_decide_eq_true_2 by done. apply Z.ltb_lt. rewrite <- (off_all its (length its)) by lia.
    pose proof (off_lt its i (length its) Hi). lia.
  - rewrite bool_decide_eq_false_2 by lia. apply Z.ltb_ge. lia.
Qed.

Lemma cursor_item it i x :
  cursor it i -> its !! i = Some x -> iter_key it = Done (i_key x) /\ iter_value it = Done (i_value x).
Proof.
  intros Hc Hx. pose proof (lookup_lt_Some _ _ _ Hx). unfold iter_key, iter_value.
  rewrite (cursor_valid it i Hc), bool_decide_eq_true_2 by done. cbn [c_assert mbind outcome_bind].
  destruct Hc as [[_ [(Ed & _) (y & Hy & _ & Ek & Ev & _)]]|[-> _]]; [|lia].
  assert (y = x) as -> by congruence. rewrite Ek, Ev. split; [done|]. rewrite Ed.
  assert (E : block_bytes its rs = (body (take i its) ++ EncodeVarint32 (u32 (Z.of_nat (i_shared x))) ++
    EncodeVarint32 (u32 (blen (i_key x) - Z.of_nat (i_shared x))) ++ EncodeVarint32 (u32 (blen (i_value x))) ++
    drop (i_shared x) (i_key x)) ++ i_value x ++ body (drop (S i) its) ++ block_tail rs).
  { unfold block_bytes. rewrite <- (take_drop i its) at 1. rewrite (drop_S _ _ _ Hx), body_app.
    change (body (x :: drop (S i) its)) with (enc x ++ body (drop (S i) its)). unfold enc, entry_bytes. by rewrite <- !app_assoc. }
  rewrite E. rewrite (off_S _ _ _ Hx). unfold off, enc, entry_bytes.
  match goal with |- read_bytes (?a ++ _) _ _ = _ => set (pre := a) end.
  match goal with |- read_bytes _ ?o _ = _ => replace o with (blen pre) end; [apply read_bytes_app|].
  unfold pre. rewrite !blen_app. lia.
Qed.

Lemma at_item_before it i : at_item it i -> before it (S i).
Proof.
  intros (Ho & x & Hx & Ec & Ek & Ev & Hri & r & Hr & Hrc). pose proof (lookup_lt_Some _ _ _ Hx).
  split; [done|]. split; [lia|]. split.
  { unfold NextEntryOffset. rewrite Ev. f_equal. pose proof (off_small (S i)). rewrite u32_small by lia. lia. }
  split. { split; [done|]. exists r. split; [done|]. rewrite (off_S _ _ _ Hx). pose proof (blen_nonneg (enc x)). lia. }
  intros y Hy. destruct (io_shared _ _ Hok _ _ Hy) as [E|(j & prev & [= <-] & Hp & Hl & Ht)].
  - rewrite E. split; [lia|done].
  - assert (prev = x) as -> by congruence. rewrite Ek. done.
Qed.

Lemma Next_spec it i :
  cursor it i -> (i < length its)%nat -> exists it', Next it = Done it' /\ cursor it' (S i).
Proof.
  intros Hc Hi. unfold Next. rewrite (cursor_valid it i Hc), bool_decide_eq_true_2 by done. cbn [c_assert mbind outcome_bind].
  destruct Hc as [[_ Hat]|[-> _]]; [|lia].
  destruct (ParseNextKey_spec it (S i) (at_item_before it i Hat)) as (it' & E & Hc). rewrite E. by exists it'.
Qed.

Lemma SeekToRestartPoint_spec it k r :
  over it -> rs !! k = Some r ->
  exists it' i, SeekToRestartPoint it (Z.of_nat k) = Done it' /\ r = off its i /\ before it' i /\
    (k <> O -> (i < length its)%nat).
Proof.
  intros Ho Hk. destruct (restart_item k r Hk) as (i & Hi & -> & Hsh & Hn).
  unfold SeekToRestartPoint. rewrite (GetRestartPoint_spec it k _ Ho Hk). cbn [mbind outcome_bind].
  eexists _, i. split; [done|]. split; [done|]. split; [|done]. split; [exact Ho|]. split; [done|]. split.
  { cbn. f_equal. pose proof (off_small i). rewrite Z.add_0_r. by apply u32_small. }
  split. { split; cbn; [lia|]. rewrite Nat2Z.id. exists (off its i). split; [done|lia]. }
  intros x Hx. rewrite (Hsh x Hx). split; [lia|done].
Qed.

Lemma rs_nonempty : (0 < length rs)%nat.
Proof. apply lookup_lt_Some with 0, (io_first _ _ Hok). Qed.

(** from any position of the block *)
Lemma block_SeekToFirst_spec it : over it -> exists it', SeekToFirst it = Done it' /\ cursor it' 0.
Proof.
  intros Ho. destruct (SeekToRestartPoint_spec it 0 0 Ho (io_first _ _ Hok)) as (it1 & i & E1 & E0 & Hb & _).
  unfold SeekToFirst. change 0 with (Z.of_nat 0) at 1. rewrite E1. cbn [mbind outcome_bind].
  assert (i = O) as ->. { apply (off_inj its); [by destruct Hb as (_ & ? & _)|lia|by rewrite <- E0]. }
  destruct (ParseNextKey_spec it1 0 Hb) as (it' & E & Hc). rewrite E. by exists it'.
Qed.

(** the scan forward to the entry that ends where entry [m] starts *)
Lemma skip_to_spec fuel it j m :
  before it j -> (j < m)%nat -> (m <= length its)%nat -> (m - j <= fuel)%nat ->
  exists it', skip_to fuel (off its m) it = Done it' /\ cursor it' (m - 1).
Proof.
  revert it j; induction fuel as [|fuel IH]; intros it j Hb Hj Hm Hf; [lia|]. cbn [skip_to].
  destruct (ParseNextKey_spec it j Hb) as (it1 & E & Hc). rewrite E, bool_decide_eq_true_2 by lia. cbn [mbind outcome_bind].
  destruct Hc as [[_ Hat]|[? _]]; [|lia]. pose proof (at_item_before it1 j Hat) as Hb1.
  destruct Hb1 as (Ho1 & Hl1 & En & Hrest). rewrite En. cbn [mbind outcome_bind].
  destruct (decide (S j = m)) as [<-|Hne].
  - rewrite Z.ltb_irrefl. exists it1. split; [done|]. left. replace (S j - 1)%nat with j by lia. split; [lia|done].
  - pose proof (off_lt its (S j) m ltac:(lia) Hm). rewrite (proj2 (Z.ltb_lt _ _)) by lia.
    apply (IH it1 (S j)); [done|lia|lia|lia].
Qed.

Lemma items_le_data : (length its <= length (block_bytes its rs))%nat.
Proof.
  pose proof (blen_block its rs). pose proof (blen_nonneg (body its)).
  assert (3 * Z.of_nat (length its) <= blen (body its)).
  { destruct its as [|x l] eqn:E; [simpl; lia|]. pose proof (off_lt its 0 (length its)) as Hl.
    rewrite off_0, off_all in Hl by lia. rewrite <- E. subst its. simpl length in *. specialize (Hl ltac:(lia) ltac:(lia)). lia. }
  unfold blen in *. lia.
Qed.

Lemma skip_end fuel it : before it (length its) -> (0 < fuel)%nat ->
  exists it', skip_to fuel (blen (body its)) it = Done it' /\ cursor it' (length its).
Proof.
  intros Hb Hf. destruct fuel as [|fuel]; [lia|]. cbn [skip_to].
  destruct (ParseNextKey_spec it _ Hb) as (it1 & E & Hc). rewrite E, bool_decide_eq_false_2 by lia. cbn [mbind outcome_bind].
  by exists it1.
Qed.

Lemma block_SeekToLast_spec it : over it -> exists it', SeekToLast it = Done it' /\ cursor it' (length its - 1).
Proof.
  intros Ho. pose proof Ho as (Ed & Er & En & _). pose proof rs_nonempty as Hn.
  destruct (lookup_lt_is_Some_2 rs (length rs - 1)) as [r Hr]; [lia|].
  destruct (SeekToRestartPoint_spec it _ r Ho Hr) as (it1 & i & E1 & E0 & Hb & Hni). unfold SeekToLast.
  rewrite En. replace (Z.of_nat (length rs) - 1) with (Z.of_nat (length rs - 1)) by lia. rewrite E1. cbn [mbind outcome_bind].
  pose proof Hb as ((Ed1 & Er1 & _) & _). rewrite Ed1, Er1. pose proof items_le_data.
  destruct (decide (i < length its)%nat) as [Hi|Hi].
  - rewrite <- (off_all its (length its)) by lia. apply (skip_to_spec _ it1 i); [done|lia|lia|lia].
  - pose proof Hb as (_ & Hle & _). assert (i = length its) as -> by lia.
    assert (length its = O) as E0'.
    { destruct (decide (length rs - 1 = 0)%nat) as [Ez|Ez]; [|specialize (Hni Ez); lia].
      rewrite Ez, (io_first _ _ Hok) in Hr. injection Hr as <-. apply (off_inj its); [lia|lia|]. by rewrite <- E0. }
    replace (length its - 1)%nat with (length its) by lia. apply skip_end; [done|lia].
Qed.

(** the backward scan over the restart points *)
Lemma Prev_loop_spec fuel it i :
  over it -> (exists r, rs !! Z.to_nat (it_restart_index it) = Some r) -> 0 <= it_restart_index it <= Z.of_nat fuel ->
  (i < length its)%nat ->
  exists it', (i = O /\ Prev_loop fuel (off its i) it = Done (it', true) /\ ended it') \/
    (i <> O /\ Prev_loop fuel (off its i) it = Done (it', false) /\ over it' /\ 0 <= it_restart_index it' /\
     exists r, rs !! Z.to_nat (it_restart_index it') = Some r /\ r < off its i).
Proof.
  revert it; induction fuel as [|fuel IH]; intros it Ho (r & Hr) Hf Hi;
    pose proof (GetRestartPoint_spec it _ _ Ho Hr) as Eg; rewrite Z2Nat.id in Eg by lia;
    cbn [Prev_loop]; rewrite Eg; cbn [mbind outcome_bind]; destruct (Z.leb_spec (off its i) r) as [Hle|Hgt].
  2, 4: (exists it; right; split; [intros ->; rewrite off_0 in Hgt; pose proof (restart_range _ _ Hr); lia|];
         split; [done|]; split; [done|]; split; [lia|]; by exists r).
  - rewrite (proj2 (Z.eqb_eq _ _)) by lia. exists (at_end it). left.
    assert (it_restart_index it = 0) as E0 by lia. rewrite E0 in Hr. change (Z.to_nat 0) with O in Hr.
    rewrite (io_first _ _ Hok) in Hr. injection Hr as <-.
    split; [apply (off_inj its); [lia|lia|rewrite off_0; pose proof (off_nonneg its i); lia]|].
    split; [done|]. split; [exact Ho|apply Ho].
  - destruct (Z.eqb_spec (it_restart_index it) 0) as [E0|E0].
    + exists (at_end it). left. rewrite E0 in Hr. change (Z.to_nat 0) with O in Hr.
      rewrite (io_first _ _ Hok) in Hr. injection Hr as <-.
      split; [apply (off_inj its); [lia|lia|rewrite off_0; pose proof (off_nonneg its i); lia]|].
      split; [done|]. split; [exact Ho|apply Ho].
    + apply IH; [exact Ho| |cbn [it_restart_index it_at]; lia|done]. cbn [it_restart_index it_at].
      apply lookup_lt_is_Some_2. apply lookup_lt_Some in Hr. lia.
Qed.

(** back one entry; from the first one, to the end *)
Lemma Prev_spec it i :
  cursor it i -> (i < length its)%nat ->
  exists it', Prev it = Done it' /\ cursor it' (match i with O => length its | S i' => i' end).
Proof.
  intros Hc Hi. pose proof (cursor_valid it i Hc) as Hv. unfold Prev. rewrite Hv, bool_decide_eq_true_2 by done.
  cbn [c_assert mbind outcome_bind]. destruct Hc as [[_ Hat]|[-> _]]; [|lia].
  destruct Hat as (Ho & x & Hx & Ec & _ & _ & H0 & r & Hr & _). rewrite Ec.
  destruct (Prev_loop_spec (Z.to_nat (it_restart_index it)) it i Ho ltac:(by exists r) ltac:(lia) Hi)
    as (it1 & [(-> & E & He)|(Hne & E & Ho1 & H1 & r1 & Hr1 & Hlt)]); rewrite E; cbn [mbind outcome_bind].
  { exists it1. split; [done|]. by right. }
  destruct (SeekToRestartPoint_spec it1 _ r1 Ho1 Hr1) as (it2 & j & E2 & -> & Hb & _).
  rewrite Z2Nat.id in E2 by lia. rewrite E2. cbn [mbind outcome_bind]. destruct i as [|i]; [done|].
  assert (Hj : (j < S i)%nat).
  { destruct (decide (j < S i)%nat); [done|]. destruct Hb as (_ & Hjl & _).
    destruct (decide (j = S i)) as [->|]; [lia|]. pose proof (off_lt its (S i) j ltac:(lia) Hjl). lia. }
  assert (Ed2 : it_data it2 = block_bytes its rs) by (destruct Hb as [(? & _) _]; done). rewrite Ed2.
  pose proof items_le_data. destruct (skip_to_spec (length (block_bytes its rs)) it2 j (S i) Hb Hj ltac:(lia) ltac:(lia)) as (it' & E' & Hc').
  exists it'. split; [done|]. by replace (S i - 1)%nat with i in Hc' by lia.
Qed.

(** *** Seek *)

Section Seek.
Context (compare_ : bytes -> bytes -> outcome Z) `{!KeyOrder compare_} `{!ExactOrder compare_}.
Context (Hkeys : Forall (fun x => key_ok (i_key x)) its)
        (Hsorted : forall i j x y, (i < j)%nat -> its !! i = Some x -> its !! j = Some y -> cmp (i_key x) (i_key y) < 0).
Context (target : bytes) (Htarget : key_ok target).

(** entries before [n] are less than the target *)
Definition all_less (n : nat) : Prop := forall j x, (j < n)%nat -> its !! j = Some x -> cmp (i_key x) target < 0.
(** [n] is the first that is not *)
Definition first_ge (n : nat) : Prop := all_less n /\ forall x, its !! n = Some x -> 0 <= cmp (i_key x) target.

Lemma compare_item i x : its !! i = Some x -> compare_ (i_key x) target = Done (cmp (i_key x) target).
Proof. intros Hx. apply cmp_done; [|done]. rewrite list.Forall_lookup in Hkeys. by eapply Hkeys. Qed.

Lemma all_less_S i x : its !! i = Some x -> cmp (i_key x) target < 0 -> all_less (S i).
Proof.
  intros Hx Hl j y Hj Hy. destruct (decide (j = i)) as [->|]; [by simplify_eq|].
  rewrite list.Forall_lookup in Hkeys. eapply cmp_trans; [by eapply Hkeys|by eapply (Hkeys i x)|done| |done].
  apply (Hsorted j i); [lia|done|done].
Qed.

Lemma all_less_le i j : all_less j -> (i <= j)%nat -> all_less i.
Proof. intros H Hij k x Hk. apply H. lia. Qed.

Lemma Seek_scan_spec fuel it i :
  before it i -> all_less i -> (length its - i < fuel)%nat ->
  exists it' n, Seek_scan compare_ fuel target it = Done it' /\ cursor it' n /\ first_ge n.
Proof.
  revert it i; induction fuel as [|fuel IH]; intros it i Hb Hl Hf; [lia|]. cbn [Seek_scan].
  destruct (ParseNextKey_spec it i Hb) as (it1 & E & Hc). rewrite E. cbn [mbind outcome_bind].
  pose proof (cursor_le it1 i Hc) as Hle. destruct Hc as [[Hi Hat]|[-> He]].
  - rewrite bool_decide_eq_true_2 by done. cbn [negb]. pose proof Hat as (Ho & x & Hx & Ec & Ek & _).
    rewrite Ek, (compare_item _ _ Hx). cbn [mbind outcome_bind]. destruct (Z.leb_spec 0 (cmp (i_key x) target)).
    + exists it1, i. split; [done|]. split; [by left|]. split; [done|]. intros y Hy. by simplify_eq.
    + apply (IH it1 (S i)); [by apply at_item_before|by eapply all_less_S|lia].
  - rewrite bool_decide_eq_false_2 by lia. exists it1, (length its). split; [done|]. split; [by right|]. split; [done|].
    intros x Hx. apply lookup_lt_Some in Hx. lia.
Qed.

(** a restart point before which everything is less than the target *)
Definition low (k : Z) : Prop :=
  0 <= k /\ exists i, rs !! Z.to_nat k = Some (off its i) /\ (i <= length its)%nat /\ all_less i.

Lemma low_0 : low 0.
Proof.
  split; [done|]. exists O. rewrite off_0. change (Z.to_nat 0) with O. split; [apply Hok|]. split; [lia|].
  intros j x Hj. lia.
Qed.

Lemma Seek_search_spec fuel it l r :
  over it -> low l -> l <= r < Z.of_nat (length rs) -> r - l <= Z.of_nat fuel ->
  exists l', Seek_search compare_ fuel target l r it = Done (Some l') /\ low l'.
Proof.
  revert l r; induction fuel as [|fuel IH]; intros l r Ho Hlow Hlr Hf; cbn [Seek_search];
    destruct (Z.ltb_spec l r); try lia; try (by exists l).
  pose proof Hlow as [Hl0 _]. pose proof rs_small. rewrite u32_small by lia. set (mid := (l + r + 1) / 2).
  assert (Hmid : l < mid <= r).
  { unfold mid. split; [apply Z.lt_le_trans with (l + 1); [lia|apply Z.div_le_lower_bound; lia]|].
    apply Z.lt_succ_r. apply Z.div_lt_upper_bound; lia. }
  destruct (lookup_lt_is_Some_2 rs (Z.to_nat mid)) as [p Hp]; [lia|].
  pose proof (GetRestartPoint_spec it _ _ Ho Hp) as Eg. rewrite Z2Nat.id in Eg by lia. rewrite Eg. cbn [mbind outcome_bind].
  destruct (restart_item _ _ Hp) as (i & Hi & -> & Hsh & Hlt). specialize (Hlt ltac:(lia)).
  destruct (lookup_lt_is_Some_2 its i Hlt) as [x Hx]. specialize (Hsh x Hx).
  pose proof Ho as (Ed & Er & _). rewrite Ed, Er, between_body by lia. rewrite (drop_S _ _ _ Hx).
  change (body (x :: drop (S i) its)) with (enc x ++ body (drop (S i) its)).
  assert (E : body its = body (take i its) ++ enc x ++ body (drop (S i) its)).
  { change (enc x ++ body (drop (S i) its)) with (body (x :: drop (S i) its)). by rewrite <- (drop_S _ _ _ Hx), <- body_app, take_drop. }
  assert (El : blen (body its) = off its i + (blen (enc x) + blen (body (drop (S i) its)))) by (rewrite E, !blen_app; done).
  assert (Hxok : item_ok x). { pose proof (io_items _ _ Hok) as Hio. rewrite list.Forall_lookup in Hio. by eapply Hio. }
  pose proof body_small. pose proof (off_nonneg its i).
  rewrite DecodeEntry_spec by (try done; rewrite blen_app; lia). rewrite Hsh.
  change (drop 0 (i_key x)) with (i_key x). change (negb (Z.of_nat 0 =? 0)) with false. cbv iota beta.
  change (Z.of_nat 0) with 0. rewrite Z.sub_0_r. set (hd := EncodeVarint32 (u32 0) ++ EncodeVarint32 (u32 (blen (i_key x) - 0)) ++ EncodeVarint32 (u32 (blen (i_value x)))).
  assert (Ex : enc x = hd ++ i_key x ++ i_value x).
  { unfold enc, entry_bytes. rewrite Hsh. unfold hd. cbn [drop]. by rewrite <- !app_assoc. }
  assert (E2 : block_bytes its rs = (body (take i its) ++ hd) ++ i_key x ++ (i_value x ++ body (drop (S i) its) ++ block_tail rs)).
  { unfold block_bytes. rewrite E, Ex, <- !app_assoc. done. }
  replace (blen (body its) - blen (i_key x ++ i_value x ++ body (drop (S i) its))) with (blen (body (take i its) ++ hd)).
  2: { rewrite El, Ex. unfold off. rewrite !blen_app. lia. }
  rewrite E2, read_bytes_app. cbn [mbind outcome_bind]. rewrite (compare_item _ _ Hx). cbn [mbind outcome_bind].
  destruct (Z.ltb_spec (cmp (i_key x) target) 0).
  - apply IH; [done| |lia|lia]. split; [lia|]. exists i. split; [done|]. split; [lia|].
    eapply all_less_le; [by eapply all_less_S|lia].
  - apply IH; [done|done|lia|lia].
Qed.

(** [Seek] stops at the first key that is not less than the target, from any
    position of the cursor. *)
Lemma block_Seek_spec it i :
  cursor it i -> exists it' n, Seek compare_ it target = Done it' /\ cursor it' n /\ first_ge n.
Proof.
  intros Hc. pose proof (cursor_over it i Hc) as Ho. pose proof Ho as (Ed & Er & En & _). pose proof rs_nonempty.
  unfold Seek. rewrite (cursor_valid it i Hc), En. pose proof items_le_data as Hdata. rewrite Nat2Z.id.
  assert (Hgo : forall l r c, low l -> l <= r < Z.of_nat (length rs) -> ((c <? 0) = true -> at_item it i /\ all_less (S i)) ->
    (c =? 0) || bool_decide (i < length its)%nat = true ->
    exists it' n, (found ← Seek_search compare_ (length rs) target l r it;
      match found with
      | None => Done (CorruptionError it)
      | Some left_ =>
          _ ← c_assert ((c =? 0) || bool_decide (i < length its)%nat);
          let skip_seek := (left_ =? it_restart_index it) && (c <? 0) in
          it ← (if skip_seek then Done it else SeekToRestartPoint it left_);
          Seek_scan compare_ (S (length (it_data it))) target it
      end) = Done it' /\ cursor it' n /\ first_ge n).
  { intros l r c Hl Hlr Hneg Hassert. destruct Hl as [Hl0 Hl1]. 
    destruct (Seek_search_spec (length rs) it l r Ho ltac:(by split) Hlr ltac:(lia)) as (l' & E & Hlow). rewrite E.
    cbn [mbind outcome_bind]. rewrite Hassert. cbn [c_assert mbind outcome_bind].
    destruct ((l' =? it_restart_index it) && (c <? 0)) eqn:Eskip.
    - apply andb_true_iff in Eskip as [_ Hc0]. destruct (Hneg Hc0) as [Hat Hless]. cbn [mbind outcome_bind]. rewrite Ed.
      apply (Seek_scan_spec _ it (S i)); [by apply at_item_before|done|lia].
    - destruct Hlow as (Hl'0 & j & Hj & Hjl & Hless).
      destruct (SeekToRestartPoint_spec it _ _ Ho Hj) as (it1 & j' & E1 & Ej & Hb & _). rewrite Z2Nat.id in E1 by lia.
      rewrite E1. cbn [mbind outcome_bind]. pose proof Hb as ((Ed1 & _) & _). rewrite Ed1.
      apply (Seek_scan_spec _ it1 j'); [done| |lia].
      destruct Hb as (_ & Hj' & _). by rewrite <- (off_inj its j j' Hjl Hj' Ej). }
  destruct Hc as [[Hi Hat]|[-> He]].
  - rewrite bool_decide_eq_true_2 in * by done. pose proof Hat as (_ & x & Hx & Ec & Ek & _ & Hri & rr & Hrr & Hrle).
    rewrite Ek, (compare_item _ _ Hx). cbn [mbind outcome_bind andb].
    destruct (Z.eqb_spec (cmp (i_key x) target) 0) as [E0|E0].
    { exists it, i. split; [done|]. split; [by left|]. split; [|intros y Hy; simplify_eq; lia].
      rewrite list.Forall_lookup in Hkeys. unfold all_less. rewrite <- (cmp_exact _ _ (Hkeys _ _ Hx) Htarget E0).
      intros j y Hj Hy. by apply (Hsorted j i). }
    set (c := cmp (i_key x) target) in *.
    specialize (Hgo (if c <? 0 then it_restart_index it else 0) (if 0 <? c then it_restart_index it else Z.of_nat (length rs) - 1) c).
    rewrite (proj2 (Z.eqb_neq c 0) E0) in Hgo. apply Hgo; clear Hgo.
    + destruct (Z.ltb_spec c 0); [|apply low_0]. split; [done|].
      destruct (restart_item _ _ Hrr) as (j & Hj & -> & _). exists j. split; [done|]. split; [done|].
      eapply all_less_le; [by eapply all_less_S|].
      destruct (decide (j <= S i)%nat); [done|]. pose proof (off_lt its (S i) j ltac:(lia) Hj).
      pose proof (off_lt its i (S i) ltac:(lia) ltac:(lia)). lia.
    + apply lookup_lt_Some in Hrr. destruct (Z.ltb_spec c 0), (Z.ltb_spec 0 c); lia.
    + intros Hneg. apply Z.ltb_lt in Hneg. split; [done|by eapply all_less_S].
    + done.
  - rewrite bool_decide_eq_false_2 by lia. cbn [mbind outcome_bind andb].
    specialize (Hgo 0 (Z.of_nat (length rs) - 1) 0 low_0 ltac:(lia) ltac:(done) eq_refl).
    rewrite bool_decide_eq_false_2 in Hgo by lia. exact Hgo.
Qed.
End Seek.
End Cursor.

(** ** What the builder makes *)

Lemma diff_index_prefix a b :
  (diff_index a b <= length a)%nat /\ (diff_index a b <= length b)%nat /\
  take (diff_index a b) a = take (diff_index a b) b.
Proof.
  revert b; induction a as [|x a IH]; intros [|y b]; simpl; try (split; [lia|split; [lia|done]]).
  case_bool_decide as E; [subst y|split; [lia|split; [lia|done]]]. destruct (IH b) as (H1 & H2 & H3). simpl.
  split; [lia|]. split; [lia|]. by rewrite H3.
Qed.

Lemma off_app its x n : (n <= length its)%nat -> off (its ++ [x]) n = off its n.
Proof. intros Hn. unfold off. by rewrite take_app_le. Qed.

Lemma body_nil its : body its = [] <-> its = [].
Proof.
  split; [|by intros ->]. destruct its as [|x its]; [done|]. intros E. pose proof (enc_length x) as H.
  apply (f_equal length) in E. unfold body in E. simpl in E. rewrite length_app in E. lia.
Qed.

Definition last_key (its : list item) : bytes := match list.last its with Some x => i_key x | None => [] end.

Section Build.
Context (compare_ : bytes -> bytes -> outcome Z).

Record built (b : BlockBuilder) (its : list item) : Prop := {
  bt_items : items_ok its (restarts_ b);
  bt_buffer : buffer_ b = body its;
  bt_open : finished_ b = false;
  bt_last : last_key_ b = last_key its;
  bt_interval : 1 <= block_restart_interval b;
  bt_counter : 0 <= counter_ b <= block_restart_interval b;
  bt_fresh : its = [] -> counter_ b = 0 }.

Lemma items_ok_nil : items_ok [] [0].
Proof.
  split; [constructor|..].
  - intros i x Hx. done.
  - done.
  - intros i j a b Hij Ha Hb. apply lookup_lt_Some in Ha, Hb. simpl in *. lia.
  - intros r Hr. apply list_elem_of_singleton in Hr. by left.
Qed.

Lemma make_BlockBuilder_built interval :
  1 <= interval -> exists b, make_BlockBuilder interval = Done b /\ built b [] /\ block_restart_interval b = interval.
Proof.
  intros Hi. unfold make_BlockBuilder. rewrite (proj2 (Z.leb_le _ _) Hi). cbn [c_assert mbind outcome_bind].
  eexists. split; [done|]. split; [|done]. by split; cbn; try done; try apply items_ok_nil; try lia.
Qed.

Lemma Reset_built b its : built b its -> built (Reset b) [].
Proof. intros [_ _ _ _ Hi _ _]. by split; cbn; try done; try apply items_ok_nil; try lia. Qed.

(** a new entry at the end, with the restart points that are before it *)
Lemma items_ok_snoc its rs rs' x :
  items_ok its rs -> item_ok x ->
  (i_shared x = O \/ exists prev, list.last its = Some prev /\ (i_shared x <= length (i_key prev))%nat /\
     take (i_shared x) (i_key prev) = take (i_shared x) (i_key x)) ->
  (rs' = rs \/ (rs' = rs ++ [off its (length its)] /\ i_shared x = O /\ its <> [])) ->
  items_ok (its ++ [x]) rs'.
Proof.
  intros [H1 H2 H3 H4 H5] Hx Hsh Hrs.
  assert (Hold : forall r, r ∈ rs -> r = 0 \/ exists i y, its !! i = Some y /\ r = off its i /\ i_shared y = O) by exact H5.
  assert (Hlt : forall r, r ∈ rs -> its <> [] -> r < off its (length its)).
  { intros r Hr Hne. destruct (Hold r Hr) as [->|(i & y & Hy & -> & _)].
    - destruct its as [|z l] eqn:E; [done|]. pose proof (off_lt (z :: l) 0 (length (z :: l))) as Hl.
      rewrite off_0 in Hl. simpl length in *. specialize (Hl ltac:(lia) ltac:(lia)). lia.
    - apply lookup_lt_Some in Hy. pose proof (off_lt its i (length its) Hy). lia. }
  split.
  - apply list.Forall_app. split; [done|by apply list.Forall_singleton].
  - intros i y Hy. apply lookup_app_Some in Hy as [Hy|[Hi Hy]].
    + destruct (H2 i y Hy) as [|(j & prev & -> & Hp & ?)]; [by left|]. right. exists j, prev. split; [done|].
      split; [by apply lookup_app_l_Some|done].
    + apply list_lookup_singleton_Some in Hy as [Hi0 <-]. destruct Hsh as [|(prev & Hp & ?)]; [by left|]. right.
      rewrite last_lookup in Hp. destruct (length its) as [|n] eqn:En; [by apply length_zero_iff_nil in En as ->|].
      exists n, prev. split; [lia|]. split; [by apply lookup_app_l_Some|done].
  - destruct Hrs as [->|(-> & _ & _)]; [done|]. by apply lookup_app_l_Some.
  - destruct Hrs as [->|(-> & _ & Hne)]; [done|]. intros i j a b Hij Ha Hb.
    apply lookup_app_Some in Hb as [Hb|[Hj Hb]].
    + apply lookup_lt_Some in Hb as Hjl. apply lookup_app_Some in Ha as [Ha|[Hi _]]; [by apply (H4 i j)|lia].
    + apply list_lookup_singleton_Some in Hb as [Hj0 <-]. apply lookup_app_Some in Ha as [Ha|[Hi Ha]].
      * apply Hlt; [by eapply list_elem_of_lookup_2|done].
      * apply list_lookup_singleton_Some in Ha as [? _]. lia.
  - assert (Hin : forall r, r ∈ rs -> r = 0 \/ exists i y, (its ++ [x]) !! i = Some y /\ r = off (its ++ [x]) i /\ i_shared y = O).
    { intros r Hr. destruct (Hold r Hr) as [->|(i & y & Hy & -> & Hs)]; [by left|]. right. exists i, y.
      split; [by apply lookup_app_l_Some|]. split; [|done]. apply lookup_lt_Some in Hy. rewrite off_app; [done|lia]. }
    destruct Hrs as [->|(-> & Hs0 & _)]; [exact Hin|]. intros r Hr. apply elem_of_app in Hr as [Hr|Hr]; [by apply Hin|].
    apply list_elem_of_singleton in Hr as ->. right. exists (length its), x. split; [by apply list_lookup_middle|].
    split; [|done]. rewrite off_app; [done|lia].
Qed.

Lemma EncodeVarint32_len v : blen (EncodeVarint32 v) <= 5.
Proof. unfold EncodeVarint32. repeat (destruct (_ <? _); [done|]). done. Qed.

Lemma block_Add_spec b its key value :
  built b its -> blen key < 2 ^ 32 -> blen value < 2 ^ 32 -> blen (buffer_ b) < 2 ^ 32 ->
  (forall x, list.last its = Some x -> exists r, compare_ key (i_key x) = Done r /\ 0 < r) ->
  exists b' x, Add compare_ b key value = Done b' /\ built b' (its ++ [x]) /\ i_key x = key /\ i_value x = value /\
    block_restart_interval b' = block_restart_interval b /\
    CurrentSizeEstimate b' <= CurrentSizeEstimate b + blen key + blen value + 19.
Proof.
  intros [Hit Hbuf Hop Hlast Hint Hcnt Hfresh] Hk Hv Hsz Hcmp. unfold Add. rewrite Hop. cbn [negb c_assert mbind outcome_bind].
  rewrite (proj2 (Z.leb_le _ _)) by lia. cbn [c_assert mbind outcome_bind].
  assert (E0 : (if builder_empty b then Done tt else r ← compare_ key (last_key_ b); c_assert (0 <? r)) = Done tt).
  { unfold builder_empty. destruct (Z.eqb_spec (blen (buffer_ b)) 0) as [|Hne]; [done|]. rewrite Hlast. unfold last_key.
    destruct (list.last its) as [x|] eqn:El.
    - destruct (Hcmp x eq_refl) as (r & Er & Hr). rewrite Er. cbn [mbind outcome_bind]. by rewrite (proj2 (Z.ltb_lt _ _) Hr).
    - apply last_None in El as ->. by rewrite Hbuf in Hne. }
  rewrite E0. cbn [mbind outcome_bind]. clear E0 Hcmp.
  assert (Hbody : off its (length its) = blen (body its)) by (by apply off_all).
  (* whichever entry is appended *)
  assert (Hgo : forall shared rs c, (shared <= length key)%nat -> (shared <= length (last_key its))%nat ->
      take shared (last_key its) = take shared key -> 0 <= c < block_restart_interval b ->
      (rs = restarts_ b \/ (rs = restarts_ b ++ [off its (length its)] /\ shared = O /\ its <> [])) ->
      exists b' x, (_ ← c_assert (bool_decide (take shared (last_key_ b) ++ drop shared key = key));
         Done {| block_restart_interval := block_restart_interval b; buffer_ := buffer_ b ++ entry_bytes shared key value;
                 restarts_ := rs; counter_ := c + 1; finished_ := false;
                 last_key_ := take shared (last_key_ b) ++ drop shared key |}) = Done b' /\
      built b' (its ++ [x]) /\ i_key x = key /\ i_value x = value /\
      block_restart_interval b' = block_restart_interval b /\
      CurrentSizeEstimate b' <= CurrentSizeEstimate b + blen key + blen value + 19).
  { intros shared rs c Hs1 Hs2 Ht Hc Hrs. rewrite Hlast, Ht, take_drop, bool_decide_eq_true_2 by done.
    cbn [c_assert mbind outcome_bind]. set (x := {| i_shared := shared; i_key := key; i_value := value |}).
    eexists _, x. split; [done|]. split; [|split; [done|split; [done|split; [done|]]]].
    - split; cbn [restarts_ buffer_ finished_ last_key_ block_restart_interval counter_]; try done; try lia.
      + eapply (items_ok_snoc its (restarts_ b)); [done|by split| |exact Hrs].
        destruct (list.last its) as [y|] eqn:El; unfold last_key in *; rewrite El in *.
        * right. exists y. done.
        * left. simpl in *. lia.
      + rewrite body_app, Hbuf. f_equal. unfold body. simpl. by rewrite app_nil_r.
      + unfold last_key. by rewrite last_snoc.
      + intros E. by destruct its.
    - unfold CurrentSizeEstimate. cbn [buffer_ restarts_]. unfold entry_bytes. rewrite !blen_app.
      pose proof (EncodeVarint32_len (u32 (Z.of_nat shared))). pose proof (EncodeVarint32_len (u32 (blen key - Z.of_nat shared))).
      pose proof (EncodeVarint32_len (u32 (blen value))).
      assert (blen (drop shared key) <= blen key) by (unfold blen; rewrite length_drop; lia).
      destruct Hrs as [->|(-> & _)]; rewrite ?length_app; simpl length; lia. }
  destruct (Z.ltb_spec (counter_ b) (block_restart_interval b)) as [Hlt|Hge].
  - destruct (diff_index_prefix (last_key its) key) as (H1 & H2 & H3). rewrite Hlast.
    destruct (Hgo (diff_index (last_key its) key) (restarts_ b) (counter_ b)) as (b' & x & E & Hrest); [done..|lia|by left|].
    rewrite Hlast in E. by exists b', x.
  - apply (Hgo O _ 0); [lia|lia|done|lia|]. right. rewrite Hbuf in *. rewrite Hbody, u32_small by (pose proof (blen_nonneg (body its)); lia).
    split; [done|]. split; [done|]. intros E. specialize (Hfresh E). lia.
Qed.

Lemma Finish_built b its :
  built b its -> Z.of_nat (length (restarts_ b)) < 2 ^ 32 -> (Finish b).2 = block_bytes its (restarts_ b).
Proof.
  intros Hb Hl. unfold Finish, PutFixed32, block_bytes, block_tail. cbn [snd].
  rewrite fold_PutFixed32, (bt_buffer _ _ Hb), u32_small by lia. rewrite map_app, concat_app. cbn [map concat].
  by rewrite app_nil_r, <- app_assoc.
Qed.

Lemma built_size b its : built b its -> blen (block_bytes its (restarts_ b)) = CurrentSizeEstimate b.
Proof. intros Hb. rewrite blen_block. unfold CurrentSizeEstimate. rewrite (bt_buffer _ _ Hb). lia. Qed.
End Build.

(** A well-formed block, opened: an iterator at its end. *)
Lemma block_opens its rs :
  items_ok its rs -> blen (block_bytes its rs) < 2 ^ 32 ->
  exists blk it, make_Block (block_bytes its rs) = Done blk /\ NewIterator blk = Done (BlockIter it) /\ size_ blk <> 0 /\
    cursor its rs it (length its).
Proof.
  intros Hok Hsize. pose proof (blen_block its rs) as Hl. pose proof (blen_nonneg (body its)).
  pose proof (rs_nonempty its rs Hok). set (n := Z.of_nat (length rs)) in *.
  assert (Hnum : forall r, NumRestarts {| data_ := block_bytes its rs; size_ := blen (block_bytes its rs); restart_offset_ := r |} = Done n).
  { intros r. unfold NumRestarts. cbn [size_ data_]. rewrite (proj2 (Z.leb_le _ _)) by lia. cbn [c_assert mbind outcome_bind].
    unfold block_bytes, block_tail. rewrite map_app, concat_app. cbn [map concat]. rewrite app_nil_r, app_assoc.
    replace (Z.to_nat _) with (length (body its ++ concat (map EncodeFixed32 rs))).
    - rewrite drop_app_exact, <- (app_nil_r (EncodeFixed32 _)). apply Fixed32_roundtrip. fold n. lia.
    - rewrite !blen_app, blen_EncodeFixed32. unfold blen. rewrite length_app. lia. }
  unfold make_Block. rewrite (proj2 (Z.ltb_ge _ _)) by lia. rewrite Hnum. cbn [mbind outcome_bind].
  assert (Hmax : (blen (block_bytes its rs) - 4) / 4 >= n) by (apply Z.le_ge, Z.div_le_lower_bound; lia).
  rewrite (proj2 (Z.ltb_ge _ _)) by lia. rewrite (u32_small (1 + n)) by lia.
  rewrite u32_small by lia. eexists _, _. split; [done|]. unfold NewIterator. cbn [size_ restart_offset_ data_].
  rewrite (proj2 (Z.ltb_ge _ _)) by lia. rewrite Hnum. cbn [mbind outcome_bind]. rewrite (proj2 (Z.eqb_neq _ _)) by lia.
  unfold make_Iter. rewrite (proj2 (Z.ltb_lt _ _)) by lia. cbn [c_assert mbind outcome_bind]. split; [done|]. split; [lia|].
  right. split; [done|]. replace (blen (block_bytes its rs) - (1 + n) * 4) with (blen (body its)) by lia. by repeat split.
Qed.

(** ** The whole way: built, opened, read *)

Section Whole.
Context (compare_ : bytes -> bytes -> outcome Z) `{!KeyOrder compare_} `{!ExactOrder compare_}.

Fixpoint add_all (b : BlockBuilder) (kvs : list (bytes * bytes)) : outcome BlockBuilder :=
  match kvs with [] => Done b | (k, v) :: kvs' => b ← Add compare_ b k v; add_all b kvs' end.

Definition open_block (contents : bytes) : outcome BlockIterator := blk ← make_Block contents; NewIterator blk.

(** an upper bound of the size of the block *)
Fixpoint size_bound (kvs : list (bytes * bytes)) : Z :=
  match kvs with [] => 8 | (k, v) :: kvs' => blen k + blen v + 19 + size_bound kvs' end.

Definition increasing (kvs : list (bytes * bytes)) : Prop :=
  forall i j a b, (i < j)%nat -> kvs !! i = Some a -> kvs !! j = Some b -> cmp a.1 b.1 < 0.

Definition kv (x : item) : bytes * bytes := (i_key x, i_value x).

(** [R it i]: the iterator is at position [i] of the list, its end included; every
    operation is that of a cursor *)
Record list_cursor (kvs : list (bytes * bytes)) (R : Iter -> nat -> Prop) : Prop := {
  lc_valid it i : R it i -> (i <= length kvs)%nat /\ Valid it = bool_decide (i < length kvs)%nat;
  lc_entry it i k v : R it i -> kvs !! i = Some (k, v) -> iter_key it = Done k /\ iter_value it = Done v;
  lc_next it i : R it i -> (i < length kvs)%nat -> exists it', Next it = Done it' /\ R it' (S i);
  lc_prev it i : R it i -> (i < length kvs)%nat ->
    exists it', Prev it = Done it' /\ R it' (match i with O => length kvs | S i' => i' end);
  lc_first it i : R it i -> exists it', SeekToFirst it = Done it' /\ R it' O;
  lc_last it i : R it i -> exists it', SeekToLast it = Done it' /\ R it' (length kvs - 1)%nat;
  lc_seek it i target : R it i -> key_ok target ->
    exists it' n, Seek compare_ it target = Done it' /\ R it' n /\
      forall j k v, kvs !! j = Some (k, v) -> ((j < n)%nat -> cmp k target < 0) /\ (j = n -> 0 <= cmp k target) }.

(** the cursor of a well-formed block *)
Lemma items_cursor its rs :
  items_ok its rs -> blen (block_bytes its rs) < 2 ^ 32 -> Forall (fun e : bytes * bytes => key_ok e.1) (map kv its) ->
  increasing (map kv its) -> list_cursor (map kv its) (cursor its rs).
Proof.
  intros Hok Hsize Hkeys Hinc. split; rewrite ?length_map.
  - intros it i Hc. split; [by eapply cursor_le|by eapply cursor_valid].
  - intros it i k v Hc Hkv. rewrite list_lookup_fmap in Hkv. destruct (its !! i) as [x|] eqn:Ex; [|done].
    injection Hkv as <- <-. by eapply cursor_item.
  - intros it i Hc Hi. by apply Next_spec.
  - intros it i Hc Hi. by apply Prev_spec.
  - intros it i Hc. apply block_SeekToFirst_spec; [done|done|by eapply cursor_over].
  - intros it i Hc. apply block_SeekToLast_spec; [done|done|by eapply cursor_over].
  - intros it i target Hc Ht.
    assert (Hk : Forall (fun x => key_ok (i_key x)) its) by (by rewrite list.Forall_fmap in Hkeys).
    assert (Hs : forall i j x y, (i < j)%nat -> its !! i = Some x -> its !! j = Some y -> cmp (i_key x) (i_key y) < 0).
    { intros a b x y Hab Hx Hy. apply (Hinc a b (kv x) (kv y) Hab); rewrite list_lookup_fmap; [by rewrite Hx|by rewrite Hy]. }
    destruct (block_Seek_spec its rs Hok Hsize compare_ Hk Hs target Ht it i Hc) as (it' & n & E & Hc' & Hless & Hge).
    exists it', n. split; [done|]. split; [done|]. intros j k v Hj. rewrite list_lookup_fmap in Hj.
    destruct (its !! j) as [x|] eqn:Ex; [|done]. injection Hj as <- <-. split; [intros Hjn; by apply (Hless j)|].
    intros ->. by apply Hge.
Qed.

Lemma last_kv its x : list.last its = Some x -> list.last (map kv its) = Some (kv x).
Proof. intros Hx. change (map kv its) with (kv <$> its). by rewrite list.fmap_last, Hx. Qed.

Lemma add_all_spec kvs b its :
  built b its -> CurrentSizeEstimate b - 8 + size_bound kvs < 2 ^ 32 ->
  Forall (fun e : bytes * bytes => key_ok e.1) (map kv its ++ kvs) -> increasing (map kv its ++ kvs) ->
  exists b' its', add_all b kvs = Done b' /\ built b' its' /\ map kv its' = map kv its ++ kvs /\
    CurrentSizeEstimate b' <= CurrentSizeEstimate b - 8 + size_bound kvs.
Proof.
  revert b its; induction kvs as [|[k v] kvs IH]; intros b its Hb Hsz Hk Hinc; cbn [add_all size_bound] in *.
  { exists b, its. rewrite app_nil_r. split; [done|]. split; [done|]. split; [done|lia]. }
  assert (Hpos : forall l, 8 <= size_bound l).
  { induction l as [|[a c] l IHl]; cbn [size_bound]; [lia|]. pose proof (blen_nonneg a). pose proof (blen_nonneg c). lia. }
  specialize (Hpos kvs). pose proof (blen_nonneg k). pose proof (blen_nonneg v). pose proof (blen_nonneg (buffer_ b)).
  assert (Hcs : blen (buffer_ b) + 4 <= CurrentSizeEstimate b) by (unfold CurrentSizeEstimate; lia).
  destruct (block_Add_spec compare_ b its k v Hb) as (b1 & x & E & Hb1 & Ek & Ev & _ & Hsz1); [lia|lia|lia| |].
  { intros x Hx. apply last_kv in Hx. rewrite last_lookup in Hx. pose proof (lookup_lt_Some _ _ _ Hx) as Hlt.
    assert (Hd : cmp (i_key x) k < 0).
    { apply (Hinc _ (length (map kv its)) (kv x) (k, v) Hlt); [by apply lookup_app_l_Some|by apply list_lookup_middle]. }
    rewrite list.Forall_forall in Hk. assert (key_ok (i_key x)).
    { apply (Hk (kv x)). apply elem_of_app. left. by eapply list_elem_of_lookup_2. }
    assert (key_ok k) by (apply (Hk (k, v)), elem_of_app; right; by left).
    exists (cmp k (i_key x)). split; [by apply cmp_done|]. rewrite (cmp_antisym (i_key x) k) by done. lia. }
  rewrite E. cbn [mbind outcome_bind].
  assert (Ekv : map kv (its ++ [x]) = map kv its ++ [(k, v)]).
  { rewrite map_app. simpl. unfold kv at 2. by rewrite Ek, Ev. }
  destruct (IH b1 (its ++ [x]) Hb1) as (b' & its' & E' & Hb' & Em & Hs'); [lia|by rewrite Ekv, <- app_assoc..|].
  exists b', its'. rewrite E'. split; [done|]. split; [done|]. rewrite Em, Ekv, <- app_assoc. split; [done|lia].
Qed.

(** C13: A block is the sorted list it was built of.  [BlockBuilder], given
    increasing keys, makes a block that [Block] opens; the iterator over it is a
    cursor into the list of entries: [SeekToFirst], [SeekToLast], [Next], [Prev]
    move to the positions they name, each position shows its key and its value,
    and [Seek], from any position, stops at the first key that is not less than
    its target. *)
Theorem block_is_sorted_list interval (kvs : list (bytes * bytes)) :
  1 <= interval -> size_bound kvs < 2 ^ 32 -> Forall (fun e : bytes * bytes => key_ok e.1) kvs -> increasing kvs ->
  exists b it R, (b ← make_BlockBuilder interval; add_all b kvs) = Done b /\
    open_block (Finish b).2 = Done (BlockIter it) /\ R it (length kvs) /\ list_cursor kvs R.
Proof.
  intros Hi Hsz Hk Hinc. destruct (make_BlockBuilder_built interval Hi) as (b0 & E0 & Hb0 & _).
  assert (Es0 : CurrentSizeEstimate b0 = 8).
  { revert E0. unfold make_BlockBuilder. rewrite (proj2 (Z.leb_le _ _) Hi). by intros [= <-]. }
  destruct (add_all_spec kvs b0 [] Hb0) as (b & its & E & Hb & Em & Hs); [lia|done|done|]. simpl in Em.
  rewrite E0. cbn [mbind outcome_bind]. rewrite E.
  assert (Hsize : blen (block_bytes its (restarts_ b)) < 2 ^ 32) by (rewrite (built_size b its Hb); lia).
  pose proof (blen_block its (restarts_ b)). pose proof (blen_nonneg (body its)).
  destruct (block_opens its (restarts_ b) (bt_items _ _ Hb) Hsize) as (blk & it & E1 & E2 & _ & Hc).
  exists b, it, (cursor its (restarts_ b)). split; [done|]. rewrite (Finish_built b its Hb) by lia.
  unfold open_block. rewrite E1. cbn [mbind outcome_bind]. split; [done|]. rewrite <- Em, length_map. split; [done|].
  apply items_cursor; [by apply Hb|done|by rewrite Em|by rewrite Em].
Qed.
End Whole.

Lemma block_is_sorted_list_witness :
  exists b it R, (b ← make_BlockBuilder 2; add_all bytewise b [(text "apple", text "1"); (text "apply", text "2"); (text "banana", text "3")]) = Done b /\
    open_block (Finish b).2 = Done (BlockIter it) /\ R it 3%nat /\
    list_cursor bytewise [(text "apple", text "1"); (text "apply", text "2"); (text "banana", text "3")] R.
Proof.
  apply (block_is_sorted_list bytewise 2 [(text "apple", text "1"); (text "apply", text "2"); (text "banana", text "3")]).
  - lia.
  - reflexivity.
  - repeat constructor.
  - intros i j a b Hij Ha Hb. destruct i as [|[|[|i]]], j as [|[|[|j]]]; try lia; simpl in Ha, Hb; simplify_eq; reflexivity.
Defined.
