(* ===== verification/Format.v ===== *)
(** * Format: table/format.h and format.cc, and the compression of port/port_stdcxx.h

    What a table file consists of: blocks behind each other, each with a type
    and a checksum, and a footer that says where the two index blocks are.  The
    file is the interface [RandomAccessFile] of leveldb/env.h; the compression
    library, when there is one, is the class [Snappy]. *)

From Stdlib.Strings Require Import Byte.
From S2P Require Import Prelude Status Coding WriteBatch Crc32c Log LogSpec.

(** ** Handles and footers *)

Record BlockHandle := { handle_offset : Z; handle_size : Z }.

(** [~static_cast<uint64_t>(0)] *)
Definition unset : Z := 2 ^ 64 - 1.
Definition make_BlockHandle : BlockHandle := {| handle_offset := unset; handle_size := unset |}.

(** [BlockHandle::kMaxEncodedLength], [Footer::kEncodedLength] *)
Definition kMaxEncodedLength : Z := 10 + 10.
Definition kEncodedLength : Z := 2 * kMaxEncodedLength + 8.
Definition kTableMagicNumber : Z := 0xdb4775248b80fb57.
Definition kBlockTrailerSize : Z := 5.

Definition EncodeTo (h : BlockHandle) (dst : bytes) : outcome bytes :=
  _ ← c_assert (negb (handle_offset h =? unset));
  _ ← c_assert (negb (handle_size h =? unset));
  Done (PutVarint64 (PutVarint64 dst (handle_offset h)) (handle_size h)).

(** the handle and the bytes after it *)
Definition DecodeFrom (input : bytes) : option (BlockHandle * bytes) :=
  match GetVarint64 input with
  | Some (offset, input) =>
      match GetVarint64 input with
      | Some (size, input) => Some ({| handle_offset := offset; handle_size := size |}, input)
      | None => None
      end
  | None => None
  end.

Record Footer := { metaindex_handle : BlockHandle; index_handle : BlockHandle }.

Definition footer_EncodeTo (f : Footer) (dst : bytes) : outcome bytes :=
  let original_size := blen dst in
  dst ← EncodeTo (metaindex_handle f) dst;
  dst ← EncodeTo (index_handle f) dst;
  let dst := resize (Z.to_nat (2 * kMaxEncodedLength)) x00 dst in
  let dst := PutFixed32 dst (u32 (Z.land kTableMagicNumber 0xffffffff)) in
  let dst := PutFixed32 dst (u32 (Z.shiftr kTableMagicNumber 32)) in
  _ ← c_assert (blen dst =? original_size + kEncodedLength);
  Done dst.

(** the footer, or a status *)
Definition footer_DecodeFrom (input : bytes) : outcome (Footer + Status) :=
  let magic_ptr := drop (Z.to_nat (kEncodedLength - 8)) input in
  magic_lo ← DecodeFixed32 magic_ptr;
  magic_hi ← DecodeFixed32 (drop 4 magic_ptr);
  let magic := Z.lor (u64 (Z.shiftl magic_hi 32)) magic_lo in
  if negb (magic =? kTableMagicNumber) then Done (inr (Corruption (text "not an sstable (bad magic number)"))) else
  match DecodeFrom input with
  | None => Done (inr (Corruption (text "bad block handle")))
  | Some (metaindex, input) =>
      match DecodeFrom input with
      | None => Done (inr (Corruption (text "bad block handle")))
      | Some (index, _) => Done (inl {| metaindex_handle := metaindex; index_handle := index |})
      end
  end.

(** ** Compression *)

Inductive CompressionType := kNoCompression | kSnappyCompression.
Definition compression_code (t : CompressionType) : Z := match t with kNoCompression => 0 | kSnappyCompression => 1 end.

(** the library, if the build has it *)
Record SnappyLib := {
  RawCompress : bytes -> bytes; GetUncompressedLength : bytes -> option Z; RawUncompress : bytes -> option bytes }.
Class Snappy := { snappy_lib : option SnappyLib }.

Definition Snappy_Compress `{Snappy} (input : bytes) : option bytes :=
  match snappy_lib with Some lib => Some (RawCompress lib input) | None => None end.
Definition Snappy_GetUncompressedLength `{Snappy} (input : bytes) : option Z :=
  match snappy_lib with Some lib => GetUncompressedLength lib input | None => None end.
Definition Snappy_Uncompress `{Snappy} (input : bytes) : option bytes :=
  match snappy_lib with Some lib => RawUncompress lib input | None => None end.

(** what the library promises: what was compressed comes back *)
Class SnappyOk `{Snappy} : Prop := {
  snappy_roundtrip : forall lib raw, snappy_lib = Some lib ->
    GetUncompressedLength lib (RawCompress lib raw) = Some (blen raw) /\ RawUncompress lib (RawCompress lib raw) = Some raw }.

#[export] Instance no_snappy : Snappy := {| snappy_lib := None |}.
#[export] Instance no_snappy_ok : SnappyOk.
Proof. by split. Qed.

(** ** Files read at any place *)

(** [Read] of so many bytes from an offset: a status, the bytes, and whether they
    lie in the buffer the caller gave *)
Class RandomAccessFile (R : Type) := { random_Read : R -> Z -> Z -> Status * bytes * bool }.

Class RandomAccessFileOk (R : Type) `{RandomAccessFile R} := {
  file_content : R -> bytes;
  random_Read_ok : forall f offset n, 0 <= offset -> 0 <= n -> exists own,
    random_Read f offset n = (OK, take (Z.to_nat n) (drop (Z.to_nat offset) (file_content f)), own) }.

#[export] Instance plain_random : RandomAccessFile bytes :=
  {| random_Read f offset n := (OK, take (Z.to_nat n) (drop (Z.to_nat offset) f), true) |}.
#[export] Instance plain_random_ok : RandomAccessFileOk bytes.
Proof. refine {| file_content f := f |}. intros f offset n _ _. by exists true. Defined.

(** ** Reading a block *)

Record BlockContents := { contents_data : bytes; cachable : bool; heap_allocated : bool }.

Definition ReadBlock {R} `{RandomAccessFile R} `{Machine} `{Snappy} (file : R) (verify_checksums : bool) (handle : BlockHandle)
    : outcome (BlockContents + Status) :=
  let n := handle_size handle in
  let '(s, contents, own) := random_Read file (handle_offset handle) (u64 (n + kBlockTrailerSize)) in
  match s with
  | OK =>
      if negb (blen contents =? u64 (n + kBlockTrailerSize)) then Done (inr (Corruption (text "truncated block read"))) else
      let data := contents in
      ok ← (if verify_checksums then
              masked ← DecodeFixed32 (drop (Z.to_nat (n + 1)) data);
              actual ← Value (take (Z.to_nat (n + 1)) data);
              Done (actual =? Unmask masked)
            else Done true);
      if negb ok then Done (inr (Corruption (text "block checksum mismatch"))) else
      match data !! Z.to_nat n with
      | None => Undefined
      | Some type =>
          let raw := take (Z.to_nat n) data in
          if b2z type =? compression_code kNoCompression then
            Done (inl {| contents_data := raw; cachable := own; heap_allocated := own |})
          else if b2z type =? compression_code kSnappyCompression then
            match Snappy_GetUncompressedLength raw with
            | None => Done (inr (Corruption (text "corrupted compressed block contents")))
            | Some ulength =>
                match Snappy_Uncompress raw with
                | None => Done (inr (Corruption (text "corrupted compressed block contents")))
                | Some ubuf =>
                    if blen ubuf =? ulength
                    then Done (inl {| contents_data := ubuf; cachable := true; heap_allocated := true |}) else Undefined
                end
            end
          else Done (inr (Corruption (text "bad block type")))
      end
  | _ => Done (inr s)
  end.

(** ** Lemmas *)

Definition handle_ok (h : BlockHandle) : Prop := 0 <= handle_offset h < unset /\ 0 <= handle_size h < unset.

Definition handle_bytes (h : BlockHandle) : bytes := EncodeVarint64 (handle_offset h) ++ EncodeVarint64 (handle_size h).

Lemma EncodeTo_spec h dst : handle_ok h -> EncodeTo h dst = Done (dst ++ handle_bytes h).
Proof.
  intros [H1 H2]. unfold EncodeTo. rewrite (proj2 (Z.eqb_neq _ _)) by lia. cbn [negb c_assert mbind outcome_bind].
  rewrite (proj2 (Z.eqb_neq _ _)) by lia. cbn [negb c_assert mbind outcome_bind]. unfold PutVarint64, handle_bytes.
  by rewrite <- app_assoc.
Qed.

Lemma DecodeFrom_spec h rest : handle_ok h -> DecodeFrom (handle_bytes h ++ rest) = Some (h, rest).
Proof.
  intros [H1 H2]. unfold unset in *. unfold DecodeFrom, handle_bytes. rewrite <- app_assoc, Varint64_roundtrip by lia.
  rewrite Varint64_roundtrip by lia. by destruct h.
Qed.

Lemma blen_varint n v : blen (varint n v) <= 1 + Z.of_nat n.
Proof.
  revert v; induction n as [|n IH]; intros v; cbn [varint]; [done|].
  destruct (128 <=? v); [rewrite blen_cons; specialize (IH (v / 128)); lia|]. change (blen [z2b v]) with 1. lia.
Qed.

Lemma blen_handle h : handle_ok h -> blen (handle_bytes h) <= kMaxEncodedLength.
Proof.
  intros [H1 H2]. unfold unset, kMaxEncodedLength in *. unfold handle_bytes. rewrite blen_app, !EncodeVarint64_varint by lia.
  pose proof (blen_varint 9 (handle_offset h)). pose proof (blen_varint 9 (handle_size h)). lia.
Qed.

(** the footer of a file: it has one length and is read back *)
Lemma Footer_roundtrip f :
  handle_ok (metaindex_handle f) -> handle_ok (index_handle f) ->
  exists enc, footer_EncodeTo f [] = Done enc /\ blen enc = kEncodedLength /\ footer_DecodeFrom enc = Done (inl f).
Proof.
  intros H1 H2. unfold footer_EncodeTo. rewrite EncodeTo_spec by done. cbn [mbind outcome_bind app].
  rewrite EncodeTo_spec by done. cbn [mbind outcome_bind].
  set (hs := handle_bytes (metaindex_handle f) ++ handle_bytes (index_handle f)).
  pose proof (blen_handle _ H1) as L1. pose proof (blen_handle _ H2) as L2.
  assert (Hhs : (length hs <= 40)%nat) by (unfold hs, kMaxEncodedLength, blen in *; rewrite length_app; lia).
  set (pad := replicate (40 - length hs) x00). change (Z.to_nat (2 * kMaxEncodedLength)) with 40%nat.
  assert (Er : resize 40 x00 hs = hs ++ pad) by (by apply resize_ge). rewrite Er.
  assert (Hl : blen (hs ++ pad) = 40).
  { unfold blen. rewrite length_app. unfold pad. rewrite length_replicate. lia. }
  unfold PutFixed32. set (lo := u32 (Z.land kTableMagicNumber 0xffffffff)). set (hi := u32 (Z.shiftr kTableMagicNumber 32)).
  eexists. split; [|split].
  - rewrite (proj2 (Z.eqb_eq _ _)); [reflexivity|]. rewrite !blen_app, !blen_EncodeFixed32. rewrite blen_app in Hl. rewrite Hl. done.
  - rewrite !blen_app, !blen_EncodeFixed32. rewrite blen_app in Hl. rewrite Hl. done.
  - unfold footer_DecodeFrom. change (Z.to_nat (kEncodedLength - 8)) with 40%nat.
    assert (Hd : drop 40 (((hs ++ pad) ++ EncodeFixed32 lo) ++ EncodeFixed32 hi) = EncodeFixed32 lo ++ EncodeFixed32 hi).
    { rewrite <- (app_assoc (hs ++ pad)). replace 40%nat with (length (hs ++ pad)) by (unfold blen in Hl; lia). apply drop_app_exact. }
    rewrite Hd, Fixed32_roundtrip by done. cbn [mbind outcome_bind].
    change 4%nat with (length (EncodeFixed32 lo)) at 1. rewrite drop_app_exact.
    rewrite <- (app_nil_r (EncodeFixed32 hi)) at 1. rewrite Fixed32_roundtrip by done. cbn [mbind outcome_bind].
    change (negb (Z.lor (u64 (Z.shiftl hi 32)) lo =? kTableMagicNumber)) with false. cbv iota.
    unfold hs. rewrite <- !app_assoc, DecodeFrom_spec by done. rewrite DecodeFrom_spec by done. by destruct f.
Qed.

(** *** What [ReadBlock] reads *)

(** how the bytes [data], stored with type [t], stand for the block [raw] *)
Definition stored_as `{Snappy} (t : CompressionType) (data raw : bytes) : Prop :=
  match t with
  | kNoCompression => data = raw
  | kSnappyCompression => Snappy_GetUncompressedLength data = Some (blen raw) /\ Snappy_Uncompress data = Some raw
  end.

Definition block_trailer (t : CompressionType) (data : bytes) : bytes :=
  z2b (compression_code t) :: EncodeFixed32 (Mask (crc32c 0 (data ++ [z2b (compression_code t)]))).

(** the file holds the block [raw] where the handle says *)
Definition holds_block `{Snappy} (file : bytes) (h : BlockHandle) (raw : bytes) : Prop :=
  exists t pre data post, file = pre ++ data ++ block_trailer t data ++ post /\
    handle_offset h = blen pre /\ handle_size h = blen data /\ stored_as t data raw.

Lemma holds_block_app `{Snappy} file more h raw : holds_block file h raw -> holds_block (file ++ more) h raw.
Proof.
  intros (t & pre & data & post & -> & Ho & Hs & Hst). exists t, pre, data, (post ++ more). by rewrite <- !app_assoc.
Qed.

Lemma ReadBlock_spec {R} `{RandomAccessFileOk R} `{MachineOk} `{Snappy} (f : R) verify h raw :
  holds_block (file_content f) h raw -> blen (file_content f) < 2 ^ 63 ->
  exists c h', ReadBlock f verify h = Done (inl {| contents_data := raw; cachable := c; heap_allocated := h' |}).
Proof.
  intros (t & pre & data & post & E & Ho & Hs & Hst) Hl. unfold ReadBlock. rewrite Ho, Hs.
  pose proof (blen_nonneg pre). pose proof (blen_nonneg data). pose proof (blen_nonneg post).
  assert (Htr : blen (block_trailer t data) = 5) by done.
  assert (Htot : blen (file_content f) = blen pre + blen data + 5 + blen post) by (rewrite E, !blen_app, Htr; lia).
  rewrite u64_small by (unfold kBlockTrailerSize; lia).
  destruct (random_Read_ok f (blen pre) (blen data + kBlockTrailerSize)) as (own & Er); [lia|unfold kBlockTrailerSize; lia|].
  rewrite Er, E, blen_to_nat, drop_app_exact.
  assert (Et : take (Z.to_nat (blen data + kBlockTrailerSize)) (data ++ block_trailer t data ++ post) = data ++ block_trailer t data).
  { rewrite app_assoc. replace (Z.to_nat _) with (length (data ++ block_trailer t data)); [apply take_app_exact|].
    unfold kBlockTrailerSize. unfold blen in *. rewrite length_app. lia. }
  rewrite Et. rewrite blen_app, Htr, (proj2 (Z.eqb_eq _ _)) by done. cbn [negb].
  assert (Ev : (if verify then
      masked ← DecodeFixed32 (drop (Z.to_nat (blen data + 1)) (data ++ block_trailer t data));
      actual ← Value (take (Z.to_nat (blen data + 1)) (data ++ block_trailer t data));
      Done (actual =? Unmask masked) else Done true) = Done true).
  { destruct verify; [|done]. unfold block_trailer. change (z2b (compression_code t) :: ?l) with ([z2b (compression_code t)] ++ l).
    rewrite !(app_assoc data). replace (Z.to_nat (blen data + 1)) with (length (data ++ [z2b (compression_code t)]))
      by (rewrite length_app; unfold blen; simpl; lia).
    rewrite drop_app_exact, take_app_exact. rewrite <- (app_nil_r (EncodeFixed32 _)), Fixed32_roundtrip by apply Mask_range.
    cbn [mbind outcome_bind]. unfold Value. rewrite Extend_spec by lia. cbn [mbind outcome_bind].
    by rewrite Unmask_Mask, Z.eqb_refl by (apply crc32c_range; lia). }
  rewrite Ev. cbn [mbind outcome_bind negb]. rewrite blen_to_nat. unfold block_trailer at 1.
  rewrite list_lookup_middle by done. rewrite take_app_exact. destruct t; cbn [stored_as] in Hst.
  - subst raw. by eexists _, _.
  - change (b2z (z2b (compression_code kSnappyCompression)) =? compression_code kNoCompression) with false.
    change (b2z (z2b (compression_code kSnappyCompression)) =? compression_code kSnappyCompression) with true. cbv iota.
    destruct Hst as [-> ->]. rewrite Z.eqb_refl. by eexists _, _.
Qed.
