(* ===== verification/TableBuilder.v ===== *)
(** * TableBuilder: table/table_builder.h, table_builder.cc and comparator.h

    A table is built from increasing keys: entries fill a data block, a full
    block goes to the file, and the index block gets a key that separates it
    from the next one.  [Finish] appends the filter block, the block that names
    it, the index block and the footer. *)

From Stdlib.Strings Require Import Byte.
From S2P Require Import Prelude Status Coding DbFormat WriteBatch Crc32c Log LogSpec Bloom FilterBlock Block Format.

(** ** The interface [Comparator], and the options a table is built with *)

Record Comparator := {
  comparator_Compare : bytes -> bytes -> outcome Z;
  comparator_FindShortestSeparator : bytes -> bytes -> outcome bytes;
  comparator_FindShortSuccessor : bytes -> outcome bytes }.

Definition InternalKeyComparator : Comparator := {|
  comparator_Compare := Internal.Compare;
  comparator_FindShortestSeparator := Internal.FindShortestSeparator;
  comparator_FindShortSuccessor := Internal.FindShortSuccessor |}.

Record Options (P : Type) := {
  comparator : Comparator; paranoid_checks : bool; block_size : Z; options_restart_interval : Z;
  compression : CompressionType; filter_policy : option P }.
Arguments comparator {P}. Arguments paranoid_checks {P}. Arguments block_size {P}.
Arguments options_restart_interval {P}. Arguments compression {P}. Arguments filter_policy {P}.

Section TableBuilder.
Context {F P : Type} `{WritableFile F} `{FilterPolicy P} `{Machine} `{Snappy}.
Variable options : Options P.

(** [TableBuilder::Rep]; [status] is whether it is OK *)
Record Rep := {
  file : F; offset : Z; status : bool; data_block : BlockBuilder; index_block : BlockBuilder;
  rep_last_key : bytes; num_entries : Z; closed : bool; filter_block : option (FilterBlockBuilder P);
  pending_index_entry : bool; pending_handle : BlockHandle }.
Implicit Types r : Rep.

Definition ok r : bool := status r.

Definition with_file r (f : F) (o : Z) (s : bool) : Rep :=
  {| file := f; offset := o; status := s; data_block := data_block r; index_block := index_block r;
     rep_last_key := rep_last_key r; num_entries := num_entries r; closed := closed r; filter_block := filter_block r;
     pending_index_entry := pending_index_entry r; pending_handle := pending_handle r |}.
Definition with_data r (b : BlockBuilder) : Rep :=
  {| file := file r; offset := offset r; status := status r; data_block := b; index_block := index_block r;
     rep_last_key := rep_last_key r; num_entries := num_entries r; closed := closed r; filter_block := filter_block r;
     pending_index_entry := pending_index_entry r; pending_handle := pending_handle r |}.
Definition with_index r (b : BlockBuilder) (last : bytes) : Rep :=
  {| file := file r; offset := offset r; status := status r; data_block := data_block r; index_block := b;
     rep_last_key := last; num_entries := num_entries r; closed := closed r; filter_block := filter_block r;
     pending_index_entry := false; pending_handle := pending_handle r |}.
Definition with_filter r (fb : option (FilterBlockBuilder P)) : Rep :=
  {| file := file r; offset := offset r; status := status r; data_block := data_block r; index_block := index_block r;
     rep_last_key := rep_last_key r; num_entries := num_entries r; closed := closed r; filter_block := fb;
     pending_index_entry := pending_index_entry r; pending_handle := pending_handle r |}.
Definition with_pending r (b : bool) (h : BlockHandle) : Rep :=
  {| file := file r; offset := offset r; status := status r; data_block := data_block r; index_block := index_block r;
     rep_last_key := rep_last_key r; num_entries := num_entries r; closed := closed r; filter_block := filter_block r;
     pending_index_entry := b; pending_handle := h |}.
Definition with_entry r (last : bytes) (n : Z) : Rep :=
  {| file := file r; offset := offset r; status := status r; data_block := data_block r; index_block := index_block r;
     rep_last_key := last; num_entries := n; closed := closed r; filter_block := filter_block r;
     pending_index_entry := pending_index_entry r; pending_handle := pending_handle r |}.
Definition with_closed r : Rep :=
  {| file := file r; offset := offset r; status := status r; data_block := data_block r; index_block := index_block r;
     rep_last_key := rep_last_key r; num_entries := num_entries r; closed := true; filter_block := filter_block r;
     pending_index_entry := pending_index_entry r; pending_handle := pending_handle r |}.

(** the index block's options have an interval of one *)
Definition with_interval (b : BlockBuilder) (interval : Z) : BlockBuilder :=
  {| block_restart_interval := interval; buffer_ := buffer_ b; restarts_ := restarts_ b; counter_ := counter_ b;
     finished_ := finished_ b; last_key_ := last_key_ b |}.

Definition make_TableBuilder (f : F) : outcome Rep :=
  data ← make_BlockBuilder (options_restart_interval options);
  index ← make_BlockBuilder (options_restart_interval options);
  let r := {| file := f; offset := 0; status := true; data_block := data; index_block := with_interval index 1;
              rep_last_key := []; num_entries := 0; closed := false;
              filter_block := make_FilterBlockBuilder <$> filter_policy options;
              pending_index_entry := false; pending_handle := make_BlockHandle |} in
  match filter_block r with
  | Some fb => fb ← StartBlock fb 0; Done (with_filter r (Some fb))
  | None => Done r
  end.

Definition WriteRawBlock r (block_contents : bytes) (type : CompressionType) : outcome (Rep * BlockHandle) :=
  let handle := {| handle_offset := offset r; handle_size := blen block_contents |} in
  let (f, s) := file_Append (file r) block_contents in
  if (s : bool) then
    crc ← Value block_contents;
    crc ← Extend crc [z2b (compression_code type)];
    let trailer := z2b (compression_code type) :: EncodeFixed32 (Mask crc) in
    let (f, s) := file_Append f trailer in
    let o := if (s : bool) then u64 (offset r + u64 (blen block_contents + kBlockTrailerSize)) else offset r in
    Done (with_file r f o s, handle)
  else Done (with_file r f (offset r) s, handle).

(** what is stored for a block: compressed when that saves an eighth *)
Definition compressed_block (raw : bytes) : bytes * CompressionType :=
  match compression options with
  | kNoCompression => (raw, kNoCompression)
  | kSnappyCompression =>
      match Snappy_Compress raw with
      | Some compressed =>
          if blen compressed <? blen raw - blen raw / 8 then (compressed, kSnappyCompression) else (raw, kNoCompression)
      | None => (raw, kNoCompression)
      end
  end.

Definition WriteBlock r (block : BlockBuilder) : outcome (Rep * BlockHandle * BlockBuilder) :=
  _ ← c_assert (ok r);
  let (block, raw) := Block.Finish block in
  let (block_contents, type) := compressed_block raw in
  '(r, handle) ← WriteRawBlock r block_contents type;
  Done (r, handle, Reset block).

Definition Flush r : outcome Rep :=
  _ ← c_assert (negb (closed r));
  if negb (ok r) then Done r else
  if builder_empty (data_block r) then Done r else
  _ ← c_assert (negb (pending_index_entry r));
  '(r, handle, block) ← WriteBlock r (data_block r);
  let r := with_pending (with_data r block) (pending_index_entry r) handle in
  let r :=
    if ok r then
      let r := with_pending r true (pending_handle r) in
      let (f, s) := file_Flush (file r) in with_file r f (offset r) s
    else r in
  match filter_block r with
  | Some fb => fb ← StartBlock fb (offset r); Done (with_filter r (Some fb))
  | None => Done r
  end.

(** the entry of the index block for the block that was written last *)
Definition add_index_entry r (key : bytes) : outcome Rep :=
  handle_encoding ← EncodeTo (pending_handle r) [];
  index ← Block.Add (comparator_Compare (comparator options)) (index_block r) key handle_encoding;
  Done (with_index r index key).

Definition Add r (key value : bytes) : outcome Rep :=
  _ ← c_assert (negb (closed r));
  if negb (ok r) then Done r else
  _ ← (if 0 <? num_entries r
       then c ← comparator_Compare (comparator options) key (rep_last_key r); c_assert (0 <? c) else Done tt);
  r ← (if pending_index_entry r then
         _ ← c_assert (builder_empty (data_block r));
         last ← comparator_FindShortestSeparator (comparator options) (rep_last_key r) key;
         add_index_entry r last
       else Done r);
  let r := with_filter r ((fun fb => AddKey fb key) <$> filter_block r) in
  let r := with_entry r key (num_entries r + 1) in
  data ← Block.Add (comparator_Compare (comparator options)) (data_block r) key value;
  let r := with_data r data in
  if block_size options <=? CurrentSizeEstimate (data_block r) then Flush r else Done r.

(** *** [Finish], one part of the file after the other *)

Definition filter_name (policy : P) : bytes := text "filter." ++ policy_Name policy.

Definition write_filter r : outcome (Rep * BlockHandle) :=
  match filter_block r with
  | Some fb =>
      if ok r then
        '(fb, contents) ← FilterBlock.Finish fb;
        WriteRawBlock (with_filter r (Some fb)) contents kNoCompression
      else Done (r, make_BlockHandle)
  | None => Done (r, make_BlockHandle)
  end.

Definition write_metaindex r (filter_block_handle : BlockHandle) : outcome (Rep * BlockHandle) :=
  if ok r then
    meta ← make_BlockBuilder (options_restart_interval options);
    meta ← match filter_block r, filter_policy options with
           | Some _, Some policy =>
               handle_encoding ← EncodeTo filter_block_handle [];
               Block.Add (comparator_Compare (comparator options)) meta (filter_name policy) handle_encoding
           | _, _ => Done meta
           end;
    '(r, handle, _) ← WriteBlock r meta;
    Done (r, handle)
  else Done (r, make_BlockHandle).

Definition write_index r : outcome (Rep * BlockHandle) :=
  if ok r then
    r ← (if pending_index_entry r then
           last ← comparator_FindShortSuccessor (comparator options) (rep_last_key r);
           add_index_entry r last
         else Done r);
    '(r, handle, block) ← WriteBlock r (index_block r);
    Done (with_index r block (rep_last_key r), handle)
  else Done (r, make_BlockHandle).

Definition write_footer r (metaindex index : BlockHandle) : outcome Rep :=
  if ok r then
    footer_encoding ← footer_EncodeTo {| metaindex_handle := metaindex; index_handle := index |} [];
    let (f, s) := file_Append (file r) footer_encoding in
    Done (with_file r f (if (s : bool) then u64 (offset r + blen footer_encoding) else offset r) s)
  else Done r.

Definition Finish r : outcome (Rep * bool) :=
  r ← Flush r;
  _ ← c_assert (negb (closed r));
  let r := with_closed r in
  '(r, filter_block_handle) ← write_filter r;
  '(r, metaindex_block_handle) ← write_metaindex r filter_block_handle;
  '(r, index_block_handle) ← write_index r;
  r ← write_footer r metaindex_block_handle index_block_handle;
  Done (r, status r).

Definition Abandon r : outcome Rep := _ ← c_assert (negb (closed r)); Done (with_closed r).
Definition NumEntries r : Z := num_entries r.
Definition FileSize r : Z := offset r.
End TableBuilder.
