(* ===== verification/Table.v ===== *)
(** * Table: table/table.cc, and the empty iterator of table/iterator.cc

    An open table: its index block is in memory; a look-up finds in it the one
    data block that can hold the key, asks the filter, and reads the block
    through the block cache.  The cache is the interface of leveldb/cache.h. *)

From Stdlib.Strings Require Import Byte.
From S2P Require Import Prelude Status Coding DbFormat WriteBatch Crc32c Log LogSpec Bloom FilterBlock Block Format TableBuilder.

(** ** Iterators over a block or over nothing *)

Definition bi_Valid (i : BlockIterator) : bool := match i with BlockIter it => Valid it | EmptyIter _ => false end.
Definition bi_Seek (compare_ : bytes -> bytes -> outcome Z) (i : BlockIterator) (target : bytes) : outcome BlockIterator :=
  match i with BlockIter it => it ← Seek compare_ it target; Done (BlockIter it) | EmptyIter _ => Done i end.
Definition bi_key (i : BlockIterator) : outcome bytes := match i with BlockIter it => iter_key it | EmptyIter _ => Asserted end.
Definition bi_value (i : BlockIterator) : outcome bytes :=
  match i with BlockIter it => iter_value it | EmptyIter _ => Asserted end.
Definition bi_status (i : BlockIterator) : Status := match i with BlockIter it => it_status it | EmptyIter s => s end.

(** ** leveldb/cache.h *)

(** [Lookup] may change the order of the entries *)
Class Cache (C V : Type) := {
  cache_Lookup : C -> bytes -> C * option V;
  cache_Insert : C -> bytes -> V -> C;
  cache_Erase : C -> bytes -> C }.

(** what a cache promises: it finds nothing but what was inserted under the key *)
Class CacheOk (C V : Type) `{Cache C V} := {
  cached : C -> bytes -> V -> Prop;
  cache_Lookup_ok c k : (forall k' v, cached (cache_Lookup c k).1 k' v -> cached c k' v) /\
    (forall v, (cache_Lookup c k).2 = Some v -> cached c k v);
  cache_Insert_ok c k v : forall k' v', cached (cache_Insert c k v) k' v' -> (k' = k /\ v' = v) \/ cached c k' v';
  cache_Erase_ok c k : forall k' v', cached (cache_Erase c k) k' v' -> k' <> k /\ cached c k' v' }.

Record ReadOptions := { verify_checksums : bool; fill_cache : bool }.

Section Table.
Context {R P C : Type} `{RandomAccessFile R} `{FilterPolicy P} `{Cache C Block} `{Machine} `{Snappy}.

(** [Table::Rep] *)
Record Table := {
  table_options : Options P; table_file : R; cache_id : Z; table_filter : option (FilterBlockReader P);
  table_metaindex_handle : BlockHandle; table_index_block : Block }.

(** the filter block, when the handle and the block can be read *)
Definition ReadFilter (options : Options P) (policy : P) (file : R) (filter_handle_value : bytes)
    : outcome (option (FilterBlockReader P)) :=
  match DecodeFrom filter_handle_value with
  | None => Done None
  | Some (filter_handle, _) =>
      b ← ReadBlock file (paranoid_checks options) filter_handle;
      match b with
      | inr _ => Done None
      | inl block => r ← make_FilterBlockReader policy (contents_data block); Done (Some r)
      end
  end.

(** the order in the block of names is that of [BytewiseComparator] *)
Definition ReadMeta (options : Options P) (file : R) (footer : Footer) : outcome (option (FilterBlockReader P)) :=
  match filter_policy options with
  | None => Done None
  | Some policy =>
      b ← ReadBlock file (paranoid_checks options) (metaindex_handle footer);
      match b with
      | inr _ => Done None
      | inl contents =>
          meta ← make_Block (contents_data contents);
          iter ← NewIterator meta;
          let key := filter_name policy in
          iter ← bi_Seek bytewise iter key;
          if bi_Valid iter then
            k ← bi_key iter;
            if decide (k = key) then v ← bi_value iter; ReadFilter options policy file v else Done None
          else Done None
      end
  end.

(** [id] is what [NewId] gives, or 0 without a cache *)
Definition Open (options : Options P) (file : R) (size : Z) (id : Z) : outcome (Table + Status) :=
  if size <? kEncodedLength then Done (inr (Corruption (text "file is too short to be an sstable"))) else
  let '(s, footer_input, _) := random_Read file (size - kEncodedLength) kEncodedLength in
  match s with
  | OK =>
      f ← footer_DecodeFrom footer_input;
      match f with
      | inr s => Done (inr s)
      | inl footer =>
          b ← ReadBlock file (paranoid_checks options) (index_handle footer);
          match b with
          | inr s => Done (inr s)
          | inl index_block_contents =>
              index ← make_Block (contents_data index_block_contents);
              filter ← ReadMeta options file footer;
              Done (inl {| table_options := options; table_file := file; cache_id := id; table_filter := filter;
                           table_metaindex_handle := metaindex_handle footer; table_index_block := index |})
          end
      end
  | _ => Done (inr s)
  end.

Definition cache_key (id offset : Z) : bytes := EncodeFixed64 id ++ EncodeFixed64 offset.

(** the block of a handle, from the cache when there is one *)
Definition read_cached (t : Table) (cache : option C) (options : ReadOptions) (handle : BlockHandle)
    : outcome ((Block + Status) * option C) :=
  match cache with
  | None =>
      b ← ReadBlock (table_file t) (verify_checksums options) handle;
      match b with
      | inl contents => block ← make_Block (contents_data contents); Done (inl block, None)
      | inr s => Done (inr s, None)
      end
  | Some c =>
      let key := cache_key (cache_id t) (handle_offset handle) in
      let (c, hit) := cache_Lookup c key in
      match hit with
      | Some block => Done (inl block, Some c)
      | None =>
          b ← ReadBlock (table_file t) (verify_checksums options) handle;
          match b with
          | inl contents =>
              block ← make_Block (contents_data contents);
              Done (inl block, Some (if cachable contents && fill_cache options then cache_Insert c key block else c))
          | inr s => Done (inr s, Some c)
          end
      end
  end.

(** an iterator over the block an index entry names *)
Definition BlockReader (t : Table) (cache : option C) (options : ReadOptions) (index_value : bytes)
    : outcome (BlockIterator * option C) :=
  match DecodeFrom index_value with
  | None => Done (EmptyIter (Corruption (text "bad block handle")), cache)
  | Some (handle, _) =>
      '(b, cache) ← read_cached t cache options handle;
      match b with
      | inl block => i ← NewIterator block; Done (i, cache)
      | inr s => Done (EmptyIter s, cache)
      end
  end.

(** whether the filter rules the key out *)
Definition filtered_out (t : Table) (handle_value k : bytes) : outcome bool :=
  match table_filter t with
  | None => Done false
  | Some filter =>
      match DecodeFrom handle_value with
      | None => Done false
      | Some (handle, _) => m ← KeyMayMatch filter (handle_offset handle) k; Done (negb m)
      end
  end.

(** the entry [handle_result] is called with, if it is, and the status *)
Definition InternalGet (t : Table) (cache : option C) (options : ReadOptions) (k : bytes)
    : outcome (option (bytes * bytes) * Status * option C) :=
  let compare_ := comparator_Compare (comparator (table_options t)) in
  iiter ← NewIterator (table_index_block t);
  iiter ← bi_Seek compare_ iiter k;
  '(result, s, cache) ←
    (if bi_Valid iiter then
       handle_value ← bi_value iiter;
       out ← filtered_out t handle_value k;
       if (out : bool) then Done (None, OK, cache) else
       '(block_iter, cache) ← BlockReader t cache options handle_value;
       block_iter ← bi_Seek compare_ block_iter k;
       result ← (if bi_Valid block_iter
                 then key ← bi_key block_iter; v ← bi_value block_iter; Done (Some (key, v)) else Done None);
       Done (result, bi_status block_iter, cache)
     else Done (None, OK, cache));
  Done (result, if decide (s = OK) then bi_status iiter else s, cache).

Definition ApproximateOffsetOf (t : Table) (key : bytes) : outcome Z :=
  index_iter ← NewIterator (table_index_block t);
  index_iter ← bi_Seek (comparator_Compare (comparator (table_options t))) index_iter key;
  if bi_Valid index_iter then
    input ← bi_value index_iter;
    match DecodeFrom input with
    | Some (handle, _) => Done (handle_offset handle)
    | None => Done (handle_offset (table_metaindex_handle t))
    end
  else Done (handle_offset (table_metaindex_handle t)).
End Table.
