(* ===== verification/TableSpec.v ===== *)
(** * TableSpec: a table is the sorted list of entries it was built of

    A table over internal keys: what [TableBuilder] writes for a list of
    increasing entries, [Table] opens, and a look-up in it finds the first entry
    at or after the key, if that has the key's user key; the filter and the
    separators of the index block never hide it. *)

From Stdlib.Strings Require Import Byte.
From S2P Require Import Prelude Status Coding DbFormat WriteBatch SkipListSpec Crc32c Log LogSpec Bloom FilterBlock Block BlockSpec Format TableBuilder Table.

(** ** Separators of internal keys *)

(** the earliest number goes with a shortened key *)
Definition maxtag : Z := tag_of kMaxSequenceNumber kTypeValue.

Lemma maxtag_range : 0 <= maxtag < 2 ^ 64.
Proof. done. Qed.

Lemma icompare_refl u t : icompare u t u t = 0.
Proof. by apply icompare_eq. Qed.

Lemma icompare_user u1 t1 u2 t2 : lex u1 u2 < 0 -> icompare u1 t1 u2 t2 < 0.
Proof. intros Hl. unfold icompare. rewrite (proj2 (Z.eqb_neq _ _)) by lia. lia. Qed.

Lemma icompare_lex u1 t1 u2 t2 : icompare u1 t1 u2 t2 < 0 -> lex u1 u2 <= 0.
Proof. unfold icompare. destruct (Z.eqb_spec (lex u1 u2) 0); lia. Qed.

Lemma lex_le_trans a b c : lex a b <= 0 -> lex b c <= 0 -> lex a c <= 0.
Proof.
  intros H1 H2. destruct (Z.eq_dec (lex a b) 0) as [E|E]; [by apply lex_eq in E as ->|].
  destruct (Z.eq_dec (lex b c) 0) as [E'|E']; [apply lex_eq in E' as ->; lia|].
  pose proof (lex_trans a b c). lia.
Qed.

Lemma lex_lt_le a b c : lex a b < 0 -> lex b c <= 0 -> lex a c < 0.
Proof.
  intros H1 H2. destruct (Z.eq_dec (lex b c) 0) as [E|E]; [by apply lex_eq in E as <-|].
  apply (lex_trans a b c); lia.
Qed.

(** a user key that became shorter gets the earliest number *)
Lemma shortened_spec u t tmp before :
  0 <= t < 2 ^ 64 -> lex u tmp <= 0 -> (lex u tmp < 0 -> before (ikey tmp maxtag) = Done tt) ->
  exists s ts, Internal.shortened (ikey u t) u tmp before = Done (ikey s ts) /\ 0 <= ts < 2 ^ 64 /\
    icompare u t s ts <= 0 /\ blen s <= blen u /\ ((s = u /\ ts = t) \/ (s = tmp /\ ts = maxtag /\ lex u tmp < 0)).
Proof.
  intros Ht Hle Hb. unfold Internal.shortened, Compare. rewrite slice_compare_lex.
  destruct ((blen tmp <? blen u) && (lex u tmp <? 0)) eqn:E.
  - apply andb_true_iff in E as [E1 E2]. apply Z.ltb_lt in E1, E2.
    change (type_code kValueTypeForSeek) with (type_code kTypeValue). rewrite PackSequenceAndType_spec by done.
    cbn [mbind outcome_bind]. change (PutFixed64 tmp (tag_of kMaxSequenceNumber kTypeValue)) with (ikey tmp maxtag).
    pose proof (icompare_user u t tmp maxtag E2) as Hc. rewrite Internal_Compare_spec by done. cbn [mbind outcome_bind].
    rewrite (proj2 (Z.ltb_lt _ _)) by done. cbn [c_assert mbind outcome_bind]. rewrite (Hb E2). cbn [mbind outcome_bind].
    exists tmp, maxtag. split; [done|]. split; [done|]. split; [lia|]. split; [lia|]. by right.
  - exists u, t. split; [done|]. split; [done|]. rewrite icompare_refl. split; [lia|]. split; [lia|]. by left.
Qed.

(** the separator of two keys: it is the first, or its user key is less than that
    of the second *)
Lemma separator_spec u1 t1 u2 t2 :
  0 <= t1 < 2 ^ 64 -> 0 <= t2 < 2 ^ 64 -> icompare u1 t1 u2 t2 < 0 ->
  exists s ts, Internal.FindShortestSeparator (ikey u1 t1) (ikey u2 t2) = Done (ikey s ts) /\ 0 <= ts < 2 ^ 64 /\
    icompare u1 t1 s ts <= 0 /\ icompare s ts u2 t2 < 0 /\ blen s <= blen u1 /\
    ((s = u1 /\ ts = t1) \/ lex s u2 < 0).
Proof.
  intros H1 H2 Hc. unfold Internal.FindShortestSeparator. rewrite !ExtractUserKey_ikey. cbn [mbind outcome_bind].
  assert (Htmp : exists tmp, FindShortestSeparator u1 u2 = Done tmp /\ lex u1 tmp <= 0 /\ (lex u1 tmp < 0 -> lex tmp u2 < 0)).
  { destruct (Z.eq_dec (lex u1 u2) 0) as [E|E].
    - apply lex_eq in E as ->. exists u2. split; [|rewrite lex_refl; lia]. unfold FindShortestSeparator.
      assert (Hd : diff_index u2 u2 = length u2) by (clear; induction u2; simpl; [done|rewrite bool_decide_eq_true_2 by done; lia]).
      rewrite Hd, Nat.min_id, Nat.leb_refl. done.
    - destruct (FindShortestSeparator_spec u1 u2) as (tmp & Et & Hle & Hlt & _).
      { apply icompare_lex in Hc. lia. }
      by exists tmp. }
  destruct Htmp as (tmp & Et & Hle & Hlt). rewrite Et. cbn [mbind outcome_bind].
  destruct (shortened_spec u1 t1 tmp (fun tmp => r ← Internal.Compare tmp (ikey u2 t2); c_assert (r <? 0)) H1 Hle)
    as (s & ts & E & Hts & Hc1 & Hl & Hcase).
  { intros Hlt1. rewrite Internal_Compare_spec by done. cbn [mbind outcome_bind].
    pose proof (icompare_user tmp maxtag u2 t2 (Hlt Hlt1)). by rewrite (proj2 (Z.ltb_lt _ _)) by lia. }
  exists s, ts. split; [done|]. split; [done|]. split; [done|].
  destruct Hcase as [[-> ->]|(-> & -> & Hlt1)].
  - split; [done|]. split; [done|]. by left.
  - split; [by apply icompare_user, Hlt|]. split; [done|]. right. by apply Hlt.
Qed.

Lemma successor_spec u t :
  0 <= t < 2 ^ 64 -> exists s ts, Internal.FindShortSuccessor (ikey u t) = Done (ikey s ts) /\ 0 <= ts < 2 ^ 64 /\
    icompare u t s ts <= 0 /\ blen s <= blen u.
Proof.
  intros Ht. unfold Internal.FindShortSuccessor. rewrite ExtractUserKey_ikey. cbn [mbind outcome_bind].
  destruct (FindShortSuccessor_spec u) as [Hle _].
  destruct (shortened_spec u t (FindShortSuccessor u) (fun _ => Done tt) Ht Hle) as (s & ts & E & Hts & Hc & Hl & _); [done|].
  by exists s, ts.
Qed.

(** ** Entries, their order and their weight *)

Implicit Types (x y z : item) (l cur idx : list item).

Definition weight l : Z := fold_right (fun x acc => blen (i_key x) + blen (i_value x) + 32 + acc) 0 l.

Lemma weight_app l1 l2 : weight (l1 ++ l2) = weight l1 + weight l2.
Proof. induction l1 as [|x l1 IH]; [done|]. simpl. rewrite IH. lia. Qed.
Lemma weight_ge l : 32 * Z.of_nat (length l) <= weight l.
Proof.
  induction l as [|x l IH]; [done|]. simpl length. simpl weight. pose proof (blen_nonneg (i_key x)).
  pose proof (blen_nonneg (i_value x)). lia.
Qed.
Lemma weight_nonneg l : 0 <= weight l.
Proof. pose proof (weight_ge l). lia. Qed.
Lemma weight_in l x : x ∈ l -> blen (i_key x) + blen (i_value x) + 32 <= weight l.
Proof.
  intros Hx. apply list_elem_of_split in Hx as (l1 & l2 & ->). rewrite weight_app. simpl.
  pose proof (weight_nonneg l1). pose proof (weight_nonneg l2). lia.
Qed.

(** all the keys are internal keys, in increasing order *)
Definition sorted_items l : Prop :=
  Forall (fun x => ikey_ok (i_key x)) l /\
  forall i j x y, (i < j)%nat -> l !! i = Some x -> l !! j = Some y -> ikey_cmp (i_key x) (i_key y) < 0.

Lemma sorted_items_app l1 l2 :
  sorted_items (l1 ++ l2) -> sorted_items l1 /\ sorted_items l2 /\
  forall x y, x ∈ l1 -> y ∈ l2 -> ikey_cmp (i_key x) (i_key y) < 0.
Proof.
  intros [Hk Hs]. apply list.Forall_app in Hk as [H1 H2]. split; [|split].
  - split; [done|]. intros i j x y Hij Hx Hy. apply (Hs i j); [done|by apply lookup_app_l_Some..].
  - split; [done|]. intros i j x y Hij Hx Hy. apply (Hs (length l1 + i)%nat (length l1 + j)%nat); [lia|..];
      rewrite lookup_app_r by lia; rewrite Nat.add_comm, Nat.add_sub; done.
  - intros x y Hx Hy. apply list_elem_of_lookup in Hx as [i Hx], Hy as [j Hy].
    apply (Hs i (length l1 + j)%nat); [apply lookup_lt_Some in Hx; lia|by apply lookup_app_l_Some|].
    rewrite lookup_app_r by lia. by replace (length l1 + j - length l1)%nat with j by lia.
Qed.

Lemma ikey_cmp_trans a b c :
  ikey_ok a -> ikey_ok b -> ikey_ok c -> ikey_cmp a b < 0 -> ikey_cmp b c < 0 -> ikey_cmp a c < 0.
Proof. apply (cmp_trans (KeyOrder := internal_order)). Qed.
Lemma ikey_cmp_exact a b : ikey_ok a -> ikey_ok b -> ikey_cmp a b = 0 -> a = b.
Proof. apply (cmp_exact (ExactOrder := internal_exact)). Qed.
Lemma ikey_cmp_le_lt a b c :
  ikey_ok a -> ikey_ok b -> ikey_ok c -> ikey_cmp a b <= 0 -> ikey_cmp b c < 0 -> ikey_cmp a c < 0.
Proof.
  intros Ha Hb Hc H1 H2. destruct (Z.eq_dec (ikey_cmp a b) 0) as [E|E]; [by apply ikey_cmp_exact in E as ->|].
  by apply (ikey_cmp_trans a b c); [..|lia|].
Qed.
Lemma ikey_cmp_lt_le a b c :
  ikey_ok a -> ikey_ok b -> ikey_ok c -> ikey_cmp a b < 0 -> ikey_cmp b c <= 0 -> ikey_cmp a c < 0.
Proof.
  intros Ha Hb Hc H1 H2. destruct (Z.eq_dec (ikey_cmp b c) 0) as [E|E]; [by apply ikey_cmp_exact in E as <-|].
  by apply (ikey_cmp_trans a b c); [..|lia].
Qed.
Lemma ikey_cmp_antisym a b : ikey_ok a -> ikey_ok b -> ikey_cmp b a = - ikey_cmp a b.
Proof. apply (cmp_antisym (KeyOrder := internal_order)). Qed.

Lemma sorted_le_last l x y : sorted_items l -> x ∈ l -> list.last l = Some y -> ikey_cmp (i_key x) (i_key y) <= 0.
Proof.
  intros [Hk Hs] Hx Hy. apply list_elem_of_lookup in Hx as [i Hx]. rewrite last_lookup in Hy.
  pose proof (lookup_lt_Some _ _ _ Hx). destruct (decide (i = Nat.pred (length l))) as [->|Hn].
  - assert (x = y) as <- by congruence. rewrite list.Forall_lookup in Hk. destruct (Hk _ _ Hy) as (u & t & -> & Ht).
    rewrite ikey_cmp_spec, icompare_refl by done. lia.
  - pose proof (Hs i (Nat.pred (length l)) x y ltac:(lia) Hx Hy). lia.
Qed.

(** ** What is in the file *)

(** a data block that was written *)
Record stored := { st_handle : BlockHandle; st_items : list item; st_restarts : list Z }.
Implicit Types (st : stored) (done : list stored).

Definition st_raw st : bytes := block_bytes (st_items st) (st_restarts st).
Definition items_of done : list item := concat (map st_items done).
Definition all_items done cur : list item := items_of done ++ cur.

Lemma items_of_snoc done st : items_of (done ++ [st]) = items_of done ++ st_items st.
Proof. unfold items_of. rewrite map_app, concat_app. simpl. by rewrite app_nil_r. Qed.

(** the entries after block [j] *)
Definition following done cur (j : nat) : list item := all_items (drop (S j) done) cur.

(** key [s] separates the entries up to [x] from those from [y] on; no key with the
    user key of [y] comes between [x] and [s] *)
Definition separates (x : bytes) (s : bytes) (y : option bytes) : Prop :=
  ikey_ok s /\ ikey_cmp x s <= 0 /\
  match y with
  | None => True
  | Some y => ikey_cmp s y < 0 /\ (s = x \/ exists us ts uy ty, s = ikey us ts /\ y = ikey uy ty /\ lex us uy < 0)
  end.

(** the index entry of block [j] *)
Definition index_entry done cur (j : nat) (e : item) : Prop :=
  exists st x, done !! j = Some st /\ list.last (st_items st) = Some x /\ i_value e = handle_bytes (st_handle st) /\
    separates (i_key x) (i_key e) (i_key <$> head (following done cur j)).

Section Build.
Context {F P : Type} `{WritableFileOk F} `{FilterPolicyOk P} `{MachineOk} `{SnappyOk}.
Context (options : Options (InternalFilterPolicy P)).
Context (Hcomparator : comparator options = InternalKeyComparator) (Hinterval : 1 <= options_restart_interval options).
Implicit Types r : Rep (F := F) (P := InternalFilterPolicy P).

(** a block in the file, before [limit] *)
Definition stored_ok (content : bytes) (limit : Z) st : Prop :=
  items_ok (st_items st) (st_restarts st) /\ st_items st <> [] /\ blen (st_raw st) < 2 ^ 32 /\
  holds_block content (st_handle st) (st_raw st) /\ handle_ok (st_handle st) /\ handle_offset (st_handle st) < limit.

(** the filter lets the keys of each block through *)
Definition filter_ok (fb : option (FilterBlockBuilder (InternalFilterPolicy P))) (o : Z) done cur : Prop :=
  match fb, filter_policy options with
  | None, None => True
  | Some fb, Some p => exists gs, filter_inv p fb gs /\ Z.of_nat (length gs) = o / kFilterBase + 1 /\
      length (concat gs) = length (all_items done cur) /\
      Forall (fun st => Forall (fun x => exists g, gs !! Z.to_nat (handle_offset (st_handle st) / kFilterBase) = Some g /\ i_key x ∈ g) (st_items st)) done /\
      Forall (fun x => exists g, gs !! Z.to_nat (o / kFilterBase) = Some g /\ i_key x ∈ g) cur
  | _, _ => False
  end.

Record table_inv r done cur idx : Prop := {
  ti_status : status r = true;
  ti_open : closed r = false;
  ti_offset : offset r = blen (written (file r));
  ti_size : blen (written (file r)) <= weight (items_of done);
  ti_data : built (data_block r) cur;
  ti_data_size : CurrentSizeEstimate (data_block r) <= 8 + weight cur - 13 * Z.of_nat (length cur);
  ti_index : built (index_block r) idx;
  ti_index_size : CurrentSizeEstimate (index_block r) <= 8 + 2 * weight (items_of (take (length idx) done));
  ti_stored : Forall (stored_ok (written (file r)) (offset r)) done;
  ti_distinct : forall st1 st2, st1 ∈ done -> st2 ∈ done -> handle_offset (st_handle st1) = handle_offset (st_handle st2) -> st1 = st2;
  ti_entries : forall j e, idx !! j = Some e -> index_entry done cur j e /\ following done cur j <> [];
  ti_pending : if pending_index_entry r
               then cur = [] /\ exists done' st, done = done' ++ [st] /\ pending_handle r = st_handle st /\ length idx = length done'
               else length idx = length done /\ (done = [] \/ cur <> []);
  ti_last : rep_last_key r = last_key (all_items done cur);
  ti_count : num_entries r = Z.of_nat (length (all_items done cur));
  ti_filter : filter_ok (filter_block r) (offset r) done cur }.

(** the fields of a builder after a few updates *)
Ltac rep_simpl :=
  unfold with_pending, with_data, with_file, with_filter, with_index, with_entry, with_closed in *;
  cbv zeta;
  cbn [file offset status data_block index_block rep_last_key num_entries closed filter_block pending_index_entry
       pending_handle] in *.

(** *** Writing a block *)

Lemma compressed_block_spec raw :
  let (data, t) := compressed_block options raw in stored_as t data raw /\ blen data <= blen raw.
Proof.
  unfold compressed_block. destruct (compression options); [by split|]. unfold Snappy_Compress.
  destruct snappy_lib as [lib|] eqn:El; [|by split]. destruct (Z.ltb_spec (blen (RawCompress lib raw)) (blen raw - blen raw / 8)) as [Hlt|]; [|by split].
  destruct (snappy_roundtrip lib raw El) as [H1' H2']. cbn [stored_as]. unfold Snappy_GetUncompressedLength, Snappy_Uncompress.
  rewrite El. split; [by split|]. pose proof (blen_nonneg raw). pose proof (Z.div_pos (blen raw) 8 ltac:(lia) ltac:(lia)). lia.
Qed.

Lemma WriteRawBlock_spec r contents t raw :
  offset r = blen (written (file r)) -> stored_as t contents raw -> blen (written (file r)) + blen contents + 5 < 2 ^ 63 ->
  exists f h, WriteRawBlock r contents t = Done (with_file r f (blen (written f)) true, h) /\
    holds_block (written f) h raw /\ handle_ok h /\ handle_offset h = offset r /\
    blen (written f) = blen (written (file r)) + blen contents + 5 /\ exists more, written f = written (file r) ++ more.
Proof.
  intros Ho Hst Hsz. unfold WriteRawBlock. pose proof (file_Append_ok (file r) contents) as [Es Ew].
  destruct (file_Append (file r) contents) as [f1 s1]. cbn [fst snd] in *. subst s1.
  unfold Value. rewrite Extend_spec by done. cbn [mbind outcome_bind].
  rewrite Extend_spec by (by apply crc32c_range). cbn [mbind outcome_bind]. rewrite <- crc32c_app.
  fold (block_trailer t contents). pose proof (file_Append_ok f1 (block_trailer t contents)) as [Es2 Ew2].
  change (z2b (compression_code t) :: EncodeFixed32 (Mask (crc32c 0 (contents ++ [z2b (compression_code t)])))) with (block_trailer t contents).
  destruct (file_Append f1 (block_trailer t contents)) as [f2 s2]. cbn [fst snd] in *. subst s2.
  assert (Htr : blen (block_trailer t contents) = 5) by done.
  pose proof (blen_nonneg contents). pose proof (blen_nonneg (written (file r))).
  assert (Hl : blen (written f2) = blen (written (file r)) + blen contents + 5) by (rewrite Ew2, Ew, !blen_app, Htr; lia).
  exists f2, {| handle_offset := offset r; handle_size := blen contents |}. split.
  { do 3 f_equal. rewrite (u64_small (blen contents + _)) by (unfold kBlockTrailerSize; lia).
    rewrite u64_small by (unfold kBlockTrailerSize; lia). unfold kBlockTrailerSize. lia. }
  split. { exists t, (written (file r)), contents, []. rewrite app_nil_r, Ew2, Ew, <- app_assoc. done. }
  split. { unfold handle_ok, unset. cbn [handle_offset handle_size]. lia. }
  split; [done|]. split; [done|]. exists (contents ++ block_trailer t contents). by rewrite Ew2, Ew, <- app_assoc.
Qed.

Lemma WriteBlock_spec r b its :
  status r = true -> offset r = blen (written (file r)) -> built b its ->
  blen (written (file r)) + CurrentSizeEstimate b + 5 < 2 ^ 32 ->
  exists f h, WriteBlock options r b = Done (with_file r f (blen (written f)) true, h, Reset (Block.Finish b).1) /\
    holds_block (written f) h (block_bytes its (restarts_ b)) /\ handle_ok h /\ handle_offset h = offset r /\
    blen (written (file r)) + 5 <= blen (written f) <= blen (written (file r)) + CurrentSizeEstimate b + 5 /\
    exists more, written f = written (file r) ++ more.
Proof.
  intros Hs Ho Hb Hsz. unfold WriteBlock, ok. rewrite Hs. cbn [c_assert mbind outcome_bind].
  pose proof (built_size b its Hb) as Hbs. pose proof (blen_block its (restarts_ b)).
  pose proof (blen_nonneg (body its)). pose proof (blen_nonneg (written (file r))).
  pose proof (Finish_built b its Hb ltac:(lia)) as Efin. destruct (Block.Finish b) as [b' raw]. cbn [fst snd] in *. subst raw.
  pose proof (compressed_block_spec (block_bytes its (restarts_ b))) as Hcb.
  destruct (compressed_block options (block_bytes its (restarts_ b))) as [data t]. destruct Hcb as [Hst Hdl].
  destruct (WriteRawBlock_spec r data t _ Ho Hst ltac:(lia)) as (f & h & E & Hh & Hhok & Hho & Hl & Hm).
  rewrite E. cbn [mbind outcome_bind]. exists f, h. pose proof (blen_nonneg data).
  split; [done|]. split; [done|]. split; [done|]. split; [done|]. split; [lia|done].
Qed.

(** *** [Flush] *)

Lemma following_snoc done st j : (j < length done)%nat -> following (done ++ [st]) [] j = following done (st_items st) j.
Proof.
  intros Hj. unfold following, all_items. rewrite app_nil_r, drop_app_le by lia. by rewrite items_of_snoc.
Qed.

Lemma stored_ok_mono content more limit limit' st :
  stored_ok content limit st -> limit <= limit' -> stored_ok (content ++ more) limit' st.
Proof.
  intros (H1' & H2' & H3' & H4' & H5' & H6') Hl. split; [done|]. split; [done|]. split; [done|].
  split; [by apply holds_block_app|]. split; [done|lia].
Qed.

Lemma index_entry_snoc done st j e :
  (j < length done)%nat -> index_entry done (st_items st) j e -> index_entry (done ++ [st]) [] j e.
Proof.
  intros Hj (st' & x & Hd & Hx & Hv & Hs). exists st', x. split; [by apply lookup_app_l_Some|]. split; [done|]. split; [done|].
  by rewrite following_snoc.
Qed.

Lemma table_room r done cur idx :
  table_inv r done cur idx -> cur <> [] ->
  blen (written (file r)) + CurrentSizeEstimate (data_block r) + 5 <= weight (items_of done) + weight cur.
Proof.
  intros Hi Hne. pose proof (ti_size _ _ _ _ Hi). pose proof (ti_data_size _ _ _ _ Hi).
  assert (1 <= Z.of_nat (length cur)) by (destruct cur; [done|simpl; lia]). lia.
Qed.

(** the filter gets the next block's filters *)
Lemma filter_ok_flush fb o o' done cur st :
  filter_ok fb o done cur -> st_items st = cur -> handle_offset (st_handle st) = o -> 0 <= o <= o' ->
  exists fb', (match fb with Some fb => fb ← StartBlock fb o'; Done (Some fb) | None => Done None end) = Done fb' /\
    filter_ok fb' o' (done ++ [st]) [].
Proof.
  intros Hf Hst Hh Ho. unfold filter_ok in *. destruct fb as [fb|], (filter_policy options) as [p|]; try done; [|by exists None].
  destruct Hf as (gs & Hinv & Hlen & Hcount & Hdone & Hcur).
  assert (Hdiv : o / kFilterBase <= o' / kFilterBase) by (apply Z.div_le_mono; done || lia).
  destruct (StartBlock_spec p fb gs o' Hinv ltac:(lia)) as (fb' & k & E & Hinv' & Hlen').
  exists (Some fb'). rewrite E. cbn [mbind outcome_bind]. split; [done|]. exists (gs ++ replicate k []).
  split; [done|]. split; [done|]. split.
  { rewrite concat_app, length_app. replace (concat (replicate k [])) with (@nil bytes) by (clear; induction k; done).
    rewrite Hcount. unfold all_items. rewrite items_of_snoc, app_nil_r, !length_app, Hst. simpl. lia. }
  assert (Hup : forall i (l : list item), Forall (fun x => exists g, gs !! i = Some g /\ i_key x ∈ g) l ->
    Forall (fun x => exists g, (gs ++ replicate k []) !! i = Some g /\ i_key x ∈ g) l).
  { intros i l Hl. eapply list.Forall_impl; [exact Hl|]. intros x (g & Hg & Hx). exists g. split; [by apply lookup_app_l_Some|done]. }
  split; [|constructor]. apply list.Forall_app. split.
  - eapply list.Forall_impl; [exact Hdone|]. intros st' Hx. by apply Hup.
  - apply list.Forall_singleton. rewrite Hst, Hh. by apply Hup.
Qed.

Lemma Flush_spec r done cur idx :
  table_inv r done cur idx -> cur <> [] -> weight (items_of done) + weight cur < 2 ^ 30 ->
  exists r' st, Flush options r = Done r' /\ st_items st = cur /\ table_inv r' (done ++ [st]) [] idx.
Proof.
  intros Hi Hne Hw. pose proof (table_room r done cur idx Hi Hne) as Hroom. pose proof (ti_filter _ _ _ _ Hi) as Hfil.
  pose proof (blen_nonneg (written (file r))) as Hw0.
  unfold Flush, ok. rewrite (ti_open _ _ _ _ Hi), (ti_status _ _ _ _ Hi). cbn [negb c_assert mbind outcome_bind].
  assert (Hbe : builder_empty (data_block r) = false).
  { unfold builder_empty. rewrite (bt_buffer _ _ (ti_data _ _ _ _ Hi)). apply Z.eqb_neq. intros E. apply Hne.
    apply body_nil. destruct (body cur) as [|b bs]; [done|]. rewrite blen_cons in E. pose proof (blen_nonneg bs). lia. }
  assert (Hpend : pending_index_entry r = false /\ length idx = length done).
  { pose proof (ti_pending _ _ _ _ Hi) as Hp. destruct (pending_index_entry r); [by destruct Hp as [-> _]|by destruct Hp]. }
  destruct Hpend as [Hpend Hidx]. rewrite Hbe, Hpend. cbn [negb c_assert mbind outcome_bind].
  destruct (WriteBlock_spec r (data_block r) cur (ti_status _ _ _ _ Hi) (ti_offset _ _ _ _ Hi) (ti_data _ _ _ _ Hi) ltac:(lia))
    as (f & h & E & Hh & Hhok & Hho & Hsz & more & Hmore). rewrite E. cbn [mbind outcome_bind]. rep_simpl.
  set (st := {| st_handle := h; st_items := cur; st_restarts := restarts_ (data_block r) |}).
  pose proof (file_Flush_ok f) as [Es Ew].
  destruct (file_Flush f) as [f' s']. cbn [fst snd] in Es, Ew. subst s'. rep_simpl.
  destruct (filter_ok_flush (filter_block r) (offset r) (blen (written f)) done cur st Hfil eq_refl Hho) as (fb' & Ef & Hfil').
  { rewrite (ti_offset _ _ _ _ Hi). lia. }
  assert (Hall : all_items (done ++ [st]) [] = all_items done cur).
  { unfold all_items. by rewrite items_of_snoc, app_nil_r. }
  assert (Hinv : forall r', file r' = f' -> offset r' = blen (written f) -> status r' = true -> closed r' = false ->
    data_block r' = Reset (data_block r) -> index_block r' = index_block r -> rep_last_key r' = rep_last_key r ->
    num_entries r' = num_entries r -> filter_block r' = fb' -> pending_index_entry r' = true -> pending_handle r' = h ->
    table_inv r' (done ++ [st]) [] idx).
  { intros r' E1 E2 E3 E4 E5 E6 E7 E8 E9 E10 E11. split; rewrite ?E1, ?E2, ?E3, ?E4, ?E5, ?E6, ?E7, ?E8, ?E9, ?E10, ?E11, ?Hall; try done.
    - by rewrite Ew.
    - rewrite Ew, items_of_snoc, weight_app. cbn [st_items st]. lia.
    - eapply Reset_built, Hi.
    - apply Hi.
    - rewrite take_app_le by lia. apply Hi.
    - apply list.Forall_app. split.
      + eapply list.Forall_impl; [apply (ti_stored _ _ _ _ Hi)|]. intros st' Hst'. rewrite Ew, Hmore.
        eapply stored_ok_mono; [done|]. rewrite (ti_offset _ _ _ _ Hi), blen_app. pose proof (blen_nonneg more). lia.
      + apply list.Forall_singleton. unfold stored_ok, st_raw. cbn [st_items st_restarts st_handle st].
        split; [apply (ti_data _ _ _ _ Hi)|]. split; [done|].
        split; [rewrite (built_size _ _ (ti_data _ _ _ _ Hi)); lia|]. split; [by rewrite Ew|]. split; [done|].
        rewrite Hho, (ti_offset _ _ _ _ Hi). lia.
    - pose proof (ti_stored _ _ _ _ Hi) as Hso. rewrite list.Forall_forall in Hso.
      intros s1 s2 Hs1 Hs2 Heq. apply elem_of_app in Hs1 as [Hs1|Hs1], Hs2 as [Hs2|Hs2];
        try (apply list_elem_of_singleton in Hs1); try (apply list_elem_of_singleton in Hs2); subst; try done.
      + by apply (ti_distinct _ _ _ _ Hi).
      + destruct (Hso _ Hs1) as (_ & _ & _ & _ & _ & Hlt). cbn [st_handle st] in Heq. lia.
      + destruct (Hso _ Hs2) as (_ & _ & _ & _ & _ & Hlt). cbn [st_handle st] in Heq. lia.
    - intros j e He. destruct (ti_entries _ _ _ _ Hi j e He) as [He1 He2]. apply lookup_lt_Some in He.
      split; [by apply index_entry_snoc; [lia|]|]. by rewrite following_snoc by lia.
    - split; [done|]. exists done, st. done.
    - apply Hi.
    - apply Hi. }
  destruct (filter_block r) as [fb|].
  - destruct (StartBlock fb (blen (written f))) as [fb1| | | | |] eqn:Esb; try discriminate. cbn [mbind outcome_bind] in Ef.
    eexists _, st. split; [reflexivity|]. split; [done|]. apply Hinv; rep_simpl; try done; try apply Hi; congruence.
  - eexists _, st. split; [reflexivity|]. split; [done|]. apply Hinv; rep_simpl; try done; try apply Hi; congruence.
Qed.

(** *** [Add] *)

Lemma head_app {A} (l1 l2 : list A) : l1 <> [] -> head (l1 ++ l2) = head l1.
Proof. by destruct l1. Qed.

Lemma following_app done cur l j : following done (cur ++ l) j = following done cur j ++ l.
Proof. unfold following, all_items. apply app_assoc. Qed.

Lemma index_entry_app done cur l j e :
  following done cur j <> [] -> index_entry done cur j e -> index_entry done (cur ++ l) j e.
Proof.
  intros Hne (st & x & Hd & Hx & Hv & Hs). exists st, x. do 3 (split; [done|]). by rewrite following_app, head_app.
Qed.

Lemma internal_compare a b : ikey_ok a -> ikey_ok b -> Internal.Compare a b = Done (ikey_cmp a b).
Proof. apply (cmp_done (KeyOrder := internal_order)). Qed.

(** a key after all the others compares greater *)
Lemma compare_after x key :
  ikey_ok key -> ikey_ok (i_key x) -> ikey_cmp (i_key x) key < 0 -> exists c, Internal.Compare key (i_key x) = Done c /\ 0 < c.
Proof.
  intros Hk Hx Hlt. exists (ikey_cmp key (i_key x)). split; [by apply internal_compare|].
  rewrite (ikey_cmp_antisym (i_key x) key) by done. lia.
Qed.

Lemma last_app_some (l1 l2 : list item) x : list.last l2 = Some x -> list.last (l1 ++ l2) = Some x.
Proof. intros Hx. by rewrite last_app, Hx. Qed.

Lemma last_elem l x : list.last l = Some x -> x ∈ l.
Proof. intros Hx. rewrite last_lookup in Hx. by eapply list_elem_of_lookup_2. Qed.

Lemma last_some l : l <> [] -> exists x, list.last l = Some x.
Proof. intros Hne. destruct (list.last l) as [x|] eqn:E; [by exists x|]. by apply last_None in E. Qed.

Lemma builder_room b : blen (buffer_ b) <= CurrentSizeEstimate b.
Proof. unfold CurrentSizeEstimate. lia. Qed.

(** the entry of the index block for the last data block, with a key [s] not
    before its last one *)
Lemma add_index_entry_spec r done cur idx done' st x s :
  table_inv r done cur idx -> done = done' ++ [st] -> pending_handle r = st_handle st -> length idx = length done' ->
  cur = [] -> sorted_items (items_of done) -> weight (items_of done) < 2 ^ 30 ->
  list.last (st_items st) = Some x -> ikey_ok s -> ikey_cmp (i_key x) s <= 0 -> blen s <= blen (i_key x) ->
  exists index e, add_index_entry options r s = Done (with_index r index s) /\ built index (idx ++ [e]) /\ i_key e = s /\
    i_value e = handle_bytes (st_handle st) /\ CurrentSizeEstimate index <= 8 + 2 * weight (items_of done).
Proof.
  intros Hi -> Hph Hlen -> Hsorted Hw Hx Hs Hle Hbl. unfold add_index_entry. rewrite Hph.
  pose proof (ti_stored _ _ _ _ Hi) as Hso. apply list.Forall_app in Hso as [Hso Hst].
  rewrite list.Forall_singleton in Hst. destruct Hst as (_ & Hne & _ & _ & Hhok & _).
  rewrite EncodeTo_spec by done. cbn [mbind outcome_bind app]. pose proof (blen_handle _ Hhok) as Hhb.
  rewrite items_of_snoc in *. pose proof (weight_in (st_items st) x (last_elem _ _ Hx)) as Hwx. rewrite weight_app in *.
  pose proof (ti_index_size _ _ _ _ Hi) as Hsz. rewrite Hlen, take_app_exact in Hsz.
  pose proof (builder_room (index_block r)). pose proof (weight_nonneg (items_of done')).
  pose proof (blen_nonneg (i_key x)). pose proof (blen_nonneg (i_value x)). unfold kMaxEncodedLength in *. rewrite Hcomparator.
  destruct (BlockSpec.block_Add_spec Internal.Compare (index_block r) idx s (handle_bytes (st_handle st)) (ti_index _ _ _ _ Hi))
    as (b & e & E & Hb & Ek & Ev & _ & Hsz'); [lia|lia|lia| |].
  { intros y Hy. rewrite last_lookup in Hy. pose proof (lookup_lt_Some _ _ _ Hy) as Hlt.
    destruct (ti_entries _ _ _ _ Hi _ _ Hy) as [(st' & x' & Hst' & Hx' & _ & Hy1 & Hy2 & Hy3) Hfne].
    destruct (sorted_items_app _ _ Hsorted) as (_ & [Hkst Hsst] & _).
    assert (Hf : following (done' ++ [st]) [] (Nat.pred (length idx)) = st_items st).
    { unfold following, all_items. rewrite app_nil_r. replace (S (Nat.pred (length idx))) with (length done') by lia.
      rewrite drop_app_exact. apply (items_of_snoc [] st). }
    rewrite Hf in Hy3. destruct (st_items st) as [|z its] eqn:Eits; [done|]. cbn [head fmap option_fmap option_map] in Hy3.
    destruct Hy3 as [Hyz _]. rewrite list.Forall_forall in Hkst.
    assert (Hz : ikey_ok (i_key z)) by (apply Hkst; left). assert (Hxk : ikey_ok (i_key x)) by (apply Hkst, last_elem; done).
    assert (Hzx : ikey_cmp (i_key z) (i_key x) <= 0).
    { apply (sorted_le_last (z :: its)); [split; [by apply list.Forall_forall|done]|left|done]. }
    apply compare_after; [done|done|]. eapply ikey_cmp_lt_le; [done|exact Hxk|done| |done].
    eapply ikey_cmp_lt_le; [done|exact Hz|done|done|done]. }
  unfold InternalKeyComparator. cbn [comparator_Compare]. rewrite E. cbn [mbind outcome_bind]. exists b, e. split; [done|]. split; [done|]. split; [done|]. split; [done|].
  lia.
Qed.

(** an entry that is still to be stored *)
Definition fresh (key value : bytes) : item := {| i_shared := O; i_key := key; i_value := value |}.

(** the separators are complete before the next key is added *)
Lemma index_step r done cur idx key value :
  table_inv r done cur idx -> sorted_items (all_items done cur ++ [fresh key value]) -> weight (all_items done cur) < 2 ^ 30 ->
  exists index idx' last, (if pending_index_entry r then
      _ ← c_assert (builder_empty (data_block r));
      last ← comparator_FindShortestSeparator (comparator options) (rep_last_key r) key;
      add_index_entry options r last
    else Done r) = Done (with_index r index last) /\
    built index idx' /\ CurrentSizeEstimate index <= 8 + 2 * weight (items_of (take (length idx') done)) /\
    length idx' = length done /\
    forall j e, idx' !! j = Some e -> index_entry done (cur ++ [fresh key value]) j e /\ following done (cur ++ [fresh key value]) j <> [].
Proof.
  intros Hi Hs Hw. pose proof (ti_pending _ _ _ _ Hi) as Hp. pose proof (ti_entries _ _ _ _ Hi) as Hent.
  assert (Hold : forall j e, idx !! j = Some e ->
    index_entry done (cur ++ [fresh key value]) j e /\ following done (cur ++ [fresh key value]) j <> []).
  { intros j e He. destruct (Hent j e He) as [He1 He2]. split; [by apply index_entry_app|].
    rewrite following_app. intros E. by apply app_eq_nil in E as [? _]. }
  destruct (pending_index_entry r) eqn:Epend.
  - destruct Hp as (-> & done' & st & -> & Hph & Hlen).
    assert (Hbe : builder_empty (data_block r) = true).
    { unfold builder_empty. by rewrite (bt_buffer _ _ (ti_data _ _ _ _ Hi)). }
    rewrite Hbe. cbn [c_assert mbind outcome_bind]. rewrite (ti_last _ _ _ _ Hi), Hcomparator.
    pose proof (ti_stored _ _ _ _ Hi) as Hso. apply list.Forall_app in Hso as [_ Hst].
    rewrite list.Forall_singleton in Hst. destruct Hst as (_ & Hne & _). destruct (last_some _ Hne) as [x Hx].
    unfold all_items in *. rewrite app_nil_r in *.
    assert (Hlk : last_key (items_of (done' ++ [st])) = i_key x).
    { unfold last_key. by rewrite items_of_snoc, (last_app_some _ _ x). }
    rewrite Hlk. destruct (sorted_items_app _ _ Hs) as ([Hk1 Hs1] & [Hk2 _] & Hlt). rewrite list.Forall_forall in Hk1.
    rewrite list.Forall_singleton in Hk2. cbn [i_key fresh] in Hk2.
    assert (Hin : x ∈ items_of (done' ++ [st])) by (rewrite items_of_snoc; apply elem_of_app; right; by apply last_elem).
    pose proof (Hlt x (fresh key value) Hin ltac:(by left)) as Hxk. cbn [i_key fresh] in Hxk.
    destruct (Hk1 x Hin) as (u1 & t1 & E1 & Ht1), Hk2 as (u2 & t2 & E2 & Ht2). rewrite E1, E2, ikey_cmp_spec in Hxk by done.
    destruct (separator_spec u1 t1 u2 t2 Ht1 Ht2 Hxk) as (s & ts & Es & Hts & Hc1 & Hc2 & Hbl & Hsep).
    rewrite E1, E2. cbn [comparator_FindShortestSeparator InternalKeyComparator]. rewrite Es. cbn [mbind outcome_bind].
    destruct (add_index_entry_spec r (done' ++ [st]) [] idx done' st x (ikey s ts) Hi eq_refl Hph Hlen eq_refl)
      as (index & e & E & Hb & Ek & Ev & Hsz); [by split; [apply list.Forall_forall|]|done|done|by exists s, ts| | |].
    { by rewrite E1, ikey_cmp_spec. }
    { rewrite E1, !blen_ikey. lia. }
    exists index, (idx ++ [e]), (ikey s ts). split; [done|]. split; [done|]. rewrite !length_app. simpl length.
    split; [rewrite take_ge by (rewrite length_app; simpl; lia); lia|]. split; [lia|].
    intros j y Hy. apply lookup_app_Some in Hy as [Hy|[Hj Hy]]; [rewrite E2 in Hold; by apply Hold|].
    apply list_lookup_singleton_Some in Hy as [Hj0 <-]. assert (j = length done') as -> by lia.
    assert (Hfol : following (done' ++ [st]) ([] ++ [fresh (ikey u2 t2) value]) (length done') = [fresh (ikey u2 t2) value]).
    { unfold following, all_items. rewrite drop_ge by (rewrite length_app; simpl; lia). done. }
    rewrite Hfol. split; [|done]. exists st, x. split; [by apply list_lookup_middle|]. split; [done|]. split; [done|].
    rewrite Hfol, Ek, E1. cbn [head fmap option_fmap option_map i_key fresh]. split; [by exists s, ts|].
    rewrite !ikey_cmp_spec by done. split; [done|]. split; [done|].
    destruct Hsep as [[-> ->]|Hl]; [by left|]. right. by exists s, ts, u2, t2.
  - destruct Hp as [Hlen Hne]. exists (index_block r), idx, (rep_last_key r). split.
    { unfold with_index. destruct r. cbn in *. by rewrite Epend. }
    split; [apply Hi|]. split; [apply Hi|]. split; [done|exact Hold].
Qed.

(** the filter learns the key *)
Lemma filter_ok_add fb o done cur x :
  filter_ok fb o done cur -> match filter_policy options with Some p => filter_key p (i_key x) | None => True end ->
  Z.of_nat (length (all_items done cur)) + 1 < 2 ^ 31 ->
  filter_ok ((fun fb => AddKey fb (i_key x)) <$> fb) o done (cur ++ [x]).
Proof.
  intros Hf Hkey Hn. unfold filter_ok in *. destruct fb as [fb|], (filter_policy options) as [p|]; try done.
  cbn [fmap option_fmap option_map]. destruct Hf as (gs & Hinv & Hlen & Hcount & Hdone & Hcur).
  destruct gs as [|g gs _] using rev_ind.
  { destruct Hinv as (_ & _ & _ & d & pe & fs & E & _). by destruct d. }
  exists (gs ++ [g ++ [i_key x]]). split; [apply AddKey_spec; [done|done|lia]|].
  rewrite length_app in Hlen. simpl in Hlen. split; [rewrite length_app; simpl; lia|]. split.
  { rewrite concat_app, length_app in *. simpl in *. rewrite !app_nil_r, !length_app in *. simpl.
    unfold all_items in *. rewrite !length_app in *. simpl. lia. }
  assert (Hup : forall i k, (exists g0, (gs ++ [g]) !! i = Some g0 /\ k ∈ g0) -> exists g0, (gs ++ [g ++ [i_key x]]) !! i = Some g0 /\ k ∈ g0).
  { intros i k (g0 & Hg & Hk). apply lookup_app_Some in Hg as [Hg|[Hi Hg]]; [exists g0; split; [by apply lookup_app_l_Some|done]|].
    apply list_lookup_singleton_Some in Hg as [Hi0 <-]. exists (g ++ [i_key x]). split; [|apply elem_of_app; by left].
    replace i with (length gs) by lia. by apply list_lookup_middle. }
  split.
  - eapply list.Forall_impl; [exact Hdone|]. intros st Hst. eapply list.Forall_impl; [exact Hst|]. intros y. apply Hup.
  - apply list.Forall_app. split; [eapply list.Forall_impl; [exact Hcur|]; intros y; apply Hup|].
    apply list.Forall_singleton. exists (g ++ [i_key x]). split; [|apply elem_of_app; right; by left].
    replace (Z.to_nat (o / kFilterBase)) with (length gs) by lia. by apply list_lookup_middle.
Qed.

Definition kv_weight (es : list (bytes * bytes)) : Z :=
  fold_right (fun (e : bytes * bytes) acc => blen e.1 + blen e.2 + 32 + acc) 0 es.
Lemma weight_kv l : weight l = kv_weight (map kv l).
Proof. induction l as [|x l IH]; [done|]. simpl. by rewrite IH. Qed.

Lemma sorted_items_kv l l' : map kv l = map kv l' -> sorted_items l -> sorted_items l'.
Proof.
  intros E [Hk Hs]. assert (Hl : forall i y, l' !! i = Some y -> exists x, l !! i = Some x /\ i_key x = i_key y).
  { intros i y Hy. apply (f_equal (lookup i)) in E. rewrite !list_lookup_fmap, Hy in E.
    destruct (l !! i) as [x|] eqn:Ex; [|done]. exists x. split; [done|]. simpl in E. by injection E as ->. }
  split.
  - apply list.Forall_lookup. intros i y Hy. destruct (Hl i y Hy) as (x & Hx & <-). rewrite list.Forall_lookup in Hk. by eapply Hk.
  - intros i j x y Hij Hx Hy. destruct (Hl i x Hx) as (x' & Hx' & <-), (Hl j y Hy) as (y' & Hy' & <-). by apply (Hs i j).
Qed.

(** one more entry *)
Lemma table_Add_spec r done cur idx key value :
  table_inv r done cur idx -> sorted_items (all_items done cur ++ [fresh key value]) ->
  weight (all_items done cur) + (blen key + blen value + 32) < 2 ^ 30 ->
  match filter_policy options with Some p => filter_key p key | None => True end ->
  exists r' done' cur' idx', Add options r key value = Done r' /\ table_inv r' done' cur' idx' /\
    map kv (all_items done' cur') = map kv (all_items done cur) ++ [(key, value)].
Proof.
  intros Hi Hs Hw Hfk. pose proof (blen_nonneg key). pose proof (blen_nonneg value).
  destruct (sorted_items_app _ _ Hs) as ([Hk1 Hs1] & [Hk2 _] & Hlt). rewrite list.Forall_singleton in Hk2. cbn [i_key fresh] in Hk2.
  rewrite list.Forall_forall in Hk1.
  unfold Add, ok. rewrite (ti_open _ _ _ _ Hi), (ti_status _ _ _ _ Hi). cbn [negb c_assert mbind outcome_bind].
  assert (Ec : (if 0 <? num_entries r
       then c ← comparator_Compare (comparator options) key (rep_last_key r); c_assert (0 <? c) else Done tt) = Done tt).
  { rewrite (ti_count _ _ _ _ Hi). destruct (Z.ltb_spec 0 (Z.of_nat (length (all_items done cur)))); [|done].
    rewrite Hcomparator, (ti_last _ _ _ _ Hi). destruct (last_some (all_items done cur)) as [x Hx]; [by destruct (all_items done cur)|].
    unfold last_key. rewrite Hx. pose proof (last_elem _ _ Hx) as Hin.
    destruct (compare_after x key Hk2 (Hk1 _ Hin)) as (c & E & Hc).
    { apply (Hlt x (fresh key value) Hin). by left. }
    cbn [comparator_Compare InternalKeyComparator]. rewrite E. cbn [mbind outcome_bind]. by rewrite (proj2 (Z.ltb_lt _ _) Hc). }
  rewrite Ec. cbn [mbind outcome_bind]. clear Ec.
  destruct (index_step r done cur idx key value Hi Hs ltac:(lia)) as (index & idx' & last & E & Hb & Hisz & Hilen & Hient).
  rewrite E. cbn [mbind outcome_bind]. clear E. rep_simpl.
  pose proof (ti_data_size _ _ _ _ Hi) as Hdsz. pose proof (builder_room (data_block r)). pose proof (weight_ge (all_items done cur)).
  assert (Hwsum : weight (all_items done cur) = weight (items_of done) + weight cur) by apply weight_app.
  pose proof (weight_nonneg (items_of done)). pose proof (weight_nonneg cur).
  destruct (BlockSpec.block_Add_spec Internal.Compare (data_block r) cur key value (ti_data _ _ _ _ Hi))
    as (data & x & E & Hdb & Ek & Ev & _ & Hdsz'); [lia|lia|lia| |].
  { intros y Hy. pose proof (last_elem _ _ Hy) as Hin.
    assert (Hin' : y ∈ all_items done cur) by (apply elem_of_app; by right).
    apply compare_after; [done|by apply Hk1|]. apply (Hlt y (fresh key value) Hin'). by left. }
  rewrite Hcomparator. cbn [comparator_Compare InternalKeyComparator]. rewrite E. cbn [mbind outcome_bind]. clear E.
  assert (Hall : all_items done (cur ++ [x]) = all_items done cur ++ [x]) by (apply app_assoc).
  assert (Hinv : forall r2, file r2 = file r -> offset r2 = offset r -> status r2 = true -> closed r2 = false ->
    data_block r2 = data -> index_block r2 = index -> rep_last_key r2 = key -> num_entries r2 = num_entries r + 1 ->
    filter_block r2 = (fun fb => AddKey fb key) <$> filter_block r -> pending_index_entry r2 = false ->
    table_inv r2 done (cur ++ [x]) idx').
  { intros r2 E1 E2 E3 E4 E5 E6 E7 E8 E9 E10.
    split; rewrite ?E1, ?E2, ?E3, ?E4, ?E5, ?E6, ?E7, ?E8, ?E9, ?E10, ?Hall; try done; try apply Hi.
    - rewrite weight_app, length_app. simpl. rewrite Ek, Ev. lia.
    - intros j e He. destruct (Hient j e He) as [(st & y & Hd & Hy & Hv & Hsep) Hne]. rewrite following_app in Hsep, Hne.
      assert (Hh : i_key <$> head (following done cur j ++ [fresh key value]) = i_key <$> head (following done cur j ++ [x])).
      { destruct (following done cur j); [cbn; by rewrite Ek|done]. }
      split; [|rewrite following_app; by destruct (following done cur j)].
      exists st, y. do 3 (split; [done|]). by rewrite following_app, <- Hh.
    - split; [done|]. right. by destruct cur.
    - unfold last_key. by rewrite last_snoc, Ek.
    - rewrite (ti_count _ _ _ _ Hi), length_app. simpl. lia.
    - rewrite <- Ek. apply filter_ok_add; [apply Hi|by rewrite Ek|lia]. }
  assert (Hkv : map kv (all_items done (cur ++ [x])) = map kv (all_items done cur) ++ [(key, value)]).
  { rewrite Hall, map_app. simpl. unfold kv at 2. by rewrite Ek, Ev. }
  match goal with |- context [if _ then Flush options ?r2 else _] => specialize (Hinv r2); set (r2' := r2) in * end.
  specialize (Hinv eq_refl eq_refl (ti_status _ _ _ _ Hi) (ti_open _ _ _ _ Hi) eq_refl eq_refl eq_refl eq_refl eq_refl eq_refl).
  destruct (block_size options <=? CurrentSizeEstimate data); [|by exists r2', done, (cur ++ [x]), idx'].
  destruct (Flush_spec r2' done (cur ++ [x]) idx' Hinv) as (r3 & st & E & Est & Hinv').
  { by destruct cur. }
  { rewrite weight_app. simpl. rewrite Ek, Ev. lia. }
  exists r3, (done ++ [st]), [], idx'. split; [done|]. split; [done|]. rewrite <- Hkv. f_equal.
  unfold all_items. by rewrite items_of_snoc, app_nil_r, Est.
Qed.

(** *** A new builder *)

Definition policies_ok : Prop := match filter_policy options with Some p => policy_ok p | None => True end.

Lemma make_TableBuilder_spec (f : F) :
  written f = [] -> policies_ok -> exists r, make_TableBuilder options f = Done r /\ table_inv r [] [] [].
Proof.
  intros Hf Hp. unfold make_TableBuilder. destruct (make_BlockBuilder_built _ Hinterval) as (b & Eb & Hb & _).
  assert (Es : CurrentSizeEstimate b = 8).
  { revert Eb. unfold make_BlockBuilder. rewrite (proj2 (Z.leb_le _ _) Hinterval). by intros [= <-]. }
  rewrite Eb. cbn [mbind outcome_bind]. rep_simpl.
  assert (Hinv : forall r fb, file r = f -> offset r = 0 -> status r = true -> closed r = false -> data_block r = b ->
    index_block r = with_interval b 1 -> rep_last_key r = [] -> num_entries r = 0 -> filter_block r = fb ->
    pending_index_entry r = false -> filter_ok fb 0 [] [] -> table_inv r [] [] []).
  { intros r fb E1 E2 E3 E4 E5 E6 E7 E8 E9 E10 Hfb.
    split; rewrite ?E1, ?E2, ?E3, ?E4, ?E5, ?E6, ?E7, ?E8, ?E9, ?E10, ?Hf; try done.
    - cbn. lia.
    - destruct Hb as [H1' H2' H3' H4' H5' H6' H7']. split; cbn; try done; try lia. rewrite (H7' eq_refl). lia.
    - unfold CurrentSizeEstimate in *. cbn in *. lia.
    - intros st1 st2 Hs1. by apply elem_of_nil in Hs1.
    - split; [done|by left]. }
  unfold policies_ok in Hp. destruct (filter_policy options) as [p|] eqn:Ep; cbn [fmap option_fmap option_map].
  - destruct (StartBlock_spec p _ [[]] 0 (filter_inv_init p Hp)) as (fb & k & E & Hfb & Hl); [done|].
    rewrite E. cbn [mbind outcome_bind]. eexists. split; [done|]. eapply Hinv; try done. unfold filter_ok. rewrite Ep.
    exists ([[]] ++ replicate k []). split; [done|]. split; [done|]. split; [|split; constructor].
    rewrite length_app, length_replicate in Hl. change (0 / kFilterBase) with 0 in Hl. simpl in Hl.
    assert (k = O) as -> by lia. done.
  - eexists. split; [done|]. eapply Hinv; try done. unfold filter_ok. by rewrite Ep.
Qed.

(** *** The parts of [Finish] *)

Lemma with_file_id r : offset r = blen (written (file r)) -> status r = true -> with_file r (file r) (blen (written (file r))) true = r.
Proof. intros Ho Hs. unfold with_file. rewrite <- Ho, <- Hs. by destruct r. Qed.

(** what a reader of the filter block gets *)
Definition reader_good (p : InternalFilterPolicy P) (contents : bytes) done : Prop :=
  exists rd, make_FilterBlockReader p contents = Done rd /\
    (forall st x k, st ∈ done -> x ∈ st_items st -> same_key p (i_key x) k ->
       KeyMayMatch rd (handle_offset (st_handle st)) k = Done true) /\
    (forall o k, 0 <= o -> filter_key p k -> exists m : bool, KeyMayMatch rd o k = Done m).

Definition filter_written (content : bytes) (h : BlockHandle) done (fb : option (FilterBlockBuilder (InternalFilterPolicy P))) : Prop :=
  match fb, filter_policy options with
  | None, None => True
  | Some _, Some p => exists contents, holds_block content h contents /\ handle_ok h /\ reader_good p contents done
  | _, _ => False
  end.

Definition filter_room (n : nat) : Z :=
  match filter_policy options with
  | Some p => 2 * filter_bytes p * Z.of_nat n + blen (policy_Name p)
  | None => 0
  end.

Lemma filter_room_nonneg n : policies_ok -> 0 <= filter_room n.
Proof.
  unfold policies_ok, filter_room. destruct (filter_policy options) as [p|]; [|lia]. intros Hp.
  pose proof (filter_bytes_nonneg p Hp). pose proof (blen_nonneg (policy_Name p)). nia.
Qed.

Lemma write_filter_spec r done :
  status r = true -> offset r = blen (written (file r)) -> filter_ok (filter_block r) (offset r) done [] ->
  Forall (fun st => handle_ok (st_handle st)) done ->
  2 * blen (written (file r)) + filter_room (length (items_of done)) < 2 ^ 31 ->
  exists fb f h, write_filter r = Done (with_file (with_filter r fb) f (blen (written f)) true, h) /\
    filter_written (written f) h done fb /\
    blen (written (file r)) <= blen (written f) <= 2 * blen (written (file r)) + filter_room (length (items_of done)) + 20 /\
    exists more, written f = written (file r) ++ more.
Proof.
  intros Hs Ho Hf Hh Hsz. unfold write_filter, ok. unfold filter_ok, filter_room in *. pose proof (blen_nonneg (written (file r))).
  destruct (filter_block r) as [fb|] eqn:Efb, (filter_policy options) as [p|] eqn:Ep; try done.
  2: { exists None, (file r), make_BlockHandle. unfold filter_written. rewrite Ep. split.
       { rewrite <- (with_file_id r Ho Hs) at 1. unfold with_filter. destruct r. cbn in *. by subst. }
       split; [done|]. split; [lia|]. exists []. by rewrite app_nil_r. }
  rewrite Hs. destruct Hf as (gs & Hinv & Hlen & Hcount & Hdone & _).
  destruct (filter_block_spec p fb gs Hinv) as (fb' & contents & E & Hcs & Hrd). rewrite E. cbn [mbind outcome_bind].
  rewrite Hcount in Hcs. unfold all_items in Hcs. rewrite app_nil_r in Hcs.
  assert (Hdiv : offset r / kFilterBase <= blen (written (file r)) / 4).
  { rewrite Ho. unfold kFilterBase. change (Z.shiftl 1 kFilterBaseLg) with (4 * 512). rewrite <- Z.div_div by lia.
    apply Z.div_le_upper_bound; [lia|]. assert (Hq : 0 <= blen (written (file r)) / 4) by (apply Z.div_pos; lia).
    revert Hq. generalize (blen (written (file r)) / 4). lia. }
  pose proof (Z.mul_div_le (blen (written (file r))) 4 ltac:(lia)). pose proof (blen_nonneg (policy_Name p)).
  pose proof (blen_nonneg contents).
  destruct (WriteRawBlock_spec (with_filter r (Some fb')) contents kNoCompression contents Ho eq_refl) as (f & h & E' & Hhb & Hhok & Hho & Hl & Hm).
  { cbn [file with_filter]. lia. }
  rewrite E'. exists (Some fb'), f, h. cbn [file with_filter] in *. split; [done|]. unfold filter_written. rewrite Ep.
  split; [|split; [lia|done]]. exists contents. split; [done|]. split; [done|].
  destruct (Hrd ltac:(lia)) as (rd & Erd & Hm1 & Hm2). exists rd. split; [done|]. split; [|done].
  intros st x k Hst Hx Hsame. rewrite list.Forall_forall in Hdone, Hh. pose proof (Hdone st Hst) as Hg. rewrite list.Forall_forall in Hg.
  destruct (Hg x Hx) as (g & Hgs & Hin). destruct (Hh st Hst) as [[Ho1 _] _]. by eapply Hm1.
Qed.

(** the block of names *)
Definition meta_written (content : bytes) (mh fh : BlockHandle) : Prop :=
  match filter_policy options with
  | None => True
  | Some p => exists mits mrs, items_ok mits mrs /\ blen (block_bytes mits mrs) < 2 ^ 32 /\
      holds_block content mh (block_bytes mits mrs) /\ map kv mits = [(filter_name p, handle_bytes fh)]
  end.

Lemma write_metaindex_spec r content fh done :
  status r = true -> offset r = blen (written (file r)) -> filter_written content fh done (filter_block r) ->
  blen (written (file r)) + filter_room 0 < 2 ^ 31 ->
  exists f h, write_metaindex options r fh = Done (with_file r f (blen (written f)) true, h) /\
    meta_written (written f) h fh /\ handle_ok h /\
    blen (written (file r)) <= blen (written f) <= blen (written (file r)) + filter_room 0 + 100 /\
    exists more, written f = written (file r) ++ more.
Proof.
  intros Hs Ho Hf Hsz. unfold write_metaindex, ok. rewrite Hs.
  destruct (make_BlockBuilder_built _ Hinterval) as (b & Eb & Hb & _).
  assert (Es : CurrentSizeEstimate b = 8).
  { revert Eb. unfold make_BlockBuilder. rewrite (proj2 (Z.leb_le _ _) Hinterval). by intros [= <-]. }
  rewrite Eb. cbn [mbind outcome_bind]. unfold filter_written, filter_room, meta_written in *.
  pose proof (blen_nonneg (written (file r))) as Hw0.
  assert (Hgo : forall b its, built b its -> CurrentSizeEstimate b <= 90 + filter_room 0 ->
    exists f h, ('(r, handle, _) ← WriteBlock options r b; Done (r, handle)) = Done (with_file r f (blen (written f)) true, h) /\
      (items_ok its (restarts_ b) /\ blen (block_bytes its (restarts_ b)) < 2 ^ 32 /\ holds_block (written f) h (block_bytes its (restarts_ b))) /\
      handle_ok h /\ blen (written (file r)) <= blen (written f) <= blen (written (file r)) + filter_room 0 + 100 /\
      exists more, written f = written (file r) ++ more).
  { intros b' its Hb' Hsz'. fold (filter_room 0) in Hsz. destruct (WriteBlock_spec r b' its Hs Ho Hb' ltac:(lia)) as (f & h & E & Hh & Hhok & _ & Hl & Hm).
    rewrite E. cbn [mbind outcome_bind]. exists f, h. split; [done|]. split; [|split; [done|split; [lia|done]]].
    split; [apply Hb'|]. split; [rewrite (built_size b' its Hb'); lia|done]. }
  unfold filter_room in Hgo.
  destruct (filter_block r) as [fb|], (filter_policy options) as [p|]; try done.
  - destruct Hf as (contents & _ & Hfh & _). rewrite EncodeTo_spec by done. cbn [mbind outcome_bind app].
    pose proof (blen_handle _ Hfh) as Hhb. unfold kMaxEncodedLength in Hhb. pose proof (blen_nonneg (policy_Name p)).
    assert (Hname : blen (filter_name p) = 7 + blen (policy_Name p)) by (unfold filter_name; rewrite blen_app; done).
    pose proof (builder_room b).
    destruct (BlockSpec.block_Add_spec (comparator_Compare (comparator options)) b [] (filter_name p) (handle_bytes fh) Hb)
      as (b' & x & E & Hb' & Ek & Ev & _ & Hsz'); [lia|lia|lia|done|].
    rewrite E. cbn [mbind outcome_bind]. destruct (Hgo b' ([] ++ [x]) Hb' ltac:(lia)) as (f & h & E' & (H1' & H2' & H3') & Hrest).
    exists f, h. split; [exact E'|]. split; [|exact Hrest]. exists [x], (restarts_ b'). do 3 (split; [done|]).
    simpl. unfold kv. by rewrite Ek, Ev.
  - cbn [mbind outcome_bind]. destruct (Hgo b [] Hb ltac:(lia)) as (f & h & E' & _ & Hrest).
    exists f, h. split; [exact E'|]. split; [done|exact Hrest].
Qed.

(** the index block: an entry for each data block *)
Lemma write_index_spec r done idx :
  status r = true -> offset r = blen (written (file r)) -> blen (written (file r)) + 3 * weight (items_of done) < 2 ^ 31 ->
  (exists r0, table_inv r0 done [] idx /\ index_block r = index_block r0 /\ pending_index_entry r = pending_index_entry r0 /\
     pending_handle r = pending_handle r0 /\ rep_last_key r = rep_last_key r0) ->
  sorted_items (items_of done) -> weight (items_of done) < 2 ^ 30 ->
  exists r' h idx' irs, write_index options r = Done (r', h) /\ status r' = true /\ offset r' = blen (written (file r')) /\
    items_ok idx' irs /\ blen (block_bytes idx' irs) < 2 ^ 32 /\ holds_block (written (file r')) h (block_bytes idx' irs) /\
    handle_ok h /\ length idx' = length done /\ (forall j e, idx' !! j = Some e -> index_entry done [] j e) /\
    blen (written (file r)) <= blen (written (file r')) <= blen (written (file r)) + 2 * weight (items_of done) + 20 /\
    (exists more, written (file r') = written (file r) ++ more) /\ closed r' = closed r.
Proof.
  intros Hs Ho Hsz (r0 & Hi & Eix & Epe & Eph & Elk) Hsorted Hw. pose proof (blen_nonneg (written (file r))) as Hw0.
  assert (Hstep : exists r1 idx', (if pending_index_entry r then
      last ← comparator_FindShortSuccessor (comparator options) (rep_last_key r); add_index_entry options r last else Done r) = Done r1 /\
    file r1 = file r /\ offset r1 = offset r /\ status r1 = status r /\ closed r1 = closed r /\ built (index_block r1) idx' /\
    CurrentSizeEstimate (index_block r1) <= 8 + 2 * weight (items_of done) /\ length idx' = length done /\
    (forall j e, idx' !! j = Some e -> index_entry done [] j e)).
  { pose proof (ti_pending _ _ _ _ Hi) as Hp. rewrite Epe. destruct (pending_index_entry r0).
    - destruct Hp as (_ & done' & st & -> & Hph & Hlen).
      pose proof (ti_stored _ _ _ _ Hi) as Hso. apply list.Forall_app in Hso as [_ Hst].
      rewrite list.Forall_singleton in Hst. destruct Hst as (_ & Hne & _). destruct (last_some _ Hne) as [x Hx].
      assert (Hlk : rep_last_key r = i_key x).
      { rewrite Elk, (ti_last _ _ _ _ Hi). unfold all_items, last_key. by rewrite app_nil_r, items_of_snoc, (last_app_some _ _ x). }
      assert (Hin : x ∈ items_of (done' ++ [st])) by (rewrite items_of_snoc; apply elem_of_app; right; by apply last_elem).
      pose proof Hsorted as [Hk _]. rewrite list.Forall_forall in Hk. destruct (Hk x Hin) as (u & t & Ek & Ht).
      rewrite Hlk, Ek, Hcomparator. destruct (successor_spec u t Ht) as (s & ts & Es & Hts & Hc & Hbl).
      cbn [comparator_FindShortSuccessor InternalKeyComparator]. rewrite Es. cbn [mbind outcome_bind].
      destruct (add_index_entry_spec r0 (done' ++ [st]) [] idx done' st x (ikey s ts) Hi eq_refl Hph Hlen eq_refl Hsorted Hw Hx)
        as (index & e & E & Hb & Eke & Ev & Hsz'); [by exists s, ts|by rewrite Ek, ikey_cmp_spec|rewrite Ek, !blen_ikey; lia|].
      assert (E' : add_index_entry options r (ikey s ts) = Done (with_index r index (ikey s ts))).
      { revert E. unfold add_index_entry. rewrite Eix, Eph. destruct (EncodeTo (pending_handle r0) []) as [enc| | | | |]; try done.
        cbn [mbind outcome_bind]. destruct (Block.Add _ (index_block r0) _ enc) as [b| | | | |]; try done.
        cbn [mbind outcome_bind]. intros E. by injection E as ->. }
      rewrite E'. exists (with_index r index (ikey s ts)), (idx ++ [e]). do 5 (split; [done|]). split; [done|]. split; [done|].
      split; [rewrite !length_app; simpl; lia|]. intros j y Hy. apply lookup_app_Some in Hy as [Hy|[Hj Hy]]; [by apply (ti_entries _ _ _ _ Hi)|].
      apply list_lookup_singleton_Some in Hy as [Hj0 <-]. assert (j = length done') as -> by lia.
      exists st, x. split; [by apply list_lookup_middle|]. split; [done|]. split; [done|].
      unfold following, all_items. rewrite drop_ge by (rewrite length_app; simpl; lia). rewrite Eke. split; [by exists s, ts|].
      split; [by rewrite Ek, ikey_cmp_spec|done].
    - destruct Hp as [Hlen _]. exists r, idx. rewrite Eix. do 5 (split; [done|]). split; [apply Hi|].
      pose proof (ti_index_size _ _ _ _ Hi) as Hisz. rewrite take_ge in Hisz by lia. split; [done|]. split; [done|].
      intros j e He. by apply (ti_entries _ _ _ _ Hi). }
  destruct Hstep as (r1 & idx' & E & Ef & Eo & Es & Ecl & Hb & Hisz & Hlen & Hent). unfold write_index, ok. rewrite Hs, E.
  cbn [mbind outcome_bind]. rewrite <- Es in Hs. rewrite <- Ef, <- Eo in Ho. pose proof (weight_nonneg (items_of done)).
  destruct (WriteBlock_spec r1 (index_block r1) idx' Hs Ho Hb) as (f & h & E' & Hh & Hhok & _ & Hl & Hm); [rewrite Ef; lia|].
  rewrite E'. cbn [mbind outcome_bind]. eexists _, h, idx', (restarts_ (index_block r1)). split; [done|]. rep_simpl.
  rewrite Ef in Hl, Hm. split; [done|]. split; [done|]. split; [apply Hb|]. split; [rewrite (built_size _ _ Hb); lia|].
  do 4 (split; [done|]). split; [lia|]. by split.
Qed.

(** ** A finished file *)

Record finished_file (content : bytes) done (idx : list item) (irs : list Z) (footer : Footer) : Prop := {
  tf_stored : Forall (stored_ok content (blen content)) done;
  tf_distinct : forall st1 st2, st1 ∈ done -> st2 ∈ done -> handle_offset (st_handle st1) = handle_offset (st_handle st2) -> st1 = st2;
  tf_size : blen content < 2 ^ 32;
  tf_index : items_ok idx irs;
  tf_index_size : blen (block_bytes idx irs) < 2 ^ 32;
  tf_index_block : holds_block content (index_handle footer) (block_bytes idx irs);
  tf_length : length idx = length done;
  tf_entries : forall j e, idx !! j = Some e -> index_entry done [] j e;
  tf_handles : handle_ok (index_handle footer) /\ handle_ok (metaindex_handle footer);
  tf_meta : match filter_policy options with
            | None => True
            | Some p => exists fh contents, meta_written content (metaindex_handle footer) fh /\ handle_ok fh /\
                holds_block content fh contents /\ reader_good p contents done
            end;
  tf_footer : exists pre enc, content = pre ++ enc /\ footer_EncodeTo footer [] = Done enc }.

Lemma footer_size footer enc :
  handle_ok (metaindex_handle footer) -> handle_ok (index_handle footer) -> footer_EncodeTo footer [] = Done enc -> blen enc = 48.
Proof. intros H1' H2' E. destruct (Footer_roundtrip footer H1' H2') as (enc' & E' & Hl & _). assert (enc = enc') as -> by congruence. exact Hl. Qed.

(** [Finish] completes the file. *)
Lemma table_Finish_spec r done cur idx :
  table_inv r done cur idx -> sorted_items (all_items done cur) -> policies_ok ->
  6 * weight (all_items done cur) + 2 * filter_room (length (all_items done cur)) + 200 < 2 ^ 30 ->
  exists r' done' idx' irs footer, Finish options r = Done (r', true) /\ closed r' = true /\ FileSize r' = blen (written (file r')) /\
    finished_file (written (file r')) done' idx' irs footer /\ items_of done' = all_items done cur.
Proof.
  intros Hi Hsorted Hpol Hsz. pose proof (filter_room_nonneg (length (all_items done cur)) Hpol) as Hroom.
  assert (Hwall : weight (all_items done cur) = weight (items_of done) + weight cur) by apply weight_app.
  pose proof (weight_nonneg (all_items done cur)) as Hw0.
  assert (Hfl : exists r1 done1, Flush options r = Done r1 /\ table_inv r1 done1 [] idx /\ items_of done1 = all_items done cur).
  { destruct cur as [|x cur].
    - exists r, done. split; [|split; [done|unfold all_items; by rewrite app_nil_r]].
      unfold Flush, ok. rewrite (ti_open _ _ _ _ Hi), (ti_status _ _ _ _ Hi). cbn [negb c_assert mbind outcome_bind].
      unfold builder_empty. by rewrite (bt_buffer _ _ (ti_data _ _ _ _ Hi)).
    - destruct (Flush_spec r done (x :: cur) idx Hi ltac:(done) ltac:(lia)) as (r1 & st & E & Est & Hi1).
      exists r1, (done ++ [st]). split; [done|]. split; [done|]. by rewrite items_of_snoc, Est. }
  destruct Hfl as (r1 & done1 & E1 & Hi1 & Hitems). unfold Finish. rewrite E1. cbn [mbind outcome_bind].
  rewrite (ti_open _ _ _ _ Hi1). cbn [negb c_assert mbind outcome_bind].
  rewrite <- Hitems in *. clear Hwall. set (W := weight (items_of done1)) in *. set (N := length (items_of done1)) in *.
  pose proof (ti_size _ _ _ _ Hi1) as Hsize1. fold W in Hsize1. pose proof (blen_nonneg (written (file r1))).
  assert (Hst1 : Forall (fun st => handle_ok (st_handle st)) done1).
  { eapply list.Forall_impl; [apply (ti_stored _ _ _ _ Hi1)|]. intros st Hst. apply Hst. }
  destruct (write_filter_spec (with_closed r1) done1) as (fb & f2 & h2 & E2 & Hf2 & Hl2 & m2 & Hm2);
    [apply Hi1|apply Hi1|apply Hi1|done|fold N; cbn [file with_closed]; lia|].
  rewrite E2. cbn [mbind outcome_bind]. fold N in Hl2. cbn [file with_closed] in Hl2, Hm2.
  assert (Hr0 : filter_room 0 <= filter_room N).
  { unfold filter_room. unfold policies_ok in Hpol. destruct (filter_policy options) as [p|]; [|lia]. pose proof (filter_bytes_nonneg p Hpol). nia. }
  set (r2 := with_file (with_filter (with_closed r1) fb) f2 (blen (written f2)) true) in *.
  destruct (write_metaindex_spec r2 (written f2) h2 done1 eq_refl eq_refl Hf2) as (f3 & h3 & E3 & Hmeta & Hh3 & Hl3 & m3 & Hm3).
  { cbn [file r2 with_file]. lia. }
  rewrite E3. cbn [mbind outcome_bind]. cbn [file r2 with_file] in Hl3, Hm3.
  set (r3 := with_file r2 f3 (blen (written f3)) true) in *.
  destruct (write_index_spec r3 done1 idx eq_refl eq_refl) as (r4 & h4 & idx' & irs & E4 & Hs4 & Ho4 & Hit & Hisz & Hih & Hh4 & Hilen & Hient & Hl4 & (m4 & Hm4) & Hclosed);
    [fold W; cbn [file r3 with_file]; lia|exists r1; done|done|fold W; lia|].
  rewrite E4. cbn [mbind outcome_bind]. cbn [file r3 with_file] in Hl4, Hm4. fold W in Hl4.
  unfold write_footer, ok. rewrite Hs4. set (footer := {| metaindex_handle := h3; index_handle := h4 |}).
  destruct (Footer_roundtrip footer Hh3 Hh4) as (enc & Eenc & Hlenc & _). rewrite Eenc. cbn [mbind outcome_bind].
  pose proof (file_Append_ok (file r4) enc) as [Es Ew]. destruct (file_Append (file r4) enc) as [f5 s5]. cbn [fst snd] in Es, Ew. subst s5.
  cbn [mbind outcome_bind]. change kEncodedLength with 48 in Hlenc.
  assert (Hl5 : blen (written f5) = blen (written (file r4)) + 48) by (rewrite Ew, blen_app; lia).
  eexists _, done1, idx', irs, footer. split; [reflexivity|]. rep_simpl.
  split; [exact Hclosed|]. unfold FileSize. cbn [offset]. split; [rewrite u64_small by lia; lia|]. split; [|done].
  assert (Hmore : written f5 = written (file r1) ++ (m2 ++ m3 ++ m4 ++ enc)) by (by rewrite Ew, Hm4, Hm3, Hm2, <- !app_assoc).
  assert (Hmore2 : written f5 = written f2 ++ (m3 ++ m4 ++ enc)) by (by rewrite Ew, Hm4, Hm3, <- !app_assoc).
  assert (Hmore3 : written f5 = written f3 ++ (m4 ++ enc)) by (by rewrite Ew, Hm4, <- !app_assoc).
  split; try done.
  - eapply list.Forall_impl; [apply (ti_stored _ _ _ _ Hi1)|]. intros st Hst. rewrite Hmore at 1. eapply stored_ok_mono; [done|].
    rewrite (ti_offset _ _ _ _ Hi1). lia.
  - apply Hi1.
  - lia.
  - rewrite Ew. by apply holds_block_app.
  - unfold filter_written in Hf2. destruct fb as [fb|], (filter_policy options) as [p|] eqn:Ep; try done.
    destruct Hf2 as (contents & Hc1 & Hc2 & Hc3). exists h2, contents. split; [|split; [done|split; [rewrite Hmore2; by apply holds_block_app|done]]].
    unfold meta_written in *. rewrite Ep in *. destruct Hmeta as (mits & mrs & Hm1' & Hm2' & Hm3' & Hm4'). exists mits, mrs.
    split; [done|]. split; [done|]. split; [rewrite Hmore3; by apply holds_block_app|done].
  - exists (written (file r4)), enc. by rewrite Ew.
Qed.
End Build.

(** ** Opening and reading *)

(** the first entry that is not before [k] *)
Fixpoint first_ge (es : list (bytes * bytes)) (k : bytes) : option (bytes * bytes) :=
  match es with
  | [] => None
  | (key, v) :: es' => if ikey_cmp key k <? 0 then first_ge es' k else Some (key, v)
  end.

(** an entry, if it is one of the user key [u] *)
Definition for_user (u : bytes) (e : option (bytes * bytes)) : option (bytes * bytes) :=
  match e with
  | Some (key, _) =>
      match ExtractUserKey key with Done user => if decide (user = u) then e else None | _ => None end
  | None => None
  end.

Definition before_key (k : bytes) l : Prop := Forall (fun x => ikey_cmp (i_key x) k < 0) l.

Lemma first_ge_app l1 l2 k : before_key k l1 -> first_ge (map kv (l1 ++ l2)) k = first_ge (map kv l2) k.
Proof.
  induction 1 as [|x l1 Hx Hl IH]; [done|]. cbn [app map first_ge kv]. unfold kv at 1. by rewrite (proj2 (Z.ltb_lt _ _) Hx).
Qed.

Lemma first_ge_some l k e : first_ge (map kv l) k = Some e -> exists x, x ∈ l /\ e = kv x /\ 0 <= ikey_cmp (i_key x) k.
Proof.
  induction l as [|x l IH]; [done|]. cbn [map first_ge kv]. unfold kv at 1. destruct (Z.ltb_spec (ikey_cmp (i_key x) k) 0) as [|Hge].
  - intros E. destruct (IH E) as (y & Hy & ?). exists y. split; [by right|done].
  - intros [= <-]. exists x. split; [by left|]. done.
Qed.

Lemma first_ge_none l k : first_ge (map kv l) k = None -> before_key k l.
Proof.
  induction l as [|x l IH]; [constructor|]. cbn [map first_ge kv]. unfold kv at 1.
  destruct (Z.ltb_spec (ikey_cmp (i_key x) k) 0); [|done]. intros E. constructor; [done|by apply IH].
Qed.

(** what a cursor of [Seek] finds *)
Lemma seek_first_ge l k n :
  (forall j key v, map kv l !! j = Some (key, v) -> ((j < n)%nat -> ikey_cmp key k < 0) /\ (j = n -> 0 <= ikey_cmp key k)) ->
  first_ge (map kv l) k = map kv l !! n.
Proof.
  revert n; induction l as [|x l IH]; intros n Hn; [done|]. cbn [map first_ge kv]. unfold kv at 1.
  destruct (Hn O (i_key x) (i_value x) eq_refl) as [H1 H2]. destruct n as [|n].
  - rewrite (proj2 (Z.ltb_ge _ _)) by (by apply H2). done.
  - rewrite (proj2 (Z.ltb_lt _ _)) by (apply H1; lia). cbn [lookup]. apply IH. intros j key v Hj.
    destruct (Hn (S j) key v Hj) as [H3 H4]. split; intros Hjn; [apply H3; lia|apply H4; lia].
Qed.

Lemma sorted_head_le l x y : sorted_items l -> head l = Some x -> y ∈ l -> ikey_cmp (i_key x) (i_key y) <= 0.
Proof.
  intros [Hk Hs] Hx Hy. destruct l as [|x' l]; [done|]. injection Hx as ->. apply elem_of_cons in Hy as [->|Hy].
  - rewrite list.Forall_cons in Hk. destruct Hk as [(u & t & -> & Ht) _]. rewrite ikey_cmp_spec, icompare_refl by done. lia.
  - apply list_elem_of_lookup in Hy as [j Hj]. pose proof (Hs O (S j) x y ltac:(lia) eq_refl Hj). lia.
Qed.

Lemma items_of_split done n st :
  done !! n = Some st -> items_of done = items_of (take n done) ++ st_items st ++ items_of (drop (S n) done).
Proof.
  intros Hn. rewrite <- (take_drop_middle _ _ _ Hn) at 1. unfold items_of. rewrite map_app, concat_app. done.
Qed.

Lemma elem_of_items_of x done : x ∈ items_of done -> exists j st, done !! j = Some st /\ x ∈ st_items st.
Proof.
  unfold items_of. induction done as [|st done IH]; intros Hx; [by apply elem_of_nil in Hx|].
  cbn [map concat] in Hx. apply elem_of_app in Hx as [Hx|Hx]; [by exists O, st|].
  destruct (IH Hx) as (j & st' & Hj & Hst). by exists (S j), st'.
Qed.

(** *** The index block separates the data blocks *)

Section Index.
Context (done : list stored) (idx : list item).
Context (Hsorted : sorted_items (items_of done)) (Hne : Forall (fun st => st_items st <> []) done).
Context (Hlen : length idx = length done) (Hent : forall j e, idx !! j = Some e -> index_entry done [] j e).
Context (u : bytes) (tag : Z) (Htag : 0 <= tag < 2 ^ 64).
Let k := ikey u tag.

Lemma k_ok : ikey_ok k.
Proof. by exists u, tag. Qed.

Lemma item_ikey x : x ∈ items_of done -> ikey_ok (i_key x).
Proof. destruct Hsorted as [Hk _]. rewrite list.Forall_forall in Hk. apply Hk. Qed.

Lemma block_items j st x : done !! j = Some st -> x ∈ st_items st -> x ∈ items_of done.
Proof. intros Hj Hx. rewrite (items_of_split _ _ _ Hj). apply elem_of_app. right. apply elem_of_app. by left. Qed.

Lemma block_sorted j st : done !! j = Some st -> sorted_items (st_items st).
Proof.
  intros Hj. pose proof Hsorted as Hs. rewrite (items_of_split _ _ _ Hj) in Hs.
  apply sorted_items_app in Hs as (_ & Hs & _). by apply sorted_items_app in Hs as [Hs _].
Qed.

(** a block's entries are not after its index key *)
Lemma block_le_index j st e x : done !! j = Some st -> idx !! j = Some e -> x ∈ st_items st -> ikey_cmp (i_key x) (i_key e) <= 0.
Proof.
  intros Hj He Hx. destruct (Hent j e He) as (st' & y & Hst' & Hy & _ & Hsok & Hle & _). assert (st' = st) as -> by congruence.
  pose proof (sorted_le_last _ _ _ (block_sorted j st Hj) Hx Hy) as Hxy. pose proof (last_elem _ _ Hy) as Hyin.
  destruct (Z.eq_dec (ikey_cmp (i_key x) (i_key y)) 0) as [E|E].
  - apply ikey_cmp_exact in E as ->; [done|by eapply item_ikey, block_items..].
  - assert (ikey_cmp (i_key x) (i_key e) < 0); [|lia]. eapply ikey_cmp_lt_le; [| | | |exact Hle];
      [by eapply item_ikey, block_items|by eapply item_ikey, block_items|done|lia].
Qed.

Lemma following_done j : following done [] j = items_of (drop (S j) done).
Proof. unfold following, all_items. apply app_nil_r. Qed.

Lemma later_block i j st x :
  (j < i)%nat -> done !! i = Some st -> x ∈ st_items st -> x ∈ items_of (drop (S j) done).
Proof.
  intros Hji Hi Hx. rewrite (items_of_split (drop (S j) done) (i - S j) st).
  - apply elem_of_app. right. apply elem_of_app. by left.
  - rewrite lookup_drop. by replace (S j + (i - S j))%nat with i by lia.
Qed.

Lemma drop_sorted j : sorted_items (items_of (drop j done)).
Proof.
  pose proof Hsorted as Hs. rewrite <- (take_drop j done) in Hs. unfold items_of in Hs at 1. rewrite map_app, concat_app in Hs.
  by apply sorted_items_app in Hs as (_ & Hs & _).
Qed.

(** an index key is before the entries of later blocks *)
Lemma index_lt_later i j st e x :
  (j < i)%nat -> done !! i = Some st -> x ∈ st_items st -> idx !! j = Some e -> ikey_cmp (i_key e) (i_key x) < 0.
Proof.
  intros Hji Hi Hx He. destruct (Hent j e He) as (st' & y & Hst' & Hy & _ & Hsok & _ & Hsep).
  pose proof (later_block i j st x Hji Hi Hx) as Hin. rewrite following_done in Hsep.
  destruct (items_of (drop (S j) done)) as [|b l] eqn:El; [by apply elem_of_nil in Hin|].
  cbn [head fmap option_fmap option_map] in Hsep. destruct Hsep as [Hb _].
  pose proof (drop_sorted (S j)) as Hds. rewrite El in Hds. pose proof Hds as [Hk _]. rewrite list.Forall_forall in Hk.
  eapply ikey_cmp_lt_le; [done|apply Hk; left|by apply Hk|exact Hb|]. by apply (sorted_head_le (b :: l)).
Qed.

Lemma done_lookup j : (j < length done)%nat -> exists st x, done !! j = Some st /\ x ∈ st_items st.
Proof.
  intros Hj. destruct (lookup_lt_is_Some_2 done j Hj) as [st Hst]. exists st. rewrite list.Forall_lookup in Hne.
  pose proof (Hne j st Hst) as Hn. destruct (st_items st) as [|x l]; [done|]. exists x. split; [done|by left].
Qed.

(** the index keys increase *)
Lemma index_sorted : sorted_items idx.
Proof.
  split.
  - apply list.Forall_lookup. intros j e He. by destruct (Hent j e He) as (st & x & _ & _ & _ & Hok & _).
  - intros i j x y Hij Hx Hy. pose proof (lookup_lt_Some _ _ _ Hy). destruct (done_lookup j) as (st & z & Hst & Hz); [lia|].
    destruct (Hent i x Hx) as (_ & _ & _ & _ & _ & Hokx & _). destruct (Hent j y Hy) as (_ & _ & _ & _ & _ & Hoky & _).
    eapply ikey_cmp_lt_le; [done| |done|by eapply (index_lt_later j i)|by eapply block_le_index].
    by eapply item_ikey, block_items.
Qed.

(** the position the index block gives for [k] *)
Definition index_pos (n : nat) : Prop :=
  (forall j e, (j < n)%nat -> idx !! j = Some e -> ikey_cmp (i_key e) k < 0) /\
  (forall e, idx !! n = Some e -> 0 <= ikey_cmp (i_key e) k).

(** everything in the blocks before it is before [k] *)
Lemma before_pos n : (n <= length done)%nat -> index_pos n -> before_key k (items_of (take n done)).
Proof.
  intros Hn [Hlt _]. apply list.Forall_forall. intros x Hx. apply elem_of_items_of in Hx as (j & st & Hj & Hx).
  apply lookup_take_Some in Hj as [Hj Hjn]. destruct (lookup_lt_is_Some_2 idx j) as [e He]; [lia|].
  destruct (Hent j e He) as (_ & _ & _ & _ & _ & Hok & _).
  eapply ikey_cmp_le_lt; [by eapply item_ikey, block_items|exact Hok|apply k_ok|by eapply block_le_index|by apply (Hlt j)].
Qed.

(** when the block itself is before [k], nothing after it has the user key of [k] *)
Lemma later_users n st e x :
  index_pos n -> done !! n = Some st -> idx !! n = Some e -> before_key k (st_items st) ->
  x ∈ items_of (drop (S n) done) -> forall v t, i_key x = ikey v t -> v <> u.
Proof.
  intros [_ Hge] Hst He Hb Hx v t Ex ->. specialize (Hge e He).
  destruct (Hent n e He) as (st' & y & Hst' & Hy & _ & Hok & _ & Hsep). assert (st' = st) as -> by congruence.
  rewrite following_done in Hsep. destruct (items_of (drop (S n) done)) as [|b l] eqn:El; [by apply elem_of_nil in Hx|].
  cbn [head fmap option_fmap option_map] in Hsep. destruct Hsep as [_ [Heq|(us & ts & ub & tb & Es & Eb & Hlex)]].
  - unfold before_key in Hb. rewrite list.Forall_forall in Hb. specialize (Hb y (last_elem _ _ Hy)). rewrite Heq in Hge. lia.
  - pose proof (drop_sorted (S n)) as Hds. rewrite El in Hds.
    pose proof (sorted_head_le (b :: l) b x Hds eq_refl Hx) as Hbx. destruct Hds as [Hk _]. rewrite list.Forall_forall in Hk.
    destruct (Hk b ltac:(by left)) as (ub' & tb' & Eb' & Htb'). destruct (Hk x Hx) as (ux & tx & Ex' & Htx).
    destruct Hok as (us' & ts' & Es' & Hts').
    assert (us' = us) as ->. { assert (Done us' = Done us) as [= E]; [|exact E]. by rewrite <- (ExtractUserKey_ikey us' ts'), <- Es', Es, ExtractUserKey_ikey. }
    assert (ub' = ub) as ->. { assert (Done ub' = Done ub) as [= E]; [|exact E]. by rewrite <- (ExtractUserKey_ikey ub' tb'), <- Eb', Eb, ExtractUserKey_ikey. }
    assert (ux = u) as ->. { assert (Done ux = Done u) as [= E]; [|exact E]. by rewrite <- (ExtractUserKey_ikey ux tx), <- Ex', Ex, ExtractUserKey_ikey. }
    rewrite Eb', Ex', ikey_cmp_spec in Hbx by done. rewrite Es' in Hge. unfold k in Hge. rewrite ikey_cmp_spec in Hge by done.
    assert (Hl : lex ub u <= 0).
    { destruct (Z.eq_dec (icompare ub tb' u tx) 0) as [E|E]; [apply icompare_eq in E as [-> _]; by rewrite lex_refl|].
      apply (icompare_lex ub tb' u tx). lia. }
    pose proof (icompare_user us ts' u tag (lex_lt_le _ _ _ Hlex Hl)). lia.
Qed.

(** a look-up in the block the index gives decides the look-up in the table *)
Lemma for_user_block n st e :
  index_pos n -> done !! n = Some st -> idx !! n = Some e ->
  for_user u (first_ge (map kv (items_of done)) k) = for_user u (first_ge (map kv (st_items st)) k).
Proof.
  intros Hpos Hst He. rewrite (items_of_split _ _ _ Hst). pose proof (lookup_lt_Some _ _ _ Hst).
  rewrite first_ge_app by (apply before_pos; [lia|done]).
  destruct (first_ge (map kv (st_items st)) k) as [q|] eqn:Eq.
  - f_equal. revert Eq. clear. induction (st_items st) as [|x l IH]; [done|]. simpl.
    by destruct (ikey_cmp (i_key x) k <? 0).
  - apply first_ge_none in Eq. rewrite first_ge_app by done. cbn [for_user].
    destruct (first_ge (map kv (items_of (drop (S n) done))) k) as [e'|] eqn:Ee; [|done].
    destruct (first_ge_some _ _ _ Ee) as (x & Hx & -> & _). unfold kv. cbn [for_user].
    destruct (ExtractUserKey (i_key x)) as [v| | | | |] eqn:Ev; try done. case_decide as Hv; [|done]. subst v. exfalso.
    assert (Hxk : ikey_ok (i_key x)).
    { apply item_ikey. rewrite (items_of_split _ _ _ Hst). apply elem_of_app. right. apply elem_of_app. by right. }
    destruct Hxk as (v & t & Ex & Ht). eapply (later_users n st e x); try done.
    rewrite Ex, ExtractUserKey_ikey in Ev. congruence.
Qed.

Lemma no_block n : (length done <= n)%nat -> index_pos n -> first_ge (map kv (items_of done)) k = None.
Proof.
  intros Hn [Hlt Hge]. assert (Hb : before_key k (items_of (take (length done) done))).
  { apply before_pos; [done|]. split; [intros j e Hj He; apply (Hlt j); [lia|done]|]. intros e He. apply lookup_lt_Some in He. lia. }
  rewrite firstn_all in Hb. rewrite <- (app_nil_r (items_of done)). by rewrite first_ge_app.
Qed.
End Index.

Section Read.
Context {R P C : Type} `{RandomAccessFileOk R} `{FilterPolicyOk P} `{CacheOk C Block} `{MachineOk} `{SnappyOk}.
Context (options : Options (InternalFilterPolicy P)) (Hcomparator : comparator options = InternalKeyComparator).
Context (Hpol : policies_ok options).
Context (rf : R) (done : list stored) (idx : list item) (irs : list Z) (footer : Footer).
Context (Hfile : finished_file options (file_content rf) done idx irs footer) (Hsorted : sorted_items (items_of done)).

Lemma content_small : blen (file_content rf) < 2 ^ 63.
Proof. pose proof (tf_size _ _ _ _ _ _ Hfile). lia. Qed.

Lemma read_block verify h raw :
  holds_block (file_content rf) h raw ->
  exists c h', ReadBlock rf verify h = Done (inl {| contents_data := raw; cachable := c; heap_allocated := h' |}).
Proof. intros Hh. apply ReadBlock_spec; [done|apply content_small]. Qed.

(** the filter of the open table *)
Definition filter_good (flt : option (FilterBlockReader (InternalFilterPolicy P))) : Prop :=
  match flt, filter_policy options with
  | None, None => True
  | Some rd, Some p =>
      (forall st x k, st ∈ done -> x ∈ st_items st -> same_key p (i_key x) k ->
         KeyMayMatch rd (handle_offset (st_handle st)) k = Done true) /\
      (forall o k, 0 <= o -> filter_key p k -> exists m : bool, KeyMayMatch rd o k = Done m)
  | _, _ => False
  end.

Lemma ReadMeta_spec : exists flt, ReadMeta options rf footer = Done flt /\ filter_good flt.
Proof.
  unfold ReadMeta, filter_good. pose proof (tf_meta _ _ _ _ _ _ Hfile) as Hm. unfold meta_written in Hm.
  destruct (filter_policy options) as [p|]; [|by exists None].
  destruct Hm as (fh & contents & (mits & mrs & Hit & Hsz & Hmb & Hkv) & Hfh & Hfb & rd & Erd & Hrd).
  destruct (read_block (paranoid_checks options) _ _ Hmb) as (c & h' & E). rewrite E. cbn [mbind outcome_bind contents_data].
  destruct (block_opens mits mrs Hit Hsz) as (blk & it & E1 & E2 & _ & Hc). rewrite E1. cbn [mbind outcome_bind]. rewrite E2.
  cbn [mbind outcome_bind bi_Seek].
  assert (Hcur : list_cursor bytewise (map kv mits) (cursor mits mrs)).
  { apply (items_cursor bytewise); [done|done| |]; rewrite Hkv; [by repeat constructor|].
    intros i j a b Hij Ha Hb. apply lookup_lt_Some in Ha, Hb. simpl in *. lia. }
  destruct (lc_seek _ _ _ Hcur it _ (filter_name p) Hc I) as (it' & n & E3 & Hc' & Hn). rewrite E3. cbn [mbind outcome_bind].
  assert (Hn0 : n = O).
  { destruct n as [|n]; [done|]. destruct (Hn O (filter_name p) (handle_bytes fh)) as [Hlt _]; [by rewrite Hkv|].
    specialize (Hlt ltac:(lia)). change (lex (filter_name p) (filter_name p) < 0) in Hlt. rewrite lex_refl in Hlt. lia. }
  subst n. destruct (lc_valid _ _ _ Hcur it' O Hc') as [_ Hv]. rewrite Hkv in Hv. cbn [bi_Valid]. rewrite Hv.
  destruct (lc_entry _ _ _ Hcur it' O (filter_name p) (handle_bytes fh) Hc') as [Ek Ev]; [by rewrite Hkv|].
  cbn [bi_key bi_value]. change (bool_decide _) with true. cbv iota. rewrite Ek. cbn [mbind outcome_bind].
  rewrite decide_True by done. rewrite Ev. cbn [mbind outcome_bind]. unfold ReadFilter.
  rewrite <- (app_nil_r (handle_bytes fh)), DecodeFrom_spec by done.
  destruct (read_block (paranoid_checks options) _ _ Hfb) as (c2 & h2 & E4). rewrite E4. cbn [mbind outcome_bind contents_data].
  rewrite Erd. cbn [mbind outcome_bind]. by exists (Some rd).
Qed.

(** the open table *)
Definition table_is (t : Table (R := R) (P := InternalFilterPolicy P)) (id : Z) : Prop :=
  table_options t = options /\ table_file t = rf /\ cache_id t = id /\ filter_good (table_filter t) /\
  make_Block (block_bytes idx irs) = Done (table_index_block t).

Lemma index_block_opens : exists blk, make_Block (block_bytes idx irs) = Done blk.
Proof.
  destruct (block_opens idx irs (tf_index _ _ _ _ _ _ Hfile) (tf_index_size _ _ _ _ _ _ Hfile)) as (blk & _ & E & _).
  by exists blk.
Qed.

Lemma Open_spec id :
  exists t, Open options rf (blen (file_content rf)) id = Done (inl t) /\ table_is t id.
Proof.
  destruct (tf_handles _ _ _ _ _ _ Hfile) as [Hih Hmh].
  destruct (tf_footer _ _ _ _ _ _ Hfile) as (pre & enc & Econt & Eenc).
  destruct (Footer_roundtrip footer Hmh Hih) as (enc' & Eenc' & Hl & Edec). assert (enc' = enc) as -> by congruence.
  pose proof (blen_nonneg pre). assert (Hsize : blen (file_content rf) = blen pre + kEncodedLength) by (by rewrite Econt, blen_app, Hl).
  unfold Open. rewrite Hsize, (proj2 (Z.ltb_ge _ _)) by lia. replace (blen pre + kEncodedLength - kEncodedLength) with (blen pre) by lia.
  destruct (random_Read_ok rf (blen pre) kEncodedLength ltac:(lia) ltac:(done)) as (own & E). rewrite E, Econt.
  rewrite blen_to_nat, drop_app_exact, <- Hl, blen_to_nat, take_ge by lia. rewrite Edec. cbn [mbind outcome_bind].
  destruct (read_block (paranoid_checks options) _ _ (tf_index_block _ _ _ _ _ _ Hfile)) as (c & h' & E1). rewrite E1.
  cbn [mbind outcome_bind contents_data]. destruct index_block_opens as (blk & E2). rewrite E2. cbn [mbind outcome_bind].
  destruct ReadMeta_spec as (flt & E3 & Hg). rewrite E3. cbn [mbind outcome_bind]. eexists. split; [done|].
  do 3 (split; [done|]). by split.
Qed.

(** *** Reading through the cache *)

(** the cache holds the right blocks under the keys of this table *)
Definition cache_good (id : Z) (cache : option C) : Prop :=
  match cache with
  | None => True
  | Some c => forall st b, st ∈ done -> cached c (cache_key id (handle_offset (st_handle st))) b -> make_Block (st_raw st) = Done b
  end.

Lemma cache_key_inj id a b : 0 <= a < 2 ^ 64 -> 0 <= b < 2 ^ 64 -> cache_key id a = cache_key id b -> a = b.
Proof.
  intros Ha Hb E. unfold cache_key in E. apply app_inv_head in E.
  assert (Done a = Done b) as [= Eab]; [|exact Eab].
  rewrite <- (Fixed64_roundtrip a []), <- (Fixed64_roundtrip b []) by done. by rewrite E.
Qed.

Lemma stored_in j st : done !! j = Some st -> stored_ok (file_content rf) (blen (file_content rf)) st /\ st ∈ done.
Proof.
  intros Hj. split; [|by eapply list_elem_of_lookup_2]. pose proof (tf_stored _ _ _ _ _ _ Hfile) as Hs.
  rewrite list.Forall_lookup in Hs. by eapply Hs.
Qed.

Lemma read_cached_spec t id cache ro j st :
  table_is t id -> cache_good id cache -> done !! j = Some st ->
  exists blk cache', read_cached t cache ro (st_handle st) = Done (inl blk, cache') /\ make_Block (st_raw st) = Done blk /\
    cache_good id cache'.
Proof.
  intros (Eo & Ef & Eid & _) Hc Hj. destruct (stored_in j st Hj) as [(Hit & Hne & Hsz & Hh & Hhok & _) Hin].
  destruct (block_opens _ _ Hit Hsz) as (blk & _ & Eb & _). change (block_bytes (st_items st) (st_restarts st)) with (st_raw st) in Eb.
  destruct (read_block (verify_checksums ro) _ _ Hh) as (cb & h' & E). unfold read_cached. rewrite Ef, Eid.
  destruct cache as [c|].
  2: { rewrite E. cbn [mbind outcome_bind contents_data]. rewrite Eb. by exists blk, None. }
  cbn [cache_good] in Hc. set (key := cache_key id (handle_offset (st_handle st))).
  destruct (cache_Lookup_ok c key) as [Hl1 Hl2]. destruct (cache_Lookup c key) as [c1 hit]. cbn [fst snd] in Hl1, Hl2.
  assert (Hc1 : cache_good id (Some c1)) by (intros st' b Hst' Hb; by apply (Hc st' b Hst'), Hl1).
  destruct hit as [b|]; [exists b, (Some c1); split; [done|]; split; [apply (Hc st b Hin), Hl2; done|done]|].
  rewrite E. cbn [mbind outcome_bind contents_data cachable]. rewrite Eb. cbn [mbind outcome_bind].
  exists blk. eexists. split; [done|]. split; [done|]. destruct (cb && fill_cache ro); [|done].
  intros st' b Hst' Hb. destruct (cache_Insert_ok _ _ _ _ _ Hb) as [[Ek ->]|Hb']; [|by apply Hc1].
  assert (st' = st) as ->; [|done]. apply (tf_distinct _ _ _ _ _ _ Hfile); [done|done|].
  pose proof (tf_stored _ _ _ _ _ _ Hfile) as Hs. rewrite list.Forall_forall in Hs. destruct (Hs st' Hst') as (_ & _ & _ & _ & [Ho' _] & _).
  destruct Hhok as [Ho _]. unfold unset in *. apply (cache_key_inj id) in Ek; [done|lia|lia].
Qed.

(** *** [InternalGet] *)

Lemma internal_cursor its rs :
  items_ok its rs -> blen (block_bytes its rs) < 2 ^ 32 -> sorted_items its -> list_cursor Internal.Compare (map kv its) (cursor its rs).
Proof.
  intros Hit Hsz [Hk Hs]. apply (items_cursor Internal.Compare); [done|done| |].
  - apply list.Forall_fmap. exact Hk.
  - intros i j a b Hij Ha Hb. rewrite list_lookup_fmap in Ha, Hb. destruct (its !! i) as [x|] eqn:Ex; [|done].
    destruct (its !! j) as [y|] eqn:Ey; [|done]. injection Ha as <-. injection Hb as <-. by apply (Hs i j).
Qed.

(** a seek in an open block *)
Lemma block_seek its rs blk k :
  items_ok its rs -> blen (block_bytes its rs) < 2 ^ 32 -> sorted_items its -> ikey_ok k -> make_Block (block_bytes its rs) = Done blk ->
  exists it it' n, NewIterator blk = Done (BlockIter it) /\ Seek Internal.Compare it k = Done it' /\ it_status it' = OK /\
    Valid it' = bool_decide (n < length its)%nat /\
    (forall x, its !! n = Some x -> iter_key it' = Done (i_key x) /\ iter_value it' = Done (i_value x)) /\
    (forall j x, its !! j = Some x -> ((j < n)%nat -> ikey_cmp (i_key x) k < 0) /\ (j = n -> 0 <= ikey_cmp (i_key x) k)).
Proof.
  intros Hit Hsz Hs Hk Eb. destruct (block_opens its rs Hit Hsz) as (blk' & it & Eb' & E2 & _ & Hc).
  assert (blk' = blk) as -> by congruence. pose proof (internal_cursor its rs Hit Hsz Hs) as Hcur.
  rewrite <- (length_map kv its) in Hc.
  destruct (lc_seek _ _ _ Hcur it _ k Hc Hk) as (it' & n & E3 & Hc' & Hn). exists it, it', n. split; [done|]. split; [done|].
  split; [by apply (cursor_over its rs it' n Hc')|]. destruct (lc_valid _ _ _ Hcur it' n Hc') as [_ Hv]. rewrite length_map in Hv.
  split; [done|]. split.
  - intros x Hx. apply (lc_entry _ _ _ Hcur it' n (i_key x) (i_value x) Hc'). by rewrite list_lookup_fmap, Hx.
  - intros j x Hx. apply (Hn j (i_key x) (i_value x)). by rewrite list_lookup_fmap, Hx.
Qed.

Lemma filtered_out_spec t id j st e k :
  table_is t id -> done !! j = Some st -> i_value e = handle_bytes (st_handle st) ->
  match filter_policy options with Some p => filter_key p k | None => True end ->
  exists out, filtered_out t (i_value e) k = Done out /\
    (out = true -> forall x, x ∈ st_items st -> match filter_policy options with Some p => ~ same_key p (i_key x) k | None => False end).
Proof.
  intros (_ & _ & _ & Hg & _) Hj Ev Hk. destruct (stored_in j st Hj) as [(_ & _ & _ & _ & Hhok & _) Hin].
  unfold filtered_out, filter_good in *. destruct (table_filter t) as [rd|]; [|by exists false].
  rewrite Ev, <- (app_nil_r (handle_bytes (st_handle st))), DecodeFrom_spec by done.
  destruct (filter_policy options) as [p|]; [|done]. destruct Hg as [Hg1 Hg2]. pose proof Hhok as [[Ho _] _].
  destruct (Hg2 (handle_offset (st_handle st)) k Ho Hk) as (m & Em). rewrite Em. cbn [mbind outcome_bind]. exists (negb m).
  split; [done|]. intros Hm x Hx Hsame. rewrite (Hg1 st x k Hin Hx Hsame) in Em. injection Em as <-. done.
Qed.

Lemma InternalGet_spec t id cache ro u tag :
  table_is t id -> cache_good id cache -> 0 <= tag < 2 ^ 64 ->
  match filter_policy options with Some p => filter_key p (ikey u tag) | None => True end ->
  exists result cache', InternalGet t cache ro (ikey u tag) = Done (result, OK, cache') /\ cache_good id cache' /\
    (forall e, result = Some e -> e ∈ map kv (items_of done)) /\
    for_user u result = for_user u (first_ge (map kv (items_of done)) (ikey u tag)).
Proof.
  intros Ht Hc Htag Hfk. pose proof (tf_index_size _ _ _ _ _ _ Hfile) as Hisz. pose proof Ht as (Eo & Ef & Eid & Hg & Eib).
  pose proof (tf_length _ _ _ _ _ _ Hfile) as Hlen. pose proof (tf_entries _ _ _ _ _ _ Hfile) as Hent.
  assert (Hne : Forall (fun st => st_items st <> []) done).
  { eapply list.Forall_impl; [apply (tf_stored _ _ _ _ _ _ Hfile)|]. intros st Hst. apply Hst. }
  pose proof (index_sorted done idx Hsorted Hne Hlen Hent) as Hixs.
  assert (Hkok : ikey_ok (ikey u tag)) by (by exists u, tag).
  destruct (block_seek idx irs _ (ikey u tag) (tf_index _ _ _ _ _ _ Hfile) Hisz Hixs Hkok Eib) as (it & it' & n & E1 & E2 & Est & Ev & Ekv & Hn).
  unfold InternalGet. rewrite Eo, Hcomparator. cbn [comparator_Compare InternalKeyComparator]. rewrite E1. cbn [mbind outcome_bind bi_Seek].
  rewrite E2. cbn [mbind outcome_bind bi_Valid bi_value]. rewrite Ev.
  assert (Hpos : index_pos idx u tag n).
  { split; [intros j e Hj He; by apply (Hn j e He)|]. intros e He. by apply (Hn n e He). }
  destruct (decide (n < length idx)%nat) as [Hlt|Hge].
  2: { rewrite bool_decide_eq_false_2 by done. cbn [mbind outcome_bind bi_status]. rewrite decide_True, Est by done.
       exists None, cache. split; [done|]. split; [done|]. split; [done|]. by rewrite (no_block done idx Hsorted Hlen Hent u tag Htag n) by (done || lia). }
  rewrite bool_decide_eq_true_2 by done. destruct (lookup_lt_is_Some_2 idx n Hlt) as [e He].
  destruct (Ekv e He) as [_ Ehv]. rewrite Ehv. cbn [mbind outcome_bind].
  destruct (Hent n e He) as (st & y & Hst & _ & Eval & _).
  rewrite (for_user_block done idx Hsorted Hlen Hent u tag Htag n st e Hpos Hst He).
  destruct (filtered_out_spec t id n st e (ikey u tag) Ht Hst Eval Hfk) as (out & Eout & Hout). rewrite Eout. cbn [mbind outcome_bind].
  destruct out.
  - cbn [mbind outcome_bind bi_status]. rewrite decide_True, Est by done. exists None, cache. split; [done|]. split; [done|]. split; [done|].
    destruct (first_ge (map kv (st_items st)) (ikey u tag)) as [q|] eqn:Eq; [|done]. destruct (first_ge_some _ _ _ Eq) as (x & Hx & -> & _).
    unfold kv. cbn [for_user]. destruct (ExtractUserKey (i_key x)) as [v| | | | |] eqn:Eu; try done. destruct (decide (v = u)) as [->|]; [|done]. exfalso.
    specialize (Hout eq_refl x Hx). destruct (filter_policy options) as [p|]; [|done]. apply Hout.
    assert (Hxk : ikey_ok (i_key x)) by (eapply item_ikey; [done|]; by eapply block_items).
    destruct Hxk as (v & t' & Ex & _). rewrite Ex, ExtractUserKey_ikey in Eu. injection Eu as ->. rewrite Ex.
    destruct Hfk as (u' & t'' & Eu' & Hu'). exists u, u, t', tag. split; [done|]. split; [done|]. apply same_key_refl.
    assert (Done u = Done u') as [= ->]; [|done]. by rewrite <- (ExtractUserKey_ikey u tag), Eu', ExtractUserKey_ikey.
  - unfold BlockReader. destruct (stored_in n st Hst) as [(Hit & _ & Hsz & _ & Hhok & _) Hin].
    rewrite Eval, <- (app_nil_r (handle_bytes _)), DecodeFrom_spec by done.
    destruct (read_cached_spec t id cache ro n st Ht Hc Hst) as (blk & cache' & E3 & Eblk & Hc'). rewrite E3. cbn [mbind outcome_bind].
    destruct (block_seek (st_items st) (st_restarts st) blk (ikey u tag) Hit Hsz) as (bt & bt' & m & E4 & E5 & Est' & Ev' & Ekv' & Hm);
      [by eapply block_sorted|done|done|].
    rewrite E4. cbn [mbind outcome_bind bi_Seek]. rewrite E5. cbn [mbind outcome_bind bi_Valid bi_key bi_value bi_status]. rewrite Ev', Est'.
    assert (Hfg : first_ge (map kv (st_items st)) (ikey u tag) = map kv (st_items st) !! m).
    { apply seek_first_ge. intros j key v Hj. rewrite list_lookup_fmap in Hj. destruct (st_items st !! j) as [x|] eqn:Ex; [|done].
      injection Hj as <- <-. by apply (Hm j x). }
    rewrite Hfg, list_lookup_fmap. destruct (st_items st !! m) as [x|] eqn:Ex.
    + destruct (Ekv' x eq_refl) as [Ek Evv]. pose proof (lookup_lt_Some _ _ _ Ex). rewrite bool_decide_eq_true_2 by done. rewrite Ek.
      cbn [mbind outcome_bind]. rewrite Evv. cbn [mbind outcome_bind]. rewrite decide_True, Est by done. exists (Some (kv x)), cache'.
      split; [done|]. split; [done|]. split; [|done]. intros ? [= <-]. apply list_elem_of_fmap_2. eapply block_items; [done|].
      by eapply list_elem_of_lookup_2.
    + apply lookup_ge_None in Ex. rewrite bool_decide_eq_false_2 by lia. cbn [mbind outcome_bind]. rewrite decide_True, Est by done.
      by exists None, cache'.
Qed.
End Read.
