(* ===== verification/TableTheorems.v ===== *)
(** * TableTheorems: tables, from building to reading *)

From Stdlib.Strings Require Import Byte.
From S2P Require Import Prelude Status Coding DbFormat WriteBatch Crc32c Log LogSpec Bloom FilterBlock Block BlockSpec Format TableBuilder Table TableSpec.

Section Build.
Context {F P : Type} `{WritableFile F} `{FilterPolicy P} `{Machine} `{Snappy}.
Variable options : Options P.

(** a table of a list of entries: [Add] of each, then [Finish] *)
Fixpoint add_entries (r : Rep (F := F) (P := P)) (es : list (bytes * bytes)) : outcome (Rep (F := F) (P := P)) :=
  match es with [] => Done r | (key, value) :: es' => r ← Add options r key value; add_entries r es' end.

Definition build_table (f : F) (es : list (bytes * bytes)) : outcome (Rep (F := F) (P := P) * bool) :=
  r ← make_TableBuilder options f;
  r ← add_entries r es;
  Finish options r.
End Build.

(** entries in the order of internal keys *)
Definition sorted_entries (es : list (bytes * bytes)) : Prop :=
  sorted_items (map (fun e : bytes * bytes => fresh e.1 e.2) es).

Section Table.
Context {F P R C : Type} `{WritableFileOk F} `{FilterPolicyOk P} `{RandomAccessFileOk R} `{CacheOk C Block} `{MachineOk} `{SnappyOk}.
Implicit Types es : list (bytes * bytes).

(** keys the filter policy can take *)
Definition filterable (options : Options (InternalFilterPolicy P)) (key : bytes) : Prop :=
  match filter_policy options with Some p => filter_key p key | None => True end.

(** the options a table is built and read with *)
Definition options_ok (options : Options (InternalFilterPolicy P)) : Prop :=
  comparator options = InternalKeyComparator /\ 1 <= options_restart_interval options /\ policies_ok options.

(** a table of less than a gigabyte *)
Definition table_fits (options : Options (InternalFilterPolicy P)) es : Prop :=
  6 * kv_weight es + 2 * filter_room options (length es) + 200 < 2 ^ 30.

Lemma map_kv_fresh es : map kv (map (fun e : bytes * bytes => fresh e.1 e.2) es) = es.
Proof. rewrite map_map. rewrite <- (map_id es) at 2. apply map_ext. by intros [k v]. Qed.

Lemma kv_weight_app es1 es2 : kv_weight (es1 ++ es2) = kv_weight es1 + kv_weight es2.
Proof. induction es1 as [|e es1 IH]; [done|]. simpl. rewrite IH. lia. Qed.
Lemma kv_weight_nonneg es : 0 <= kv_weight es.
Proof. induction es as [|[k v] es IH]; [done|]. simpl. pose proof (blen_nonneg k). pose proof (blen_nonneg v). lia. Qed.

Lemma add_entries_spec options es (r : Rep (F := F)) done cur idx before :
  options_ok options -> table_inv options r done cur idx -> map kv (all_items done cur) = before ->
  sorted_entries (before ++ es) -> kv_weight (before ++ es) < 2 ^ 30 -> Forall (fun e => filterable options e.1) es ->
  exists r' done' cur' idx', add_entries options r es = Done r' /\ table_inv options r' done' cur' idx' /\
    map kv (all_items done' cur') = before ++ es.
Proof.
  intros (Hcmp & Hint & Hpol). revert r done cur idx before; induction es as [|[key value] es IH]; intros r done cur idx before Hi Hb Hs Hw Hf.
  { exists r, done, cur, idx. by rewrite app_nil_r. }
  apply list.Forall_cons in Hf as [Hf1 Hf2]. cbn [add_entries].
  destruct (table_Add_spec options Hcmp r done cur idx key value Hi) as (r1 & done1 & cur1 & idx1 & E & Hi1 & Hkv1); [| |done|].
  - assert (Hs' : sorted_items (map (fun e : bytes * bytes => fresh e.1 e.2) (before ++ [(key, value)]))).
    { revert Hs. unfold sorted_entries. change (before ++ (key, value) :: es) with (before ++ [(key, value)] ++ es).
      rewrite app_assoc, map_app. intros Hs. by apply sorted_items_app in Hs as [Hs _]. }
    eapply sorted_items_kv; [|exact Hs']. rewrite map_kv_fresh, map_app, Hb. done.
  - rewrite weight_kv, Hb. rewrite kv_weight_app in Hw. simpl in Hw. pose proof (kv_weight_nonneg es). lia.
  - rewrite E. cbn [mbind outcome_bind]. rewrite Hb in Hkv1.
    destruct (IH r1 done1 cur1 idx1 (before ++ [(key, value)]) Hi1 Hkv1) as (r' & done' & cur' & idx' & E' & Hi' & Hkv');
      [by rewrite <- app_assoc|by rewrite <- app_assoc|done|].
    exists r', done', cur', idx'. rewrite <- app_assoc in Hkv'. done.
Qed.

Lemma sorted_kv_entries l es : map kv l = es -> sorted_entries es -> sorted_items l.
Proof. intros E Hs. eapply sorted_items_kv; [|exact Hs]. by rewrite map_kv_fresh. Qed.

(** building from sorted entries completes a file with their index *)
Lemma build_table_spec options (f : F) es :
  options_ok options -> written f = [] -> sorted_entries es -> Forall (fun e => filterable options e.1) es -> table_fits options es ->
  exists r0 r1 r done idx irs footer, make_TableBuilder options f = Done r0 /\ add_entries options r0 es = Done r1 /\
    Finish options r1 = Done (r, true) /\ FileSize r = blen (written (file r)) /\
    finished_file options (written (file r)) done idx irs footer /\ map kv (items_of done) = es /\ sorted_items (items_of done).
Proof.
  intros Hopt Hf Hs Hfl Hfit. pose proof Hopt as (Hcmp & Hint & Hpol). unfold table_fits in Hfit.
  pose proof (filter_room_nonneg options (length es) Hpol). pose proof (kv_weight_nonneg es).
  destruct (make_TableBuilder_spec options Hint f Hf Hpol) as (r0 & E0 & Hi0).
  destruct (add_entries_spec options es r0 [] [] [] [] Hopt Hi0 eq_refl Hs) as (r1 & done1 & cur & idx & E1 & Hi1 & Hkv); [simpl; lia|done|].
  cbn [app] in Hkv.
  destruct (table_Finish_spec options Hcmp Hint r1 done1 cur idx Hi1) as (r & done' & idx' & irs & footer & E2 & _ & Hsz & Hfile & Hitems).
  { by eapply sorted_kv_entries. }
  { done. }
  { rewrite weight_kv, Hkv. rewrite <- (length_map kv), Hkv. lia. }
  exists r0, r1, r, done', idx', irs, footer. do 5 (split; [done|]). rewrite Hitems. split; [done|]. by eapply sorted_kv_entries.
Qed.

(** C12: A table is the sorted list it was built of.  [TableBuilder] accepts
    increasing internal keys and completes the file; [Table::Open] opens it, with
    its filter; and every [InternalGet], with or without a block cache, finds the
    first entry that is not before the key looked for, when that entry has the
    user key, and else no entry of that user key: no filter, separator or cached
    block hides an entry or makes one up. *)
Theorem table_is_sorted_list options (f : F) es :
  options_ok options -> written f = [] -> sorted_entries es -> Forall (fun e => filterable options e.1) es -> table_fits options es ->
  exists r, build_table options f es = Done (r, true) /\ FileSize r = blen (written (file r)) /\
    forall (rf : R) id, file_content rf = written (file r) ->
      exists t (good : option C -> Prop), Open options rf (FileSize r) id = Done (inl t) /\
        good None /\ (forall c, (forall o b, ~ cached c (cache_key id o) b) -> good (Some c)) /\
        forall cache ro u tag, good cache -> 0 <= tag < 2 ^ 64 -> filterable options (ikey u tag) ->
          exists result cache', InternalGet t cache ro (ikey u tag) = Done (result, OK, cache') /\ good cache' /\
            (forall e, result = Some e -> e ∈ es) /\ for_user u result = for_user u (first_ge es (ikey u tag)).
Proof.
  intros Hopt Hf Hs Hfl Hfit. pose proof Hopt as (Hcmp & _ & _).
  destruct (build_table_spec options f es Hopt Hf Hs Hfl Hfit) as (r0 & r1 & r & done' & idx' & irs & footer & E0 & E1 & E2 & Hsz & Hfile & Hitems & Hsorted).
  exists r. unfold build_table. rewrite E0. cbn [mbind outcome_bind]. rewrite E1. cbn [mbind outcome_bind]. split; [done|]. split; [done|].
  intros rf id Erf. rewrite <- Erf in *. rewrite Hsz.
  destruct (Open_spec options rf done' idx' irs footer Hfile id) as (t & Eo & Ht).
  exists t, (cache_good done' id). split; [done|]. split; [done|]. split.
  { intros c Hc st b _ Hb. by apply Hc in Hb. }
  intros cache ro u tag Hg Htag Hfk. rewrite <- Hitems.
  by eapply (InternalGet_spec options Hcmp rf done' idx' irs footer Hfile).
Qed.
End Table.

(** ** A cache that keeps everything, and a table to run *)

#[export] Instance list_cache {V} : Cache (list (bytes * V)) V := {|
  cache_Lookup c k := (c, match list_find (fun e : bytes * V => e.1 = k) c with Some (_, e) => Some e.2 | None => None end);
  cache_Insert c k v := (k, v) :: c;
  cache_Erase c k := filter (fun e : bytes * V => e.1 <> k) c |}.
#[export] Instance list_cache_ok {V} : CacheOk (list (bytes * V)) V.
Proof.
  refine {| cached c k v := (k, v) ∈ c |}.
  - intros c k. split; [done|]. cbn. intros v. destruct (list_find _ c) as [[i [k' v']]|] eqn:E; [|done].
    intros [= <-]. apply list_find_Some in E as (Hi & <- & _). by eapply list_elem_of_lookup_2.
  - intros c k v k' v' Hin. apply elem_of_cons in Hin as [[= -> ->]|Hin]; [by left|by right].
  - intros c k k' v' Hin. by apply list_elem_of_filter in Hin.
Defined.

Existing Instance plain_machine.
Existing Instance plain_machine_ok.

Definition example_options : Options (InternalFilterPolicy BloomFilterPolicy) := {|
  comparator := InternalKeyComparator; paranoid_checks := true; block_size := 40; options_restart_interval := 2;
  compression := kSnappyCompression; filter_policy := Some {| user_policy_ := make_BloomFilterPolicy 10 |} |}.

Definition example_entries : list (bytes * bytes) :=
  [(ikey (text "apple") 1281, text "5"); (ikey (text "apple") 513, text "2"); (ikey (text "banana") 769, text "3");
   (ikey (text "cherry") 1024, [])].

Lemma example_entries_sorted : sorted_entries example_entries.
Proof.
  split.
  - repeat constructor; eexists _, _; (split; [reflexivity|]); lia.
  - intros i j x y Hij Hx Hy. destruct i as [|[|[|[|i]]]], j as [|[|[|[|j]]]]; try lia; simpl in Hx, Hy; simplify_eq; reflexivity.
Qed.

Lemma table_is_sorted_list_witness :
  exists (r : Rep (F := bytes)) (t : Table (R := bytes)) (good : option (list (bytes * Block)) -> Prop),
    build_table example_options [] example_entries = Done (r, true) /\
    Open example_options (file r) (FileSize r) 7 = Done (inl t) /\ good (Some []) /\
    forall cache ro u tag, good cache -> 0 <= tag < 2 ^ 64 -> exists result cache',
      InternalGet t cache ro (ikey u tag) = Done (result, OK, cache') /\ good cache' /\
      (forall e, result = Some e -> e ∈ example_entries) /\
      for_user u result = for_user u (first_ge example_entries (ikey u tag)).
Proof.
  assert (Hf : Forall (fun e : bytes * bytes => filterable example_options e.1) example_entries).
  { repeat constructor; (eexists _, _; split; [reflexivity|exact I]). }
  destruct (table_is_sorted_list (R := bytes) (C := list (bytes * Block)) example_options [] example_entries)
    as (r & E & _ & Hopen).
  - split; [reflexivity|]. split; [cbn; lia|]. apply make_BloomFilterPolicy_ok. lia.
  - reflexivity.
  - exact example_entries_sorted.
  - exact Hf.
  - reflexivity.
  - destruct (Hopen (file r) 7 eq_refl) as (t & good & Eo & _ & Hempty & Hget). exists r, t, good.
    split; [exact E|]. split; [exact Eo|]. split; [apply Hempty; intros o b Hb; by apply elem_of_nil in Hb|].
    intros cache ro u tag Hg Ht. apply (Hget cache ro u tag Hg Ht). exists u, tag. by split.
Defined.
