(* ===== verification/VersionEdit.v ===== *)
(** * VersionEdit: db/version_edit.h and db/version_edit.cc

    The change from one version of the database's files to the next, and the
    record it is written as in the manifest.  [std::set] is a list in increasing
    order; a file's reference count is not modelled. *)

From Stdlib.Strings Require Import Byte.
From Stdlib.Sorting Require Import Sorted.
From stdpp Require Import sorting.
From S2P Require Import Prelude Status Coding DbFormat WriteBatch.

(** ** [config] and [InternalKey] of db/dbformat.h *)

Definition kNumLevels : Z := 7.

(** an [InternalKey] is its [rep_] *)
Definition InternalKey_Encode (rep_ : bytes) : outcome bytes := _ ← c_assert (negb (bool_decide (rep_ = []))); Done rep_.
Definition InternalKey_DecodeFrom (s : bytes) : bytes * bool := (s, negb (bool_decide (s = []))).

(** ** The data *)

Record FileMetaData := {
  allowed_seeks : Z; number : Z; file_size : Z; smallest : bytes; largest : bytes }.
#[export] Instance FileMetaData_eq_dec : EqDecision FileMetaData.
Proof. solve_decision. Defined.

Record VersionEdit := {
  comparator_ : bytes; log_number_ : Z; prev_log_number_ : Z; next_file_number_ : Z; last_sequence_ : Z;
  has_comparator_ : bool; has_log_number_ : bool; has_prev_log_number_ : bool; has_next_file_number_ : bool;
  has_last_sequence_ : bool;
  compact_pointers_ : list (Z * bytes); deleted_files_ : list (Z * Z); new_files_ : list (Z * FileMetaData) }.

(** [compact_pointers_] is left as it is *)
Definition Clear (e : VersionEdit) : VersionEdit :=
  {| comparator_ := []; log_number_ := 0; prev_log_number_ := 0; next_file_number_ := 0; last_sequence_ := 0;
     has_comparator_ := false; has_log_number_ := false; has_prev_log_number_ := false; has_next_file_number_ := false;
     has_last_sequence_ := false;
     compact_pointers_ := compact_pointers_ e; deleted_files_ := []; new_files_ := [] |}.

Definition make_VersionEdit : VersionEdit :=
  {| comparator_ := []; log_number_ := 0; prev_log_number_ := 0; next_file_number_ := 0; last_sequence_ := 0;
     has_comparator_ := false; has_log_number_ := false; has_prev_log_number_ := false; has_next_file_number_ := false;
     has_last_sequence_ := false; compact_pointers_ := []; deleted_files_ := []; new_files_ := [] |}.

Definition SetComparatorName (name : bytes) (e : VersionEdit) : VersionEdit :=
  {| comparator_ := name; log_number_ := log_number_ e; prev_log_number_ := prev_log_number_ e;
     next_file_number_ := next_file_number_ e; last_sequence_ := last_sequence_ e;
     has_comparator_ := true; has_log_number_ := has_log_number_ e; has_prev_log_number_ := has_prev_log_number_ e;
     has_next_file_number_ := has_next_file_number_ e; has_last_sequence_ := has_last_sequence_ e;
     compact_pointers_ := compact_pointers_ e; deleted_files_ := deleted_files_ e; new_files_ := new_files_ e |}.

Definition SetLogNumber (num : Z) (e : VersionEdit) : VersionEdit :=
  {| comparator_ := comparator_ e; log_number_ := num; prev_log_number_ := prev_log_number_ e;
     next_file_number_ := next_file_number_ e; last_sequence_ := last_sequence_ e;
     has_comparator_ := has_comparator_ e; has_log_number_ := true; has_prev_log_number_ := has_prev_log_number_ e;
     has_next_file_number_ := has_next_file_number_ e; has_last_sequence_ := has_last_sequence_ e;
     compact_pointers_ := compact_pointers_ e; deleted_files_ := deleted_files_ e; new_files_ := new_files_ e |}.

Definition SetPrevLogNumber (num : Z) (e : VersionEdit) : VersionEdit :=
  {| comparator_ := comparator_ e; log_number_ := log_number_ e; prev_log_number_ := num;
     next_file_number_ := next_file_number_ e; last_sequence_ := last_sequence_ e;
     has_comparator_ := has_comparator_ e; has_log_number_ := has_log_number_ e; has_prev_log_number_ := true;
     has_next_file_number_ := has_next_file_number_ e; has_last_sequence_ := has_last_sequence_ e;
     compact_pointers_ := compact_pointers_ e; deleted_files_ := deleted_files_ e; new_files_ := new_files_ e |}.

Definition SetNextFile (num : Z) (e : VersionEdit) : VersionEdit :=
  {| comparator_ := comparator_ e; log_number_ := log_number_ e; prev_log_number_ := prev_log_number_ e;
     next_file_number_ := num; last_sequence_ := last_sequence_ e;
     has_comparator_ := has_comparator_ e; has_log_number_ := has_log_number_ e; has_prev_log_number_ := has_prev_log_number_ e;
     has_next_file_number_ := true; has_last_sequence_ := has_last_sequence_ e;
     compact_pointers_ := compact_pointers_ e; deleted_files_ := deleted_files_ e; new_files_ := new_files_ e |}.

Definition SetLastSequence (seq : Z) (e : VersionEdit) : VersionEdit :=
  {| comparator_ := comparator_ e; log_number_ := log_number_ e; prev_log_number_ := prev_log_number_ e;
     next_file_number_ := next_file_number_ e; last_sequence_ := seq;
     has_comparator_ := has_comparator_ e; has_log_number_ := has_log_number_ e; has_prev_log_number_ := has_prev_log_number_ e;
     has_next_file_number_ := has_next_file_number_ e; has_last_sequence_ := true;
     compact_pointers_ := compact_pointers_ e; deleted_files_ := deleted_files_ e; new_files_ := new_files_ e |}.

(** the three lists replaced *)
Definition with_lists (e : VersionEdit) cp del new : VersionEdit :=
  {| comparator_ := comparator_ e; log_number_ := log_number_ e; prev_log_number_ := prev_log_number_ e;
     next_file_number_ := next_file_number_ e; last_sequence_ := last_sequence_ e;
     has_comparator_ := has_comparator_ e; has_log_number_ := has_log_number_ e; has_prev_log_number_ := has_prev_log_number_ e;
     has_next_file_number_ := has_next_file_number_ e; has_last_sequence_ := has_last_sequence_ e;
     compact_pointers_ := cp; deleted_files_ := del; new_files_ := new |}.

Definition SetCompactPointer (level : Z) (key : bytes) (e : VersionEdit) : VersionEdit :=
  with_lists e (compact_pointers_ e ++ [(level, key)]) (deleted_files_ e) (new_files_ e).

(** [std::set::insert] of pairs *)
Definition pair_ltb (a b : Z * Z) : bool := (a.1 <? b.1) || ((a.1 =? b.1) && (a.2 <? b.2)).
Fixpoint set_insert (x : Z * Z) (s : list (Z * Z)) : list (Z * Z) :=
  match s with
  | [] => [x]
  | y :: s' => if pair_ltb x y then x :: s else if pair_ltb y x then y :: set_insert x s' else s
  end.

Definition RemoveFile (level file : Z) (e : VersionEdit) : VersionEdit :=
  with_lists e (compact_pointers_ e) (set_insert (level, file) (deleted_files_ e)) (new_files_ e).

Definition add_new_file (level : Z) (f : FileMetaData) (e : VersionEdit) : VersionEdit :=
  with_lists e (compact_pointers_ e) (deleted_files_ e) (new_files_ e ++ [(level, f)]).

Definition AddFile (level file size : Z) (small large : bytes) (e : VersionEdit) : VersionEdit :=
  add_new_file level {| allowed_seeks := Z.shiftl 1 30; number := file; file_size := size; smallest := small; largest := large |} e.

(** ** Encoding *)

Inductive Tag := kComparator | kLogNumber | kNextFileNumber | kLastSequence | kCompactPointer | kDeletedFile | kNewFile
  | kPrevLogNumber.
Definition tag_code (t : Tag) : Z :=
  match t with kComparator => 1 | kLogNumber => 2 | kNextFileNumber => 3 | kLastSequence => 4 | kCompactPointer => 5
  | kDeletedFile => 6 | kNewFile => 7 | kPrevLogNumber => 9 end.

Definition put_number (has : bool) (t : Tag) (n : Z) (dst : bytes) : bytes :=
  if has then PutVarint64 (PutVarint32 dst (tag_code t)) n else dst.

Fixpoint put_compact_pointers (l : list (Z * bytes)) (dst : bytes) : outcome bytes :=
  match l with
  | [] => Done dst
  | (level, k) :: l' =>
      key ← InternalKey_Encode k;
      put_compact_pointers l' (PutLengthPrefixedSlice (PutVarint32 (PutVarint32 dst (tag_code kCompactPointer)) (u32 level)) key)
  end.

Fixpoint put_deleted_files (l : list (Z * Z)) (dst : bytes) : bytes :=
  match l with
  | [] => dst
  | (level, file) :: l' => put_deleted_files l' (PutVarint64 (PutVarint32 (PutVarint32 dst (tag_code kDeletedFile)) (u32 level)) file)
  end.

Fixpoint put_new_files (l : list (Z * FileMetaData)) (dst : bytes) : outcome bytes :=
  match l with
  | [] => Done dst
  | (level, f) :: l' =>
      let dst := PutVarint32 (PutVarint32 dst (tag_code kNewFile)) (u32 level) in
      let dst := PutVarint64 (PutVarint64 dst (number f)) (file_size f) in
      small ← InternalKey_Encode (smallest f);
      let dst := PutLengthPrefixedSlice dst small in
      large ← InternalKey_Encode (largest f);
      put_new_files l' (PutLengthPrefixedSlice dst large)
  end.

Definition EncodeTo (e : VersionEdit) (dst : bytes) : outcome bytes :=
  let dst := if has_comparator_ e then PutLengthPrefixedSlice (PutVarint32 dst (tag_code kComparator)) (comparator_ e) else dst in
  let dst := put_number (has_log_number_ e) kLogNumber (log_number_ e) dst in
  let dst := put_number (has_prev_log_number_ e) kPrevLogNumber (prev_log_number_ e) dst in
  let dst := put_number (has_next_file_number_ e) kNextFileNumber (next_file_number_ e) dst in
  let dst := put_number (has_last_sequence_ e) kLastSequence (last_sequence_ e) dst in
  dst ← put_compact_pointers (compact_pointers_ e) dst;
  put_new_files (new_files_ e) (put_deleted_files (deleted_files_ e) dst).

(** ** Decoding *)

Definition GetInternalKey (input : bytes) : option (bytes * bytes) :=
  '(str, input) ← GetLengthPrefixedSlice input;
  let (dst, ok) := InternalKey_DecodeFrom str in
  if (ok : bool) then Some (dst, input) else None.

Definition GetLevel (input : bytes) : option (Z * bytes) :=
  '(v, input) ← GetVarint32 input;
  if v <? kNumLevels then Some (v, input) else None.

(** [default] of the switch is [None] *)
Definition tag_of_code (c : Z) : option Tag :=
  match c with
  | 1 => Some kComparator | 2 => Some kLogNumber | 3 => Some kNextFileNumber | 4 => Some kLastSequence
  | 5 => Some kCompactPointer | 6 => Some kDeletedFile | 7 => Some kNewFile | 9 => Some kPrevLogNumber | _ => None
  end.

(** what follows a tag: the edit with it and the rest of the input, or the message *)
Definition decode_number (set_ : Z -> VersionEdit -> VersionEdit) (msg : bytes) (e : VersionEdit) (input : bytes)
    : VersionEdit * bytes + bytes :=
  match GetVarint64 input with Some (n, input) => inl (set_ n e, input) | None => inr msg end.

Definition decode_field (t : Tag) (e : VersionEdit) (input : bytes) : VersionEdit * bytes + bytes :=
  match t with
  | kComparator =>
      match GetLengthPrefixedSlice input with
      | Some (str, input) => inl (SetComparatorName str e, input)
      | None => inr (text "comparator name")
      end
  | kLogNumber => decode_number SetLogNumber (text "log number") e input
  | kPrevLogNumber => decode_number SetPrevLogNumber (text "previous log number") e input
  | kNextFileNumber => decode_number SetNextFile (text "next file number") e input
  | kLastSequence => decode_number SetLastSequence (text "last sequence number") e input
  | kCompactPointer =>
      match ('(level, input) ← GetLevel input; '(key, input) ← GetInternalKey input; Some (level, key, input)) with
      | Some (level, key, input) => inl (SetCompactPointer level key e, input)
      | None => inr (text "compaction pointer")
      end
  | kDeletedFile =>
      match ('(level, input) ← GetLevel input; '(n, input) ← GetVarint64 input; Some (level, n, input)) with
      | Some (level, n, input) => inl (RemoveFile level n e, input)
      | None => inr (text "deleted file")
      end
  | kNewFile =>
      match ('(level, input) ← GetLevel input; '(n, input) ← GetVarint64 input; '(size, input) ← GetVarint64 input;
             '(small, input) ← GetInternalKey input; '(large, input) ← GetInternalKey input;
             Some (level, n, size, small, large, input)) with
      | Some (level, n, size, small, large, input) => inl (AddFile level n size small large e, input)
      | None => inr (text "new-file entry")
      end
  end.

Fixpoint DecodeFrom_loop (fuel : nat) (e : VersionEdit) (input : bytes) : outcome (VersionEdit * option bytes) :=
  match GetVarint32 input with
  | None => Done (e, if bool_decide (input = []) then None else Some (text "invalid tag"))
  | Some (tag, input) =>
      match fuel with
      | O => Hangs
      | S fuel' =>
          match tag_of_code tag with
          | None => Done (e, Some (text "unknown tag"))
          | Some t =>
              match decode_field t e input with
              | inl (e, input) => DecodeFrom_loop fuel' e input
              | inr msg => Done (e, Some msg)
              end
          end
      end
  end.

(** the bytes of [Status::Corruption] of two messages *)
Definition DecodeFrom (e : VersionEdit) (src : bytes) : outcome (VersionEdit * Status) :=
  '(e, msg) ← DecodeFrom_loop (length src) (Clear e) src;
  Done (e, match msg with None => OK | Some m => Corruption (text "VersionEdit: " ++ m) end).

(** ** The edit as a list of fields *)

Inductive field :=
  | FComparator (name : bytes) | FLog (n : Z) | FPrevLog (n : Z) | FNext (n : Z) | FLast (n : Z)
  | FPointer (level : Z) (key : bytes) | FDeleted (level n : Z) | FNew (level : Z) (f : FileMetaData).

Definition field_tag (f : field) : Tag :=
  match f with FComparator _ => kComparator | FLog _ => kLogNumber | FPrevLog _ => kPrevLogNumber | FNext _ => kNextFileNumber
  | FLast _ => kLastSequence | FPointer _ _ => kCompactPointer | FDeleted _ _ => kDeletedFile | FNew _ _ => kNewFile end.

Definition payload (f : field) : bytes :=
  match f with
  | FComparator name => PutLengthPrefixedSlice [] name
  | FLog n | FPrevLog n | FNext n | FLast n => EncodeVarint64 n
  | FPointer level key => EncodeVarint32 level ++ PutLengthPrefixedSlice [] key
  | FDeleted level n => EncodeVarint32 level ++ EncodeVarint64 n
  | FNew level f => EncodeVarint32 level ++ EncodeVarint64 (number f) ++ EncodeVarint64 (file_size f) ++
      PutLengthPrefixedSlice [] (smallest f) ++ PutLengthPrefixedSlice [] (largest f)
  end.
Definition field_bytes (f : field) : bytes := EncodeVarint32 (tag_code (field_tag f)) ++ payload f.

Definition apply_field (f : field) (e : VersionEdit) : VersionEdit :=
  match f with
  | FComparator name => SetComparatorName name e | FLog n => SetLogNumber n e | FPrevLog n => SetPrevLogNumber n e
  | FNext n => SetNextFile n e | FLast n => SetLastSequence n e
  | FPointer level key => SetCompactPointer level key e | FDeleted level n => RemoveFile level n e
  | FNew level f => AddFile level (number f) (file_size f) (smallest f) (largest f) e
  end.

Definition key_fits (k : bytes) : Prop := k <> [] /\ blen k < 2 ^ 32.
Definition field_ok (f : field) : Prop :=
  match f with
  | FComparator name => blen name < 2 ^ 32
  | FLog n | FPrevLog n | FNext n | FLast n => 0 <= n < 2 ^ 64
  | FPointer level key => 0 <= level < kNumLevels /\ key_fits key
  | FDeleted level n => 0 <= level < kNumLevels /\ 0 <= n < 2 ^ 64
  | FNew level f => 0 <= level < kNumLevels /\ 0 <= number f < 2 ^ 64 /\ 0 <= file_size f < 2 ^ 64 /\
      key_fits (smallest f) /\ key_fits (largest f)
  end.

Lemma GetInternalKey_spec key rest :
  key_fits key -> GetInternalKey (PutLengthPrefixedSlice [] key ++ rest) = Some (key, rest).
Proof.
  intros [Hk Hl]. unfold GetInternalKey. destruct (LengthPrefixed_roundtrip [] key rest Hl) as [-> _]. simpl.
  by rewrite bool_decide_eq_false_2.
Qed.

Lemma GetLevel_spec level rest : 0 <= level < kNumLevels -> GetLevel (EncodeVarint32 level ++ rest) = Some (level, rest).
Proof. unfold kNumLevels. intros Hl. unfold GetLevel. rewrite Varint32_roundtrip by lia. simpl. by rewrite (proj2 (Z.ltb_lt _ _)) by (unfold kNumLevels; lia). Qed.

Lemma decode_field_spec f e rest :
  field_ok f -> decode_field (field_tag f) e (payload f ++ rest) = inl (apply_field f e, rest).
Proof.
  destruct f; simpl; intros Hf; unfold decode_number; rewrite <- ?app_assoc;
    try by rewrite Varint64_roundtrip by done.
  - by destruct (LengthPrefixed_roundtrip [] name rest Hf) as [-> _].
  - destruct Hf as [Hl Hk]. rewrite GetLevel_spec by done. simpl. by rewrite GetInternalKey_spec.
  - destruct Hf as [Hl Hn]. rewrite GetLevel_spec by done. simpl. by rewrite Varint64_roundtrip.
  - destruct Hf as (Hl & Hn & Hs & H1 & H2). rewrite GetLevel_spec by done. simpl. rewrite Varint64_roundtrip by done. simpl.
    rewrite Varint64_roundtrip by done. simpl. rewrite GetInternalKey_spec by done. simpl. by rewrite GetInternalKey_spec.
Qed.

Lemma DecodeFrom_loop_spec fs e fuel :
  Forall field_ok fs -> (length fs <= fuel)%nat ->
  DecodeFrom_loop fuel e (concat (map field_bytes fs)) = Done (foldl (fun e f => apply_field f e) e fs, None).
Proof.
  intros Hf. revert e fuel; induction Hf as [|f fs Hf _ IH]; intros e fuel Hfuel; [by destruct fuel|].
  destruct fuel as [|fuel]; [simpl in Hfuel; lia|]. cbn [map concat DecodeFrom_loop foldl]. unfold field_bytes at 1.
  rewrite <- !app_assoc, Varint32_roundtrip by (destruct f; simpl; lia).
  replace (tag_of_code (tag_code (field_tag f))) with (Some (field_tag f)) by (by destruct f).
  rewrite decode_field_spec by done. apply IH. simpl in Hfuel. lia.
Qed.

Lemma length_field_bytes f : (1 <= length (field_bytes f))%nat.
Proof. unfold field_bytes. rewrite length_app. destruct f; simpl; lia. Qed.

Lemma length_fields fs : (length fs <= length (concat (map field_bytes fs)))%nat.
Proof.
  induction fs as [|f fs IH]; [done|]. cbn [map concat length]. rewrite length_app. pose proof (length_field_bytes f). lia.
Qed.

Definition number_field (has : bool) (f : field) : list field := if has then [f] else [].
Definition fields (e : VersionEdit) : list field :=
  number_field (has_comparator_ e) (FComparator (comparator_ e)) ++
  number_field (has_log_number_ e) (FLog (log_number_ e)) ++
  number_field (has_prev_log_number_ e) (FPrevLog (prev_log_number_ e)) ++
  number_field (has_next_file_number_ e) (FNext (next_file_number_ e)) ++
  number_field (has_last_sequence_ e) (FLast (last_sequence_ e)) ++
  map (fun p : Z * bytes => FPointer p.1 p.2) (compact_pointers_ e) ++
  map (fun p : Z * Z => FDeleted p.1 p.2) (deleted_files_ e) ++
  map (fun p : Z * FileMetaData => FNew p.1 p.2) (new_files_ e).

Abbreviation fbytes fs := (concat (map field_bytes fs)).

Lemma PutLengthPrefixed_app dst v : PutLengthPrefixedSlice dst v = dst ++ PutLengthPrefixedSlice [] v.
Proof. apply PutLengthPrefixedSlice_app. Qed.

Lemma put_compact_pointers_spec l dst :
  Forall (fun p : Z * bytes => field_ok (FPointer p.1 p.2)) l ->
  put_compact_pointers l dst = Done (dst ++ fbytes (map (fun p : Z * bytes => FPointer p.1 p.2) l)).
Proof.
  intros Hl. revert dst; induction Hl as [|[level k] l [Hlv [Hk _]] _ IH]; intros dst; [simpl; by rewrite app_nil_r|].
  cbn [fst snd] in *. cbn [put_compact_pointers]. unfold InternalKey_Encode. rewrite bool_decide_eq_false_2 by done.
  cbn [negb c_assert mbind outcome_bind]. rewrite IH. f_equal. unfold kNumLevels in Hlv. rewrite u32_small by lia.
  rewrite PutLengthPrefixed_app. unfold PutVarint32. cbn [map concat fst snd]. unfold field_bytes at 2. cbn [payload field_tag].
  by rewrite <- !app_assoc.
Qed.

Lemma put_deleted_files_spec l dst :
  Forall (fun p : Z * Z => field_ok (FDeleted p.1 p.2)) l ->
  put_deleted_files l dst = dst ++ fbytes (map (fun p : Z * Z => FDeleted p.1 p.2) l).
Proof.
  intros Hl. revert dst; induction Hl as [|[level n] l [Hlv Hn] _ IH]; intros dst; [simpl; by rewrite app_nil_r|].
  cbn [fst snd] in *. cbn [put_deleted_files]. rewrite IH. unfold kNumLevels in Hlv. rewrite u32_small by lia.
  unfold PutVarint32, PutVarint64. cbn [map concat fst snd]. unfold field_bytes at 2. cbn [payload field_tag]. by rewrite <- !app_assoc.
Qed.

Lemma put_new_files_spec l dst :
  Forall (fun p : Z * FileMetaData => field_ok (FNew p.1 p.2)) l ->
  put_new_files l dst = Done (dst ++ fbytes (map (fun p : Z * FileMetaData => FNew p.1 p.2) l)).
Proof.
  intros Hl. revert dst; induction Hl as [|[level f] l (Hlv & Hn & Hs & [H1 _] & [H2 _]) _ IH]; intros dst; [simpl; by rewrite app_nil_r|].
  cbn [fst snd] in *. cbn [put_new_files]. unfold InternalKey_Encode. rewrite !bool_decide_eq_false_2 by done.
  cbn [negb c_assert mbind outcome_bind]. rewrite IH. f_equal. unfold kNumLevels in Hlv. rewrite u32_small by lia.
  rewrite PutLengthPrefixed_app, (PutLengthPrefixed_app _ (smallest f)). unfold PutVarint32, PutVarint64. cbn [map concat fst snd].
  unfold field_bytes at 2. cbn [payload field_tag]. by rewrite <- !app_assoc.
Qed.

Lemma number_field_spec has t n f dst :
  field_tag f = t -> payload f = EncodeVarint64 n -> put_number has t n dst = dst ++ fbytes (number_field has f).
Proof.
  intros Ht Hp. destruct has; simpl; [|by rewrite app_nil_r]. unfold PutVarint64, PutVarint32, field_bytes.
  by rewrite Ht, Hp, app_nil_r, <- app_assoc.
Qed.

Lemma EncodeTo_fields e dst :
  Forall field_ok (fields e) -> EncodeTo e dst = Done (dst ++ fbytes (fields e)).
Proof.
  unfold fields. rewrite !list.Forall_app, !list.Forall_fmap. intros (_ & _ & _ & _ & _ & Hc & Hd & Hn). unfold EncodeTo.
  assert (Hcmp : (if has_comparator_ e then PutLengthPrefixedSlice (PutVarint32 dst (tag_code kComparator)) (comparator_ e) else dst)
    = dst ++ fbytes (number_field (has_comparator_ e) (FComparator (comparator_ e)))).
  { destruct (has_comparator_ e); cbn [number_field map concat]; [|by rewrite app_nil_r].
    rewrite PutLengthPrefixed_app. unfold PutVarint32, field_bytes. cbn [field_tag payload]. by rewrite app_nil_r, <- app_assoc. }
  cbv zeta. rewrite Hcmp.
  rewrite (number_field_spec (has_log_number_ e) kLogNumber (log_number_ e) (FLog (log_number_ e))) by done.
  rewrite (number_field_spec (has_prev_log_number_ e) kPrevLogNumber (prev_log_number_ e) (FPrevLog (prev_log_number_ e))) by done.
  rewrite (number_field_spec (has_next_file_number_ e) kNextFileNumber (next_file_number_ e) (FNext (next_file_number_ e))) by done.
  rewrite (number_field_spec (has_last_sequence_ e) kLastSequence (last_sequence_ e) (FLast (last_sequence_ e))) by done.
  rewrite put_compact_pointers_spec by exact Hc. cbn [mbind outcome_bind].
  rewrite put_deleted_files_spec by exact Hd. rewrite put_new_files_spec by exact Hn.
  rewrite !map_app, !concat_app, <- !app_assoc. done.
Qed.

(** ** Round trip *)

(** what holds of every edit made by its operations *)
Record edit_ok (e : VersionEdit) : Prop := {
  eo_fields : Forall field_ok (fields e);
  eo_comparator : has_comparator_ e = false -> comparator_ e = [];
  eo_log : has_log_number_ e = false -> log_number_ e = 0;
  eo_prev : has_prev_log_number_ e = false -> prev_log_number_ e = 0;
  eo_next : has_next_file_number_ e = false -> next_file_number_ e = 0;
  eo_last : has_last_sequence_ e = false -> last_sequence_ e = 0;
  eo_sorted : StronglySorted (fun a b => pair_ltb a b = true) (deleted_files_ e);
  eo_seeks : Forall (fun p : Z * FileMetaData => allowed_seeks p.2 = Z.shiftl 1 30) (new_files_ e) }.

Lemma pair_ltb_asym a b : pair_ltb a b = true -> pair_ltb b a = false.
Proof. unfold pair_ltb. intros H. apply orb_false_iff. rewrite andb_false_iff. lia. Qed.

Lemma set_insert_last l x :
  Forall (fun y => pair_ltb y x = true) l -> set_insert x l = l ++ [x].
Proof.
  induction 1 as [|y l Hy _ IH]; [done|]. cbn [set_insert]. by rewrite (pair_ltb_asym y x Hy), Hy, IH.
Qed.

Lemma foldl_deleted l e :
  StronglySorted (fun a b => pair_ltb a b = true) (deleted_files_ e ++ l) ->
  foldl (fun e f => apply_field f e) e (map (fun p : Z * Z => FDeleted p.1 p.2) l) =
    with_lists e (compact_pointers_ e) (deleted_files_ e ++ l) (new_files_ e).
Proof.
  revert e; induction l as [|[a b] l IH]; intros e Hs; cbn [map foldl].
  { rewrite app_nil_r. by destruct e. }
  rewrite IH.
  - cbn [apply_field fst snd]. unfold RemoveFile. cbn [deleted_files_ with_lists compact_pointers_ new_files_].
    rewrite set_insert_last; [by rewrite <- app_assoc|]. apply list.Forall_forall. intros y Hy.
    by eapply (StronglySorted_app_1_elem_of _ _ _ y (a, b) Hs); [|left].
  - cbn [apply_field fst snd RemoveFile with_lists deleted_files_]. rewrite set_insert_last; [by rewrite <- app_assoc|].
    apply list.Forall_forall. intros y Hy. by eapply (StronglySorted_app_1_elem_of _ _ _ y (a, b) Hs); [|left].
Qed.

Lemma foldl_pointers l e :
  foldl (fun e f => apply_field f e) e (map (fun p : Z * bytes => FPointer p.1 p.2) l) =
    with_lists e (compact_pointers_ e ++ l) (deleted_files_ e) (new_files_ e).
Proof.
  revert e; induction l as [|[a b] l IH]; intros e; cbn [map foldl]; [rewrite app_nil_r; by destruct e|].
  rewrite IH. cbn [apply_field fst snd SetCompactPointer with_lists compact_pointers_ deleted_files_ new_files_]. by rewrite <- app_assoc.
Qed.

Lemma foldl_new l e :
  Forall (fun p : Z * FileMetaData => allowed_seeks p.2 = Z.shiftl 1 30) l ->
  foldl (fun e f => apply_field f e) e (map (fun p : Z * FileMetaData => FNew p.1 p.2) l) =
    with_lists e (compact_pointers_ e) (deleted_files_ e) (new_files_ e ++ l).
Proof.
  intros Hl. revert e; induction Hl as [|[a f] l Ha _ IH]; intros e; cbn [map foldl]; [rewrite app_nil_r; by destruct e|].
  rewrite IH. cbn [apply_field fst snd]. unfold AddFile, add_new_file. cbn [with_lists compact_pointers_ deleted_files_ new_files_].
  cbn [snd] in Ha. destruct f as [s n sz sm la]. cbn in Ha |- *. subst s. by rewrite <- app_assoc.
Qed.

Lemma foldl_fields e0 e :
  edit_ok e -> foldl (fun e f => apply_field f e) (Clear e0) (fields e) =
    with_lists e (compact_pointers_ e0 ++ compact_pointers_ e) (deleted_files_ e) (new_files_ e).
Proof.
  intros [_ Hc Hlog Hprev Hnext Hlast Hs Hseeks]. unfold fields. rewrite !foldl_app, foldl_new by done.
  set (e1 := foldl _ (Clear e0) _). set (e2 := foldl _ e1 _). set (e3 := foldl _ e2 _). set (e4 := foldl _ e3 _). set (e5 := foldl _ e4 _).
  rewrite foldl_pointers.
  assert (E5 : e5 = with_lists e (compact_pointers_ e0) [] []).
  { unfold e5, e4, e3, e2, e1. clear e5 e4 e3 e2 e1.
    destruct e as [cm ln pn nn ls [] [] [] [] [] cps dels news]; cbn in Hc, Hlog, Hprev, Hnext, Hlast |- *;
      rewrite ?Hc, ?Hlog, ?Hprev, ?Hnext, ?Hlast by done; done. }
  rewrite E5. rewrite foldl_deleted by done. done.
Qed.

(** an edit is its fields, and is decoded from them *)
Lemma edit_decoded e0 e :
  edit_ok e -> EncodeTo e [] = Done (fbytes (fields e)) /\
    DecodeFrom e0 (fbytes (fields e)) = Done (with_lists e (compact_pointers_ e0 ++ compact_pointers_ e) (deleted_files_ e) (new_files_ e), OK).
Proof.
  intros He. split; [by rewrite EncodeTo_fields by apply He|]. unfold DecodeFrom.
  rewrite DecodeFrom_loop_spec by first [apply He | apply length_fields]. cbn [mbind outcome_bind].
  by rewrite foldl_fields.
Qed.

(** C27: The manifest's records round-trip.  An edit made by its operations is
    encoded, and decoding the bytes gives the edit back: every field, the
    deleted files as a set, the new files in order, with the number of seeks a
    new file starts with.  [Clear] does not clear the compaction pointers: an
    edit decoded into keeps its own in front of those read. *)
Theorem edit_roundtrip e0 e :
  edit_ok e -> exists enc, EncodeTo e [] = Done enc /\
    DecodeFrom e0 enc = Done (with_lists e (compact_pointers_ e0 ++ compact_pointers_ e) (deleted_files_ e) (new_files_ e), OK).
Proof. intros He. eexists. by apply edit_decoded. Qed.

Definition example_edit : VersionEdit :=
  AddFile 0 12 345 (ikey (text "a") 257) (ikey (text "z") 513)
    (RemoveFile 2 7 (RemoveFile 1 9 (SetCompactPointer 1 (ikey (text "m") 257)
      (SetLastSequence 99 (SetLogNumber 11 (SetComparatorName (text "leveldb.BytewiseComparator") make_VersionEdit)))))).

Lemma edit_roundtrip_witness : exists enc, EncodeTo example_edit [] = Done enc /\
  DecodeFrom make_VersionEdit enc = Done (example_edit, OK).
Proof.
  apply (edit_roundtrip make_VersionEdit example_edit). split; try done.
  - repeat constructor; unfold field_ok, key_fits; simpl; (try split); (try done); (try split); (try done); vm_compute; intuition congruence.
  - repeat constructor.
  - repeat constructor.
Defined.
