(* ===== verification/Version.v ===== *)
(** * Version: class Version of db/version_set.cc

    A version is the table files of each level.  [Get] asks the files that can
    hold a key, the newest first, through the table cache, which is the class
    [Tables].  A file is a value: versions that share a file object are not
    alive together here, so the one mutable field, [allowed_seeks], is part of
    the current version.  Reference counts are not modelled. *)

From Stdlib.Strings Require Import Byte.
From stdpp Require Import sorting.
From S2P Require Import Prelude Status Coding DbFormat WriteBatch SkipList MemTable Bloom FilterBlock Block Format TableBuilder Table VersionEdit.

Definition kMaxMemCompactLevel : Z := 2.

(** [TableCache::Get] with its callback: the entry the callback is given *)
Class Tables (T : Type) := {
  tables_Get : T -> ReadOptions -> Z -> Z -> bytes -> outcome (option (bytes * bytes) * Status * T) }.

(** ** The sizes *)

Definition TargetFileSize (max_file_size : Z) : Z := max_file_size.
Definition MaxGrandParentOverlapBytes (max_file_size : Z) : Z := 10 * TargetFileSize max_file_size.
Definition ExpandedCompactionByteSizeLimit (max_file_size : Z) : Z := 25 * TargetFileSize max_file_size.
Definition MaxFileSizeForLevel (max_file_size level : Z) : Z := TargetFileSize max_file_size.
Definition TotalFileSize (files : list FileMetaData) : Z := foldl (fun sum f => sum + file_size f) 0 files.

(** ** Searching a level *)

Definition user_key_of (k : bytes) : outcome bytes := ExtractUserKey k.

(** the index of the first file whose largest key is not before [key] *)
Fixpoint FindFile_loop (fuel : nat) (files : list FileMetaData) (key : bytes) (left_ right_ : Z) : outcome Z :=
  if left_ <? right_ then
    match fuel with
    | O => Hangs
    | S fuel' =>
        let mid := u32 (left_ + right_) / 2 in
        match files !! Z.to_nat mid with
        | None => Undefined
        | Some f =>
            large ← InternalKey_Encode (largest f);
            r ← Internal.Compare large key;
            if r <? 0 then FindFile_loop fuel' files key (mid + 1) right_ else FindFile_loop fuel' files key left_ mid
        end
    end
  else Done right_.
Definition FindFile (files : list FileMetaData) (key : bytes) : outcome Z :=
  FindFile_loop (length files) files key 0 (u32 (Z.of_nat (length files))).

(** a null key is [None] *)
Definition AfterFile (user_key : option bytes) (f : FileMetaData) : outcome bool :=
  match user_key with
  | None => Done false
  | Some u => l ← user_key_of (largest f); Done (0 <? Compare u l)
  end.
Definition BeforeFile (user_key : option bytes) (f : FileMetaData) : outcome bool :=
  match user_key with
  | None => Done false
  | Some u => s ← user_key_of (smallest f); Done (Compare u s <? 0)
  end.

Fixpoint some_file_overlaps (files : list FileMetaData) (small large : option bytes) : outcome bool :=
  match files with
  | [] => Done false
  | f :: files' =>
      a ← AfterFile small f;
      b ← (if (a : bool) then Done true else BeforeFile large f);
      if (b : bool) then some_file_overlaps files' small large else Done true
  end.

Definition SomeFileOverlapsRange (disjoint_sorted_files : bool) (files : list FileMetaData) (small large : option bytes)
    : outcome bool :=
  if negb disjoint_sorted_files then some_file_overlaps files small large else
  index ← (match small with
           | None => Done 0
           | Some u =>
               small_key ← AppendInternalKey [] {| user_key := u; sequence := kMaxSequenceNumber; type := type_code kValueTypeForSeek |};
               small_key ← InternalKey_Encode small_key;
               FindFile files small_key
           end);
  match files !! Z.to_nat index with
  | None => Done false
  | Some f => b ← BeforeFile large f; Done (negb b)
  end.

(** ** Versions *)

(** [compaction_score_] and [compaction_level_], floating-point advice on what
    to compact next, are not modelled *)
Record Version := {
  files_ : list (list FileMetaData); file_to_compact_ : option FileMetaData; file_to_compact_level_ : Z }.

Definition make_Version : Version :=
  {| files_ := replicate (Z.to_nat kNumLevels) []; file_to_compact_ := None; file_to_compact_level_ := -1 |}.

(** [files_[level]] *)
Definition level_files (v : Version) (level : Z) : outcome (list FileMetaData) :=
  if level <? 0 then Undefined else match files_ v !! Z.to_nat level with Some l => Done l | None => Undefined end.

(** [NewestFirst], the order [std::sort] is given: files of a level have
    different numbers, so it has one result *)
Definition newer_eq (a b : FileMetaData) : Prop := number b <= number a.
#[export] Instance newer_eq_dec : RelDecision newer_eq := fun a b => decide (number b <= number a).

Section ForEachOverlapping.
Context {A : Type} (func : A -> Z -> FileMetaData -> outcome (A * bool)).

(** the files of level 0 that can hold the key *)
Fixpoint holding_key (user_key : bytes) (files : list FileMetaData) : outcome (list FileMetaData) :=
  match files with
  | [] => Done []
  | f :: files' =>
      s ← user_key_of (smallest f);
      hit ← (if 0 <=? Compare user_key s then l ← user_key_of (largest f); Done (Compare user_key l <=? 0) else Done false);
      rest ← holding_key user_key files';
      Done (if (hit : bool) then f :: rest else rest)
  end.

Fixpoint each_newest (arg : A) (tmp : list FileMetaData) : outcome (A * bool) :=
  match tmp with
  | [] => Done (arg, true)
  | f :: tmp' => '(arg, go) ← func arg 0 f; if (go : bool) then each_newest arg tmp' else Done (arg, false)
  end.

Fixpoint each_level (arg : A) (user_key internal_key : bytes) (level : Z) (levels : list (list FileMetaData)) : outcome A :=
  match levels with
  | [] => Done arg
  | files :: levels' =>
      if bool_decide (files = []) then each_level arg user_key internal_key (level + 1) levels' else
      index ← FindFile files internal_key;
      match files !! Z.to_nat index with
      | None => each_level arg user_key internal_key (level + 1) levels'
      | Some f =>
          s ← user_key_of (smallest f);
          if Compare user_key s <? 0 then each_level arg user_key internal_key (level + 1) levels' else
          '(arg, go) ← func arg level f;
          if (go : bool) then each_level arg user_key internal_key (level + 1) levels' else Done arg
      end
  end.

Definition ForEachOverlapping (v : Version) (user_key internal_key : bytes) (arg : A) : outcome A :=
  level0 ← level_files v 0;
  tmp ← holding_key user_key level0;
  '(arg, go) ← each_newest arg (merge_sort newer_eq tmp);
  if (go : bool) then each_level arg user_key internal_key 1 (drop 1 (files_ v)) else Done arg.
End ForEachOverlapping.

(** ** Get *)

Inductive SaverState := kNotFound | kFound | kDeleted | kCorrupt.
Record Saver := { saver_state : SaverState; saver_user_key : bytes; saver_value : bytes }.

Definition SaveValue (s : Saver) (ikey v : bytes) : outcome Saver :=
  '(ok, parsed) ← ParseInternalKey ikey;
  match parsed with
  | Some parsed_key =>
      if negb ok then Done {| saver_state := kCorrupt; saver_user_key := saver_user_key s; saver_value := saver_value s |} else
      if Compare (user_key parsed_key) (saver_user_key s) =? 0 then
        Done (if type parsed_key =? type_code kTypeValue
              then {| saver_state := kFound; saver_user_key := saver_user_key s; saver_value := v |}
              else {| saver_state := kDeleted; saver_user_key := saver_user_key s; saver_value := saver_value s |})
      else Done s
  | None => Done {| saver_state := kCorrupt; saver_user_key := saver_user_key s; saver_value := saver_value s |}
  end.

Record GetStats := { seek_file : option FileMetaData; seek_file_level : Z }.

Section Get.
Context {T : Type} `{Tables T}.

(** [State] of [Version::Get]; the cache is threaded with it *)
Record State := {
  st_saver : Saver; st_stats : GetStats; last_file_read : option FileMetaData; last_file_read_level : Z;
  st_s : Status; st_found : bool; st_tables : T }.

Definition Match (options : ReadOptions) (ikey : bytes) (state : State) (level : Z) (f : FileMetaData) : outcome (State * bool) :=
  let stats :=
    match seek_file (st_stats state), last_file_read state with
    | None, Some l => {| seek_file := Some l; seek_file_level := last_file_read_level state |}
    | _, _ => st_stats state
    end in
  '(entry, s, t) ← tables_Get (st_tables state) options (number f) (file_size f) ikey;
  saver ← match entry with Some (k, v) => SaveValue (st_saver state) k v | None => Done (st_saver state) end;
  let state := {| st_saver := saver; st_stats := stats; last_file_read := Some f; last_file_read_level := level;
                  st_s := s; st_found := st_found state; st_tables := t |} in
  let found s := {| st_saver := saver; st_stats := stats; last_file_read := Some f; last_file_read_level := level;
                    st_s := s; st_found := true; st_tables := t |} in
  if negb (bool_decide (s = OK)) then Done (found s, false) else
  match saver_state saver with
  | kNotFound => Done (state, true)
  | kFound => Done (found s, false)
  | kDeleted => Done (state, false)
  | kCorrupt => Done (found (Corruption (text "corrupted key for " ++ saver_user_key saver)), false)
  end.

(** the value, the status ([None] is [NotFound]), the statistics and the cache *)
Definition Get (v : Version) (options : ReadOptions) (k : LookupKey) (value : bytes) (t : T)
    : outcome (bytes * option Status * GetStats * T) :=
  let state := {| st_saver := {| saver_state := kNotFound; saver_user_key := lookup_user_key k; saver_value := value |};
                  st_stats := {| seek_file := None; seek_file_level := -1 |}; last_file_read := None;
                  last_file_read_level := -1; st_s := OK; st_found := false; st_tables := t |} in
  state ← ForEachOverlapping (Match options (internal_key k)) v (lookup_user_key k) (internal_key k) state;
  Done (saver_value (st_saver state), if st_found state then Some (st_s state) else None, st_stats state, st_tables state).
End Get.

(** ** Seeks *)

Definition with_seeks (f : FileMetaData) (n : Z) : FileMetaData :=
  {| allowed_seeks := n; number := number f; file_size := file_size f; smallest := smallest f; largest := largest f |}.

(** the object of level [level] with this number is the one the statistics name *)
Definition set_file (v : Version) (level : Z) (f : FileMetaData) : Version :=
  {| files_ := alter (map (fun g => if number g =? number f then f else g)) (Z.to_nat level) (files_ v);
     file_to_compact_ := file_to_compact_ v; file_to_compact_level_ := file_to_compact_level_ v |}.

Definition UpdateStats (v : Version) (stats : GetStats) : outcome (Version * bool) :=
  match seek_file stats with
  | None => Done (v, false)
  | Some f =>
      if allowed_seeks f =? - 2 ^ 31 then Undefined else
      let f := with_seeks f (allowed_seeks f - 1) in
      let v := set_file v (seek_file_level stats) f in
      match file_to_compact_ v with
      | None =>
          if allowed_seeks f <=? 0 then
            Done ({| files_ := files_ v; file_to_compact_ := Some f; file_to_compact_level_ := seek_file_level stats |}, true)
          else Done (v, false)
      | Some _ => Done (v, false)
      end
  end.

(** [State] of [RecordReadSample] *)
Definition sample_Match (state : GetStats * Z) (level : Z) (f : FileMetaData) : outcome (GetStats * Z * bool) :=
  let (stats, matches) := state in
  let matches := matches + 1 in
  let stats := if matches =? 1 then {| seek_file := Some f; seek_file_level := level |} else stats in
  Done (stats, matches, matches <? 2).

Definition RecordReadSample (v : Version) (internal_key : bytes) : outcome (Version * bool) :=
  '(ok, parsed) ← ParseInternalKey internal_key;
  match parsed with
  | Some ikey =>
      if negb ok then Done (v, false) else
      '(stats, matches) ← ForEachOverlapping sample_Match v (user_key ikey) internal_key ({| seek_file := None; seek_file_level := -1 |}, 0);
      if 2 <=? matches then UpdateStats v stats else Done (v, false)
  | None => Done (v, false)
  end.

(** ** Overlaps *)

Definition OverlapInLevel (v : Version) (level : Z) (small large : option bytes) : outcome bool :=
  files ← level_files v level;
  SomeFileOverlapsRange (0 <? level) files small large.

(** one pass over the files: the inputs, or the range to start again with *)
Fixpoint overlapping_pass (level : Z) (user_begin user_end : option bytes) (files inputs : list FileMetaData)
    : outcome (list FileMetaData + option bytes * option bytes) :=
  match files with
  | [] => Done (inl inputs)
  | f :: files' =>
      file_start ← user_key_of (smallest f);
      file_limit ← user_key_of (largest f);
      if (match user_begin with Some b => Compare file_limit b <? 0 | None => false end)
      then overlapping_pass level user_begin user_end files' inputs
      else if (match user_end with Some e => 0 <? Compare file_start e | None => false end)
      then overlapping_pass level user_begin user_end files' inputs
      else if level =? 0 then
        if (match user_begin with Some b => Compare file_start b <? 0 | None => false end)
        then Done (inr (Some file_start, user_end))
        else if (match user_end with Some e => 0 <? Compare file_limit e | None => false end)
        then Done (inr (user_begin, Some file_limit))
        else overlapping_pass level user_begin user_end files' (inputs ++ [f])
      else overlapping_pass level user_begin user_end files' (inputs ++ [f])
  end.

Fixpoint overlapping_loop (fuel : nat) (level : Z) (user_begin user_end : option bytes) (files : list FileMetaData)
    : outcome (list FileMetaData) :=
  r ← overlapping_pass level user_begin user_end files [];
  match r with
  | inl inputs => Done inputs
  | inr (b, e) => match fuel with O => Hangs | S fuel' => overlapping_loop fuel' level b e files end
  end.

(** a null bound is [None] *)
Definition GetOverlappingInputs (v : Version) (level : Z) (begin_ end_ : option bytes) : outcome (list FileMetaData) :=
  _ ← c_assert (0 <=? level);
  _ ← c_assert (level <? kNumLevels);
  user_begin ← match begin_ with Some k => u ← user_key_of k; Done (Some u) | None => Done None end;
  user_end ← match end_ with Some k => u ← user_key_of k; Done (Some u) | None => Done None end;
  files ← level_files v level;
  overlapping_loop (2 * length files) level user_begin user_end files.

Fixpoint pick_level_loop (fuel : nat) (v : Version) (max_file_size : Z) (small large : bytes) (start limit : bytes) (level : Z)
    : outcome Z :=
  if level <? kMaxMemCompactLevel then
    match fuel with
    | O => Hangs
    | S fuel' =>
        o ← OverlapInLevel v (level + 1) (Some small) (Some large);
        if (o : bool) then Done level else
        big ← (if level + 2 <? kNumLevels then
                 overlaps ← GetOverlappingInputs v (level + 2) (Some start) (Some limit);
                 Done (MaxGrandParentOverlapBytes max_file_size <? TotalFileSize overlaps)
               else Done false);
        if (big : bool) then Done level else pick_level_loop fuel' v max_file_size small large start limit (level + 1)
    end
  else Done level.

Definition PickLevelForMemTableOutput (v : Version) (max_file_size : Z) (small large : bytes) : outcome Z :=
  o ← OverlapInLevel v 0 (Some small) (Some large);
  if (o : bool) then Done 0 else
  start ← AppendInternalKey [] {| user_key := small; sequence := kMaxSequenceNumber; type := type_code kValueTypeForSeek |};
  limit ← AppendInternalKey [] {| user_key := large; sequence := 0; type := 0 |};
  pick_level_loop 2 v max_file_size small large start limit 0.

Definition NumFiles (v : Version) (level : Z) : outcome Z := files ← level_files v level; Done (Z.of_nat (length files)).
