(* ===== verification/VersionSpec.v ===== *)
(** * VersionSpec: what a version's files hold, and what a look-up in them finds *)

From Stdlib.Strings Require Import Byte.
From Stdlib.Sorting Require Import Sorted.
From stdpp Require Import sorting.
From S2P Require Import Prelude Status Coding DbFormat WriteBatch SkipList MemTable Crc32c Log LogSpec Bloom FilterBlock Block BlockSpec Format TableBuilder Table TableSpec VersionEdit Version.

(** ** The newest entry of a key *)

(** [o] is the entry of [u] with the highest number up to [s] among [es] *)
Definition newest_of (es : list add) (u : bytes) (s : Z) (o : option add) : Prop :=
  match o with
  | Some a => a ∈ es /\ a_key a = u /\ a_seq a <= s /\
      (forall b, b ∈ es -> a_key b = u -> a_seq b <= s -> a_seq b <= a_seq a)
  | None => forall b, b ∈ es -> a_key b = u -> s < a_seq b
  end.

(** no entry of [es2] is newer than an entry of its key in [es1] *)
Definition newer_than (es1 es2 : list add) : Prop :=
  forall a b, a ∈ es1 -> b ∈ es2 -> a_key a = a_key b -> a_seq b <= a_seq a.

Lemma newest_of_none_app es1 es2 u s o :
  newest_of es1 u s None -> newest_of es2 u s o -> newest_of (es1 ++ es2) u s o.
Proof.
  intros H1 H2. destruct o as [a|].
  - destruct H2 as (Ha & Hk & Hs & Hmax). repeat split; try done; [set_solver|]. intros b Hb Hkb Hsb.
    apply elem_of_app in Hb as [Hb|Hb]; [|by apply Hmax]. specialize (H1 b Hb Hkb). lia.
  - intros b [Hb|Hb]%elem_of_app Hk; [by apply H1|by apply H2].
Qed.

Lemma newest_of_some_app es1 es2 u s a :
  newer_than es1 es2 -> newest_of es1 u s (Some a) -> newest_of (es1 ++ es2) u s (Some a).
Proof.
  intros Hn (Ha & Hk & Hs & Hmax). repeat split; try done; [set_solver|]. intros b Hb Hkb Hsb.
  apply elem_of_app in Hb as [Hb|Hb]; [by apply Hmax|]. pose proof (Hn a b Ha Hb ltac:(congruence)). lia.
Qed.

Lemma newest_of_ext es1 es2 u s o :
  (forall a, a_key a = u -> a ∈ es1 <-> a ∈ es2) -> newest_of es1 u s o -> newest_of es2 u s o.
Proof.
  intros He. destruct o as [a|].
  - intros (Ha & Hk & Hs & Hmax). repeat split; try done; [by apply He|]. intros b Hb Hkb. apply Hmax; [|done]. by apply He.
  - intros Hno b Hb Hk. apply Hno; [|done]. by apply He.
Qed.

(** numbers that identify entries make the newest one unique *)
Lemma newest_of_unique es u s o1 o2 :
  (forall a b, a ∈ es -> b ∈ es -> a_seq a = a_seq b -> a = b) ->
  newest_of es u s o1 -> newest_of es u s o2 -> o1 = o2.
Proof.
  intros Hinj. destruct o1 as [a|], o2 as [b|]; simpl; try done.
  - intros (Ha & Hk & Hs & Hmax) (Hb & Hk' & Hs' & Hmax'). f_equal. apply Hinj; try done.
    pose proof (Hmax b Hb Hk' Hs'). pose proof (Hmax' a Ha Hk Hs). lia.
  - intros (Ha & Hk & Hs & _) Hno. specialize (Hno a Ha Hk). lia.
  - intros Hno (Ha & Hk & Hs & _). specialize (Hno b Ha Hk). lia.
Qed.

(** what the memtables keep in order of the numbers *)
Lemma newest_newest_of adds u s :
  (forall i j a b, (i < j)%nat -> adds !! i = Some a -> adds !! j = Some b -> a_seq a < a_seq b) ->
  newest_of adds u s (newest adds u s).
Proof.
  intros Hseq. unfold newest. destruct (list.last _) as [a|] eqn:E; simpl.
  - apply last_Some in E as (l & E). assert (Hin : a ∈ filter (fun a => a_key a = u /\ a_seq a <= s) adds) by (rewrite E; set_solver).
    apply list_elem_of_filter in Hin as [[Hk Hs] Hin]. repeat split; try done. intros b Hb Hkb Hsb.
    apply list_elem_of_lookup in Hb as [j Hj]. apply list_elem_of_lookup in Hin as [i Hi].
    destruct (decide (j <= i)%nat); [destruct (decide (j = i)) as [->|]; [simplify_eq; lia|]; pose proof (Hseq j i b a ltac:(lia) Hj Hi); lia|].
    exfalso. assert (Hab : b ∈ filter (fun a => a_key a = u /\ a_seq a <= s) (drop (S i) adds)).
    { apply list_elem_of_filter. split; [done|]. apply (list_elem_of_lookup_2 _ (j - S i)). rewrite lookup_drop. by replace (S i + (j - S i))%nat with j by lia. }
    rewrite <- (take_drop_middle adds i a Hi), list.filter_app, list.filter_cons_True in E by done.
    destruct (filter (fun a => a_key a = u /\ a_seq a <= s) (drop (S i) adds)) as [|c l'] eqn:El; [by apply elem_of_nil in Hab|].
    assert (Hc : a ∈ c :: l').
    { apply (f_equal list.last) in E. rewrite last_snoc, last_app in E. cbn [list.last] in E.
      change (list.last (a :: c :: l')) with (list.last (c :: l')) in E. destruct (list.last (c :: l')) as [x|] eqn:Ex; [|by apply last_None in Ex].
      injection E as ->. apply last_Some in Ex as (? & ->). set_solver. }
    rewrite <- El in Hc. apply list_elem_of_filter in Hc as [_ Hc]. apply list_elem_of_lookup in Hc as [q Hq]. rewrite lookup_drop in Hq.
    pose proof (Hseq i (S i + q)%nat a a ltac:(lia) Hi Hq). lia.
  - apply last_None in E. intros b Hb Hkb. destruct (decide (a_seq b <= s)); [|lia]. exfalso.
    assert (b ∈ filter (fun a => a_key a = u /\ a_seq a <= s) adds) as Hin by (apply list_elem_of_filter; done).
    rewrite E in Hin. by apply elem_of_nil in Hin.
Qed.

(** ** A file and its entries *)

Definition add_ikey (a : add) : bytes := ikey (a_key a) (tag_of (a_seq a) (a_type a)).
Definition add_kv (a : add) : bytes * bytes := (add_ikey a, a_value a).
Definition add_cmp (a b : add) : Z :=
  icompare (a_key a) (tag_of (a_seq a) (a_type a)) (a_key b) (tag_of (a_seq b) (a_type b)).

(** the entries are those of a table, in order, and the bounds are those of the
    entries *)
Record file_holds (f : FileMetaData) (es : list add) : Prop := {
  fh_ok : Forall add_ok es;
  fh_sorted : StronglySorted (fun a b => add_cmp a b < 0) es;
  fh_smallest : exists a, head es = Some a /\ smallest f = add_ikey a;
  fh_largest : exists a, list.last es = Some a /\ largest f = add_ikey a }.

(** what the table cache promises of the files it has *)
Class TablesOk (T : Type) `{Tables T} := {
  tables_hold : T -> Z -> Z -> list (bytes * bytes) -> Prop;
  tables_key : T -> bytes -> Prop;
  (** how many more files can be opened: each takes a number of 64 bits *)
  tables_opens : T -> Z;
  tables_Get_ok t n sz es ro u tag :
    tables_hold t n sz es -> 0 <= tag < 2 ^ 64 -> tables_key t (ikey u tag) -> 1 <= tables_opens t ->
    exists result t', tables_Get t ro n sz (ikey u tag) = Done (result, OK, t') /\
      (forall e, result = Some e -> e ∈ es) /\ for_user u result = for_user u (first_ge es (ikey u tag)) /\
      (forall n' sz' es', tables_hold t n' sz' es' -> tables_hold t' n' sz' es') /\
      (forall k, tables_key t k -> tables_key t' k) /\ tables_opens t - 1 <= tables_opens t' }.

Lemma add_tag_range a : add_ok a -> 0 <= tag_of (a_seq a) (a_type a) < 2 ^ 64.
Proof. intros (Hs & _ & _). by apply tag_of_range. Qed.

Lemma add_ikey_cmp a u t :
  add_ok a -> 0 <= t < 2 ^ 64 -> ikey_cmp (add_ikey a) (ikey u t) = icompare (a_key a) (tag_of (a_seq a) (a_type a)) u t.
Proof. intros Ha Ht. by apply ikey_cmp_spec; [apply add_tag_range|]. Qed.

Lemma add_ikey_cmp2 a b : add_ok a -> add_ok b -> ikey_cmp (add_ikey a) (add_ikey b) = add_cmp a b.
Proof. intros Ha Hb. apply add_ikey_cmp; [done|]. by apply add_tag_range. Qed.

Lemma add_cmp_trans a b c : add_cmp a b < 0 -> add_cmp b c < 0 -> add_cmp a c < 0.
Proof. apply icompare_trans. Qed.
Lemma add_cmp_irrefl a : ~ add_cmp a a < 0.
Proof. unfold add_cmp. rewrite icompare_refl. lia. Qed.

(** the look-up key of [u] at [s] against an entry *)
Lemma lookup_cmp_same a u s :
  a_key a = u -> (icompare (a_key a) (tag_of (a_seq a) (a_type a)) u (tag_of s kTypeValue) < 0 <-> s < a_seq a).
Proof.
  intros ->. unfold icompare. rewrite lex_refl. simpl. pose proof (tag_le (a_seq a) (a_type a) s).
  zcases; lia.
Qed.

(** a later entry of the same key is older *)
Lemma add_cmp_same a b : add_cmp a b < 0 -> a_key a = a_key b -> a_seq b <= a_seq a.
Proof.
  unfold add_cmp, icompare. intros H E. rewrite E, lex_refl in H. simpl in H. unfold tag_of in H.
  pose proof (type_code_range (a_type a)). pose proof (type_code_range (a_type b)). revert H. zcases; lia.
Qed.

Lemma add_cmp_lex a b : add_cmp a b < 0 -> lex (a_key a) (a_key b) <= 0.
Proof. apply icompare_lex. Qed.

Lemma for_user_kv u a : for_user u (Some (add_kv a)) = if decide (a_key a = u) then Some (add_kv a) else None.
Proof. unfold add_kv, add_ikey. cbn [for_user]. by rewrite ExtractUserKey_ikey. Qed.

(** A look-up in the sorted entries finds the newest entry. *)
Lemma first_ge_newest es u s :
  0 <= s < 2 ^ 56 -> Forall add_ok es -> StronglySorted (fun a b => add_cmp a b < 0) es ->
  exists o, newest_of es u s o /\ for_user u (first_ge (map add_kv es) (ikey u (tag_of s kTypeValue))) = add_kv <$> o.
Proof.
  intros Hs Hok Hsort. assert (Ht : 0 <= tag_of s kTypeValue < 2 ^ 64) by (by apply tag_of_range).
  induction Hsort as [|a es Hsort IH Ha]; [by exists None; split; [intros b Hb%not_elem_of_nil|]|].
  apply list.Forall_cons in Hok as [Hoka Hok]. rewrite list.Forall_forall in Ha. cbn [map first_ge]. unfold add_kv at 1.
  rewrite add_ikey_cmp by done. destruct (Z.ltb_spec (icompare (a_key a) (tag_of (a_seq a) (a_type a)) u (tag_of s kTypeValue)) 0) as [Hlt|Hge].
  - destruct (IH Hok) as (o & Ho & E). exists o. split; [|done]. apply (newest_of_none_app [a]); [|done].
    intros b ->%list_elem_of_singleton Hk. by apply (lookup_cmp_same a u s).
  - fold (add_kv a). rewrite for_user_kv. destruct (decide (a_key a = u)) as [Hk|Hk].
    + exists (Some a). split; [|done]. pose proof (lookup_cmp_same a u s Hk). split; [by left|]. split; [done|]. split; [lia|].
      intros b [->|Hb]%elem_of_cons Hkb _; [lia|]. apply add_cmp_same; [by apply Ha|congruence].
    + exists None. split; [|done]. intros b Hb Hkb. exfalso.
      assert (Hl : 0 < lex (a_key a) u).
      { destruct (lex_range (a_key a) u) as [E|[E|E]]; [|by apply lex_eq in E|lia]. exfalso.
        assert (lex (a_key a) u < 0) as El by lia. apply (icompare_user _ (tag_of (a_seq a) (a_type a)) _ (tag_of s kTypeValue)) in El. lia. }
      apply elem_of_cons in Hb as [->|Hb]; [done|]. pose proof (add_cmp_lex _ _ (Ha b Hb)) as Hle. rewrite Hkb in Hle. lia.
Qed.

(** ** The bounds of a file *)

Lemma sorted_head_last {A} (R : relation A) l a b :
  StronglySorted R l -> head l = Some a -> (forall x, x ∈ l -> x = a \/ R a x) /\ (list.last l = Some b -> forall x, x ∈ l -> x = b \/ R x b).
Proof.
  intros Hs Hh. split.
  - destruct Hs as [|y l Hs Hy]; [done|]. injection Hh as ->. rewrite list.Forall_forall in Hy. intros x [->|Hx]%elem_of_cons; [by left|right; by apply Hy].
  - intros Hl x Hx. apply last_Some in Hl as (l' & ->). apply elem_of_app in Hx as [Hx|Hx%list_elem_of_singleton]; [right|by left].
    by eapply (StronglySorted_app_1_elem_of _ l' [b]); [|done|by left].
Qed.

(** the bounds of a file around its entries *)
Lemma file_bounds f es :
  file_holds f es -> exists a b, smallest f = add_ikey a /\ largest f = add_ikey b /\ a ∈ es /\ b ∈ es /\ add_ok a /\ add_ok b /\
    (forall x, x ∈ es -> (x = a \/ add_cmp a x < 0) /\ (x = b \/ add_cmp x b < 0)) /\
    forall x, x ∈ es -> lex (a_key a) (a_key x) <= 0 /\ lex (a_key x) (a_key b) <= 0.
Proof.
  intros [Hok Hs (a & Ha & Ea) (b & Hb & Eb)]. exists a, b. split; [done|]. split; [done|].
  assert (Hina : a ∈ es) by (destruct es; [done|injection Ha as ->; by left]).
  assert (Hinb : b ∈ es) by (apply last_Some in Hb as (? & ->); set_solver).
  rewrite list.Forall_forall in Hok. split; [done|]. split; [done|]. split; [by apply Hok|]. split; [by apply Hok|].
  destruct (sorted_head_last _ es a b Hs Ha) as [H1 H2]. specialize (H2 Hb).
  assert (Hall : forall x, x ∈ es -> (x = a \/ add_cmp a x < 0) /\ (x = b \/ add_cmp x b < 0)) by (intros x Hx; by split; [apply H1|apply H2]).
  split; [done|]. intros x Hx. destruct (Hall x Hx) as [[->|Hax] [->|Hxb]]; rewrite ?lex_refl; split; try lia; by apply add_cmp_lex.
Qed.

Lemma file_user_keys f es :
  file_holds f es -> exists us ul, user_key_of (smallest f) = Done us /\ user_key_of (largest f) = Done ul /\
    forall x, x ∈ es -> lex us (a_key x) <= 0 /\ lex (a_key x) ul <= 0.
Proof.
  intros Hf. destruct (file_bounds f es Hf) as (a & b & Ea & Eb & _ & _ & _ & _ & _ & Hlex). exists (a_key a), (a_key b).
  unfold user_key_of. rewrite Ea, Eb. unfold add_ikey. by rewrite !ExtractUserKey_ikey.
Qed.

Lemma sorted_lookup {A} (R : relation A) l i j a b :
  StronglySorted R l -> (i < j)%nat -> l !! i = Some a -> l !! j = Some b -> R a b.
Proof.
  intros Hs. revert i j; induction Hs as [|x l Hs IH Hx]; intros i j Hij Hi Hj; [done|]. rewrite list.Forall_forall in Hx.
  destruct i as [|i], j as [|j]; simplify_eq/=; try lia; [apply Hx; by eapply list_elem_of_lookup_2|eapply (IH i j); [lia|done|done]].
Qed.

(** ** A sorted level *)

Section Content.
(** the entries of each table file, by its number *)
Variable content : Z -> list add.

Definition files_adds (files : list FileMetaData) : list add := concat (map (fun f => content (number f)) files).

Record level_ok (files : list FileMetaData) : Prop := {
  lo_holds : Forall (fun f => file_holds f (content (number f))) files;
  lo_sorted : StronglySorted (fun f g => ikey_cmp (largest f) (smallest g) < 0) files;
  lo_length : Z.of_nat (length files) < 2 ^ 31 }.

Lemma elem_of_files_adds a files : a ∈ files_adds files <-> exists f, f ∈ files /\ a ∈ content (number f).
Proof.
  induction files as [|g files IH]; unfold files_adds; simpl.
  - split; [by intros ?%elem_of_nil|by intros (f & ?%elem_of_nil & _)].
  - fold (files_adds files). rewrite elem_of_app, IH. split.
    + intros [Ha|(f & Hf & Ha)]; [exists g; split; [by left|done]|exists f; split; [by right|done]].
    + intros (f & [->|Hf]%elem_of_cons & Ha); [by left|right; by exists f].
Qed.

Lemma files_adds_app l1 l2 : files_adds (l1 ++ l2) = files_adds l1 ++ files_adds l2.
Proof. unfold files_adds. by rewrite map_app, concat_app. Qed.

Lemma files_none files u s :
  (forall f, f ∈ files -> newest_of (content (number f)) u s None) -> newest_of (files_adds files) u s None.
Proof. intros Hf b (f & Hin & Hb)%elem_of_files_adds. by apply (Hf f). Qed.

(** entries of an earlier file are before those of a later one *)
Lemma level_entries files i j f g x y :
  level_ok files -> (i < j)%nat -> files !! i = Some f -> files !! j = Some g ->
  x ∈ content (number f) -> y ∈ content (number g) -> add_cmp x y < 0.
Proof.
  intros [Hh Hs _] Hij Hi Hj Hx Hy. rewrite list.Forall_lookup in Hh.
  destruct (file_bounds _ _ (Hh i f Hi)) as (a0 & b & _ & Eb & _ & _ & _ & Hob & Hin & _).
  destruct (file_bounds _ _ (Hh j g Hj)) as (a & b0 & Ea & _ & _ & _ & Hoa & _ & Hin' & _).
  assert (Hba : add_cmp b a < 0).
  { rewrite <- add_ikey_cmp2, <- Ea, <- Eb by done. exact (sorted_lookup _ files i j f g Hs Hij Hi Hj). }
  assert (Hxa : add_cmp x a < 0).
  { destruct (Hin x Hx) as [_ [Ex|Hxb]]; [by rewrite Ex|by eapply add_cmp_trans]. }
  destruct (Hin' y Hy) as [[Ey|Hay] _]; [by rewrite Ey|by eapply add_cmp_trans].
Qed.

(** a key that increases along the files *)
Definition cut_at (files : list FileMetaData) (key : bytes) (n : nat) : Prop :=
  (n <= length files)%nat /\
  (forall j f, (j < n)%nat -> files !! j = Some f -> ikey_cmp (largest f) key < 0) /\
  (forall j f, (n <= j)%nat -> files !! j = Some f -> 0 <= ikey_cmp (largest f) key).

Lemma FindFile_loop_spec files key n fuel l r :
  Forall (fun f => file_holds f (content (number f))) files -> ikey_ok key -> cut_at files key n -> Z.of_nat (length files) < 2 ^ 31 ->
  (l <= n <= r)%nat -> (r <= length files)%nat -> (r - l <= fuel)%nat ->
  FindFile_loop fuel files key (Z.of_nat l) (Z.of_nat r) = Done (Z.of_nat n).
Proof.
  intros Hh Hk (Hn & Hlt & Hge) Hlen. revert l r; induction fuel as [|fuel IH]; intros l r Hlr Hr Hfuel; cbn [FindFile_loop].
  { rewrite (proj2 (Z.ltb_ge _ _)) by lia. do 2 f_equal. lia. }
  destruct (Z.ltb_spec (Z.of_nat l) (Z.of_nat r)) as [Hl|Hl]; [|do 2 f_equal; lia].
  rewrite u32_small by lia. set (m := ((l + r) / 2)%nat).
  assert (Em : (Z.of_nat l + Z.of_nat r) / 2 = Z.of_nat m) by (unfold m; rewrite Nat2Z.inj_div; f_equal; lia).
  assert (Hm : (l <= m < r)%nat).
  { unfold m. split; [apply Nat.div_le_lower_bound; lia|apply Nat.Div0.div_lt_upper_bound; lia]. }
  rewrite Em, Nat2Z.id. destruct (lookup_lt_is_Some_2 files m) as [f Hf]; [lia|]. rewrite Hf.
  rewrite list.Forall_lookup in Hh. destruct (file_bounds _ _ (Hh m f Hf)) as (a0 & b & _ & Eb & _ & _ & _ & Hob & _).
  destruct Hk as (u & tg & -> & Htg). rewrite Eb. unfold InternalKey_Encode.
  rewrite bool_decide_eq_false_2 by (unfold add_ikey; intros E; apply (f_equal length) in E; rewrite length_ikey in E; simpl in E; lia).
  cbn [negb c_assert mbind outcome_bind]. unfold add_ikey at 1. rewrite Internal_Compare_spec by (done || by apply add_tag_range).
  cbn [mbind outcome_bind]. rewrite <- (add_ikey_cmp b u tg), <- Eb by done.
  destruct (Z.ltb_spec (ikey_cmp (largest f) (ikey u tg)) 0) as [Hc|Hc].
  - replace (Z.of_nat m + 1) with (Z.of_nat (S m)) by lia. apply IH; [|lia|lia].
    split; [|lia]. destruct (decide (S m <= n)%nat); [done|]. specialize (Hge m f ltac:(lia) Hf). lia.
  - apply IH; [|lia|lia]. split; [lia|]. destruct (decide (n <= m)%nat); [done|]. specialize (Hlt m f ltac:(lia) Hf). lia.
Qed.

(** the files before some position have their largest key before [key] *)
Lemma files_cut_exists files key : level_ok files -> ikey_ok key -> exists n, cut_at files key n.
Proof.
  intros Hl (u & tg & -> & Htg). pose proof (lo_holds _ Hl) as Hh.
  assert (Hmono : forall i j f g, (i < j)%nat -> files !! i = Some f -> files !! j = Some g ->
    0 <= ikey_cmp (largest f) (ikey u tg) -> 0 <= ikey_cmp (largest g) (ikey u tg)).
  { intros i j f g Hij Hi Hj. rewrite list.Forall_lookup in Hh.
    destruct (file_bounds _ _ (Hh i f Hi)) as (a0 & b & _ & Eb & _ & Hb & _ & Hob & _).
    destruct (file_bounds _ _ (Hh j g Hj)) as (c0 & c & _ & Ec & _ & Hc & _ & Hoc & _).
    pose proof (level_entries files i j f g b c Hl Hij Hi Hj Hb Hc) as Hbc. rewrite Eb, Ec, !add_ikey_cmp by done.
    unfold add_cmp in Hbc. intros H. destruct (Z.lt_ge_cases (icompare (a_key c) (tag_of (a_seq c) (a_type c)) u tg) 0) as [H'|]; [|done].
    pose proof (icompare_trans _ _ _ _ _ _ Hbc H'). lia. }
  clear Hl Hh. induction files as [|f files IH].
  { exists 0%nat. split; [done|]. split; [intros; lia|]. by intros j g _ Hj. }
  destruct (Z.lt_ge_cases (ikey_cmp (largest f) (ikey u tg)) 0) as [Hf|Hf].
  - destruct IH as (n & Hn & Hlt & Hge); [intros i j a b Hij Hi Hj; by apply (Hmono (S i) (S j) a b); [lia|..]|].
    exists (S n). split; [simpl; lia|]. split; intros [|j] g Hj Hg; simplify_eq/=; [done|apply (Hlt j); [lia|done]|lia|apply (Hge j); [lia|done]].
  - exists 0%nat. split; [lia|]. split; [intros; lia|]. intros [|j] g _ Hg; [by simplify_eq/=|]. by apply (Hmono 0%nat (S j) f g); [lia|..].
Qed.

Lemma FindFile_spec files key :
  level_ok files -> ikey_ok key -> exists n, FindFile files key = Done (Z.of_nat n) /\ cut_at files key n.
Proof.
  intros Hl Hk. destruct (files_cut_exists files key Hl Hk) as (n & Hn). exists n. split; [|done]. unfold FindFile.
  pose proof (lo_length _ Hl). rewrite u32_small by lia. apply (FindFile_loop_spec files key n _ 0 (length files)); try done; try apply Hl; try lia.
  destruct Hn; lia.
Qed.

(** the file of a sorted level that decides a look-up *)
Lemma level_decides files u s n :
  0 <= s < 2 ^ 56 -> level_ok files -> cut_at files (ikey u (tag_of s kTypeValue)) n ->
  match files !! n with
  | None => newest_of (files_adds files) u s None
  | Some f =>
      (forall o, newest_of (content (number f)) u s o -> newest_of (files_adds files) u s o) /\
      (forall us, user_key_of (smallest f) = Done us -> lex u us < 0 -> newest_of (content (number f)) u s None)
  end.
Proof.
  intros Hs Hl (Hn & Hlt & Hge). assert (Ht : 0 <= tag_of s kTypeValue < 2 ^ 64) by (by apply tag_of_range).
  pose proof (lo_holds _ Hl) as Hh. rewrite list.Forall_lookup in Hh.
  assert (Hbefore : forall j f, (j < n)%nat -> files !! j = Some f -> newest_of (content (number f)) u s None).
  { intros j f Hj Hf x Hx Hk. destruct (file_bounds _ _ (Hh j f Hf)) as (a0 & b & _ & Eb & _ & _ & _ & Hob & Hin & _).
    pose proof (Hlt j f Hj Hf) as Hc. rewrite Eb, add_ikey_cmp in Hc by done.
    apply (lookup_cmp_same x u s Hk). destruct (Hin x Hx) as [_ [Ex|Hxb]]; [by rewrite Ex|]. by eapply icompare_trans. }
  destruct (files !! n) as [f|] eqn:Ef.
  - destruct (file_bounds _ _ (Hh n f Ef)) as (a & b & Ea & Eb & Hina & Hinb & _ & Hob & Hin & Hlex). split.
    + intros o Ho. rewrite <- (take_drop_middle files n f Ef), files_adds_app. apply newest_of_none_app.
      { apply files_none. intros g Hg. apply list_elem_of_lookup in Hg as (j & Hj). apply lookup_take_Some in Hj as [Hj Hjn].
        by eapply Hbefore. }
      change (f :: drop (S n) files) with ([f] ++ drop (S n) files). rewrite files_adds_app.
      assert (E1 : files_adds [f] = content (number f)) by (unfold files_adds; simpl; by rewrite app_nil_r).
      rewrite E1. destruct o as [c|].
      * apply newest_of_some_app; [|done]. intros x y Hx (g & Hg & Hy)%elem_of_files_adds Hxy.
        apply list_elem_of_lookup in Hg as (j & Hj). rewrite lookup_drop in Hj. apply add_cmp_same; [|done].
        by eapply (level_entries files n (S n + j) f g); [done|lia|..].
      * apply newest_of_none_app; [done|]. intros y (g & Hg & Hy)%elem_of_files_adds Hk. exfalso.
        apply list_elem_of_lookup in Hg as (j & Hj). rewrite lookup_drop in Hj.
        assert (Hby : add_cmp b y < 0) by (eapply (level_entries files n (S n + j) f g); [done|lia|done..]).
        pose proof (Hge n f ltac:(lia) Ef) as Hc. rewrite Eb, add_ikey_cmp in Hc by done.
        pose proof (add_cmp_lex _ _ Hby) as Hle. rewrite Hk in Hle.
        destruct (decide (a_key b = u)) as [Hkb|Hkb].
        { specialize (Ho b Hinb Hkb). apply (lookup_cmp_same b u s Hkb) in Ho. lia. }
        assert (lex (a_key b) u < 0) as El.
        { destruct (lex_range (a_key b) u) as [E|[E|E]]; [lia|by apply lex_eq in E|lia]. }
        apply (icompare_user _ (tag_of (a_seq b) (a_type b)) _ (tag_of s kTypeValue)) in El. lia.
    + intros us Eus Hu x Hx Hk. exfalso. destruct (Hlex x Hx) as [H1 _]. unfold user_key_of in Eus. rewrite Ea in Eus.
      unfold add_ikey in Eus. rewrite ExtractUserKey_ikey in Eus. injection Eus as <-. rewrite (lex_antisym (a_key a) u) in Hu.
      subst u. pose proof (lex_antisym (a_key a) (a_key x)). lia.
  - apply files_none. intros g Hg. apply list_elem_of_lookup in Hg as (j & Hj). apply lookup_ge_None in Ef.
    pose proof (lookup_lt_Some _ _ _ Hj). eapply Hbefore; [|done]. lia.
Qed.

(** ** A version *)

(** what compactions keep of every version: the files of each level in order,
    and no entry older than those of its key in the levels below it, or in the
    older files of level 0 *)
Record version_ok (v : Version) : Prop := {
  vo_levels : length (files_ v) = Z.to_nat kNumLevels;
  vo_level0 : forall files, files_ v !! 0%nat = Some files -> Forall (fun f => file_holds f (content (number f))) files;
  vo_sorted : forall l files, files_ v !! S l = Some files -> level_ok files;
  vo_numbers : forall files f g, files_ v !! 0%nat = Some files -> f ∈ files -> g ∈ files -> number g < number f ->
    newer_than (content (number f)) (content (number g));
  vo_distinct : forall files, files_ v !! 0%nat = Some files -> NoDup (map number files);
  vo_deeper : forall l m files files', (l < m)%nat -> files_ v !! l = Some files -> files_ v !! m = Some files' ->
    newer_than (files_adds files) (files_adds files') }.

Definition version_adds (v : Version) : list add := concat (map files_adds (files_ v)).

Lemma elem_of_levels a levels :
  a ∈ concat (map files_adds levels) <-> exists i files, levels !! i = Some files /\ a ∈ files_adds files.
Proof.
  induction levels as [|files levels IH]; simpl.
  - split; [by intros ?%elem_of_nil|by intros (i & files & ? & _)].
  - rewrite elem_of_app, IH. split.
    + intros [Ha|(i & files' & Hi & Ha)]; [by exists 0%nat, files|by exists (S i), files'].
    + intros ([|i] & files' & Hi & Ha); simplify_eq/=; [by left|right; by exists i, files'].
Qed.

(** *** [ForEachOverlapping] as a walk through a list of files *)

(** the files of level 0 that can hold [u], the newest first *)
Definition candidates0 (u : bytes) (files : list FileMetaData) : outcome (list FileMetaData) :=
  tmp ← holding_key u files; Done (merge_sort newer_eq tmp).

Lemma holding_key_spec u s files :
  Forall (fun f => file_holds f (content (number f))) files ->
  exists tmp, holding_key u files = Done tmp /\ sublist tmp files /\
    forall f, f ∈ files -> f ∉ tmp -> newest_of (content (number f)) u s None.
Proof.
  induction 1 as [|f files Hf _ IH]; [exists []; split; [done|]; split; [constructor|]; by intros f ?%elem_of_nil|].
  destruct IH as (tmp & E & Hsub & Hno). destruct (file_user_keys f _ Hf) as (us & ul & Es & El & Hlex).
  cbn [holding_key]. rewrite Es. cbn [mbind outcome_bind]. rewrite El, E. unfold Compare. rewrite (slice_compare_lex u us).
  destruct (Z.leb_spec 0 (lex u us)) as [H1|H1]; cbn [mbind outcome_bind];
    [rewrite (slice_compare_lex u ul); destruct (Z.leb_spec (lex u ul) 0) as [H2|H2]|].
  - exists (f :: tmp). split; [done|]. split; [by constructor|]. intros g [->|Hg]%elem_of_cons Hn; [exfalso; apply Hn; by left|].
    apply Hno; [done|]. intros Hin. apply Hn. by right.
  - exists tmp. split; [done|]. split; [by apply sublist_cons|]. intros g [->|Hg]%elem_of_cons Hn; [|by apply Hno].
    intros x Hx <-. destruct (Hlex x Hx). lia.
  - exists tmp. split; [done|]. split; [by apply sublist_cons|]. intros g [->|Hg]%elem_of_cons Hn; [|by apply Hno].
    intros x Hx <-. destruct (Hlex x Hx). pose proof (lex_antisym us (a_key x)). lia.
Qed.

Lemma newest_of_more es es' u s o :
  (forall a, a ∈ es -> a ∈ es') -> (forall a, a ∈ es' -> a_key a = u -> a_seq a <= s -> a ∈ es) ->
  newest_of es u s o -> newest_of es' u s o.
Proof.
  intros Hin Hback. destruct o as [a|].
  - intros (Ha & Hk & Hs & Hmax). repeat split; [by apply Hin|done|done|]. intros b Hb Hkb Hsb. apply Hmax; [by apply Hback|done|done].
  - intros Hno b Hb Hk. destruct (Z.lt_ge_cases s (a_seq b)); [done|]. apply Hno; [|done]. by apply Hback.
Qed.

(** [std::sort] by number: the newest first *)
Lemma sorted_strictly files :
  StronglySorted newer_eq files -> NoDup (map number files) -> StronglySorted (fun f g => number g < number f) files.
Proof.
  induction 1 as [|f files Hs IH Hf]; [constructor|]. cbn [map]. intros [Hn Hnd]%list.NoDup_cons. constructor; [by apply IH|].
  rewrite list.Forall_forall in Hf |- *. intros g Hg. specialize (Hf g Hg). unfold newer_eq in Hf.
  destruct (Z.eq_dec (number g) (number f)) as [E|]; [|lia]. exfalso. apply Hn. rewrite <- E. by apply list_elem_of_fmap_2.
Qed.

Lemma sublist_map {A B} (f : A -> B) l1 l2 : sublist l1 l2 -> sublist (map f l1) (map f l2).
Proof. induction 1; simpl; by constructor. Qed.

#[local] Instance newer_eq_trans : Transitive newer_eq.
Proof. intros a b c. unfold newer_eq. lia. Qed.
#[local] Instance newer_eq_total : Total newer_eq.
Proof. intros a b. unfold newer_eq. lia. Qed.

(** at most how many files a walk reads *)
Definition files_read (v : Version) : nat := match files_ v with files :: _ => length files + 6 | [] => 6 end.

Section Walk.
Context {A : Type} (func : A -> Z -> FileMetaData -> outcome (A * bool)) (v : Version) (Hv : version_ok v) (u : bytes) (s : Z).
Context (Hs : 0 <= s < 2 ^ 56).
(** the argument while nothing is found and at least so many more calls can be
    made, and once an entry is found *)
Context (searching : nat -> A -> Prop) (stopped : A -> add -> Prop).
Definition walked (n : nat) (arg : A) (o : option add) : Prop := match o with None => searching n arg | Some a => stopped arg a end.
Context (fewer : forall n arg, searching (S n) arg -> searching n arg).
Context (func_ok : forall l files f n arg, files_ v !! l = Some files -> f ∈ files -> searching (S n) arg ->
  exists arg' o, func arg (Z.of_nat l) f = Done (arg', match o with None => true | Some _ => false end) /\
    newest_of (content (number f)) u s o /\ walked n arg' o).

Let k := ikey u (tag_of s kTypeValue).

Lemma fewer_le n m arg : (n <= m)%nat -> searching m arg -> searching n arg.
Proof. induction 1; [done|]. intros Hm. by apply IHle, fewer. Qed.

Lemma each_newest_spec files tmp n arg :
  files_ v !! 0%nat = Some files -> (forall f, f ∈ tmp -> f ∈ files) -> StronglySorted (fun f g => number g < number f) tmp ->
  searching (length tmp + n) arg ->
  exists arg' o, each_newest func arg tmp = Done (arg', match o with None => true | Some _ => false end) /\
    newest_of (files_adds tmp) u s o /\ walked n arg' o.
Proof.
  intros H0 Hin Hsort. revert arg Hin; induction Hsort as [|f tmp Hsort IH Hf]; intros arg Hin Ha; cbn [length Nat.add] in Ha.
  { exists arg, None. split; [done|]. split; [|done]. by intros b ?%elem_of_nil. }
  destruct (func_ok 0 files f _ arg H0 (Hin f ltac:(by left)) Ha) as (arg1 & o1 & E1 & Ho1 & Hw1).
  cbn [each_newest]. change (Z.of_nat 0) with 0 in E1. rewrite E1. cbn [mbind outcome_bind].
  assert (Ec : files_adds (f :: tmp) = content (number f) ++ files_adds tmp) by done. rewrite Ec.
  destruct o1 as [a|].
  - exists arg1, (Some a). split; [done|]. split; [|done]. apply newest_of_some_app; [|done].
    intros x y Hx (g & Hg & Hy)%elem_of_files_adds. rewrite list.Forall_forall in Hf.
    apply (vo_numbers v Hv files f g H0); [apply Hin; by left|apply Hin; by right|by apply Hf|done|done].
  - destruct (IH arg1) as (arg' & o & E & Ho & Hw); [intros g Hg; apply Hin; by right|done|].
    exists arg', o. split; [done|]. split; [|done]. by apply newest_of_none_app.
Qed.

Lemma level0_spec files n arg :
  files_ v !! 0%nat = Some files -> searching (length files + n) arg ->
  exists tmp arg' o, holding_key u files = Done tmp /\
    each_newest func arg (merge_sort newer_eq tmp) = Done (arg', match o with None => true | Some _ => false end) /\
    newest_of (files_adds files) u s o /\ walked n arg' o.
Proof.
  intros H0 Ha. destruct (holding_key_spec u s files (vo_level0 v Hv files H0)) as (tmp & E & Hsub & Hno).
  pose proof (merge_sort_Permutation newer_eq tmp) as Hp.
  destruct (each_newest_spec files (merge_sort newer_eq tmp) n arg H0) as (arg' & o & E' & Ho & Hw).
  - intros f Hf. rewrite Hp in Hf. by eapply elem_of_sublist.
  - apply sorted_strictly; [by apply StronglySorted_merge_sort; apply _|]. rewrite (Permutation_map number Hp).
    eapply sublist_NoDup; [by apply (vo_distinct v Hv)|by apply sublist_map].
  - eapply fewer_le; [|exact Ha]. rewrite (Permutation_length Hp). apply sublist_length in Hsub. lia.
  - exists tmp, arg', o. split; [done|]. split; [done|]. split; [|done]. revert Ho. apply newest_of_more.
    + intros a (f & Hf & Hin)%elem_of_files_adds. apply elem_of_files_adds. exists f. split; [|done]. rewrite Hp in Hf. by eapply elem_of_sublist.
    + intros a (f & Hf & Hin)%elem_of_files_adds Hk Hsa. apply elem_of_files_adds. exists f. split; [|done]. rewrite Hp.
      destruct (decide (f ∈ tmp)) as [|Hn]; [done|]. specialize (Hno f Hf Hn a Hin Hk). lia.
Qed.

Lemma each_level_spec levels l n arg :
  (forall i files, levels !! i = Some files -> files_ v !! (S l + i)%nat = Some files) -> searching (length levels + n) arg ->
  exists arg' o, each_level func arg u k (Z.of_nat (S l)) levels = Done arg' /\
    newest_of (concat (map files_adds levels)) u s o /\ walked n arg' o.
Proof.
  revert l arg; induction levels as [|files levels IH]; intros l arg Hl Ha; cbn [length Nat.add] in Ha.
  { exists arg, None. split; [done|]. split; [|done]. by intros b ?%elem_of_nil. }
  assert (Hfiles : files_ v !! S l = Some files) by (rewrite <- (Hl 0%nat files eq_refl); f_equal; lia).
  assert (Hrest : forall i files', levels !! i = Some files' -> files_ v !! (S (S l) + i)%nat = Some files').
  { intros i files' Hi. rewrite <- (Hl (S i) files' Hi). f_equal. lia. }
  assert (Hskip : newest_of (files_adds files) u s None ->
    exists arg' o, each_level func arg u k (Z.of_nat (S l) + 1) levels = Done arg' /\
      newest_of (concat (map files_adds (files :: levels))) u s o /\ walked n arg' o).
  { intros Hno. destruct (IH (S l) arg Hrest (fewer _ _ Ha)) as (arg' & o & E & Ho & Hw). exists arg', o.
    replace (Z.of_nat (S l) + 1) with (Z.of_nat (S (S l))) by lia. split; [done|]. split; [|done]. by apply newest_of_none_app. }
  cbn [each_level]. destruct (bool_decide_reflect (files = [])) as [->|Hne].
  { apply Hskip. by intros b ?%elem_of_nil. }
  pose proof (vo_sorted v Hv l files Hfiles) as Hlok.
  assert (Hk : ikey_ok k) by (exists u, (tag_of s kTypeValue); split; [done|by apply tag_of_range]).
  destruct (FindFile_spec files k Hlok Hk) as (i & E & Hcut). rewrite E. cbn [mbind outcome_bind]. rewrite Nat2Z.id.
  pose proof (level_decides files u s i Hs Hlok Hcut) as Hdec. destruct (files !! i) as [f|] eqn:Ef; [|by apply Hskip].
  destruct Hdec as [Hdec Hsmall]. pose proof (lo_holds _ Hlok) as Hh. rewrite list.Forall_lookup in Hh.
  destruct (file_user_keys f _ (Hh i f Ef)) as (us & ul & Es & _). rewrite Es. cbn [mbind outcome_bind]. unfold Compare.
  rewrite slice_compare_lex. destruct (Z.ltb_spec (lex u us) 0) as [Hlt|Hge].
  { apply Hskip. apply Hdec. by apply (Hsmall us). }
  destruct (func_ok (S l) files f (length levels + n)%nat arg Hfiles) as (arg1 & o1 & E1 & Ho1 & Hw1); [by eapply list_elem_of_lookup_2|done|].
  rewrite E1. cbn [mbind outcome_bind]. apply Hdec in Ho1. destruct o1 as [a|].
  - exists arg1, (Some a). split; [done|]. split; [|done]. cbn [map concat]. apply newest_of_some_app; [|done].
    intros x y Hx (j & files' & Hi & Hy)%elem_of_levels.
    apply (vo_deeper v Hv (S l) (S (S l) + j) files files'); [lia|done|by apply Hrest|done|done].
  - destruct (IH (S l) arg1 Hrest Hw1) as (arg' & o & E' & Ho & Hw). exists arg', o.
    replace (Z.of_nat (S l) + 1) with (Z.of_nat (S (S l))) by lia. split; [done|]. split; [|done]. by apply newest_of_none_app.
Qed.

(** A walk over the files a key can be in, the newest first, ends at the file
    with the newest entry of the key. *)
Lemma ForEachOverlapping_spec n arg :
  searching (files_read v + n) arg ->
  exists arg' o, ForEachOverlapping func v u k arg = Done arg' /\ newest_of (version_adds v) u s o /\ walked n arg' o.
Proof.
  intros Ha. pose proof (vo_levels v Hv) as Hlen. unfold ForEachOverlapping, level_files, version_adds.
  assert (exists files levels, files_ v = files :: levels) as (files & levels & Ev) by (destruct (files_ v); [done|eauto]).
  rewrite Ev. cbn [drop]. change ((files :: levels) !! Z.to_nat 0) with (Some files). cbn [Z.ltb Z.compare mbind outcome_bind].
  assert (H0 : files_ v !! 0%nat = Some files) by (by rewrite Ev).
  destruct (level0_spec files (length levels + n) arg H0) as (tmp & arg1 & o1 & E & E1 & Ho1 & Hw1).
  { unfold files_read in Ha. rewrite Ev in Ha, Hlen. cbn [length] in Hlen. change (Z.to_nat kNumLevels) with 7%nat in Hlen.
    eapply fewer_le; [|exact Ha]. lia. }
  rewrite E. cbn [mbind outcome_bind]. rewrite E1. cbn [mbind outcome_bind map concat]. destruct o1 as [a|].
  - exists arg1, (Some a). split; [done|]. split; [|done]. apply newest_of_some_app; [|done].
    intros x y Hx (i & files' & Hi & Hy)%elem_of_levels.
    apply (vo_deeper v Hv 0 (S i) files files'); [lia|done|by rewrite Ev|done|done].
  - destruct (each_level_spec levels 0 n arg1) as (arg' & o & E' & Ho & Hw); [intros i files' Hi; by rewrite Ev|done|].
    change (Z.of_nat 1) with 1 in E'. exists arg', o. split; [done|]. split; [|done]. by apply newest_of_none_app.
Qed.
End Walk.

(** ** [Get] *)

Section Get.
Context {T : Type} `{TablesOk T} (v : Version) (Hv : version_ok v).

(** the cache has every file of the version *)
Record tables_good (t : T) (u : bytes) (s : Z) : Prop := {
  tg_files : forall l files f, files_ v !! l = Some files -> f ∈ files ->
    tables_hold t (number f) (file_size f) (map add_kv (content (number f)));
  tg_key : tables_key t (ikey u (tag_of s kTypeValue)) }.

Definition get_searching (u : bytes) (s : Z) (value : bytes) (low : Z) (n : nat) (st : State) : Prop :=
  st_saver st = {| saver_state := kNotFound; saver_user_key := u; saver_value := value |} /\ st_found st = false /\
  tables_good (st_tables st) u s /\ low + Z.of_nat n <= tables_opens (st_tables st).
Definition get_stopped (u : bytes) (s : Z) (value : bytes) (low : Z) (st : State) (a : add) : Prop :=
  st_found st = (match a_type a with kTypeValue => true | kTypeDeletion => false end) /\ st_s st = OK /\
  saver_value (st_saver st) = (match a_type a with kTypeValue => a_value a | kTypeDeletion => value end) /\
  tables_good (st_tables st) u s /\ low <= tables_opens (st_tables st).

Lemma ParseInternalKey_add a :
  add_ok a -> ParseInternalKey (add_ikey a) =
    Done (true, Some {| user_key := a_key a; sequence := a_seq a; type := type_code (a_type a) |}).
Proof.
  intros (Hs & _). destruct (ParseInternalKey_roundtrip {| user_key := a_key a; sequence := a_seq a; type := type_code (a_type a) |}) as (bs & E & _ & P);
    [done|apply type_code_range|]. unfold AppendInternalKey in E. cbn [user_key sequence type] in E. rewrite PackSequenceAndType_spec in E by done.
  cbn [mbind outcome_bind] in E. injection E as <-. exact P.
Qed.

Lemma Match_spec u s value low ro l files f n st :
  0 <= s < 2 ^ 56 -> 0 <= low -> files_ v !! l = Some files -> f ∈ files -> get_searching u s value low (S n) st ->
  exists st' o, Match ro (ikey u (tag_of s kTypeValue)) st (Z.of_nat l) f = Done (st', match o with None => true | Some _ => false end) /\
    newest_of (content (number f)) u s o /\ walked (get_searching u s value low) (get_stopped u s value low) n st' o.
Proof.
  intros Hs Hlow Hl Hf (Esv & Efd & Hg & Hop). assert (Ht : 0 <= tag_of s kTypeValue < 2 ^ 64) by (by apply tag_of_range).
  assert (Hh : file_holds f (content (number f))).
  { destruct l as [|l]; [pose proof (vo_level0 v Hv files Hl) as Hh|pose proof (lo_holds _ (vo_sorted v Hv l files Hl)) as Hh];
      rewrite list.Forall_forall in Hh; by apply Hh. }
  destruct (tables_Get_ok (st_tables st) _ _ _ ro u (tag_of s kTypeValue) (tg_files _ _ _ Hg l files f Hl Hf) Ht (tg_key _ _ _ Hg) ltac:(lia))
    as (result & t' & E & Hin & Hfor & Hhold & Hkey & Hop').
  destruct (first_ge_newest _ u s Hs (fh_ok _ _ Hh) (fh_sorted _ _ Hh)) as (o & Ho & Efirst). rewrite Efirst in Hfor.
  assert (Hg' : tables_good t' u s).
  { destruct Hg as [Hg1 Hg2]. split; [intros l' fs g Hl' Hg'; apply Hhold; by eapply Hg1|by apply Hkey]. }
  unfold Match. rewrite E. cbn [mbind outcome_bind]. rewrite Esv.
  set (stats := match seek_file (st_stats st) with None => _ | Some _ => _ end).
  destruct result as [[key val]|].
  - specialize (Hin _ eq_refl). apply list_elem_of_fmap in Hin as (a & Ea & Ha). unfold add_kv in Ea. injection Ea as -> ->.
    pose proof (fh_ok _ _ Hh) as Hok. rewrite list.Forall_forall in Hok. specialize (Hok a Ha).
    fold (add_kv a) in Hfor. rewrite for_user_kv in Hfor. unfold SaveValue. rewrite ParseInternalKey_add by done.
    cbn [mbind outcome_bind negb saver_user_key saver_value saver_state user_key type].
    destruct (decide (a_key a = u)) as [Hk|Hk].
    + destruct o as [b|]; [|done]. cbn [fmap option_fmap option_map] in Hfor. injection Hfor as Ek Ev.
      assert (Etype : a_type a = a_type b).
      { pose proof (ParseInternalKey_add a Hok) as P1. destruct Ho as (Hb & _). pose proof (fh_ok _ _ Hh) as Hokb.
        rewrite list.Forall_forall in Hokb. pose proof (ParseInternalKey_add b (Hokb b Hb)) as P2. rewrite Ek, P2 in P1.
        injection P1 as _ _ E'. by destruct (a_type a), (a_type b). }
      rewrite (proj2 (Z.eqb_eq _ _)) by (by apply Compare_total). rewrite Etype.
      destruct (a_type b) eqn:Eb; cbn [type_code Z.eqb Pos.eqb mbind outcome_bind saver_state bool_decide].
      all: rewrite (bool_decide_eq_true_2 (OK = OK)) by done; cbn [negb].
      all: eexists _, (Some b); (split; [reflexivity|]); (split; [done|]).
      all: unfold walked, get_stopped; rewrite Eb; cbn; repeat split; try done; [apply Hg'|apply Hg'|lia].
    + destruct o as [b|]; [done|]. rewrite (proj2 (Z.eqb_neq _ _)) by (by intros ?%Compare_total).
      cbn [mbind outcome_bind saver_state]. rewrite (bool_decide_eq_true_2 (OK = OK)) by done. cbn [negb].
      eexists _, None. split; [reflexivity|]. split; [done|]. split; [done|]. split; [done|]. split; [done|]. cbn; lia.
  - destruct o as [b|]; [done|]. cbn [mbind outcome_bind saver_state]. rewrite (bool_decide_eq_true_2 (OK = OK)) by done. cbn [negb].
    eexists _, None. split; [reflexivity|]. split; [done|]. split; [done|]. split; [done|]. split; [done|]. cbn; lia.
Qed.

Lemma Version_Get_spec ro u s lk value t :
  0 <= s < 2 ^ 56 -> blen u + 8 < 2 ^ 32 -> make_LookupKey u s = Done lk -> tables_good t u s ->
  Z.of_nat (files_read v) <= tables_opens t ->
  exists o stats t', newest_of (version_adds v) u s o /\ tables_good t' u s /\ tables_opens t - Z.of_nat (files_read v) <= tables_opens t' /\
    Get v ro lk value t = Done (match found_of o with Found x => (x, Some OK, stats, t') | _ => (value, None, stats, t') end).
Proof.
  intros Hs Hu Elk Hg Hop. destruct (make_LookupKey_spec u s Hs Hu) as (lk' & Elk' & _ & Ek & Eu & _). rewrite Elk in Elk'. injection Elk' as <-.
  unfold Get. rewrite Ek, Eu. cbv zeta. set (low := tables_opens t - Z.of_nat (files_read v)). assert (Hlow : 0 <= low) by lia.
  destruct (ForEachOverlapping_spec (Match ro (ikey u (tag_of s kTypeValue))) v Hv u s Hs
    (get_searching u s value low) (get_stopped u s value low)
    ltac:(intros n st (? & ? & ? & ?); do 3 (split; [done|]); lia)
    (fun l files f n st Hl Hf => Match_spec u s value low ro l files f n st Hs Hlow Hl Hf) 0
    {| st_saver := {| saver_state := kNotFound; saver_user_key := u; saver_value := value |};
       st_stats := {| seek_file := None; seek_file_level := -1 |}; last_file_read := None;
       last_file_read_level := -1; st_s := OK; st_found := false; st_tables := t |}) as (st & o & E & Ho & Hw);
    [split; [done|]; split; [done|]; split; [done|]; cbn; lia|].
  rewrite E. cbn [mbind outcome_bind]. exists o, (st_stats st), (st_tables st). split; [done|]. destruct o as [a|]; simpl in Hw.
  - destruct Hw as (Ef & Es & Ev & Hg' & Hop'). split; [done|]. split; [done|]. rewrite Ef, Es, Ev. simpl. by destruct (a_type a).
  - destruct Hw as (Es & Ef & Hg' & Hop'). split; [done|]. split; [lia|]. by rewrite Es, Ef.
Qed.
End Get.
End Content.
