(* ===== verification/VersionLevels.v ===== *)
(** * VersionLevels: which files a range of keys overlaps, and the level for a new file

    [SomeFileOverlapsRange], [GetOverlappingInputs] with its restarts, and
    [PickLevelForMemTableOutput]. *)

From Stdlib.Strings Require Import Byte.
From Stdlib.Sorting Require Import Sorted.
From S2P Require Import Prelude Status Coding DbFormat WriteBatch SkipList MemTable Crc32c Log LogSpec Bloom FilterBlock Block BlockSpec Format TableBuilder Table TableSpec VersionEdit Version VersionSpec.

Lemma lex_lt_gt a b : lex a b < 0 <-> 0 < lex b a.
Proof. pose proof (lex_antisym a b). lia. Qed.

Lemma maxtag_ge a : add_ok a -> tag_of (a_seq a) (a_type a) <= maxtag.
Proof.
  intros (Hs & _). unfold maxtag, kMaxSequenceNumber. change (Z.shiftl 1 56) with (2 ^ 56). apply tag_le. lia.
Qed.

(** the internal key a search for [u] starts at *)
Lemma AppendInternalKey_max u :
  AppendInternalKey [] {| user_key := u; sequence := kMaxSequenceNumber; type := type_code kValueTypeForSeek |} = Done (ikey u maxtag).
Proof.
  unfold AppendInternalKey. cbn [user_key sequence type]. unfold kValueTypeForSeek.
  by rewrite PackSequenceAndType_spec by (unfold kMaxSequenceNumber; change (Z.shiftl 1 56) with (2 ^ 56); lia).
Qed.

Section Content.
Variable content : Z -> list add.
Implicit Types files : list FileMetaData.

(** the user keys at the ends of a file *)
Definition first_user (f : FileMetaData) : bytes := match user_key_of (smallest f) with Done u => u | _ => [] end.
Definition last_user (f : FileMetaData) : bytes := match user_key_of (largest f) with Done u => u | _ => [] end.

(** a range of user keys, whose ends can be open, and a file *)
Definition not_above (lo : option bytes) (u : bytes) : Prop := match lo with Some l => lex l u <= 0 | None => True end.
Definition not_below (hi : option bytes) (u : bytes) : Prop := match hi with Some h => lex u h <= 0 | None => True end.
Lemma not_above_stable lo u : (~ not_above lo u -> False) -> not_above lo u.
Proof. destruct lo; simpl; [lia|done]. Qed.
Lemma not_below_stable hi u : (~ not_below hi u -> False) -> not_below hi u.
Proof. destruct hi; simpl; [lia|done]. Qed.
Definition overlaps (lo hi : option bytes) (f : FileMetaData) : Prop := not_above lo (last_user f) /\ not_below hi (first_user f).

Lemma file_users f es :
  file_holds f es -> user_key_of (smallest f) = Done (first_user f) /\ user_key_of (largest f) = Done (last_user f) /\
    lex (first_user f) (last_user f) <= 0 /\
    (forall x, x ∈ es -> lex (first_user f) (a_key x) <= 0 /\ lex (a_key x) (last_user f) <= 0).
Proof.
  intros Hf. destruct (file_user_keys f es Hf) as (us & ul & E1 & E2 & H). unfold first_user, last_user. rewrite E1, E2.
  split; [done|]. split; [done|]. split; [|done]. destruct (file_bounds f es Hf) as (a & _ & _ & _ & Ha & _).
  destruct (H a Ha). by eapply lex_le_trans.
Qed.

(** a file that does not overlap a range has no key in it *)
Lemma no_overlap_keys f es lo hi x :
  file_holds f es -> ~ overlaps lo hi f -> x ∈ es -> ~ (not_above lo (a_key x) /\ not_below hi (a_key x)).
Proof.
  intros Hf Hno Hx [H1 H2]. apply Hno. destruct (file_users f es Hf) as (_ & _ & _ & H). destruct (H x Hx). split.
  - destruct lo; [|done]. simpl in *. by eapply lex_le_trans.
  - destruct hi; [|done]. simpl in *. by eapply lex_le_trans.
Qed.

Lemma AfterFile_spec lo f es : file_holds f es -> exists b, AfterFile lo f = Done b /\ (b = true <-> ~ not_above lo (last_user f)).
Proof.
  intros Hf. destruct (file_users f es Hf) as (_ & E & _). destruct lo as [u|]; [|exists false; split; [done|simpl; naive_solver]].
  unfold AfterFile. rewrite E. eexists. split; [reflexivity|]. unfold Compare. rewrite slice_compare_lex, Z.ltb_lt. simpl. lia.
Qed.
Lemma BeforeFile_spec hi f es : file_holds f es -> exists b, BeforeFile hi f = Done b /\ (b = true <-> ~ not_below hi (first_user f)).
Proof.
  intros Hf. destruct (file_users f es Hf) as (E & _). destruct hi as [u|]; [|exists false; split; [done|simpl; naive_solver]].
  unfold BeforeFile. rewrite E. eexists. split; [reflexivity|]. unfold Compare. rewrite slice_compare_lex, Z.ltb_lt. simpl.
  rewrite (lex_antisym (first_user f) u). lia.
Qed.

Lemma some_file_overlaps_spec files lo hi :
  Forall (fun f => file_holds f (content (number f))) files ->
  exists b, some_file_overlaps files lo hi = Done b /\ (b = true <-> Exists (overlaps lo hi) files).
Proof.
  induction 1 as [|f files Hf _ IH]; [exists false; split; [done|]; by split; [|intros ?%Exists_nil]|]. destruct IH as (b & E & Hb).
  cbn [some_file_overlaps]. destruct (AfterFile_spec lo f _ Hf) as (b1 & E1 & Hb1). rewrite E1. cbn [mbind outcome_bind].
  destruct (BeforeFile_spec hi f _ Hf) as (b2 & E2 & Hb2).
  pose proof (Exists_cons (overlaps lo hi) f files) as HE. unfold overlaps at 2 in HE.
  destruct b1; cbn [mbind outcome_bind].
  - exists b. split; [done|]. rewrite HE, Hb. naive_solver.
  - rewrite E2. cbn [mbind outcome_bind]. assert (not_above lo (last_user f)).
    { apply not_above_stable. by intros ?%Hb1. }
    destruct b2; [exists b; split; [done|]; rewrite HE, Hb; naive_solver|]. exists true. split; [done|]. split; [|done]. intros _. apply HE. left. split; [done|].
    apply not_below_stable. by intros ?%Hb2.
Qed.

(** in a sorted level the first keys increase *)
Lemma level_first_users files i j f g :
  level_ok content files -> (i < j)%nat -> files !! i = Some f -> files !! j = Some g -> lex (last_user f) (first_user g) <= 0.
Proof.
  intros Hl Hij Hi Hj. pose proof (lo_holds _ _ Hl) as Hh. rewrite list.Forall_lookup in Hh.
  destruct (file_bounds _ _ (Hh i f Hi)) as (a0 & b & _ & Eb & _ & Hb & _ & _ & _).
  destruct (file_bounds _ _ (Hh j g Hj)) as (a & b0 & Ea & _ & Ha & _ & _ & _ & _).
  pose proof (level_entries content files i j f g b a Hl Hij Hi Hj Hb Ha) as Hba. apply add_cmp_lex in Hba.
  unfold last_user, first_user, user_key_of. rewrite Ea, Eb. unfold add_ikey. by rewrite !ExtractUserKey_ikey.
Qed.

Lemma SomeFileOverlapsRange_spec sorted files lo hi :
  Forall (fun f => file_holds f (content (number f))) files -> (sorted = true -> level_ok content files) ->
  exists b, SomeFileOverlapsRange sorted files lo hi = Done b /\ (b = true <-> Exists (overlaps lo hi) files).
Proof.
  intros Hh Hl. unfold SomeFileOverlapsRange. destruct sorted; cbn [negb]; [|by apply some_file_overlaps_spec]. specialize (Hl eq_refl).
  pose proof Hh as Hh'. rewrite list.Forall_lookup in Hh'.
  assert (exists n, (match lo with
    | None => Done 0
    | Some u => small_key ← AppendInternalKey [] {| user_key := u; sequence := kMaxSequenceNumber; type := type_code kValueTypeForSeek |};
                small_key ← InternalKey_Encode small_key; FindFile files small_key end) = Done (Z.of_nat n) /\
    (forall j f, (j < n)%nat -> files !! j = Some f -> ~ not_above lo (last_user f)) /\
    (forall j f, (n <= j)%nat -> files !! j = Some f -> not_above lo (last_user f))) as (n & E & Hlt & Hge).
  { destruct lo as [u|]; [|exists 0%nat; split; [done|]; split; [lia|done]]. rewrite AppendInternalKey_max. cbn [mbind outcome_bind].
    unfold InternalKey_Encode. rewrite bool_decide_eq_false_2 by (unfold ikey; intros E%(f_equal length); rewrite length_app in E; simpl in E; lia).
    cbn [negb c_assert mbind outcome_bind]. pose proof maxtag_range as Hmax.
    destruct (FindFile_spec content files (ikey u maxtag) Hl) as (n & E & _ & Hlt & Hge); [by exists u, maxtag|].
    exists n. split; [done|].
    assert (Hcmp : forall j f, files !! j = Some f -> (ikey_cmp (largest f) (ikey u maxtag) < 0 <-> ~ not_above (Some u) (last_user f))).
    { intros j f Hj. destruct (file_bounds _ _ (Hh' j f Hj)) as (a & b & _ & Eb & _ & Hb & _ & Hob & _).
      unfold last_user, user_key_of. rewrite Eb, add_ikey_cmp by done. unfold add_ikey. rewrite ExtractUserKey_ikey. simpl.
      unfold icompare. pose proof (maxtag_ge b Hob). rewrite (lex_antisym (a_key b) u). zcases; lia. }
    split; intros j f Hj Hf; specialize (Hcmp j f Hf).
    - apply Hcmp. by eapply Hlt.
    - specialize (Hge j f Hj Hf). apply not_above_stable. intros ?%Hcmp. lia. }
  rewrite E. cbn [mbind outcome_bind]. rewrite Nat2Z.id. destruct (files !! n) as [f|] eqn:Ef.
  - destruct (BeforeFile_spec hi f _ (Hh' n f Ef)) as (b & Eb & Hb). rewrite Eb. cbn [mbind outcome_bind]. exists (negb b).
    split; [done|]. rewrite negb_true_iff, list.Exists_exists. split.
    + intros ->. exists f. split; [by eapply list_elem_of_lookup_2|]. split; [by apply (Hge n)|].
      apply not_below_stable. by intros ?%Hb.
    + intros (g & Hg & H1 & H2). apply list_elem_of_lookup in Hg as (j & Hj). destruct b; [|done]. exfalso.
      destruct (decide (j < n)%nat) as [Hjn|Hjn]; [by apply (Hlt j g Hjn Hj)|]. apply (proj1 Hb eq_refl). destruct hi as [h|]; [|done].
      simpl in *. destruct (decide (j = n)) as [->|]; [congruence|].
      pose proof (level_first_users files n j f g Hl ltac:(lia) Ef Hj) as H3.
      destruct (file_users f _ (Hh' n f Ef)) as (_ & _ & H4 & _). by eapply lex_le_trans; [|eapply lex_le_trans].
  - exists false. split; [done|]. split; [done|]. rewrite list.Exists_exists. intros (g & Hg & H1 & _).
    apply list_elem_of_lookup in Hg as (j & Hj). apply lookup_ge_None in Ef. pose proof (lookup_lt_Some _ _ _ Hj).
    exfalso. by apply (Hlt j g ltac:(lia) Hj).
Qed.

(** ** [GetOverlappingInputs]: the restarts of level 0 end *)

#[export] Instance not_above_dec lo u : Decision (not_above lo u).
Proof. destruct lo; unfold not_above; apply _. Defined.
#[export] Instance not_below_dec hi u : Decision (not_below hi u).
Proof. destruct hi; unfold not_below; apply _. Defined.
#[export] Instance overlaps_dec lo hi f : Decision (overlaps lo hi f).
Proof. unfold overlaps. apply _. Defined.

(** no file sticks out of the range it overlaps *)
Definition closed (lo hi : option bytes) files : Prop :=
  forall f, f ∈ files -> overlaps lo hi f -> not_above lo (first_user f) /\ not_below hi (last_user f).
Definition wider_lo (lo' lo : option bytes) : Prop :=
  match lo', lo with Some a, Some b => lex a b <= 0 | None, None => True | _, _ => False end.
Definition wider_hi (hi' hi : option bytes) : Prop :=
  match hi', hi with Some a, Some b => lex b a <= 0 | None, None => True | _, _ => False end.

Lemma wider_lo_refl lo : wider_lo lo lo. Proof. destruct lo; simpl; [rewrite lex_refl; lia|done]. Qed.
Lemma wider_hi_refl hi : wider_hi hi hi. Proof. destruct hi; simpl; [rewrite lex_refl; lia|done]. Qed.
Lemma wider_lo_trans a b c : wider_lo a b -> wider_lo b c -> wider_lo a c.
Proof. destruct a, b, c; simpl; try done. apply lex_le_trans. Qed.
Lemma wider_hi_trans a b c : wider_hi a b -> wider_hi b c -> wider_hi a c.
Proof. destruct a, b, c; simpl; try done. intros H1 H2. by eapply lex_le_trans. Qed.
Lemma overlaps_wider lo hi lo' hi' f : wider_lo lo' lo -> wider_hi hi' hi -> overlaps lo hi f -> overlaps lo' hi' f.
Proof.
  intros H1 H2 [H3 H4]. split.
  - destruct lo', lo; simpl in *; try done. by eapply lex_le_trans.
  - destruct hi', hi; simpl in *; try done. by eapply lex_le_trans.
Qed.

(** how a pass ends *)
Definition sticks_out (lo hi lo' hi' : option bytes) (f : FileMetaData) : Prop :=
  (exists b, lo = Some b /\ lex (first_user f) b < 0 /\ lo' = Some (first_user f) /\ hi' = hi) \/
  (exists e, hi = Some e /\ lex e (last_user f) < 0 /\ hi' = Some (last_user f) /\ lo' = lo).

Lemma overlapping_pass_spec level lo hi files inputs :
  Forall (fun f => file_holds f (content (number f))) files ->
  exists r, overlapping_pass level lo hi files inputs = Done r /\
    match r with
    | inl res => res = inputs ++ filter (overlaps lo hi) files /\ (level = 0 -> closed lo hi files)
    | inr (lo', hi') => level = 0 /\ exists f, f ∈ files /\ overlaps lo hi f /\ sticks_out lo hi lo' hi' f
    end.
Proof.
  intros Hh. revert inputs; induction Hh as [|f files Hf _ IH]; intros inputs.
  { exists (inl inputs). rewrite app_nil_r. split; [done|]. split; [done|]. by intros _ f ?%elem_of_nil. }
  destruct (file_users f _ Hf) as (E1 & E2 & _). cbn [overlapping_pass]. rewrite E1. cbn [mbind outcome_bind]. rewrite E2. cbn [mbind outcome_bind].
  assert (Elo : (match lo with Some b => Compare (last_user f) b <? 0 | None => false end) = bool_decide (~ not_above lo (last_user f))).
  { destruct lo as [b|]; [|by rewrite bool_decide_eq_false_2 by naive_solver]. unfold Compare. rewrite slice_compare_lex.
    apply Bool.eq_iff_eq_true. rewrite bool_decide_eq_true, Z.ltb_lt. simpl. rewrite (lex_antisym b (last_user f)). lia. }
  assert (Ehi : (match hi with Some e => 0 <? Compare (first_user f) e | None => false end) = bool_decide (~ not_below hi (first_user f))).
  { destruct hi as [e|]; [|by rewrite bool_decide_eq_false_2 by naive_solver]. unfold Compare. rewrite slice_compare_lex.
    apply Bool.eq_iff_eq_true. rewrite bool_decide_eq_true, Z.ltb_lt. simpl. lia. }
  rewrite Elo, Ehi. clear Elo Ehi.
  assert (Hskip : ~ overlaps lo hi f -> exists r, overlapping_pass level lo hi files inputs = Done r /\
    match r with
    | inl res => res = inputs ++ filter (overlaps lo hi) (f :: files) /\ (level = 0 -> closed lo hi (f :: files))
    | inr (lo', hi') => level = 0 /\ exists f', f' ∈ f :: files /\ overlaps lo hi f' /\ sticks_out lo hi lo' hi' f'
    end).
  { intros Hno. destruct (IH inputs) as (r & E & Hr). exists r. split; [done|]. destruct r as [res|[lo' hi']].
    - rewrite list.filter_cons_False by done. destruct Hr as [-> Hr]. split; [done|]. intros Hz g [->|Hg]%elem_of_cons Ho; [done|by apply Hr].
    - destruct Hr as [Hz (g & Hg & Hr)]. split; [done|]. exists g. split; [by right|done]. }
  case_bool_decide as H1; [apply Hskip; by intros []|]. case_bool_decide as H2; [apply Hskip; by intros []|].
  assert (Ho : overlaps lo hi f) by (split; [by apply not_above_stable|by apply not_below_stable]). clear Hskip.
  assert (Hadd : (level = 0 -> not_above lo (first_user f) /\ not_below hi (last_user f)) ->
    exists r, overlapping_pass level lo hi files (inputs ++ [f]) = Done r /\
    match r with
    | inl res => res = inputs ++ filter (overlaps lo hi) (f :: files) /\ (level = 0 -> closed lo hi (f :: files))
    | inr (lo', hi') => level = 0 /\ exists f', f' ∈ f :: files /\ overlaps lo hi f' /\ sticks_out lo hi lo' hi' f'
    end).
  { intros Hin. destruct (IH (inputs ++ [f])) as (r & E & Hr). exists r. split; [done|]. destruct r as [res|[lo' hi']].
    - rewrite list.filter_cons_True by done. destruct Hr as [-> Hr]. rewrite <- app_assoc. split; [done|].
      intros Hz g [->|Hg]%elem_of_cons Hog; [by apply Hin|by apply Hr].
    - destruct Hr as [Hz (g & Hg & Hr)]. split; [done|]. exists g. split; [by right|done]. }
  destruct (Z.eqb_spec level 0) as [->|Hlv]; [|by apply Hadd].
  destruct lo as [b|].
  - unfold Compare at 1. rewrite slice_compare_lex. destruct (Z.ltb_spec (lex (first_user f) b) 0) as [H3|H3].
    { eexists. split; [reflexivity|]. split; [done|]. exists f. split; [by left|]. split; [done|]. left. by exists b. }
    destruct hi as [e|].
    + unfold Compare. rewrite slice_compare_lex. destruct (Z.ltb_spec 0 (lex (last_user f) e)) as [H4|H4].
      { eexists. split; [reflexivity|]. split; [done|]. exists f. split; [by left|]. split; [done|]. right. exists e.
        split; [done|]. split; [by apply lex_lt_gt|done]. }
      apply Hadd. intros _. simpl. rewrite (lex_antisym (first_user f) b). split; lia.
    + apply Hadd. intros _. simpl. rewrite (lex_antisym (first_user f) b). split; [lia|done].
  - destruct hi as [e|].
    + unfold Compare. rewrite slice_compare_lex. destruct (Z.ltb_spec 0 (lex (last_user f) e)) as [H4|H4].
      { eexists. split; [reflexivity|]. split; [done|]. exists f. split; [by left|]. split; [done|]. right. exists e.
        split; [done|]. split; [by apply lex_lt_gt|done]. }
      apply Hadd. intros _. simpl. split; [done|lia].
    + by apply Hadd.
Qed.

Lemma filter_le {A} (P Q : A -> Prop) `{!forall x, Decision (P x), !forall x, Decision (Q x)} l :
  (forall x, P x -> Q x) -> (length (filter P l) <= length (filter Q l))%nat.
Proof. intros HPQ. induction l as [|x l IH]; [done|]. rewrite !list.filter_cons. repeat case_decide; simpl; naive_solver lia. Qed.

Lemma filter_shrinks {A} (P Q : A -> Prop) `{!forall x, Decision (P x), !forall x, Decision (Q x)} l x :
  (forall x, P x -> Q x) -> x ∈ l -> Q x -> ~ P x -> (length (filter P l) < length (filter Q l))%nat.
Proof.
  intros HPQ Hx HQ HP. apply list_elem_of_split in Hx as (l1 & l2 & ->). rewrite !list.filter_app, !length_app.
  rewrite (list.filter_cons_False P), (list.filter_cons_True Q) by done. simpl.
  pose proof (filter_le P Q l1 HPQ). pose proof (filter_le P Q l2 HPQ). lia.
Qed.

(** the ends of files a range does not reach *)
Definition unreached (lo hi : option bytes) files : nat :=
  length (filter (fun f => ~ not_above lo (first_user f)) files) + length (filter (fun f => ~ not_below hi (last_user f)) files).

Lemma unreached_bound lo hi files : (unreached lo hi files <= 2 * length files)%nat.
Proof.
  unfold unreached. pose proof (length_filter (fun f => ~ not_above lo (first_user f)) files).
  pose proof (length_filter (fun f => ~ not_below hi (last_user f)) files). lia.
Qed.

Lemma sticks_out_grows lo hi lo' hi' f files :
  f ∈ files -> sticks_out lo hi lo' hi' f ->
  (unreached lo' hi' files < unreached lo hi files)%nat /\ wider_lo lo' lo /\ wider_hi hi' hi.
Proof.
  intros Hf [(b & -> & Hb & -> & ->)|(e & -> & He & -> & ->)]; unfold unreached.
  - split; [|split; [simpl; lia|apply wider_hi_refl]].
    assert (length (filter (fun g => ~ not_above (Some (first_user f)) (first_user g)) files) <
            length (filter (fun g => ~ not_above (Some b) (first_user g)) files))%nat; [|lia].
    apply (filter_shrinks _ _ _ f); [|done|simpl; rewrite (lex_antisym (first_user f) b); lia|simpl; rewrite lex_refl; lia].
    intros g Hg Hbg. apply Hg. simpl in *. apply (lex_le_trans _ b); [lia|done].
  - split; [|split; [apply wider_lo_refl|simpl; lia]].
    assert (length (filter (fun g => ~ not_below (Some (last_user f)) (last_user g)) files) <
            length (filter (fun g => ~ not_below (Some e) (last_user g)) files))%nat; [|lia].
    apply (filter_shrinks _ _ _ f); [|done|simpl; rewrite (lex_antisym e (last_user f)); lia|simpl; rewrite lex_refl; lia].
    intros g Hg Hge. apply Hg. simpl in *. apply (lex_le_trans _ e); [done|lia].
Qed.

(** a restart stays inside every closed range around the one given *)
Lemma sticks_out_inside lo hi lo' hi' lo2 hi2 f files :
  f ∈ files -> overlaps lo hi f -> sticks_out lo hi lo' hi' f -> closed lo2 hi2 files -> wider_lo lo2 lo -> wider_hi hi2 hi ->
  wider_lo lo2 lo' /\ wider_hi hi2 hi'.
Proof.
  intros Hf Ho Hs Hc Hl Hh. destruct (Hc f Hf (overlaps_wider _ _ _ _ _ Hl Hh Ho)) as [H1 H2].
  destruct Hs as [(b & -> & Hb & -> & ->)|(e & -> & He & -> & ->)].
  - split; [|done]. destruct lo2; [exact H1|done].
  - split; [done|]. destruct hi2; [exact H2|done].
Qed.

Lemma overlapping_loop_spec level files fuel lo hi :
  Forall (fun f => file_holds f (content (number f))) files -> (unreached lo hi files <= fuel)%nat ->
  exists lo' hi', overlapping_loop fuel level lo hi files = Done (filter (overlaps lo' hi') files) /\
    wider_lo lo' lo /\ wider_hi hi' hi /\ (level <> 0 -> lo' = lo /\ hi' = hi) /\
    (level = 0 -> closed lo' hi' files /\
      forall lo2 hi2, closed lo2 hi2 files -> wider_lo lo2 lo -> wider_hi hi2 hi -> wider_lo lo2 lo' /\ wider_hi hi2 hi').
Proof.
  intros Hh. revert lo hi; induction fuel as [|fuel IH]; intros lo hi Hfuel; cbn [overlapping_loop];
    destruct (overlapping_pass_spec level lo hi files [] Hh) as (r & E & Hr); rewrite E; cbn [mbind outcome_bind];
    (destruct r as [res|[lo1 hi1]];
      [destruct Hr as [-> Hr]; exists lo, hi; split; [done|]; split; [apply wider_lo_refl|]; split; [apply wider_hi_refl|];
        split; [done|]; intros Hz; split; [by apply Hr|done]|]);
    destruct Hr as (Hz & f & Hf & Ho & Hs); destruct (sticks_out_grows _ _ _ _ f files Hf Hs) as (Hlt & Hl & Hhi); [lia|].
  destruct (IH lo1 hi1 ltac:(lia)) as (lo' & hi' & E' & Hl' & Hh' & Hne & Hc). exists lo', hi'. split; [done|].
  split; [by eapply wider_lo_trans|]. split; [by eapply wider_hi_trans|]. split; [done|]. intros _. destruct (Hc Hz) as [Hc1 Hc2].
  split; [done|]. intros lo2 hi2 H1 H2 H3. destruct (sticks_out_inside lo hi lo1 hi1 lo2 hi2 f files) as [H4 H5]; try done. by apply Hc2.
Qed.

Definition user_bound (k : option bytes) : option bytes := match k with Some k => match user_key_of k with Done u => Some u | _ => None end | None => None end.

Lemma GetOverlappingInputs_spec v level files begin_ end_ :
  0 <= level < kNumLevels -> files_ v !! Z.to_nat level = Some files -> Forall (fun f => file_holds f (content (number f))) files ->
  (forall k, begin_ = Some k -> 8 <= blen k) -> (forall k, end_ = Some k -> 8 <= blen k) ->
  exists lo hi, GetOverlappingInputs v level begin_ end_ = Done (filter (overlaps lo hi) files) /\
    wider_lo lo (user_bound begin_) /\ wider_hi hi (user_bound end_) /\
    (level <> 0 -> lo = user_bound begin_ /\ hi = user_bound end_) /\
    (level = 0 -> closed lo hi files /\
      forall lo2 hi2, closed lo2 hi2 files -> wider_lo lo2 (user_bound begin_) -> wider_hi hi2 (user_bound end_) ->
        wider_lo lo2 lo /\ wider_hi hi2 hi).
Proof.
  intros Hlv Hfiles Hh Hb He. unfold GetOverlappingInputs, level_files.
  rewrite (proj2 (Z.leb_le _ _)), (proj2 (Z.ltb_lt level kNumLevels)), (proj2 (Z.ltb_ge level 0)) by lia. rewrite Hfiles.
  cbn [c_assert mbind outcome_bind].
  assert (forall o : option bytes, (forall k, o = Some k -> 8 <= blen k) ->
    match o with Some k => u ← user_key_of k; Done (Some u) | None => Done None end = Done (user_bound o)) as Hub.
  { intros [k|] Ho; [|done]. simpl. unfold user_key_of, ExtractUserKey. by rewrite (proj2 (Z.leb_le _ _)) by (by apply Ho). }
  rewrite (Hub begin_ Hb). cbn [mbind outcome_bind]. rewrite (Hub end_ He). cbn [mbind outcome_bind].
  apply overlapping_loop_spec; [done|]. apply unreached_bound.
Qed.

(** ** [PickLevelForMemTableOutput] *)

Definition level_free (v : Version) (small large : bytes) (l : nat) : Prop :=
  forall files, files_ v !! l = Some files -> ~ Exists (overlaps (Some small) (Some large)) files.

Lemma version_level v l :
  version_ok content v -> (l < 7)%nat -> exists files, files_ v !! l = Some files /\
    Forall (fun f => file_holds f (content (number f))) files /\ ((0 < l)%nat -> level_ok content files).
Proof.
  intros Hv Hl. destruct (lookup_lt_is_Some_2 (files_ v) l) as [files Hf]; [rewrite (vo_levels _ _ Hv); unfold kNumLevels; lia|].
  exists files. split; [done|]. destruct l as [|l].
  - split; [by apply (vo_level0 _ _ Hv)|lia].
  - pose proof (vo_sorted _ _ Hv l files Hf) as Hok. split; [apply Hok|done].
Qed.

Lemma OverlapInLevel_spec v level lo hi :
  version_ok content v -> 0 <= level < 7 ->
  exists files b, files_ v !! Z.to_nat level = Some files /\ OverlapInLevel v level lo hi = Done b /\
    (b = true <-> Exists (overlaps lo hi) files).
Proof.
  intros Hv Hl. destruct (version_level v (Z.to_nat level) Hv) as (files & Hf & Hh & Hok); [lia|].
  destruct (SomeFileOverlapsRange_spec (0 <? level) files lo hi Hh) as (b & E & Hb); [intros Hz%Z.ltb_lt; apply Hok; lia|].
  exists files, b. split; [done|]. split; [|done]. unfold OverlapInLevel, level_files. rewrite (proj2 (Z.ltb_ge level 0)) by lia.
  by rewrite Hf.
Qed.

Lemma pick_level_loop_spec fuel v max_file_size small large start limit level :
  version_ok content v -> 8 <= blen start -> 8 <= blen limit -> 0 <= level -> 2 - level <= Z.of_nat fuel -> level <= 2 ->
  (forall l, (l <= Z.to_nat level)%nat -> level_free v small large l) ->
  exists level', pick_level_loop fuel v max_file_size small large start limit level = Done level' /\ 0 <= level' <= 2 /\
    forall l, (l <= Z.to_nat level')%nat -> level_free v small large l.
Proof.
  intros Hv Hs Hli. revert level; induction fuel as [|fuel IH]; intros level H0 Hfuel H2 Hfree; cbn [pick_level_loop];
    unfold kMaxMemCompactLevel; destruct (Z.ltb_spec level 2) as [Hlt|Hge]; try (exists level; split; [done|]; split; [lia|done]); [lia|].
  destruct (OverlapInLevel_spec v (level + 1) (Some small) (Some large) Hv ltac:(lia)) as (files & b & Hf & E & Hb).
  rewrite E. cbn [mbind outcome_bind]. destruct b; [exists level; split; [done|]; split; [lia|done]|].
  unfold kNumLevels. rewrite (proj2 (Z.ltb_lt (level + 2) 7)) by lia.
  destruct (version_level v (Z.to_nat (level + 2)) Hv) as (files2 & Hf2 & Hh2 & _); [lia|].
  destruct (GetOverlappingInputs_spec v (level + 2) files2 (Some start) (Some limit)) as (lo & hi & E2 & _);
    [unfold kNumLevels; lia|done|done|by intros ? [= <-]|by intros ? [= <-]|]. rewrite E2. cbn [mbind outcome_bind].
  destruct (MaxGrandParentOverlapBytes max_file_size <? TotalFileSize (filter (overlaps lo hi) files2)).
  { exists level. split; [done|]. split; [lia|done]. }
  apply IH; [lia|lia|lia|]. intros l Hl. destruct (decide (l <= Z.to_nat level)%nat); [by apply Hfree|].
  assert (l = Z.to_nat (level + 1)) as -> by lia. intros files' Hf'. rewrite Hf in Hf'. injection Hf' as <-. by intros ?%Hb.
Qed.

(** A new table goes to a level that keeps it above every file with a key in its
    range: either level 0, or a level with no such file there or above. *)
Lemma PickLevelForMemTableOutput_spec v max_file_size small large :
  version_ok content v ->
  exists level, PickLevelForMemTableOutput v max_file_size small large = Done level /\ 0 <= level <= 2 /\
    (level <> 0 -> forall l, (l <= Z.to_nat level)%nat -> level_free v small large l).
Proof.
  intros Hv. unfold PickLevelForMemTableOutput.
  destruct (OverlapInLevel_spec v 0 (Some small) (Some large) Hv ltac:(lia)) as (files & b & Hf & E & Hb).
  rewrite E. cbn [mbind outcome_bind]. destruct b; [exists 0; split; [done|]; split; [lia|done]|].
  rewrite AppendInternalKey_max. cbn [mbind outcome_bind].
  change (AppendInternalKey [] {| user_key := large; sequence := 0; type := 0 |}) with (Done (ikey large 0)). cbn [mbind outcome_bind].
  pose proof (blen_nonneg small). pose proof (blen_nonneg large).
  destruct (pick_level_loop_spec 2 v max_file_size small large (ikey small maxtag) (ikey large 0) 0 Hv) as (level & E' & Hr & Hfree);
    [rewrite blen_ikey; lia|rewrite blen_ikey; lia|lia|lia|lia| |].
  - intros l Hl. assert (l = 0)%nat as -> by lia. intros files' Hf'. change (Z.to_nat 0) with 0%nat in Hf. rewrite Hf in Hf'. injection Hf' as <-. by intros ?%Hb.
  - exists level. done.
Qed.
End Content.
