(* ===== verification/Env.v ===== *)
(** * Env: the file system of include/leveldb/env.h, and util/env.cc

    The class [Env] is what the database calls.  What is appended to a file is
    in the file system once the file is synced or closed.  [append_status]: a
    failed [Append] or [Flush] is an [IOError] without its message. *)

From Stdlib.Strings Require Import Byte.
From S2P Require Import Prelude Status Coding WriteBatch Crc32c Log LogSpec Format.

(** [E] is the file system, [F] the files open for writing, [R] those open for
    random access, [G] those read in sequence *)
Class Env (E F R G : Type) `{WritableFile F} `{RandomAccessFile R} `{SequentialFile G} := {
  NewWritableFile : E -> bytes -> E * (F + Status);
  NewAppendableFile : E -> bytes -> E * (F + Status);
  NewRandomAccessFile : E -> bytes -> R + Status;
  NewSequentialFile : E -> bytes -> G + Status;
  file_Sync : E -> F -> E * Status;
  file_Close : E -> F -> E * Status;
  env_RemoveFile : E -> bytes -> E * Status;
  RenameFile : E -> bytes -> bytes -> E * Status;
  GetFileSize : E -> bytes -> Z + Status;
  (** the names in a directory *)
  GetChildren : E -> bytes -> list bytes }.

(** what a file system promises: a file keeps its name, what is synced or closed
    is what a reader finds, and no other file changes *)
Class EnvOk (E F R G : Type) `{Env E F R G, !WritableFileOk F, !RandomAccessFileOk R, !SequentialFileOk G} := {
  stored_file : E -> bytes -> option bytes;
  file_name : F -> bytes;
  file_name_Append f bs : file_name (file_Append f bs).1 = file_name f;
  file_name_Flush f : file_name (file_Flush f).1 = file_name f;
  NewWritableFile_ok e n : exists e' f, NewWritableFile e n = (e', inl f) /\ written f = [] /\ file_name f = n /\
    stored_file e' n = Some [] /\ forall n', n' <> n -> stored_file e' n' = stored_file e n';
  NewAppendableFile_ok e n : exists e' f, NewAppendableFile e n = (e', inl f) /\ written f = default [] (stored_file e n) /\
    file_name f = n /\ stored_file e' n = Some (default [] (stored_file e n)) /\ forall n', n' <> n -> stored_file e' n' = stored_file e n';
  NewRandomAccessFile_ok e n c : stored_file e n = Some c -> exists r, NewRandomAccessFile e n = inl r /\ file_content r = c;
  NewRandomAccessFile_missing e n : stored_file e n = None -> exists m, NewRandomAccessFile e n = inr (NotFoundStatus m);
  NewSequentialFile_ok e n c : stored_file e n = Some c -> exists g, NewSequentialFile e n = inl g /\ unread g = c;
  NewSequentialFile_missing e n : stored_file e n = None -> exists m, NewSequentialFile e n = inr (NotFoundStatus m);
  file_Sync_ok e f : exists e', file_Sync e f = (e', OK) /\ stored_file e' (file_name f) = Some (written f) /\
    forall n', n' <> file_name f -> stored_file e' n' = stored_file e n';
  file_Close_ok e f : exists e', file_Close e f = (e', OK) /\ stored_file e' (file_name f) = Some (written f) /\
    forall n', n' <> file_name f -> stored_file e' n' = stored_file e n';
  GetFileSize_ok e n c : stored_file e n = Some c -> GetFileSize e n = inl (blen c);
  env_RemoveFile_ok e n : forall n', n' <> n -> stored_file (env_RemoveFile e n).1 n' = stored_file e n';
  RenameFile_ok e a b c : stored_file e a = Some c -> a <> b -> exists e', RenameFile e a b = (e', OK) /\
    stored_file e' b = Some c /\ forall n', n' <> a -> n' <> b -> stored_file e' n' = stored_file e n' }.

Definition append_status (b : bool) : Status := if b then OK else IOError [].

Section util.
Context {E F R G : Type} `{Env E F R G}.

Definition DoWriteStringToFile (e : E) (data fname : bytes) (should_sync : bool) : E * Status :=
  let (e, r) := NewWritableFile e fname in
  match r with
  | inr s => (e, s)
  | inl file =>
      let (file, b) := file_Append file data in
      let s := append_status b in
      let (e, s) := if bool_decide (s = OK) && should_sync then file_Sync e file else (e, s) in
      let (e, s) := if bool_decide (s = OK) then file_Close e file else (e, s) in
      let e := if bool_decide (s = OK) then e else (env_RemoveFile e fname).1 in
      (e, s)
  end.
Definition WriteStringToFile (e : E) (data fname : bytes) : E * Status := DoWriteStringToFile e data fname false.
Definition WriteStringToFileSync (e : E) (data fname : bytes) : E * Status := DoWriteStringToFile e data fname true.

Definition kBufferSize : Z := 8192.
(** the loop of reads; every read but the last takes something *)
Fixpoint ReadFileToString_loop (fuel : nat) (file : G) (data : bytes) : outcome (bytes * Status) :=
  match fuel with
  | O => Hangs
  | S fuel' =>
      let '(file, fragment, s) := file_Read file kBufferSize in
      match s with
      | OK => if bool_decide (fragment = []) then Done (data ++ fragment, s) else ReadFileToString_loop fuel' file (data ++ fragment)
      | _ => Done (data, s)
      end
  end.
Definition ReadFileToString (fuel : nat) (e : E) (fname : bytes) : outcome (bytes * Status) :=
  match NewSequentialFile e fname with
  | inr s => Done ([], s)
  | inl file => ReadFileToString_loop fuel file []
  end.
End util.

(** ** What the laws give *)

Section spec.
Context {E F R G : Type} `{EnvOk E F R G}.

Lemma DoWriteStringToFile_spec e data fname sync :
  exists e', DoWriteStringToFile e data fname sync = (e', OK) /\ stored_file e' fname = Some data /\
    forall n, n <> fname -> stored_file e' n = stored_file e n.
Proof.
  unfold DoWriteStringToFile. destruct (NewWritableFile_ok e fname) as (e1 & f & -> & Hw & Hn & _ & Ho1).
  pose proof (file_Append_ok f data) as [Es Ew]. pose proof (file_name_Append f data) as En.
  destruct (file_Append f data) as [f1 b]. cbn [fst snd] in *. subst b. cbn [append_status]. rewrite bool_decide_eq_true_2 by done.
  assert (exists e2, (if true && sync then file_Sync e1 f1 else (e1, OK)) = (e2, OK) /\
    forall n, n <> fname -> stored_file e2 n = stored_file e1 n) as (e2 & -> & Ho2).
  { destruct sync; [|by exists e1]. destruct (file_Sync_ok e1 f1) as (e2 & E2 & _ & Ho). exists e2. split; [done|]. rewrite En, Hn in Ho. done. }
  rewrite bool_decide_eq_true_2 by done. destruct (file_Close_ok e2 f1) as (e3 & -> & Hs & Ho3). rewrite bool_decide_eq_true_2 by done.
  rewrite En, Hn in *. exists e3. split; [done|]. split; [by rewrite Hs, Ew, Hw|]. intros n Hne. by rewrite Ho3, Ho2, Ho1.
Qed.

Lemma ReadFileToString_loop_spec fuel file data :
  (length (unread file) < fuel)%nat -> ReadFileToString_loop fuel file data = Done (data ++ unread file, OK).
Proof.
  revert file data; induction fuel as [|fuel IH]; intros file data Hf; [lia|]. cbn [ReadFileToString_loop].
  destruct (file_Read_ok file kBufferSize) as (file' & -> & Hu); [done|].
  destruct (bool_decide_reflect (take (Z.to_nat kBufferSize) (unread file) = [])) as [Et|Et].
  - rewrite Et. destruct (unread file) as [|b l]; [done|]. assert (0 < Z.to_nat kBufferSize)%nat by (unfold kBufferSize; lia). by destruct (Z.to_nat kBufferSize); [lia|].
  - rewrite IH; rewrite Hu.
    + by rewrite <- app_assoc, take_drop.
    + rewrite length_drop. assert (0 < length (unread file))%nat by (destruct (unread file); [by rewrite take_nil in Et|simpl; lia]).
      assert (0 < Z.to_nat kBufferSize)%nat by (unfold kBufferSize; lia). lia.
Qed.

Lemma ReadFileToString_spec fuel e fname c :
  stored_file e fname = Some c -> (length c < fuel)%nat -> ReadFileToString fuel e fname = Done (c, OK).
Proof.
  intros Hs Hf. unfold ReadFileToString. destruct (NewSequentialFile_ok e fname c Hs) as (g & -> & Hu).
  rewrite <- Hu in *. by apply ReadFileToString_loop_spec.
Qed.
End spec.

(** ** Files in memory *)

(** a file open for writing is its name and its content *)
#[export] Instance named_writable : WritableFile (bytes * bytes) :=
  {| file_Append f bs := ((f.1, f.2 ++ bs), true); file_Flush f := (f, true) |}.
#[export] Instance named_writable_ok : WritableFileOk (bytes * bytes).
Proof. refine {| written f := f.2 |}; done. Defined.

#[export] Instance mem_env : Env (gmap bytes bytes) (bytes * bytes) bytes bytes := {|
  NewWritableFile e n := (<[n := []]> e, inl (n, []));
  NewAppendableFile e n := (<[n := default [] (e !! n)]> e, inl (n, default [] (e !! n)));
  NewRandomAccessFile e n := match e !! n with Some c => inl c | None => inr (NotFoundStatus n) end;
  NewSequentialFile e n := match e !! n with Some c => inl c | None => inr (NotFoundStatus n) end;
  file_Sync e f := (<[f.1 := f.2]> e, OK);
  file_Close e f := (<[f.1 := f.2]> e, OK);
  env_RemoveFile e n := (delete n e, match e !! n with Some _ => OK | None => NotFoundStatus n end);
  RenameFile e a b := match e !! a with Some c => (<[b := c]> (delete a e), OK) | None => (e, NotFoundStatus a) end;
  GetFileSize e n := match e !! n with Some c => inl (blen c) | None => inr (NotFoundStatus n) end;
  GetChildren e n := omap (fun f : bytes * bytes => if bool_decide (take (length n + 1) f.1 = n ++ text "/")
    then Some (drop (length n + 1) f.1) else None) (map_to_list e) |}.

#[export] Instance mem_env_ok : EnvOk (gmap bytes bytes) (bytes * bytes) bytes bytes.
Proof.
  refine {| stored_file e n := e !! n; file_name f := f.1 |}; simpl; try done.
  - intros e n. eexists _, _. split; [done|]. split; [done|]. split; [done|]. split; [by simplify_map_eq|]. intros n' ?. by simplify_map_eq.
  - intros e n. eexists _, _. split; [done|]. split; [done|]. split; [done|]. split; [by simplify_map_eq|]. intros n' ?. by simplify_map_eq.
  - intros e n c ->. by eexists.
  - intros e n ->. by eexists.
  - intros e n c ->. by eexists.
  - intros e n ->. by eexists.
  - intros e f. eexists. split; [done|]. split; [by simplify_map_eq|]. intros n' ?. by simplify_map_eq.
  - intros e f. eexists. split; [done|]. split; [by simplify_map_eq|]. intros n' ?. by simplify_map_eq.
  - by intros e n c ->.
  - intros e n n' ?. by simplify_map_eq.
  - intros e a b c -> ?. eexists. split; [done|]. split; [by simplify_map_eq|]. intros n' ? ?. by simplify_map_eq.
Defined.
