(* ===== verification/Filename.v ===== *)
(** * Filename: db/filename.cc, and the numbers of util/logging.cc

    The names of the database's files and how they are read back. *)

From Stdlib.Strings Require Import Byte.
From S2P Require Import Prelude Generator Status Coding DbFormat WriteBatch Crc32c Log LogSpec Format Env.

(** ** Numbers *)

(** the number of digits of a number of at most [fuel] digits *)
Fixpoint digits (fuel : nat) (z : Z) : nat :=
  match fuel with O => 1 | S fuel' => if z <? 10 then 1 else S (digits fuel' (z / 10)) end.
(** ["%0*llu"]: a [uint64_t] has at most twenty digits *)
Definition print_u64 (width : nat) (z : Z) : bytes := decimal (Nat.max width (digits 19 z)) z.

Definition NumberToString (num : Z) : bytes := print_u64 0 num.
Definition AppendNumberTo (str : bytes) (num : Z) : bytes := str ++ NumberToString num.

Definition kMaxUint64 : Z := 2 ^ 64 - 1.
Definition kLastDigitOfMaxUint64 : Z := 48 + kMaxUint64 mod 10.

(** the digits at the front of a string: [None] when the number overflows *)
Fixpoint consume_digits (in_ : bytes) (value : Z) : option (Z * bytes) :=
  match in_ with
  | ch :: in_' =>
      let c := b2z ch in
      if (c <? 48) || (57 <? c) then Some (value, in_)
      else if (kMaxUint64 / 10 <? value) || ((value =? kMaxUint64 / 10) && (kLastDigitOfMaxUint64 <? c)) then None
      else consume_digits in_' (value * 10 + (c - 48))
  | [] => Some (value, [])
  end.
Definition ConsumeDecimalNumber (in_ : bytes) : option (Z * bytes) :=
  match consume_digits in_ 0 with
  | Some (v, rest) => if (length rest <? length in_)%nat then Some (v, rest) else None
  | None => None
  end.

(** ** Names *)

Inductive FileType := kLogFile | kDBLockFile | kTableFile | kDescriptorFile | kCurrentFile | kTempFile | kInfoLogFile.

Definition MakeFileName (dbname : bytes) (number : Z) (suffix : bytes) : bytes :=
  dbname ++ text "/" ++ print_u64 6 number ++ text "." ++ suffix.
Definition LogFileName (dbname : bytes) (number : Z) : outcome bytes :=
  _ ← c_assert (0 <? number); Done (MakeFileName dbname number (text "log")).
Definition TableFileName (dbname : bytes) (number : Z) : outcome bytes :=
  _ ← c_assert (0 <? number); Done (MakeFileName dbname number (text "ldb")).
Definition SSTTableFileName (dbname : bytes) (number : Z) : outcome bytes :=
  _ ← c_assert (0 <? number); Done (MakeFileName dbname number (text "sst")).
Definition DescriptorFileName (dbname : bytes) (number : Z) : outcome bytes :=
  _ ← c_assert (0 <? number); Done (dbname ++ text "/MANIFEST-" ++ print_u64 6 number).
Definition CurrentFileName (dbname : bytes) : bytes := dbname ++ text "/CURRENT".
Definition LockFileName (dbname : bytes) : bytes := dbname ++ text "/LOCK".
Definition TempFileName (dbname : bytes) (number : Z) : outcome bytes :=
  _ ← c_assert (0 <? number); Done (MakeFileName dbname number (text "dbtmp")).
Definition InfoLogFileName (dbname : bytes) : bytes := dbname ++ text "/LOG".
Definition OldInfoLogFileName (dbname : bytes) : bytes := dbname ++ text "/LOG.old".

Definition ParseFileName (filename : bytes) : option (Z * FileType) :=
  let rest := filename in
  if bool_decide (rest = text "CURRENT") then Some (0, kCurrentFile)
  else if bool_decide (rest = text "LOCK") then Some (0, kDBLockFile)
  else if bool_decide (rest = text "LOG") || bool_decide (rest = text "LOG.old") then Some (0, kInfoLogFile)
  else if starts_with rest (text "MANIFEST-") then
    match ConsumeDecimalNumber (drop (length (text "MANIFEST-")) rest) with
    | Some (num, []) => Some (num, kDescriptorFile)
    | _ => None
    end
  else
    match ConsumeDecimalNumber rest with
    | None => None
    | Some (num, suffix) =>
        if bool_decide (suffix = text ".log") then Some (num, kLogFile)
        else if bool_decide (suffix = text ".sst") || bool_decide (suffix = text ".ldb") then Some (num, kTableFile)
        else if bool_decide (suffix = text ".dbtmp") then Some (num, kTempFile)
        else None
    end.

Section current.
Context {E F R G : Type} `{Env E F R G}.
Definition SetCurrentFile (env : E) (dbname : bytes) (descriptor_number : Z) : outcome (E * Status) :=
  manifest ← DescriptorFileName dbname descriptor_number;
  _ ← c_assert (starts_with manifest (dbname ++ text "/"));
  let contents := drop (length dbname + 1) manifest in
  tmp ← TempFileName dbname descriptor_number;
  let (env, s) := WriteStringToFileSync env (contents ++ [x0a]) tmp in
  let (env, s) := if bool_decide (s = OK) then RenameFile env tmp (CurrentFileName dbname) else (env, s) in
  Done (if bool_decide (s = OK) then env else (env_RemoveFile env tmp).1, s).
End current.

(** ** The numbers round-trip *)

Lemma digits_bound n z : 0 <= z < 10 ^ Z.of_nat (S n) -> 0 <= z < 10 ^ Z.of_nat (digits n z).
Proof.
  revert z; induction n as [|n IH]; intros z Hz; [done|]. cbn [digits]. destruct (Z.ltb_spec z 10); [change (10 ^ Z.of_nat 1) with 10; lia|].
  assert (0 <= z / 10 < 10 ^ Z.of_nat (S n)) as Hd.
  { split; [apply Z.div_pos; lia|]. apply Z.div_lt_upper_bound; [lia|]. rewrite (Nat2Z.inj_succ (S n)), Z.pow_succ_r in Hz by lia. lia. }
  specialize (IH _ Hd). rewrite Nat2Z.inj_succ, Z.pow_succ_r by lia. pose proof (Z.div_mod z 10 ltac:(lia)).
  pose proof (Z.mod_pos_bound z 10 ltac:(lia)). lia.
Qed.

Lemma print_u64_spec width z :
  0 <= z < 2 ^ 64 -> decimal_val (print_u64 width z) = z /\ Forall (fun b => 48 <= b2z b < 58) (print_u64 width z) /\
    print_u64 width z <> [].
Proof.
  intros Hz. unfold print_u64. split; [|split; [apply decimal_digits|]].
  - apply decimal_val_decimal. assert (0 <= z < 10 ^ Z.of_nat (digits 19 z)) as Hd by (apply digits_bound; split; [lia|apply (Z.lt_trans _ (2 ^ 64)); [lia|reflexivity]]).
    split; [lia|]. eapply Z.lt_le_trans; [apply Hd|]. apply Z.pow_le_mono_r; lia.
  - assert (0 < digits 19 z)%nat by (cbn [digits]; case_match; lia). intros E%(f_equal length). rewrite length_decimal in E. cbn [length] in E. lia.
Qed.

(** the value of digits after [value] *)
Lemma consume_digits_spec ds rest value :
  Forall (fun b => 48 <= b2z b < 58) ds -> match rest with ch :: _ => ~ 48 <= b2z ch <= 57 | [] => True end -> 0 <= value ->
  value * 10 ^ blen ds + decimal_val ds <= kMaxUint64 ->
  consume_digits (ds ++ rest) value = Some (value * 10 ^ blen ds + decimal_val ds, rest).
Proof.
  intros Hd Hrest. revert value; induction Hd as [|b ds Hb Hd IH]; intros value Hv Hmax.
  - cbn [app decimal_val]. change (blen []) with 0. rewrite Z.pow_0_r, Z.mul_1_r, Z.add_0_r. destruct rest as [|ch rest]; [done|].
    cbn [consume_digits]. cbv zeta. by replace ((b2z ch <? 48) || (57 <? b2z ch)) with true by (symmetry; apply orb_true_iff; rewrite !Z.ltb_lt; lia).
  - cbn [app consume_digits]. cbv zeta. rewrite (proj2 (Z.ltb_ge (b2z b) 48)), (proj2 (Z.ltb_ge 57 (b2z b))) by lia. cbn [orb].
    assert (Hpos : 0 <= decimal_val ds).
    { clear - Hd. induction Hd as [|b ds Hb Hd IH]; [done|]. cbn [decimal_val]. pose proof (Z.pow_nonneg 10 (blen ds)). nia. }
    cbn [decimal_val] in *. rewrite blen_cons, Z.pow_add_r, Z.pow_1_r in * by (pose proof (blen_nonneg ds); lia).
    assert (H10 : 1 <= 10 ^ blen ds) by (pose proof (Z.pow_pos_nonneg 10 (blen ds) ltac:(lia) (blen_nonneg ds)); lia).
    assert (Hstep : value * 10 + (b2z b - 48) <= kMaxUint64) by nia.
    unfold kLastDigitOfMaxUint64. assert (Hm : kMaxUint64 = 10 * (kMaxUint64 / 10) + kMaxUint64 mod 10) by reflexivity.
    assert (Hr : 0 <= kMaxUint64 mod 10 < 10) by (by apply Z.mod_pos_bound).
    set (q := kMaxUint64 / 10) in *. set (r := kMaxUint64 mod 10) in *. clearbody q r.
    rewrite (proj2 (Z.ltb_ge q value)) by lia. cbn [orb].
    replace ((value =? q) && (48 + r <? b2z b)) with false
      by (symmetry; apply andb_false_iff; rewrite Z.eqb_neq, Z.ltb_ge; lia).
    rewrite IH by nia. do 2 f_equal. lia.
Qed.

Lemma ConsumeDecimalNumber_spec width z rest :
  0 <= z < 2 ^ 64 -> match rest with ch :: _ => ~ 48 <= b2z ch <= 57 | [] => True end ->
  ConsumeDecimalNumber (print_u64 width z ++ rest) = Some (z, rest).
Proof.
  intros Hz Hrest. destruct (print_u64_spec width z Hz) as (Hval & Hd & Hne). unfold ConsumeDecimalNumber.
  rewrite consume_digits_spec; [|done|done|lia|rewrite Hval; unfold kMaxUint64; lia]. rewrite Hval, Z.mul_0_l, Z.add_0_l.
  rewrite length_app. destruct (print_u64 width z) as [|b l]; [done|]. cbn [length].
  by rewrite (proj2 (Nat.ltb_lt _ _)) by lia.
Qed.

(** ** The names round-trip *)

Lemma memcmp_prefix x l : memcmp (length x) (x ++ l) x = 0.
Proof. induction x as [|b x IH]; [done|]. cbn [length app memcmp]. rewrite !Z.ltb_irrefl, ?Z.eqb_refl. exact IH. Qed.

Lemma starts_with_app x l : starts_with (x ++ l) x = true.
Proof. unfold starts_with. rewrite memcmp_prefix, (proj2 (Z.leb_le _ _)) by (rewrite blen_app; pose proof (blen_nonneg l); lia). done. Qed.

(** the file of a database directory a full name names *)
Definition base_name (dbname name : bytes) : bytes := drop (length dbname + 1) name.

Lemma base_name_app dbname base : base_name dbname (dbname ++ text "/" ++ base) = base.
Proof. unfold base_name. by rewrite <- drop_drop, drop_app_exact. Qed.

(** a name that starts with a digit is parsed by its suffix *)
Lemma ParseFileName_number width n suffix ty :
  0 <= n < 2 ^ 64 -> (suffix = text ".log" /\ ty = kLogFile \/ suffix = text ".sst" /\ ty = kTableFile \/
    suffix = text ".ldb" /\ ty = kTableFile \/ suffix = text ".dbtmp" /\ ty = kTempFile) ->
  ParseFileName (print_u64 width n ++ suffix) = Some (n, ty).
Proof.
  intros Hn Hs. destruct (print_u64_spec width n Hn) as (_ & Hd & Hne).
  assert (Hc : ConsumeDecimalNumber (print_u64 width n ++ suffix) = Some (n, suffix)).
  { apply ConsumeDecimalNumber_spec; [done|]. destruct Hs as [[-> _]|[[-> _]|[[-> _]|[-> _]]]]; vm_compute; intuition congruence. }
  unfold ParseFileName. cbv zeta. rewrite Hc. destruct (print_u64 width n) as [|b l]; [done|]. apply Forall_inv in Hd. cbn [app].
  assert (Hx : forall c x, b2z c < 48 \/ 58 <= b2z c -> b :: l ++ suffix <> c :: x) by (intros c x Hcx [= ->]; lia).
  rewrite (bool_decide_eq_false_2 (_ = text "CURRENT")), (bool_decide_eq_false_2 (_ = text "LOCK")),
    (bool_decide_eq_false_2 (_ = text "LOG")), (bool_decide_eq_false_2 (_ = text "LOG.old")) by (apply Hx; right; vm_compute; discriminate).
  cbn [orb]. assert (Hm : starts_with (b :: l ++ suffix) (text "MANIFEST-") = false).
  { unfold starts_with. apply andb_false_iff. right. change (text "MANIFEST-") with (x4d :: text "ANIFEST-"). cbn [length memcmp].
    change (b2z x4d) with 77. rewrite (proj2 (Z.ltb_lt (b2z b) 77)) by lia. done. }
  rewrite Hm. by destruct Hs as [[-> ->]|[[-> ->]|[[-> ->]|[-> ->]]]].
Qed.

Lemma ParseFileName_descriptor width n :
  0 <= n < 2 ^ 64 -> ParseFileName (text "MANIFEST-" ++ print_u64 width n) = Some (n, kDescriptorFile).
Proof.
  intros Hn. unfold ParseFileName. cbv zeta.
  rewrite (bool_decide_eq_false_2 (_ = text "CURRENT")), (bool_decide_eq_false_2 (_ = text "LOCK")),
    (bool_decide_eq_false_2 (_ = text "LOG")), (bool_decide_eq_false_2 (_ = text "LOG.old")) by discriminate.
  cbn [orb]. rewrite starts_with_app, drop_app_exact.
  pose proof (ConsumeDecimalNumber_spec width n [] Hn I) as E. rewrite app_nil_r in E. by rewrite E.
Qed.

(** each kind of name *)
Definition file_is (dbname name : bytes) (n : Z) (ty : FileType) : Prop := ParseFileName (base_name dbname name) = Some (n, ty).

Lemma base_is dbname base n ty : ParseFileName base = Some (n, ty) -> file_is dbname (dbname ++ text "/" ++ base) n ty.
Proof. unfold file_is. by rewrite base_name_app. Qed.

Lemma number_is dbname n sfx ty :
  0 < n < 2 ^ 64 -> (text "." ++ sfx = text ".log" /\ ty = kLogFile \/ text "." ++ sfx = text ".sst" /\ ty = kTableFile \/
    text "." ++ sfx = text ".ldb" /\ ty = kTableFile \/ text "." ++ sfx = text ".dbtmp" /\ ty = kTempFile) ->
  exists name, (_ ← c_assert (0 <? n); Done (MakeFileName dbname n sfx)) = Done name /\ file_is dbname name n ty.
Proof.
  intros Hn Hs. rewrite (proj2 (Z.ltb_lt 0 n)) by lia. eexists. split; [done|]. apply base_is, ParseFileName_number; [lia|done].
Qed.

Lemma LogFileName_is dbname n : 0 < n < 2 ^ 64 -> exists name, LogFileName dbname n = Done name /\ file_is dbname name n kLogFile.
Proof. intros Hn. apply number_is; tauto. Qed.
Lemma TableFileName_is dbname n : 0 < n < 2 ^ 64 -> exists name, TableFileName dbname n = Done name /\ file_is dbname name n kTableFile.
Proof. intros Hn. apply number_is; tauto. Qed.
Lemma SSTTableFileName_is dbname n : 0 < n < 2 ^ 64 -> exists name, SSTTableFileName dbname n = Done name /\ file_is dbname name n kTableFile.
Proof. intros Hn. apply number_is; tauto. Qed.
Lemma TempFileName_is dbname n : 0 < n < 2 ^ 64 -> exists name, TempFileName dbname n = Done name /\ file_is dbname name n kTempFile.
Proof. intros Hn. apply number_is; tauto. Qed.
Lemma CurrentFileName_is dbname : file_is dbname (CurrentFileName dbname) 0 kCurrentFile.
Proof. by apply (base_is dbname (text "CURRENT")). Qed.

Lemma DescriptorFileName_is dbname n :
  0 < n < 2 ^ 64 -> exists base, DescriptorFileName dbname n = Done (dbname ++ text "/" ++ base) /\ ParseFileName base = Some (n, kDescriptorFile) /\
    Forall (fun b => b <> x0a) base.
Proof.
  intros Hn. unfold DescriptorFileName. rewrite (proj2 (Z.ltb_lt 0 n)) by lia. exists (text "MANIFEST-" ++ print_u64 6 n).
  split; [done|]. split; [apply ParseFileName_descriptor; lia|]. apply list.Forall_app. split; [by repeat constructor|].
  destruct (print_u64_spec 6 n ltac:(lia)) as (_ & Hd & _). rewrite list.Forall_forall in Hd |- *. intros b Hb ->. by destruct (Hd _ Hb).
Qed.

(** C28: The names of the database's files are read back: each file's name, less
    its directory, parses to the number and the kind it was made for, so two
    files of the database never share a name. *)
Theorem filename_roundtrip dbname n :
  0 < n < 2 ^ 64 ->
  (exists name, LogFileName dbname n = Done name /\ ParseFileName (base_name dbname name) = Some (n, kLogFile)) /\
  (exists name, TableFileName dbname n = Done name /\ ParseFileName (base_name dbname name) = Some (n, kTableFile)) /\
  (exists name, SSTTableFileName dbname n = Done name /\ ParseFileName (base_name dbname name) = Some (n, kTableFile)) /\
  (exists name, TempFileName dbname n = Done name /\ ParseFileName (base_name dbname name) = Some (n, kTempFile)) /\
  (exists name, DescriptorFileName dbname n = Done name /\ ParseFileName (base_name dbname name) = Some (n, kDescriptorFile)) /\
  ParseFileName (base_name dbname (CurrentFileName dbname)) = Some (0, kCurrentFile) /\
  ParseFileName (base_name dbname (LockFileName dbname)) = Some (0, kDBLockFile) /\
  ParseFileName (base_name dbname (InfoLogFileName dbname)) = Some (0, kInfoLogFile) /\
  ParseFileName (base_name dbname (OldInfoLogFileName dbname)) = Some (0, kInfoLogFile).
Proof.
  intros Hn. split; [by apply LogFileName_is|]. split; [by apply TableFileName_is|]. split; [by apply SSTTableFileName_is|].
  split; [by apply TempFileName_is|]. split.
  { destruct (DescriptorFileName_is dbname n Hn) as (base & E & Hp & _). eexists. split; [exact E|]. by apply base_is. }
  split; [apply CurrentFileName_is|]. split; [by apply (base_is dbname (text "LOCK"))|].
  split; [by apply (base_is dbname (text "LOG"))|by apply (base_is dbname (text "LOG.old"))].
Qed.

Lemma filename_roundtrip_witness : exists name, TableFileName (text "/data/db") 12 = Done name /\ name = text "/data/db/000012.ldb" /\
  ParseFileName (base_name (text "/data/db") name) = Some (12, kTableFile).
Proof.
  destruct (filename_roundtrip (text "/data/db") 12) as (_ & (name & E & Hp) & _); [lia|]. exists name.
  split; [exact E|]. split; [|exact Hp]. injection E as <-. reflexivity.
Defined.

(** a name names one file *)
Lemma file_is_fun dbname name n m ty ty' : file_is dbname name n ty -> file_is dbname name m ty' -> n = m /\ ty = ty'.
Proof. unfold file_is. intros -> [= -> ->]. done. Qed.

Lemma TableFileName_inj dbname n m name :
  0 < n < 2 ^ 64 -> 0 < m < 2 ^ 64 -> TableFileName dbname n = Done name -> TableFileName dbname m = Done name -> n = m.
Proof.
  intros Hn Hm E1 E2. destruct (TableFileName_is dbname n Hn) as (x & Ex & Hx), (TableFileName_is dbname m Hm) as (y & Ey & Hy).
  assert (x = name) as -> by congruence. assert (y = name) as -> by congruence. by apply (file_is_fun dbname name n m kTableFile kTableFile).
Qed.

(** ** [SetCurrentFile] *)

Section current_spec.
Context {E F R G : Type} `{EnvOk E F R G}.

(** CURRENT names the descriptor; of the other files only the temporary one
    changes *)
Lemma SetCurrentFile_spec env dbname n base :
  0 < n < 2 ^ 64 -> DescriptorFileName dbname n = Done (dbname ++ text "/" ++ base) ->
  exists env', SetCurrentFile env dbname n = Done (env', OK) /\
    stored_file env' (CurrentFileName dbname) = Some (base ++ [x0a]) /\
    forall name, ~ file_is dbname name n kTempFile -> name <> CurrentFileName dbname -> stored_file env' name = stored_file env name.
Proof.
  intros Hn Ed. unfold SetCurrentFile. rewrite Ed. cbn [mbind outcome_bind].
  rewrite app_assoc, starts_with_app. cbn [c_assert mbind outcome_bind].
  replace (length dbname + 1)%nat with (length (dbname ++ text "/")) by (by rewrite length_app). rewrite drop_app_exact.
  destruct (TempFileName_is dbname n Hn) as (tmp & -> & Ht). cbn [mbind outcome_bind]. unfold WriteStringToFileSync.
  destruct (DoWriteStringToFile_spec env (base ++ [x0a]) tmp true) as (env1 & -> & Hs1 & Ho1). rewrite bool_decide_eq_true_2 by done.
  assert (Hne : tmp <> CurrentFileName dbname).
  { intros ->. destruct (file_is_fun _ _ _ _ _ _ Ht (CurrentFileName_is dbname)) as [_ Et]. done. }
  destruct (RenameFile_ok env1 tmp (CurrentFileName dbname) _ Hs1 Hne) as (env2 & -> & Hs2 & Ho2). rewrite bool_decide_eq_true_2 by done.
  exists env2. split; [done|]. split; [done|]. intros name Hnt Hnc. assert (name <> tmp) by (by intros ->). by rewrite Ho2, Ho1.
Qed.
End current_spec.
