(* ===== verification/TableCache.v ===== *)
(** * TableCache: db/table_cache.cc, and what it finds: what the table files hold

    The open tables, by file number, in a cache of include/leveldb/cache.h; each
    reads its blocks through the block cache of the options, which also gives
    out the ids of the tables. *)

From Stdlib.Strings Require Import Byte.
From S2P Require Import Prelude Status Coding DbFormat WriteBatch Crc32c Log LogSpec Bloom FilterBlock Block BlockSpec Format TableBuilder Table TableSpec TableTheorems VersionEdit Version VersionSpec Env Filename.

Section TableCache.
Context {E F R G P CT CB : Type} `{Env E F R G} `{FilterPolicy P} `{Cache CT (Table (R := R) (P := P))} `{Cache CB Block} `{Machine} `{Snappy}.

(** [block_cache] and the last id it gave are those of the options *)
Record TableCache := {
  tc_dbname : bytes; tc_options : Options P; tc_cache : CT; tc_block_cache : option CB; tc_last_id : Z }.

Definition make_TableCache (dbname : bytes) (options : Options P) (cache : CT) (block_cache : option CB) (last_id : Z) : TableCache :=
  {| tc_dbname := dbname; tc_options := options; tc_cache := cache; tc_block_cache := block_cache; tc_last_id := last_id |}.

Definition with_cache (t : TableCache) (c : CT) : TableCache :=
  {| tc_dbname := tc_dbname t; tc_options := tc_options t; tc_cache := c; tc_block_cache := tc_block_cache t; tc_last_id := tc_last_id t |}.
Definition with_block_cache (t : TableCache) (c : option CB) : TableCache :=
  {| tc_dbname := tc_dbname t; tc_options := tc_options t; tc_cache := tc_cache t; tc_block_cache := c; tc_last_id := tc_last_id t |}.

(** [Table::Open] asks the block cache for a [NewId] *)
Definition open_table (t : TableCache) (file : R) (file_size : Z) : outcome (TableCache * (Table (R := R) (P := P) + Status)) :=
  let id := match tc_block_cache t with Some _ => u64 (tc_last_id t + 1) | None => 0 end in
  r ← Open (tc_options t) file file_size id;
  let last_id := match tc_block_cache t, r with Some _, inl _ => id | _, _ => tc_last_id t end in
  Done ({| tc_dbname := tc_dbname t; tc_options := tc_options t; tc_cache := tc_cache t;
           tc_block_cache := tc_block_cache t; tc_last_id := last_id |}, r).

Definition table_key (file_number : Z) : bytes := EncodeFixed64 file_number.

(** the file under its name, or under the name of older versions *)
Definition open_file (env : E) (dbname : bytes) (file_number : Z) : outcome (R + Status) :=
  fname ← TableFileName dbname file_number;
  match NewRandomAccessFile env fname with
  | inl file => Done (inl file)
  | inr s =>
      old_fname ← SSTTableFileName dbname file_number;
      Done (match NewRandomAccessFile env old_fname with inl file => inl file | inr _ => inr s end)
  end.

Definition FindTable (env : E) (t : TableCache) (file_number file_size : Z) : outcome (TableCache * (Table (R := R) (P := P) + Status)) :=
  let key := table_key file_number in
  let (c, hit) := cache_Lookup (tc_cache t) key in
  let t := with_cache t c in
  match hit with
  | Some table => Done (t, inl table)
  | None =>
      file ← open_file env (tc_dbname t) file_number;
      match file with
      | inr s => Done (t, inr s)
      | inl file =>
          '(t, r) ← open_table t file file_size;
          match r with
          | inr s => Done (t, inr s)
          | inl table => Done (with_cache t (cache_Insert (tc_cache t) key table), inl table)
          end
      end
  end.

Definition Get (env : E) (t : TableCache) (options : ReadOptions) (file_number file_size : Z) (k : bytes)
    : outcome (option (bytes * bytes) * Status * TableCache) :=
  '(t, r) ← FindTable env t file_number file_size;
  match r with
  | inr s => Done (None, s, t)
  | inl table =>
      '(result, s, c) ← InternalGet table (tc_block_cache t) options k;
      Done (result, s, with_block_cache t c)
  end.

(** the status of a new iterator over a table: that of its index block's *)
Definition NewIterator_status (env : E) (t : TableCache) (file_number file_size : Z) : outcome (Status * TableCache) :=
  '(t, r) ← FindTable env t file_number file_size;
  match r with
  | inr s => Done (s, t)
  | inl table => i ← NewIterator (table_index_block table); Done (bi_status i, t)
  end.

Definition Evict (t : TableCache) (file_number : Z) : TableCache := with_cache t (cache_Erase (tc_cache t) (table_key file_number)).
End TableCache.

(** the table cache and the file system as what [Version] reads from *)
#[export] Instance cached_tables {E F R G P CT CB} `{Env E F R G} `{FilterPolicy P} `{Cache CT (Table (R := R) (P := P))} `{Cache CB Block}
    `{Machine} `{Snappy} : Tables (E * TableCache (P := P) (CT := CT) (CB := CB)) := {|
  tables_Get t ro n sz k := '(result, s, c) ← Get t.1 t.2 ro n sz k; Done (result, s, (t.1, c)) |}.

(** ** One table adds to the block cache only under its own id *)

Section Own.
Context {R P C : Type} `{RandomAccessFile R} `{FilterPolicy P} `{CacheOk C Block} `{Machine} `{Snappy}.

Definition cache_only (id : Z) (cache cache' : option C) : Prop :=
  match cache, cache' with
  | None, None => True
  | Some c, Some c' => forall k b, cached c' k b -> cached c k b \/ exists o, k = cache_key id o
  | _, _ => False
  end.

Lemma cache_only_refl id cache : cache_only id cache cache.
Proof. destruct cache; simpl; [by left|done]. Qed.

Lemma read_cached_only (t : Table (R := R) (P := P)) cache ro h r cache' :
  read_cached t cache ro h = Done (r, cache') -> cache_only (cache_id t) cache cache'.
Proof.
  unfold read_cached. destruct cache as [c|]; intros E.
  - destruct (cache_Lookup_ok c (cache_key (cache_id t) (handle_offset h))) as [Hl _].
    destruct (cache_Lookup c (cache_key (cache_id t) (handle_offset h))) as [c1 hit]. cbn [fst] in Hl.
    destruct hit as [b|]; [injection E as <- <-; intros k b' Hb; left; by apply Hl|].
    apply outcome_bind_done in E as (bc & _ & E). destruct bc as [contents|s]; [|injection E as <- <-; intros k b' Hb; left; by apply Hl].
    apply outcome_bind_done in E as (blk & _ & E). injection E as <- <-. destruct (cachable contents && fill_cache ro).
    + intros k b' Hb. apply cache_Insert_ok in Hb as [[-> ->]|Hb]; [right; by eexists|left; by apply Hl].
    + intros k b' Hb. left. by apply Hl.
  - apply outcome_bind_done in E as (bc & _ & E). destruct bc as [contents|s]; [|by injection E as <- <-].
    apply outcome_bind_done in E as (blk & _ & E). by injection E as <- <-.
Qed.

Lemma InternalGet_only (t : Table (R := R) (P := P)) cache ro k r s cache' :
  InternalGet t cache ro k = Done (r, s, cache') -> cache_only (cache_id t) cache cache'.
Proof.
  unfold InternalGet. intros E. apply outcome_bind_done in E as (i & _ & E). apply outcome_bind_done in E as (i' & _ & E).
  apply outcome_bind_done in E as ([[r1 s1] c1] & E1 & E). injection E as <- <- <-.
  destruct (bi_Valid i'); [|injection E1 as <- <- <-; apply cache_only_refl].
  apply outcome_bind_done in E1 as (hv & _ & E1). apply outcome_bind_done in E1 as (out & _ & E1).
  destruct out; [injection E1 as <- <- <-; apply cache_only_refl|]. apply outcome_bind_done in E1 as ([bi c2] & E2 & E1).
  apply outcome_bind_done in E1 as (bi' & _ & E1). apply outcome_bind_done in E1 as (r2 & _ & E1). injection E1 as <- <- <-.
  unfold BlockReader in E2. destruct (Format.DecodeFrom hv) as [[h rest]|]; [|injection E2 as <- <-; apply cache_only_refl].
  apply outcome_bind_done in E2 as ([b c3] & E3 & E2). destruct b as [blk|s3].
  - apply outcome_bind_done in E2 as (i3 & _ & E2). injection E2 as <- <-. by eapply read_cached_only.
  - injection E2 as <- <-. by eapply read_cached_only.
Qed.
End Own.

Lemma cache_key_id id id' o o' : 0 <= id < 2 ^ 64 -> 0 <= id' < 2 ^ 64 -> cache_key id o = cache_key id' o' -> id = id'.
Proof.
  intros Hi Hi' E. unfold cache_key in E. assert (Done id = Done id') as [= Eid]; [|exact Eid].
  rewrite <- (Fixed64_roundtrip id (EncodeFixed64 o)), <- (Fixed64_roundtrip id' (EncodeFixed64 o')) by done. by rewrite E.
Qed.

(** ** Open tables *)

Section Opened.
Context {R P C : Type} `{RandomAccessFileOk R} `{FilterPolicyOk P} `{CacheOk C Block} `{MachineOk} `{SnappyOk}.
Context (options : Options (InternalFilterPolicy P)) (Hopt : options_ok options).

(** the bytes are those of a table of these entries *)
Definition table_file_of (c : bytes) (es : list (bytes * bytes)) : Prop :=
  exists done idx irs footer, finished_file options c done idx irs footer /\ sorted_items (items_of done) /\ map kv (items_of done) = es.

(** the table is open on such a file, and its blocks in the cache are right *)
Definition opened (c : bytes) (es : list (bytes * bytes)) (t : Table (R := R) (P := InternalFilterPolicy P)) (id : Z) (cache : option C) : Prop :=
  exists rf done idx irs footer, file_content rf = c /\ finished_file options c done idx irs footer /\ sorted_items (items_of done) /\
    map kv (items_of done) = es /\ table_is options rf done idx irs t id /\ cache_good done id cache.

Lemma opened_id c es t id cache : opened c es t id cache -> cache_id t = id.
Proof. by intros (rf & done & idx & irs & footer & _ & _ & _ & _ & (_ & _ & E & _) & _). Qed.

Lemma opened_Open rf es id cache :
  table_file_of (file_content rf) es ->
  (forall c, cache = Some c -> forall o b, ~ cached c (cache_key id o) b) ->
  exists t, Open options rf (blen (file_content rf)) id = Done (inl t) /\ opened (file_content rf) es t id cache.
Proof.
  intros (done & idx & irs & footer & Hf & Hs & He) Hc. destruct (Open_spec options rf done idx irs footer Hf id) as (t & E & Ht).
  exists t. split; [exact E|]. exists rf, done, idx, irs, footer. split; [done|]. split; [exact Hf|]. split; [exact Hs|]. split; [exact He|].
  split; [exact Ht|]. destruct cache as [c|]; [|done]. intros st b _ Hb. by apply Hc in Hb.
Qed.

Lemma opened_Get c es t id cache ro u tag :
  opened c es t id cache -> 0 <= tag < 2 ^ 64 -> filterable options (ikey u tag) ->
  exists result cache', InternalGet t cache ro (ikey u tag) = Done (result, OK, cache') /\ opened c es t id cache' /\
    cache_only id cache cache' /\ (forall e, result = Some e -> e ∈ es) /\ for_user u result = for_user u (first_ge es (ikey u tag)).
Proof.
  intros (rf & done & idx & irs & footer & Hrf & Hf & Hs & He & Ht & Hg) Htag Hk. pose proof Hopt as (Hcmp & _ & _). subst c.
  destruct (InternalGet_spec options Hcmp rf done idx irs footer Hf Hs t id cache ro u tag Ht Hg Htag Hk) as (result & cache' & E & Hg' & Hin & Hfor).
  exists result, cache'. split; [exact E|]. rewrite He in Hin, Hfor. split; [|split; [|done]].
  - exists rf, done, idx, irs, footer. do 5 (split; [done|]). done.
  - destruct Ht as (_ & _ & <- & _). by eapply InternalGet_only.
Qed.

Lemma opened_other c es t id cache id' cache' :
  opened c es t id cache -> cache_only id' cache cache' -> id <> id' -> 0 <= id < 2 ^ 64 -> 0 <= id' < 2 ^ 64 -> opened c es t id cache'.
Proof.
  intros (rf & done & idx & irs & footer & Hrf & Hf & Hs & He & Ht & Hg) Ho Hne Hid Hid'.
  exists rf, done, idx, irs, footer. do 5 (split; [done|]). destruct cache as [c1|], cache' as [c2|]; try done.
  intros st b Hst Hb. destruct (Ho _ _ Hb) as [Hb'|(o & Eo)]; [by apply (Hg st)|]. by apply cache_key_id in Eo.
Qed.
End Opened.

(** ** The table cache *)

Section Cache.
Context {E F R G P CT CB : Type} `{EnvOk E F R G} `{FilterPolicyOk P} `{CacheOk CT (Table (R := R) (P := InternalFilterPolicy P))}
  `{CacheOk CB Block} `{MachineOk} `{SnappyOk}.
Abbreviation TC := (TableCache (P := InternalFilterPolicy P) (CT := CT) (CB := CB)).
Implicit Types t : TC.

(** the content of the file of a table *)
Definition table_content (env : E) (dbname : bytes) (n : Z) (c : bytes) : Prop :=
  0 < n < 2 ^ 64 /\ exists name, TableFileName dbname n = Done name /\ stored_file env name = Some c.

(** an open table reads its file, whatever entries the file is read as *)
Definition right_table env t (n : Z) (tab : Table (R := R) (P := InternalFilterPolicy P)) (bc : option CB) : Prop :=
  exists c, table_content env (tc_dbname t) n c /\
    forall es, table_file_of (tc_options t) c es -> opened (tc_options t) c es tab (cache_id tab) bc.

Record tc_ok env t : Prop := {
  tk_options : options_ok (tc_options t);
  tk_last : 0 <= tc_last_id t < 2 ^ 64;
  tk_tables : forall key tab, cached (tc_cache t) key tab -> exists n, key = table_key n /\
    right_table env t n tab (tc_block_cache t) /\ 0 <= cache_id tab <= tc_last_id t;
  tk_ids : forall k k' tab tab', cached (tc_cache t) k tab -> cached (tc_cache t) k' tab' -> cache_id tab = cache_id tab' ->
    tc_block_cache t = None \/ tab = tab';
  tk_fresh : forall c, tc_block_cache t = Some c -> forall id o b, tc_last_id t < id < 2 ^ 64 -> ~ cached c (cache_key id o) b }.

Definition stored_table env t (n sz : Z) (es : list (bytes * bytes)) : Prop :=
  exists c, table_content env (tc_dbname t) n c /\ sz = blen c /\ table_file_of (tc_options t) c es.

(** what stays of the cache's configuration *)
Definition same_config t t' : Prop :=
  tc_dbname t' = tc_dbname t /\ tc_options t' = tc_options t /\ tc_last_id t <= tc_last_id t' <= tc_last_id t + 1.

Lemma table_key_inj n m : 0 < n < 2 ^ 64 -> 0 < m < 2 ^ 64 -> table_key n = table_key m -> n = m.
Proof.
  intros Hn Hm Ek. assert (Done n = Done m) as [= En]; [|exact En].
  rewrite <- (Fixed64_roundtrip n []), <- (Fixed64_roundtrip m []) by lia. unfold table_key in Ek. by rewrite Ek.
Qed.

Lemma table_content_fun env dbname n c c' : table_content env dbname n c -> table_content env dbname n c' -> c = c'.
Proof. intros [_ (name & E1 & E2)] [_ (name' & E1' & E2')]. congruence. Qed.

Lemma stored_table_config env t t' n sz es : same_config t t' -> stored_table env t n sz es -> stored_table env t' n sz es.
Proof. intros (Ed & Eo & _) (c & Hc & Hs & Hf). exists c. by rewrite Ed, Eo. Qed.

(** a table found is right, and no other table in the cache shares its id *)
Definition found_table env t (n : Z) (tab : Table (R := R) (P := InternalFilterPolicy P)) : Prop :=
  right_table env t n tab (tc_block_cache t) /\ 0 <= cache_id tab <= tc_last_id t /\
  forall k tab', cached (tc_cache t) k tab' -> cache_id tab' = cache_id tab -> tc_block_cache t = None \/ tab' = tab.

Lemma open_file_spec env dbname n c :
  table_content env dbname n c -> exists f, open_file env dbname n = Done (inl f) /\ file_content f = c.
Proof.
  intros [_ (name & En & Es)]. unfold open_file. rewrite En. cbn [mbind outcome_bind].
  destruct (NewRandomAccessFile_ok env name c Es) as (f & -> & Ef). by exists f.
Qed.

Lemma open_table_spec env t n c es f :
  tc_ok env t -> table_content env (tc_dbname t) n c -> file_content f = c -> table_file_of (tc_options t) c es ->
  tc_last_id t < 2 ^ 64 - 1 ->
  exists t' tab, open_table t f (blen c) = Done (t', inl tab) /\ tc_ok env t' /\ same_config t t' /\ tc_cache t' = tc_cache t /\
    found_table env t' n tab.
Proof.
  intros Hok Hc Ef Hf Hid. pose proof (tk_last _ _ Hok). unfold open_table. set (id := match tc_block_cache t with Some _ => _ | None => 0 end).
  assert (Hidr : tc_block_cache t = None /\ id = 0 \/ (exists c, tc_block_cache t = Some c) /\ id = tc_last_id t + 1).
  { unfold id. destruct (tc_block_cache t); [right; split; [eauto|]; rewrite u64_small by lia; lia|by left]. }
  assert (Hfresh : forall c0, tc_block_cache t = Some c0 -> forall o b, ~ cached c0 (cache_key id o) b).
  { intros c0 Ec o b. destruct Hidr as [[Ec' _]|[_ Eid]]; [congruence|]. rewrite Eid. apply (tk_fresh _ _ Hok c0 Ec). lia. }
  rewrite <- Ef in Hf. destruct (opened_Open (tc_options t) f es id (tc_block_cache t) Hf Hfresh) as (tab & Eo & Hop). rewrite Ef in Eo, Hop.
  rewrite Eo. cbn [mbind outcome_bind]. set (t' := {| tc_dbname := _; tc_options := _; tc_cache := _; tc_block_cache := _; tc_last_id := _ |}).
  assert (Elast : tc_last_id t' = tc_last_id t /\ tc_block_cache t = None \/ tc_last_id t' = tc_last_id t + 1 /\ id = tc_last_id t + 1).
  { cbn. destruct Hidr as [[-> _]|[[c0 ->] Eid]]; [by left|right; by rewrite Eid]. }
  assert (Hidt : cache_id tab = id) by (by eapply opened_id).
  exists t', tab. split; [reflexivity|]. split; [|split; [|split; [done|]]].
  - split; cbn [tc_options tc_cache tc_block_cache t']; [apply Hok|lia| |apply Hok|].
    + intros key tab' Hk. destruct (tk_tables _ _ Hok key tab' Hk) as (m & Ek & Hr & Hi). exists m. split; [done|]. split; [exact Hr|]. lia.
    + intros c0 Ec i o b Hi. apply (tk_fresh _ _ Hok c0 Ec). lia.
  - split; [done|]. split; [done|]. lia.
  - split; [|split].
    + exists c. split; [done|]. intros es' Hf'. rewrite <- Ef in Hf'.
      destruct (opened_Open (tc_options t) f es' id (tc_block_cache t) Hf' Hfresh) as (tab' & Eo' & Hop'). rewrite Ef in Eo', Hop'.
      assert (tab' = tab) as -> by congruence. rewrite Hidt. exact Hop'.
    + destruct Hidr as [[Eb Ei]|[[c0 Eb] Ei]], Elast as [[El Eb']|[El Ei']]; first [congruence|lia].
    + cbn [tc_cache tc_block_cache t']. intros k tab' Hk Ei. destruct Hidr as [[-> _]|[_ Eid]]; [by left|]. exfalso.
      destruct (tk_tables _ _ Hok k tab' Hk) as (m & _ & _ & Hi). lia.
Qed.

(** fewer tables in the cache *)
Lemma tc_ok_shrink env t c : tc_ok env t -> (forall k v, cached c k v -> cached (tc_cache t) k v) -> tc_ok env (with_cache t c).
Proof.
  intros Hok Hc. split; cbn [tc_options tc_cache tc_block_cache tc_last_id tc_dbname with_cache]; try apply Hok.
  - intros key tab Hk. destruct (tk_tables _ _ Hok key tab (Hc _ _ Hk)) as (n & Ek & Hr & Hi). by exists n.
  - intros k k' tab tab' Hk Hk'. apply (tk_ids _ _ Hok k k'); by apply Hc.
Qed.

Lemma FindTable_spec env t n sz es :
  tc_ok env t -> stored_table env t n sz es -> tc_last_id t < 2 ^ 64 - 1 ->
  exists t' tab, FindTable env t n sz = Done (t', inl tab) /\ tc_ok env t' /\ same_config t t' /\ found_table env t' n tab.
Proof.
  intros Hok (c & Hcont & -> & Hf) Hid. pose proof Hcont as (Hn & _). unfold FindTable.
  destruct (cache_Lookup_ok (tc_cache t) (table_key n)) as [Hl1 Hl2]. destruct (cache_Lookup (tc_cache t) (table_key n)) as [c1 hit].
  cbn [fst snd] in Hl1, Hl2. pose proof (tc_ok_shrink env t c1 Hok Hl1) as Hok1. destruct hit as [tab|].
  - exists (with_cache t c1), tab. split; [done|]. split; [done|]. split; [split; [done|]; split; [done|]; cbn; lia|].
    specialize (Hl2 tab eq_refl). destruct (tk_tables _ _ Hok _ _ Hl2) as (m & Ek & Hr & Hi).
    assert (n = m) as <-. { apply table_key_inj; [done| |done]. by destruct Hr as (? & (? & _) & _). }
    split; [exact Hr|]. split; [done|]. intros k tab' Hk Ei. apply (tk_ids _ _ Hok k (table_key n)); [by apply Hl1|done|done].
  - destruct (open_file_spec env (tc_dbname t) n c Hcont) as (f & Ef & Hfc).
    cbn [tc_dbname with_cache]. rewrite Ef. cbn [mbind outcome_bind].
    destruct (open_table_spec env (with_cache t c1) n c es f Hok1 Hcont Hfc Hf Hid) as (t' & tab & Eo & Hok' & Hsame & Ecache & Hfound).
    rewrite Eo. cbn [mbind outcome_bind]. exists (with_cache t' (cache_Insert (tc_cache t') (table_key n) tab)), tab.
    split; [done|]. destruct Hfound as (Hr & Hi & Hdist).
    assert (Hins : forall k v, cached (cache_Insert (tc_cache t') (table_key n) tab) k v -> k = table_key n /\ v = tab \/ cached (tc_cache t') k v)
      by apply cache_Insert_ok.
    split; [split|split; [|split; [exact Hr|split; [exact Hi|]]]]; cbn [tc_options tc_cache tc_block_cache tc_last_id tc_dbname with_cache]; try apply Hok'.
    + intros key tab' [[-> ->]|Hk]%Hins; [by exists n|]. by apply (tk_tables _ _ Hok').
    + intros k k' tab1 tab2 [[-> ->]|Hk]%Hins [[-> ->]|Hk']%Hins Ei; [by right| | |].
      * destruct (Hdist k' tab2 Hk' ltac:(done)); [by left|by right].
      * by apply (Hdist k tab1 Hk).
      * by apply (tk_ids _ _ Hok' k k').
    + done.
    + intros k tab' [[-> ->]|Hk]%Hins Ei; [by right|]. by apply (Hdist k).
Qed.

Lemma right_table_after env t n tab bc' n0 tab0 :
  right_table env t n0 tab0 (tc_block_cache t) -> cache_only (cache_id tab) (tc_block_cache t) bc' ->
  (tab0 = tab -> right_table env t n tab bc' -> right_table env t n0 tab bc') -> right_table env t n tab bc' ->
  0 <= cache_id tab < 2 ^ 64 -> 0 <= cache_id tab0 < 2 ^ 64 ->
  (cache_id tab0 = cache_id tab -> tc_block_cache t = None \/ tab0 = tab) -> right_table env t n0 tab0 bc'.
Proof.
  intros Hr Ho Hsame Hr' Hi Hi0 Hid. destruct (Z.eq_dec (cache_id tab0) (cache_id tab)) as [E0|Hne].
  - destruct (Hid E0) as [En| ->]; [|by apply Hsame]. rewrite En in Hr, Ho. destruct bc'; done.
  - destruct Hr as (c & Hc & Hop). exists c. split; [done|]. intros es Hf. by eapply opened_other; [apply Hop|..].
Qed.

Lemma Get_cached_spec env t n sz es ro u tag :
  tc_ok env t -> stored_table env t n sz es -> tc_last_id t < 2 ^ 64 - 1 -> 0 <= tag < 2 ^ 64 -> filterable (tc_options t) (ikey u tag) ->
  exists result t', Get env t ro n sz (ikey u tag) = Done (result, OK, t') /\ tc_ok env t' /\ same_config t t' /\
    (forall e, result = Some e -> e ∈ es) /\ for_user u result = for_user u (first_ge es (ikey u tag)).
Proof.
  intros Hok Hst Hid Htag Hk. destruct (FindTable_spec env t n sz es Hok Hst Hid) as (t1 & tab & Efind & Hok1 & Hsame & Hr & Hi & Hdist).
  unfold Get. rewrite Efind. cbn [mbind outcome_bind]. pose proof Hsame as (Ed & Eo & _). pose proof (tk_last _ _ Hok1).
  destruct Hst as (c & Hcont & -> & Hf). pose proof (tk_options _ _ Hok1) as Hopt. rewrite <- Ed in Hcont. rewrite <- Eo in Hf, Hk.
  assert (Hget : forall n0 c0 es0, table_content env (tc_dbname t1) n0 c0 -> right_table env t1 n0 tab (tc_block_cache t1) ->
    table_file_of (tc_options t1) c0 es0 ->
    exists result bc', InternalGet tab (tc_block_cache t1) ro (ikey u tag) = Done (result, OK, bc') /\
      opened (tc_options t1) c0 es0 tab (cache_id tab) bc' /\ cache_only (cache_id tab) (tc_block_cache t1) bc' /\
      (forall e, result = Some e -> e ∈ es0) /\ for_user u result = for_user u (first_ge es0 (ikey u tag))).
  { intros n0 c0 es0 Hc0 (c1 & Hc1 & Hop) Hf0. assert (c1 = c0) as -> by (by eapply table_content_fun).
    by apply (opened_Get (tc_options t1) Hopt c0 es0 tab (cache_id tab)); [apply Hop|..]. }
  destruct (Hget n c es Hcont Hr Hf) as (result & bc' & Eg & _ & Honly & Hin & Hfor). rewrite Eg. cbn [mbind outcome_bind].
  exists result, (with_block_cache t1 bc'). split; [done|]. split; [|done].
  assert (Hright : forall n0, right_table env t1 n0 tab (tc_block_cache t1) -> right_table env t1 n0 tab bc').
  { intros n0 Hr0. pose proof Hr0 as (c0 & Hc0 & Hop0). exists c0. split; [done|]. intros es0 Hf0.
    destruct (Hget n0 c0 es0 Hc0 Hr0 Hf0) as (result0 & bc0 & Eg0 & Hop1 & _). by assert (bc0 = bc') as -> by congruence. }
  split; cbn [tc_options tc_cache tc_block_cache tc_last_id tc_dbname with_block_cache].
  - apply Hok1.
  - apply Hok1.
  - intros key tab0 Hc0. destruct (tk_tables _ _ Hok1 key tab0 Hc0) as (n0 & Ek0 & Hr0 & Hi0). exists n0. split; [done|]. split; [|done].
    change (right_table env t1 n0 tab0 bc'). eapply (right_table_after env t1 n tab bc'); [exact Hr0|exact Honly| |by apply Hright|lia|lia|].
    + intros -> _. by apply Hright.
    + intros Ei. by apply (Hdist key).
  - intros k k' tab1 tab2 Hk1 Hk2 Ei. destruct (tk_ids _ _ Hok1 k k' tab1 tab2 Hk1 Hk2 Ei) as [En|]; [|by right]. left.
    rewrite En in Honly. by destruct bc'.
  - intros c2 -> id o b Hid2 Hb. destruct (tc_block_cache t1) as [c1|] eqn:Ec1; [|done]. cbn [cache_only] in Honly. destruct (Honly _ _ Hb) as [Hb'|(o' & Eo')].
    + by apply (tk_fresh _ _ Hok1 c1 Ec1 id o b).
    + apply cache_key_id in Eo'; lia.
Qed.

(** looking a table up adds that table only *)
Lemma FindTable_adds env t n sz t' r :
  FindTable env t n sz = Done (t', r) -> forall k tab, cached (tc_cache t') k tab -> k = table_key n \/ cached (tc_cache t) k tab.
Proof.
  unfold FindTable. intros Ef k tab. destruct (cache_Lookup_ok (tc_cache t) (table_key n)) as [Hl _].
  destruct (cache_Lookup (tc_cache t) (table_key n)) as [c1 hit]. cbn [fst] in Hl. destruct hit as [t1|].
  { injection Ef as <- <-. right. by apply Hl. }
  apply outcome_bind_done in Ef as (f & _ & Ef). destruct f as [f|s]; [|injection Ef as <- <-; right; by apply Hl].
  apply outcome_bind_done in Ef as ([t2 r2] & Eo & Ef). unfold open_table in Eo. apply outcome_bind_done in Eo as (r3 & _ & Eo). injection Eo as <- <-.
  destruct r3 as [t3|s]; injection Ef as <- <-; cbn [tc_cache with_cache]; [|right; by apply Hl].
  intros [[-> _]|Hc]%cache_Insert_ok; [by left|right; by apply Hl].
Qed.

Lemma Get_adds env t ro n sz k result st t' :
  Get env t ro n sz k = Done (result, st, t') -> forall k' tab, cached (tc_cache t') k' tab -> k' = table_key n \/ cached (tc_cache t) k' tab.
Proof.
  unfold Get. intros Eg k' tab. apply outcome_bind_done in Eg as ([t1 r] & Ef & Eg). destruct r as [tb|s].
  - apply outcome_bind_done in Eg as ([[r1 s1] c1] & _ & Eg). injection Eg as _ _ <-. by apply (FindTable_adds env t n sz t1 (inl tb)).
  - injection Eg as _ _ <-. by apply (FindTable_adds env t n sz t1 (inr s)).
Qed.

(** the tables in the cache have numbers below a limit *)
Definition cached_below t (limit : Z) : Prop := forall k tab, cached (tc_cache t) k tab -> exists n, k = table_key n /\ 0 < n < limit.

(** what a look-up in the tables keeps: all but what is cached *)
Record tables_inv (env0 : E) (dbname : bytes) (options : Options (InternalFilterPolicy P)) (limit : Z) (p : E * TC) : Prop := {
  ti_env : p.1 = env0; ti_ok : tc_ok p.1 p.2; ti_dbname : tc_dbname p.2 = dbname; ti_options : tc_options p.2 = options;
  ti_below : cached_below p.2 limit }.

(** the table cache, for the files with numbers below the limit *)
Definition cached_tables_ok (env0 : E) (dbname : bytes) (options : Options (InternalFilterPolicy P)) (limit : Z) : TablesOk (E * TC).
Proof.
  refine {| tables_hold p n sz es := tables_inv env0 dbname options limit p /\ n < limit /\ stored_table p.1 p.2 n sz es;
            tables_key p k := tables_inv env0 dbname options limit p /\ filterable (tc_options p.2) k;
            tables_opens p := 2 ^ 64 - 1 - tc_last_id p.2 |}.
  intros [env t] n sz es ro u tag (Hinv & Hlt & Hst) Htag [_ Hk] Hop. cbn [fst snd] in *. pose proof Hinv as [Ei Hok Ed Eo Hb]. cbn [fst snd] in *.
  destruct (Get_cached_spec env t n sz es ro u tag Hok Hst ltac:(lia) Htag Hk) as (result & t' & Eget & Hok' & Hsame & Hin & Hfor).
  exists result, (env, t'). cbn [tables_Get cached_tables fst snd]. rewrite Eget. cbn [mbind outcome_bind]. pose proof Hsame as (Ed' & Eo' & Hl).
  assert (Hinv' : tables_inv env0 dbname options limit (env, t')).
  { split; cbn; try done; [congruence|congruence|]. intros k tab Hc. destruct (Get_adds _ _ _ _ _ _ _ _ _ Eget k tab Hc) as [->|Hc']; [|by apply (Hb k tab)].
    exists n. split; [done|]. destruct Hst as (? & (? & _) & _). lia. }
  split; [done|]. split; [done|]. split; [done|]. split; [|split].
  - intros n' sz' es' (_ & ? & Hst'). split; [done|]. split; [done|]. by eapply stored_table_config.
  - intros k [_ Hk']. split; [done|]. by rewrite Eo'.
  - lia.
Defined.
End Cache.
