(* ===== verification/Builder.v ===== *)
(** * Builder: include/leveldb/iterator.h, the iterator of db/memtable.cc, and
    db/builder.cc

    [BuildTable] writes the entries of an iterator, here a memtable's, to a new
    table file. *)

From Stdlib.Strings Require Import Byte.
From Stdlib.Sorting Require Import Sorted.
From stdpp Require Import sorting.
From S2P Require Import Prelude Status Coding DbFormat WriteBatch SkipList SkipListSpec MemTable Crc32c Log LogSpec Bloom FilterBlock Block BlockSpec Format TableBuilder Table TableSpec TableTheorems VersionEdit Version VersionSpec Env Filename TableCache.

(** ** Iterators *)

Class Iterator (I : Type) := {
  it_Valid : I -> bool;
  it_SeekToFirst : I -> outcome I;
  it_SeekToLast : I -> outcome I;
  it_Seek : I -> bytes -> outcome I;
  it_Next : I -> outcome I;
  it_Prev : I -> outcome I;
  it_key : I -> outcome bytes;
  it_value : I -> outcome bytes;
  it_status : I -> Status }.

(** an iterator over a list, and where it is: past the end when the number is
    the length *)
Class IteratorOk (I : Type) `{Iterator I} := {
  iter_at : I -> list (bytes * bytes) -> nat -> Prop;
  iter_valid i es n : iter_at i es n -> it_Valid i = bool_decide (n < length es)%nat;
  iter_first i es n : iter_at i es n -> exists i', it_SeekToFirst i = Done i' /\ iter_at i' es 0;
  iter_next i es n : iter_at i es n -> (n < length es)%nat -> exists i', it_Next i = Done i' /\ iter_at i' es (S n);
  iter_entry i es n k v : iter_at i es n -> es !! n = Some (k, v) -> it_key i = Done k /\ it_value i = Done v;
  iter_status i es n : iter_at i es n -> it_status i = OK }.

(** *** [MemTableIterator] *)

Record MemTableIterator := { mi_table : MemTable; mi_node : option nat }.
Definition at_mem (i : MemTableIterator) (n : option nat) : MemTableIterator := {| mi_table := mi_table i; mi_node := n |}.
Definition mem_NewIterator (m : MemTable) : MemTableIterator := {| mi_table := m; mi_node := None |}.

#[export] Instance mem_iterator : Iterator MemTableIterator := {|
  it_Valid i := bool_decide (is_Some (mi_node i));
  it_SeekToFirst i := n ← SkipList.SeekToFirst (mi_table i); Done (at_mem i n);
  it_SeekToLast i := n ← SkipList.SeekToLast (mi_table i); Done (at_mem i n);
  it_Seek i k := n ← mem_Seek (mi_table i) k; Done (at_mem i n);
  it_Next i := n ← iter_Next (mi_table i) (mi_node i); Done (at_mem i n);
  it_Prev i := n ← iter_Prev KeyComparator (mi_table i) (mi_node i); Done (at_mem i n);
  it_key i := mem_key (mi_table i) (mi_node i);
  it_value i := mem_value (mi_table i) (mi_node i);
  it_status _ := OK |}.

(** ** BuildTable *)

Definition with_meta (m : FileMetaData) (size : Z) (small large : bytes) : FileMetaData :=
  {| allowed_seeks := allowed_seeks m; number := number m; file_size := size; smallest := small; largest := large |}.

Section BuildTable.
Context {E F R G P CT CB I : Type} `{Env E F R G} `{FilterPolicy P} `{Cache CT (Table (R := R) (P := P))} `{Cache CB Block}
  `{Machine} `{Snappy} `{Iterator I}.

(** the loop over the entries: the builder and the last key *)
Fixpoint BuildTable_loop (fuel : nat) (options : Options P) (iter : I) (builder : Rep (F := F) (P := P)) (key : bytes)
    : outcome (I * Rep (F := F) (P := P) * bytes) :=
  if it_Valid iter then
    match fuel with
    | O => Hangs
    | S fuel' =>
        key ← it_key iter;
        value ← it_value iter;
        builder ← TableBuilder.Add options builder key value;
        iter ← it_Next iter;
        BuildTable_loop fuel' options iter builder key
    end
  else Done (iter, builder, key).

(** the part after the entries: what [Finish], [Sync], [Close] and a look at the
    table say *)
Definition finish_table (env : E) (options : Options P) (tc : TableCache (P := P) (CT := CT) (CB := CB))
    (builder : Rep (F := F) (P := P)) (meta : FileMetaData)
    : outcome (E * TableCache (P := P) (CT := CT) (CB := CB) * FileMetaData * Status) :=
  '(builder, b) ← Finish options builder;
  let s := append_status b in
  meta ← (if bool_decide (s = OK) then
            let meta := with_meta meta (FileSize builder) (smallest meta) (largest meta) in
            _ ← c_assert (0 <? file_size meta); Done meta
          else Done meta);
  let (env, s) := if bool_decide (s = OK) then file_Sync env (file builder) else (env, s) in
  let (env, s) := if bool_decide (s = OK) then file_Close env (file builder) else (env, s) in
  if bool_decide (s = OK) then
    '(s, tc) ← NewIterator_status env tc (number meta) (file_size meta);
    Done (env, tc, meta, s)
  else Done (env, tc, meta, s).

Definition BuildTable (fuel : nat) (dbname : bytes) (env : E) (options : Options P) (tc : TableCache (P := P) (CT := CT) (CB := CB))
    (iter : I) (meta : FileMetaData) : outcome (E * TableCache (P := P) (CT := CT) (CB := CB) * FileMetaData * Status) :=
  let meta := with_meta meta 0 (smallest meta) (largest meta) in
  iter ← it_SeekToFirst iter;
  fname ← TableFileName dbname (number meta);
  let last (iter : I) env tc meta s : outcome (E * TableCache (P := P) (CT := CT) (CB := CB) * FileMetaData * Status) :=
    let s := if bool_decide (it_status iter = OK) then s else it_status iter in
    let env := if bool_decide (s = OK) && (0 <? file_size meta) then env else (env_RemoveFile env fname).1 in
    Done (env, tc, meta, s) in
  if it_Valid iter then
    let (env, r) := NewWritableFile env fname in
    match r with
    | inr s => Done (env, tc, meta, s)
    | inl f =>
        builder ← make_TableBuilder options f;
        small ← it_key iter;
        let meta := with_meta meta (file_size meta) small (largest meta) in
        '(iter, builder, key) ← BuildTable_loop fuel options iter builder [];
        let meta := if bool_decide (key = []) then meta else with_meta meta (file_size meta) (smallest meta) key in
        '(env, tc, meta, s) ← finish_table env options tc builder meta;
        last iter env tc meta s
    end
  else last iter env tc meta OK.
End BuildTable.

(** ** A memtable as a sorted list *)

(** [es] is what the memtable holds, in order *)
Record mem_list (m : MemTable) (es : list add) : Prop := {
  ml_ok : Forall add_ok es;
  ml_sorted : StronglySorted (fun a b => add_cmp a b < 0) es;
  ml_nodes : exists ls, sl_ok KeyComparator m ls /\ map snd ls = map entry_of es }.

Lemma mem_list_exists m adds : mem_ok m adds -> exists es, mem_list m es /\ forall a, a ∈ es <-> a ∈ adds.
Proof.
  intros [Hok Hseqs (ls & Hsl & Hls)].
  assert (Hex : exists es, map snd ls = map entry_of es /\ forall a, a ∈ es -> a ∈ adds).
  { assert (Hall : forall e, e ∈ map snd ls -> exists a, a ∈ adds /\ e = entry_of a) by (intros e He; by apply Hls).
    clear -Hall. induction (map snd ls) as [|e l IH]; [by exists []; split; [|intros a ?%elem_of_nil]|].
    destruct (Hall e ltac:(by left)) as (a & Ha & ->). destruct IH as (es & E & Hes); [intros e' He'; apply Hall; by right|].
    exists (a :: es). split; [simpl; by f_equal|]. intros b [->|Hb]%elem_of_cons; [done|by apply Hes]. }
  destruct Hex as (es & E & Hes). rewrite list.Forall_forall in Hok. exists es. split.
  - split; [apply list.Forall_forall; intros a Ha; by apply Hok, Hes| |by exists ls].
    pose proof (so_sorted KeyComparator m ls Hsl) as Hs. clear Hsl Hls. revert es E Hes.
    induction Hs as [|p ls Hs IH Hp]; intros es E Hes; [destruct es; [constructor|done]|].
    destruct es as [|a es]; [done|]. cbn [map] in E. injection E as Ep E. constructor; [apply IH; [done|]; intros b Hb; apply Hes; by right|].
    apply list.Forall_forall. intros b Hb. assert (Hin : entry_of b ∈ map snd ls) by (rewrite E; by apply list_elem_of_fmap_2).
    apply list_elem_of_fmap in Hin as (q & Eq & Hq). rewrite list.Forall_forall in Hp. specialize (Hp q Hq). unfold precedes in Hp.
    change (entry_cmp p.2 q.2 < 0) in Hp. rewrite Ep, <- Eq, entry_cmp_adds in Hp; [exact Hp|apply Hok, Hes; by left|apply Hok, Hes; by right].
  - intros a. split; [apply Hes|]. intros Ha.
    assert (Hin : entry_of a ∈ map snd ls) by (apply Hls; by exists a). rewrite E in Hin. apply list_elem_of_fmap in Hin as (b & Eb & Hb).
    assert (Hba : entry_cmp (entry_of a) (entry_of b) = 0).
    { rewrite <- Eb, entry_cmp_adds by (by apply Hok). apply icompare_eq. done. }
    rewrite entry_cmp_adds in Hba by first [by apply Hok|by apply Hok, Hes]. apply icompare_eq in Hba as [_ Ht]. apply tag_seq in Ht.
    specialize (Hes b Hb) as Hb'. apply list_elem_of_lookup in Ha as (i & Hi), Hb' as (j & Hj).
    destruct (Nat.lt_trichotomy i j) as [Hij|[->|Hij]]; [pose proof (Hseqs i j a b Hij Hi Hj); lia| |pose proof (Hseqs j i b a Hij Hj Hi); lia].
    by simplify_eq.
Qed.

Lemma mem_key_spec a : add_ok a -> prefixed_slice (entry_of a) = Done (add_ikey a).
Proof. intros Ha. rewrite entry_of_prefixed by done. destruct Ha as (? & ? & ?). by apply prefixed_slice_spec. Qed.

Lemma mem_value_spec m ls p a :
  sl_ok KeyComparator m ls -> p ∈ ls -> p.2 = entry_of a -> add_ok a -> mem_value m (Some p.1) = Done (a_value a).
Proof.
  intros Hsl Hp Ep Ha. unfold mem_value. rewrite (SkipListSpec.iter_key_spec KeyComparator m ls p Hsl Hp), Ep.
  cbn [mbind outcome_bind]. rewrite mem_key_spec by done. cbn [mbind outcome_bind]. rewrite entry_of_prefixed by done.
  pose proof Ha as (_ & Hk & Hv). rewrite GetVarint_prefixed by done. unfold add_ikey. rewrite drop_app_exact. unfold prefixed_slice.
  pose proof (blen_nonneg (a_value a)).
  change (GetVarint32Ptr (EncodeVarint32 (blen (a_value a)) ++ a_value a)) with (GetVarint32 (EncodeVarint32 (blen (a_value a)) ++ a_value a)).
  rewrite Varint32_roundtrip by lia. rewrite Z.leb_refl, blen_to_nat, take_ge by done. done.
Qed.

(** the position of the iterator *)
Definition mem_at (i : MemTableIterator) (kvs : list (bytes * bytes)) (n : nat) : Prop :=
  exists es ls, mem_list (mi_table i) es /\ kvs = map add_kv es /\ sl_ok KeyComparator (mi_table i) ls /\ map snd ls = map entry_of es /\
    (n <= length ls)%nat /\ mi_node i = fst <$> ls !! n.

#[export] Instance mem_iterator_ok : IteratorOk MemTableIterator.
Proof.
  refine {| iter_at := mem_at |}.
  - intros i kvs n (es & ls & _ & -> & _ & El & Hn & Ei). cbn [it_Valid mem_iterator]. rewrite Ei.
    apply (f_equal length) in El. rewrite !length_map in El. rewrite length_map. apply bool_decide_ext. rewrite <- El.
    rewrite fmap_is_Some, lookup_lt_is_Some. done.
  - intros i kvs n (es & ls & Hm & -> & Hsl & El & Hn & _). cbn [it_SeekToFirst mem_iterator].
    rewrite (SkipListSpec.SeekToFirst_spec KeyComparator _ ls Hsl). cbn [mbind outcome_bind]. eexists. split; [done|].
    exists es, ls. do 4 (split; [done|]). split; [lia|]. by destruct ls.
  - intros i kvs n (es & ls & Hm & -> & Hsl & El & Hn & Ei) Hlt. rewrite length_map in Hlt.
    assert (Hlen : length ls = length es) by (apply (f_equal length) in El; by rewrite !length_map in El).
    destruct (lookup_lt_is_Some_2 ls n) as [p Hp]; [lia|]. cbn [it_Next mem_iterator]. rewrite Ei, Hp. cbn [fmap option_fmap option_map].
    pose proof Hsl as Hsl'. rewrite <- (take_drop_middle ls n p Hp) in Hsl'.
    rewrite (SkipListSpec.iter_Next_spec KeyComparator _ _ _ _ Hsl'). cbn [mbind outcome_bind]. eexists. split; [done|].
    exists es, ls. do 4 (split; [done|]). split; [lia|]. cbn [at_mem mi_node]. f_equal. by rewrite head_lookup, lookup_drop, Nat.add_0_r.
  - intros i kvs n k v (es & ls & Hm & -> & Hsl & El & Hn & Ei) Hkv. rewrite list_lookup_fmap in Hkv.
    destruct (es !! n) as [a|] eqn:Ea; [|done]. cbn in Hkv. injection Hkv as <- <-.
    assert (Hp : (map snd ls) !! n = Some (entry_of a)) by (rewrite El, list_lookup_fmap, Ea; done).
    rewrite list_lookup_fmap in Hp. destruct (ls !! n) as [p|] eqn:Ep; [|done]. cbn in Hp. injection Hp as Ep2.
    assert (Hok : add_ok a). { pose proof (ml_ok _ _ Hm) as Hok. rewrite list.Forall_lookup in Hok. by eapply Hok. }
    cbn [it_key it_value mem_iterator]. rewrite Ei. cbn [fmap option_fmap option_map].
    assert (Hin : p ∈ ls) by (by eapply list_elem_of_lookup_2). split.
    + unfold mem_key. rewrite (SkipListSpec.iter_key_spec KeyComparator _ ls p Hsl Hin), Ep2. cbn [mbind outcome_bind].
      rewrite mem_key_spec by done. done.
    + by eapply mem_value_spec.
  - done.
Defined.

Lemma mem_NewIterator_at m es : mem_list m es -> mem_at (mem_NewIterator m) (map add_kv es) (length es).
Proof.
  intros Hm. destruct (ml_nodes _ _ Hm) as (ls & Hsl & El). exists es, ls. do 4 (split; [done|]).
  assert (Hlen : length ls = length es) by (apply (f_equal length) in El; by rewrite !length_map in El).
  split; [lia|]. cbn. by rewrite lookup_ge_None_2 by lia.
Qed.

(** ** What a table builder does to its file *)

Section Keeps.
Context {F P : Type} `{WritableFile F} `{FilterPolicy P} `{Machine} `{Snappy} (options : Options P).
(** kept by the two operations on a file *)
Context (Q : F -> Prop) (Q_Append : forall f bs, Q f -> Q (file_Append f bs).1) (Q_Flush : forall f, Q f -> Q (file_Flush f).1).
Implicit Types r : Rep (F := F) (P := P).

Lemma make_TableBuilder_file f r : make_TableBuilder options f = Done r -> file r = f.
Proof.
  unfold make_TableBuilder. intros E. apply outcome_bind_done in E as (d & _ & E). apply outcome_bind_done in E as (i & _ & E).
  cbn [filter_block] in E. destruct (filter_policy options); [|by injection E as <-]. cbn [fmap option_fmap option_map] in E.
  apply outcome_bind_done in E as (fb & _ & E). by injection E as <-.
Qed.

Lemma WriteRawBlock_keeps r c ty r' h : WriteRawBlock r c ty = Done (r', h) -> Q (file r) -> Q (file r').
Proof.
  unfold WriteRawBlock. intros E Hq. pose proof (Q_Append _ c Hq) as Hf1. destruct (file_Append (file r) c) as [f1 s1]. cbn [fst] in Hf1.
  destruct s1; [|by injection E as <- <-]. apply outcome_bind_done in E as (crc & _ & E). apply outcome_bind_done in E as (crc' & _ & E).
  cbv zeta in E. pose proof (Q_Append f1 (z2b (compression_code ty) :: EncodeFixed32 (Mask crc')) Hf1) as Hf3.
  destruct (file_Append f1 _) as [f2 s2]. by injection E as <- <-.
Qed.

Lemma WriteBlock_keeps r b r' h b' : WriteBlock options r b = Done (r', h, b') -> Q (file r) -> Q (file r').
Proof.
  unfold WriteBlock. intros E Hq. apply outcome_bind_done in E as ([] & _ & E). destruct (Block.Finish b) as [b1 raw].
  destruct (compressed_block options raw) as [c ty]. apply outcome_bind_done in E as ([r1 h1] & E1 & E). injection E as <- <- <-.
  by eapply WriteRawBlock_keeps.
Qed.

Lemma Flush_keeps r r' : Flush options r = Done r' -> Q (file r) -> Q (file r').
Proof.
  unfold Flush. intros E Hq. apply outcome_bind_done in E as ([] & _ & E). destruct (negb (TableBuilder.ok r)); [by injection E as <-|].
  destruct (builder_empty (data_block r)); [by injection E as <-|]. apply outcome_bind_done in E as ([] & _ & E).
  apply outcome_bind_done in E as ([[r1 h1] b1] & E1 & E). pose proof (WriteBlock_keeps _ _ _ _ _ E1 Hq) as Hq1.
  set (r2 := if TableBuilder.ok _ then _ else _) in E.
  assert (Hq2 : Q (file r2)).
  { unfold r2. destruct (TableBuilder.ok _); [|exact Hq1]. pose proof (Q_Flush (file r1) Hq1) as Hf.
    cbn [file with_pending with_data]. by destruct (file_Flush (file r1)). }
  clearbody r2. destruct (filter_block r2); [|by injection E as <-]. apply outcome_bind_done in E as (fb & _ & E). by injection E as <-.
Qed.

Lemma add_index_entry_keeps r k r' : add_index_entry options r k = Done r' -> Q (file r) -> Q (file r').
Proof.
  unfold add_index_entry. intros E Hq. apply outcome_bind_done in E as (h & _ & E). apply outcome_bind_done in E as (b & _ & E).
  by injection E as <-.
Qed.

Lemma table_Add_keeps r k v r' : TableBuilder.Add options r k v = Done r' -> Q (file r) -> Q (file r').
Proof.
  unfold TableBuilder.Add. intros E Hq. apply outcome_bind_done in E as ([] & _ & E). destruct (negb (TableBuilder.ok r)); [by injection E as <-|].
  apply outcome_bind_done in E as ([] & _ & E). apply outcome_bind_done in E as (r1 & E1 & E).
  assert (Hq1 : Q (file r1)).
  { destruct (pending_index_entry r); [|by injection E1 as <-]. apply outcome_bind_done in E1 as ([] & _ & E1).
    apply outcome_bind_done in E1 as (last & _ & E1). by eapply add_index_entry_keeps. }
  apply outcome_bind_done in E as (d & _ & E). destruct (block_size options <=? _); [by eapply Flush_keeps|by injection E as <-].
Qed.

Lemma add_entries_keeps es r r' : add_entries options r es = Done r' -> Q (file r) -> Q (file r').
Proof.
  revert r; induction es as [|[k v] es IH]; intros r E Hq; cbn [add_entries] in E; [by injection E as <-|].
  apply outcome_bind_done in E as (r1 & E1 & E). eapply IH; [done|]. by eapply table_Add_keeps.
Qed.

Lemma table_Finish_keeps r r' b : Finish options r = Done (r', b) -> Q (file r) -> Q (file r').
Proof.
  unfold Finish. intros E Hq. apply outcome_bind_done in E as (r1 & E1 & E). pose proof (Flush_keeps _ _ E1 Hq) as Hq1.
  apply outcome_bind_done in E as ([] & _ & E). apply outcome_bind_done in E as ([r2 h2] & E2 & E).
  assert (Hq2 : Q (file r2)).
  { unfold write_filter in E2. destruct (filter_block (with_closed r1)) as [fb|]; [|by injection E2 as <- <-].
    destruct (TableBuilder.ok (with_closed r1)); [|by injection E2 as <- <-]. apply outcome_bind_done in E2 as ([fb' c] & _ & E2).
    by eapply WriteRawBlock_keeps. }
  apply outcome_bind_done in E as ([r3 h3] & E3 & E).
  assert (Hq3 : Q (file r3)).
  { unfold write_metaindex in E3. destruct (TableBuilder.ok r2); [|by injection E3 as <- <-]. apply outcome_bind_done in E3 as (m & _ & E3).
    apply outcome_bind_done in E3 as (m' & _ & E3). apply outcome_bind_done in E3 as ([[r4 h4] b4] & E4 & E3). injection E3 as <- <-.
    by eapply WriteBlock_keeps. }
  apply outcome_bind_done in E as ([r4 h4] & E4 & E).
  assert (Hq4 : Q (file r4)).
  { unfold write_index in E4. destruct (TableBuilder.ok r3); [|by injection E4 as <- <-]. apply outcome_bind_done in E4 as (r5 & E5 & E4).
    assert (Hq5 : Q (file r5)).
    { destruct (pending_index_entry r3); [|by injection E5 as <-]. apply outcome_bind_done in E5 as (last & _ & E5). by eapply add_index_entry_keeps. }
    apply outcome_bind_done in E4 as ([[r6 h6] b6] & E6 & E4). injection E4 as <- <-. change (Q (file r6)). by eapply WriteBlock_keeps. }
  apply outcome_bind_done in E as (r5 & E5 & E). injection E as <- <-. unfold write_footer in E5.
  destruct (TableBuilder.ok r4); [|by injection E5 as <-]. apply outcome_bind_done in E5 as (enc & _ & E5).
  pose proof (Q_Append (file r4) enc Hq4) as Hf. destruct (file_Append (file r4) enc) as [f s]. by injection E5 as <-.
Qed.
End Keeps.

(** ** BuildTable builds a table *)

Section Spec.
Context {E F R G P CT CB I : Type} `{EnvOk E F R G} `{FilterPolicyOk P} `{CacheOk CT (Table (R := R) (P := InternalFilterPolicy P))}
  `{CacheOk CB Block} `{MachineOk} `{SnappyOk} `{IteratorOk I}.
Abbreviation TC := (TableCache (P := InternalFilterPolicy P) (CT := CT) (CB := CB)).
Implicit Types (tc : TC) (es : list add).

Lemma adds_sorted_entries es : Forall add_ok es -> StronglySorted (fun a b => add_cmp a b < 0) es -> sorted_entries (map add_kv es).
Proof.
  intros Hok Hs. rewrite list.Forall_lookup in Hok. unfold sorted_entries. rewrite map_map. split.
  - apply list.Forall_fmap, list.Forall_lookup. intros i a Ha. exists (a_key a), (tag_of (a_seq a) (a_type a)).
    split; [done|]. by apply add_tag_range, (Hok i).
  - intros i j x y Hij Hx Hy. rewrite list_lookup_fmap in Hx, Hy. destruct (es !! i) as [a|] eqn:Ea; [|done]. destruct (es !! j) as [b|] eqn:Eb; [|done].
    injection Hx as <-. injection Hy as <-. cbn. rewrite add_ikey_cmp2 by (by eapply Hok). exact (sorted_lookup _ es i j a b Hs Hij Ea Eb).
Qed.

Lemma BuildTable_loop_spec fuel (options : Options (InternalFilterPolicy P)) (i : I) kvs n (r r' : Rep (F := F)) key :
  iter_at i kvs n -> (n <= length kvs)%nat -> (length kvs - n <= fuel)%nat -> add_entries options r (drop n kvs) = Done r' ->
  exists i', BuildTable_loop fuel options i r key = Done (i', r', from_option fst key (list.last (drop n kvs))) /\ iter_at i' kvs (length kvs).
Proof.
  revert i n r key; induction fuel as [|fuel IH]; intros i n r key Hi Hn Hf Er; cbn [BuildTable_loop]; rewrite (iter_valid i kvs n Hi).
  - rewrite bool_decide_eq_false_2 by lia. assert (n = length kvs) as -> by lia. rewrite drop_ge in Er |- * by lia. injection Er as <-. by exists i.
  - destruct (decide (n < length kvs)%nat) as [Hlt|Hge].
    2: { rewrite bool_decide_eq_false_2 by done. assert (n = length kvs) as -> by lia. rewrite drop_ge in Er |- * by lia. injection Er as <-. by exists i. }
    rewrite bool_decide_eq_true_2 by done. destruct (lookup_lt_is_Some_2 kvs n Hlt) as [[k v] Hkv].
    rewrite (drop_S _ _ _ Hkv) in Er |- *. cbn [add_entries] in Er. destruct (iter_entry i kvs n k v Hi Hkv) as [-> ->]. cbn [mbind outcome_bind].
    apply outcome_bind_done in Er as (r1 & -> & Er). cbn [mbind outcome_bind]. destruct (iter_next i kvs n Hi Hlt) as (i1 & -> & Hi1).
    cbn [mbind outcome_bind]. destruct (IH i1 (S n) r1 k Hi1 Hlt ltac:(lia) Er) as (i' & -> & Hi'). exists i'. split; [|done]. do 2 f_equal.
    rewrite last_cons. by destruct (list.last (drop (S n) kvs)).
Qed.

(** a file other than those of the tables in the cache *)
Lemma table_content_other env env' dbname n fname m c :
  0 < n < 2 ^ 64 -> TableFileName dbname n = Done fname -> (forall name, name <> fname -> stored_file env' name = stored_file env name) ->
  n <> m -> table_content env dbname m c -> table_content env' dbname m c.
Proof.
  intros Hn Ef Ho Hne [Hm (name & En & Es)]. split; [done|]. exists name. split; [done|]. rewrite Ho; [done|].
  intros ->. apply Hne. by eapply TableFileName_inj.
Qed.

Lemma tc_ok_other env env' tc n fname :
  0 < n < 2 ^ 64 -> TableFileName (tc_dbname tc) n = Done fname -> (forall name, name <> fname -> stored_file env' name = stored_file env name) ->
  (forall tab, ~ cached (tc_cache tc) (table_key n) tab) -> tc_ok env tc -> tc_ok env' tc.
Proof.
  intros Hn Ef Ho Hno Hok. destruct Hok as [Hopt Hlast Htab Hids Hfresh]. split; try done. intros key tab Hk.
  destruct (Htab key tab Hk) as (m & -> & (c & Hc & Hop) & Hi). exists m. split; [done|]. split; [|done]. exists c. split; [|done].
  eapply table_content_other; [exact Hn|exact Ef|exact Ho| |exact Hc]. intros ->. by eapply Hno.
Qed.

Lemma stored_table_other env env' tc n fname m sz kvs :
  0 < n < 2 ^ 64 -> TableFileName (tc_dbname tc) n = Done fname -> (forall name, name <> fname -> stored_file env' name = stored_file env name) ->
  n <> m -> stored_table env tc m sz kvs -> stored_table env' tc m sz kvs.
Proof. intros Hn Ef Ho Hne (c & Hc & Hs). exists c. split; [by eapply table_content_other|done]. Qed.

Lemma NewIterator_status_spec env tc n sz kvs :
  tc_ok env tc -> stored_table env tc n sz kvs -> tc_last_id tc < 2 ^ 64 - 1 ->
  exists tc', NewIterator_status env tc n sz = Done (OK, tc') /\ tc_ok env tc' /\ same_config tc tc'.
Proof.
  intros Hok Hst Hid. destruct (FindTable_spec env tc n sz kvs Hok Hst Hid) as (t' & tab & Ef & Hok' & Hsame & (c' & Hc' & Hop) & _).
  exists t'. split; [|done]. unfold NewIterator_status. rewrite Ef. cbn [mbind outcome_bind]. destruct Hst as (c & Hc & _ & Hf).
  pose proof Hsame as (Ed & Eo & _). rewrite <- Ed in Hc. rewrite <- Eo in Hf. assert (c' = c) as -> by (by eapply table_content_fun).
  destruct (Hop kvs Hf) as (rf & done & idx & irs & footer & _ & Hfin & _ & _ & (_ & _ & _ & _ & Eb) & _).
  destruct (block_opens idx irs (tf_index _ _ _ _ _ _ Hfin) (tf_index_size _ _ _ _ _ _ Hfin)) as (blk & it & Eb' & Ei & _ & Hcur).
  assert (blk = table_index_block tab) as -> by congruence. rewrite Ei. cbn [mbind outcome_bind bi_status].
  pose proof (cursor_over idx irs it _ Hcur) as (_ & _ & _ & ->). done.
Qed.

Lemma finished_nonempty (options : Options (InternalFilterPolicy P)) content done idx irs footer :
  finished_file options content done idx irs footer -> 0 < blen content.
Proof.
  intros Hf. destruct (tf_handles _ _ _ _ _ _ Hf) as [Hi Hm]. destruct (tf_footer _ _ _ _ _ _ Hf) as (pre & enc & -> & Ee).
  rewrite blen_app, (footer_size footer enc Hm Hi Ee). pose proof (blen_nonneg pre). lia.
Qed.

(** what a build leaves *)
Record built env tc env' tc' (m m' : FileMetaData) es : Prop := {
  bu_number : number m' = number m;
  bu_size : 0 < file_size m';
  bu_holds : file_holds m' es;
  bu_ok : tc_ok env' tc';
  bu_config : same_config tc tc';
  bu_stored : stored_table env' tc' (number m') (file_size m') (map add_kv es);
  bu_others : forall name, TableFileName (tc_dbname tc) (number m) <> Done name -> stored_file env' name = stored_file env name;
  bu_cached : forall k tab, cached (tc_cache tc') k tab -> k = table_key (number m) \/ cached (tc_cache tc) k tab }.

Lemma finish_table_spec env tc (f : F) es r0 r1 (options : Options (InternalFilterPolicy P)) m m0 fname :
  options_ok options -> tc_ok env tc -> tc_options tc = options -> 0 < number m < 2 ^ 64 -> number m0 = number m ->
  (forall tab, ~ cached (tc_cache tc) (table_key (number m)) tab) -> tc_last_id tc < 2 ^ 64 - 1 ->
  TableFileName (tc_dbname tc) (number m) = Done fname -> file_name f = fname -> written f = [] ->
  Forall add_ok es -> StronglySorted (fun a b => add_cmp a b < 0) es -> Forall (fun a => filterable options (add_ikey a)) es ->
  table_fits options (map add_kv es) -> make_TableBuilder options f = Done r0 -> add_entries options r0 (map add_kv es) = Done r1 ->
  file_holds m0 es -> exists env' tc' m', finish_table env options tc r1 m0 = Done (env', tc', m', OK) /\ built env tc env' tc' m m' es.
Proof.
  intros Hopt Hok Eopt Hn En0 Hno Hid Ef Efn Hw Hes Hsort Hfil Hfit E0 E1 Hh.
  destruct (build_table_spec options f (map add_kv es) Hopt Hw) as (r0' & r1' & r & dn & idx & irs & footer & E0' & E1' & E2 & Esz & Hfin & Hits & Hsi);
    [by apply adds_sorted_entries|by apply list.Forall_fmap|done|].
  assert (r0' = r0) as -> by congruence. assert (r1' = r1) as -> by congruence. unfold finish_table. rewrite E2. cbn [mbind outcome_bind append_status].
  rewrite bool_decide_eq_true_2 by done. set (m' := with_meta m0 (FileSize r) (smallest m0) (largest m0)).
  assert (Epos : 0 < FileSize r) by (rewrite Esz; by eapply finished_nonempty). rewrite (proj2 (Z.ltb_lt _ _)) by exact Epos. cbn [c_assert mbind outcome_bind].
  assert (Efr : file_name (file r) = fname).
  { apply (table_Finish_keeps options (fun g => file_name g = fname)) with (r := r1) (b := true); [intros; by rewrite file_name_Append|intros; by rewrite file_name_Flush|done|].
    apply (add_entries_keeps options (fun g => file_name g = fname)) with (es := map add_kv es) (r := r0); [intros; by rewrite file_name_Append|intros; by rewrite file_name_Flush|done|].
    rewrite (make_TableBuilder_file options f r0 E0). exact Efn. }
  destruct (file_Sync_ok env (file r)) as (env1 & -> & _ & Ho1). rewrite bool_decide_eq_true_2 by done.
  destruct (file_Close_ok env1 (file r)) as (env2 & -> & Hst2 & Ho2). rewrite bool_decide_eq_true_2 by done. rewrite Efr in *.
  assert (Ho : forall name, name <> fname -> stored_file env2 name = stored_file env name) by (intros name Hne; by rewrite Ho2, Ho1).
  assert (Hok2 : tc_ok env2 tc) by (by eapply (tc_ok_other env env2 tc (number m))).
  assert (Hst : stored_table env2 tc (number m) (FileSize r) (map add_kv es)).
  { exists (written (file r)). split; [split; [done|by exists fname]|]. split; [done|]. rewrite Eopt. by exists dn, idx, irs, footer. }
  cbn [number file_size with_meta m']. rewrite En0.
  destruct (NewIterator_status_spec env2 tc (number m) (FileSize r) _ Hok2 Hst Hid) as (tc' & En & Hok' & Hsame). rewrite En.
  cbn [mbind outcome_bind]. exists env2, tc', m'. split; [done|]. split.
  - exact En0.
  - exact Epos.
  - by destruct Hh.
  - exact Hok'.
  - exact Hsame.
  - change (stored_table env2 tc' (number m0) (FileSize r) (map add_kv es)). rewrite En0. by eapply stored_table_config.
  - intros name Hne. apply Ho. intros ->. by apply Hne.
  - unfold NewIterator_status in En. apply outcome_bind_done in En as ([tc1 rr] & Efind & En). intros k tab Hk. eapply FindTable_adds; [exact Efind|].
    destruct rr as [tab1|s]; [apply outcome_bind_done in En as (bi & _ & En)|]; by injection En as _ <-.
Qed.

Lemma add_ikey_nonempty a : add_ikey a <> [].
Proof.
  intros Ek. apply (f_equal blen) in Ek. unfold add_ikey, ikey in Ek. rewrite blen_app, blen_EncodeFixed64 in Ek.
  pose proof (blen_nonneg (a_key a)). change (blen []) with 0 in Ek. lia.
Qed.

(** A sorted list becomes a table file that holds it. *)
Lemma BuildTable_spec fuel env tc (i : I) n0 es (options : Options (InternalFilterPolicy P)) m :
  options_ok options -> tc_ok env tc -> tc_options tc = options -> 0 < number m < 2 ^ 64 ->
  (forall tab, ~ cached (tc_cache tc) (table_key (number m)) tab) -> tc_last_id tc < 2 ^ 64 - 1 ->
  iter_at i (map add_kv es) n0 -> es <> [] -> Forall add_ok es -> StronglySorted (fun a b => add_cmp a b < 0) es ->
  Forall (fun a => filterable options (add_ikey a)) es -> table_fits options (map add_kv es) -> (length es <= fuel)%nat ->
  exists env' tc' m', BuildTable fuel (tc_dbname tc) env options tc i m = Done (env', tc', m', OK) /\ built env tc env' tc' m m' es.
Proof.
  intros Hopt Hok Eopt Hn Hno Hid Hi Hne Hes Hs Hfil Hfit Hf.
  assert (exists fname, TableFileName (tc_dbname tc) (number m) = Done fname) as (fname & Ef).
  { unfold TableFileName. rewrite (proj2 (Z.ltb_lt 0 (number m))) by lia. by eexists. }
  destruct es as [|a es]; [done|]. set (all := a :: es) in *.
  destruct (iter_first i _ _ Hi) as (i1 & E1 & Hi1). unfold BuildTable. rewrite E1. cbn [mbind outcome_bind number with_meta]. rewrite Ef. cbn [mbind outcome_bind].
  rewrite (iter_valid _ _ _ Hi1), bool_decide_eq_true_2 by (rewrite length_map; unfold all; simpl; lia).
  destruct (NewWritableFile_ok env fname) as (env1 & f & -> & Hw & Efn & _ & Ho1).
  destruct (build_table_spec options f (map add_kv all) Hopt Hw) as (r0 & r1 & _ & _ & _ & _ & _ & E0 & Er & _);
    [by apply adds_sorted_entries|by apply list.Forall_fmap|done|].
  rewrite E0. cbn [mbind outcome_bind]. destruct (iter_entry i1 _ 0%nat (add_ikey a) (a_value a) Hi1 eq_refl) as [-> _]. cbn [mbind outcome_bind].
  destruct (BuildTable_loop_spec fuel options i1 _ 0 r0 r1 [] Hi1 ltac:(lia)) as (i2 & -> & Hi2); [by rewrite length_map, Nat.sub_0_r|done|].
  cbn [mbind outcome_bind]. rewrite drop_0. destruct (proj2 (last_is_Some all) Hne) as [z Ez].
  change (map add_kv all) with (add_kv <$> all). rewrite fmap_last, Ez. cbn [fmap option_fmap option_map from_option fst add_kv].
  rewrite (bool_decide_eq_false_2 (add_ikey z = [])) by apply add_ikey_nonempty. cbn [file_size smallest largest with_meta].
  assert (Hok1 : tc_ok env1 tc) by (by eapply (tc_ok_other env env1 tc (number m))).
  set (m0 := with_meta _ 0 (add_ikey a) (add_ikey z)).
  destruct (finish_table_spec env1 tc f all r0 r1 options m m0 fname) as (env' & tc' & m' & Efin & Hb); try done.
  { split; [done|done|by exists a|by exists z]. }
  rewrite Efin. cbn [mbind outcome_bind]. rewrite (iter_status i2 _ _ Hi2). do 2 rewrite (bool_decide_eq_true_2 (OK = OK)) by done.
  rewrite (proj2 (Z.ltb_lt _ _)) by apply Hb. cbn [andb]. exists env', tc', m'. split; [done|].
  destruct Hb as [? ? ? ? ? ? Hoth ?]. split; try done. intros name Hname. rewrite Hoth by done. apply Ho1. intros ->. by apply Hname.
Qed.

(** An empty list leaves no file. *)
Lemma BuildTable_empty fuel env tc (i : I) n0 (options : Options (InternalFilterPolicy P)) m :
  0 < number m < 2 ^ 64 -> iter_at i [] n0 ->
  exists fname, TableFileName (tc_dbname tc) (number m) = Done fname /\
    BuildTable fuel (tc_dbname tc) env options tc i m =
      Done ((env_RemoveFile env fname).1, tc, with_meta m 0 (smallest m) (largest m), OK).
Proof.
  intros Hn Hi. unfold BuildTable. destruct (iter_first i _ _ Hi) as (i1 & -> & Hi1). cbn [mbind outcome_bind number with_meta].
  unfold TableFileName. rewrite (proj2 (Z.ltb_lt 0 (number m))) by lia. cbn [c_assert mbind outcome_bind]. eexists. split; [done|].
  rewrite (iter_valid _ _ _ Hi1). cbn [length]. rewrite bool_decide_eq_false_2 by lia.
  by rewrite (iter_status i1 _ _ Hi1).
Qed.
End Spec.
