(* ===== verification/VersionSet.v ===== *)
(** * VersionSet: class VersionSet of db/version_set.cc

    The version set holds the current version and writes every change of it to
    the manifest, a log of version edits named by the file CURRENT.  Versions
    that are still referenced are kept, with their reference counts, for
    [AddLiveFiles]; the current one is apart.  The manifest's file is the one
    its log writer writes to.  [Finalize], a floating-point score, and the
    information log are not modelled.  The mutex is not: no other thread is in
    the version set. *)

From Stdlib.Strings Require Import Byte.
From stdpp Require Import gmap.
From S2P Require Import Prelude Status Coding DbFormat WriteBatch Crc32c Log VersionEdit Version Env Filename.

(** [BytewiseComparator()->Name()] *)
Definition comparator_Name : bytes := text "leveldb.BytewiseComparator".

(** [InternalKeyComparator::Compare] of two [InternalKey]s *)
Definition Compare_keys (a b : bytes) : outcome Z :=
  a ← InternalKey_Encode a; b ← InternalKey_Encode b; Internal.Compare a b.

(** ** The builder *)

Module Builder.

Definition BySmallestKey (f1 f2 : FileMetaData) : outcome bool :=
  r ← Compare_keys (smallest f1) (smallest f2);
  Done (if negb (r =? 0) then r <? 0 else number f1 <? number f2).

(** [std::set::insert] *)
Fixpoint fileset_insert (f : FileMetaData) (s : list FileMetaData) : outcome (list FileMetaData) :=
  match s with
  | [] => Done [f]
  | g :: s' =>
      lt ← BySmallestKey f g;
      if (lt : bool) then Done (f :: s) else
      gt ← BySmallestKey g f;
      if (gt : bool) then s'' ← fileset_insert f s'; Done (g :: s'') else Done s
  end.

Record LevelState := { deleted_files : gset Z; added_files : list FileMetaData }.

(** [levels_] *)
Definition make_Builder : list LevelState := replicate (Z.to_nat kNumLevels) {| deleted_files := ∅; added_files := [] |}.

(** the level of a part of an edit *)
Definition at_level {A} (l : list A) (level : Z) : outcome A :=
  if level <? 0 then Undefined else match l !! Z.to_nat level with Some x => Done x | None => Undefined end.

Fixpoint apply_pointers (pointers : list (Z * bytes)) (compact_pointer : list bytes) : outcome (list bytes) :=
  match pointers with
  | [] => Done compact_pointer
  | (level, key) :: pointers' =>
      _ ← at_level compact_pointer level;
      key ← InternalKey_Encode key;
      apply_pointers pointers' (<[Z.to_nat level := key]> compact_pointer)
  end.

Fixpoint apply_deleted (deleted : list (Z * Z)) (levels : list LevelState) : outcome (list LevelState) :=
  match deleted with
  | [] => Done levels
  | (level, n) :: deleted' =>
      st ← at_level levels level;
      apply_deleted deleted' (<[Z.to_nat level := {| deleted_files := {[n]} ∪ deleted_files st; added_files := added_files st |}]> levels)
  end.

(** one seek for every 16 KB *)
Definition seeks_of (size : Z) : Z :=
  let n := u32 (size / 16384) in
  let n := if n <? 2 ^ 31 then n else n - 2 ^ 32 in
  if n <? 100 then 100 else n.

Fixpoint apply_new (new : list (Z * FileMetaData)) (levels : list LevelState) : outcome (list LevelState) :=
  match new with
  | [] => Done levels
  | (level, f) :: new' =>
      let f := with_seeks f (seeks_of (file_size f)) in
      st ← at_level levels level;
      added ← fileset_insert f (added_files st);
      apply_new new' (<[Z.to_nat level := {| deleted_files := deleted_files st ∖ {[number f]}; added_files := added |}]> levels)
  end.

Definition Apply (edit : VersionEdit) (compact_pointer : list bytes) (levels : list LevelState)
    : outcome (list bytes * list LevelState) :=
  compact_pointer ← apply_pointers (compact_pointers_ edit) compact_pointer;
  levels ← apply_deleted (deleted_files_ edit) levels;
  levels ← apply_new (new_files_ edit) levels;
  Done (compact_pointer, levels).

Definition MaybeAddFile (st : LevelState) (level : Z) (files : list FileMetaData) (f : FileMetaData) : outcome (list FileMetaData) :=
  if bool_decide (number f ∈ deleted_files st) then Done files else
  _ ← (match list.last files with
       | Some g => if 0 <? level then r ← Compare_keys (largest g) (smallest f); c_assert (r <? 0) else Done tt
       | None => Done tt
       end);
  Done (files ++ [f]).

Fixpoint add_all (st : LevelState) (level : Z) (files fs : list FileMetaData) : outcome (list FileMetaData) :=
  match fs with [] => Done files | f :: fs' => files ← MaybeAddFile st level files f; add_all st level files fs' end.

(** [std::upper_bound]: a sorted range, before and from the first element that is
    after [f] *)
Fixpoint upper_bound (f : FileMetaData) (base : list FileMetaData) : outcome (list FileMetaData * list FileMetaData) :=
  match base with
  | [] => Done ([], [])
  | g :: base' =>
      lt ← BySmallestKey f g;
      if (lt : bool) then Done ([], base) else '(before, after) ← upper_bound f base'; Done (g :: before, after)
  end.

(** the files added, each after the smaller ones of the base *)
Fixpoint save_level (st : LevelState) (level : Z) (added base files : list FileMetaData) : outcome (list FileMetaData) :=
  match added with
  | [] => add_all st level files base
  | f :: added' =>
      '(before, after) ← upper_bound f base;
      files ← add_all st level files before;
      files ← MaybeAddFile st level files f;
      save_level st level added' after files
  end.

(** the check of a build with assertions; [abort] is a failed assertion *)
Fixpoint no_overlap (prev : FileMetaData) (files : list FileMetaData) : outcome unit :=
  match files with
  | [] => Done tt
  | f :: files' => r ← Compare_keys (largest prev) (smallest f); _ ← c_assert (r <? 0); no_overlap f files'
  end.

Fixpoint save_levels (levels : list LevelState) (base : list (list FileMetaData)) (level : Z) : outcome (list (list FileMetaData)) :=
  match levels, base with
  | st :: levels', files :: base' =>
      saved ← save_level st level (added_files st) files [];
      _ ← (if 0 <? level then match saved with f :: fs => no_overlap f fs | [] => Done tt end else Done tt);
      rest ← save_levels levels' base' (level + 1);
      Done (saved :: rest)
  | _, _ => Done []
  end.

(** into a new version *)
Definition SaveTo (base : Version) (levels : list LevelState) : outcome Version :=
  files ← save_levels levels (files_ base) 0;
  Done {| files_ := files; file_to_compact_ := None; file_to_compact_level_ := -1 |}.
End Builder.

(** ** The version set *)

Record VersionSet (F : Type) := {
  vs_dbname : bytes; vs_max_file_size : Z; vs_reuse_logs : bool;
  vs_next_file_number : Z; vs_manifest_file_number : Z; vs_last_sequence : Z; vs_log_number : Z; vs_prev_log_number : Z;
  (** [descriptor_log_]; [descriptor_file_] is its destination *)
  descriptor_log_ : option (log_Writer F);
  (** versions still referenced, the oldest first, and the current one *)
  older_ : list (Z * Version); current_ : Version; current_refs_ : Z;
  compact_pointer_ : list bytes }.
Arguments vs_dbname {F}. Arguments vs_max_file_size {F}. Arguments vs_reuse_logs {F}. Arguments vs_next_file_number {F}.
Arguments vs_manifest_file_number {F}. Arguments vs_last_sequence {F}. Arguments vs_log_number {F}. Arguments vs_prev_log_number {F}.
Arguments descriptor_log_ {F}. Arguments older_ {F}. Arguments current_ {F}. Arguments current_refs_ {F}. Arguments compact_pointer_ {F}.

Section VersionSet.
Context {F : Type}.
Implicit Types vs : VersionSet F.

Definition make_VersionSet (dbname : bytes) (max_file_size : Z) (reuse_logs : bool) : VersionSet F :=
  {| vs_dbname := dbname; vs_max_file_size := max_file_size; vs_reuse_logs := reuse_logs; vs_next_file_number := 2;
     vs_manifest_file_number := 0; vs_last_sequence := 0; vs_log_number := 0; vs_prev_log_number := 0;
     descriptor_log_ := None; older_ := []; current_ := make_Version; current_refs_ := 1;
     compact_pointer_ := replicate (Z.to_nat kNumLevels) [] |}.

Definition vs_with_numbers vs (next manifest last log prev : Z) : VersionSet F :=
  {| vs_dbname := vs_dbname vs; vs_max_file_size := vs_max_file_size vs; vs_reuse_logs := vs_reuse_logs vs;
     vs_next_file_number := next; vs_manifest_file_number := manifest; vs_last_sequence := last; vs_log_number := log;
     vs_prev_log_number := prev; descriptor_log_ := descriptor_log_ vs; older_ := older_ vs; current_ := current_ vs;
     current_refs_ := current_refs_ vs; compact_pointer_ := compact_pointer_ vs |}.
Definition vs_with_next vs (next : Z) : VersionSet F :=
  vs_with_numbers vs next (vs_manifest_file_number vs) (vs_last_sequence vs) (vs_log_number vs) (vs_prev_log_number vs).
Definition vs_with_logs vs (log prev : Z) : VersionSet F :=
  vs_with_numbers vs (vs_next_file_number vs) (vs_manifest_file_number vs) (vs_last_sequence vs) log prev.
Definition vs_with_descriptor vs (log : option (log_Writer F)) : VersionSet F :=
  {| vs_dbname := vs_dbname vs; vs_max_file_size := vs_max_file_size vs; vs_reuse_logs := vs_reuse_logs vs;
     vs_next_file_number := vs_next_file_number vs; vs_manifest_file_number := vs_manifest_file_number vs;
     vs_last_sequence := vs_last_sequence vs; vs_log_number := vs_log_number vs; vs_prev_log_number := vs_prev_log_number vs;
     descriptor_log_ := log; older_ := older_ vs; current_ := current_ vs;
     current_refs_ := current_refs_ vs; compact_pointer_ := compact_pointer_ vs |}.
Definition vs_with_versions vs (older : list (Z * Version)) (v : Version) (refs : Z) (pointers : list bytes) : VersionSet F :=
  {| vs_dbname := vs_dbname vs; vs_max_file_size := vs_max_file_size vs; vs_reuse_logs := vs_reuse_logs vs;
     vs_next_file_number := vs_next_file_number vs; vs_manifest_file_number := vs_manifest_file_number vs;
     vs_last_sequence := vs_last_sequence vs; vs_log_number := vs_log_number vs; vs_prev_log_number := vs_prev_log_number vs;
     descriptor_log_ := descriptor_log_ vs; older_ := older; current_ := v; current_refs_ := refs; compact_pointer_ := pointers |}.

(** [current()->Ref()]; [Unref] of the current version and of the older one at a
    place in the list, which goes with its last reference *)
Definition Ref vs : VersionSet F := vs_with_versions vs (older_ vs) (current_ vs) (current_refs_ vs + 1) (compact_pointer_ vs).
Definition Unref vs : outcome (VersionSet F) :=
  _ ← c_assert (2 <=? current_refs_ vs);
  Done (vs_with_versions vs (older_ vs) (current_ vs) (current_refs_ vs - 1) (compact_pointer_ vs)).
Definition Unref_older vs (i : nat) : outcome (VersionSet F) :=
  match older_ vs !! i with
  | None => Undefined
  | Some (refs, v) =>
      _ ← c_assert (1 <=? refs);
      Done (vs_with_versions vs (if refs - 1 =? 0 then delete i (older_ vs) else <[i := (refs - 1, v)]> (older_ vs))
              (current_ vs) (current_refs_ vs) (compact_pointer_ vs))
  end.

(** the old current version loses the set's reference *)
Definition AppendVersion vs (v : Version) : VersionSet F :=
  vs_with_versions vs (if current_refs_ vs - 1 =? 0 then older_ vs else older_ vs ++ [(current_refs_ vs - 1, current_ vs)])
    v 1 (compact_pointer_ vs).

Definition NewFileNumber vs : VersionSet F * Z := (vs_with_next vs (u64 (vs_next_file_number vs + 1)), vs_next_file_number vs).
Definition ReuseFileNumber vs (n : Z) : VersionSet F :=
  if vs_next_file_number vs =? u64 (n + 1) then vs_with_next vs n else vs.
Definition MarkFileNumberUsed vs (n : Z) : VersionSet F :=
  if vs_next_file_number vs <=? n then vs_with_next vs (u64 (n + 1)) else vs.
Definition SetLastSequence_vs vs (s : Z) : outcome (VersionSet F) :=
  _ ← c_assert (vs_last_sequence vs <=? s);
  Done (vs_with_numbers vs (vs_next_file_number vs) (vs_manifest_file_number vs) s (vs_log_number vs) (vs_prev_log_number vs)).

Definition NumLevelFiles vs (level : Z) : outcome Z :=
  _ ← c_assert (0 <=? level); _ ← c_assert (level <? kNumLevels); NumFiles (current_ vs) level.
Definition NumLevelBytes vs (level : Z) : outcome Z :=
  _ ← c_assert (0 <=? level); _ ← c_assert (level <? kNumLevels);
  files ← level_files (current_ vs) level; Done (TotalFileSize files).

(** the numbers of the files of the versions in the list *)
Definition version_numbers (v : Version) : list Z := concat (map (map number) (files_ v)).
Definition AddLiveFiles vs (live : gset Z) : gset Z :=
  foldl (fun live (v : Version) => foldl (fun live n => {[n]} ∪ live) live (version_numbers v)) live
    (map snd (older_ vs) ++ [current_ vs]).

(** *** The manifest *)

(** a file as [AddFile] writes it *)
Fixpoint snapshot_files (levels : list (list FileMetaData)) (level : Z) (e : VersionEdit) : VersionEdit :=
  match levels with
  | [] => e
  | files :: levels' =>
      snapshot_files levels' (level + 1)
        (foldl (fun e f => AddFile level (number f) (file_size f) (smallest f) (largest f) e) e files)
  end.
Fixpoint snapshot_pointers (pointers : list bytes) (level : Z) (e : VersionEdit) : VersionEdit :=
  match pointers with
  | [] => e
  | p :: pointers' =>
      snapshot_pointers pointers' (level + 1)
        (if bool_decide (p = []) then e else SetCompactPointer level (InternalKey_DecodeFrom p).1 e)
  end.

(** the edit [WriteSnapshot] writes *)
Definition snapshot_edit vs : VersionEdit :=
  snapshot_files (files_ (current_ vs)) 0
    (snapshot_pointers (compact_pointer_ vs) 0 (SetComparatorName comparator_Name make_VersionEdit)).

Context {E R G : Type} `{Env E F R G, !Machine}.

Definition WriteSnapshot vs (log : log_Writer F) : outcome (log_Writer F * Status) :=
  record ← EncodeTo (snapshot_edit vs) [];
  '(log, b) ← AddRecord log record;
  Done (log, append_status b).

(** the edit [LogAndApply] completes *)
Definition complete_edit vs (edit : VersionEdit) : outcome VersionEdit :=
  edit ← (if has_log_number_ edit then
            _ ← c_assert (vs_log_number vs <=? log_number_ edit);
            _ ← c_assert (log_number_ edit <? vs_next_file_number vs);
            Done edit
          else Done (SetLogNumber (vs_log_number vs) edit));
  let edit := if has_prev_log_number_ edit then edit else SetPrevLogNumber (vs_prev_log_number vs) edit in
  Done (SetLastSequence (vs_last_sequence vs) (SetNextFile (vs_next_file_number vs) edit)).

(** the descriptor, made with a snapshot when there is none, and the name of the
    new manifest *)
Definition open_descriptor (env : E) vs : outcome (E * VersionSet F * bytes * Status) :=
  match descriptor_log_ vs with
  | Some _ => Done (env, vs, [], OK)
  | None =>
      new_manifest_file ← DescriptorFileName (vs_dbname vs) (vs_manifest_file_number vs);
      let (env, r) := NewWritableFile env new_manifest_file in
      match r with
      | inr s => Done (env, vs, new_manifest_file, s)
      | inl file =>
          log ← make_Writer file 0;
          '(log, s) ← WriteSnapshot vs log;
          Done (env, vs_with_descriptor vs (Some log), new_manifest_file, s)
      end
  end.

(** the record of the edit, on disk *)
Definition write_edit (env : E) vs (edit : VersionEdit) : outcome (E * VersionSet F * Status) :=
  record ← EncodeTo edit [];
  match descriptor_log_ vs with
  | None => Undefined
  | Some log =>
      '(log, b) ← AddRecord log record;
      let s := append_status b in
      let (env, s) := if bool_decide (s = OK) then file_Sync env (dest_ log) else (env, s) in
      Done (env, vs_with_descriptor vs (Some log), s)
  end.

Definition LogAndApply (env : E) vs (edit : VersionEdit) : outcome (E * VersionSet F * Status) :=
  edit ← complete_edit vs edit;
  '(pointers, levels) ← Builder.Apply edit (compact_pointer_ vs) Builder.make_Builder;
  v ← Builder.SaveTo (current_ vs) levels;
  let vs := vs_with_versions vs (older_ vs) (current_ vs) (current_refs_ vs) pointers in
  '(env, vs, new_manifest_file, s) ← open_descriptor env vs;
  '(env, vs, s) ← (if bool_decide (s = OK) then write_edit env vs edit else Done (env, vs, s));
  '(env, s) ← (if bool_decide (s = OK) && negb (bool_decide (new_manifest_file = []))
               then SetCurrentFile env (vs_dbname vs) (vs_manifest_file_number vs) else Done (env, s));
  if bool_decide (s = OK) then
    Done (env, vs_with_logs (AppendVersion vs v) (log_number_ edit) (prev_log_number_ edit), s)
  else if bool_decide (new_manifest_file = []) then Done (env, vs, s)
  else Done ((env_RemoveFile env new_manifest_file).1, vs_with_descriptor vs None, s).

(** *** Recovery *)

(** the locals of [Recover] *)
Record manifest_state := {
  ms_s : Status; ms_pointers : list bytes; ms_levels : list Builder.LevelState;
  ms_log : option Z; ms_prev : option Z; ms_next : option Z; ms_last : option Z }.

Definition ms_with_status (m : manifest_state) (s : Status) : manifest_state :=
  {| ms_s := s; ms_pointers := ms_pointers m; ms_levels := ms_levels m; ms_log := ms_log m; ms_prev := ms_prev m;
     ms_next := ms_next m; ms_last := ms_last m |}.

(** [LogReporter]: the first report is kept *)
Definition ms_reported (m : manifest_state) (reports : list (Z * Status)) : manifest_state :=
  match ms_s m, reports with OK, (_, st) :: _ => ms_with_status m st | _, _ => m end.

(** one record of the manifest *)
Definition manifest_record (m : manifest_state) (record : bytes) : outcome manifest_state :=
  '(edit, s) ← DecodeFrom make_VersionEdit record;
  let s := if bool_decide (s = OK) && has_comparator_ edit && negb (bool_decide (comparator_ edit = comparator_Name))
           then InvalidArgument (comparator_ edit ++ text " does not match existing comparator " ++ text ": " ++ comparator_Name) else s in
  '(pointers, levels) ← (if bool_decide (s = OK) then Builder.Apply edit (ms_pointers m) (ms_levels m) else Done (ms_pointers m, ms_levels m));
  Done {| ms_s := s; ms_pointers := pointers; ms_levels := levels;
          ms_log := if has_log_number_ edit then Some (log_number_ edit) else ms_log m;
          ms_prev := if has_prev_log_number_ edit then Some (prev_log_number_ edit) else ms_prev m;
          ms_next := if has_next_file_number_ edit then Some (next_file_number_ edit) else ms_next m;
          ms_last := if has_last_sequence_ edit then Some (last_sequence_ edit) else ms_last m |}.

(** the loop, for [n] calls of [ReadRecord] at most *)
Fixpoint read_manifest (fuel n : nat) (reader : log_Reader G) (m : manifest_state) : outcome manifest_state :=
  match n with
  | O => Hangs
  | S n' =>
      '(reader, record) ← ReadRecord fuel reader;
      let m := ms_reported m (default [] (reporter_ reader)) in
      match record with
      | Some record =>
          if bool_decide (ms_s m = OK) then m ← manifest_record m record; read_manifest fuel n' reader m else Done m
      | None => Done m
      end
  end.

Definition ReuseManifest (env : E) vs (dscname dscbase : bytes) : outcome (E * VersionSet F * bool) :=
  if negb (vs_reuse_logs vs) then Done (env, vs, false) else
  match ParseFileName dscbase, GetFileSize env dscname with
  | Some (manifest_number, kDescriptorFile), inl manifest_size =>
      if TargetFileSize (vs_max_file_size vs) <=? manifest_size then Done (env, vs, false) else
      _ ← c_assert (match descriptor_log_ vs with None => true | Some _ => false end);
      let (env, r) := NewAppendableFile env dscname in
      match r with
      | inr _ => Done (env, vs, false)
      | inl file =>
          log ← make_Writer file manifest_size;
          Done (env, vs_with_descriptor (vs_with_numbers vs (vs_next_file_number vs) manifest_number (vs_last_sequence vs)
                  (vs_log_number vs) (vs_prev_log_number vs)) (Some log), true)
      end
  | _, _ => Done (env, vs, false)
  end.

(** the checks after the loop *)
Definition manifest_complete (m : manifest_state) : Status :=
  match ms_s m with
  | OK =>
      match ms_next m, ms_log m, ms_last m with
      | None, _, _ => Corruption (text "no meta-nextfile entry in descriptor")
      | _, None, _ => Corruption (text "no meta-lognumber entry in descriptor")
      | _, _, None => Corruption (text "no last-sequence-number entry in descriptor")
      | _, _, _ => OK
      end
  | s => s
  end.

(** the manifest CURRENT names *)
Definition current_manifest (fuel : nat) (env : E) (dbname : bytes) : outcome (bytes + Status) :=
  '(current, s) ← ReadFileToString fuel env (CurrentFileName dbname);
  match s with
  | OK =>
      match list.last current with
      | Some c => if bool_decide (c = x0a) then Done (inl (take (length current - 1) current))
                  else Done (inr (Corruption (text "CURRENT file does not end with newline")))
      | None => Done (inr (Corruption (text "CURRENT file does not end with newline")))
      end
  | _ => Done (inr s)
  end.

(** the third result is [*save_manifest] *)
Definition Recover (fuel n : nat) (env : E) vs (save_manifest : bool) : outcome (E * VersionSet F * bool * Status) :=
  c ← current_manifest fuel env (vs_dbname vs);
  match c with
  | inr s => Done (env, vs, save_manifest, s)
  | inl current =>
      let dscname := vs_dbname vs ++ text "/" ++ current in
      match NewSequentialFile env dscname with
      | inr s =>
          Done (env, vs, save_manifest,
                if IsNotFound s then Corruption (text "CURRENT points to a non-existent file" ++ text ": " ++ ToString s) else s)
      | inl file =>
          m ← read_manifest fuel n (make_Reader file (Some []) true 0)
                {| ms_s := OK; ms_pointers := compact_pointer_ vs; ms_levels := Builder.make_Builder;
                   ms_log := None; ms_prev := None; ms_next := None; ms_last := None |};
          let s := manifest_complete m in
          let vs := vs_with_versions vs (older_ vs) (current_ vs) (current_refs_ vs) (ms_pointers m) in
          let vs := if bool_decide (ms_s m = OK) then MarkFileNumberUsed (MarkFileNumberUsed vs (default 0 (ms_prev m))) (default 0 (ms_log m)) else vs in
          if bool_decide (s = OK) then
            v ← Builder.SaveTo (current_ vs) (ms_levels m);
            let vs := AppendVersion vs v in
            let vs := vs_with_numbers vs (u64 (default 0 (ms_next m) + 1)) (default 0 (ms_next m)) (default 0 (ms_last m))
                        (default 0 (ms_log m)) (default 0 (ms_prev m)) in
            '(env, vs, reused) ← ReuseManifest env vs dscname current;
            Done (env, vs, if (reused : bool) then save_manifest else true, s)
          else Done (env, vs, save_manifest, s)
      end
  end.
End VersionSet.
