(* ===== verification/VersionSetSpec.v ===== *)
(** * VersionSetSpec: what the builder of versions makes *)

From Stdlib.Strings Require Import Byte.
From Stdlib.Sorting Require Import Sorted.
From stdpp Require Import gmap sorting.
From S2P Require Import Prelude Status Coding DbFormat WriteBatch Crc32c Log Block BlockSpec TableSpec VersionEdit Version VersionSpec Env Filename VersionSet.

(** ** The order of the files *)

Definition file_ok (f : FileMetaData) : Prop :=
  ikey_ok (smallest f) /\ ikey_ok (largest f) /\ ikey_cmp (smallest f) (largest f) <= 0.

(** by smallest key, then by number *)
Definition file_lt (f g : FileMetaData) : Prop :=
  ikey_cmp (smallest f) (smallest g) < 0 \/ ikey_cmp (smallest f) (smallest g) = 0 /\ number f < number g.
#[export] Instance file_lt_dec : RelDecision file_lt := fun f g => ltac:(unfold file_lt; apply _).

Lemma ikey_ok_nonempty k : ikey_ok k -> k <> [].
Proof.
  intros (u & t & -> & _) Ek. apply (f_equal blen) in Ek. unfold ikey in Ek. rewrite blen_app, blen_EncodeFixed64 in Ek.
  pose proof (blen_nonneg u). change (blen []) with 0 in Ek. lia.
Qed.

Lemma Encode_key k : ikey_ok k -> InternalKey_Encode k = Done k.
Proof. intros Hk. unfold InternalKey_Encode. by rewrite bool_decide_eq_false_2 by (by apply ikey_ok_nonempty). Qed.

Lemma Compare_keys_spec a b : ikey_ok a -> ikey_ok b -> Compare_keys a b = Done (ikey_cmp a b).
Proof.
  intros Ha Hb. unfold Compare_keys. rewrite !Encode_key by done. cbn [mbind outcome_bind].
  destruct Ha as (u1 & t1 & -> & ?), Hb as (u2 & t2 & -> & ?). by rewrite ikey_cmp_spec, Internal_Compare_spec.
Qed.

Lemma BySmallestKey_spec f g : file_ok f -> file_ok g -> Builder.BySmallestKey f g = Done (bool_decide (file_lt f g)).
Proof.
  intros [Hf _] [Hg _]. unfold Builder.BySmallestKey. rewrite Compare_keys_spec by done. cbn [mbind outcome_bind]. f_equal.
  unfold file_lt. destruct (Z.eqb_spec (ikey_cmp (smallest f) (smallest g)) 0) as [Ek|Ek]; cbn [negb].
  - destruct (Z.ltb_spec (number f) (number g)); symmetry; [apply bool_decide_eq_true_2|apply bool_decide_eq_false_2]; lia.
  - destruct (Z.ltb_spec (ikey_cmp (smallest f) (smallest g)) 0); symmetry; [apply bool_decide_eq_true_2|apply bool_decide_eq_false_2]; lia.
Qed.

Lemma ikey_cmp_refl k : ikey_ok k -> ikey_cmp k k = 0.
Proof. intros Hk. pose proof (ikey_cmp_antisym k k Hk Hk). lia. Qed.

Lemma file_lt_trans f g h : file_ok f -> file_ok g -> file_ok h -> file_lt f g -> file_lt g h -> file_lt f h.
Proof.
  intros [Hf _] [Hg _] [Hh _] [H1|[E1 N1]] [H2|[E2 N2]].
  - left. by apply (ikey_cmp_trans _ (smallest g)).
  - apply ikey_cmp_exact in E2; [|done..]. left. by rewrite <- E2.
  - apply ikey_cmp_exact in E1; [|done..]. left. by rewrite E1.
  - pose proof E1 as E1'. apply ikey_cmp_exact in E1; [|done..]. right. rewrite E1. lia.
Qed.

Lemma file_lt_irrefl f : file_ok f -> ~ file_lt f f.
Proof. intros [Hf _]. unfold file_lt. rewrite (ikey_cmp_refl _ Hf). lia. Qed.

Lemma file_lt_total f g : file_ok f -> file_ok g -> number f <> number g -> file_lt f g \/ file_lt g f.
Proof. intros [Hf _] [Hg _] Hn. unfold file_lt. rewrite (ikey_cmp_antisym (smallest f) (smallest g)) by done. lia. Qed.

(** ** Sorted lists of files *)

Abbreviation in_order := (StronglySorted file_lt).

Record level_files_ok (fs : list FileMetaData) : Prop := {
  lf_ok : Forall file_ok fs; lf_sorted : in_order fs; lf_numbers : NoDup (map number fs) }.

Lemma level_files_nil : level_files_ok [].
Proof. split; constructor. Qed.

Lemma fileset_insert_spec f s :
  file_ok f -> level_files_ok s -> number f ∉ map number s ->
  exists s', Builder.fileset_insert f s = Done s' /\ s' ≡ₚ f :: s /\ level_files_ok s'.
Proof.
  intros Hf [Hok Hs Hnd] Hn.
  assert (exists s', Builder.fileset_insert f s = Done s' /\ s' ≡ₚ f :: s /\ in_order s') as (s' & E & Hp & Hso).
  { revert Hok Hnd Hn; induction Hs as [|g s Hs IH Hg]; intros Hok Hnd Hn.
    { exists [f]. split; [done|]. split; [done|]. repeat constructor. }
    apply list.Forall_cons in Hok as [Hgo Hok]. cbn [map] in Hnd, Hn. apply list.NoDup_cons in Hnd as [_ Hnd].
    rewrite not_elem_of_cons in Hn. destruct Hn as [Hne Hn]. cbn [Builder.fileset_insert].
    rewrite (BySmallestKey_spec f g) by done. cbn [mbind outcome_bind]. destruct (bool_decide_reflect (file_lt f g)) as [Hlt|Hlt].
    - exists (f :: g :: s). split; [done|]. split; [done|]. constructor; [by constructor|]. constructor; [done|].
      rewrite list.Forall_forall in Hg, Hok |- *. intros h Hh. eapply file_lt_trans; [done|exact Hgo|by apply Hok|done|by apply Hg].
    - rewrite (BySmallestKey_spec g f) by done. cbn [mbind outcome_bind].
      destruct (file_lt_total f g Hf Hgo Hne) as [?|Hgt]; [contradiction|]. rewrite bool_decide_eq_true_2 by done.
      destruct (IH Hok Hnd Hn) as (s' & -> & Hp & Hso). cbn [mbind outcome_bind]. exists (g :: s'). split; [done|].
      split; [rewrite Hp; apply perm_swap|]. constructor; [done|]. apply list.Forall_forall. intros h Hh. rewrite Hp in Hh.
      rewrite list.Forall_forall in Hg. apply elem_of_cons in Hh as [->|Hh]; [done|by apply Hg]. }
  exists s'. split; [done|]. split; [done|]. split; [|done|].
  - rewrite Hp. by constructor.
  - rewrite Hp. cbn [map]. by constructor.
Qed.

(** two sorted lists with the same files are equal *)
Lemma in_order_unique l1 l2 :
  level_files_ok l1 -> level_files_ok l2 -> (forall f, f ∈ l1 <-> f ∈ l2) -> l1 = l2.
Proof.
  intros [H1 S1 _] [H2 S2 _]. revert l2 H2 S2; induction S1 as [|f l1 S1 IH Hf]; intros l2 H2 S2 Hiff.
  { destruct l2 as [|g l2]; [done|]. exfalso. by apply (not_elem_of_nil g), Hiff; left. }
  apply list.Forall_cons in H1 as [Hfo H1]. destruct S2 as [|g l2 S2 Hg]; [exfalso; by apply (not_elem_of_nil f), Hiff; left|].
  apply list.Forall_cons in H2 as [Hgo H2]. rewrite list.Forall_forall in Hf, Hg, H1, H2.
  assert (Hfg : f = g).
  { destruct (proj1 (elem_of_cons _ _ _) (proj1 (Hiff f) ltac:(by left))) as [|Hfin]; [done|]. destruct (proj1 (elem_of_cons _ _ _) (proj2 (Hiff g) ltac:(by left))) as [|Hgin]; [done|].
    exfalso. apply (file_lt_irrefl f Hfo). eapply file_lt_trans; [done|exact Hgo|done|by apply Hf|by apply Hg]. }
  subst g. f_equal. apply IH; [by apply list.Forall_forall|by apply list.Forall_forall|done|]. intros h. split; intros Hh.
  - destruct (proj1 (elem_of_cons _ _ _) (proj1 (Hiff h) ltac:(by right))) as [->|]; [|done]. exfalso. by apply (file_lt_irrefl f Hfo), Hf.
  - destruct (proj1 (elem_of_cons _ _ _) (proj2 (Hiff h) ltac:(by right))) as [->|]; [|done]. exfalso. by apply (file_lt_irrefl f Hfo), Hg.
Qed.

(** ** The order [SaveTo] adds the files in *)

Fixpoint cut_upper (f : FileMetaData) (base : list FileMetaData) : list FileMetaData * list FileMetaData :=
  match base with
  | [] => ([], [])
  | g :: base' => if decide (file_lt f g) then ([], base) else (g :: (cut_upper f base').1, (cut_upper f base').2)
  end.
Fixpoint save_order (added base : list FileMetaData) : list FileMetaData :=
  match added with
  | [] => base
  | f :: added' => (cut_upper f base).1 ++ f :: save_order added' (cut_upper f base).2
  end.

Lemma upper_bound_spec f base : file_ok f -> Forall file_ok base -> Builder.upper_bound f base = Done (cut_upper f base).
Proof.
  intros Hf. induction 1 as [|g base Hg _ IH]; [done|]. cbn [Builder.upper_bound cut_upper]. rewrite BySmallestKey_spec by done.
  cbn [mbind outcome_bind]. case_decide as Hlt; [by rewrite bool_decide_eq_true_2|rewrite bool_decide_eq_false_2 by done].
  rewrite IH. by destruct (cut_upper f base).
Qed.

Lemma cut_upper_app f base : (cut_upper f base).1 ++ (cut_upper f base).2 = base.
Proof. induction base as [|g base IH]; [done|]. cbn [cut_upper]. case_decide; [done|]. cbn [fst snd app]. by rewrite IH. Qed.

Lemma cut_upper_sorted f base :
  file_ok f -> Forall file_ok base -> in_order base -> number f ∉ map number base ->
  (forall g, g ∈ (cut_upper f base).1 -> file_lt g f) /\ (forall g, g ∈ (cut_upper f base).2 -> file_lt f g).
Proof.
  intros Hf Hok Hs. induction Hs as [|g base Hs IH Hg]; intros Hn; [split; by intros h ?%elem_of_nil|].
  apply list.Forall_cons in Hok as [Hgo Hok]. cbn [map] in Hn. rewrite not_elem_of_cons in Hn. destruct Hn as [Hne Hn].
  cbn [cut_upper]. case_decide as Hlt; cbn [fst snd].
  - split; [by intros h ?%elem_of_nil|]. rewrite list.Forall_forall in Hok, Hg. intros h [->|Hh]%elem_of_cons; [done|].
    eapply file_lt_trans; [done|exact Hgo|by apply Hok|done|by apply Hg].
  - destruct (IH Hok Hn) as [H1 H2]. split; [|done]. intros h [->|Hh]%elem_of_cons; [|by apply H1].
    by destruct (file_lt_total f g Hf Hgo Hne).
Qed.

Lemma save_order_perm added base : save_order added base ≡ₚ added ++ base.
Proof.
  revert base; induction added as [|f added IH]; intros base; [done|]. cbn [save_order app]. rewrite IH.
  rewrite <- (cut_upper_app f base) at 3. rewrite <- Permutation_middle. constructor. rewrite !app_assoc. apply Permutation_app_tail, Permutation_app_comm.
Qed.

Lemma save_order_ok added base :
  level_files_ok added -> level_files_ok base -> (forall f, f ∈ added -> number f ∉ map number base) ->
  level_files_ok (save_order added base).
Proof.
  intros [Ha Sa Na] [Hb Sb Nb] Hn. split.
  - rewrite save_order_perm. apply list.Forall_app. done.
  - clear Na Nb. revert base Hb Sb Hn; induction Sa as [|f added Sa IH Hf]; intros base Hb Sb Hn; [done|].
    apply list.Forall_cons in Ha as [Hfo Ha]. cbn [save_order].
    destruct (cut_upper_sorted f base Hfo Hb Sb ltac:(apply Hn; by left)) as [H1 H2].
    pose proof (cut_upper_app f base) as Eb. set (x := (cut_upper f base).1) in *. set (y := (cut_upper f base).2) in *. clearbody x y.
    rewrite <- Eb in Hb, Sb, Hn. apply list.Forall_app in Hb as [Hx Hy]. rewrite list.Forall_forall in Hf.
    assert (Hrest : forall g, g ∈ save_order added y -> file_lt f g).
    { intros g Hg. rewrite save_order_perm in Hg. apply elem_of_app in Hg as [Hg|Hg]; [by apply Hf|by apply H2]. }
    apply StronglySorted_app_2; [|by apply StronglySorted_app_1_l in Sb|].
    + intros g h Hg [->|Hh]%elem_of_cons; [by apply H1|]. rewrite list.Forall_forall in Ha, Hx, Hy.
      eapply file_lt_trans; [by apply Hx|exact Hfo| |by apply H1|by apply Hrest].
      rewrite save_order_perm in Hh. apply elem_of_app in Hh as [Hh|Hh]; [by apply Ha|by apply Hy].
    + constructor; [|by apply list.Forall_forall]. apply IH; [done|done|by apply StronglySorted_app_1_r in Sb|].
      intros g Hg Hin. apply (Hn g ltac:(by right)). rewrite map_app. apply elem_of_app. by right.
  - rewrite save_order_perm, map_app. apply list.NoDup_app. split; [done|]. split; [|done].
    intros n (f & -> & Hf)%list_elem_of_fmap. by apply Hn.
Qed.

(** ** [SaveTo] *)

Definition file_before (f g : FileMetaData) : Prop := ikey_cmp (largest f) (smallest g) < 0.

(** the files that were not deleted *)
Definition kept (st : Builder.LevelState) (fs : list FileMetaData) : list FileMetaData :=
  filter (fun f => number f ∉ Builder.deleted_files st) fs.
Definition saved (st : Builder.LevelState) (base : list FileMetaData) : list FileMetaData :=
  kept st (save_order (Builder.added_files st) base).

Lemma add_level_spec st level files fs :
  Forall file_ok files -> Forall file_ok fs -> (0 < level -> StronglySorted file_before (files ++ kept st fs)) ->
  Builder.add_all st level files fs = Done (files ++ kept st fs).
Proof.
  intros Hfs Hok. revert files Hfs; induction Hok as [|f fs Hf _ IH]; intros files Hfs Hs; [by rewrite app_nil_r|].
  cbn [Builder.add_all]. unfold Builder.MaybeAddFile. unfold kept in *. rewrite filter_cons in Hs |- *.
  case_bool_decide as Hd.
  { rewrite decide_False in Hs |- * by (intros Hn; by apply Hn). cbn [mbind outcome_bind]. by apply IH. }
  rewrite decide_True in Hs |- * by done. rewrite (cons_middle f files (filter _ fs)), app_assoc in Hs |- *.
  assert (Hlast : forall g, list.last files = Some g -> 0 < level -> file_before g f).
  { intros g Hg Hl. specialize (Hs Hl). apply StronglySorted_app_1_l in Hs. apply last_Some in Hg as (l' & ->).
    eapply (StronglySorted_app_1_elem_of _ _ _ g f Hs); [apply elem_of_app; right|]; by left. }
  assert (Hck : match list.last files with
       | Some g => if 0 <? level then r ← Compare_keys (largest g) (smallest f); c_assert (r <? 0) else Done tt
       | None => Done tt end = Done tt).
  { destruct (list.last files) as [g|] eqn:Eg; [|exact eq_refl]. destruct (Z.ltb_spec 0 level) as [Hl|Hl]; [|done].
    assert (Hgo : file_ok g). { apply last_Some in Eg as (l' & ->). apply list.Forall_app in Hfs as [_ Hx]. by inversion Hx. }
    rewrite Compare_keys_spec by (apply Hgo || apply Hf). cbn [mbind outcome_bind].
    specialize (Hlast g eq_refl Hl). unfold file_before in Hlast. by rewrite (proj2 (Z.ltb_lt _ _)) by exact Hlast. }
  rewrite Hck. cbn [mbind outcome_bind]. apply IH; [by apply list.Forall_app; split; [|apply list.Forall_singleton]|done].
Qed.

Lemma add_all_app st level files fs gs :
  Builder.add_all st level files (fs ++ gs) = (files' ← Builder.add_all st level files fs; Builder.add_all st level files' gs).
Proof.
  revert files; induction fs as [|f fs IH]; intros files; [done|]. cbn [app Builder.add_all].
  destruct (Builder.MaybeAddFile st level files f); cbn [mbind outcome_bind]; [apply IH|done..].
Qed.

Lemma save_level_order st level added base files :
  Forall file_ok added -> Forall file_ok base ->
  Builder.save_level st level added base files = Builder.add_all st level files (save_order added base).
Proof.
  intros Ha. revert base files; induction Ha as [|f added Hf _ IH]; intros base files Hb; [done|].
  cbn [Builder.save_level save_order]. rewrite upper_bound_spec by done. rewrite <- (cut_upper_app f base) in Hb. apply list.Forall_app in Hb as [_ Hb].
  destruct (cut_upper f base) as [x y]. cbn [mbind outcome_bind fst snd] in *. rewrite add_all_app.
  destruct (Builder.add_all st level files x) as [files'| | | | |]; cbn [mbind outcome_bind]; [|done..]. cbn [Builder.add_all].
  destruct (Builder.MaybeAddFile st level files' f); cbn [mbind outcome_bind]; [|done..]. by apply IH.
Qed.

Lemma no_overlap_spec f fs :
  file_ok f -> Forall file_ok fs -> StronglySorted file_before (f :: fs) -> Builder.no_overlap f fs = Done tt.
Proof.
  intros Hf Hok. revert f Hf; induction Hok as [|g fs Hg _ IH]; intros f Hf Hs; [done|]. cbn [Builder.no_overlap].
  apply StronglySorted_inv in Hs as [Hs [Hfg _]%list.Forall_cons]. rewrite Compare_keys_spec by (apply Hf || apply Hg).
  cbn [mbind outcome_bind]. rewrite (proj2 (Z.ltb_lt _ _)) by done. cbn [c_assert mbind outcome_bind]. by apply IH.
Qed.

Lemma Forall_kept st fs : Forall file_ok fs -> Forall file_ok (kept st fs).
Proof. rewrite !list.Forall_forall. intros H f Hf. apply H. by apply list_elem_of_filter in Hf as [_ ?]. Qed.

Lemma Forall_save_order added base : Forall file_ok added -> Forall file_ok base -> Forall file_ok (save_order added base).
Proof. intros Ha Hb. rewrite save_order_perm. by apply list.Forall_app. Qed.

Lemma save_levels_spec levels base level :
  length base = length levels -> 0 <= level ->
  (forall i st files, levels !! i = Some st -> base !! i = Some files ->
    Forall file_ok (Builder.added_files st) /\ Forall file_ok files /\
    (0 < level + Z.of_nat i -> StronglySorted file_before (saved st files))) ->
  Builder.save_levels levels base level = Done (zip_with saved levels base).
Proof.
  revert base level; induction levels as [|st levels IH]; intros [|files base] level Hlen Hl H; try done.
  destruct (H 0%nat st files eq_refl eq_refl) as (Ha & Hb & Hs). rewrite Z.add_0_r in Hs.
  cbn [Builder.save_levels zip_with]. rewrite save_level_order by done.
  rewrite add_level_spec; [|constructor|by apply Forall_save_order|exact Hs]. cbn [app mbind outcome_bind]. fold (saved st files).
  assert (Hso : Forall file_ok (saved st files)) by (by apply Forall_kept, Forall_save_order).
  assert (Hck : (if 0 <? level then match saved st files with f :: fs => Builder.no_overlap f fs | [] => Done tt end else Done tt) = Done tt).
  { destruct (Z.ltb_spec 0 level) as [Hlt|]; [|done]. specialize (Hs Hlt). destruct (saved st files) as [|f fs]; [done|].
    apply list.Forall_cons in Hso as [? ?]. by apply no_overlap_spec. }
  rewrite Hck. cbn [mbind outcome_bind]. rewrite IH; [done|by injection Hlen|lia|]. intros i st' files' Hi Hi'.
  destruct (H (S i) st' files' Hi Hi') as (H1 & H2 & H3). split; [done|]. split; [done|]. intros Hlt. apply H3. lia.
Qed.

Lemma SaveTo_spec v levels :
  length (files_ v) = length levels ->
  (forall i st files, levels !! i = Some st -> files_ v !! i = Some files ->
    Forall file_ok (Builder.added_files st) /\ Forall file_ok files /\ ((0 < i)%nat -> StronglySorted file_before (saved st files))) ->
  Builder.SaveTo v levels =
    Done {| files_ := zip_with saved levels (files_ v); file_to_compact_ := None; file_to_compact_level_ := -1 |}.
Proof.
  intros Hlen H. unfold Builder.SaveTo. rewrite save_levels_spec; [done|done|lia|]. intros i st files Hi Hf.
  destruct (H i st files Hi Hf) as (H1 & H2 & H3). split; [done|]. split; [done|]. intros Hlt. apply H3. lia.
Qed.

Lemma elem_of_saved st base f :
  f ∈ saved st base <-> number f ∉ Builder.deleted_files st /\ (f ∈ Builder.added_files st \/ f ∈ base).
Proof. unfold saved, kept. rewrite list_elem_of_filter, save_order_perm, elem_of_app. done. Qed.

Lemma sublist_StronglySorted {A} (R : relation A) l1 l2 : sublist l1 l2 -> StronglySorted R l2 -> StronglySorted R l1.
Proof.
  induction 1 as [|x l1 l2 Hl IH|x l1 l2 Hl IH]; intros Hs; [constructor| |]; apply StronglySorted_inv in Hs as [Hs Hx]; [|by apply IH].
  constructor; [by apply IH|]. rewrite list.Forall_forall in Hx |- *. intros y Hy. apply Hx. by eapply elem_of_sublist.
Qed.

Lemma saved_ok st base :
  level_files_ok (Builder.added_files st) -> level_files_ok base ->
  (forall f, f ∈ Builder.added_files st -> number f ∉ map number base) -> level_files_ok (saved st base).
Proof.
  intros Ha Hb Hn. destruct (save_order_ok _ _ Ha Hb Hn) as [Hok Hs Hnd]. unfold saved, kept.
  set (l := save_order (Builder.added_files st) base) in *. clearbody l. split.
  - rewrite list.Forall_forall in Hok |- *. intros f [_ Hf]%list_elem_of_filter. by apply Hok.
  - eapply sublist_StronglySorted; [|exact Hs]. apply sublist_filter.
  - eapply sublist_NoDup; [exact Hnd|]. apply sublist_map, sublist_filter.
Qed.

(** ** [Apply] *)

Definition in_range (level : Z) : Prop := 0 <= level < kNumLevels.
(** a file with the seeks the builder gives it *)
Definition seeded (f : FileMetaData) : FileMetaData := with_seeks f (Builder.seeks_of (file_size f)).

(** what an edit has at a level *)
Definition at_ {A} (i : nat) (l : list (Z * A)) : list A := map snd (filter (fun p : Z * A => p.1 = Z.of_nat i) l).
Definition news (i : nat) (l : list (Z * FileMetaData)) : list FileMetaData := map seeded (at_ i l).

Definition levels_ok (levels : list Builder.LevelState) : Prop :=
  length levels = Z.to_nat kNumLevels /\ forall i st, levels !! i = Some st -> level_files_ok (Builder.added_files st).

(** a level before and after some deletions and additions *)
Record level_applied (dels : list Z) (adds : list FileMetaData) (st st' : Builder.LevelState) : Prop := {
  la_deleted n : n ∈ Builder.deleted_files st' <-> (n ∈ Builder.deleted_files st \/ n ∈ dels) /\ n ∉ map number adds;
  la_added f : f ∈ Builder.added_files st' <-> f ∈ Builder.added_files st \/ f ∈ adds;
  la_ok : level_files_ok (Builder.added_files st') }.

Lemma at_cons {A} i level (x : A) l : at_ i ((level, x) :: l) = if decide (level = Z.of_nat i) then x :: at_ i l else at_ i l.
Proof. unfold at_. rewrite filter_cons. cbn [fst]. by case_decide. Qed.
Lemma news_cons i level f l : news i ((level, f) :: l) = if decide (level = Z.of_nat i) then seeded f :: news i l else news i l.
Proof. unfold news. rewrite at_cons. by case_decide. Qed.

Lemma at_level_spec {A} (l : list A) level :
  in_range level -> length l = Z.to_nat kNumLevels -> exists x, l !! Z.to_nat level = Some x /\ Builder.at_level l level = Done x.
Proof.
  intros Hl Hlen. destruct (lookup_lt_is_Some_2 l (Z.to_nat level)) as [x Hx]; [unfold in_range, kNumLevels in *; lia|].
  exists x. split; [done|]. unfold Builder.at_level. rewrite (proj2 (Z.ltb_ge level 0)) by (destruct Hl; lia). by rewrite Hx.
Qed.

Lemma level_applied_none st : level_files_ok (Builder.added_files st) -> level_applied [] [] st st.
Proof. intros Ho. split; [|intros f; rewrite elem_of_nil; tauto|done]. intros m. cbn [map]. rewrite !elem_of_nil. tauto. Qed.

Lemma level_applied_trans dels adds st1 st2 st3 :
  level_applied dels [] st1 st2 -> level_applied [] adds st2 st3 -> level_applied dels adds st1 st3.
Proof.
  intros [Hd1 Ha1 _] [Hd2 Ha2 Ho2]. split; [|intros f; rewrite Ha2, Ha1, elem_of_nil; tauto|done].
  intros n. rewrite Hd2, Hd1. cbn [map]. rewrite !elem_of_nil. tauto.
Qed.

Lemma apply_deleted_spec dels levels :
  levels_ok levels -> Forall (fun p : Z * Z => in_range p.1) dels ->
  exists levels', Builder.apply_deleted dels levels = Done levels' /\ levels_ok levels' /\
    forall i st st', levels !! i = Some st -> levels' !! i = Some st' -> level_applied (at_ i dels) [] st st'.
Proof.
  intros Hok Hr. revert levels Hok; induction Hr as [|[level n] dels Hl _ IH]; intros levels [Hlen Hok].
  { exists levels. split; [done|]. split; [done|]. intros i st st' Hi Hi'. assert (st' = st) as -> by congruence.
    apply level_applied_none. by apply (Hok i). }
  cbn [fst] in Hl. cbn [Builder.apply_deleted]. destruct (at_level_spec levels level Hl Hlen) as (st0 & H0 & ->). cbn [mbind outcome_bind].
  set (st1 := {| Builder.deleted_files := _; Builder.added_files := _ |}).
  destruct (IH (<[Z.to_nat level := st1]> levels)) as (levels' & E & Hok' & Happ).
  { split; [by rewrite length_insert|]. intros i st Hi. apply list_lookup_insert_Some in Hi as [(_ & <- & _)|[_ Hi]]; [|by apply (Hok i)].
    exact (Hok _ _ H0). }
  exists levels'. split; [done|]. split; [done|]. intros i st st' Hi Hi'. rewrite at_cons.
  destruct (decide (level = Z.of_nat i)) as [->|Hne].
  - rewrite Nat2Z.id in H0, Happ. assert (st0 = st) as -> by congruence.
    destruct (Happ i st1 st') as [Hd Ha Ho]; [by apply list_lookup_insert_eq, (lookup_lt_Some _ _ _ H0)|done|].
    split; [|exact Ha|exact Ho]. intros m. rewrite Hd. unfold st1. cbn [Builder.deleted_files]. rewrite elem_of_union, elem_of_singleton, elem_of_cons. tauto.
  - apply (Happ i st st'); [|done]. rewrite list_lookup_insert_ne; [done|]. unfold in_range in Hl. lia.
Qed.

(** new files of an edit whose numbers are new at their level *)
Record news_fit (l : list (Z * FileMetaData)) (levels : list Builder.LevelState) : Prop := {
  nf_range : Forall (fun p : Z * FileMetaData => in_range p.1 /\ file_ok p.2) l;
  nf_numbers i st : levels !! i = Some st -> NoDup (map number (Builder.added_files st) ++ map number (news i l)) }.

Lemma apply_new_spec l levels :
  levels_ok levels -> news_fit l levels ->
  exists levels', Builder.apply_new l levels = Done levels' /\ levels_ok levels' /\
    forall i st st', levels !! i = Some st -> levels' !! i = Some st' -> level_applied [] (news i l) st st'.
Proof.
  intros Hok [Hr Hn]. revert levels Hok Hn; induction Hr as [|[level f] l [Hl Hf] _ IH]; intros levels [Hlen Hok] Hn.
  { exists levels. split; [done|]. split; [done|]. intros i st st' Hi Hi'. assert (st' = st) as -> by congruence.
    apply level_applied_none. by apply (Hok i). }
  cbn [fst snd] in Hl, Hf. cbn [Builder.apply_new]. destruct (at_level_spec levels level Hl Hlen) as (st0 & H0 & ->). cbn [mbind outcome_bind].
  fold (seeded f). pose proof (Hn _ _ H0) as Hn0. rewrite news_cons, decide_True in Hn0 by (unfold in_range in Hl; lia).
  destruct (fileset_insert_spec (seeded f) (Builder.added_files st0)) as (s' & -> & Hp & Hs'); [exact Hf|by apply (Hok (Z.to_nat level))| |].
  { apply list.NoDup_app in Hn0 as (_ & Hn0 & _). intros Hin. apply (Hn0 _ Hin). by left. }
  cbn [mbind outcome_bind]. set (st1 := {| Builder.deleted_files := _; Builder.added_files := _ |}).
  destruct (IH (<[Z.to_nat level := st1]> levels)) as (levels' & E & Hok' & Happ).
  { split; [by rewrite length_insert|]. intros i st Hi. apply list_lookup_insert_Some in Hi as [(_ & <- & _)|[_ Hi]]; [done|by apply (Hok i)]. }
  { intros i st Hi. apply list_lookup_insert_Some in Hi as [(<- & <- & _)|[Hne Hi]].
    - unfold st1. cbn [Builder.added_files]. rewrite Hp. cbn [map app]. rewrite Permutation_middle. exact Hn0.
    - specialize (Hn i st Hi). rewrite news_cons, decide_False in Hn by (unfold in_range in Hl; lia). exact Hn. }
  exists levels'. split; [done|]. split; [done|]. intros i st st' Hi Hi'. rewrite news_cons.
  destruct (decide (level = Z.of_nat i)) as [->|Hne].
  - rewrite Nat2Z.id in H0, Happ. assert (st0 = st) as -> by congruence.
    destruct (Happ i st1 st') as [Hd Ha Ho]; [by apply list_lookup_insert_eq, (lookup_lt_Some _ _ _ H0)|done|]. unfold st1 in Hd, Ha. cbn in Hd, Ha.
    split; [|intros g; rewrite Ha, Hp, !elem_of_cons; tauto|exact Ho]. intros m. rewrite Hd. cbn [map]. change (number (seeded f)) with (number f).
    rewrite elem_of_difference, elem_of_singleton, elem_of_cons, !elem_of_nil. tauto.
  - apply (Happ i st st'); [|done]. rewrite list_lookup_insert_ne; [done|]. unfold in_range in Hl. lia.
Qed.

Definition set_pointers (ps : list (Z * bytes)) (cp : list bytes) : list bytes :=
  foldl (fun cp (p : Z * bytes) => <[Z.to_nat p.1 := p.2]> cp) cp ps.

Lemma apply_pointers_spec ps cp :
  length cp = Z.to_nat kNumLevels -> Forall (fun p : Z * bytes => in_range p.1 /\ p.2 <> []) ps ->
  Builder.apply_pointers ps cp = Done (set_pointers ps cp) /\ length (set_pointers ps cp) = Z.to_nat kNumLevels.
Proof.
  intros Hlen Hps. revert cp Hlen; induction Hps as [|[level key] ps [Hl Hk] _ IH]; intros cp Hlen; [done|]. cbn [fst snd] in Hl, Hk.
  cbn [Builder.apply_pointers set_pointers foldl fst snd]. destruct (at_level_spec cp level Hl Hlen) as (x & _ & ->). cbn [mbind outcome_bind].
  unfold InternalKey_Encode. rewrite bool_decide_eq_false_2 by done. cbn [negb c_assert mbind outcome_bind]. apply IH. by rewrite length_insert.
Qed.

(** an edit the builder can apply *)
Record edit_fits (e : VersionEdit) (levels : list Builder.LevelState) : Prop := {
  ef_pointers : Forall (fun p : Z * bytes => in_range p.1 /\ p.2 <> []) (compact_pointers_ e);
  ef_deleted : Forall (fun p : Z * Z => in_range p.1) (deleted_files_ e);
  ef_new : news_fit (new_files_ e) levels }.

Lemma Apply_spec e cp levels :
  levels_ok levels -> length cp = Z.to_nat kNumLevels -> edit_fits e levels ->
  exists levels', Builder.Apply e cp levels = Done (set_pointers (compact_pointers_ e) cp, levels') /\ levels_ok levels' /\
    length (set_pointers (compact_pointers_ e) cp) = Z.to_nat kNumLevels /\
    forall i st st', levels !! i = Some st -> levels' !! i = Some st' ->
      level_applied (at_ i (deleted_files_ e)) (news i (new_files_ e)) st st'.
Proof.
  intros Hok Hcp [Hp Hd [Hr Hn]]. unfold Builder.Apply. destruct (apply_pointers_spec _ _ Hcp Hp) as [-> Hlen]. cbn [mbind outcome_bind].
  destruct (apply_deleted_spec _ _ Hok Hd) as (l1 & -> & Hok1 & H1). cbn [mbind outcome_bind].
  assert (Hlen1 : forall i st1, l1 !! i = Some st1 -> exists st, levels !! i = Some st).
  { intros i st1 Hi. apply lookup_lt_is_Some. apply lookup_lt_Some in Hi. destruct Hok as [E0 _], Hok1 as [E1 _]. congruence. }
  destruct (apply_new_spec (new_files_ e) l1 Hok1) as (l2 & -> & Hok2 & H2).
  { split; [done|]. intros i st1 Hi. destruct (Hlen1 i st1 Hi) as [st Hst]. destruct (H1 i st st1 Hst Hi) as [_ Ha Ho].
    assert (Hpm : Builder.added_files st1 ≡ₚ Builder.added_files st).
    { apply NoDup_Permutation; [eapply NoDup_fmap_1; apply Ho|eapply NoDup_fmap_1; by apply (proj2 Hok i)|]. intros f. rewrite Ha, elem_of_nil. tauto. }
    rewrite Hpm. by apply (Hn i). }
  cbn [mbind outcome_bind]. exists l2. split; [done|]. split; [done|]. split; [done|]. intros i st st2 Hi Hi2.
  assert (exists st1, l1 !! i = Some st1) as [st1 Hi1].
  { apply lookup_lt_is_Some. apply lookup_lt_Some in Hi. destruct Hok as [E0 _], Hok1 as [E1 _]. congruence. }
  by eapply level_applied_trans; [apply (H1 i)|apply (H2 i)].
Qed.

(** ** A version and the builder that makes it *)

Lemma seeded_twice f : seeded (seeded f) = seeded f.
Proof. done. Qed.
Lemma number_seeded fs : map number (map seeded fs) = map number fs.
Proof. rewrite map_map. done. Qed.

Lemma seeded_ok fs : level_files_ok fs -> level_files_ok (map seeded fs).
Proof.
  intros [Hok Hs Hn]. split; [by apply list.Forall_fmap| |by rewrite number_seeded].
  induction Hs as [|f fs Hs IH Hf]; [constructor|]. apply list.Forall_cons in Hok as [_ Hok]. apply list.NoDup_cons in Hn as [_ Hn].
  constructor; [by apply IH|]. by apply list.Forall_fmap.
Qed.

Lemma elem_of_seeded g fs : g ∈ map seeded fs <-> exists f, f ∈ fs /\ g = seeded f.
Proof. rewrite list_elem_of_fmap. naive_solver. Qed.

(** the builder's level makes these files, but for their seeks *)
Record level_matches (st : Builder.LevelState) (files : list FileMetaData) : Prop := {
  lm_files : level_files_ok files;
  lm_in f : f ∈ map seeded files <-> f ∈ Builder.added_files st /\ number f ∉ Builder.deleted_files st }.

(** the files of a level after an edit *)
Definition after_edit (dels : list Z) (adds files : list FileMetaData) (f : FileMetaData) : Prop :=
  (f ∈ adds \/ f ∈ files) /\ (number f ∈ dels -> number f ∈ map number adds).

Definition empty_level : Builder.LevelState := {| Builder.deleted_files := ∅; Builder.added_files := [] |}.

Lemma saved_after dels adds b files f :
  level_applied dels adds empty_level b -> f ∈ saved b files <-> after_edit dels adds files f.
Proof.
  intros [Hd Ha _]. rewrite elem_of_saved, Ha, Hd. unfold empty_level. cbn. rewrite elem_of_nil, elem_of_empty. unfold after_edit.
  destruct (decide (number f ∈ map number adds)); tauto.
Qed.

Lemma level_matches_numbers st files n : level_matches st files -> n ∈ map number files -> n ∈ map number (Builder.added_files st).
Proof.
  intros [_ Hin]. rewrite !list_elem_of_fmap. intros (f & -> & Hf). exists (seeded f). split; [done|]. apply Hin, elem_of_seeded. by exists f.
Qed.

Lemma level_matches_applied dels adds st st' b files :
  level_matches st files -> (forall f, f ∈ adds -> seeded f = f) -> NoDup (map number (Builder.added_files st) ++ map number adds) ->
  level_applied dels adds st st' -> level_applied dels adds empty_level b -> level_matches st' (saved b files).
Proof.
  intros Hm Hadds Hn Happ Hb. apply list.NoDup_app in Hn as (_ & Hn & _). split.
  - apply saved_ok; [by apply Hb|by apply Hm|]. intros f Hf Hin. apply (la_added _ _ _ _ Hb) in Hf as [Hf|Hf]; [by apply elem_of_nil in Hf|].
    eapply Hn; [by eapply level_matches_numbers|]. by apply list_elem_of_fmap_2.
  - intros f. rewrite elem_of_seeded. destruct Hm as [_ Hm], Happ as [Hd Ha _]. rewrite Ha, Hd. split.
    + intros (g & Hg & ->). apply (saved_after dels adds) in Hg as [Hg Hk]; [|done]. change (number (seeded g)) with (number g) in *.
      destruct Hg as [Hg|Hg].
      * rewrite Hadds by done. split; [by right|]. intros [_ Hno]. apply Hno. by apply list_elem_of_fmap_2.
      * destruct (proj1 (Hm (seeded g))) as [Hin Hnd]; [apply elem_of_seeded; by exists g|]. split; [by left|]. intros [[?|Hdel] Hno]; [done|].
        by apply Hno, Hk.
    + intros [[Hf|Hf] Hdel].
      * assert (Hna : number f ∉ map number adds) by (apply Hn; by apply list_elem_of_fmap_2).
        assert (Hin : f ∈ map seeded files) by (apply Hm; split; [done|]; intros ?; apply Hdel; tauto).
        apply elem_of_seeded in Hin as (g & Hg & ->). exists g. split; [|done]. apply (saved_after dels adds); [done|]. split; [by right|].
        intros Hgd. change (number (seeded g)) with (number g) in *. tauto.
      * exists f. split; [|by rewrite Hadds]. apply (saved_after dels adds); [done|]. split; [by left|]. intros _. by apply list_elem_of_fmap_2.
Qed.

(** without overlaps, files in order are before each other *)
Lemma in_order_before fs :
  Forall file_ok fs -> in_order fs -> NoDup (map number fs) ->
  (forall f g, f ∈ fs -> g ∈ fs -> number f <> number g -> file_before f g \/ file_before g f) -> StronglySorted file_before fs.
Proof.
  intros Hok Hs. induction Hs as [|f fs Hs IH Hf]; intros Hn Hb; [constructor|]. apply list.Forall_cons in Hok as [Hfo Hok].
  cbn [map] in Hn. apply list.NoDup_cons in Hn as [Hnf Hn]. constructor; [apply IH; [done|done|]; intros g h Hg Hh; apply Hb; by right|].
  rewrite list.Forall_forall in Hok, Hf |- *. intros g Hg. destruct (Hb f g) as [|Hgf]; [by left|by right| |done|].
  { intros En. apply Hnf. rewrite En. by apply list_elem_of_fmap_2. }
  exfalso. specialize (Hok g Hg). specialize (Hf g Hg). destruct Hfo as (H1 & _ & _), Hok as (H2 & H3 & H4). unfold file_before in Hgf.
  pose proof (ikey_cmp_le_lt _ _ _ H2 H3 H1 H4 Hgf) as Hlt. pose proof (ikey_cmp_antisym _ _ H2 H1). destruct Hf as [Hf|[Hf _]]; lia.
Qed.
