(* ===== verification/Manifest.v ===== *)
(** * Manifest: the version set on disk

    CURRENT names a manifest, the log of the edits that made the current
    version.  [LogAndApply] keeps the log the version set's, and [Recover] reads
    it back. *)

From Stdlib.Strings Require Import Byte.
From Stdlib.Sorting Require Import Sorted.
From stdpp Require Import gmap sorting.
From S2P Require Import Prelude Status Coding DbFormat WriteBatch Crc32c Log LogSpec Block BlockSpec TableSpec VersionEdit Version VersionSpec Env Filename VersionSet VersionSetSpec.

(** ** What a log writer does to its file *)

Section Keeps.
Context {F : Type} `{WritableFile F} `{Machine}.
Context (Q : F -> Prop) (Q_Append : forall f bs, Q f -> Q (file_Append f bs).1) (Q_Flush : forall f, Q f -> Q (file_Flush f).1).

Lemma EmitPhysicalRecord_keeps (w w' : log_Writer F) t ptr b :
  EmitPhysicalRecord w t ptr = Done (w', b) -> Q (dest_ w) -> Q (dest_ w').
Proof.
  unfold EmitPhysicalRecord. intros E Hq. do 4 apply outcome_bind_done in E as (? & _ & E). cbv zeta in E.
  match type of E with context [file_Append (dest_ w) ?b] => pose proof (Q_Append (dest_ w) b Hq) as H1; destruct (file_Append (dest_ w) b) as [f1 s1] end.
  cbn [fst] in H1. destruct s1; [|by injection E as <- <-].
  pose proof (Q_Append f1 ptr H1) as H2. destruct (file_Append f1 ptr) as [f2 s2]. cbn [fst] in H2. destruct s2; [|by injection E as <- <-].
  pose proof (Q_Flush f2 H2) as H3. destruct (file_Flush f2) as [f3 s3]. by injection E as <- <-.
Qed.

Lemma AddRecord_loop_keeps fuel (w w' : log_Writer F) ptr begin_ b :
  AddRecord_loop fuel w ptr begin_ = Done (w', b) -> Q (dest_ w) -> Q (dest_ w').
Proof.
  revert w ptr begin_; induction fuel as [|fuel IH]; intros w ptr begin_ E Hq; [done|]. cbn [AddRecord_loop] in E.
  apply outcome_bind_done in E as ([] & _ & E). set (w1 := if _ <? kHeaderSize then _ else w) in E.
  assert (Hq1 : Q (dest_ w1)) by (unfold w1; destruct (_ <? kHeaderSize); [|done]; cbn [dest_ with_dest]; destruct (0 <? _); [by apply Q_Append|done]).
  clearbody w1. apply outcome_bind_done in E as ([] & _ & E). apply outcome_bind_done in E as ([w2 s] & E1 & E).
  pose proof (EmitPhysicalRecord_keeps _ _ _ _ _ E1 Hq1) as Hq2. destruct (s && _); [by eapply IH|by injection E as <- <-].
Qed.

Lemma AddRecord_keeps (w w' : log_Writer F) slice b : AddRecord w slice = Done (w', b) -> Q (dest_ w) -> Q (dest_ w').
Proof. apply AddRecord_loop_keeps. Qed.
End Keeps.

Lemma log_bytes_snoc pos rs ends out r out' :
  log_bytes pos rs ends out -> fragments (pos + blen out) true r out' ->
  log_bytes pos (rs ++ [r]) (ends ++ [pos + blen out + blen out']) (out ++ out').
Proof.
  induction 1 as [pos|pos d rs ends out rest Hf Hl IH]; intros Hr.
  - rewrite blen_nil, Z.add_0_r in *. cbn [app]. rewrite <- (app_nil_r out'). rewrite app_nil_r at 1. constructor; [done|]. constructor.
  - rewrite blen_app in Hr |- *. rewrite Z.add_assoc in Hr |- *. cbn [app]. rewrite <- app_assoc. constructor; [done|]. by apply IH.
Qed.

Lemma log_bytes_ends_le pos rs ends out e : log_bytes pos rs ends out -> e ∈ ends -> e <= pos + blen out.
Proof.
  induction 1 as [pos|pos r rs ends out rest Hf Hl IH]; [by intros ?%not_elem_of_nil|].
  pose proof (blen_nonneg rest). rewrite blen_app, elem_of_cons. intros [->|He]; [lia|]. specialize (IH He). lia.
Qed.

(** ** Reading a manifest *)

(** the records change the state, each with a good status *)
Inductive reads : manifest_state -> list bytes -> manifest_state -> Prop :=
  | reads_nil m : reads m [] m
  | reads_cons m r rs m1 m' : manifest_record m r = Done m1 -> ms_s m1 = OK -> reads m1 rs m' -> reads m (r :: rs) m'.

Lemma reads_snoc m rs m1 r m2 : reads m rs m1 -> manifest_record m1 r = Done m2 -> ms_s m2 = OK -> reads m (rs ++ [r]) m2.
Proof. induction 1; intros E Hs; [eapply reads_cons; [done..|constructor]|]. eapply reads_cons; [done..|by apply IHreads]. Qed.

Lemma reads_status m rs m' : reads m rs m' -> ms_s m = OK -> ms_s m' = OK.
Proof. induction 1; [done|]. intros _. by apply IHreads. Qed.

Lemma reads_app m rs rs' m' : reads m (rs ++ rs') m' -> exists m1, reads m rs m1 /\ reads m1 rs' m'.
Proof.
  revert m; induction rs as [|r rs IH]; intros m Hr; [exists m; split; [constructor|done]|]. inversion_clear Hr as [|? ? ? m1 ? E Hs Hr'].
  destruct (IH m1 Hr') as (m2 & H1 & H2). exists m2. split; [by eapply reads_cons|done].
Qed.

Section Read.
Context {G : Type} `{SequentialFileOk G} `{MachineOk}.

(** the reader gives the records that are whole *)
Lemma read_manifest_spec pos rs ends out :
  log_bytes pos rs ends out -> forall fuel (reader : log_Reader G) n m m',
  forall cnt, reads m rs m' -> ms_s m = OK -> reader_at reader pos (take n out) (Some []) -> (length (take n out) < fuel)%nat ->
  (length rs < cnt)%nat -> exists k mk, read_manifest fuel cnt reader m = Done mk /\ whole_records pos ends n k /\ reads m (take k rs) mk.
Proof.
  assert (Hnone : forall m, ms_reported m [] = m) by (intros m; unfold ms_reported; by destruct (ms_s m)).
  induction 1 as [pos|pos d rs ends out rest Hf Hl IH]; intros fuel reader n m m' [|cnt] Hm Hs Hr Hfu Hcnt; cbn [length] in Hcnt; try lia.
  - rewrite take_nil in Hr. destruct (ReadRecord_nil fuel reader pos (Some []) Hr) as (r' & E & Hrep); [lia|].
    exists 0%nat, m. cbn [read_manifest]. rewrite E. cbn [mbind outcome_bind]. rewrite Hrep. cbn [default]. rewrite Hnone.
    split; [done|]. split; [apply whole_records_nil|constructor].
  - destruct (ReadRecord_cons fuel reader pos d out rest n (Some []) Hf Hr Hfu) as (r1 & Hrep & Hread).
    pose proof (fun k => whole_records_cons pos d out rs ends rest n k Hf Hl) as Hwhole.
    inversion_clear Hm as [|? ? ? m1 ? E1 Hs1 Hm1]. destruct (decide (length out <= n)%nat) as [Hn|Hn].
    + destruct Hread as (E & Hr1 & Hfu1). destruct (IH fuel r1 (n - length out)%nat m1 m' cnt Hm1 Hs1 Hr1 Hfu1 ltac:(lia)) as (k & mk & Ek & Hk & Hmk).
      exists (S k), mk. cbn [read_manifest]. rewrite E. cbn [mbind outcome_bind]. rewrite Hrep. cbn [default].
      rewrite Hnone, bool_decide_eq_true_2 by done. rewrite E1. cbn [mbind outcome_bind]. split; [exact Ek|].
      split; [apply Hwhole; by exists k|]. cbn [take]. by eapply reads_cons.
    + exists 0%nat, m. cbn [read_manifest]. rewrite Hread. cbn [mbind outcome_bind]. rewrite Hrep. cbn [default]. rewrite Hnone.
      split; [done|]. split; [by apply Hwhole|constructor].
Qed.

(** a whole manifest is read whole *)
Lemma read_whole_manifest rs ends out (g : G) fuel n m m' :
  log_bytes 0 rs ends out -> reads m rs m' -> ms_s m = OK -> unread g = out -> blen out < 2 ^ 64 -> (length out < fuel)%nat -> (length rs < n)%nat ->
  read_manifest fuel n (make_Reader g (Some []) true 0) m = Done m'.
Proof.
  intros Hl Hm Hs Hg Hb Hfu Hcnt. pose proof (make_Reader_at g (Some []) true) as Hr. rewrite Hg in Hr. specialize (Hr Hb).
  rewrite <- (take_ge out (length out)) in Hr, Hfu by lia.
  destruct (read_manifest_spec 0 rs ends out Hl fuel _ (length out) m m' n Hm Hs Hr Hfu Hcnt) as (k & mk & -> & [Hk Hw] & Hmk).
  assert (k = length rs) as ->.
  { pose proof (log_bytes_length _ _ _ _ Hl) as El. destruct (decide (k = length rs)) as [|Hne]; [done|]. exfalso.
    destruct (lookup_lt_is_Some_2 ends k) as [e He]; [lia|]. pose proof (log_bytes_ends_le _ _ _ _ e Hl ltac:(by eapply list_elem_of_lookup_2)) as He'. unfold blen in He'.
    destruct (Hw k e He) as [Hlt _]. lia. }
  rewrite take_ge in Hmk by lia. f_equal. revert Hmk Hm. clear. intros H1. revert m'; induction H1; intros m2 H2; inversion H2; subst; [done|]. apply IHreads. congruence.
Qed.
End Read.

(** ** The records of a manifest *)

Definition initial_manifest : manifest_state :=
  {| ms_s := OK; ms_pointers := replicate (Z.to_nat kNumLevels) []; ms_levels := Builder.make_Builder;
     ms_log := None; ms_prev := None; ms_next := None; ms_last := None |}.

Definition or_else {A} (has : bool) (x : A) (o : option A) : option A := if has then Some x else o.

(** the state after an edit *)
Definition after_record (m : manifest_state) (e : VersionEdit) (levels : list Builder.LevelState) : manifest_state :=
  {| ms_s := OK; ms_pointers := set_pointers (compact_pointers_ e) (ms_pointers m); ms_levels := levels;
     ms_log := or_else (has_log_number_ e) (log_number_ e) (ms_log m);
     ms_prev := or_else (has_prev_log_number_ e) (prev_log_number_ e) (ms_prev m);
     ms_next := or_else (has_next_file_number_ e) (next_file_number_ e) (ms_next m);
     ms_last := or_else (has_last_sequence_ e) (last_sequence_ e) (ms_last m) |}.

Definition named (e : VersionEdit) : Prop := has_comparator_ e = true -> comparator_ e = comparator_Name.

Lemma manifest_record_spec m e :
  edit_ok e -> named e -> edit_fits e (ms_levels m) -> levels_ok (ms_levels m) -> length (ms_pointers m) = Z.to_nat kNumLevels ->
  exists enc levels, EncodeTo e [] = Done enc /\ manifest_record m enc = Done (after_record m e levels) /\ levels_ok levels /\
    length (set_pointers (compact_pointers_ e) (ms_pointers m)) = Z.to_nat kNumLevels /\
    forall i st st', ms_levels m !! i = Some st -> levels !! i = Some st' ->
      level_applied (at_ i (deleted_files_ e)) (news i (new_files_ e)) st st'.
Proof.
  intros He Hn Hfit Hok Hp. destruct (edit_decoded make_VersionEdit e He) as [Ee Ed].
  assert (Ew : with_lists e (compact_pointers_ make_VersionEdit ++ compact_pointers_ e) (deleted_files_ e) (new_files_ e) = e) by (by destruct e).
  rewrite Ew in Ed. destruct (Apply_spec e (ms_pointers m) (ms_levels m) Hok Hp Hfit) as (levels & Ea & Hok' & Hlen & Happ).
  eexists _, levels. split; [exact Ee|]. unfold manifest_record. rewrite Ed. cbn [mbind outcome_bind].
  assert (Hc : bool_decide (OK = OK) && has_comparator_ e && negb (bool_decide (comparator_ e = comparator_Name)) = false).
  { unfold named in Hn. destruct (has_comparator_ e); [|by rewrite andb_false_r]. by rewrite (bool_decide_eq_true_2 (comparator_ e = _)) by (by apply Hn). }
  rewrite Hc. rewrite bool_decide_eq_true_2 by done. rewrite Ea. cbn [mbind outcome_bind]. done.
Qed.

(** what a new file of an edit and a file of a version are to the encoding *)
Definition meta_fits (level : Z) (f : FileMetaData) : Prop := field_ok (FNew level f).

Lemma Forall_fields e :
  Forall field_ok (fields e) <->
    (has_comparator_ e = true -> blen (comparator_ e) < 2 ^ 32) /\ (has_log_number_ e = true -> 0 <= log_number_ e < 2 ^ 64) /\
    (has_prev_log_number_ e = true -> 0 <= prev_log_number_ e < 2 ^ 64) /\
    (has_next_file_number_ e = true -> 0 <= next_file_number_ e < 2 ^ 64) /\
    (has_last_sequence_ e = true -> 0 <= last_sequence_ e < 2 ^ 64) /\
    Forall (fun p : Z * bytes => in_range p.1 /\ key_fits p.2) (compact_pointers_ e) /\
    Forall (fun p : Z * Z => in_range p.1 /\ 0 <= p.2 < 2 ^ 64) (deleted_files_ e) /\
    Forall (fun p : Z * FileMetaData => meta_fits p.1 p.2) (new_files_ e).
Proof.
  assert (Hf : forall (has : bool) f, Forall field_ok (number_field has f) <-> (has = true -> field_ok f)).
  { intros [] f; cbn [number_field]; [rewrite list.Forall_singleton; tauto|]. split; [done|constructor]. }
  unfold fields. rewrite !list.Forall_app, !Hf, !list.Forall_fmap. done.
Qed.

(** *** The snapshot *)

(** a file as the edit holds it *)
Definition fresh_meta (f : FileMetaData) : FileMetaData := with_seeks f (Z.shiftl 1 30).
Fixpoint snap_files (levels : list (list FileMetaData)) (level : Z) : list (Z * FileMetaData) :=
  match levels with [] => [] | fs :: levels' => map (fun f => (level, fresh_meta f)) fs ++ snap_files levels' (level + 1) end.
Fixpoint snap_pointers (pointers : list bytes) (level : Z) : list (Z * bytes) :=
  match pointers with
  | [] => []
  | p :: pointers' => (if bool_decide (p = []) then [] else [(level, p)]) ++ snap_pointers pointers' (level + 1)
  end.

Lemma snapshot_files_spec levels level e :
  snapshot_files levels level e = with_lists e (compact_pointers_ e) (deleted_files_ e) (new_files_ e ++ snap_files levels level).
Proof.
  revert level e; induction levels as [|fs levels IH]; intros level e; cbn [snapshot_files snap_files]; [rewrite app_nil_r; by destruct e|].
  assert (Hf : foldl (fun e f => AddFile level (number f) (file_size f) (smallest f) (largest f) e) e fs =
    with_lists e (compact_pointers_ e) (deleted_files_ e) (new_files_ e ++ map (fun f => (level, fresh_meta f)) fs)).
  { clear. revert e; induction fs as [|f fs IH]; intros e; cbn [foldl map]; [rewrite app_nil_r; by destruct e|].
    rewrite IH. unfold AddFile, add_new_file. cbn [with_lists compact_pointers_ deleted_files_ new_files_]. by rewrite <- app_assoc. }
  rewrite IH, Hf. cbn [with_lists compact_pointers_ deleted_files_ new_files_]. by rewrite <- app_assoc.
Qed.

Lemma snapshot_pointers_spec pointers level e :
  snapshot_pointers pointers level e = with_lists e (compact_pointers_ e ++ snap_pointers pointers level) (deleted_files_ e) (new_files_ e).
Proof.
  revert level e; induction pointers as [|p pointers IH]; intros level e; cbn [snapshot_pointers snap_pointers]; [rewrite app_nil_r; by destruct e|].
  rewrite IH. case_bool_decide; [done|]. unfold SetCompactPointer. cbn [with_lists compact_pointers_ deleted_files_ new_files_ InternalKey_DecodeFrom fst].
  by rewrite <- app_assoc.
Qed.

Lemma at_map_other {B} i level (g : FileMetaData -> B) fs l :
  at_ i (map (fun f => (level, g f)) fs ++ l) = (if decide (level = Z.of_nat i) then map g fs else []) ++ at_ i l.
Proof.
  induction fs as [|f fs IH]; [by case_decide|]. cbn [map app]. rewrite at_cons, IH. by case_decide.
Qed.

Lemma news_snap i levels k :
  news i (snap_files levels (Z.of_nat k)) = if decide (k <= i)%nat then map seeded (default [] (levels !! (i - k)%nat)) else [].
Proof.
  revert k; induction levels as [|fs levels IH]; intros k; [by case_decide|]. cbn [snap_files]. unfold news. rewrite at_map_other, map_app.
  replace (Z.of_nat k + 1) with (Z.of_nat (S k)) by lia. fold (news i (snap_files levels (Z.of_nat (S k)))). rewrite IH.
  destruct (decide (Z.of_nat k = Z.of_nat i)) as [Ek|Ek].
  - assert (k = i) as -> by lia. rewrite decide_False, decide_True, Nat.sub_diag, app_nil_r by lia. cbn. rewrite map_map. by apply map_ext.
  - cbn [map app]. destruct (decide (S k <= i)%nat) as [Hk|Hk]; [|by rewrite decide_False by lia].
    rewrite decide_True by lia. by replace (i - k)%nat with (S (i - S k)) by lia.
Qed.

Lemma snap_pointers_set pointers k cp :
  length cp = (k + length pointers)%nat -> (forall i, (k <= i)%nat -> (i < length cp)%nat -> cp !! i = Some []) ->
  set_pointers (snap_pointers pointers (Z.of_nat k)) cp = take k cp ++ pointers.
Proof.
  revert k cp; induction pointers as [|p pointers IH]; intros k cp Hlen Hcp; cbn [snap_pointers length] in *.
  { rewrite app_nil_r, take_ge by lia. done. }
  assert (Hk : cp !! k = Some []) by (apply Hcp; lia). replace (Z.of_nat k + 1) with (Z.of_nat (S k)) by lia.
  unfold set_pointers. rewrite foldl_app.
  assert (Hf : foldl (fun cp (p : Z * bytes) => <[Z.to_nat p.1 := p.2]> cp) cp (if bool_decide (p = []) then [] else [(Z.of_nat k, p)]) = <[k := p]> cp).
  { case_bool_decide as Ep; cbn [foldl fst snd]; [|by rewrite Nat2Z.id]. subst p. by rewrite list_insert_id. }
  rewrite Hf. fold (set_pointers (snap_pointers pointers (Z.of_nat (S k))) (<[k:=p]> cp)). rewrite IH.
  - rewrite (take_S_r _ _ p) by (apply list_lookup_insert_eq; lia). rewrite take_insert_ge by lia. by rewrite <- app_assoc.
  - rewrite length_insert. lia.
  - intros i Hi. rewrite length_insert. intros Hil. rewrite list_lookup_insert_ne by lia. apply Hcp; lia.
Qed.

(** ** The version set and its manifest *)

Section Set_.
Context {F : Type}.
Implicit Types vs : VersionSet F.

(** what the version set holds can be written to a manifest *)
Record version_fits vs : Prop := {
  vf_length : length (files_ (current_ vs)) = Z.to_nat kNumLevels;
  vf_files i files : files_ (current_ vs) !! i = Some files -> level_files_ok files /\ Forall (meta_fits (Z.of_nat i)) files;
  vf_before i files : files_ (current_ vs) !! S i = Some files -> StronglySorted file_before files;
  vf_pointers : length (compact_pointer_ vs) = Z.to_nat kNumLevels /\ Forall (fun p => p = [] \/ key_fits p) (compact_pointer_ vs) }.

(** the records read so far make the files of a version *)
Record makes (m : manifest_state) (v : Version) : Prop := {
  mb_ok : ms_s m = OK;
  mb_levels : levels_ok (ms_levels m);
  mb_files i st files : ms_levels m !! i = Some st -> files_ v !! i = Some files -> level_matches st files }.

(** an edit the version set can log: its files are new to their levels, and do
    not overlap there, but for level 0 *)
Record edit_good (m : manifest_state) vs (e : VersionEdit) : Prop := {
  eg_edit : edit_ok e;
  eg_comparator : has_comparator_ e = false;
  eg_log : has_log_number_ e = true -> vs_log_number vs <= log_number_ e < vs_next_file_number vs;
  eg_new : Forall (fun p : Z * FileMetaData => file_ok p.2) (new_files_ e);
  eg_fresh i st : ms_levels m !! i = Some st -> NoDup (map number (Builder.added_files st) ++ map number (news i (new_files_ e)));
  eg_disjoint i files : files_ (current_ vs) !! S i = Some files -> forall f g,
    after_edit (at_ (S i) (deleted_files_ e)) (news (S i) (new_files_ e)) files f ->
    after_edit (at_ (S i) (deleted_files_ e)) (news (S i) (new_files_ e)) files g -> number f <> number g ->
    file_before f g \/ file_before g f }.

Lemma length_make_Builder : length Builder.make_Builder = Z.to_nat kNumLevels.
Proof. apply length_replicate. Qed.
Lemma make_Builder_ok : levels_ok Builder.make_Builder.
Proof. split; [apply length_make_Builder|]. intros i st [-> _]%lookup_replicate_1. apply level_files_nil. Qed.
Lemma make_Builder_lookup i st : Builder.make_Builder !! i = Some st -> st = empty_level.
Proof. by intros [-> _]%lookup_replicate_1. Qed.

Lemma elem_of_news i l f : f ∈ news i l -> exists g, (Z.of_nat i, g) ∈ l /\ f = seeded g.
Proof.
  unfold news, at_. intros (g & -> & Hg)%list_elem_of_fmap. exists g. split; [|done].
  apply list_elem_of_fmap in Hg as ([lv h] & -> & [Ep Hin]%list_elem_of_filter). cbn in Ep. by subst lv.
Qed.

Lemma news_seeded i l f : f ∈ news i l -> seeded f = f.
Proof. by intros (g & _ & ->)%elem_of_news. Qed.

Lemma edit_fits_good m vs e levels :
  edit_good m vs e -> (forall i st, levels !! i = Some st -> NoDup (map number (Builder.added_files st) ++ map number (news i (new_files_ e)))) ->
  edit_fits e levels.
Proof.
  intros [He _ _ Hnew _ _] Hn. destruct (proj1 (Forall_fields e) (eo_fields _ He)) as (_ & _ & _ & _ & _ & Hp & Hd & Hf). split.
  - eapply list.Forall_impl; [exact Hp|]. intros [lv k] [? [? _]]. done.
  - eapply list.Forall_impl; [exact Hd|]. by intros [lv k] [? _].
  - split; [|done]. rewrite list.Forall_forall in Hf, Hnew |- *. intros p Hp'. split; [|by apply Hnew]. by destruct (Hf p Hp') as [? _].
Qed.

(** the builder over the current version saves the version after the edit *)
Lemma save_edit m vs e :
  version_fits vs -> makes m (current_ vs) -> edit_good m vs e ->
  exists levels v, Builder.Apply e (compact_pointer_ vs) Builder.make_Builder = Done (set_pointers (compact_pointers_ e) (compact_pointer_ vs), levels) /\
    Builder.SaveTo (current_ vs) levels = Done v /\ length (files_ v) = Z.to_nat kNumLevels /\
    forall i files, files_ (current_ vs) !! i = Some files -> exists b, files_ v !! i = Some (saved b files) /\
      level_applied (at_ i (deleted_files_ e)) (news i (new_files_ e)) empty_level b /\
      level_files_ok (saved b files) /\ ((0 < i)%nat -> StronglySorted file_before (saved b files)).
Proof.
  intros Hv Hm He. pose proof (vf_length _ Hv) as Hlen. destruct (vf_pointers _ Hv) as [Hplen _].
  assert (Hst : forall i, (i < Z.to_nat kNumLevels)%nat -> exists st, ms_levels m !! i = Some st).
  { intros i Hi. apply lookup_lt_is_Some. by rewrite (proj1 (mb_levels _ _ Hm)). }
  assert (Hfit : edit_fits e Builder.make_Builder).
  { eapply edit_fits_good; [exact He|]. intros i st Hi. destruct (Hst i) as [st' Hst']; [apply lookup_lt_Some in Hi; by rewrite length_make_Builder in Hi|].
    rewrite (make_Builder_lookup _ _ Hi). cbn. pose proof (eg_fresh _ _ _ He i st' Hst') as Hn. by apply list.NoDup_app in Hn as (_ & _ & Hn). }
  destruct (Apply_spec e (compact_pointer_ vs) _ make_Builder_ok Hplen Hfit) as (levels & Ea & Hlok & _ & Happ).
  assert (Hlv : forall i files, files_ (current_ vs) !! i = Some files -> exists b, levels !! i = Some b /\
      level_applied (at_ i (deleted_files_ e)) (news i (new_files_ e)) empty_level b /\
      level_files_ok (saved b files) /\ ((0 < i)%nat -> StronglySorted file_before (saved b files))).
  { intros i files Hi. pose proof (lookup_lt_Some _ _ _ Hi) as Hlt. rewrite Hlen in Hlt. destruct (Hst i Hlt) as [st Hsti].
    destruct (lookup_lt_is_Some_2 levels i) as [b Hb]; [by rewrite (proj1 Hlok)|]. exists b. split; [done|].
    assert (Happ' : level_applied (at_ i (deleted_files_ e)) (news i (new_files_ e)) empty_level b).
    { destruct (lookup_lt_is_Some_2 Builder.make_Builder i) as [st0 Hst0]; [by rewrite length_make_Builder|].
      rewrite <- (make_Builder_lookup _ _ Hst0). by apply (Happ i). }
    pose proof (mb_files _ _ Hm i st files Hsti Hi) as Hmat. split; [done|].
    assert (Hsok : level_files_ok (saved b files)).
    { apply saved_ok; [by apply (proj2 Hlok i)|by apply Hmat|]. intros f Hf Hin. apply (la_added _ _ _ _ Happ') in Hf as [Hf|Hf]; [by apply elem_of_nil in Hf|].
      pose proof (eg_fresh _ _ _ He i st Hsti) as Hn. apply list.NoDup_app in Hn as (_ & Hn & _).
      eapply Hn; [by eapply level_matches_numbers|]. by apply list_elem_of_fmap_2. }
    split; [done|]. intros Hi0. destruct i as [|i]; [lia|]. destruct Hsok as [Hok Hs Hnd]. apply in_order_before; try done.
    intros f g Hf Hg Hne. apply (saved_after _ _ _ _ _ Happ') in Hf, Hg. by eapply (eg_disjoint _ _ _ He i files). }
  exists levels, {| files_ := zip_with saved levels (files_ (current_ vs)); file_to_compact_ := None; file_to_compact_level_ := -1 |}.
  split; [done|]. split; [|split].
  - apply SaveTo_spec; [rewrite Hlen; symmetry; apply Hlok|]. intros i st files Hi Hf. destruct (Hlv i files Hf) as (b & Hb & _ & _ & Hs).
    assert (b = st) as -> by congruence. split; [by apply (proj2 Hlok i)|]. split; [by apply (vf_files _ Hv i)|done].
  - cbn [files_]. rewrite length_zip_with_l_eq; [apply Hlok|]. rewrite Hlen. apply Hlok.
  - intros i files Hi. destruct (Hlv i files Hi) as (b & Hb & Hrest). exists b. split; [|done]. cbn [files_]. by rewrite lookup_zip_with, Hb, Hi.
Qed.

Lemma set_pointers_fit ps cp :
  Forall (fun p : Z * bytes => in_range p.1 /\ key_fits p.2) ps -> Forall (fun p => p = [] \/ key_fits p) cp ->
  Forall (fun p => p = [] \/ key_fits p) (set_pointers ps cp).
Proof.
  intros Hps. revert cp; induction Hps as [|[lv k] ps [_ Hk] _ IH]; intros cp Hcp; [done|]. apply IH. apply Forall_insert; [done|by right].
Qed.

(** the version set after the edit *)
Lemma edit_keeps m vs vs' e levels :
  version_fits vs -> makes m (current_ vs) -> edit_good m vs e -> levels_ok levels ->
  (forall i st st', ms_levels m !! i = Some st -> levels !! i = Some st' ->
    level_applied (at_ i (deleted_files_ e)) (news i (new_files_ e)) st st') ->
  length (files_ (current_ vs')) = Z.to_nat kNumLevels ->
  (forall i files, files_ (current_ vs) !! i = Some files -> exists b, files_ (current_ vs') !! i = Some (saved b files) /\
      level_applied (at_ i (deleted_files_ e)) (news i (new_files_ e)) empty_level b /\
      level_files_ok (saved b files) /\ ((0 < i)%nat -> StronglySorted file_before (saved b files))) ->
  compact_pointer_ vs' = set_pointers (compact_pointers_ e) (compact_pointer_ vs) ->
  version_fits vs' /\ makes (after_record m e levels) (current_ vs').
Proof.
  intros Hv Hm He Hlok Happ Hlen Hfiles Hptr.
  assert (Hback : forall i files', files_ (current_ vs') !! i = Some files' -> exists files, files_ (current_ vs) !! i = Some files).
  { intros i files' Hi. apply lookup_lt_is_Some. apply lookup_lt_Some in Hi. rewrite (vf_length _ Hv). congruence. }
  destruct (proj1 (Forall_fields e) (eo_fields _ (eg_edit _ _ _ He))) as (_ & _ & _ & _ & _ & Hp & _ & Hf).
  destruct (vf_pointers _ Hv) as [Hplen Hpf]. split; split.
  - done.
  - intros i files' Hi. destruct (Hback i files' Hi) as [files Hfi]. destruct (Hfiles i files Hfi) as (b & Hb & Ha & Hok & _).
    assert (files' = saved b files) as -> by congruence. split; [done|]. apply list.Forall_forall. intros f Hin.
    apply (saved_after _ _ _ _ _ Ha) in Hin as [[Hin|Hin] _].
    + apply elem_of_news in Hin as (g & Hg & ->). rewrite list.Forall_forall in Hf. exact (Hf _ Hg).
    + destruct (vf_files _ Hv i files Hfi) as [_ Hfit]. rewrite list.Forall_forall in Hfit. by apply Hfit.
  - intros i files' Hi. destruct (Hback _ files' Hi) as [files Hfi]. destruct (Hfiles _ files Hfi) as (b & Hb & _ & _ & Hs).
    assert (files' = saved b files) as -> by congruence. apply Hs. lia.
  - rewrite Hptr. split; [|by apply set_pointers_fit]. apply apply_pointers_spec; [done|]. eapply list.Forall_impl; [exact Hp|].
    intros [lv k] [? [? _]]. done.
  - done.
  - done.
  - cbn [ms_levels after_record]. intros i st' files' Hst' Hi. destruct (Hback i files' Hi) as [files Hfi].
    destruct (Hfiles i files Hfi) as (b & Hb & Ha & _ & _). assert (files' = saved b files) as -> by congruence.
    destruct (lookup_lt_is_Some_2 (ms_levels m) i) as [st Hst].
    { rewrite (proj1 (mb_levels _ _ Hm)), <- (vf_length _ Hv). by apply lookup_lt_Some in Hfi. }
    eapply level_matches_applied; [by eapply (mb_files _ _ Hm i)|apply news_seeded|by apply (eg_fresh _ _ _ He i)|by apply (Happ i)|done].
Qed.

Lemma snapshot_edit_fields vs :
  snapshot_edit vs = with_lists (SetComparatorName comparator_Name make_VersionEdit)
    (snap_pointers (compact_pointer_ vs) 0) [] (snap_files (files_ (current_ vs)) 0).
Proof. unfold snapshot_edit. by rewrite snapshot_files_spec, snapshot_pointers_spec. Qed.

Lemma elem_of_snap_files p levels k :
  p ∈ snap_files levels (Z.of_nat k) -> exists i files f, levels !! i = Some files /\ f ∈ files /\ p = (Z.of_nat (k + i), fresh_meta f).
Proof.
  revert k; induction levels as [|fs levels IH]; intros k; cbn [snap_files]; [by intros ?%elem_of_nil|].
  intros [Hp|Hp]%elem_of_app.
  - apply list_elem_of_fmap in Hp as (f & -> & Hf). exists 0%nat, fs, f. by rewrite Nat.add_0_r.
  - replace (Z.of_nat k + 1) with (Z.of_nat (S k)) in Hp by lia. destruct (IH _ Hp) as (i & files & f & Hi & Hf & ->).
    exists (S i), files, f. split; [done|]. split; [done|]. f_equal. lia.
Qed.

Lemma elem_of_snap_pointers p pointers k :
  p ∈ snap_pointers pointers (Z.of_nat k) -> exists i, pointers !! i = Some p.2 /\ p.1 = Z.of_nat (k + i) /\ p.2 <> [].
Proof.
  revert k; induction pointers as [|q pointers IH]; intros k; cbn [snap_pointers]; [by intros ?%elem_of_nil|].
  intros [Hp|Hp]%elem_of_app.
  - case_bool_decide; [by apply elem_of_nil in Hp|]. apply list_elem_of_singleton in Hp as ->. exists 0%nat. by rewrite Nat.add_0_r.
  - replace (Z.of_nat k + 1) with (Z.of_nat (S k)) in Hp by lia. destruct (IH _ Hp) as (i & Hi & Ep & Hne). exists (S i).
    split; [done|]. split; [rewrite Ep; lia|done].
Qed.

Lemma snapshot_edit_ok vs : version_fits vs -> edit_ok (snapshot_edit vs) /\ edit_fits (snapshot_edit vs) Builder.make_Builder.
Proof.
  intros Hv. rewrite snapshot_edit_fields. destruct (vf_pointers _ Hv) as [Hplen Hpf]. rewrite list.Forall_lookup in Hpf.
  assert (Hp : Forall (fun p : Z * bytes => in_range p.1 /\ key_fits p.2) (snap_pointers (compact_pointer_ vs) 0)).
  { apply list.Forall_forall. intros p Hp. apply (elem_of_snap_pointers _ _ 0) in Hp as (i & Hi & -> & Hne). split.
    - apply lookup_lt_Some in Hi. unfold in_range, kNumLevels in *. lia.
    - by destruct (Hpf i _ Hi). }
  assert (Hf : Forall (fun p : Z * FileMetaData => meta_fits p.1 p.2 /\ file_ok p.2 /\ allowed_seeks p.2 = Z.shiftl 1 30) (snap_files (files_ (current_ vs)) 0)).
  { apply list.Forall_forall. intros p Hp'. apply (elem_of_snap_files _ _ 0) in Hp' as (i & files & f & Hi & Hin & ->). cbn [fst snd].
    destruct (vf_files _ Hv i files Hi) as [[Hok _ _] Hfit]. rewrite list.Forall_forall in Hok, Hfit. split; [exact (Hfit f Hin)|].
    split; [exact (Hok f Hin)|done]. }
  split.
  - split; try done.
    + apply Forall_fields. cbn. split; [by intros _; vm_compute|]. do 4 (split; [done|]). split; [done|]. split; [constructor|].
      eapply list.Forall_impl; [exact Hf|]. by intros p (? & _ & _).
    + constructor.
    + eapply list.Forall_impl; [exact Hf|]. by intros p (_ & _ & ?).
  - split; cbn [compact_pointers_ deleted_files_ new_files_ with_lists].
    + eapply list.Forall_impl; [exact Hp|]. intros [lv k] [? [? _]]. done.
    + constructor.
    + split; [eapply list.Forall_impl; [exact Hf|]; intros p ([? _] & ? & _); done|].
      intros i st Hst. rewrite (make_Builder_lookup _ _ Hst). cbn [Builder.added_files empty_level map app].
      rewrite (news_snap i _ 0), decide_True, Nat.sub_0_r, number_seeded by lia.
      destruct (files_ (current_ vs) !! i) as [files|] eqn:Ei; [|constructor]. cbn [default]. by apply (vf_files _ Hv i files Ei).
Qed.

(** the snapshot makes the version *)
Lemma snapshot_reads vs :
  version_fits vs -> exists enc m, EncodeTo (snapshot_edit vs) [] = Done enc /\ manifest_record initial_manifest enc = Done m /\
    makes m (current_ vs) /\ ms_pointers m = compact_pointer_ vs /\
    forall i st files, ms_levels m !! i = Some st -> files_ (current_ vs) !! i = Some files ->
      map number (Builder.added_files st) ≡ₚ map number files.
Proof.
  intros Hv. destruct (snapshot_edit_ok vs Hv) as [Hok Hfit]. destruct (vf_pointers _ Hv) as [Hplen _].
  destruct (manifest_record_spec initial_manifest (snapshot_edit vs) Hok) as (enc & levels & Ee & Er & Hlok & _ & Happ);
    [by rewrite snapshot_edit_fields|done|apply make_Builder_ok|apply length_replicate|].
  exists enc, (after_record initial_manifest (snapshot_edit vs) levels). split; [done|]. split; [done|].
  assert (Hl : forall i st files, levels !! i = Some st -> files_ (current_ vs) !! i = Some files ->
    level_applied [] (map seeded files) empty_level st).
  { intros i st files Hi Hf. destruct (lookup_lt_is_Some_2 Builder.make_Builder i) as [st0 Hst0].
    { rewrite length_make_Builder, <- (proj1 Hlok). by apply lookup_lt_Some in Hi. }
    pose proof (Happ i st0 st Hst0 Hi) as Ha. rewrite (make_Builder_lookup _ _ Hst0), snapshot_edit_fields in Ha.
    cbn [deleted_files_ new_files_ with_lists] in Ha. rewrite (news_snap i _ 0), decide_True, Nat.sub_0_r, Hf in Ha by lia. exact Ha. }
  split; [|split].
  - split; [done|done|]. intros i st files Hi Hf. destruct (Hl i st files Hi Hf) as [Hd Ha _]. split; [by apply (vf_files _ Hv i)|]. intros f. rewrite Ha, Hd.
      cbn [Builder.added_files Builder.deleted_files empty_level]. rewrite !elem_of_nil, elem_of_empty. tauto.
  - cbn [ms_pointers after_record]. rewrite snapshot_edit_fields. cbn [compact_pointers_ with_lists].
      cbn [ms_pointers initial_manifest]. rewrite (snap_pointers_set (compact_pointer_ vs) 0); [done|by rewrite length_replicate|].
      intros i _ Hi. rewrite length_replicate in Hi. by apply lookup_replicate_2.
  - intros i st files Hi Hf. destruct (Hl i st files Hi Hf) as [_ Ha Ho]. rewrite <- (number_seeded files). apply Permutation_map, NoDup_Permutation.
    + eapply NoDup_fmap_1, Ho.
    + eapply NoDup_fmap_1. rewrite number_seeded. by apply (vf_files _ Hv i).
    + intros f. rewrite Ha. cbn [Builder.added_files empty_level]. rewrite elem_of_nil. tauto.
Qed.

(** ** The edit [LogAndApply] logs *)

Definition completed vs (e : VersionEdit) : VersionEdit :=
  let e := if has_log_number_ e then e else SetLogNumber (vs_log_number vs) e in
  let e := if has_prev_log_number_ e then e else SetPrevLogNumber (vs_prev_log_number vs) e in
  SetLastSequence (vs_last_sequence vs) (SetNextFile (vs_next_file_number vs) e).

Record numbers_fit vs : Prop := {
  nu_next : 0 < vs_next_file_number vs < 2 ^ 64; nu_last : 0 <= vs_last_sequence vs < 2 ^ 64;
  nu_manifest : vs_manifest_file_number vs < vs_next_file_number vs;
  nu_log : 0 <= vs_log_number vs < 2 ^ 64; nu_prev : 0 <= vs_prev_log_number vs < 2 ^ 64 }.

Lemma complete_edit_spec m vs e : edit_good m vs e -> complete_edit vs e = Done (completed vs e).
Proof.
  intros He. unfold complete_edit, completed. pose proof (eg_log _ _ _ He) as Hl. destruct (has_log_number_ e) eqn:Eh; [|done].
  destruct (Hl eq_refl) as [H1 H2]. rewrite (proj2 (Z.leb_le _ _) H1). cbn [c_assert mbind outcome_bind].
  by rewrite (proj2 (Z.ltb_lt _ _) H2).
Qed.

(** what completing an edit leaves *)
Lemma completed_lists vs e :
  compact_pointers_ (completed vs e) = compact_pointers_ e /\ deleted_files_ (completed vs e) = deleted_files_ e /\
  new_files_ (completed vs e) = new_files_ e /\ has_comparator_ (completed vs e) = has_comparator_ e /\ comparator_ (completed vs e) = comparator_ e.
Proof. unfold completed. destruct (has_log_number_ e); cbn; destruct (has_prev_log_number_ e); done. Qed.

Lemma completed_numbers vs e :
  has_log_number_ (completed vs e) = true /\ log_number_ (completed vs e) = (if has_log_number_ e then log_number_ e else vs_log_number vs) /\
  has_prev_log_number_ (completed vs e) = true /\
  prev_log_number_ (completed vs e) = (if has_prev_log_number_ e then prev_log_number_ e else vs_prev_log_number vs) /\
  has_next_file_number_ (completed vs e) = true /\ next_file_number_ (completed vs e) = vs_next_file_number vs /\
  has_last_sequence_ (completed vs e) = true /\ last_sequence_ (completed vs e) = vs_last_sequence vs.
Proof.
  unfold completed. destruct (has_log_number_ e) eqn:E1; cbn; rewrite ?E1; destruct (has_prev_log_number_ e) eqn:E2; cbn; rewrite ?E1, ?E2; done.
Qed.

Lemma completed_ok vs e : numbers_fit vs -> edit_ok e -> edit_ok (completed vs e).
Proof.
  intros [Hn Hla _ Hlo Hp] [Hf Hc _ _ _ _ Hs Hse]. apply Forall_fields in Hf as (F1 & F2 & F3 & _ & _ & F6 & F7 & F8).
  destruct (completed_lists vs e) as (E1 & E2 & E3 & E4 & E5), (completed_numbers vs e) as (N1 & N2 & N3 & N4 & N5 & N6 & N7 & N8).
  split; rewrite ?E1, ?E2, ?E3, ?E4, ?E5, ?N1, ?N3, ?N5, ?N7; try done.
  apply Forall_fields. rewrite E1, E2, E3, E4, E5, N2, N4, N6, N8. split; [done|].
  split; [destruct (has_log_number_ e); auto|]. split; [destruct (has_prev_log_number_ e); auto|].
  split; [intros _; lia|]. split; [intros _; lia|]. done.
Qed.

(** an edit is good by its lists *)
Lemma completed_good m vs e :
  numbers_fit vs -> vs_log_number vs < vs_next_file_number vs -> edit_good m vs e -> edit_good m vs (completed vs e).
Proof.
  intros Hn Hlt He. pose proof He as [Hok Hc Hl Hnew Hfresh Hdis].
  destruct (completed_lists vs e) as (E1 & E2 & E3 & E4 & E5), (completed_numbers vs e) as (N1 & N2 & _).
  split; rewrite ?E1, ?E2, ?E3, ?E4; try done; [by apply completed_ok|].
  intros _. rewrite N2. destruct (has_log_number_ e); [by apply Hl|lia].
Qed.
End Set_.

(** ** On disk *)

Section Disk.
Context {E F R G : Type} `{EnvOk E F R G, !Machine, !MachineOk}.
Implicit Types vs : VersionSet F.

(** CURRENT names manifest [num], called [base], whose records [rs], the bytes
    [out], make [m] *)
Record manifest_on_disk (env : E) (dbname : bytes) (num : Z) (base out : bytes) (rs : list bytes) (m : manifest_state) : Prop := {
  md_number : 0 < num < 2 ^ 64;
  md_name : DescriptorFileName dbname num = Done (dbname ++ text "/" ++ base);
  md_stored : stored_file env (dbname ++ text "/" ++ base) = Some out;
  md_current : stored_file env (CurrentFileName dbname) = Some (base ++ [x0a]);
  md_log : exists ends, log_bytes 0 rs ends out;
  md_reads : reads initial_manifest rs m }.

(** the version set writes to that manifest, or will start another *)
Definition descriptor_ok vs (num : Z) (base out : bytes) : Prop :=
  match descriptor_log_ vs with
  | Some log => vs_manifest_file_number vs = num /\ file_name (dest_ log) = vs_dbname vs ++ text "/" ++ base /\
      written (dest_ log) = out /\ writer_at log (blen out)
  | None => 0 < vs_manifest_file_number vs < 2 ^ 64 /\ vs_manifest_file_number vs <> num
  end.

(** the numbers on disk are those of the version set *)
Record numbers_made (m : manifest_state) (num : Z) vs : Prop := {
  nm_log : ms_log m = Some (vs_log_number vs);
  nm_prev : default 0 (ms_prev m) = vs_prev_log_number vs;
  nm_next : exists n, ms_next m = Some n /\ num < n /\ vs_log_number vs < n <= vs_next_file_number vs;
  nm_last : exists l, ms_last m = Some l /\ 0 <= l <= vs_last_sequence vs }.

(** one more record, on disk *)
Lemma write_edit_spec env vs e log name out enc rs ends :
  descriptor_log_ vs = Some log -> file_name (dest_ log) = name -> written (dest_ log) = out -> writer_at log (blen out) ->
  log_bytes 0 rs ends out -> EncodeTo e [] = Done enc ->
  exists env' log' out' ends', write_edit env vs e = Done (env', vs_with_descriptor vs (Some log'), OK) /\
    file_name (dest_ log') = name /\ written (dest_ log') = out' /\ writer_at log' (blen out') /\
    log_bytes 0 (rs ++ [enc]) ends' out' /\ stored_file env' name = Some out' /\
    forall n, n <> name -> stored_file env' n = stored_file env n.
Proof.
  intros Ed En Ew Hw Hl Ee. unfold write_edit. rewrite Ee. cbn [mbind outcome_bind]. rewrite Ed.
  destruct (AddRecord_spec log (blen out) enc Hw) as (log' & o & Ea & Hf & Ew' & Hw'). rewrite Ea. cbn [mbind outcome_bind append_status].
  rewrite bool_decide_eq_true_2 by done.
  assert (En' : file_name (dest_ log') = name).
  { apply (AddRecord_keeps (fun g => file_name g = name)) with (w := log) (slice := enc) (b := true); [intros f bs; by rewrite file_name_Append|intros f; by rewrite file_name_Flush|done|done]. }
  destruct (file_Sync_ok env (dest_ log')) as (env' & -> & Hs & Ho). rewrite En', Ew', Ew in *.
  exists env', log', (out ++ o), (ends ++ [0 + blen out + blen o]). split; [done|]. split; [done|]. split; [done|].
  split; [by rewrite blen_app|]. split; [by apply log_bytes_snoc|]. done.
Qed.

(** the descriptor, and what was written to it *)
Lemma open_descriptor_spec env vs num base out rs m :
  manifest_on_disk env (vs_dbname vs) num base out rs m -> descriptor_ok vs num base out -> version_fits vs ->
  makes m (current_ vs) -> exists env' log base' new out' rs' m', open_descriptor env vs = Done (env', vs_with_descriptor vs (Some log), new, OK) /\
    (new = [] <-> exists l, descriptor_log_ vs = Some l) /\ (new = [] -> out' = out /\ base' = base /\ rs' = rs) /\
    DescriptorFileName (vs_dbname vs) (vs_manifest_file_number vs) = Done (vs_dbname vs ++ text "/" ++ base') /\
    file_name (dest_ log) = vs_dbname vs ++ text "/" ++ base' /\ written (dest_ log) = out' /\ writer_at log (blen out') /\
    (exists ends, log_bytes 0 rs' ends out') /\ reads initial_manifest rs' m' /\ makes m' (current_ vs) /\
    (m' = m \/ ms_pointers m' = compact_pointer_ vs) /\
    (forall i st st' fs, ms_levels m !! i = Some st -> ms_levels m' !! i = Some st' -> files_ (current_ vs) !! i = Some fs ->
      exists l, map number (Builder.added_files st) ≡ₚ map number (Builder.added_files st') ++ l) /\
    0 < vs_manifest_file_number vs < 2 ^ 64 /\
    forall n, n <> vs_dbname vs ++ text "/" ++ base' -> stored_file env' n = stored_file env n.
Proof.
  intros [Hnum Hname Hst Hcur (ends & Hl) Hreads] Hd Hv Hm. unfold descriptor_ok, open_descriptor in *.
  destruct (descriptor_log_ vs) as [log|] eqn:Elog.
  - destruct Hd as (En & Efn & Ew & Hw). exists env, log, base, [], out, rs, m. rewrite En.
    split; [f_equal; destruct vs; cbn in *; by subst|]. split; [split; [by exists log|done]|]. do 5 (split; [done|]).
    split; [by exists ends|]. do 2 (split; [done|]). split; [by left|]. split; [|done]. intros i st st' fs Hi Hi' _. assert (st' = st) as -> by congruence.
    exists []. by rewrite app_nil_r.
  - destruct Hd as [Hnr Hne]. destruct (DescriptorFileName_is (vs_dbname vs) _ Hnr) as (base' & Ed & Hp & Hnl). rewrite Ed. cbn [mbind outcome_bind].
    destruct (NewWritableFile_ok env (vs_dbname vs ++ text "/" ++ base')) as (env1 & f & -> & Hf & Hfn & _ & Ho).
    destruct (make_Writer_at f 0 ltac:(lia)) as (w & -> & Edw & Hw). cbn [mbind outcome_bind].
    destruct (snapshot_reads vs Hv) as (enc & m' & Ee & Er & Hm' & Hptr & Hperm). unfold WriteSnapshot. rewrite Ee. cbn [mbind outcome_bind].
    destruct (AddRecord_spec w 0 enc Hw) as (log & o & Ea & Hfr & Ewr & Hwr). rewrite Ea. cbn [mbind outcome_bind append_status].
    assert (Efn : file_name (dest_ log) = vs_dbname vs ++ text "/" ++ base').
    { apply (AddRecord_keeps (fun g => file_name g = vs_dbname vs ++ text "/" ++ base')) with (w := w) (slice := enc) (b := true);
        [intros g bs; by rewrite file_name_Append|intros g; by rewrite file_name_Flush|done|by rewrite Edw]. }
    rewrite Edw, Hf in Ewr. cbn [app] in Ewr.
    eexists env1, log, base', _, o, [enc], m'. split; [done|]. split.
    { split; [intros Ex; by apply (f_equal length) in Ex; rewrite !length_app in Ex; cbn in Ex; lia|by intros (l & ?)]. }
    split; [intros Ex; exfalso; apply (f_equal length) in Ex; rewrite !length_app in Ex; cbn in Ex; lia|].
    do 3 (split; [done|]). split; [exact Hwr|]. split.
    { exists [0 + blen o]. pose proof (log_cons 0 enc [] [] o [] Hfr (log_nil _)) as Hx. by rewrite app_nil_r in Hx. }
    split; [eapply reads_cons; [done|apply Hm'|constructor]|]. split; [done|]. split; [by right|]. split; [|done].
    intros i st st' fs Hi Hi' Hfs. pose proof (mb_files _ _ Hm i st fs Hi Hfs) as [[_ _ Hnd] Hin].
    assert (Hsub : map seeded fs ⊆+ Builder.added_files st).
    { apply NoDup_submseteq; [eapply NoDup_fmap_1; by rewrite number_seeded|]. intros g Hg. by apply Hin in Hg as [? _]. }
    apply submseteq_Permutation in Hsub as (k & Hk). exists (map number k). by rewrite (Hperm i st' fs Hi' Hfs), Hk, map_app, number_seeded.
Qed.

Lemma set_pointers_lookup ps cp i :
  (forall p, p ∈ ps -> p.1 <> Z.of_nat i /\ 0 <= p.1) -> set_pointers ps cp !! i = cp !! i.
Proof.
  revert cp; induction ps as [|[lv k] ps IH]; intros cp Hp; [done|]. unfold set_pointers. cbn [foldl fst snd].
  fold (set_pointers ps (<[Z.to_nat lv := k]> cp)). rewrite IH by (intros p Hin; apply Hp; by right).
  destruct (Hp (lv, k) ltac:(by left)) as [Hne Hpos]. cbn in Hne, Hpos. rewrite list_lookup_insert_ne by lia. done.
Qed.


Lemma compact_again ps cp1 cp2 :
  Forall (fun p : Z * bytes => in_range p.1 /\ key_fits p.2) ps -> length cp1 = length cp2 ->
  (forall i, (forall p, p ∈ ps -> p.1 <> Z.of_nat i) -> cp1 !! i = cp2 !! i) -> set_pointers ps cp1 = set_pointers ps cp2.
Proof.
  intros Hps. revert cp1 cp2; induction Hps as [|[lv k] ps [Hl _] Hps IH]; intros cp1 cp2 Hlen Heq.
  { apply list_eq. intros i. apply Heq. by intros p ?%elem_of_nil. }
  cbn [fst] in Hl. unfold set_pointers. cbn [foldl fst snd].
  apply (IH (<[Z.to_nat lv := k]> cp1) (<[Z.to_nat lv := k]> cp2)); [by rewrite !length_insert|]. intros i Hi.
  destruct (decide (Z.to_nat lv = i)) as [<-|Hne].
  - destruct (decide (Z.to_nat lv < length cp1)%nat) as [Hlt|Hge].
    + rewrite !list_lookup_insert_eq by congruence. done.
    + rewrite !lookup_ge_None_2; [done|rewrite length_insert; lia..].
  - rewrite !list_lookup_insert_ne by done. apply Heq. intros p [->|Hp]%elem_of_cons; [cbn; unfold in_range in Hl; lia|by apply Hi].
Qed.

(** setting the pointers again changes nothing *)
Lemma set_pointers_twice ps cp :
  Forall (fun p : Z * bytes => in_range p.1 /\ key_fits p.2) ps -> length (set_pointers ps cp) = length cp ->
  set_pointers ps (set_pointers ps cp) = set_pointers ps cp.
Proof.
  intros Hps Hlen. apply compact_again; [done|done|]. intros i Hi. apply set_pointers_lookup. intros p Hp. split; [by apply Hi|].
  rewrite list.Forall_forall in Hps. destruct (Hps p Hp) as [[? _] _]. done.
Qed.

(** what logging an edit does to the version set *)
Record logged vs (e : VersionEdit) vs' : Prop := {
  lg_files i files : files_ (current_ vs) !! i = Some files -> exists files', files_ (current_ vs') !! i = Some files' /\
    forall f, f ∈ files' <-> after_edit (at_ i (deleted_files_ e)) (news i (new_files_ e)) files f;
  lg_config : vs_dbname vs' = vs_dbname vs /\ vs_max_file_size vs' = vs_max_file_size vs /\ vs_reuse_logs vs' = vs_reuse_logs vs;
  lg_numbers : vs_next_file_number vs' = vs_next_file_number vs /\ vs_manifest_file_number vs' = vs_manifest_file_number vs /\
    vs_last_sequence vs' = vs_last_sequence vs;
  lg_log : vs_log_number vs' = (if has_log_number_ e then log_number_ e else vs_log_number vs);
  lg_prev : vs_prev_log_number vs' = (if has_prev_log_number_ e then prev_log_number_ e else vs_prev_log_number vs);
  lg_older : older_ vs' = if current_refs_ vs - 1 =? 0 then older_ vs else older_ vs ++ [(current_refs_ vs - 1, current_ vs)];
  lg_refs : current_refs_ vs' = 1 }.

Lemma edit_good_other m m' vs e :
  levels_ok (ms_levels m) -> levels_ok (ms_levels m') -> length (files_ (current_ vs)) = Z.to_nat kNumLevels ->
  (forall i st st' fs, ms_levels m !! i = Some st -> ms_levels m' !! i = Some st' -> files_ (current_ vs) !! i = Some fs ->
    exists l, map number (Builder.added_files st) ≡ₚ map number (Builder.added_files st') ++ l) ->
  edit_good m vs e -> edit_good m' vs e.
Proof.
  intros [Hl _] [Hl' _] Hlen Hsub [? ? ? ? Hfresh ?]. split; try done. intros i st' Hi.
  destruct (lookup_lt_is_Some_2 (ms_levels m) i) as [st Hst]; [rewrite Hl, <- Hl'; by apply lookup_lt_Some in Hi|].
  destruct (lookup_lt_is_Some_2 (files_ (current_ vs)) i) as [fs Hfs]; [rewrite Hlen, <- Hl'; by apply lookup_lt_Some in Hi|].
  destruct (Hsub i st st' fs Hst Hi Hfs) as (l & Hp). specialize (Hfresh i st Hst). rewrite Hp in Hfresh.
  rewrite <- app_assoc, (Permutation_app_comm l), app_assoc in Hfresh. by apply list.NoDup_app in Hfresh as (? & _ & _).
Qed.

(** the version set, on disk *)
Definition version_set_ok (env : E) vs (num : Z) (base out : bytes) (rs : list bytes) (m : manifest_state) : Prop :=
  manifest_on_disk env (vs_dbname vs) num base out rs m /\ descriptor_ok vs num base out /\ version_fits vs /\ makes m (current_ vs) /\
  ms_pointers m = compact_pointer_ vs /\ numbers_fit vs /\ numbers_made m num vs.

Definition with_pointers vs (ps : list bytes) : VersionSet F := vs_with_versions vs (older_ vs) (current_ vs) (current_refs_ vs) ps.

Lemma with_pointers_fits vs e m :
  version_fits vs -> edit_good m vs e -> version_fits (with_pointers vs (set_pointers (compact_pointers_ e) (compact_pointer_ vs))).
Proof.
  intros [H1' H2' H3' [Hlen Hf]] He. destruct (proj1 (Forall_fields e) (eo_fields _ (eg_edit _ _ _ He))) as (_ & _ & _ & _ & _ & Hp & _).
  split; try done. cbn [compact_pointer_ with_pointers vs_with_versions]. split; [|by apply set_pointers_fit].
  apply apply_pointers_spec; [done|]. eapply list.Forall_impl; [exact Hp|]. intros [lv k] [? [? _]]. done.
Qed.

(** the names of the manifests differ from CURRENT and the temporary files *)
Lemma manifest_name dbname n base m :
  DescriptorFileName dbname n = Done (dbname ++ text "/" ++ base) -> 0 < n < 2 ^ 64 ->
  ~ file_is dbname (dbname ++ text "/" ++ base) m kTempFile /\ dbname ++ text "/" ++ base <> CurrentFileName dbname.
Proof.
  intros Ed Hn. destruct (DescriptorFileName_is dbname n Hn) as (base' & Ed' & Hp & _).
  assert (Eb : dbname ++ text "/" ++ base' = dbname ++ text "/" ++ base) by congruence. rewrite <- Eb. apply (base_is dbname) in Hp. split.
  - intros Ht. by destruct (file_is_fun _ _ _ _ _ _ Hp Ht).
  - intros Ec. rewrite Ec in Hp. by destruct (file_is_fun _ _ _ _ _ _ Hp (CurrentFileName_is dbname)).
Qed.

(** the new record is on disk, and CURRENT names its manifest *)
Lemma install_spec env dbname n base out (new : bytes) (dsc : bool) :
  0 < n < 2 ^ 64 -> DescriptorFileName dbname n = Done (dbname ++ text "/" ++ base) ->
  stored_file env (dbname ++ text "/" ++ base) = Some out -> (new = [] <-> dsc = true) ->
  (dsc = true -> stored_file env (CurrentFileName dbname) = Some (base ++ [x0a])) ->
  exists env', (if bool_decide (OK = OK) && negb (bool_decide (new = [])) then SetCurrentFile env dbname n else Done (env, OK)) = Done (env', OK) /\
    stored_file env' (dbname ++ text "/" ++ base) = Some out /\ stored_file env' (CurrentFileName dbname) = Some (base ++ [x0a]) /\
    forall name, ~ file_is dbname name n kTempFile -> name <> CurrentFileName dbname -> stored_file env' name = stored_file env name.
Proof.
  intros Hn Ed Hst Hnew Hcur. rewrite bool_decide_eq_true_2 by done. cbn [andb]. case_bool_decide as En; cbn [negb].
  - exists env. split; [done|]. split; [done|]. split; [|done]. by apply Hcur, Hnew.
  - destruct (SetCurrentFile_spec env dbname n base Hn Ed) as (env' & -> & Hc & Ho). exists env'. split; [done|].
    destruct (manifest_name dbname n base n Ed Hn). split; [by rewrite Ho|]. done.
Qed.

Lemma LogAndApply_spec env vs e num base out rs m :
  version_set_ok env vs num base out rs m -> edit_good m vs e ->
  exists env' vs' base' out' rs' m', LogAndApply env vs e = Done (env', vs', OK) /\
    version_set_ok env' vs' (vs_manifest_file_number vs) base' out' rs' m' /\ logged vs e vs' /\
    (forall i st', ms_levels m' !! i = Some st' -> forall n, n ∈ map number (Builder.added_files st') -> n ∈ map number (news i (new_files_ e)) \/
      exists st, ms_levels m !! i = Some st /\ n ∈ map number (Builder.added_files st)) /\
    forall name, name <> vs_dbname vs ++ text "/" ++ base' -> name <> CurrentFileName (vs_dbname vs) ->
      ~ file_is (vs_dbname vs) name (vs_manifest_file_number vs) kTempFile -> stored_file env' name = stored_file env name.
Proof.
  intros (Hdisk & Hdesc & Hv & Hm & Hmp & Hnum & Hmade) He0.
  assert (Hlt : vs_log_number vs < vs_next_file_number vs) by (destruct (nm_next _ _ _ Hmade) as (? & _ & _ & ?); lia). pose proof (completed_good m vs e Hnum Hlt He0) as He.
  unfold LogAndApply. rewrite (complete_edit_spec m vs e He0). cbn [mbind outcome_bind]. set (e1 := completed vs e) in *.
  destruct (save_edit m vs e1 Hv Hm He) as (lv & v & -> & Hsave & Hvlen & Hvf). cbn [mbind outcome_bind]. rewrite Hsave. cbn [mbind outcome_bind].
  set (ps := set_pointers _ _). fold (with_pointers vs ps). pose proof (with_pointers_fits vs e1 m Hv He) as Hv1. fold ps in Hv1. set (vs1 := with_pointers vs ps) in *.
  destruct (open_descriptor_spec env vs1 num base out rs m Hdisk Hdesc Hv1 Hm)
    as (env1 & log & base' & new & out1 & rs1 & m1 & Eop & Hnew & Hsame & Ed & Efn & Ew & Hw & (ends1 & Hl1) & Hr1 & Hm1 & Hptr & Hsub & Hmn & Ho1).
  rewrite Eop. cbn [mbind outcome_bind]. rewrite (bool_decide_eq_true_2 (OK = OK)) by done.
  assert (He1 : edit_good m1 vs e1) by (eapply edit_good_other; [apply Hm|apply Hm1|apply Hv|done|done]).
  destruct (vf_pointers _ Hv) as [Hplen Hpf]. destruct (vf_pointers _ Hv1) as [Hplen1 _].
  assert (Hlenp : length (ms_pointers m1) = Z.to_nat kNumLevels) by (destruct Hptr as [->| ->]; [by rewrite Hmp|done]).
  destruct (manifest_record_spec m1 e1 (eg_edit _ _ _ He)) as (enc & levels & Ee & Er & Hlok & _ & Happ);
    [intros Hc; by rewrite (eg_comparator _ _ _ He) in Hc|eapply edit_fits_good; [exact He1|apply He1]|apply Hm1|done|].
  destruct (write_edit_spec env1 (vs_with_descriptor vs1 (Some log)) e1 log _ out1 enc rs1 ends1 eq_refl Efn Ew Hw Hl1 Ee)
    as (env2 & log2 & out2 & ends2 & -> & Efn2 & Ew2 & Hw2 & Hl2 & Hs2 & Ho2). cbn [mbind outcome_bind].
  change (vs_dbname (vs_with_descriptor (vs_with_descriptor vs1 (Some log)) (Some log2))) with (vs_dbname vs).
  change (vs_manifest_file_number (vs_with_descriptor (vs_with_descriptor vs1 (Some log)) (Some log2))) with (vs_manifest_file_number vs).
  change (vs_dbname vs1) with (vs_dbname vs) in *. change (vs_manifest_file_number vs1) with (vs_manifest_file_number vs) in *.
  destruct (manifest_name _ _ _ (vs_manifest_file_number vs) Ed Hmn) as [Hnt Hnc].
  destruct (install_spec env2 (vs_dbname vs) (vs_manifest_file_number vs) base' out2 new (match descriptor_log_ vs with Some _ => true | None => false end) Hmn Ed Hs2)
    as (env3 & -> & Hs3 & Hc3 & Ho3).
  { rewrite Hnew. change (descriptor_log_ vs1) with (descriptor_log_ vs). destruct (descriptor_log_ vs) as [l|]; [split; [done|by exists l]|by split; [intros (l & ?)|]]. }
  { intros Hd. assert (Hn0 : new = []). { apply Hnew. change (descriptor_log_ vs1) with (descriptor_log_ vs). destruct (descriptor_log_ vs) as [l|]; [by exists l|done]. }
    destruct (Hsame Hn0) as (_ & -> & _). rewrite Ho2 by congruence. rewrite Ho1 by congruence. apply Hdisk. }
  cbn [mbind outcome_bind]. rewrite bool_decide_eq_true_2 by done.
  set (vs3 := vs_with_logs _ _ _). exists env3, vs3, base', out2, (rs1 ++ [enc]), (after_record m1 e1 levels). split; [done|].
  destruct (completed_numbers vs e) as (N1 & N2 & N3 & N4 & N5 & N6 & N7 & N8). destruct (completed_lists vs e) as (L1 & L2 & L3 & _). fold e1 in N1, N2, N3, N4, N5, N6, N7, N8, L1, L2, L3. clearbody e1.
  assert (Hps : set_pointers (compact_pointers_ e1) (ms_pointers m1) = ps).
  { unfold ps. destruct Hptr as [->| ->]; [by rewrite Hmp|]. apply set_pointers_twice; [|rewrite Hplen; exact Hplen1].
    by apply (proj1 (Forall_fields e1) (eo_fields _ (eg_edit _ _ _ He))). }
  destruct (edit_keeps m1 vs vs3 e1 levels Hv Hm1 He1 Hlok Happ Hvlen Hvf eq_refl) as [Hv3 Hm3].
  split; [|split; [|split]].
  - split; [|split; [|split; [done|split; [done|split; [exact Hps|]]]]].
    + split; try done; [by exists ends2|]. eapply reads_snoc; done.
    + unfold descriptor_ok. cbn. split; [done|]. done.
    + destruct (proj1 (Forall_fields e1) (eo_fields _ (eg_edit _ _ _ He))) as (_ & F2 & F3 & _).
      split; [split; [apply Hnum|apply Hnum|apply Hnum|by apply F2|by apply F3]|].
      pose proof (nu_next _ Hnum). pose proof (nu_last _ Hnum). pose proof (nu_manifest _ Hnum).
      assert (log_number_ e1 < vs_next_file_number vs) by (rewrite N2; destruct (has_log_number_ e) eqn:Eh; [by apply (eg_log _ _ _ He0)|done]).
      split; cbn; rewrite ?N1, ?N3, ?N5, ?N7; cbn; [done|done| |]; eexists; (split; [done|]); rewrite ?N6, ?N8; lia.
  - split; try done; cbn.
    + intros i files Hi. destruct (Hvf i files Hi) as (b & Hb & Ha & _). exists (saved b files). split; [done|]. intros f. rewrite <- L2, <- L3. by apply saved_after.
  - cbn [ms_levels after_record]. intros i st' Hi n0 Hn0. rewrite <- L3.
    destruct (lookup_lt_is_Some_2 (ms_levels m1) i) as [st1 Hst1]; [rewrite (proj1 (mb_levels _ _ Hm1)), <- (proj1 Hlok); by apply lookup_lt_Some in Hi|].
    pose proof (Happ i st1 st' Hst1 Hi) as Hla. apply list_elem_of_fmap in Hn0 as (f & -> & Hf).
    destruct (proj1 (la_added _ _ _ _ Hla f) Hf) as [Hf1|Hf1]; [right|left; by apply list_elem_of_fmap_2].
    destruct (lookup_lt_is_Some_2 (ms_levels m) i) as [st Hst]; [rewrite (proj1 (mb_levels _ _ Hm)), <- (proj1 (mb_levels _ _ Hm1)); by apply lookup_lt_Some in Hst1|].
    exists st. split; [done|].
    destruct (lookup_lt_is_Some_2 (files_ (current_ vs)) i) as [fs Hfs]; [rewrite (vf_length _ Hv), <- (proj1 (mb_levels _ _ Hm1)); by apply lookup_lt_Some in Hst1|].
    destruct (Hsub i st st1 fs Hst Hst1 Hfs) as (l & ->). apply elem_of_app. left. by apply list_elem_of_fmap_2.
  - intros name Hne Hnc' Hnt'. by rewrite Ho3, Ho2, Ho1.
Qed.

(** ** Recovery *)

(** the builder over the empty version makes the files, but for their seeks *)
Lemma save_recovered m v :
  makes m v -> length (files_ v) = Z.to_nat kNumLevels -> (forall i files, files_ v !! S i = Some files -> StronglySorted file_before files) ->
  Builder.SaveTo make_Version (ms_levels m) =
    Done {| files_ := map (map seeded) (files_ v); file_to_compact_ := None; file_to_compact_level_ := -1 |}.
Proof.
  intros [Hok [Hlen Hlv] Hm] Hlv' Hb.
  assert (Hs : forall i st files, ms_levels m !! i = Some st -> files_ v !! i = Some files -> saved st [] = map seeded files).
  { intros i st files Hi Hf. destruct (Hm i st files Hi Hf) as [Hfo Hin]. apply in_order_unique.
    - apply saved_ok; [by apply (Hlv i)|apply level_files_nil|]. intros f _. apply not_elem_of_nil.
    - by apply seeded_ok.
    - intros f. rewrite elem_of_saved, Hin, elem_of_nil. tauto. }
  assert (Hex : forall i st, ms_levels m !! i = Some st -> exists files, files_ v !! i = Some files).
  { intros i st Hi. apply lookup_lt_is_Some. apply lookup_lt_Some in Hi. congruence. }
  rewrite SaveTo_spec.
  - do 2 f_equal. apply list_eq. intros i. rewrite lookup_zip_with, list_lookup_fmap.
    destruct (ms_levels m !! i) as [st|] eqn:Ei; cbn.
    + destruct (Hex i st Ei) as [files Ef]. rewrite Ef. cbn. unfold make_Version. cbn [files_]. rewrite lookup_replicate_2; [cbn; by rewrite (Hs i st files)|].
      rewrite <- Hlen. by apply lookup_lt_Some in Ei.
    + rewrite lookup_ge_None_2; [done|]. apply lookup_ge_None_1 in Ei. congruence.
  - by rewrite Hlen.
  - intros i st files Hi [-> _]%lookup_replicate_1. split; [by apply (Hlv i)|]. split; [constructor|]. intros Hi0.
    destruct (Hex i st Hi) as [files' Hf]. rewrite (Hs i st files' Hi Hf). destruct i as [|i]; [lia|]. specialize (Hb i files' Hf).
    clear -Hb. induction Hb as [|f fs Hb IH Hf]; [constructor|]. cbn [map]. constructor; [done|]. by apply list.Forall_fmap.
Qed.

Lemma current_manifest_spec fuel env dbname base :
  stored_file env (CurrentFileName dbname) = Some (base ++ [x0a]) -> (length base + 1 < fuel)%nat ->
  current_manifest fuel env dbname = Done (inl base).
Proof.
  intros Hs Hf. unfold current_manifest. rewrite (ReadFileToString_spec _ _ _ _ Hs) by (rewrite length_app; simpl; lia).
  cbn [mbind outcome_bind]. rewrite last_snoc, bool_decide_eq_true_2 by done. rewrite length_app. cbn [length].
  by rewrite Nat.add_sub, take_app_length.
Qed.

(** what [Recover] gives back of a version set *)
Record recovered_set vs vs' : Prop := {
  rs_files : files_ (current_ vs') = map (map seeded) (files_ (current_ vs));
  rs_pointers : compact_pointer_ vs' = compact_pointer_ vs;
  rs_log : vs_log_number vs' = vs_log_number vs;
  rs_prev : vs_prev_log_number vs' = vs_prev_log_number vs;
  rs_last : vs_last_sequence vs' <= vs_last_sequence vs;
  rs_next : vs_next_file_number vs' <= vs_next_file_number vs + 1 }.

Lemma seeded_version_fits vs vs' :
  version_fits vs -> files_ (current_ vs') = map (map seeded) (files_ (current_ vs)) -> compact_pointer_ vs' = compact_pointer_ vs ->
  version_fits vs'.
Proof.
  intros [Hlen Hf Hb Hp] Ef Ep. split; rewrite ?Ef, ?Ep; try done.
  - by rewrite length_map.
  - intros i files. rewrite list_lookup_fmap. destruct (files_ (current_ vs) !! i) as [fs|] eqn:Ei; [|done]. intros [= <-].
    destruct (Hf i fs Ei) as [Hok Hfit]. split; [by apply seeded_ok|]. apply list.Forall_fmap. exact Hfit.
  - intros i files. rewrite list_lookup_fmap. destruct (files_ (current_ vs) !! S i) as [fs|] eqn:Ei; [|done]. intros [= <-].
    specialize (Hb i fs Ei). clear -Hb. induction Hb as [|f fs Hb IH Hf]; [constructor|]. cbn [map]. constructor; [done|]. by apply list.Forall_fmap.
Qed.

Lemma seeded_makes m v v' : makes m v -> files_ v' = map (map seeded) (files_ v) -> makes m v'.
Proof.
  intros [Hok Hl Hm] Ef. split; [done|done|]. intros i st files Hi. rewrite Ef, list_lookup_fmap.
  destruct (files_ v !! i) as [fs|] eqn:Ei; [|done]. intros [= <-]. destruct (Hm i st fs Hi Ei) as [Hfo Hin].
  split; [by apply seeded_ok|]. intros f. by rewrite map_map.
Qed.

(** the name of a manifest is parsed to its number *)
Lemma descriptor_base dbname n base :
  0 < n < 2 ^ 64 -> DescriptorFileName dbname n = Done (dbname ++ text "/" ++ base) -> ParseFileName base = Some (n, kDescriptorFile).
Proof.
  intros Hn Ed. destruct (DescriptorFileName_is dbname n Hn) as (base' & Ed' & Hp & _). rewrite Ed in Ed'. injection Ed' as Eb.
  apply app_inv_head in Eb. by injection Eb as ->.
Qed.

Definition reuse_manifest vs (man : Z) (log : option (log_Writer F)) : VersionSet F :=
  vs_with_descriptor (vs_with_numbers vs (vs_next_file_number vs) man (vs_last_sequence vs) (vs_log_number vs) (vs_prev_log_number vs)) log.

Lemma ReuseManifest_spec env vs num base out :
  0 < num < 2 ^ 64 -> DescriptorFileName (vs_dbname vs) num = Done (vs_dbname vs ++ text "/" ++ base) ->
  stored_file env (vs_dbname vs ++ text "/" ++ base) = Some out -> descriptor_log_ vs = None ->
  0 < vs_manifest_file_number vs < 2 ^ 64 -> vs_manifest_file_number vs <> num ->
  exists env' reused log man, ReuseManifest env vs (vs_dbname vs ++ text "/" ++ base) base = Done (env', reuse_manifest vs man log, reused) /\
    descriptor_ok (reuse_manifest vs man log) num base out /\ (man = num \/ man = vs_manifest_file_number vs) /\ (log = None -> reused = false) /\
    (forall n c, stored_file env n = Some c -> stored_file env' n = Some c) /\
    forall n, n <> vs_dbname vs ++ text "/" ++ base -> stored_file env' n = stored_file env n.
Proof.
  intros Hnum Ed Hs Hd Hmr Hne. unfold ReuseManifest.
  assert (Hno : exists env' reused log man, Done (env, vs, false) = Done (env', reuse_manifest vs man log, reused) /\
    descriptor_ok (reuse_manifest vs man log) num base out /\ (man = num \/ man = vs_manifest_file_number vs) /\ (log = None -> reused = false) /\
    (forall n c, stored_file env n = Some c -> stored_file env' n = Some c) /\
    forall n, n <> vs_dbname vs ++ text "/" ++ base -> stored_file env' n = stored_file env n).
  { exists env, false, None, (vs_manifest_file_number vs). split; [destruct vs; cbn in *; by subst|]. split; [done|]. split; [by right|]. split; done. }
  destruct (negb (vs_reuse_logs vs)); [exact Hno|]. rewrite (descriptor_base _ _ _ Hnum Ed), (GetFileSize_ok _ _ _ Hs).
  destruct (TargetFileSize (vs_max_file_size vs) <=? blen out); [exact Hno|]. rewrite Hd. cbn [c_assert mbind outcome_bind].
  destruct (NewAppendableFile_ok env (vs_dbname vs ++ text "/" ++ base)) as (env' & f & -> & Hw & Hfn & Hs' & Ho). rewrite Hs in Hw, Hs'. change (from_option id [] (Some out)) with out in Hw, Hs'.
  destruct (make_Writer_at f (blen out) (blen_nonneg _)) as (w & -> & Edw & Hwr). cbn [mbind outcome_bind].
  exists env', true, (Some w), num. split; [done|]. split; [|split; [by left|split; [done|split; [|done]]]].
  - unfold descriptor_ok. cbn. by rewrite Edw.
  - intros n c Hn. destruct (decide (n = vs_dbname vs ++ text "/" ++ base)) as [->|Hnn]; [congruence|by rewrite Ho].
Qed.

Lemma Recover_spec fuel cnt env vs mfs reuse save num base out rs m :
  version_set_ok env vs num base out rs m -> vs_next_file_number vs < 2 ^ 64 - 1 -> blen out < 2 ^ 64 ->
  (length base + 1 < fuel)%nat -> (length out < fuel)%nat -> (length rs < cnt)%nat ->
  exists env' vs' save', Recover fuel cnt env (make_VersionSet (vs_dbname vs) mfs reuse) save = Done (env', vs', save', OK) /\
    version_set_ok env' vs' num base out rs m /\ recovered_set vs vs' /\ older_ vs' = [] /\
    (vs_dbname vs' = vs_dbname vs /\ vs_max_file_size vs' = mfs /\ vs_reuse_logs vs' = reuse) /\
    (descriptor_log_ vs' = None -> save' = true) /\
    (forall n c, stored_file env n = Some c -> stored_file env' n = Some c) /\
    forall n, n <> vs_dbname vs ++ text "/" ++ base -> stored_file env' n = stored_file env n.
Proof.
  intros (Hdisk & Hdesc & Hv & Hm & Hmp & Hnum & [Nl Np (nx & Nn & Hnx & Hlx & Hnx2) (la & Nla & Hla)]) Hbig Hout Hf1 Hf2 Hcnt.
  pose proof Hdisk as [Hnr Hname Hst Hcur (ends & Hl) Hr]. unfold Recover. cbn [vs_dbname make_VersionSet].
  rewrite (current_manifest_spec _ _ _ _ Hcur Hf1). cbn [mbind outcome_bind].
  destruct (NewSequentialFile_ok env _ _ Hst) as (g & -> & Hg).
  change (Build_manifest_state OK (compact_pointer_ (make_VersionSet (F := F) (vs_dbname vs) mfs reuse)) Builder.make_Builder None None None None) with initial_manifest.
  rewrite (read_whole_manifest rs ends out g fuel cnt initial_manifest m Hl Hr eq_refl Hg Hout Hf2 Hcnt). cbn [mbind outcome_bind].
  unfold manifest_complete. rewrite (mb_ok _ _ Hm), Nn, Nl, Nla. rewrite !bool_decide_eq_true_2 by done. cbn [default].
  change (from_option id 0 (Some nx)) with nx. change (from_option id 0 (Some la)) with la. change (from_option id 0 (Some (vs_log_number vs))) with (vs_log_number vs).
  rewrite Np. set (vs1 := MarkFileNumberUsed _ _).
  assert (E1 : current_ vs1 = make_Version /\ older_ vs1 = [] /\ current_refs_ vs1 = 1 /\ vs_dbname vs1 = vs_dbname vs /\ vs_max_file_size vs1 = mfs /\
    vs_reuse_logs vs1 = reuse /\ descriptor_log_ vs1 = None /\ compact_pointer_ vs1 = ms_pointers m).
  { unfold vs1, MarkFileNumberUsed. cbn. repeat case_match; done. }
  clearbody vs1. destruct E1 as (E1 & E2 & E3 & E4 & E5 & E6 & E7 & E8). rewrite E1.
  rewrite (save_recovered m (current_ vs) Hm (vf_length _ Hv) (vf_before _ Hv)). cbn [mbind outcome_bind].
  set (vs2 := vs_with_numbers _ _ _ _ _ _).
  destruct (ReuseManifest_spec env vs2 num base out) as (env' & reused & log & man & Er & Hd & Hman & Hlog & Hkeep & Ho); try done.
  { cbn. by rewrite E4. }
  { cbn. by rewrite E4. }
  { cbn. lia. }
  { cbn. lia. }
  change (vs_dbname vs2) with (vs_dbname vs1) in Er, Ho. rewrite E4 in Er, Ho. rewrite Er. cbn [mbind outcome_bind].
  exists env', (reuse_manifest vs2 man log), (if reused then save else true). split; [done|].
  assert (Erec : recovered_set vs (reuse_manifest vs2 man log)).
  { split; cbn; try done; [by rewrite E8|lia|rewrite u64_small by lia; lia]. }
  split; [|split; [exact Erec|]].
  - split.
    { split; cbn; rewrite ?E4; try done; [by apply Hkeep|by apply Hkeep|by exists ends]. }
    split; [done|]. split; [eapply seeded_version_fits; [exact Hv|apply Erec|apply Erec]|]. split; [eapply seeded_makes; [exact Hm|apply Erec]|].
    split; [cbn; by rewrite E8|]. destruct Hnum as [? ? ? ? ?]. split; [split; cbn; rewrite ?u64_small by lia; try done; try lia|].
    + destruct Hman as [-> | ->]; cbn; lia.
    + split; cbn; try done; [exists nx; split; [done|]; rewrite u64_small by lia; lia|by exists la; split; [|lia]].
  - split; [cbn; by rewrite E2, E3|]. split; [cbn; by rewrite E4, E5, E6|]. split; [|done]. cbn. intros Hl0. by rewrite (Hlog Hl0).
Qed.
End Disk.
