(* ===== verification/DBFiles.v ===== *)
(** * DBFiles: the database and its files, in db/db_impl.cc

    The database over a file system, a version set and a table cache: a new
    database, the read path through the current version, the compaction of the
    immutable memtable, and the removal of files that are no longer used.  One
    thread runs at a time: the mutex, the counts of references that a function
    takes and gives back, the information log and the statistics are not
    modelled. *)

From Stdlib.Strings Require Import Byte.
From stdpp Require Import gmap.
From S2P Require Import Prelude Status Coding DbFormat WriteBatch SkipList MemTable Crc32c Log Bloom FilterBlock Block Format TableBuilder Table VersionEdit Version Env Filename TableCache Builder VersionSet.

Section DB.
Context {E F R G P CT CB : Type} `{Env E F R G} `{FilterPolicy P} `{Cache CT (Table (R := R) (P := InternalFilterPolicy P))} `{Cache CB Block}
  `{Machine} `{Snappy}.
Abbreviation TC := (TableCache (P := InternalFilterPolicy P) (CT := CT) (CB := CB)).

Record DB := {
  db_mem : MemTable; db_imm : option MemTable; db_env : E; db_versions : VersionSet F; db_tables : TC;
  pending_outputs_ : gset Z; logfile_number_ : Z; db_bg_error : Status; shutting_down_ : bool }.

Definition db_with (db : DB) (imm : option MemTable) (env : E) (vs : VersionSet F) (tc : TC) (pending : gset Z) (err : Status) : DB :=
  {| db_mem := db_mem db; db_imm := imm; db_env := env; db_versions := vs; db_tables := tc; pending_outputs_ := pending;
     logfile_number_ := logfile_number_ db; db_bg_error := err; shutting_down_ := shutting_down_ db |}.
Definition db_with_files (db : DB) (env : E) (vs : VersionSet F) (tc : TC) (pending : gset Z) : DB :=
  db_with db (db_imm db) env vs tc pending (db_bg_error db).

(** ** A new database *)

Definition new_db_edit : VersionEdit :=
  SetLastSequence 0 (SetNextFile 2 (SetLogNumber 0 (SetComparatorName comparator_Name make_VersionEdit))).

Definition NewDB (env : E) (dbname : bytes) : outcome (E * Status) :=
  manifest ← DescriptorFileName dbname 1;
  let (env, r) := NewWritableFile env manifest in
  match r with
  | inr s => Done (env, s)
  | inl file =>
      log ← make_Writer file 0;
      record ← EncodeTo new_db_edit [];
      '(log, b) ← AddRecord log record;
      let s := append_status b in
      let (env, s) := if bool_decide (s = OK) then file_Sync env (dest_ log) else (env, s) in
      let (env, s) := if bool_decide (s = OK) then file_Close env (dest_ log) else (env, s) in
      if bool_decide (s = OK) then SetCurrentFile env dbname 1 else Done ((env_RemoveFile env manifest).1, s)
  end.

(** ** Files that are no longer used *)

(** whether a file of the directory stays *)
Definition keep_file (vs : VersionSet F) (live : gset Z) (number : Z) (type : FileType) : bool :=
  match type with
  | kLogFile => (vs_log_number vs <=? number) || (number =? vs_prev_log_number vs)
  | kDescriptorFile => vs_manifest_file_number vs <=? number
  | kTableFile | kTempFile => bool_decide (number ∈ live)
  | kCurrentFile | kDBLockFile | kInfoLogFile => true
  end.

(** the names to delete, and the table cache without those tables *)
Fixpoint obsolete_files (vs : VersionSet F) (live : gset Z) (filenames : list bytes) (tc : TC) : list bytes * TC :=
  match filenames with
  | [] => ([], tc)
  | filename :: filenames' =>
      match ParseFileName filename with
      | Some (number, type) =>
          if keep_file vs live number type then obsolete_files vs live filenames' tc else
          let tc := match type with kTableFile => Evict tc number | _ => tc end in
          let '(names, tc) := obsolete_files vs live filenames' tc in (filename :: names, tc)
      | None => obsolete_files vs live filenames' tc
      end
  end.

Definition RemoveObsoleteFiles (db : DB) : DB :=
  if negb (bool_decide (db_bg_error db = OK)) then db else
  let vs := db_versions db in
  let live := AddLiveFiles vs (pending_outputs_ db) in
  let '(names, tc) := obsolete_files vs live (GetChildren (db_env db) (vs_dbname vs)) (db_tables db) in
  let env := foldl (fun env name => (env_RemoveFile env (vs_dbname vs ++ text "/" ++ name)).1) (db_env db) names in
  db_with_files db env vs tc (pending_outputs_ db).

Definition RecordBackgroundError (db : DB) (s : Status) : DB :=
  if bool_decide (db_bg_error db = OK) then db_with db (db_imm db) (db_env db) (db_versions db) (db_tables db) (pending_outputs_ db) s else db.

(** ** The compaction of a memtable *)

Definition new_meta (n : Z) : FileMetaData :=
  {| allowed_seeks := Z.shiftl 1 30; number := n; file_size := 0; smallest := []; largest := [] |}.

Definition WriteLevel0Table (fuel : nat) (options : Options (InternalFilterPolicy P)) (db : DB) (mem : MemTable) (edit : VersionEdit)
    (base : option Version) : outcome (DB * VersionEdit * Status) :=
  let (vs, n) := NewFileNumber (db_versions db) in
  let db := db_with_files db (db_env db) vs (db_tables db) ({[n]} ∪ pending_outputs_ db) in
  '(env, tc, meta, s) ← BuildTable fuel (vs_dbname vs) (db_env db) options (db_tables db) (mem_NewIterator mem) (new_meta n);
  let db := db_with_files db env vs tc (pending_outputs_ db ∖ {[n]}) in
  if bool_decide (s = OK) && (0 <? file_size meta) then
    min_user_key ← user_key_of (smallest meta);
    max_user_key ← user_key_of (largest meta);
    level ← (match base with
             | Some b => PickLevelForMemTableOutput b (vs_max_file_size vs) min_user_key max_user_key
             | None => Done 0
             end);
    Done (db, AddFile level (number meta) (file_size meta) (smallest meta) (largest meta) edit, s)
  else Done (db, edit, s).

Definition CompactMemTable (fuel : nat) (options : Options (InternalFilterPolicy P)) (db : DB) : outcome DB :=
  match db_imm db with
  | None => Asserted
  | Some imm =>
      '(db, edit, s) ← WriteLevel0Table fuel options db imm make_VersionEdit (Some (current_ (db_versions db)));
      let s := if bool_decide (s = OK) && shutting_down_ db then IOError (text "Deleting DB during memtable compaction") else s in
      '(env, vs, s) ← (if bool_decide (s = OK)
                       then LogAndApply (db_env db) (db_versions db) (SetLogNumber (logfile_number_ db) (SetPrevLogNumber 0 edit))
                       else Done (db_env db, db_versions db, s));
      let db := db_with_files db env vs (db_tables db) (pending_outputs_ db) in
      if bool_decide (s = OK)
      then Done (RemoveObsoleteFiles (db_with db None (db_env db) (db_versions db) (db_tables db) (pending_outputs_ db) (db_bg_error db)))
      else Done (RecordBackgroundError db s)
  end.

(** ** Reads *)

(** [Get] at a snapshot, or at the last number: the value, or [None] when there
    is none, or another status; a read changes the caches only *)
Definition db_Get (options : ReadOptions) (snapshot : option Z) (key : bytes) (db : DB) : outcome ((option bytes + Status) * DB) :=
  let snapshot := default (vs_last_sequence (db_versions db)) snapshot in
  lkey ← make_LookupKey key snapshot;
  r ← MemTable.Get lkey (db_mem db);
  r ← (match r with
       | Absent => match db_imm db with Some imm => MemTable.Get lkey imm | None => Done Absent end
       | _ => Done r
       end);
  match r with
  | Found v => Done (inl (Some v), db)
  | MemTable.NotFound => Done (inl None, db)
  | Absent =>
      '(value, s, stats, t) ← Version.Get (current_ (db_versions db)) options lkey [] (db_env db, db_tables db);
      Done (match s with Some OK => inl (Some value) | Some s => inr s | None => inl None end,
            db_with_files db t.1 (db_versions db) t.2 (pending_outputs_ db))
  end.
End DB.
