(* ===== verification/DBSpec.v ===== *)
(** * DBSpec: what the database holds, in its memtables and its files *)

From Stdlib.Strings Require Import Byte.
From Stdlib.Sorting Require Import Sorted.
From stdpp Require Import gmap sorting.
From S2P Require Import Prelude Status Coding DbFormat WriteBatch SkipList SkipListSpec MemTable Crc32c Log LogSpec Bloom FilterBlock Block BlockSpec Format TableBuilder Table TableSpec TableTheorems VersionEdit Version VersionSpec VersionLevels Env Filename TableCache Builder VersionSet VersionSetSpec Manifest DBFiles.

Section Spec.
Context {E F R G P CT CB : Type} `{EnvOk E F R G} `{FilterPolicyOk P} `{CacheOk CT (Table (R := R) (P := InternalFilterPolicy P))}
  `{CacheOk CB Block} `{MachineOk} `{SnappyOk}.
Abbreviation DB := (DB (E := E) (F := F) (P := P) (CT := CT) (CB := CB)).
Implicit Types (db : DB) (options : Options (InternalFilterPolicy P)).

(** the manifest, the tables and the caches are those of the current version,
    whose file [n] holds the entries [content n] *)
Record db_files options (content : Z -> list add) db : Prop := {
  df_set : exists num base out rs m, version_set_ok (db_env db) (db_versions db) num base out rs m /\
    forall i st n, ms_levels m !! i = Some st -> n ∈ map number (Builder.added_files st) -> n < vs_next_file_number (db_versions db);
  df_version : version_ok content (current_ (db_versions db));
  df_cache : tables_inv (db_env db) (vs_dbname (db_versions db)) options (vs_next_file_number (db_versions db)) (db_env db, db_tables db);
  df_stored l files f : files_ (current_ (db_versions db)) !! l = Some files -> f ∈ files ->
    stored_table (db_env db) (db_tables db) (number f) (file_size f) (map add_kv (content (number f))) }.

(** the entries of the version, of the immutable memtable and of the memtable,
    the newest last *)
Record db_state options (content : Z -> list add) db (old new : list add) : Prop := {
  ds_files : db_files options content db;
  ds_mem : mem_ok (db_mem db) new;
  ds_imm : match db_imm db with Some m => mem_ok m old | None => old = [] end;
  ds_last : 0 <= vs_last_sequence (db_versions db) < 2 ^ 56;
  ds_imm_newer : newer_than old (version_adds content (current_ (db_versions db)));
  ds_mem_newer : newer_than new (old ++ version_adds content (current_ (db_versions db))) }.

(** all the entries *)
Definition db_adds (content : Z -> list add) db (old new : list add) : list add :=
  new ++ old ++ version_adds content (current_ (db_versions db)).

Lemma file_number_below options content db l files f :
  db_files options content db -> files_ (current_ (db_versions db)) !! l = Some files -> f ∈ files ->
  0 < number f < vs_next_file_number (db_versions db).
Proof.
  intros Hd Hl Hf. destruct (df_stored _ _ _ Hd l files f Hl Hf) as (c & [[Hn _] _] & _). split; [lia|].
  destruct (df_set _ _ _ Hd) as (num & base & out & rs & m & (_ & _ & Hv & Hm & _) & Hnums).
  destruct (lookup_lt_is_Some_2 (ms_levels m) l) as [st Hst].
  { rewrite (proj1 (mb_levels _ _ Hm)), <- (vf_length _ Hv). by apply lookup_lt_Some in Hl. }
  apply (Hnums l st); [done|]. eapply level_matches_numbers; [by eapply (mb_files _ _ Hm l)|]. by apply list_elem_of_fmap_2.
Qed.

(** ** Reads *)

(** an entry as [Get] tells it *)
Definition value_of (o : option add) : option bytes :=
  match o with Some a => match a_type a with kTypeValue => Some (a_value a) | kTypeDeletion => None end | None => None end.

Lemma newest_of_mem m adds u s : mem_ok m adds -> newest_of adds u s (newest adds u s).
Proof. intros Hm. apply newest_newest_of, (mo_seqs _ _ Hm). Qed.

Lemma newest_of_step es1 es2 u s o1 o2 :
  newer_than es1 es2 -> newest_of es1 u s o1 -> newest_of es2 u s o2 ->
  newest_of (es1 ++ es2) u s (match o1 with Some a => Some a | None => o2 end).
Proof. intros Hn H1' H2'. destruct o1 as [a|]; [by apply newest_of_some_app|by apply newest_of_none_app]. Qed.

(** A read gives the newest entry of the key up to the snapshot, whether it is in
    a memtable or in a table, and changes nothing but the caches. *)
Lemma db_Get_spec ro options content db old new snapshot u :
  db_state options content db old new -> blen u + 8 < 2 ^ 32 ->
  let s := default (vs_last_sequence (db_versions db)) snapshot in
  0 <= s < 2 ^ 56 -> filterable options (ikey u (tag_of s kTypeValue)) ->
  Z.of_nat (files_read (current_ (db_versions db))) <= 2 ^ 64 - 1 - tc_last_id (db_tables db) ->
  exists o db', db_Get ro snapshot u db = Done (inl (value_of o), db') /\ newest_of (db_adds content db old new) u s o /\
    db_state options content db' old new /\ db_versions db' = db_versions db /\ db_env db' = db_env db /\
    tc_last_id (db_tables db') <= tc_last_id (db_tables db) + Z.of_nat (files_read (current_ (db_versions db))).
Proof.
  intros [Hfiles Hmem Himm Hlast Hin Hmn] Hu s Hs Hfl Hop. unfold db_Get. fold s.
  destruct (make_LookupKey_spec u s Hs Hu) as (lk & Elk & _). rewrite Elk. cbn [mbind outcome_bind].
  assert (Hdb : db_state options content db old new) by done.
  rewrite (Get_spec _ _ _ _ _ Hmem Hs Hu Elk). cbn [mbind outcome_bind]. pose proof (newest_of_mem _ _ u s Hmem) as Hnm.
  assert (Hno : newest_of old u s (newest old u s)) by (destruct (db_imm db) as [im|]; [by eapply newest_of_mem|subst old; by intros b ?%elem_of_nil]).
  assert (Hfin : forall o1 o2, newest_of (version_adds content (current_ (db_versions db))) u s o2 ->
    o1 = match newest new u s with Some a => Some a | None => match newest old u s with Some a => Some a | None => o2 end end ->
    newest_of (db_adds content db old new) u s o1).
  { intros o1 o2 Ho2 ->. apply newest_of_step; [done|done|]. by apply newest_of_step. }
  destruct (newest new u s) as [a|] eqn:Ea.
  { cbn [found_of]. exists (Some a), db.
    assert (Ho : newest_of (db_adds content db old new) u s (Some a)) by (by apply newest_of_some_app).
    destruct (a_type a) eqn:Et; cbn [mbind outcome_bind value_of]; rewrite Et; (split; [done|]); (split; [done|]); (split; [done|]); (split; [done|]); (split; [done|]); lia. }
  cbn [found_of mbind outcome_bind].
  assert (Eimm : (match db_imm db with Some imm => MemTable.Get lk imm | None => Done Absent end) = Done (found_of (newest old u s))).
  { destruct (db_imm db) as [im|]; [by apply Get_spec|]. by subst old. }
  rewrite Eimm. cbn [mbind outcome_bind]. destruct (newest old u s) as [a|] eqn:Eo.
  { cbn [found_of]. exists (Some a), db.
    assert (Ho : newest_of (db_adds content db old new) u s (Some a)) by (apply newest_of_none_app; [done|by apply newest_of_some_app]).
    destruct (a_type a) eqn:Et; cbn [mbind outcome_bind value_of]; rewrite Et; (split; [done|]); (split; [done|]); (split; [done|]); (split; [done|]); (split; [done|]); lia. }
  cbn [found_of]. pose proof (df_cache _ _ _ Hfiles) as Hinv.
  set (I := cached_tables_ok (db_env db) (vs_dbname (db_versions db)) options (vs_next_file_number (db_versions db))).
  assert (Hgood : tables_good (H0 := I) content (current_ (db_versions db)) (db_env db, db_tables db) u s).
  { split.
    - intros l files f Hl Hf. split; [exact Hinv|]. split; [by apply (file_number_below options content db l files)|]. by eapply (df_stored _ _ _ Hfiles).
    - split; [exact Hinv|]. cbn [snd]. rewrite (ti_options _ _ _ _ _ Hinv : tc_options (db_tables db) = options). exact Hfl. }
  destruct (Version_Get_spec (H0 := I) content (current_ (db_versions db)) (df_version _ _ _ Hfiles) ro u s lk [] (db_env db, db_tables db) Hs Hu Elk Hgood Hop)
    as (o & stats & [env' tc'] & Ho & Hg' & Hop' & Eg). rewrite Eg.
  destruct (tg_key _ _ _ _ _ Hg') as [Hinv' _]. pose proof (ti_env _ _ _ _ _ Hinv') as Eenv. cbn [fst] in Eenv.
  assert (Hst : db_state options content (db_with_files db env' (db_versions db) tc' (pending_outputs_ db)) old new).
  { destruct Hfiles as [Hset Hv _ Hstd]. split; try done. split; cbn [db_env db_versions db_tables db_with_files db_with]; rewrite ?Eenv; try done.
    - by rewrite Eenv in Hinv'.
    - intros l files f Hl Hf. destruct (Hstd l files f Hl Hf) as (c & Hc). exists c.
      by rewrite (ti_dbname _ _ _ _ _ Hinv' : tc_dbname tc' = _), (ti_options _ _ _ _ _ Hinv' : tc_options tc' = _),
        <- (ti_dbname _ _ _ _ _ Hinv : tc_dbname (db_tables db) = _), <- (ti_options _ _ _ _ _ Hinv : tc_options (db_tables db) = _). }
  exists o, (db_with_files db env' (db_versions db) tc' (pending_outputs_ db)). split.
  { destruct o as [a|]; [|done]. cbn [found_of value_of]. by destruct (a_type a). }
  split; [by apply (Hfin o o)|]. split; [done|]. split; [done|]. split; [done|].
  cbn [db_tables db_with_files db_with tables_opens cached_tables_ok snd I] in Hop' |- *. lia.
Qed.
End Spec.

(** ** A version with one more file *)

Section Add.
Implicit Types (content : Z -> list add) (v : Version).

(** the entries of the files, with those of a new one *)
Definition set_content content (n : Z) (adds : list add) : Z -> list add := fun k => if decide (k = n) then adds else content k.

Lemma set_content_new content n adds : set_content content n adds n = adds.
Proof. unfold set_content. by rewrite decide_True. Qed.
Lemma set_content_old content n adds k : k <> n -> set_content content n adds k = content k.
Proof. intros Hk. unfold set_content. by rewrite decide_False. Qed.

Lemma elem_of_version_adds content v a :
  a ∈ version_adds content v <-> exists l files f, files_ v !! l = Some files /\ f ∈ files /\ a ∈ content (number f).
Proof.
  unfold version_adds. rewrite elem_of_levels. split.
  - intros (l & files & Hl & (f & Hf & Ha)%elem_of_files_adds). by exists l, files, f.
  - intros (l & files & f & Hl & Hf & Ha). exists l, files. split; [done|]. apply elem_of_files_adds. by exists f.
Qed.

Lemma file_holds_seeded f adds : file_holds f adds -> file_holds (seeded f) adds.
Proof. intros [? ? ? ?]. by split. Qed.

(** the files of a level with, perhaps, the new one *)
Definition with_file (L l : nat) (f : FileMetaData) (files : list FileMetaData) : list FileMetaData :=
  if decide (l = L) then f :: files else files.

Record file_added content v v' (L : nat) (f : FileMetaData) (adds : list add) : Prop := {
  fa_level : (L < Z.to_nat kNumLevels)%nat;
  fa_length : length (files_ v') = Z.to_nat kNumLevels;
  fa_new l files g : files_ v !! l = Some files -> g ∈ files -> number g < number f;
  fa_holds : file_holds f adds;
  fa_newer : newer_than adds (version_adds content v);
  fa_free : L <> 0%nat -> forall l, (l <= L)%nat -> level_free v (first_user f) (last_user f) l;
  fa_files l files : files_ v !! l = Some files -> exists files', files_ v' !! l = Some files' /\
    files' ≡ₚ with_file L l f files /\ NoDup (map number files') /\ ((0 < l)%nat -> StronglySorted file_before files');
  fa_room l files : files_ v !! l = Some files -> Z.of_nat (length files) < 2 ^ 31 - 1 }.

Section Added.
Context content v v' L f adds (Hv : version_ok content v) (Ha : file_added content v v' L f adds).
Let content' := set_content content (number f) adds.

Lemma added_old l files g : files_ v !! l = Some files -> g ∈ files -> content' (number g) = content (number g).
Proof. intros Hl Hg. apply set_content_old. pose proof (fa_new _ _ _ _ _ _ Ha l files g Hl Hg). lia. Qed.

Lemma added_back l files' : files_ v' !! l = Some files' -> exists files, files_ v !! l = Some files /\ files' ≡ₚ with_file L l f files.
Proof.
  intros Hl. destruct (lookup_lt_is_Some_2 (files_ v) l) as [files Hf].
  { rewrite (vo_levels _ _ Hv), <- (fa_length _ _ _ _ _ _ Ha). by apply lookup_lt_Some in Hl. }
  exists files. split; [done|]. destruct (fa_files _ _ _ _ _ _ Ha l files Hf) as (files'' & Hl' & Hp & _).
  by assert (files'' = files') as -> by congruence.
Qed.

Lemma added_in l files' g : files_ v' !! l = Some files' -> g ∈ files' ->
  (l = L /\ g = f) \/ exists files, files_ v !! l = Some files /\ g ∈ files.
Proof.
  intros Hl Hg. destruct (added_back l files' Hl) as (files & Hf & Hp). rewrite Hp in Hg. unfold with_file in Hg.
  destruct (decide (l = L)) as [->|]; [apply elem_of_cons in Hg as [->|Hg]|]; [by left|right; by exists files..].
Qed.

Lemma added_holds l files' g : files_ v' !! l = Some files' -> g ∈ files' -> file_holds g (content' (number g)).
Proof.
  intros Hl Hg. destruct (added_in l files' g Hl Hg) as [[-> ->]|(files & Hf & Hg')].
  - unfold content'. rewrite set_content_new. apply Ha.
  - rewrite (added_old l files) by done. destruct (version_level content v l Hv) as (fs & Hfs & Hall & _).
    { apply lookup_lt_Some in Hf. by rewrite (vo_levels _ _ Hv) in Hf. }
    assert (fs = files) as -> by congruence. rewrite list.Forall_forall in Hall. by apply Hall.
Qed.

(** an entry of a level after, from its level before or from the new file *)
Lemma added_entry l files' a :
  files_ v' !! l = Some files' -> a ∈ files_adds content' files' ->
  (l = L /\ a ∈ adds) \/ exists files, files_ v !! l = Some files /\ a ∈ files_adds content files.
Proof.
  intros Hl (g & Hg & Hin)%elem_of_files_adds. destruct (added_in l files' g Hl Hg) as [[-> ->]|(files & Hf & Hg')].
  - left. split; [done|]. unfold content' in Hin. by rewrite set_content_new in Hin.
  - right. exists files. split; [done|]. rewrite (added_old l files) in Hin by done. apply elem_of_files_adds. by exists g.
Qed.

(** no key of the new file in the levels above it *)
Lemma added_free l files a b :
  (l < L)%nat -> files_ v !! l = Some files -> a ∈ files_adds content files -> b ∈ adds -> a_key a <> a_key b.
Proof.
  intros Hl Hf (g & Hg & Hin)%elem_of_files_adds Hb Hk. apply (fa_free _ _ _ _ _ _ Ha ltac:(lia) l ltac:(lia) files Hf).
  apply list.Exists_exists. exists g. split; [done|].
  assert (Hgh : file_holds g (content (number g))).
  { destruct (version_level content v l Hv) as (fs & Hfs & Hall & _); [apply lookup_lt_Some in Hf; by rewrite (vo_levels _ _ Hv) in Hf|].
    assert (fs = files) as -> by congruence. rewrite list.Forall_forall in Hall. by apply Hall. }
  destruct (file_users g _ Hgh) as (_ & _ & _ & Hg2). destruct (Hg2 a Hin) as [G1 G2].
  destruct (file_users f _ (fa_holds _ _ _ _ _ _ Ha)) as (_ & _ & _ & Hf2). destruct (Hf2 b Hb) as [F1 F2].
  rewrite Hk in G1, G2. split; cbn [not_above not_below]; by eapply lex_le_trans.
Qed.

Lemma version_ok_added : version_ok content' v'.
Proof.
  assert (Hnewer : forall l files files', files_ v !! l = Some files -> files_ v' !! l = Some files' ->
    newer_than adds (files_adds content files)).
  { intros l files files' Hl _ x y Hx Hy. apply (fa_newer _ _ _ _ _ _ Ha x y Hx). apply elem_of_levels. by exists l, files. }
  split.
  - apply Ha.
  - intros files' Hl. apply list.Forall_forall. intros g Hg. by apply (added_holds 0 files').
  - intros l files' Hl. destruct (added_back _ files' Hl) as (files & Hf & Hp).
    destruct (fa_files _ _ _ _ _ _ Ha _ files Hf) as (files'' & Hl' & _ & _ & Hs). assert (files'' = files') as -> by congruence. split.
    + apply list.Forall_forall. intros g Hg. by apply (added_holds (S l) files').
    + apply Hs. lia.
    + apply Permutation_length in Hp. pose proof (fa_room _ _ _ _ _ _ Ha _ files Hf) as Hr. unfold with_file in Hp.
      destruct (decide (S l = L)); cbn [length] in Hp; lia.
  - intros files' g h Hl Hg Hh Hlt.
    destruct (added_in 0 files' g Hl Hg) as [[E1 ->]|(files & Hf & Hg')], (added_in 0 files' h Hl Hh) as [[E ->]|(files2 & Hf2 & Hh')].
    + lia.
    + unfold content' at 1. rewrite set_content_new, (added_old 0 files2) by done. intros x y Hx Hy.
      apply (Hnewer 0%nat files2 files' Hf2 Hl x y Hx). apply elem_of_files_adds. by exists h.
    + pose proof (fa_new _ _ _ _ _ _ Ha 0%nat files g Hf Hg'). lia.
    + assert (files2 = files) as -> by congruence. rewrite !(added_old 0 files) by done. by eapply (vo_numbers _ _ Hv files).
  - intros files' Hl. destruct (added_back 0 files' Hl) as (files & Hf & _).
    pose proof (fa_files _ _ _ _ _ _ Ha _ files Hf) as (files'' & Hl' & _ & Hnd & _). by assert (files'' = files') as <- by congruence.
  - intros l m files1 files2 Hlm H1' H2' x y Hx Hy Hk.
    destruct (added_entry l files1 x H1' Hx) as [[-> Hx']|(fs1 & Hf1 & Hx')], (added_entry m files2 y H2' Hy) as [[-> Hy']|(fs2 & Hf2 & Hy')].
    + lia.
    + by apply (Hnewer m fs2 files2 Hf2 H2' x y).
    + exfalso. by apply (added_free l fs1 x y Hlm Hf1 Hx' Hy').
    + by apply (vo_deeper _ _ Hv l m fs1 fs2 Hlm Hf1 Hf2 x y).
Qed.

Lemma version_adds_added a : a ∈ version_adds content' v' <-> a ∈ adds \/ a ∈ version_adds content v.
Proof.
  rewrite !elem_of_version_adds. split.
  - intros (l & files' & g & Hl & Hg & Hin). destruct (added_in l files' g Hl Hg) as [[-> ->]|(files & Hf & Hg')].
    + left. unfold content' in Hin. by rewrite set_content_new in Hin.
    + right. exists l, files, g. by rewrite (added_old l files) in Hin.
  - intros [Hin|(l & files & g & Hl & Hg & Hin)].
    + destruct (lookup_lt_is_Some_2 (files_ v) L) as [files Hf]; [rewrite (vo_levels _ _ Hv); apply Ha|].
      destruct (fa_files _ _ _ _ _ _ Ha L files Hf) as (files' & Hl' & Hp & _). exists L, files', f. split; [done|].
      split; [rewrite Hp; unfold with_file; rewrite decide_True by done; by left|]. unfold content'. by rewrite set_content_new.
    + destruct (fa_files _ _ _ _ _ _ Ha l files Hl) as (files' & Hl' & Hp & _). exists l, files', g. split; [done|].
      split; [rewrite Hp; unfold with_file; case_decide; [by right|done]|]. by rewrite (added_old l files).
Qed.
End Added.
End Add.
