(* ===== verification/DBFlush.v ===== *)
(** * DBFlush: removing files, and the compaction of a memtable

    [RemoveObsoleteFiles] removes no file in use.  [WriteLevel0Table] stores the
    entries of the immutable memtable as a table; [CompactMemTable] installs it in a
    new version, logged in the manifest, and drops the memtable and the log. *)

From Stdlib.Strings Require Import Byte.
From Stdlib.Sorting Require Import Sorted.
From stdpp Require Import gmap sorting.
From S2P Require Import Prelude Status Coding DbFormat WriteBatch SkipList SkipListSpec MemTable Crc32c Log LogSpec Bloom FilterBlock Block BlockSpec Format TableBuilder Table TableSpec TableTheorems VersionEdit Version VersionSpec VersionLevels Env Filename TableCache Builder VersionSet VersionSetSpec Manifest DBFiles DBSpec.

Section Frames.
Context {E F R G P CT CB : Type} `{EnvOk E F R G} `{FilterPolicyOk P} `{CacheOk CT (Table (R := R) (P := InternalFilterPolicy P))}
  `{CacheOk CB Block} `{MachineOk} `{SnappyOk}.
Abbreviation DB := (DB (E := E) (F := F) (P := P) (CT := CT) (CB := CB)).
Abbreviation TC := (TableCache (P := InternalFilterPolicy P) (CT := CT) (CB := CB)).
Implicit Types (db : DB) (tc : TC) (options : Options (InternalFilterPolicy P)).

(** ** The file system changes elsewhere *)

Lemma tc_ok_frame env env' tc :
  (forall n tab name c, 0 < n < 2 ^ 64 -> cached (tc_cache tc) (table_key n) tab -> TableFileName (tc_dbname tc) n = Done name ->
    stored_file env name = Some c -> stored_file env' name = Some c) ->
  tc_ok env tc -> tc_ok env' tc.
Proof.
  intros Hs [Hopt Hlast Htab Hids Hfresh]. split; try done. intros key tab Hk.
  destruct (Htab key tab Hk) as (m & -> & (c & (Hm & name & En & Es) & Hop) & Hi). exists m. split; [done|]. split; [|done].
  exists c. split; [|done]. split; [done|]. exists name. split; [done|]. by apply (Hs m tab).
Qed.

Lemma stored_table_frame env env' tc n sz kvs :
  (forall name c, TableFileName (tc_dbname tc) n = Done name -> stored_file env name = Some c -> stored_file env' name = Some c) ->
  stored_table env tc n sz kvs -> stored_table env' tc n sz kvs.
Proof. intros Hs (c & (Hn & name & En & Es) & Hc). exists c. split; [|done]. split; [done|]. exists name. split; [done|]. by apply Hs. Qed.

Lemma vs_with_next_same (vs : VersionSet F) : vs_with_next vs (vs_next_file_number vs) = vs.
Proof. by destruct vs. Qed.

(** other numbers allocated, other files changed *)
Lemma version_set_ok_frame env env' (vs : VersionSet F) n num base out rs m :
  version_set_ok env vs num base out rs m ->
  stored_file env' (vs_dbname vs ++ text "/" ++ base) = stored_file env (vs_dbname vs ++ text "/" ++ base) ->
  stored_file env' (CurrentFileName (vs_dbname vs)) = stored_file env (CurrentFileName (vs_dbname vs)) ->
  vs_next_file_number vs <= n < 2 ^ 64 -> version_set_ok env' (vs_with_next vs n) num base out rs m.
Proof.
  intros ([M1 M2 M3 M4 M5 M6] & Hdesc & Hv & Hm & Hmp & [U1 U2 U3 U4 U5] & [N1 N2 N3 N4]) Es Ec Hn.
  split; [split; [exact M1|exact M2|exact (eq_trans Es M3)|exact (eq_trans Ec M4)|exact M5|exact M6]|]. split; [exact Hdesc|]. split; [by destruct Hv; split|]. split; [done|]. split; [done|].
  split; [split; cbn in *; try done; lia|]. split; cbn in *; try done. destruct N3 as (x & ? & ? & ?). exists x. split; [done|]. lia.
Qed.

(** ** Removing files *)

Lemma elem_of_AddLiveFiles (vs : VersionSet F) live n :
  n ∈ AddLiveFiles vs live <-> n ∈ live \/ exists v, (v = current_ vs \/ exists refs, (refs, v) ∈ older_ vs) /\ n ∈ version_numbers v.
Proof.
  unfold AddLiveFiles. assert (H1' : forall ns (s : gset Z), n ∈ foldl (fun live n => {[n]} ∪ live) s ns <-> n ∈ s \/ n ∈ ns).
  { induction ns as [|x ns IH]; intros s; cbn [foldl]; [rewrite elem_of_nil; tauto|]. rewrite IH, elem_of_union, elem_of_singleton, elem_of_cons. tauto. }
  assert (H2' : forall vl (s : gset Z), n ∈ foldl (fun live (v : Version) => foldl (fun live n => {[n]} ∪ live) live (version_numbers v)) s vl <->
    n ∈ s \/ exists v, v ∈ vl /\ n ∈ version_numbers v).
  { induction vl as [|v vl IH]; intros s; cbn [foldl]; [split; [by left|]; intros [?|(v & ?%elem_of_nil & _)]; done|].
    rewrite IH, H1'. split.
    - intros [[?|?]|(w & ? & ?)]; [by left|right; exists v; split; [by left|done]|right; exists w; split; [by right|done]].
    - intros [?|(w & [->|Hw]%elem_of_cons & ?)]; [tauto|tauto|right; by exists w]. }
  rewrite H2'. split; (intros [?|(v & Hv & Hn)]; [by left|right; exists v; split; [|done]]).
  - apply elem_of_app in Hv as [Hv| ->%list_elem_of_singleton]; [|by left]. right. apply list_elem_of_fmap in Hv as ([refs w] & -> & Hw). by exists refs.
  - apply elem_of_app. destruct Hv as [->|(refs & Hv)]; [right; by left|left]. apply list_elem_of_fmap. by exists (refs, v).
Qed.

Lemma elem_of_version_numbers v n : n ∈ version_numbers v <-> exists l files f, files_ v !! l = Some files /\ f ∈ files /\ n = number f.
Proof.
  unfold version_numbers. induction (files_ v) as [|files levels IH]; cbn [map concat].
  - split; [by intros ?%elem_of_nil|by intros (l & ? & ? & ? & _)].
  - rewrite elem_of_app, IH. split.
    + intros [(f & -> & Hf)%list_elem_of_fmap|(l & fs & f & Hl & Hf)]; [by exists 0%nat, files, f|by exists (S l), fs, f].
    + intros ([|l] & fs & f & Hl & Hf & ->); [left; cbn in Hl; injection Hl as ->; by apply list_elem_of_fmap_2|right; by exists l, fs, f].
Qed.

Lemma obsolete_files_spec (vs : VersionSet F) live fs tc :
  let '(names, tc') := obsolete_files vs live fs tc in
  (forall x, x ∈ names -> exists n ty, ParseFileName x = Some (n, ty) /\ keep_file vs live n ty = false) /\
  (forall k tab, cached (tc_cache tc') k tab -> cached (tc_cache tc) k tab /\
    forall x n, x ∈ names -> ParseFileName x = Some (n, kTableFile) -> k <> table_key n) /\
  tc_dbname tc' = tc_dbname tc /\ tc_options tc' = tc_options tc /\ tc_last_id tc' = tc_last_id tc /\ tc_block_cache tc' = tc_block_cache tc.
Proof.
  revert tc; induction fs as [|x fs IH]; intros tc; cbn [obsolete_files].
  { split; [by intros x ?%elem_of_nil|]. split; [|done]. intros k tab Hk. split; [done|]. by intros x n ?%elem_of_nil. }
  destruct (ParseFileName x) as [[n ty]|] eqn:Ep; [|apply IH]. destruct (keep_file vs live n ty) eqn:Ek; [apply IH|].
  set (tc1 := match ty with kTableFile => Evict tc n | _ => tc end). specialize (IH tc1).
  destruct (obsolete_files vs live fs tc1) as [names tc']. destruct IH as (I1 & I2 & I3 & I4 & I5 & I6).
  assert (E1 : tc_dbname tc1 = tc_dbname tc /\ tc_options tc1 = tc_options tc /\ tc_last_id tc1 = tc_last_id tc /\ tc_block_cache tc1 = tc_block_cache tc)
    by (unfold tc1; by destruct ty).
  destruct E1 as (E1 & E2 & E3 & E4). split; [|split; [|by rewrite I3, I4, I5, I6]].
  - intros y [->|Hy]%elem_of_cons; [by exists n, ty|by apply I1].
  - intros k tab Hk. destruct (I2 k tab Hk) as [Hk1 Hn].
    assert (Hk0 : cached (tc_cache tc) k tab /\ (ty = kTableFile -> k <> table_key n)).
    { unfold tc1 in Hk1. destruct ty; try (split; [done|discriminate]). unfold Evict in Hk1. cbn [tc_cache with_cache] in Hk1.
      apply cache_Erase_ok in Hk1 as [? ?]. by split. }
    destruct Hk0 as [Hk0 Hkn]. split; [done|]. intros y n' [->|Hy]%elem_of_cons Ep'; [|by apply (Hn y)].
    rewrite Ep in Ep'. injection Ep' as -> ->. by apply Hkn.
Qed.

Lemma remove_names_keeps dbname names name (env : E) :
  (forall x, x ∈ names -> name <> dbname ++ text "/" ++ x) ->
  stored_file (foldl (fun env x => (env_RemoveFile env (dbname ++ text "/" ++ x)).1) env names) name = stored_file env name.
Proof.
  revert env; induction names as [|x names IH]; intros env Hn; [done|]. cbn [foldl]. rewrite IH by (intros y Hy; apply Hn; by right).
  apply env_RemoveFile_ok. apply Hn. by left.
Qed.

(** a file of a kind and number that are kept stays as it is *)
Lemma RemoveObsoleteFiles_keeps db name n ty :
  let vs := db_versions db in
  file_is (vs_dbname vs) name n ty -> keep_file vs (AddLiveFiles vs (pending_outputs_ db)) n ty = true ->
  stored_file (db_env (RemoveObsoleteFiles db)) name = stored_file (db_env db) name.
Proof.
  cbv zeta. intros Hn Hk. unfold RemoveObsoleteFiles. destruct (negb _); [done|].
  set (live := AddLiveFiles _ _) in *. pose proof (obsolete_files_spec (db_versions db) live (GetChildren (db_env db) (vs_dbname (db_versions db))) (db_tables db)) as Hs.
  destruct (obsolete_files _ _ _ _) as [names tc']. destruct Hs as (Hnames & _). cbn [db_env db_with_files db_with].
  apply remove_names_keeps. intros x Hx Ex. destruct (Hnames x Hx) as (n' & ty' & Ep & Ek).
  apply (base_is (vs_dbname (db_versions db))) in Ep. rewrite <- Ex in Ep. destruct (file_is_fun _ _ _ _ _ _ Hn Ep) as [-> ->]. congruence.
Qed.

(** any other file of the directory, too *)
Lemma RemoveObsoleteFiles_unparsed db name :
  (forall x, name = vs_dbname (db_versions db) ++ text "/" ++ x -> ParseFileName x = None) ->
  stored_file (db_env (RemoveObsoleteFiles db)) name = stored_file (db_env db) name.
Proof.
  intros Hx. unfold RemoveObsoleteFiles. destruct (negb _); [done|]. set (live := AddLiveFiles _ _).
  pose proof (obsolete_files_spec (db_versions db) live (GetChildren (db_env db) (vs_dbname (db_versions db))) (db_tables db)) as Hs.
  destruct (obsolete_files _ _ _ _) as [names tc']. destruct Hs as (Hnames & _). cbn [db_env db_with_files db_with].
  apply remove_names_keeps. intros x Hx' Ex. destruct (Hnames x Hx') as (n' & ty' & Ep & _). by rewrite (Hx x Ex) in Ep.
Qed.

(** C26: Removing obsolete files removes no file in use.  The tables of the
    current version, of every older version still referenced and of every
    output being written stay, as do the logs from the version set's log number
    on, the manifest, CURRENT, and any file that is not one of the database's. *)
Theorem obsolete_files_safe db :
  let vs := db_versions db in
  let same name := stored_file (db_env (RemoveObsoleteFiles db)) name = stored_file (db_env db) name in
  (forall v n name, v = current_ vs \/ (exists refs, (refs, v) ∈ older_ vs) -> n ∈ version_numbers v ->
    file_is (vs_dbname vs) name n kTableFile -> same name) /\
  (forall n name, n ∈ pending_outputs_ db -> file_is (vs_dbname vs) name n kTableFile \/ file_is (vs_dbname vs) name n kTempFile -> same name) /\
  (forall n name, vs_log_number vs <= n \/ n = vs_prev_log_number vs -> file_is (vs_dbname vs) name n kLogFile -> same name) /\
  (forall n name, vs_manifest_file_number vs <= n -> file_is (vs_dbname vs) name n kDescriptorFile -> same name) /\
  same (CurrentFileName (vs_dbname vs)) /\
  (forall name, (forall x, name = vs_dbname vs ++ text "/" ++ x -> ParseFileName x = None) -> same name).
Proof.
  cbv zeta. split; [|split; [|split; [|split; [|split]]]].
  - intros v n name Hv Hn Hname. eapply RemoveObsoleteFiles_keeps; [exact Hname|]. apply bool_decide_eq_true_2, elem_of_AddLiveFiles. right. by exists v.
  - intros n name Hn [Hname|Hname]; (eapply RemoveObsoleteFiles_keeps; [exact Hname|]); apply bool_decide_eq_true_2, elem_of_AddLiveFiles; by left.
  - intros n name Hn Hname. eapply RemoveObsoleteFiles_keeps; [exact Hname|]. cbn [keep_file]. apply orb_true_iff. lia.
  - intros n name Hn Hname. eapply RemoveObsoleteFiles_keeps; [exact Hname|]. cbn [keep_file]. lia.
  - by eapply RemoveObsoleteFiles_keeps; [apply CurrentFileName_is|].
  - apply RemoveObsoleteFiles_unparsed.
Qed.

Lemma tc_ok_sub env tc tc' :
  tc_dbname tc' = tc_dbname tc -> tc_options tc' = tc_options tc -> tc_last_id tc' = tc_last_id tc -> tc_block_cache tc' = tc_block_cache tc ->
  (forall k tab, cached (tc_cache tc') k tab -> cached (tc_cache tc) k tab) -> tc_ok env tc -> tc_ok env tc'.
Proof.
  intros Ed Eo El Eb Hc [Hopt Hlast Htab Hids Hfresh]. split; rewrite ?Eo, ?El, ?Eb; try done.
  - intros key tab Hk. destruct (Htab key tab (Hc _ _ Hk)) as (n & Ek & (c & Hco & Hop) & Hi). exists n. split; [done|]. split; [|done].
    exists c. rewrite Ed. split; [done|]. by rewrite Eo.
  - intros k k' tab tab' Hk Hk'. apply (Hids k k'); by apply Hc.
Qed.

(** a table of a live file stays *)
Lemma RemoveObsoleteFiles_live db n name :
  n ∈ AddLiveFiles (db_versions db) (pending_outputs_ db) -> 0 < n < 2 ^ 64 -> TableFileName (vs_dbname (db_versions db)) n = Done name ->
  stored_file (db_env (RemoveObsoleteFiles db)) name = stored_file (db_env db) name.
Proof.
  intros Hn Hr En. destruct (TableFileName_is (vs_dbname (db_versions db)) n Hr) as (name' & En' & Hi). assert (name' = name) as -> by congruence.
  apply (RemoveObsoleteFiles_keeps db name n kTableFile Hi). by apply bool_decide_eq_true_2.
Qed.

(** the caches keep no table of a removed file *)
Lemma RemoveObsoleteFiles_cache options limit db :
  tables_inv (db_env db) (vs_dbname (db_versions db)) options limit (db_env db, db_tables db) ->
  tables_inv (db_env (RemoveObsoleteFiles db)) (vs_dbname (db_versions db)) options limit (db_env (RemoveObsoleteFiles db), db_tables (RemoveObsoleteFiles db)) /\
    tc_dbname (db_tables (RemoveObsoleteFiles db)) = tc_dbname (db_tables db) /\ tc_options (db_tables (RemoveObsoleteFiles db)) = tc_options (db_tables db) /\
    tc_last_id (db_tables (RemoveObsoleteFiles db)) = tc_last_id (db_tables db) /\ db_versions (RemoveObsoleteFiles db) = db_versions db.
Proof.
  intros [_ Hok Ed Eo Hb]. cbn [fst snd] in *. unfold RemoveObsoleteFiles. destruct (negb _); [split; [by split|done]|].
  set (live := AddLiveFiles _ _).
  pose proof (obsolete_files_spec (db_versions db) live (GetChildren (db_env db) (vs_dbname (db_versions db))) (db_tables db)) as Hs.
  destruct (obsolete_files _ _ _ _) as [names tc']. destruct Hs as (Hnames & Hc & E1 & E2 & E3 & E4). cbn [db_env db_versions db_tables db_with_files db_with]. split; [|done].
  split; cbn [fst snd]; [done| |congruence|congruence|intros k tab Hk; destruct (Hc k tab Hk) as [Hk' _]; by apply (Hb k tab)].
  apply (tc_ok_frame (db_env db)); [|eapply tc_ok_sub; [exact E1|exact E2|exact E3|exact E4| |exact Hok]; intros k tab Hk; by apply Hc].
  intros n tab name c Hr Hn Hname <-. destruct (Hc _ _ Hn) as [_ Hno]. rewrite E1, Ed in Hname.
  apply remove_names_keeps. intros x Hx Ex. destruct (TableFileName_is (vs_dbname (db_versions db)) n Hr) as (name' & En' & Hi).
  assert (name' = name) as -> by congruence. rewrite Ex in Hi. unfold file_is in Hi. rewrite base_name_app in Hi. by apply (Hno x n Hx Hi).
Qed.

(** what is kept of the database's files *)
Lemma RemoveObsoleteFiles_files options content db :
  db_files options content db -> descriptor_log_ (db_versions db) <> None ->
  db_files options content (RemoveObsoleteFiles db) /\ db_versions (RemoveObsoleteFiles db) = db_versions db /\
    tc_last_id (db_tables (RemoveObsoleteFiles db)) = tc_last_id (db_tables db).
Proof.
  intros Hd Hdesc. destruct (RemoveObsoleteFiles_cache options _ db (df_cache _ _ _ Hd)) as (Hinv & Ed & Eo & El & Ev).
  split; [|done]. destruct (df_set _ _ _ Hd) as (num & base & out & rs & m & Hset & Hnums). split; rewrite ?Ev; try done.
  - exists num, base, out, rs, m. split; [|done]. pose proof Hset as ([M1 M2 _ _ _ _] & Hd' & _). unfold descriptor_ok in Hd'.
    destruct (descriptor_log_ (db_versions db)) as [log|] eqn:Elog; [|done]. destruct Hd' as (Eman & _).
    rewrite <- (vs_with_next_same (db_versions db)). apply (version_set_ok_frame (db_env db)); [done| | |].
    + eapply RemoveObsoleteFiles_keeps; [apply base_is; by eapply descriptor_base|]. cbn [keep_file]. lia.
    + by eapply RemoveObsoleteFiles_keeps; [apply CurrentFileName_is|].
    + pose proof Hset as (_ & _ & _ & _ & _ & [[? ?] _ _ _ _] & _). lia.
  - apply Hd.
  - intros l files f Hl Hf. destruct (df_stored _ _ _ Hd l files f Hl Hf) as (c & (Hr & name & En & Es) & Hc).
    exists c. rewrite Ed, Eo. split; [|done]. split; [done|]. exists name. split; [done|].
    rewrite (ti_dbname _ _ _ _ _ (df_cache _ _ _ Hd) : tc_dbname (db_tables db) = _) in En.
    rewrite (RemoveObsoleteFiles_live db (number f)); [done| |done|done].
    apply elem_of_AddLiveFiles. right. exists (current_ (db_versions db)). split; [by left|]. apply elem_of_version_numbers. by exists l, files, f.
Qed.

End Frames.

(** ** The entries, as a table *)

Lemma mem_list_perm m adds : mem_ok m adds -> exists es, mem_list m es /\ es ≡ₚ adds.
Proof.
  intros Hm. destruct (mem_list_exists m adds Hm) as (es & Hl & Hin). exists es. split; [done|]. apply NoDup_Permutation.
  - pose proof (ml_sorted _ _ Hl) as Hs. clear -Hs. induction Hs as [|a es Hs IH Ha]; [constructor|]. apply list.NoDup_cons. split; [|done].
    intros Hin. rewrite list.Forall_forall in Ha. by apply (add_cmp_irrefl a), Ha.
  - apply NoDup_alt. intros i j a Hi Hj. destruct (Nat.lt_trichotomy i j) as [Hij|[Hij|Hij]]; [|done|].
    + pose proof (mo_seqs _ _ Hm i j a a Hij Hi Hj). lia.
    + pose proof (mo_seqs _ _ Hm j i a a Hij Hj Hi). lia.
  - exact Hin.
Qed.

Lemma kv_weight_perm es es' : es ≡ₚ es' -> kv_weight es = kv_weight es'.
Proof. unfold kv_weight. induction 1; cbn [foldr map] in *; lia. Qed.

Section Bounds.
Context {P : Type} `{FilterPolicyOk P} (options : Options (InternalFilterPolicy P)).

Lemma table_fits_perm es es' : es ≡ₚ es' -> table_fits options es -> table_fits options es'.
Proof. intros Hp. unfold table_fits. by rewrite (kv_weight_perm es es'), (Permutation_length Hp). Qed.
End Bounds.

Lemma add_ikey_ok a : add_ok a -> ikey_ok (add_ikey a).
Proof. intros Ha. exists (a_key a), (tag_of (a_seq a) (a_type a)). split; [done|]. by apply add_tag_range. Qed.

Lemma add_ikey_fits a : add_ok a -> key_fits (add_ikey a).
Proof.
  intros (_ & Hk & _). split; [apply add_ikey_nonempty|]. unfold add_ikey, ikey. rewrite blen_app, blen_EncodeFixed64. lia.
Qed.

Lemma file_holds_ends f es :
  file_holds f es -> file_ok f /\ key_fits (smallest f) /\ key_fits (largest f) /\
    exists a z, add_ok a /\ add_ok z /\ smallest f = add_ikey a /\ largest f = add_ikey z /\ a_key a = first_user f /\ a_key z = last_user f.
Proof.
  intros Hf. pose proof Hf as [Hok Hs (a & Ea & Es) (z & Ez & El)]. rewrite list.Forall_forall in Hok.
  assert (Hne : es <> []) by (by destruct es).
  assert (Ha : a ∈ es) by (destruct es; [done|]; injection Ea as ->; by left).
  assert (Hz : z ∈ es) by (by apply last_Some_elem_of).
  pose proof (Hok a Ha) as Ha'. pose proof (Hok z Hz) as Hz'.
  assert (Hle : add_cmp a z <= 0).
  { destruct es as [|b es]; [done|]. injection Ea as ->. apply elem_of_cons in Hz as [->|Hz]; [pose proof (icompare_refl (a_key a) (tag_of (a_seq a) (a_type a))); unfold add_cmp; lia|].
    apply StronglySorted_inv in Hs as [_ Hs]. rewrite list.Forall_forall in Hs. specialize (Hs z Hz). lia. }
  rewrite Es, El. split; [|split; [by apply add_ikey_fits|split; [by apply add_ikey_fits|]]].
  - unfold file_ok. rewrite Es, El. split; [by apply add_ikey_ok|]. split; [by apply add_ikey_ok|]. by rewrite add_ikey_cmp2.
  - exists a, z. do 4 (split; [done|]). unfold first_user, last_user. rewrite Es, El. unfold user_key_of, add_ikey. by rewrite !ExtractUserKey_ikey.
Qed.

(** two files without a common key are one before the other *)
Lemma apart_before f g es es' :
  file_holds f es -> file_holds g es' -> ~ overlaps (Some (first_user f)) (Some (last_user f)) g ->
  file_before f g \/ file_before g f.
Proof.
  intros Hf Hg Hno. destruct (file_holds_ends f es Hf) as (_ & _ & _ & a & z & Ha & Hz & Es & El & E1 & E2).
  destruct (file_holds_ends g es' Hg) as (_ & _ & _ & a' & z' & Ha' & Hz' & Es' & El' & E1' & E2').
  unfold file_before. rewrite Es, El, Es', El', !add_ikey_cmp2 by done. unfold overlaps in Hno. cbn [not_above not_below] in Hno.
  destruct (decide (lex (last_user f) (first_user g) < 0)) as [Hl|Hl]; [left; apply icompare_user; by rewrite E1', E2|].
  destruct (decide (lex (last_user g) (first_user f) < 0)) as [Hr|Hr]; [right; apply icompare_user; by rewrite E1, E2'|].
  exfalso. apply Hno. pose proof (lex_antisym (last_user g) (first_user f)). pose proof (lex_antisym (last_user f) (first_user g)).
  split; lia.
Qed.

Section Flush.
Context {E F R G P CT CB : Type} `{EnvOk E F R G} `{FilterPolicyOk P} `{CacheOk CT (Table (R := R) (P := InternalFilterPolicy P))}
  `{CacheOk CB Block} `{MachineOk} `{SnappyOk}.
Abbreviation DB := (DB (E := E) (F := F) (P := P) (CT := CT) (CB := CB)).
Implicit Types (db : DB) (options : Options (InternalFilterPolicy P)).

Lemma stored_table_size env (tc : TableCache (P := InternalFilterPolicy P) (CT := CT) (CB := CB)) n sz kvs :
  stored_table env tc n sz kvs -> 0 < n < 2 ^ 64 /\ 0 <= sz < 2 ^ 32.
Proof.
  intros (c & (Hn & _) & -> & (dn & idx & irs & footer & Hf & _)). split; [done|]. pose proof (tf_size _ _ _ _ _ _ Hf). pose proof (blen_nonneg c). lia.
Qed.

(** the manifest and CURRENT are not tables *)
Lemma not_a_table dbname n name m ty :
  0 < n < 2 ^ 64 -> TableFileName dbname n = Done name -> ty <> kTableFile -> forall x, file_is dbname x m ty -> name <> x.
Proof.
  intros Hn En Hty x Hx ->. destruct (TableFileName_is dbname n Hn) as (name' & En' & Hi). assert (name' = x) as -> by congruence.
  by destruct (file_is_fun _ _ _ _ _ _ Hi Hx) as [_ <-].
Qed.

(** the files of the manifest have numbers below [n] *)
Definition numbers_below (n : Z) (env : E) (vs : VersionSet F) : Prop :=
  exists num base out rs m, version_set_ok env vs num base out rs m /\
    forall i st k, ms_levels m !! i = Some st -> k ∈ map number (Builder.added_files st) -> k < n.

(** a table of a new number leaves the other files *)
Lemma version_set_new_table options content db env' tc' m m' es num base out rs ms :
  db_files options content db -> number m = vs_next_file_number (db_versions db) -> vs_next_file_number (db_versions db) < 2 ^ 64 - 1 ->
  built (db_env db) (db_tables db) env' tc' m m' es -> version_set_ok (db_env db) (db_versions db) num base out rs ms ->
  version_set_ok env' (vs_with_next (db_versions db) (vs_next_file_number (db_versions db) + 1)) num base out rs ms.
Proof.
  intros Hd En Hbig [_ _ _ _ _ _ Both _] Hset. pose proof (df_cache _ _ _ Hd) as [_ _ Ed _ _]. cbn [fst snd] in *.
  set (next := vs_next_file_number (db_versions db)) in *.
  pose proof Hset as ([M1 M2 _ _ _ _] & _ & _ & _ & _ & [[Hn0 _] _ _ _ _] & _). fold next in Hn0.
  destruct (TableFileName_is (vs_dbname (db_versions db)) next ltac:(lia)) as (name & Ename & _). rewrite En, Ed, Ename in Both.
  assert (Hother : forall x n ty, file_is (vs_dbname (db_versions db)) x n ty -> ty <> kTableFile -> stored_file env' x = stored_file (db_env db) x).
  { intros x n ty Hx Hty. apply Both. intros [= Ex]. by apply (not_a_table (vs_dbname (db_versions db)) next name n ty ltac:(lia) Ename Hty x). }
  apply (version_set_ok_frame (db_env db)); [done| | |fold next; lia].
  - eapply Hother; [apply base_is; by eapply descriptor_base|done].
  - eapply Hother; [apply CurrentFileName_is|done].
Qed.

Lemma built_keeps_table env (tc : TableCache (P := InternalFilterPolicy P) (CT := CT) (CB := CB)) env' tc' m m' es k sz kvs :
  built env tc env' tc' m m' es -> 0 < number m < 2 ^ 64 -> k <> number m -> stored_table env tc k sz kvs -> stored_table env' tc' k sz kvs.
Proof.
  intros [_ _ _ _ (Bd & Bo & _) _ Both _] Hm Hk (c & (Hr & x & Ex & Es) & Hc). exists c. rewrite Bd, Bo. split; [|done]. split; [done|].
  exists x. split; [done|]. rewrite Both; [done|]. intros Ex'. apply Hk. symmetry. by eapply TableFileName_inj.
Qed.

Lemma db_files_new_table options content db env' tc' m m' es pending :
  db_files options content db -> number m = vs_next_file_number (db_versions db) -> vs_next_file_number (db_versions db) < 2 ^ 64 - 1 ->
  built (db_env db) (db_tables db) env' tc' m m' es ->
  db_files options content (db_with_files db env' (vs_with_next (db_versions db) (vs_next_file_number (db_versions db) + 1)) tc' pending) /\
  numbers_below (vs_next_file_number (db_versions db)) env' (vs_with_next (db_versions db) (vs_next_file_number (db_versions db) + 1)).
Proof.
  intros Hd En Hbig Hb. pose proof (df_cache _ _ _ Hd) as [_ _ Ed Eo Hbelow]. cbn [fst snd] in *.
  destruct (df_set _ _ _ Hd) as (num & base & out & rs & ms & Hset & Hnums).
  pose proof (version_set_new_table _ _ _ _ _ _ _ _ _ _ _ _ _ Hd En Hbig Hb Hset) as Hset'. pose proof Hb as [Bn Bs _ Bok (Bd & Bo & Bl) _ Both Bc].
  set (next := vs_next_file_number (db_versions db)) in *. pose proof Hset as (_ & _ & _ & _ & _ & [[Hn0 _] _ _ _ _] & _). fold next in Hn0.
  split; [|by exists num, base, out, rs, ms]. split; cbn [db_env db_versions db_tables db_with_files db_with current_ vs_with_next].
  - exists num, base, out, rs, ms. split; [done|]. intros i st n Hi Hn. specialize (Hnums i st n Hi Hn). cbn. lia.
  - apply Hd.
  - split; cbn [fst snd]; [done|done|by rewrite Bd|by rewrite Bo|]. intros k tab Hk. cbn.
    destruct (Bc k tab Hk) as [->|Hk']; [exists next; rewrite En; split; [done|lia]|].
    destruct (Hbelow k tab Hk') as (n & -> & Hn). exists n. split; [done|]. unfold next in *. lia.
  - intros l files f Hl Hf. pose proof (file_number_below options content db l files f Hd Hl Hf) as Hlt. fold next in Hlt.
    apply (built_keeps_table _ _ _ _ _ _ _ _ _ _ Hb); [lia|lia|]. by apply (df_stored _ _ _ Hd l files).
Qed.

(** what [WriteLevel0Table] leaves: the table [f] of the entries, for a level
    that has no key of theirs, nor has one above it *)
Record level0_written options content db old db' (f : FileMetaData) (level : Z) (es : list add) : Prop := {
  wl_files : db_files options content db';
  wl_db : db' = db_with_files db (db_env db') (vs_with_next (db_versions db) (vs_next_file_number (db_versions db) + 1)) (db_tables db')
                  (({[vs_next_file_number (db_versions db)]} ∪ pending_outputs_ db) ∖ {[vs_next_file_number (db_versions db)]});
  wl_fresh : numbers_below (vs_next_file_number (db_versions db)) (db_env db') (db_versions db');
  wl_number : number f = vs_next_file_number (db_versions db);
  wl_entries : es ≡ₚ old;
  wl_holds : file_holds f es;
  wl_stored : stored_table (db_env db') (db_tables db') (number f) (file_size f) (map add_kv es);
  wl_level : 0 <= level <= 2;
  wl_free : level <> 0 -> forall l, (l <= Z.to_nat level)%nat -> level_free (current_ (db_versions db)) (first_user f) (last_user f) l;
  wl_ids : tc_last_id (db_tables db') <= tc_last_id (db_tables db) + 1 }.

Lemma WriteLevel0Table_spec fuel options content db imm old edit :
  db_files options content db -> mem_ok imm old -> old <> [] -> Forall (fun a => filterable options (add_ikey a)) old ->
  table_fits options (map add_kv old) -> (length old <= fuel)%nat ->
  vs_next_file_number (db_versions db) < 2 ^ 64 - 1 -> tc_last_id (db_tables db) < 2 ^ 64 - 1 ->
  exists db' f level es, WriteLevel0Table fuel options db imm edit (Some (current_ (db_versions db))) =
      Done (db', AddFile level (number f) (file_size f) (smallest f) (largest f) edit, OK) /\ level0_written options content db old db' f level es.
Proof.
  intros Hd Hmem Hne Hfil Hfit Hfuel Hbig Hids. destruct (mem_list_perm imm old Hmem) as (es & Hlist & Hp).
  pose proof (df_cache _ _ _ Hd) as [_ Hok Ed Eo Hbelow]. cbn [fst snd] in *. destruct (df_set _ _ _ Hd) as (num & base & out & rs & ms & Hset & _).
  pose proof Hset as ([M1 _ _ _ _ _] & _ & _ & _ & _ & [[Hn0 _] _ _ _ _] & _).
  set (next := vs_next_file_number (db_versions db)) in *.
  unfold WriteLevel0Table, NewFileNumber. rewrite u64_small by (fold next; lia). fold next. cbn [db_versions db_with_files db_with db_env db_tables pending_outputs_].
  change (vs_dbname (vs_with_next (db_versions db) (next + 1))) with (vs_dbname (db_versions db)).
  change (vs_max_file_size (vs_with_next (db_versions db) (next + 1))) with (vs_max_file_size (db_versions db)). rewrite <- Ed.
  destruct (BuildTable_spec fuel (db_env db) (db_tables db) (mem_NewIterator imm) (length es) es options (new_meta next))
    as (env' & tc' & f & -> & Hb).
  { rewrite <- Eo. apply Hok. } { done. } { done. } { cbn. lia. }
  { cbn. intros tab Hk. destruct (Hbelow _ _ Hk) as (n & Ek & Hn). assert (next = n) by (apply table_key_inj; [lia|lia|done]). lia. }
  { done. } { by apply mem_NewIterator_at. } { intros ->. by apply Permutation_nil_l in Hp. } { apply Hlist. } { apply Hlist. }
  { by rewrite Hp. } { eapply table_fits_perm; [|exact Hfit]. apply fmap_Permutation. by symmetry. } { by rewrite (Permutation_length Hp). }
  cbn [mbind outcome_bind]. rewrite bool_decide_eq_true_2 by done. rewrite (proj2 (Z.ltb_lt 0 (file_size f))) by apply Hb. cbn [andb].
  destruct (file_users f es (bu_holds _ _ _ _ _ _ _ Hb)) as (-> & -> & _). cbn [mbind outcome_bind].
  destruct (PickLevelForMemTableOutput_spec content (current_ (db_versions db)) (vs_max_file_size (db_versions db)) (first_user f) (last_user f) (df_version _ _ _ Hd))
    as (level & -> & Hlevel & Hfree). cbn [mbind outcome_bind].
  destruct (db_files_new_table options content db env' tc' (new_meta next) f es (({[next]} ∪ pending_outputs_ db) ∖ {[next]}) Hd eq_refl Hbig Hb)
    as [Hfiles Hfresh].
  eexists _, f, level, es. split; [reflexivity|]. split; try done.
  - by rewrite (bu_number _ _ _ _ _ _ _ Hb).
  - apply Hb.
  - apply Hb.
  - cbn. destruct (bu_config _ _ _ _ _ _ _ Hb) as (_ & _ & ?). lia.
Qed.
(** ** Installing the table *)

Definition table_of (f : FileMetaData) : FileMetaData :=
  {| allowed_seeks := Z.shiftl 1 30; number := number f; file_size := file_size f; smallest := smallest f; largest := largest f |}.

Definition flush_edit (log level : Z) (f : FileMetaData) : VersionEdit :=
  SetLogNumber log (SetPrevLogNumber 0 (AddFile level (number f) (file_size f) (smallest f) (largest f) make_VersionEdit)).

Lemma news_flush log level f i :
  0 <= level -> news i (new_files_ (flush_edit log level f)) = if decide (i = Z.to_nat level) then [seeded (table_of f)] else [].
Proof.
  intros Hl. change (new_files_ (flush_edit log level f)) with [(level, table_of f)]. unfold news, at_. rewrite filter_cons, filter_nil. cbn [fst].
  destruct (decide (i = Z.to_nat level)) as [Hi|Hi]; [rewrite decide_True by lia; done|rewrite decide_False by lia; done].
Qed.

(** the files of a level after a flush *)
Lemma after_flush log level f i files g :
  0 <= level -> after_edit (at_ i (deleted_files_ (flush_edit log level f))) (news i (new_files_ (flush_edit log level f))) files g <->
    (i = Z.to_nat level /\ g = seeded (table_of f)) \/ g ∈ files.
Proof.
  intros Hl. rewrite news_flush by done. unfold after_edit, at_. cbn [deleted_files_ flush_edit SetLogNumber SetPrevLogNumber AddFile add_new_file make_VersionEdit].
  cbn. rewrite elem_of_nil. destruct (decide (i = Z.to_nat level)) as [->|Hi]; rewrite ?list_elem_of_singleton, ?elem_of_nil; tauto.
Qed.

Lemma flush_edit_good options content db old db' f level es num base out rs m :
  db_files options content db -> level0_written options content db old db' f level es -> Forall add_ok old -> vs_next_file_number (db_versions db) < 2 ^ 64 - 1 ->
  version_set_ok (db_env db') (db_versions db') num base out rs m ->
  (forall i st k, ms_levels m !! i = Some st -> k ∈ map number (Builder.added_files st) -> k < vs_next_file_number (db_versions db)) ->
  0 <= logfile_number_ db < 2 ^ 64 -> vs_log_number (db_versions db) <= logfile_number_ db <= vs_next_file_number (db_versions db) ->
  edit_good m (db_versions db') (flush_edit (logfile_number_ db) level f).
Proof.
  intros Hd [_ Edb _ En Hp Hholds Hst Hlevel Hfree _] Hadds Hbig Hset Hfresh Hlog Hlog2.
  destruct (stored_table_size _ _ _ _ _ Hst) as [Hn Hsz]. destruct (file_holds_ends f es Hholds) as (Hfok & Hks & Hkl & _).
  assert (Ev : db_versions db' = vs_with_next (db_versions db) (vs_next_file_number (db_versions db) + 1)) by (by rewrite Edb).
  rewrite Ev in *. pose proof Hset as (_ & _ & Hv & Hm & _). split.
  - split; try done; [|constructor|by constructor]. apply Forall_fields. do 5 (split; [try done; cbn; lia|]). split; [constructor|]. split; [constructor|].
    constructor; [|constructor]. unfold meta_fits. cbn. unfold kNumLevels. repeat split; try lia; try apply Hks; apply Hkl.
  - done.
  - intros _. cbn. lia.
  - constructor; [exact Hfok|constructor].
  - intros i st Hi. rewrite news_flush by lia. pose proof (lf_numbers _ (proj2 (mb_levels _ _ Hm) i st Hi)) as Hnd.
    destruct (decide _); [|by rewrite app_nil_r]. apply list.NoDup_app. split; [done|]. split; [|apply list.NoDup_singleton].
    intros k Hk Hk'%list_elem_of_singleton. specialize (Hfresh i st k Hi Hk). cbn in Hk'. lia.
  - intros i files Hf g h Hg Hh Hgh. rewrite after_flush in Hg, Hh by lia. cbn in Hf.
    assert (Hnew : forall g, S i = Z.to_nat level -> g ∈ files -> file_before (seeded (table_of f)) g \/ file_before g (seeded (table_of f))).
    { intros x Hi Hx. destruct (version_level content _ (S i) (df_version _ _ _ Hd)) as (fs & Hfs & Hall & _).
      { apply lookup_lt_Some in Hf. by rewrite (vo_levels _ _ (df_version _ _ _ Hd)) in Hf. }
      assert (fs = files) as -> by congruence. rewrite list.Forall_forall in Hall. apply (apart_before f x es _ Hholds (Hall x Hx)).
      intros Hov. apply (Hfree ltac:(lia) (S i) ltac:(lia) files Hf). apply list.Exists_exists. by exists x. }
    destruct Hg as [[Hi ->]|Hg], Hh as [[Hi' ->]|Hh]; [done|by apply Hnew| |].
    + destruct (Hnew g Hi' Hg); [by right|by left].
    + pose proof (vf_before _ Hv i files Hf) as Hb. apply list_elem_of_lookup in Hg as (a & Ha), Hh as (b & Hb').
      destruct (Nat.lt_trichotomy a b) as [Hab|[->|Hab]]; [left|congruence|right]; by eapply (sorted_lookup _ files).
Qed.

Lemma version_fits_files options content db l files :
  db_files options content db -> files_ (current_ (db_versions db)) !! l = Some files -> NoDup (map number files).
Proof.
  intros Hd Hfs. destruct (df_set _ _ _ Hd) as (num & base & out & rs & m & (_ & _ & Hv & _) & _).
  apply (lf_numbers _ (proj1 (vf_files _ Hv l files Hfs))).
Qed.

Definition levels_room (v : Version) : Prop := forall l files, files_ v !! l = Some files -> Z.of_nat (length files) < 2 ^ 31 - 1.

Lemma flush_added options content db old db' f level es log vs :
  db_files options content db -> level0_written options content db old db' f level es ->
  newer_than old (version_adds content (current_ (db_versions db))) -> levels_room (current_ (db_versions db)) ->
  version_fits vs -> logged (db_versions db') (flush_edit log level f) vs ->
  file_added content (current_ (db_versions db)) (current_ vs) (Z.to_nat level) (seeded (table_of f)) es.
Proof.
  intros Hd [_ Edb _ En Hp Hholds _ Hlevel Hfree _] Hnew Hroom Hv Hl. rewrite Edb in Hl. cbn [db_versions db_with_files db_with] in Hl.
  assert (Hlt : forall l files g, files_ (current_ (db_versions db)) !! l = Some files -> g ∈ files -> number g < number f).
  { intros l files g Hfs Hg. pose proof (file_number_below options content db l files g Hd Hfs Hg). lia. }
  split; try done.
  - unfold kNumLevels. lia.
  - apply Hv.
  - apply (file_holds_seeded (table_of f)). destruct Hholds as [? ? ? ?]. by split.
  - intros a b Ha Hb. rewrite Hp in Ha. by apply Hnew.
  - intros Hne. apply Hfree. intros ->. done.
  - intros l files Hfs. destruct (lg_files _ _ _ Hl l files Hfs) as (files' & Hfs' & Hin). exists files'. split; [done|].
    destruct (vf_files _ Hv l files' Hfs') as [[_ _ Hnd] _]. split; [|split; [done|intros Hl0; destruct l; [lia|by apply (vf_before _ Hv l)]]].
    pose proof (version_fits_files options content db l files Hd Hfs) as Hnd0.
    apply NoDup_Permutation; [by apply (NoDup_fmap_1 number)| |].
    + unfold with_file. destruct (decide (l = Z.to_nat level)) as [->|]; [apply list.NoDup_cons; split|]; [|by apply (NoDup_fmap_1 number)..].
      intros Hx. specialize (Hlt _ _ _ Hfs Hx). cbn in Hlt. lia.
    + intros g. rewrite Hin, after_flush by lia. unfold with_file. destruct (decide (l = Z.to_nat level)) as [->|]; rewrite ?elem_of_cons; naive_solver.
Qed.
(** ** Files other than the manifest's *)

(** the tables of the directory are as they were *)
Definition tables_kept (env env' : E) (dbname : bytes) : Prop :=
  forall n name, 0 < n < 2 ^ 64 -> TableFileName dbname n = Done name -> stored_file env' name = stored_file env name.

Lemma tables_inv_kept env env' dbname options limit tc :
  tables_kept env env' dbname -> tables_inv env dbname options limit (env, tc) -> tables_inv env' dbname options limit (env', tc).
Proof.
  intros Hk [_ Hok Ed Eo Hb]. cbn [fst snd] in *. split; cbn [fst snd]; try done. apply (tc_ok_frame env); [|done].
  intros n tab name c Hn _ Hname Hs. rewrite Ed in Hname. by rewrite (Hk n name).
Qed.

Lemma stored_table_kept env env' (tc : TableCache (P := InternalFilterPolicy P) (CT := CT) (CB := CB)) n sz kvs :
  tables_kept env env' (tc_dbname tc) -> stored_table env tc n sz kvs -> stored_table env' tc n sz kvs.
Proof.
  intros Hk Hs. destruct (stored_table_size _ _ _ _ _ Hs) as [Hn _]. apply (stored_table_frame env); [|done].
  intros name c Hname <-. by apply (Hk n).
Qed.

(** logging an edit keeps the tables *)
Lemma logged_keeps_tables (vs vs' : VersionSet F) e env env' num base out rs m :
  0 < num < 2 ^ 64 -> version_set_ok env' vs' num base out rs m -> logged vs e vs' ->
  (forall name, name <> vs_dbname vs ++ text "/" ++ base -> name <> CurrentFileName (vs_dbname vs) ->
    ~ file_is (vs_dbname vs) name num kTempFile -> stored_file env' name = stored_file env name) ->
  tables_kept env env' (vs_dbname vs).
Proof.
  intros Hnum ([_ Hname _ _ _ _] & _) Hl Ho n name Hn En. destruct (lg_config _ _ _ Hl) as (Ed & _). rewrite Ed in Hname. apply Ho.
  - eapply (not_a_table _ n name num kDescriptorFile Hn En); [done|]. apply base_is. by eapply descriptor_base.
  - by eapply (not_a_table _ n name _ _ Hn En); [|apply CurrentFileName_is].
  - intros Ht. by apply (not_a_table _ n name num kTempFile Hn En ltac:(done) name Ht).
Qed.

(** the version set always has a manifest open after logging *)
Lemma logged_descriptor (vs vs' : VersionSet F) e env base out rs m :
  version_set_ok env vs' (vs_manifest_file_number vs) base out rs m -> logged vs e vs' -> descriptor_log_ vs' <> None.
Proof.
  intros (_ & Hd & _) Hl Hn. unfold descriptor_ok in Hd. rewrite Hn in Hd. destruct (lg_numbers _ _ _ Hl) as (_ & E1 & _). lia.
Qed.

(** the database once the table is installed *)
Lemma db_files_flushed options content db old db' f level es log env vs base out rs m ms :
  db_files options content db -> level0_written options content db old db' f level es ->
  newer_than old (version_adds content (current_ (db_versions db))) -> levels_room (current_ (db_versions db)) ->
  logged (db_versions db') (flush_edit log level f) vs ->
  version_set_ok env vs (vs_manifest_file_number (db_versions db')) base out rs m ->
  (forall i st', ms_levels m !! i = Some st' -> forall n, n ∈ map number (Builder.added_files st') -> n ∈ map number (news i (new_files_ (flush_edit log level f))) \/
      exists st, ms_levels ms !! i = Some st /\ n ∈ map number (Builder.added_files st)) ->
  (forall i st k, ms_levels ms !! i = Some st -> k ∈ map number (Builder.added_files st) -> k < vs_next_file_number (db_versions db)) ->
  tables_kept (db_env db') env (vs_dbname (db_versions db')) ->
  db_files options (set_content content (number f) es) (db_with_files db' env vs (db_tables db') (pending_outputs_ db')) /\
  (forall a, a ∈ version_adds (set_content content (number f) es) (current_ vs) <-> a ∈ old \/ a ∈ version_adds content (current_ (db_versions db))).
Proof.
  intros Hd Hw Hnewer Hroom Hl Hset Hnums Hfresh Hkept. pose proof Hset as (_ & _ & Hv & _).
  pose proof (flush_added _ _ _ _ _ _ _ _ _ _ Hd Hw Hnewer Hroom Hv Hl) as Ha. pose proof (df_version _ _ _ Hd) as Hver.
  pose proof (wl_db _ _ _ _ _ _ _ _ Hw) as Edb. pose proof (wl_number _ _ _ _ _ _ _ _ Hw) as En.
  destruct (lg_config _ _ _ Hl) as (Ed & _). destruct (lg_numbers _ _ _ Hl) as (Enext & _).
  assert (Enext' : vs_next_file_number (db_versions db') = vs_next_file_number (db_versions db) + 1) by (by rewrite Edb).
  pose proof (df_cache _ _ _ (wl_files _ _ _ _ _ _ _ _ Hw)) as Hinv. split.
  - split; cbn [db_env db_versions db_tables db_with_files db_with].
    + exists (vs_manifest_file_number (db_versions db')), base, out, rs, m. split; [done|]. intros i st n Hi Hn. rewrite Enext, Enext'.
      destruct (Hnums i st Hi n Hn) as [Hn'|(st0 & Hi0 & Hn0)]; [|specialize (Hfresh i st0 n Hi0 Hn0); lia].
      rewrite news_flush in Hn' by apply Hw. destruct (decide _); [|by apply elem_of_nil in Hn']. apply list_elem_of_singleton in Hn'. cbn in Hn'. lia.
    + exact (version_ok_added content _ _ _ _ _ Hver Ha).
    + rewrite Ed, Enext. by eapply tables_inv_kept.
    + intros l files g Hfs Hg. apply (stored_table_kept (db_env db')).
      { by rewrite (ti_dbname _ _ _ _ _ Hinv : tc_dbname (db_tables db') = _). }
      destruct (added_in content _ _ _ _ _ Hver Ha l files g Hfs Hg) as [[_ ->]|(files0 & Hfs0 & Hg0)].
      * cbn [number file_size seeded with_seeks table_of]. rewrite set_content_new. apply Hw.
      * rewrite (added_old content _ _ _ _ _ Ha l files0) by done. apply (df_stored _ _ _ (wl_files _ _ _ _ _ _ _ _ Hw) l files0); [|done].
        by rewrite Edb.
  - intros a. rewrite (version_adds_added content _ _ _ _ _ Hver Ha). by rewrite (wl_entries _ _ _ _ _ _ _ _ Hw).
Qed.
(** ** [CompactMemTable] *)

(** what the compaction of the immutable memtable [imm] needs: its entries fit a
    table, and the 64-bit counters and the level sizes have room *)
Record flushable options (fuel : nat) db (imm : MemTable) (old : list add) : Prop := {
  fl_imm : db_imm db = Some imm;
  fl_some : old <> [];
  fl_filter : Forall (fun a => filterable options (add_ikey a)) old;
  fl_fits : table_fits options (map add_kv old);
  fl_fuel : (length old <= fuel)%nat;
  fl_next : vs_next_file_number (db_versions db) < 2 ^ 64 - 1;
  fl_ids : tc_last_id (db_tables db) < 2 ^ 64 - 1;
  fl_room : levels_room (current_ (db_versions db));
  fl_log : vs_log_number (db_versions db) <= logfile_number_ db <= vs_next_file_number (db_versions db) }.

(** the database after a compaction of its memtable *)
Record compacted options (content : Z -> list add) db (old new : list add) (content' : Z -> list add) db' : Prop := {
  cp_state : db_state options content' db' [] new;
  cp_imm : db_imm db' = None;
  cp_adds a : a ∈ db_adds content' db' [] new <-> a ∈ db_adds content db old new;
  cp_log : vs_log_number (db_versions db') = logfile_number_ db;
  cp_last : vs_last_sequence (db_versions db') = vs_last_sequence (db_versions db);
  cp_ids : tc_last_id (db_tables db') <= tc_last_id (db_tables db) + 1;
  cp_next : vs_next_file_number (db_versions db') = vs_next_file_number (db_versions db) + 1;
  cp_refs : current_refs_ (db_versions db') = 1;
  cp_running : shutting_down_ db' = false;
  cp_levels l files' : files_ (current_ (db_versions db')) !! l = Some files' -> exists files, files_ (current_ (db_versions db)) !! l = Some files /\
    (length files' <= S (length files))%nat /\ ((2 < l)%nat -> files' ≡ₚ files) }.

Lemma RemoveObsoleteFiles_rest db :
  db_mem (RemoveObsoleteFiles db) = db_mem db /\ db_imm (RemoveObsoleteFiles db) = db_imm db.
Proof. unfold RemoveObsoleteFiles. destruct (negb _); [done|]. by destruct (obsolete_files _ _ _ _). Qed.
Lemma RemoveObsoleteFiles_running db : shutting_down_ (RemoveObsoleteFiles db) = shutting_down_ db.
Proof. unfold RemoveObsoleteFiles. destruct (negb _); [done|]. by destruct (obsolete_files _ _ _ _). Qed.

Lemma CompactMemTable_spec fuel options content db imm old new :
  db_state options content db old new -> flushable options fuel db imm old -> shutting_down_ db = false ->
  exists content' db', CompactMemTable fuel options db = Done db' /\ compacted options content db old new content' db'.
Proof.
  intros [Hd Hmem Himm Hlast Hin Hmn] [Ei Hne Hfil Hfit Hfuel Hbig Hids Hroom Hlog] Hsd. unfold CompactMemTable. rewrite Ei in Himm |- *.
  destruct (WriteLevel0Table_spec fuel options content db imm old make_VersionEdit Hd Himm Hne Hfil Hfit Hfuel Hbig Hids) as (db1 & f & level & es & -> & Hw).
  cbn [mbind outcome_bind]. pose proof (wl_db _ _ _ _ _ _ _ _ Hw) as Edb. assert (Hsd1 : shutting_down_ db1 = false) by (by rewrite Edb).
  rewrite Hsd1, andb_false_r. rewrite bool_decide_eq_true_2 by done.
  destruct (wl_fresh _ _ _ _ _ _ _ _ Hw) as (num & base & out & rs & ms & Hset & Hfresh).
  assert (Hnl : vs_log_number (db_versions db1) = vs_log_number (db_versions db)) by (by rewrite Edb).
  assert (Hlf : logfile_number_ db1 = logfile_number_ db) by (by rewrite Edb).
  pose proof Hset as (_ & _ & _ & _ & _ & [_ _ _ Hlognr _] & _). rewrite Hnl in Hlognr.
  assert (Hgood : edit_good ms (db_versions db1) (flush_edit (logfile_number_ db) level f)).
  { eapply flush_edit_good; [exact Hd|exact Hw|apply Himm|done|exact Hset|done|lia|done]. }
  destruct (LogAndApply_spec _ _ _ _ _ _ _ _ Hset Hgood) as (env2 & vs2 & base2 & out2 & rs2 & m2 & El & Hset2 & Hl & Hnums & Ho).
  rewrite Hlf. change (SetLogNumber (logfile_number_ db) _) with (flush_edit (logfile_number_ db) level f). rewrite El. cbn [mbind outcome_bind].
  rewrite bool_decide_eq_true_2 by done. pose proof (logged_descriptor _ _ _ _ _ _ _ _ Hset2 Hl) as Hdesc.
  assert (Hkept : tables_kept (db_env db1) env2 (vs_dbname (db_versions db1))) by (eapply logged_keeps_tables; [apply (proj1 Hset2)|exact Hset2|exact Hl|exact Ho]).
  destruct (db_files_flushed _ _ _ _ _ _ _ _ _ _ _ _ _ _ _ _ Hd Hw Hin Hroom Hl Hset2 Hnums Hfresh Hkept) as [Hfiles Hadds].
  pose proof (flush_added _ _ _ _ _ _ _ _ _ _ Hd Hw Hin Hroom (proj1 (proj2 (proj2 Hset2))) Hl) as Hadded.
  set (db2 := db_with (db_with_files db1 env2 vs2 _ _) None _ _ _ _ _).
  assert (Hfiles2 : db_files options (set_content content (number f) es) db2) by (by destruct Hfiles; split).
  destruct (RemoveObsoleteFiles_files options _ db2 Hfiles2 Hdesc) as (Hfiles3 & Ev & El3). destruct (RemoveObsoleteFiles_rest db2) as [Em3 Ei3].
  exists (set_content content (number f) es), (RemoveObsoleteFiles db2). split; [done|].
  destruct (lg_numbers _ _ _ Hl) as (_ & _ & Els).
  assert (El1 : vs_last_sequence vs2 = vs_last_sequence (db_versions db)) by (rewrite Els; by rewrite Edb).
  split; rewrite ?Ev, ?Ei3, ?El3; try done.
  - split; rewrite ?Ev, ?Ei3, ?Em3; try done.
    + cbn. by rewrite Edb.
    + cbn. by rewrite El1.
    + by intros a b ?%elem_of_nil.
    + intros a b Ha Hb. cbn [app] in Hb. apply Hadds in Hb. apply Hmn; [done|]. by rewrite elem_of_app.
  - intros a. unfold db_adds. rewrite Ev, !elem_of_app, elem_of_nil. cbn [db_versions db2 db_with db_with_files]. rewrite Hadds. tauto.
  - cbn. by rewrite (lg_log _ _ _ Hl).
  - cbn. exact (wl_ids _ _ _ _ _ _ _ _ Hw).
  - cbn. destruct (lg_numbers _ _ _ Hl) as (-> & _). by rewrite Edb.
  - cbn. apply Hl.
  - by rewrite RemoveObsoleteFiles_running.
  - intros l files' Hl'. destruct (added_back content _ _ _ _ _ (df_version _ _ _ Hd) Hadded l files' Hl') as (files & Hf & Hp). exists files. split; [done|].
    pose proof (wl_level _ _ _ _ _ _ _ _ Hw). pose proof (Permutation_length Hp) as Hlen. unfold with_file in Hp, Hlen. case_decide; cbn [length] in Hlen.
    + split; [lia|]. lia.
    + split; [lia|done].
Qed.
End Flush.
