(* ===== verification/DBTheorems.v ===== *)
(** * DBTheorems: a database on its files, from its creation on

    A new database is an empty version; an edit that was logged is there when the
    manifest is read again; a read gives the newest entry; and compacting the
    memtable keeps every read. *)

From Stdlib.Strings Require Import Byte.
From Stdlib.Sorting Require Import Sorted.
From stdpp Require Import gmap sorting.
From S2P Require Import Prelude Status Coding DbFormat WriteBatch SkipList SkipListSpec MemTable Crc32c Log LogSpec Bloom FilterBlock Block BlockSpec Format TableBuilder Table TableSpec TableTheorems VersionEdit Version VersionSpec VersionLevels Env Filename TableCache Builder VersionSet VersionSetSpec Manifest DBFiles DBSpec DBFlush.

Section New.
Context {E F R G : Type} `{EnvOk E F R G, !Machine, !MachineOk}.

(** the version set of a new database *)
Definition new_set (dbname : bytes) (mfs : Z) (reuse : bool) (log : log_Writer F) : VersionSet F :=
  vs_with_descriptor (vs_with_numbers (make_VersionSet dbname mfs reuse) 2 1 0 0 0) (Some log).

Lemma new_db_edit_ok : edit_ok new_db_edit.
Proof. split; try done; [|constructor]. repeat constructor; cbn; lia. Qed.

Lemma make_Version_lookup i files : files_ make_Version !! i = Some files -> files = [].
Proof. cbn. by intros [-> _]%lookup_replicate_1. Qed.

Lemma new_set_fits dbname mfs reuse log : version_fits (new_set dbname mfs reuse log).
Proof.
  split; cbn.
  - done.
  - intros i files Hi. apply (make_Version_lookup i) in Hi as ->. split; [apply level_files_nil|constructor].
  - intros i files Hi. apply (make_Version_lookup (S i)) in Hi as ->. constructor.
  - split; [done|]. apply Forall_replicate. by left.
Qed.

(** what the record of a new database makes: nothing but numbers *)
Record new_manifest (m : manifest_state) : Prop := {
  nw_makes : makes m make_Version;
  nw_empty i st : ms_levels m !! i = Some st -> Builder.added_files st = [];
  nw_pointers : ms_pointers m = replicate (Z.to_nat kNumLevels) [];
  nw_numbers : ms_log m = Some 0 /\ ms_prev m = None /\ ms_next m = Some 2 /\ ms_last m = Some 0 }.

Lemma new_manifest_spec :
  exists enc m, EncodeTo new_db_edit [] = Done enc /\ manifest_record initial_manifest enc = Done m /\ new_manifest m /\ blen enc <= 100.
Proof.
  destruct (manifest_record_spec initial_manifest new_db_edit new_db_edit_ok) as (enc & levels & Ee & Er & Hlok & _ & Happ);
    [done| |apply make_Builder_ok|apply length_replicate|].
  { split; [constructor|constructor|]. split; [constructor|]. intros i st Hi. cbn in Hi. rewrite (make_Builder_lookup _ _ Hi). constructor. }
  assert (Hempty : forall i st, levels !! i = Some st -> Builder.added_files st = [] /\ Builder.deleted_files st = ∅).
  { intros i st Hi. destruct (lookup_lt_is_Some_2 Builder.make_Builder i) as [st0 Hst0].
    { rewrite length_make_Builder, <- (proj1 Hlok). by apply lookup_lt_Some in Hi. }
    destruct (Happ i st0 st Hst0 Hi) as [Hd Ha _]. rewrite (make_Builder_lookup _ _ Hst0) in Hd, Ha. cbn in Hd, Ha. split.
    - destruct (Builder.added_files st) as [|g l]; [done|]. specialize (Ha g). set_solver.
    - apply set_eq. intros n. rewrite Hd. set_solver. }
  exists enc, (after_record initial_manifest new_db_edit levels). split; [done|]. split; [done|]. split.
  2: { assert (Hx : match EncodeTo new_db_edit [] with Done b => blen b <= 100 | _ => False end) by (vm_compute; discriminate). by rewrite Ee in Hx. }
  split; try done.
  - split; [done|done|]. intros i st files Hi ->%make_Version_lookup. destruct (Hempty i st Hi) as [Ha Hd].
    split; [apply level_files_nil|]. intros f. rewrite Ha. cbn. rewrite !elem_of_nil. tauto.
  - intros i st Hi. by apply (Hempty i st).
Qed.
(** a short record at the start of a log *)
Lemma short_fragment d out : blen d <= 100 -> fragments 0 true d out -> blen out = kHeaderSize + blen d.
Proof.
  intros Hd Hf. assert (Ha : available 0 = kBlockSize - kHeaderSize) by reflexivity. unfold kBlockSize, kHeaderSize in *.
  inversion Hf as [? ? ? Hle|? ? ? ? Hlt]; subst; [|lia]. by rewrite blen_chunk.
Qed.

(** [NewDB] makes the manifest of an empty version, numbered 1 *)
Lemma NewDB_spec env dbname mfs reuse :
  exists env' log base out enc m, NewDB env dbname = Done (env', OK) /\
    version_set_ok env' (new_set dbname mfs reuse log) 1 base out [enc] m /\ new_manifest m /\ blen out < 2 ^ 64.
Proof.
  destruct (DescriptorFileName_is dbname 1 ltac:(lia)) as (base & Ed & Hp & Hnl). unfold NewDB. rewrite Ed. cbn [mbind outcome_bind].
  set (name := dbname ++ text "/" ++ base) in *.
  destruct (NewWritableFile_ok env name) as (env1 & f & -> & Hw & Hn & _ & _). destruct (make_Writer_at f 0 ltac:(lia)) as (w & -> & Edw & Hwr).
  cbn [mbind outcome_bind]. destruct new_manifest_spec as (enc & m & -> & Er & Hm & Henc). cbn [mbind outcome_bind].
  destruct (AddRecord_spec w 0 enc Hwr) as (log & o & Ea & Hfr & Ewr & Hwr'). rewrite Ea. cbn [mbind outcome_bind append_status].
  assert (Efn : file_name (dest_ log) = name).
  { apply (AddRecord_keeps (fun g => file_name g = name)) with (w := w) (slice := enc) (b := true);
      [intros g bs; by rewrite file_name_Append|intros g; by rewrite file_name_Flush|done|by rewrite Edw]. }
  rewrite Edw, Hw in Ewr. cbn [app] in Ewr. pose proof (short_fragment _ _ Henc Hfr) as Ho.
  rewrite bool_decide_eq_true_2 by done. destruct (file_Sync_ok env1 (dest_ log)) as (env2 & -> & _ & _).
  rewrite bool_decide_eq_true_2 by done. destruct (file_Close_ok env2 (dest_ log)) as (env3 & -> & Hs3 & _).
  rewrite bool_decide_eq_true_2 by done. rewrite Efn, Ewr in Hs3. destruct (SetCurrentFile_spec env3 dbname 1 base ltac:(lia) Ed) as (env' & -> & Hc & Hoth).
  destruct (manifest_name dbname 1 base 1 Ed ltac:(lia)) as [Hnt Hnc].
  exists env', log, base, o, enc, m. split; [done|]. split; [|split; [done|unfold kHeaderSize in Ho; lia]].
  pose proof Hm as [Hmk _ Hptr (N1 & N2 & N3 & N4)]. split; [|split; [|split; [apply new_set_fits|split; [exact Hmk|split; [exact Hptr|split]]]]].
  - split; try done; [by rewrite Hoth| |eapply reads_cons; [done|apply Hmk|constructor]].
    exists [0 + blen o]. pose proof (log_cons 0 enc [] [] o [] Hfr (log_nil _)) as Hx. by rewrite app_nil_r in Hx.
  - unfold descriptor_ok. cbn. rewrite Efn, Ewr. done.
  - split; cbn; lia.
  - split; cbn; rewrite ?N1, ?N2; try done; [exists 2; by rewrite N3|exists 0; by rewrite N4].
Qed.
End New.

(** ** The manifest *)

Section Manifest.
Context {E F R G : Type} `{EnvOk E F R G, !Machine, !MachineOk}.

(** reading the manifest of [dbname] again gives back [vs] *)
Definition recoverable (env : E) (vs : VersionSet F) : Prop :=
  forall mfs reuse save, exists N, forall fuel cnt, (N <= fuel)%nat -> (N <= cnt)%nat ->
    exists env' vs' save', Recover fuel cnt env (make_VersionSet (vs_dbname vs) mfs reuse) save = Done (env', vs', save', OK) /\
      recovered_set vs vs' /\ older_ vs' = [].

Lemma version_set_recoverable env vs num base out rs m :
  version_set_ok env vs num base out rs m -> vs_next_file_number vs < 2 ^ 64 - 1 -> blen out < 2 ^ 64 -> recoverable env vs.
Proof.
  intros Hset Hnext Hout mfs reuse save. exists (2 + length base + length out + length rs)%nat. intros fuel cnt Hf Hc.
  destruct (Recover_spec fuel cnt env vs mfs reuse save num base out rs m Hset) as (env' & vs' & save' & E1 & _ & Hr & Ho & _); try lia.
  by exists env', vs', save'.
Qed.

(** C8: An edit that was logged is not lost.  On a version set that stands on its
    manifest, [LogAndApply] of a good edit succeeds, changes each level as the
    edit says, leaves a version set that stands on its manifest, and [Recover]
    of a new version set over the same directory succeeds and gives the same
    files of each level, the same compaction pointers and the same log numbers,
    as long as the manifest has less than 2^64 bytes. *)
Theorem logged_edit_recovered env (vs : VersionSet F) e num base out rs m :
  version_set_ok env vs num base out rs m -> edit_good m vs e -> vs_next_file_number vs < 2 ^ 64 - 1 ->
  exists env' vs', LogAndApply env vs e = Done (env', vs', OK) /\ logged vs e vs' /\
    (exists num' base' out' rs' m', version_set_ok env' vs' num' base' out' rs' m' /\ (blen out' < 2 ^ 64 -> recoverable env' vs')).
Proof.
  intros Hset He Hnext. destruct (LogAndApply_spec _ _ _ _ _ _ _ _ Hset He) as (env' & vs' & base' & out' & rs' & m' & El & Hset' & Hl & _).
  exists env', vs'. split; [done|]. split; [done|]. exists (vs_manifest_file_number vs), base', out', rs', m'. split; [done|].
  intros Hout. eapply version_set_recoverable; [exact Hset'| |done]. by rewrite (proj1 (lg_numbers _ _ _ Hl)).
Qed.

(** A new database is an empty one.  [NewDB] succeeds in any directory, and
    reading the manifest it left gives a version without files, with log
    number 0 and last number 0. *)
Theorem new_database_recovered (env : E) dbname mfs reuse save :
  exists env', NewDB env dbname = Done (env', OK) /\
    exists N, forall fuel cnt, (N <= fuel)%nat -> (N <= cnt)%nat ->
      exists env'' vs' save', Recover fuel cnt env' (make_VersionSet dbname mfs reuse) save = Done (env'', vs', save', OK) /\
        files_ (current_ vs') = replicate (Z.to_nat kNumLevels) [] /\ vs_log_number vs' = 0 /\ vs_last_sequence vs' <= 0 /\ vs_next_file_number vs' <= 3.
Proof.
  destruct (NewDB_spec env dbname mfs reuse) as (env' & log & base & out & enc & m & E1 & Hset & _ & Hout). exists env'. split; [done|].
  destruct (version_set_recoverable _ _ _ _ _ _ _ Hset ltac:(cbn; lia) Hout mfs reuse save) as (N & HN). exists N. intros fuel cnt Hf Hc.
  destruct (HN fuel cnt Hf Hc) as (env'' & vs' & save' & E2 & [Rf _ Rl _ Rs Rn] & _). exists env'', vs', save'. split; [exact E2|].
  split; [by rewrite Rf|]. by rewrite Rl.
Qed.
End Manifest.

Lemma make_Version_ok content : version_ok content make_Version.
Proof.
  split; try done.
  - by intros files ->%make_Version_lookup.
  - intros l files ->%make_Version_lookup. split; [constructor|constructor|done].
  - by intros files f g ->%make_Version_lookup ?%elem_of_nil.
  - intros files ->%make_Version_lookup. constructor.
  - intros l m files files' _ ->%make_Version_lookup _. by intros a b ?%elem_of_nil.
Qed.

Section DB.
Context {E F R G P CT CB : Type} `{EnvOk E F R G} `{FilterPolicyOk P} `{CacheOk CT (Table (R := R) (P := InternalFilterPolicy P))}
  `{CacheOk CB Block} `{MachineOk} `{SnappyOk}.
Abbreviation DB := (DB (E := E) (F := F) (P := P) (CT := CT) (CB := CB)).
Implicit Types (db : DB) (options : Options (InternalFilterPolicy P)).

(** a database over a new version set *)
Lemma new_db_files options content db dbname mfs reuse log base out rs m :
  version_set_ok (db_env db) (db_versions db) 1 base out rs m -> db_versions db = new_set dbname mfs reuse log -> new_manifest m ->
  options_ok options -> tc_dbname (db_tables db) = dbname -> tc_options (db_tables db) = options -> 0 <= tc_last_id (db_tables db) < 2 ^ 64 ->
  (forall k tab, ~ cached (tc_cache (db_tables db)) k tab) -> (forall c k b, tc_block_cache (db_tables db) = Some c -> ~ cached c k b) ->
  db_files options content db.
Proof.
  intros Hset Ev Hm Hopt Ed Eo Hid Hnc Hnb. split.
  - exists 1, base, out, rs, m. split; [done|]. intros i st n Hi. rewrite (nw_empty _ Hm i st Hi). by intros ?%elem_of_nil.
  - rewrite Ev. apply make_Version_ok.
  - split; cbn [fst snd]; rewrite ?Ev, ?Eo; try done; [|intros k tab Hk; by destruct (Hnc k tab)].
    split; rewrite ?Eo; try done; [intros k tab Hk; by destruct (Hnc k tab)|intros k k' tab tab' Hk; by destruct (Hnc k tab)|].
    intros c Hc id o b _ Hb. by apply (Hnb c (cache_key id o) b).
  - intros l files f. rewrite Ev. cbn [current_ new_set vs_with_descriptor]. intros ->%make_Version_lookup. by intros ?%elem_of_nil.
Qed.

(** C9: A read of the database gives the newest entry of the key at the snapshot,
    or at the last number when there is none, whether it is in the memtable, in
    the immutable memtable or in a table of the current version: its value, or
    nothing when it is a deletion or there is none.  It never fails, and keeps
    the state. *)
Theorem Get_gives_newest ro options content db old new snapshot u :
  db_state options content db old new -> blen u + 8 < 2 ^ 32 ->
  let s := default (vs_last_sequence (db_versions db)) snapshot in
  0 <= s < 2 ^ 56 -> filterable options (ikey u (tag_of s kTypeValue)) ->
  Z.of_nat (files_read (current_ (db_versions db))) <= 2 ^ 64 - 1 - tc_last_id (db_tables db) ->
  exists o db', db_Get ro snapshot u db = Done (inl (value_of o), db') /\ newest_of (db_adds content db old new) u s o /\
    db_state options content db' old new /\ db_versions db' = db_versions db /\ db_env db' = db_env db.
Proof.
  intros Hst Hu s Hs Hf Hop. destruct (db_Get_spec ro options content db old new snapshot u Hst Hu Hs Hf Hop) as (o & db' & ? & ? & ? & ? & ? & _).
  by exists o, db'.
Qed.

(** C6: The compaction of the immutable memtable keeps every read.  It writes the
    entries as a table, logs the new version in the manifest and removes the
    files no longer used; afterwards there is no immutable memtable, the log
    number is that of the current log, the database holds the same entries, now
    in the files of a version that stands on its manifest, and a read of any key
    at any snapshot gives the newest of the entries held before. *)
Theorem CompactMemTable_keeps_reads fuel options content db imm old new :
  db_state options content db old new -> flushable options fuel db imm old -> shutting_down_ db = false ->
  exists content' db', CompactMemTable fuel options db = Done db' /\ compacted options content db old new content' db' /\
    forall ro u s, blen u + 8 < 2 ^ 32 -> 0 <= s < 2 ^ 56 -> filterable options (ikey u (tag_of s kTypeValue)) ->
      Z.of_nat (files_read (current_ (db_versions db'))) <= 2 ^ 64 - 1 - tc_last_id (db_tables db') ->
      exists o db'', db_Get ro (Some s) u db' = Done (inl (value_of o), db'') /\ newest_of (db_adds content db old new) u s o.
Proof.
  intros Hst Hfl Hsd. destruct (CompactMemTable_spec fuel options content db imm old new Hst Hfl Hsd) as (content' & db' & E1 & Hc).
  exists content', db'. split; [done|]. split; [done|]. intros ro u s Hu Hs Hf Hop.
  destruct (db_Get_spec ro options content' db' [] new (Some s) u (cp_state _ _ _ _ _ _ _ Hc) Hu Hs Hf Hop) as (o & db'' & E2 & Ho & _).
  exists o, db''. split; [done|]. eapply newest_of_ext; [|exact Ho]. intros a _. apply (cp_adds _ _ _ _ _ _ _ Hc).
Qed.
End DB.

(** ** A database to run *)

Section Example.
Existing Instance plain_machine.
Existing Instance plain_machine_ok.
Abbreviation ETable := (Table (R := bytes) (P := InternalFilterPolicy BloomFilterPolicy)).
Abbreviation EDB := (DB (E := gmap bytes bytes) (F := bytes * bytes) (P := BloomFilterPolicy)
  (CT := list (bytes * ETable)) (CB := list (bytes * Block))).

(** files in memory *)
Definition example_edit_file : FileMetaData :=
  {| allowed_seeks := Z.shiftl 1 30; number := 1; file_size := 345; smallest := ikey (text "a") 257; largest := ikey (text "z") 513 |}.
Definition logged_edit : VersionEdit := AddFile 2 1 345 (ikey (text "a") 257) (ikey (text "z") 513) make_VersionEdit.

Lemma logged_edit_good log m dbname :
  new_manifest m -> edit_good m (new_set (F := bytes * bytes) dbname (2 ^ 21) false log) logged_edit.
Proof.
  intros Hm. split; try done.
  - split; try done; [|constructor|by repeat constructor]. apply list.Forall_singleton. cbn. unfold kNumLevels, key_fits. repeat split; try lia; done.
  - apply list.Forall_singleton. split; [|split]; [eexists _, _; split; [reflexivity|]; lia..|by vm_compute].
  - intros i st Hi. rewrite (nw_empty _ Hm i st Hi). cbn [map app]. change (new_files_ logged_edit) with [(2, example_edit_file)].
    unfold news, at_. rewrite filter_cons, filter_nil. case_decide; repeat constructor. apply not_elem_of_nil.
  - intros i files Hf f g Hx Hy Hne. exfalso. apply Hne. apply make_Version_lookup in Hf as ->.
    unfold after_edit, news, at_ in Hx, Hy. change (new_files_ logged_edit) with [(2, example_edit_file)] in Hx, Hy.
    rewrite filter_cons, filter_nil in Hx, Hy. case_decide; cbn in Hx, Hy; rewrite ?list_elem_of_singleton, ?elem_of_nil in Hx, Hy; naive_solver.
Qed.

Lemma logged_edit_recovered_witness :
  exists (env env' : gmap bytes bytes) (vs vs' : VersionSet (bytes * bytes)),
    vs_dbname vs = text "db" /\ LogAndApply env vs logged_edit = Done (env', vs', OK) /\ logged vs logged_edit vs'.
Proof.
  destruct (NewDB_spec (F := bytes * bytes) (∅ : gmap bytes bytes) (text "db") (2 ^ 21) false) as (env & log & base & out & enc & m & _ & Hset & Hm & _).
  destruct (logged_edit_recovered env _ logged_edit 1 base out [enc] m Hset (logged_edit_good log m _ Hm)) as (env' & vs' & E1 & Hl & _); [cbn; lia|].
  exists env, env', (new_set (text "db") (2 ^ 21) false log), vs'. split; [reflexivity|]. split; [exact E1|exact Hl].
Defined.

Lemma example_options_ok : options_ok example_options.
Proof. split; [reflexivity|]. split; [cbn; lia|]. apply make_BloomFilterPolicy_ok. lia. Qed.

Definition example_add : add := {| a_seq := 1; a_type := kTypeValue; a_key := text "k"; a_value := text "v" |}.

Lemma example_db : exists imm (db : EDB), db_state example_options (fun _ => []) db [example_add] [] /\
  flushable example_options 1 db imm [example_add] /\ shutting_down_ db = false /\
  Z.of_nat (files_read (current_ (db_versions db))) <= 2 ^ 64 - 1 - tc_last_id (db_tables db) /\
  current_ (db_versions db) = make_Version /\ vs_next_file_number (db_versions db) = 2 /\ tc_last_id (db_tables db) = 0.
Proof.
  destruct (NewDB_spec (F := bytes * bytes) (∅ : gmap bytes bytes) (text "db") (2 ^ 21) false) as (env & log & base & out & enc & m & _ & Hset & Hm & _).
  destruct (Add_spec make_MemTable [] example_add make_MemTable_ok) as (imm & _ & Himm); [repeat split; cbn; lia|by intros b ?%elem_of_nil|].
  set (db := {| db_mem := make_MemTable; db_imm := Some imm; db_env := env; db_versions := new_set (text "db") (2 ^ 21) false log;
    db_tables := make_TableCache (text "db") example_options [] (Some []) 0; pending_outputs_ := ∅; logfile_number_ := 2;
    db_bg_error := OK; shutting_down_ := false |} : EDB).
  exists imm, db. split; [|split; [|split; [done|split; [change (6 <= 2 ^ 64 - 1 - 0); lia|done]]]].
  - split; try done.
    + eapply new_db_files; [exact Hset|reflexivity|exact Hm|..]; try done; [intros k tab Hk; by apply elem_of_nil in Hk|].
      intros c k b [= <-] Hk. by apply elem_of_nil in Hk.
    + apply make_MemTable_ok.
    + intros a b Ha Hb. apply elem_of_version_adds in Hb as (l & files & f & Hl%make_Version_lookup & Hf & _). subst. by apply elem_of_nil in Hf.
    + by intros a b ?%elem_of_nil.
  - split; cbn; try done; try lia.
    + constructor; [|constructor]. by eexists _, _.
    + intros l files ->%make_Version_lookup. done.
Qed.

Lemma Get_gives_newest_witness :
  exists (db db' : EDB) o, db_Get {| verify_checksums := true; fill_cache := true |} (Some 1) (text "k") db = Done (inl (value_of o), db') /\
    newest_of (db_adds (fun _ => []) db [example_add] []) (text "k") 1 o.
Proof.
  destruct example_db as (imm & db & Hst & _ & _ & Hop & _).
  destruct (Get_gives_newest {| verify_checksums := true; fill_cache := true |} example_options (fun _ => []) db [example_add] [] (Some 1) (text "k") Hst)
    as (o & db' & E1 & Ho & _).
  - reflexivity.
  - change (0 <= 1 < 2 ^ 56). lia.
  - by eexists _, _.
  - exact Hop.
  - exists db, db', o. split; [exact E1|exact Ho].
Defined.

Lemma CompactMemTable_keeps_reads_witness :
  exists (db db' : EDB) content', CompactMemTable 1 example_options db = Done db' /\
    compacted example_options (fun _ => []) db [example_add] [] content' db'.
Proof.
  destruct example_db as (imm & db & Hst & Hfl & Hsd & _).
  destruct (CompactMemTable_keeps_reads 1 example_options (fun _ => []) db imm [example_add] [] Hst Hfl Hsd) as (content' & db' & E1 & Hc & _).
  exists db, db', content'. split; [exact E1|exact Hc].
Defined.
End Example.
