(* ===== verification/Compaction.v ===== *)
(** * Compaction: choosing the files of a compaction, in db/version_set.cc

    A compaction takes files of a level, and the files of the next level that
    overlap them, and writes their entries to new files of the next level.  The
    compaction score is a floating-point number that [Finalize] computes; here
    [PickCompaction] takes the level it asks for, if any, as an argument. *)

From Stdlib.Strings Require Import Byte.
From S2P Require Import Prelude Status Coding DbFormat VersionEdit Version Env VersionSet.

(** ** Ranges of keys *)

Fixpoint get_range (inputs : list FileMetaData) (small large : bytes) : outcome (bytes * bytes) :=
  match inputs with
  | [] => Done (small, large)
  | f :: inputs' =>
      r ← Compare_keys (smallest f) small;
      q ← Compare_keys (largest f) large;
      get_range inputs' (if r <? 0 then smallest f else small) (if 0 <? q then largest f else large)
  end.
Definition GetRange (inputs : list FileMetaData) : outcome (bytes * bytes) :=
  match inputs with [] => Asserted | f :: inputs' => get_range inputs' (smallest f) (largest f) end.
Definition GetRange2 (inputs1 inputs2 : list FileMetaData) : outcome (bytes * bytes) := GetRange (inputs1 ++ inputs2).

Fixpoint find_largest (files : list FileMetaData) (largest_key : bytes) : outcome bytes :=
  match files with
  | [] => Done largest_key
  | f :: files' => r ← Compare_keys (largest f) largest_key; find_largest files' (if 0 <? r then largest f else largest_key)
  end.
Definition FindLargestKey (files : list FileMetaData) : outcome (option bytes) :=
  match files with [] => Done None | f :: files' => k ← find_largest files' (largest f); Done (Some k) end.

Definition starts_first (f : FileMetaData) (best : option FileMetaData) : outcome bool :=
  match best with None => Done true | Some b => q ← Compare_keys (smallest f) (smallest b); Done (q <? 0) end.
(** the file that starts first among those that start after [largest_key], with
    the same user key *)
Fixpoint smallest_boundary (files : list FileMetaData) (largest_key : bytes) (best : option FileMetaData) : outcome (option FileMetaData) :=
  match files with
  | [] => Done best
  | f :: files' =>
      r ← Compare_keys (smallest f) largest_key;
      if 0 <? r then
        u ← user_key_of (smallest f);
        w ← user_key_of largest_key;
        if Compare u w =? 0 then
          better ← starts_first f best;
          smallest_boundary files' largest_key (if (better : bool) then Some f else best)
        else smallest_boundary files' largest_key best
      else smallest_boundary files' largest_key best
  end.
Definition FindSmallestBoundaryFile (level_files : list FileMetaData) (largest_key : bytes) : outcome (option FileMetaData) :=
  smallest_boundary level_files largest_key None.

Fixpoint add_boundary (fuel : nat) (level_files compaction_files : list FileMetaData) (largest_key : bytes) : outcome (list FileMetaData) :=
  b ← FindSmallestBoundaryFile level_files largest_key;
  match b with
  | None => Done compaction_files
  | Some f => match fuel with O => Hangs | S fuel' => add_boundary fuel' level_files (compaction_files ++ [f]) (largest f) end
  end.
Definition AddBoundaryInputs (level_files compaction_files : list FileMetaData) : outcome (list FileMetaData) :=
  k ← FindLargestKey compaction_files;
  match k with
  | None => Done compaction_files
  | Some largest_key => add_boundary (length level_files) level_files compaction_files largest_key
  end.

(** ** The compaction *)

Record Compaction := {
  level_ : Z; max_output_file_size_ : Z;
  (** with how many older versions there were when it was the current one *)
  input_version_ : option (nat * Version); edit_ : VersionEdit;
  inputs0_ : list FileMetaData; inputs1_ : list FileMetaData; grandparents_ : list FileMetaData;
  grandparent_index_ : nat; seen_key_ : bool; overlapped_bytes_ : Z; level_ptrs_ : list nat }.

Definition make_Compaction (max_file_size level : Z) : Compaction :=
  {| level_ := level; max_output_file_size_ := MaxFileSizeForLevel max_file_size level; input_version_ := None;
     edit_ := make_VersionEdit; inputs0_ := []; inputs1_ := []; grandparents_ := []; grandparent_index_ := 0;
     seen_key_ := false; overlapped_bytes_ := 0; level_ptrs_ := replicate (Z.to_nat kNumLevels) 0%nat |}.

Definition c_with_inputs (c : Compaction) (v : option (nat * Version)) (edit : VersionEdit) (inputs0 inputs1 grandparents : list FileMetaData) : Compaction :=
  {| level_ := level_ c; max_output_file_size_ := max_output_file_size_ c; input_version_ := v; edit_ := edit;
     inputs0_ := inputs0; inputs1_ := inputs1; grandparents_ := grandparents; grandparent_index_ := grandparent_index_ c;
     seen_key_ := seen_key_ c; overlapped_bytes_ := overlapped_bytes_ c; level_ptrs_ := level_ptrs_ c |}.
Definition c_with_state (c : Compaction) (index : nat) (seen : bool) (overlapped : Z) (ptrs : list nat) : Compaction :=
  {| level_ := level_ c; max_output_file_size_ := max_output_file_size_ c; input_version_ := input_version_ c; edit_ := edit_ c;
     inputs0_ := inputs0_ c; inputs1_ := inputs1_ c; grandparents_ := grandparents_ c; grandparent_index_ := index;
     seen_key_ := seen; overlapped_bytes_ := overlapped; level_ptrs_ := ptrs |}.

Section SetUp.
Context {F : Type}.
Implicit Types vs : VersionSet F.

(** the files of the level and of the next one, grown when that takes no more of
    the next *)
Definition expand_inputs vs (level : Z) (inputs0 inputs1 : list FileMetaData) (range : bytes * bytes) (all : bytes * bytes)
    : outcome (list FileMetaData * list FileMetaData * (bytes * bytes) * (bytes * bytes)) :=
  let v := current_ vs in
  expanded0 ← GetOverlappingInputs v level (Some all.1) (Some all.2);
  files ← level_files v level;
  expanded0 ← AddBoundaryInputs files expanded0;
  if (length inputs0 <? length expanded0)%nat &&
     (TotalFileSize inputs1 + TotalFileSize expanded0 <? ExpandedCompactionByteSizeLimit (vs_max_file_size vs))
  then
    new ← GetRange expanded0;
    expanded1 ← GetOverlappingInputs v (level + 1) (Some new.1) (Some new.2);
    if (length expanded1 =? length inputs1)%nat
    then all ← GetRange2 expanded0 expanded1; Done (expanded0, expanded1, new, all)
    else Done (inputs0, inputs1, range, all)
  else Done (inputs0, inputs1, range, all).

Definition SetupOtherInputs vs (c : Compaction) : outcome (VersionSet F * Compaction) :=
  let level := level_ c in let v := current_ vs in
  files ← level_files v level;
  inputs0 ← AddBoundaryInputs files (inputs0_ c);
  range ← GetRange inputs0;
  inputs1 ← GetOverlappingInputs v (level + 1) (Some range.1) (Some range.2);
  all ← GetRange2 inputs0 inputs1;
  '(inputs0, inputs1, range, all) ← (match inputs1 with
                                     | [] => Done (inputs0, inputs1, range, all)
                                     | _ => expand_inputs vs level inputs0 inputs1 range all
                                     end);
  grandparents ← (if level + 2 <? kNumLevels then GetOverlappingInputs v (level + 2) (Some all.1) (Some all.2) else Done (grandparents_ c));
  key ← InternalKey_Encode range.2;
  _ ← Builder.at_level (compact_pointer_ vs) level;
  Done (vs_with_versions vs (older_ vs) (current_ vs) (current_refs_ vs) (<[Z.to_nat level := key]> (compact_pointer_ vs)),
        c_with_inputs c (input_version_ c) (SetCompactPointer level range.2 (edit_ c)) inputs0 inputs1 grandparents).

(** the first file after the compaction pointer of the level, or the first one *)
Fixpoint file_after (files : list FileMetaData) (pointer : bytes) : outcome (option FileMetaData) :=
  match files with
  | [] => Done None
  | f :: files' =>
      if bool_decide (pointer = []) then Done (Some f) else
      k ← InternalKey_Encode (largest f);
      r ← Internal.Compare k pointer;
      if 0 <? r then Done (Some f) else file_after files' pointer
  end.

Definition pick_input vs (size_level : option Z) : outcome (option (Compaction * FileMetaData)) :=
  match size_level with
  | Some level =>
      _ ← c_assert (0 <=? level);
      _ ← c_assert (level + 1 <? kNumLevels);
      files ← level_files (current_ vs) level;
      pointer ← Builder.at_level (compact_pointer_ vs) level;
      f ← file_after files pointer;
      f ← (match f with Some f => Done f | None => match files with f :: _ => Done f | [] => Undefined end end);
      Done (Some (make_Compaction (vs_max_file_size vs) level, f))
  | None =>
      match file_to_compact_ (current_ vs) with
      | Some f => Done (Some (make_Compaction (vs_max_file_size vs) (file_to_compact_level_ (current_ vs)), f))
      | None => Done None
      end
  end.

(** [size_level]: the level of the best score, when the score is at least 1 *)
Definition PickCompaction vs (size_level : option Z) : outcome (VersionSet F * option Compaction) :=
  picked ← pick_input vs size_level;
  match picked with
  | None => Done (vs, None)
  | Some (c, f) =>
      let vs := Ref vs in
      inputs0 ← (if level_ c =? 0 then
                   range ← GetRange [f];
                   files ← GetOverlappingInputs (current_ vs) 0 (Some range.1) (Some range.2);
                   _ ← c_assert (negb (bool_decide (files = [])));
                   Done files
                 else Done [f]);
      '(vs, c) ← SetupOtherInputs vs (c_with_inputs c (Some (length (older_ vs), current_ vs)) (edit_ c) inputs0 [] []);
      Done (vs, Some c)
  end.

(** the first files whose sizes reach the limit *)
Fixpoint limit_inputs (files : list FileMetaData) (total limit : Z) : list FileMetaData :=
  match files with
  | [] => []
  | f :: files' => let total := u64 (total + file_size f) in f :: (if limit <=? total then [] else limit_inputs files' total limit)
  end.

Definition CompactRange vs (level : Z) (begin_ end_ : option bytes) : outcome (VersionSet F * option Compaction) :=
  inputs ← GetOverlappingInputs (current_ vs) level begin_ end_;
  match inputs with
  | [] => Done (vs, None)
  | _ =>
      let inputs := if 0 <? level then limit_inputs inputs 0 (u64 (MaxFileSizeForLevel (vs_max_file_size vs) level)) else inputs in
      let vs := Ref vs in
      let c := make_Compaction (vs_max_file_size vs) level in
      '(vs, c) ← SetupOtherInputs vs (c_with_inputs c (Some (length (older_ vs), current_ vs)) (edit_ c) inputs [] []);
      Done (vs, Some c)
  end.

(** [input_version_] is the current version while a compaction is chosen *)
Definition IsTrivialMove vs (c : Compaction) : bool :=
  (length (inputs0_ c) =? 1)%nat && (length (inputs1_ c) =? 0)%nat &&
  (TotalFileSize (grandparents_ c) <=? MaxGrandParentOverlapBytes (vs_max_file_size vs)).

Definition max_overlap (v : Version) (level : Z) (result : Z) (f : FileMetaData) : outcome Z :=
  overlaps ← GetOverlappingInputs v (level + 1) (Some (smallest f)) (Some (largest f));
  Done (Z.max result (TotalFileSize overlaps)).
Fixpoint max_overlaps (v : Version) (level : Z) (files : list FileMetaData) (result : Z) : outcome Z :=
  match files with [] => Done result | f :: files' => result ← max_overlap v level result f; max_overlaps v level files' result end.
Fixpoint max_overlaps_levels (v : Version) (levels : list Z) (result : Z) : outcome Z :=
  match levels with
  | [] => Done result
  | level :: levels' => files ← level_files v level; result ← max_overlaps v level files result; max_overlaps_levels v levels' result
  end.
Definition MaxNextLevelOverlappingBytes vs : outcome Z := max_overlaps_levels (current_ vs) [1; 2; 3; 4; 5] 0.
End SetUp.

Definition AddInputDeletions (c : Compaction) (edit : VersionEdit) : VersionEdit :=
  let edit := foldl (fun e f => RemoveFile (level_ c) (number f) e) edit (inputs0_ c) in
  foldl (fun e f => RemoveFile (level_ c + 1) (number f) e) edit (inputs1_ c).

(** ** While it runs *)

(** from the pointer of a level on: whether a file has the key in its range, and
    the pointer *)
Fixpoint advance_level (files : list FileMetaData) (user_key : bytes) (ptr : nat) : outcome (bool * nat) :=
  match files with
  | [] => Done (false, ptr)
  | f :: files' =>
      large ← user_key_of (largest f);
      if Compare user_key large <=? 0 then
        small ← user_key_of (smallest f);
        Done (0 <=? Compare user_key small, ptr)
      else advance_level files' user_key (S ptr)
  end.

Fixpoint base_levels (levels : list (list FileMetaData)) (user_key : bytes) (ptrs : list nat) : outcome (bool * list nat) :=
  match levels, ptrs with
  | [], _ => Done (true, ptrs)
  | files :: levels', ptr :: ptrs' =>
      '(inside, ptr) ← advance_level (drop ptr files) user_key ptr;
      if (inside : bool) then Done (false, ptr :: ptrs')
      else '(r, ptrs') ← base_levels levels' user_key ptrs'; Done (r, ptr :: ptrs')
  | _ :: _, [] => Undefined
  end.

Definition IsBaseLevelForKey (c : Compaction) (user_key : bytes) : outcome (bool * Compaction) :=
  match input_version_ c with
  | None => Undefined
  | Some (_, v) =>
      let k := Z.to_nat (level_ c + 2) in
      '(r, ptrs) ← base_levels (drop k (files_ v)) user_key (drop k (level_ptrs_ c));
      Done (r, c_with_state c (grandparent_index_ c) (seen_key_ c) (overlapped_bytes_ c) (take k (level_ptrs_ c) ++ ptrs))
  end.

(** the grandparents passed, and the bytes of them that the output overlaps *)
Fixpoint pass_grandparents (files : list FileMetaData) (internal_key : bytes) (index : nat) (seen : bool) (overlapped : Z) : outcome (nat * Z) :=
  match files with
  | [] => Done (index, overlapped)
  | f :: files' =>
      k ← InternalKey_Encode (largest f);
      r ← Internal.Compare internal_key k;
      if 0 <? r then pass_grandparents files' internal_key (S index) seen (if seen then overlapped + file_size f else overlapped)
      else Done (index, overlapped)
  end.

Definition ShouldStopBefore (max_file_size : Z) (c : Compaction) (internal_key : bytes) : outcome (bool * Compaction) :=
  match input_version_ c with
  | None => Undefined
  | Some _ =>
      '(index, overlapped) ← pass_grandparents (drop (grandparent_index_ c) (grandparents_ c)) internal_key (grandparent_index_ c)
                               (seen_key_ c) (overlapped_bytes_ c);
      if MaxGrandParentOverlapBytes max_file_size <? overlapped
      then Done (true, c_with_state c index true 0 (level_ptrs_ c))
      else Done (false, c_with_state c index true overlapped (level_ptrs_ c))
  end.

(** the version is still the current one, or the first of those that became older
    since; [~Compaction] does the same *)
Definition ReleaseInputs {F} (vs : VersionSet F) (c : Compaction) : outcome (VersionSet F * Compaction) :=
  match input_version_ c with
  | None => Done (vs, c)
  | Some (place, _) =>
      vs ← (if (length (older_ vs) =? place)%nat then Unref vs else Unref_older vs place);
      Done (vs, c_with_inputs c None (edit_ c) (inputs0_ c) (inputs1_ c) (grandparents_ c))
  end.
