(* ===== verification/CompactionSpec.v ===== *)
(** * CompactionSpec: which entries a compaction drops, a version before and after
    it, and the files that it takes

    [DoCompactionWork] of db/db_impl.cc goes through the entries of its inputs in
    order and drops those that a newer one hides from every reader, and the
    deletions that hide nothing any more.  Here is that rule on a list, and the
    proof that no reader sees a difference; then the version with the files of two
    levels replaced. *)

From Stdlib.Strings Require Import Byte.
From Stdlib.Sorting Require Import Sorted.
From stdpp Require Import sorting.
From S2P Require Import Prelude Status Coding DbFormat WriteBatch SkipList MemTable Crc32c Log BlockSpec TableSpec VersionEdit Version VersionSpec VersionLevels Env VersionSet VersionSetSpec DBFiles DBSpec Compaction.

#[export] Instance add_eq_dec : EqDecision add := ltac:(solve_decision).

Abbreviation in_key_order := (StronglySorted (fun a b => add_cmp a b < 0)).

(** no two entries of a key have the same number *)
Definition distinct_seqs (es : list add) : Prop :=
  forall a b, a ∈ es -> b ∈ es -> a_key a = a_key b -> a_seq a = a_seq b -> a = b.

Lemma distinct_seqs_subset es es' : (forall a, a ∈ es' -> a ∈ es) -> distinct_seqs es -> distinct_seqs es'.
Proof. intros Hsub Hd a b Ha Hb. apply Hd; by apply Hsub. Qed.

(** between two entries of a key there are only entries of it *)
Lemma key_between p x a : add_cmp p x < 0 -> add_cmp x a < 0 -> a_key p = a_key a -> a_key x = a_key a.
Proof.
  intros H1%add_cmp_lex H2%add_cmp_lex E. rewrite E in H1. apply lex_eq. pose proof (lex_antisym (a_key x) (a_key a)). lia.
Qed.

(** ** The rule, on the entries in order *)

Section Rule.
Context (snapshot : Z) (base : bytes -> Prop) `{Hdec : forall u, Decision (base u)}.

(** [last]: the number of the entry before, when it has the same key *)
Definition dropped (last : Z) (a : add) : Prop :=
  last <= snapshot \/ (a_type a = kTypeDeletion /\ a_seq a <= snapshot /\ base (a_key a)).
#[export] Instance dropped_dec last a : Decision (dropped last a) := ltac:(unfold dropped; apply _).

Definition last_for (prev : option add) (a : add) : Z :=
  match prev with Some p => if decide (a_key p = a_key a) then a_seq p else kMaxSequenceNumber | None => kMaxSequenceNumber end.

(** the entries that stay, after [prev] *)
Fixpoint survivors (prev : option add) (es : list add) : list add :=
  match es with
  | [] => []
  | a :: es' => let rest := survivors (Some a) es' in if decide (dropped (last_for prev a) a) then rest else a :: rest
  end.

Lemma survivors_sublist prev es : sublist (survivors prev es) es.
Proof. revert prev; induction es as [|a es IH]; intros prev; cbn [survivors]; [constructor|]. case_decide; by constructor. Qed.

Lemma elem_of_survivors prev es a : a ∈ survivors prev es -> a ∈ es.
Proof. intros Ha. eapply elem_of_sublist; [done|apply survivors_sublist]. Qed.

Lemma survivors_snoc prev es a :
  survivors prev (es ++ [a]) =
    survivors prev es ++ (if decide (dropped (last_for (match list.last es with Some p => Some p | None => prev end) a) a) then [] else [a]).
Proof.
  revert prev; induction es as [|x es IH]; intros prev; cbn [survivors app]; [done|].
  assert (E : match list.last (x :: es) with Some p => Some p | None => prev end = match list.last es with Some p => Some p | None => Some x end).
  { rewrite last_cons. by destruct (list.last es). }
  rewrite IH, E. by case_decide.
Qed.

(** the entries with the one before them *)
Definition with_prev (prev : option add) (es : list add) : list add := match prev with Some p => p :: es | None => es end.

Context (Hsnap : snapshot < kMaxSequenceNumber).

Lemma with_prev_tail prev x es : in_key_order (with_prev prev (x :: es)) -> in_key_order (with_prev (Some x) es).
Proof. destruct prev; cbn [with_prev]; intros Hs; [by destruct (StronglySorted_inv Hs)|done]. Qed.

Lemma elem_of_with_prev prev es a : a ∈ with_prev prev es <-> prev = Some a \/ a ∈ es.
Proof. destruct prev as [p|]; cbn [with_prev]; [rewrite elem_of_cons|]; naive_solver. Qed.

Lemma with_prev_distinct prev x es : distinct_seqs (with_prev prev (x :: es)) -> distinct_seqs (with_prev (Some x) es).
Proof. apply distinct_seqs_subset. intros a [[= ->]|Ha]%elem_of_with_prev; apply elem_of_with_prev; right; [by left|by right]. Qed.

(** an entry before another of its key is newer *)
Lemma earlier_newer es a b :
  distinct_seqs es -> a ∈ es -> b ∈ es -> add_cmp a b < 0 -> a_key a = a_key b -> a_seq b < a_seq a.
Proof.
  intros Hd Ha Hb Hab Hk. pose proof (add_cmp_same _ _ Hab Hk). destruct (Z.eq_dec (a_seq b) (a_seq a)) as [E|]; [|lia].
  rewrite (Hd a b Ha Hb Hk ltac:(done)) in Hab. by apply add_cmp_irrefl in Hab.
Qed.

Lemma prev_before p es a : in_key_order (with_prev (Some p) es) -> a ∈ es -> add_cmp p a < 0.
Proof. intros [_ H]%StronglySorted_inv Ha. rewrite list.Forall_forall in H. by apply H. Qed.

(** A dropped entry is hidden by a newer one that every reader sees, or it is an
    obsolete deletion. *)
Lemma dropped_why prev es a :
  in_key_order (with_prev prev es) -> distinct_seqs (with_prev prev es) -> a ∈ es -> a ∉ survivors prev es ->
  (exists b, b ∈ with_prev prev es /\ a_key b = a_key a /\ a_seq a < a_seq b <= snapshot) \/
  (a_type a = kTypeDeletion /\ a_seq a <= snapshot /\ base (a_key a)).
Proof.
  revert prev; induction es as [|x es IH]; intros prev Hs Hd Ha Hn; [by apply elem_of_nil in Ha|]. cbn [survivors] in Hn.
  destruct (decide (a = x)) as [->|Hne].
  - destruct (decide (dropped (last_for prev x) x)) as [[Hl|?]|]; [|by right|exfalso; apply Hn; by left]. left.
    unfold last_for in Hl. destruct prev as [p|]; [|lia]. destruct (decide (a_key p = a_key x)); [|lia]. exists p.
    split; [by left|]. split; [done|]. split; [|done]. apply (earlier_newer (p :: x :: es)); try done; [by left|right; by left|].
    apply (prev_before p (x :: es)); [done|by left].
  - apply elem_of_cons in Ha as [?|Ha]; [done|].
    assert (Hn' : a ∉ survivors (Some x) es) by (case_decide; [done|intros Hin; apply Hn; by right]).
    destruct (IH (Some x)) as [(b & Hb & Hb')|Hdel]; [by eapply with_prev_tail|by eapply with_prev_distinct|done|done| |by right].
    left. exists b. split; [|done]. apply elem_of_with_prev in Hb as [[= ->]|Hb]; apply elem_of_with_prev; right; [by left|by right].
Qed.

(** What is newer than an entry that stays, some reader does not see. *)
Lemma survivor_why prev es a b :
  in_key_order (with_prev prev es) -> distinct_seqs (with_prev prev es) -> a ∈ survivors prev es ->
  b ∈ with_prev prev es -> a_key b = a_key a -> a_seq a < a_seq b -> snapshot < a_seq b.
Proof.
  revert prev b; induction es as [|x es IH]; intros prev b Hs Hd Ha Hb Hk Hlt; [by apply elem_of_nil in Ha|]. cbn [survivors] in Ha.
  assert (Hafter : forall c, c ∈ es -> add_cmp x c < 0).
  { intros c Hc. eapply prev_before; [by eapply with_prev_tail|done]. }
  destruct (decide (a = x)) as [->|Hne].
  - destruct (decide (dropped (last_for prev x) x)) as [|Hnd].
    { exfalso. apply elem_of_survivors in Ha. by apply (add_cmp_irrefl x), Hafter. }
    apply elem_of_with_prev in Hb as [->|[->|Hb]%elem_of_cons]; [|lia|].
    + unfold dropped, last_for in Hnd. rewrite decide_True in Hnd by done. lia.
    + pose proof (add_cmp_same _ _ (Hafter b Hb) ltac:(done)). lia.
  - assert (Ha' : a ∈ survivors (Some x) es) by (case_decide; [done|apply elem_of_cons in Ha as [?|?]; done]).
    pose proof (elem_of_survivors _ _ _ Ha') as Hin.
    assert (Hrec : forall c, c ∈ with_prev (Some x) es -> a_key c = a_key a -> a_seq a < a_seq c -> snapshot < a_seq c).
    { intros c. apply IH; [by eapply with_prev_tail|by eapply with_prev_distinct|done]. }
    apply elem_of_with_prev in Hb as [->|Hb]; [|by apply Hrec].
    assert (Hbx : add_cmp b x < 0) by (eapply (prev_before b (x :: es)); [done|by left]).
    assert (Hkx : a_key x = a_key a) by (eapply key_between; [done|by apply Hafter|done]).
    assert (Hin' : x ∈ with_prev (Some b) (x :: es)) by (right; by left).
    assert (Hx : snapshot < a_seq x).
    { apply Hrec; [by left|done|]. eapply (earlier_newer (with_prev (Some b) (x :: es))); try done; [right; by right|by apply Hafter]. }
    assert (a_seq x < a_seq b); [|lia]. eapply (earlier_newer (with_prev (Some b) (x :: es))); try done; [by left|congruence].
Qed.
End Rule.

(** ** What reads see *)

(** [rest]: the entries that are not in the compaction.  A reader at a number from
    [snapshot] on finds the same value before and after. *)
Lemma survivors_same_reads snapshot base `{Hdec : forall u, Decision (base u)} es rest u s o :
  snapshot < kMaxSequenceNumber -> in_key_order es -> distinct_seqs (es ++ rest) ->
  (forall d r, d ∈ es -> r ∈ rest -> base (a_key d) -> a_key d = a_key r -> a_seq d <= a_seq r) ->
  snapshot <= s -> newest_of (es ++ rest) u s o ->
  exists o', newest_of (survivors snapshot base None es ++ rest) u s o' /\ value_of o' = value_of o.
Proof.
  intros Hsnap Hs Hall Hbase Hle Ho. assert (Hd : distinct_seqs es) by (eapply distinct_seqs_subset; [|exact Hall]; intros a Ha; apply elem_of_app; by left). set (ks := survivors snapshot base None es).
  assert (Hsub : forall a, a ∈ ks ++ rest -> a ∈ es ++ rest).
  { intros a [Ha|Ha]%elem_of_app; apply elem_of_app; [left; by apply elem_of_survivors in Ha|by right]. }
  destruct o as [a|].
  - destruct Ho as (Ha & Hk & Has & Hmax). destruct (decide (a ∈ ks ++ rest)) as [Hin|Hout].
    { exists (Some a). split; [|done]. split; [done|]. split; [done|]. split; [done|]. intros b Hb. by apply Hmax, Hsub. }
    assert (Hae : a ∈ es /\ a ∉ ks).
    { apply elem_of_app in Ha as [Ha|Ha]; [|exfalso; apply Hout, elem_of_app; by right]. split; [done|]. intros H. apply Hout, elem_of_app; by left. }
    destruct Hae as [Hae Hak]. destruct (dropped_why snapshot base Hsnap None es a Hs Hd Hae Hak) as [(b & Hb & Hkb & Hsb)|(Ht & Hsa & Hb)].
    { specialize (Hmax b ltac:(apply elem_of_app; by left) ltac:(congruence) ltac:(lia)). lia. }
    exists None. split; [|cbn [value_of]; by rewrite Ht]. intros c Hc Hkc.
    destruct (Z.lt_ge_cases s (a_seq c)) as [|Hcs]; [done|]. exfalso.
    specialize (Hmax c (Hsub c Hc) Hkc Hcs). apply elem_of_app in Hc as [Hc|Hc].
    + destruct (Z.eq_dec (a_seq c) (a_seq a)) as [E|].
      { apply Hak. rewrite (Hd a c); [done|done|by apply elem_of_survivors in Hc|congruence|done]. }
      pose proof (survivor_why snapshot base None es c a Hs Hd Hc ltac:(by apply elem_of_with_prev; right) ltac:(congruence) ltac:(lia)). lia.
    + pose proof (Hbase a c Hae Hc Hb ltac:(congruence)). apply Hout, elem_of_app. right.
      rewrite (Hall a c); [done|apply elem_of_app; by left|apply elem_of_app; by right|congruence|lia].
  - exists None. split; [|done]. intros b Hb. by apply Ho, Hsub.
Qed.

(** ** A version with files of two levels replaced *)

(** the file [g] of level [l] is not an input *)
Definition stays (L : nat) (ins0 ins1 : list FileMetaData) (l : nat) (g : FileMetaData) : Prop :=
  (l = L -> g ∉ ins0) /\ (l = S L -> g ∉ ins1).
#[export] Instance stays_dec L ins0 ins1 l g : Decision (stays L ins0 ins1 l g).
Proof. unfold stays. apply _. Defined.

(** the entries of the files that are not inputs *)
Definition other_adds (content : Z -> list add) (v : Version) (L : nat) (ins0 ins1 : list FileMetaData) : list add :=
  mjoin (imap (fun l files => files_adds content (filter (stays L ins0 ins1 l) files)) (files_ v)).

Lemma elem_of_other_adds content v L ins0 ins1 a :
  a ∈ other_adds content v L ins0 ins1 <->
  exists l files g, files_ v !! l = Some files /\ g ∈ files /\ stays L ins0 ins1 l g /\ a ∈ content (number g).
Proof.
  unfold other_adds. rewrite list_elem_of_join. split.
  - intros (es & Ha & (l & files & -> & Hl)%elem_of_lookup_imap_1). apply elem_of_files_adds in Ha as (g & Hg & Ha).
    apply list_elem_of_filter in Hg as [Hs Hg]. by exists l, files, g.
  - intros (l & files & g & Hl & Hg & Hs & Ha). eexists. split; [|eapply elem_of_lookup_imap_2; exact Hl].
    apply elem_of_files_adds. exists g. split; [by apply list_elem_of_filter|done].
Qed.

Record files_replaced (content content' : Z -> list add) (v v' : Version) (L : nat) (ins0 ins1 outs : list FileMetaData) : Prop := {
  fr_level : (S L < 7)%nat;
  fr_length : length (files_ v') = Z.to_nat kNumLevels;
  fr_ins0 files : files_ v !! L = Some files -> forall f, f ∈ ins0 -> f ∈ files;
  fr_ins1 files : files_ v !! S L = Some files -> forall f, f ∈ ins1 -> f ∈ files;
  fr_files l files : files_ v !! l = Some files -> exists files', files_ v' !! l = Some files' /\
    (forall g, g ∈ files' <-> (g ∈ files /\ stays L ins0 ins1 l g) \/ (l = S L /\ g ∈ outs)) /\
    NoDup (map number files') /\ ((0 < l)%nat -> StronglySorted file_before files') /\ Z.of_nat (length files') < 2 ^ 31;
  fr_old l files g : files_ v !! l = Some files -> g ∈ files -> stays L ins0 ins1 l g -> content' (number g) = content (number g);
  fr_holds g : g ∈ outs -> file_holds g (content' (number g));
  fr_from g a : g ∈ outs -> a ∈ content' (number g) -> a ∈ files_adds content (ins0 ++ ins1);
  (** what stays of the upper level is newer than what goes *)
  fr_newer files g : files_ v !! L = Some files -> g ∈ files -> g ∉ ins0 -> newer_than (content (number g)) (files_adds content ins0) }.

Section Replaced.
Context content content' v v' L ins0 ins1 outs (Hv : version_ok content v) (Hr : files_replaced content content' v v' L ins0 ins1 outs).

Lemma replaced_back l files' : files_ v' !! l = Some files' -> exists files, files_ v !! l = Some files /\
  (forall g, g ∈ files' <-> (g ∈ files /\ stays L ins0 ins1 l g) \/ (l = S L /\ g ∈ outs)) /\
  NoDup (map number files') /\ ((0 < l)%nat -> StronglySorted file_before files') /\ Z.of_nat (length files') < 2 ^ 31.
Proof.
  intros Hl. destruct (lookup_lt_is_Some_2 (files_ v) l) as [files Hf].
  { rewrite (vo_levels _ _ Hv), <- (fr_length _ _ _ _ _ _ _ _ Hr). by apply lookup_lt_Some in Hl. }
  exists files. split; [done|]. destruct (fr_files _ _ _ _ _ _ _ _ Hr l files Hf) as (files'' & Hl' & Hin).
  by assert (files'' = files') as -> by congruence.
Qed.

Lemma level_holds l files g : files_ v !! l = Some files -> g ∈ files -> file_holds g (content (number g)).
Proof.
  intros Hf Hg. destruct (version_level content v l Hv) as (fs & Hfs & Hall & _).
  { apply lookup_lt_Some in Hf. by rewrite (vo_levels _ _ Hv) in Hf. }
  assert (fs = files) as -> by congruence. rewrite list.Forall_forall in Hall. exact (Hall g Hg).
Qed.

Lemma replaced_holds l files' g : files_ v' !! l = Some files' -> g ∈ files' -> file_holds g (content' (number g)).
Proof.
  intros Hl Hg. destruct (replaced_back l files' Hl) as (files & Hf & Hin & _). apply (proj1 (Hin g)) in Hg; destruct Hg as [[Hg Hs]|[_ Hg]].
  - rewrite (fr_old _ _ _ _ _ _ _ _ Hr l files) by done. by eapply level_holds.
  - by apply Hr.
Qed.

(** the levels where an entry of a level after can have been before *)
Lemma replaced_entry l files' a :
  files_ v' !! l = Some files' -> a ∈ files_adds content' files' ->
  (exists files g, files_ v !! l = Some files /\ g ∈ files /\ stays L ins0 ins1 l g /\ a ∈ content (number g)) \/
  (l = S L /\ (a ∈ files_adds content ins0 \/ a ∈ files_adds content ins1)).
Proof.
  intros Hl (g & Hg & Ha)%elem_of_files_adds. destruct (replaced_back l files' Hl) as (files & Hf & Hin & _). apply (proj1 (Hin g)) in Hg; destruct Hg as [[Hg Hs]|[-> Hg]].
  - left. rewrite (fr_old _ _ _ _ _ _ _ _ Hr l files) in Ha by done. by exists files, g.
  - right. split; [done|]. pose proof (fr_from _ _ _ _ _ _ _ _ Hr g a Hg Ha) as Hx. by rewrite files_adds_app, elem_of_app in Hx.
Qed.

Lemma files_adds_subset files files0 a : (forall f, f ∈ files0 -> f ∈ files) -> a ∈ files_adds content files0 -> a ∈ files_adds content files.
Proof. intros Hsub (f & Hf & Ha)%elem_of_files_adds. apply elem_of_files_adds. exists f. by split; [apply Hsub|]. Qed.

Lemma replaced_deeper l m files' files'' : (l < m)%nat -> files_ v' !! l = Some files' -> files_ v' !! m = Some files'' ->
  newer_than (files_adds content' files') (files_adds content' files'').
Proof.
  intros Hlm Hl Hm a b Ha Hb Hk. pose proof (fr_level _ _ _ _ _ _ _ _ Hr) as HL.
  assert (Hold : forall i j x y, (i < j)%nat -> (exists files, files_ v !! i = Some files /\ x ∈ files_adds content files) ->
    (exists files, files_ v !! j = Some files /\ y ∈ files_adds content files) -> a_key x = a_key y -> a_seq y <= a_seq x).
  { intros i j x y Hij (fi & Hi & Hx) (fj & Hj & Hy) Hxy. by apply (vo_deeper _ _ Hv i j fi fj Hij Hi Hj x y). }
  destruct (version_level content v L Hv ltac:(lia)) as (f0 & Hf0 & _). destruct (version_level content v (S L) Hv HL) as (f1 & Hf1 & _).
  assert (Hin0 : forall x, x ∈ files_adds content ins0 -> exists files, files_ v !! L = Some files /\ x ∈ files_adds content files).
  { intros x Hx. exists f0. split; [done|]. eapply files_adds_subset; [by apply (fr_ins0 _ _ _ _ _ _ _ _ Hr)|done]. }
  assert (Hin1 : forall x, x ∈ files_adds content ins1 -> exists files, files_ v !! S L = Some files /\ x ∈ files_adds content files).
  { intros x Hx. exists f1. split; [done|]. eapply files_adds_subset; [by apply (fr_ins1 _ _ _ _ _ _ _ _ Hr)|done]. }
  destruct (replaced_entry l files' a Hl Ha) as [(fl & g & Hfl & Hg & Hs & Hga)|[-> Ha']];
    destruct (replaced_entry m files'' b Hm Hb) as [(fm & h & Hfm & Hh & Hs' & Hhb)|[-> Hb']].
  - apply (Hold l m a b); try done; [exists fl|exists fm]; (split; [done|]); apply elem_of_files_adds; eauto.
  - assert (Hal : exists files, files_ v !! l = Some files /\ a ∈ files_adds content files).
    { exists fl. split; [done|]. apply elem_of_files_adds. eauto. }
    destruct Hb' as [Hb'|Hb']; [|apply (Hold l (S L) a b); [done|done|by apply Hin1|done]].
    destruct (decide (l = L)) as [->|]; [|apply (Hold l L a b); [lia|done|by apply Hin0|done]].
    apply (fr_newer _ _ _ _ _ _ _ _ Hr fl g Hfl Hg); [by apply Hs|done|done|done].
  - assert (Hbm : exists files, files_ v !! m = Some files /\ b ∈ files_adds content files).
    { exists fm. split; [done|]. apply elem_of_files_adds. eauto. }
    destruct Ha' as [Ha'|Ha']; [apply (Hold L m a b); [lia|by apply Hin0|done|done]|apply (Hold (S L) m a b); [lia|by apply Hin1|done|done]].
  - lia.
Qed.

Lemma version_ok_replaced : version_ok content' v'.
Proof.
  assert (Hzero : forall files', files_ v' !! 0%nat = Some files' -> exists files, files_ v !! 0%nat = Some files /\
    forall g, g ∈ files' -> g ∈ files /\ content' (number g) = content (number g)).
  { intros files' Hl. destruct (replaced_back _ files' Hl) as (files & Hf & Hin & _). exists files. split; [done|]. intros g Hg.
    apply (proj1 (Hin g)) in Hg; destruct Hg as [[Hg Hs]|[? _]]; [|lia]. split; [done|]. by apply (fr_old _ _ _ _ _ _ _ _ Hr 0%nat files). }
  split.
  - apply Hr.
  - intros files' Hl. apply list.Forall_forall. intros g Hg. by apply (replaced_holds 0 files').
  - intros l files' Hl. destruct (replaced_back _ files' Hl) as (files & Hf & _ & _ & Hs & Hlen). split; [|apply Hs; lia|done].
    apply list.Forall_forall. intros g Hg. by apply (replaced_holds (S l) files').
  - intros files' f g Hl Hf Hg Hlt. destruct (Hzero files' Hl) as (files & Hfs & Hin). destruct (Hin f Hf) as [Hf' ->]. destruct (Hin g Hg) as [Hg' ->].
    by apply (vo_numbers _ _ Hv files).
  - intros files' Hl. by destruct (replaced_back _ files' Hl) as (files & Hf & _ & Hnd & _).
  - exact replaced_deeper.
Qed.

(** the entries before *)
Lemma replaced_before a : a ∈ version_adds content v <-> a ∈ files_adds content (ins0 ++ ins1) \/ a ∈ other_adds content v L ins0 ins1.
Proof.
  pose proof (fr_level _ _ _ _ _ _ _ _ Hr) as HL.
  destruct (version_level content v L Hv ltac:(lia)) as (f0 & Hf0 & _). destruct (version_level content v (S L) Hv HL) as (f1 & Hf1 & _).
  rewrite elem_of_version_adds, elem_of_other_adds, files_adds_app, elem_of_app, !elem_of_files_adds. split.
  - intros (l & files & f & Hl & Hf & Ha). destruct (decide (stays L ins0 ins1 l f)) as [|Hn]; [right; by exists l, files, f|]. left.
    unfold stays in Hn. destruct (decide (l = L /\ f ∈ ins0)) as [[-> ?]|]; [left; by exists f|]. destruct (decide (l = S L /\ f ∈ ins1)) as [[-> ?]|]; [right; by exists f|tauto].
  - intros [[(f & Hf & Ha)|(f & Hf & Ha)]|(l & files & g & Hl & Hg & _ & Ha)].
    + exists L, f0, f. split; [done|]. split; [|done]. by apply (fr_ins0 _ _ _ _ _ _ _ _ Hr).
    + exists (S L), f1, f. split; [done|]. split; [|done]. by apply (fr_ins1 _ _ _ _ _ _ _ _ Hr).
    + by exists l, files, g.
Qed.

(** and after *)
Lemma replaced_after a : a ∈ version_adds content' v' <-> a ∈ files_adds content' outs \/ a ∈ other_adds content v L ins0 ins1.
Proof.
  rewrite elem_of_version_adds, elem_of_other_adds, elem_of_files_adds. split.
  - intros (l & files' & g & Hl & Hg & Ha). destruct (replaced_back l files' Hl) as (files & Hf & Hin & _). apply (proj1 (Hin g)) in Hg; destruct Hg as [[Hg Hs]|[-> Hg]].
    + right. exists l, files, g. by rewrite (fr_old _ _ _ _ _ _ _ _ Hr l files) in Ha by done.
    + left. by exists g.
  - intros [(g & Hg & Ha)|(l & files & g & Hl & Hg & Hs & Ha)].
    + pose proof (fr_level _ _ _ _ _ _ _ _ Hr) as HL. destruct (version_level content v (S L) Hv HL) as (f1 & Hf1 & _).
      destruct (fr_files _ _ _ _ _ _ _ _ Hr (S L) f1 Hf1) as (files' & Hl & Hin & _). exists (S L), files', g. split; [done|]. split; [|done].
      apply Hin. by right.
    + destruct (fr_files _ _ _ _ _ _ _ _ Hr l files Hl) as (files' & Hl' & Hin & _). exists l, files', g. split; [done|]. split; [apply Hin; by left|].
      by rewrite (fr_old _ _ _ _ _ _ _ _ Hr l files).
Qed.
End Replaced.

(** ** [IsBaseLevelForKey] *)

(** the range of user keys of a file has [u] *)
Definition spans (u : bytes) (f : FileMetaData) : Prop := lex (first_user f) u <= 0 /\ lex u (last_user f) <= 0.
#[export] Instance spans_dec u f : Decision (spans u f).
Proof. unfold spans. apply _. Defined.

(** no file deeper than the two levels of a compaction can have [u] *)
Definition base_key (v : Version) (level : Z) (u : bytes) : Prop :=
  Forall (Forall (fun f => ~ spans u f)) (drop (Z.to_nat (level + 2)) (files_ v)).
#[export] Instance base_key_dec v level u : Decision (base_key v level u).
Proof. unfold base_key. apply _. Defined.

(** the files before the pointer end before [u] *)
Definition passed (u : bytes) (files : list FileMetaData) (ptr : nat) : Prop :=
  forall j f, (j < ptr)%nat -> files !! j = Some f -> lex (last_user f) u < 0.
Definition pointers_at (v : Version) (u : bytes) (level : Z) (ptrs : list nat) : Prop :=
  length ptrs = Z.to_nat kNumLevels /\
  Forall2 (passed u) (drop (Z.to_nat (level + 2)) (files_ v)) (drop (Z.to_nat (level + 2)) ptrs).

Lemma passed_later u w files ptr : lex u w <= 0 -> passed u files ptr -> passed w files ptr.
Proof. intros Huw Hp j f Hj Hf. eapply lex_lt_le; [by eapply Hp|done]. Qed.

Lemma pointers_later v u w level ptrs : lex u w <= 0 -> pointers_at v u level ptrs -> pointers_at v w level ptrs.
Proof.
  intros Huw [Hlen Hp]. split; [done|]. revert Hp. apply Forall2_impl. intros files ptr. by apply passed_later.
Qed.

Lemma pointers_start v u level : length (files_ v) = Z.to_nat kNumLevels -> pointers_at v u level (replicate (Z.to_nat kNumLevels) 0%nat).
Proof.
  intros Hlen. split; [by rewrite length_replicate|]. apply Forall2_same_length_lookup. split.
  - rewrite !length_drop, length_replicate. lia.
  - intros i files ptr _ Hp. rewrite lookup_drop in Hp. apply lookup_replicate in Hp as [-> _]. intros j f Hj. lia.
Qed.

Section Base.
Context (content : Z -> list add).

Lemma advance_level_spec files u ptr n :
  level_ok content files -> passed u files ptr -> (length files - ptr <= n)%nat ->
  exists b ptr', advance_level (drop ptr files) u ptr = Done (b, ptr') /\ (b = true <-> Exists (spans u) files) /\ passed u files ptr'.
Proof.
  intros Hok. revert ptr; induction n as [|n IH]; intros ptr Hp Hn.
  - rewrite drop_ge by lia. exists false, ptr. split; [done|]. split; [|done]. split; [done|].
    intros (f & Hf & H1 & H2)%list.Exists_exists. apply list_elem_of_lookup in Hf as (j & Hj). pose proof (lookup_lt_Some _ _ _ Hj).
    pose proof (Hp j f ltac:(lia) Hj). pose proof (lex_antisym (last_user f) u). lia.
  - destruct (files !! ptr) as [f|] eqn:Ef; [|apply IH; [done|apply lookup_ge_None in Ef; lia]].
    rewrite (drop_S _ _ _ Ef). cbn [advance_level]. pose proof (lo_holds _ _ Hok) as Hh. rewrite list.Forall_lookup in Hh.
    destruct (file_users f _ (Hh ptr f Ef)) as (E1 & E2 & Hfl & _). rewrite E2. cbn [mbind outcome_bind]. unfold Compare. rewrite !slice_compare_lex.
    destruct (Z.leb_spec (lex u (last_user f)) 0) as [Hle|Hgt].
    + rewrite E1. cbn [mbind outcome_bind]. rewrite slice_compare_lex. eexists _, ptr. split; [reflexivity|]. split; [|done]. rewrite Z.leb_le, list.Exists_exists. split.
      * intros Hz. exists f. split; [by eapply list_elem_of_lookup_2|]. split; [|done]. pose proof (lex_antisym (first_user f) u). lia.
      * intros (g & Hg & H1 & H2). apply list_elem_of_lookup in Hg as (j & Hj). rewrite (lex_antisym (first_user f) u).
        destruct (Nat.lt_trichotomy j ptr) as [Hlt|[->|Hlt]].
        -- pose proof (Hp j g Hlt Hj). pose proof (lex_antisym (last_user g) u). lia.
        -- assert (g = f) as -> by congruence. lia.
        -- pose proof (level_first_users content files ptr j f g Hok Hlt Ef Hj).
           assert (lex (first_user f) u <= 0); [|lia]. eapply lex_le_trans; [exact Hfl|]. by eapply lex_le_trans.
    + destruct (IH (S ptr)) as (b & ptr' & E & Hb & Hp'); [|lia|by exists b, ptr']. intros j g Hj Hg.
      destruct (decide (j = ptr)) as [->|]; [|apply (Hp j g); [lia|done]]. assert (g = f) as -> by congruence. rewrite (lex_antisym u (last_user f)). lia.
Qed.

Lemma base_levels_spec levels u ptrs :
  Forall (level_ok content) levels -> Forall2 (passed u) levels ptrs ->
  exists ptrs', base_levels levels u ptrs = Done (bool_decide (Forall (Forall (fun f => ~ spans u f)) levels), ptrs') /\
    Forall2 (passed u) levels ptrs' /\ length ptrs' = length ptrs.
Proof.
  intros Hok Hp. revert Hok. induction Hp as [|files ptr levels ptrs Hp Hps IH]; intros Hok; cbn [base_levels].
  { exists []. rewrite bool_decide_eq_true_2 by constructor. done. }
  apply list.Forall_cons in Hok as [Hf Hok]. destruct (advance_level_spec files u ptr _ Hf Hp (le_n _)) as (b & ptr' & -> & Hb & Hp').
  cbn [mbind outcome_bind]. destruct b.
  - exists (ptr' :: ptrs). rewrite bool_decide_eq_false_2; [split; [done|]; split; [by constructor|done]|].
    intros Hno%list.Forall_cons. destruct Hno as [Hno _]. apply List.Forall_Exists_neg in Hno. by apply Hno, Hb.
  - destruct (IH Hok) as (ptrs' & -> & Hps' & Hlen). cbn [mbind outcome_bind]. exists (ptr' :: ptrs'). split; [|split; [by constructor|simpl; lia]].
    do 2 f_equal. apply bool_decide_ext. rewrite list.Forall_cons. split; [|tauto]. intros Hall. split; [|done].
    apply List.Forall_Exists_neg. intros He. by apply Hb in He.
Qed.

(** During a compaction [IsBaseLevelForKey] of increasing keys is exact. *)
Lemma IsBaseLevelForKey_spec v c u place :
  version_ok content v -> input_version_ c = Some (place, v) -> 0 <= level_ c -> pointers_at v u (level_ c) (level_ptrs_ c) ->
  exists ptrs, IsBaseLevelForKey c u =
      Done (bool_decide (base_key v (level_ c) u), c_with_state c (grandparent_index_ c) (seen_key_ c) (overlapped_bytes_ c) ptrs) /\
    pointers_at v u (level_ c) ptrs.
Proof.
  intros Hv Ev Hl [Hlen Hp]. unfold IsBaseLevelForKey. rewrite Ev. set (k := Z.to_nat (level_ c + 2)) in *.
  destruct (base_levels_spec (drop k (files_ v)) u (drop k (level_ptrs_ c))) as (ptrs' & E & Hp' & Hlen'); [|done|].
  - apply list.Forall_lookup. intros i files Hi. rewrite lookup_drop in Hi.
    destruct k as [|k'] eqn:Ek; [lia|]. by apply (vo_sorted _ _ Hv (k' + i)).
  - rewrite E. cbn [mbind outcome_bind]. eexists. split; [reflexivity|]. fold k.
    assert (Hk : length (take k (level_ptrs_ c)) = Nat.min k (length (level_ptrs_ c))) by apply length_take.
    assert (Hlen2 : length (take k (level_ptrs_ c) ++ ptrs') = length (level_ptrs_ c)) by (rewrite length_app, Hlen', length_drop, Hk; lia).
    split; [by rewrite Hlen2|]. fold k. destruct (decide (k <= length (level_ptrs_ c))%nat) as [Hle|Hgt].
    + rewrite drop_app_length'; [done|lia].
    + assert (Hnil : ptrs' = []) by (apply nil_length_inv; rewrite Hlen', length_drop; lia). subst ptrs'.
      rewrite app_nil_r, (drop_ge (take k _)) by (rewrite length_take; lia). done.
Qed.
End Base.

Lemma lex_le_lt a b c : lex a b <= 0 -> lex b c < 0 -> lex a c < 0.
Proof. intros H1 H2. destruct (Z.eq_dec (lex a b) 0) as [E|E]; [by apply lex_eq in E as ->|]. apply (lex_trans a b c); lia. Qed.

(** ** A compaction that was chosen *)

Section Chosen.
Context (content : Z -> list add).

Record compaction_ok (v : Version) (c : Compaction) : Prop := {
  ck_level : 0 <= level_ c < 6;
  ck_version : exists place, input_version_ c = Some (place, v);
  ck_edit : exists key, edit_ c = SetCompactPointer (level_ c) key make_VersionEdit /\ key_fits key;
  ck_pointers : level_ptrs_ c = replicate (Z.to_nat kNumLevels) 0%nat;
  ck_some : inputs0_ c <> [];
  ck_inputs0 files f : files_ v !! Z.to_nat (level_ c) = Some files -> f ∈ inputs0_ c -> f ∈ files;
  (** all the files of the next level that overlap those of the level *)
  ck_inputs1 : exists lo hi, (forall f, f ∈ inputs0_ c -> lex lo (first_user f) <= 0 /\ lex (last_user f) hi <= 0) /\
    forall files, files_ v !! S (Z.to_nat (level_ c)) = Some files ->
      forall g, g ∈ inputs1_ c <-> g ∈ files /\ overlaps (Some lo) (Some hi) g;
  (** older entries of their keys do not stay in the level *)
  ck_newer files g : files_ v !! Z.to_nat (level_ c) = Some files -> g ∈ files -> g ∉ inputs0_ c ->
    newer_than (content (number g)) (files_adds content (inputs0_ c));
  ck_grandparents : Forall file_ok (grandparents_ c) }.

(** no file that stays in the next level starts with the key an input of it ends
    with *)
Definition no_split (v : Version) (c : Compaction) : Prop :=
  forall files f g, files_ v !! S (Z.to_nat (level_ c)) = Some files -> f ∈ inputs1_ c -> g ∈ files -> g ∉ inputs1_ c ->
    last_user f <> first_user g.

(** the entries of the inputs, and the others *)
Definition input_adds (c : Compaction) : list add := files_adds content (inputs0_ c ++ inputs1_ c).
Definition rest_adds (v : Version) (c : Compaction) : list add :=
  other_adds content v (Z.to_nat (level_ c)) (inputs0_ c) (inputs1_ c).

Context v c (Hv : version_ok content v) (Hc : compaction_ok v c).

Lemma chosen_levels : exists files0 files1, files_ v !! Z.to_nat (level_ c) = Some files0 /\ files_ v !! S (Z.to_nat (level_ c)) = Some files1 /\
  level_ok content files1 /\ (forall f, f ∈ files0 \/ f ∈ files1 -> file_holds f (content (number f))).
Proof.
  pose proof (ck_level _ _ Hc) as Hl. destruct (version_level content v (Z.to_nat (level_ c)) Hv ltac:(lia)) as (f0 & H0 & Hh0 & _).
  destruct (version_level content v (S (Z.to_nat (level_ c))) Hv ltac:(lia)) as (f1 & H1 & Hh1 & Hok). exists f0, f1.
  split; [done|]. split; [done|]. split; [apply Hok; lia|]. rewrite list.Forall_forall in Hh0. rewrite list.Forall_forall in Hh1.
  intros f [Hf|Hf]; [by apply Hh0|by apply Hh1].
Qed.

(** a file of the next level that stays is before the inputs or after them *)
Lemma stays_outside files g :
  files_ v !! S (Z.to_nat (level_ c)) = Some files -> g ∈ files -> g ∉ inputs1_ c ->
  (forall x y, x ∈ content (number g) -> y ∈ input_adds c -> add_cmp x y < 0) \/
  (forall x y, x ∈ content (number g) -> y ∈ input_adds c -> add_cmp y x < 0).
Proof.
  intros Hf Hg Hn. destruct chosen_levels as (f0 & f1 & Hf0 & Hf1 & Hok & Hh). assert (f1 = files) as -> by congruence.
  destruct (ck_inputs1 _ _ Hc) as (lo & hi & Hrange & Hin). specialize (Hin files Hf).
  destruct (file_users g _ (Hh g (or_intror Hg))) as (_ & _ & Hgle & Hgk).
  assert (Hin0 : forall f y, f ∈ inputs0_ c -> y ∈ content (number f) -> lex lo (a_key y) <= 0 /\ lex (a_key y) hi <= 0).
  { intros f y Hfi Hy. destruct (Hrange f Hfi) as [R1 R2]. destruct (file_users f _ (Hh f (or_introl (ck_inputs0 _ _ Hc f0 f Hf0 Hfi)))) as (_ & _ & _ & Hfk).
    destruct (Hfk y Hy) as [K1 K2]. split; by eapply lex_le_trans. }
  assert (Hpos : forall f, f ∈ inputs1_ c -> exists i j, files !! i = Some g /\ files !! j = Some f /\ i <> j).
  { intros f Hfi. pose proof (proj1 (Hin f) Hfi) as [Hfm _]. apply list_elem_of_lookup in Hg as (i & Hi), Hfm as (j & Hj).
    exists i, j. split; [done|]. split; [done|]. intros ->. apply Hn. by assert (g = f) as -> by congruence. }
  assert (Hno : ~ overlaps (Some lo) (Some hi) g) by (intros Ho; apply Hn, Hin; done).
  destruct (decide (not_above (Some lo) (last_user g))) as [Hlo|Hlo].
  - assert (Hhi : lex hi (first_user g) < 0).
    { destruct (Z.lt_ge_cases (lex hi (first_user g)) 0) as [|Hge]; [done|]. exfalso. apply Hno. split; [done|]. cbn.
      pose proof (lex_antisym hi (first_user g)). lia. }
    right. intros x y Hx Hy. unfold input_adds in Hy. rewrite files_adds_app, elem_of_app, !elem_of_files_adds in Hy. destruct Hy as [(f & Hfi & Hy)|(f & Hfi & Hy)].
    + apply icompare_user. eapply lex_le_lt; [by apply (Hin0 f y)|]. eapply lex_lt_le; [exact Hhi|by apply Hgk].
    + destruct (Hpos f Hfi) as (i & j & Hi & Hj & Hij). destruct (decide (j < i)%nat) as [Hlt|Hlt]; [by apply (level_entries content files j i f g)|].
      exfalso. pose proof (level_first_users content files i j g f Hok ltac:(lia) Hi Hj) as H1. pose proof (proj1 (Hin f) Hfi) as [_ [_ H2]]. cbn in H2.
      assert (lex (first_user g) hi <= 0); [|pose proof (lex_antisym hi (first_user g)); lia].
      eapply lex_le_trans; [exact Hgle|]. by eapply lex_le_trans.
  - assert (Hlo' : lex (last_user g) lo < 0). { cbn in Hlo. pose proof (lex_antisym lo (last_user g)). lia. }
    left. intros x y Hx Hy. unfold input_adds in Hy. rewrite files_adds_app, elem_of_app, !elem_of_files_adds in Hy. destruct Hy as [(f & Hfi & Hy)|(f & Hfi & Hy)].
    + apply icompare_user. eapply lex_le_lt; [by apply Hgk|]. eapply lex_lt_le; [exact Hlo'|by apply (Hin0 f y)].
    + destruct (Hpos f Hfi) as (i & j & Hi & Hj & Hij). destruct (decide (i < j)%nat) as [Hlt|Hlt]; [by apply (level_entries content files i j g f)|].
      exfalso. pose proof (level_first_users content files j i f g Hok ltac:(lia) Hj Hi) as H1. pose proof (proj1 (Hin f) Hfi) as [_ [H2 _]]. cbn in H2.
      assert (lex lo (last_user g) <= 0); [|pose proof (lex_antisym lo (last_user g)); lia].
      eapply lex_le_trans; [exact H2|]. by eapply lex_le_trans.
Qed.
(** An obsolete deletion hides nothing that stays. *)
Lemma base_rest_newer d r :
  no_split v c -> d ∈ input_adds c -> r ∈ rest_adds v c -> base_key v (level_ c) (a_key d) -> a_key d = a_key r -> a_seq d <= a_seq r.
Proof.
  intros Hns Hd Hr Hbase Hk. destruct chosen_levels as (f0 & f1 & Hf0 & Hf1 & Hok & Hh). pose proof (ck_level _ _ Hc) as Hlv.
  set (L := Z.to_nat (level_ c)) in *. apply elem_of_other_adds in Hr as (l & files & g & Hl & Hg & [Hs0 Hs1] & Hr).
  unfold input_adds in Hd. rewrite files_adds_app, elem_of_app in Hd.
  assert (Hd' : exists l' files', files_ v !! l' = Some files' /\ d ∈ files_adds content files' /\ (l' = L \/ l' = S L)).
  { destruct Hd as [Hd|Hd]; apply elem_of_files_adds in Hd as (f & Hf & Hd).
    - exists L, f0. split; [done|]. split; [|by left]. apply elem_of_files_adds. exists f. split; [by apply (ck_inputs0 _ _ Hc f0)|done].
    - exists (S L), f1. split; [done|]. split; [|by right]. apply elem_of_files_adds. exists f. split; [|done].
      destruct (ck_inputs1 _ _ Hc) as (lo & hi & _ & Hin). by apply (Hin f1). }
  destruct (decide (l < L)%nat) as [Hlt|Hge].
  { destruct Hd' as (l' & files' & Hl' & Hd' & Hll). apply (vo_deeper _ _ Hv l l' files files' ltac:(lia) Hl Hl' r d); [|done|done].
    apply elem_of_files_adds. by exists g. }
  destruct (decide (l = L)) as [->|HneL].
  { destruct Hd as [Hd|Hd]; [by apply (ck_newer _ _ Hc files g Hl Hg (Hs0 eq_refl) r d)|].
    apply (vo_deeper _ _ Hv L (S L) files f1 ltac:(lia) Hl Hf1 r d); [apply elem_of_files_adds; by exists g| |done].
    apply elem_of_files_adds in Hd as (f & Hf & Hd). apply elem_of_files_adds. exists f. split; [|done].
    destruct (ck_inputs1 _ _ Hc) as (lo & hi & _ & Hin). by apply (Hin f1). }
  destruct (decide (l = S L)) as [->|HneS].
  { assert (f1 = files) as -> by congruence. clear Hd'. destruct (stays_outside files g Hl Hg (Hs1 eq_refl)) as [Ho|Ho].
    { apply add_cmp_same; [|done]. apply Ho; [done|]. unfold input_adds. by rewrite files_adds_app, elem_of_app. }
    exfalso. assert (Hdr : add_cmp d r < 0) by (apply Ho; [done|]; unfold input_adds; by rewrite files_adds_app, elem_of_app).
    destruct (ck_inputs1 _ _ Hc) as (lo & hi & Hrange & Hin). specialize (Hin files Hl). destruct (file_users g _ (Hh g (or_intror Hg))) as (_ & _ & _ & Hgk).
    destruct (Hgk r Hr) as [G1 G2]. destruct Hd as [Hd|Hd]; apply elem_of_files_adds in Hd as (f & Hf & Hd).
    - apply (Hs1 eq_refl), Hin. split; [done|]. destruct (Hrange f Hf) as [R1 R2].
      destruct (file_users f _ (Hh f (or_introl (ck_inputs0 _ _ Hc f0 f Hf0 Hf)))) as (_ & _ & _ & Hfk). destruct (Hfk d Hd) as [K1 K2].
      rewrite Hk in K1, K2. split; cbn.
      + eapply lex_le_trans; [exact R1|]. by eapply lex_le_trans.
      + eapply lex_le_trans; [exact G1|]. by eapply lex_le_trans.
    - pose proof (proj1 (Hin f) Hf) as [Hfm _]. destruct (file_users f _ (Hh f (or_intror Hfm))) as (_ & _ & _ & Hfk). destruct (Hfk d Hd) as [K1 K2].
      apply (Hns files f g Hl Hf Hg (Hs1 eq_refl)). rewrite Hk in K2.
      apply list_elem_of_lookup in Hg as (i & Hi), Hfm as (j & Hj). destruct (Nat.lt_trichotomy i j) as [Hlt|[->|Hlt]].
      + pose proof (level_entries content files i j g f r d Hok Hlt Hi Hj Hr Hd) as H1. exfalso. apply (add_cmp_irrefl d). by eapply add_cmp_trans.
      + exfalso. assert (f = g) as -> by congruence. by apply (Hs1 eq_refl).
      + pose proof (level_first_users content files j i f g Hok Hlt Hj Hi) as H1. apply lex_eq.
        assert (lex (first_user g) (last_user f) <= 0) by (by eapply lex_le_trans). pose proof (lex_antisym (last_user f) (first_user g)). lia. }
  exfalso. unfold base_key in Hbase. rewrite list.Forall_lookup in Hbase.
  assert (Hfs : drop (Z.to_nat (level_ c + 2)) (files_ v) !! (l - (L + 2))%nat = Some files).
  { rewrite lookup_drop. replace (Z.to_nat (level_ c + 2) + (l - (L + 2)))%nat with l by lia. done. }
  specialize (Hbase _ _ Hfs). rewrite list.Forall_forall in Hbase. apply (Hbase g Hg).
  destruct (version_level content v l Hv) as (fs & Hfs' & Hall & _). { apply lookup_lt_Some in Hl. rewrite (vo_levels _ _ Hv) in Hl. exact Hl. }
  assert (fs = files) as -> by congruence. rewrite list.Forall_forall in Hall. destruct (file_users g _ (Hall g Hg)) as (_ & _ & _ & Hgk).
  rewrite Hk. by apply Hgk.
Qed.
End Chosen.
