(* ===== verification/DBCompaction.v ===== *)
(** * DBCompaction: running a compaction of levels, in db/db_impl.cc

    The entries of the input iterator go in order to new tables of the next
    level, without those that no reader needs; then the version set drops the
    input files and takes the new ones.  The input is any [Iterator]; the code
    makes it with [MakeInputIterator] from those of the input files,
    whose reads leave no trace in the caches here.  The mutex, the clock, the log
    and the statistics are not modelled, and [shutting_down_] does not change
    while a compaction runs. *)

From Stdlib.Strings Require Import Byte.
From stdpp Require Import gmap.
From S2P Require Import Prelude Status Coding DbFormat WriteBatch SkipList MemTable Crc32c Log Bloom FilterBlock Block Format TableBuilder Table VersionEdit Version Env Filename TableCache Builder VersionSet Compaction DBFiles.

(** [CompactionState::Output] *)
Record Output := { out_number : Z; out_file_size : Z; out_smallest : bytes; out_largest : bytes }.

(** ** Whether an entry is dropped *)

(** [current_user_key], when there is one, and [last_sequence_for_key] *)
Record KeyState := { current_user_key : option bytes; last_sequence_for_key : Z }.
Definition no_key : KeyState := {| current_user_key := None; last_sequence_for_key := kMaxSequenceNumber |}.

Definition drop_entry (smallest_snapshot : Z) (c : Compaction) (st : KeyState) (key : bytes) : outcome (bool * Compaction * KeyState) :=
  '(parsed, ikey) ← ParseInternalKey key;
  match parsed, ikey with
  | true, Some ikey =>
      let st := match current_user_key st with
                | Some u => if Compare (user_key ikey) u =? 0 then st
                            else {| current_user_key := Some (user_key ikey); last_sequence_for_key := kMaxSequenceNumber |}
                | None => {| current_user_key := Some (user_key ikey); last_sequence_for_key := kMaxSequenceNumber |}
                end in
      '(drop, c) ← (if last_sequence_for_key st <=? smallest_snapshot then Done (true, c)
                    else if (type ikey =? type_code kTypeDeletion) && (sequence ikey <=? smallest_snapshot)
                    then IsBaseLevelForKey c (user_key ikey)
                    else Done (false, c));
      Done (drop, c, {| current_user_key := current_user_key st; last_sequence_for_key := sequence ikey |})
  | _, _ => Done (false, c, no_key)
  end.

Section Run.
Context {E F R G P CT CB I : Type} `{Env E F R G} `{FilterPolicy P} `{Cache CT (Table (R := R) (P := InternalFilterPolicy P))} `{Cache CB Block}
  `{Machine} `{Snappy} `{Iterator I}.
Abbreviation DB := (DB (E := E) (F := F) (P := P) (CT := CT) (CB := CB)).
Abbreviation Rep := (TableBuilder.Rep (F := F) (P := InternalFilterPolicy P)).
Implicit Types (db : DB) (options : Options (InternalFilterPolicy P)).

(** ** The state of a compaction *)

(** [outfile] is the builder's file; the last of the outputs is the current one *)
Record CompactionState := {
  compaction : Compaction; smallest_snapshot : Z; outputs : list Output; builder : option Rep; total_bytes : Z }.

Definition make_CompactionState (c : Compaction) : CompactionState :=
  {| compaction := c; smallest_snapshot := 0; outputs := []; builder := None; total_bytes := 0 |}.
Definition cs_with (s : CompactionState) (outs : list Output) (b : option Rep) (total : Z) : CompactionState :=
  {| compaction := compaction s; smallest_snapshot := smallest_snapshot s; outputs := outs; builder := b; total_bytes := total |}.
Definition cs_with_compaction (s : CompactionState) (c : Compaction) : CompactionState :=
  {| compaction := c; smallest_snapshot := smallest_snapshot s; outputs := outputs s; builder := builder s; total_bytes := total_bytes s |}.
Definition cs_with_snapshot (s : CompactionState) (snapshot : Z) : CompactionState :=
  {| compaction := compaction s; smallest_snapshot := snapshot; outputs := outputs s; builder := builder s; total_bytes := total_bytes s |}.

Definition current_output (s : CompactionState) : outcome Output := match list.last (outputs s) with Some o => Done o | None => Undefined end.
Definition set_current_output (s : CompactionState) (o : Output) : CompactionState :=
  cs_with s (take (length (outputs s) - 1) (outputs s) ++ [o]) (builder s) (total_bytes s).

(** ** The output files *)

Definition OpenCompactionOutputFile options db (s : CompactionState) : outcome (DB * CompactionState * Status) :=
  _ ← c_assert (match builder s with None => true | Some _ => false end);
  let (vs, file_number) := NewFileNumber (db_versions db) in
  let s := cs_with s (outputs s ++ [{| out_number := file_number; out_file_size := 0; out_smallest := []; out_largest := [] |}]) None (total_bytes s) in
  fname ← TableFileName (vs_dbname vs) file_number;
  let (env, r) := NewWritableFile (db_env db) fname in
  let db := db_with_files db env vs (db_tables db) ({[file_number]} ∪ pending_outputs_ db) in
  match r with
  | inr st => Done (db, s, st)
  | inl f => b ← make_TableBuilder options f; Done (db, cs_with s (outputs s) (Some b) (total_bytes s), OK)
  end.

Definition FinishCompactionOutputFile options db (s : CompactionState) (input : I) : outcome (DB * CompactionState * Status) :=
  match builder s with
  | None => Asserted
  | Some b =>
      out ← current_output s;
      _ ← c_assert (negb (out_number out =? 0));
      let st := it_status input in
      let current_entries := NumEntries b in
      '(b, st) ← (if bool_decide (st = OK) then '(b, finished) ← Finish options b; Done (b, append_status finished)
                  else b ← Abandon b; Done (b, st));
      let current_bytes := FileSize b in
      let s := set_current_output s {| out_number := out_number out; out_file_size := current_bytes;
                                       out_smallest := out_smallest out; out_largest := out_largest out |} in
      let s := cs_with s (outputs s) None (u64 (total_bytes s + current_bytes)) in
      let (env, st) := if bool_decide (st = OK) then file_Sync (db_env db) (file b) else (db_env db, st) in
      let (env, st) := if bool_decide (st = OK) then file_Close env (file b) else (env, st) in
      '(st, tc) ← (if bool_decide (st = OK) && (0 <? current_entries)
                   then NewIterator_status env (db_tables db) (out_number out) current_bytes
                   else Done (st, db_tables db));
      Done (db_with_files db env (db_versions db) tc (pending_outputs_ db), s, st)
  end.

(** ** The loop *)

(** an entry that is not dropped, and the end of its file when that is big
    enough *)
Definition add_output options db (s : CompactionState) (input : I) (key : bytes) : outcome (DB * CompactionState * Status) :=
  '(db, s, st) ← (match builder s with None => OpenCompactionOutputFile options db s | Some _ => Done (db, s, OK) end);
  if negb (bool_decide (st = OK)) then Done (db, s, st) else
  match builder s with
  | None => Undefined
  | Some b =>
      out ← current_output s;
      let small := if NumEntries b =? 0 then (InternalKey_DecodeFrom key).1 else out_smallest out in
      let s := set_current_output s {| out_number := out_number out; out_file_size := out_file_size out;
                                       out_smallest := small; out_largest := (InternalKey_DecodeFrom key).1 |} in
      value ← it_value input;
      b ← TableBuilder.Add options b key value;
      let s := cs_with s (outputs s) (Some b) (total_bytes s) in
      if max_output_file_size_ (compaction s) <=? FileSize b then FinishCompactionOutputFile options db s input else Done (db, s, OK)
  end.

(** [break] is a status other than OK *)
Fixpoint compaction_loop (fuel mem_fuel : nat) options db (s : CompactionState) (input : I) (ks : KeyState)
    : outcome (DB * CompactionState * I * Status) :=
  if it_Valid input && negb (shutting_down_ db) then
    match fuel with
    | O => Hangs
    | S fuel' =>
        db ← (match db_imm db with Some _ => CompactMemTable mem_fuel options db | None => Done db end);
        key ← it_key input;
        '(stop, c) ← ShouldStopBefore (vs_max_file_size (db_versions db)) (compaction s) key;
        let s := cs_with_compaction s c in
        '(db, s, st) ← (match builder s with
                        | Some _ => if (stop : bool) then FinishCompactionOutputFile options db s input else Done (db, s, OK)
                        | None => Done (db, s, OK)
                        end);
        if negb (bool_decide (st = OK)) then Done (db, s, input, st) else
        '(drop, c, ks) ← drop_entry (smallest_snapshot s) (compaction s) ks key;
        let s := cs_with_compaction s c in
        '(db, s, st) ← (if (drop : bool) then Done (db, s, OK) else add_output options db s input key);
        if negb (bool_decide (st = OK)) then Done (db, s, input, st) else
        input ← it_Next input;
        compaction_loop fuel' mem_fuel options db s input ks
    end
  else Done (db, s, input, OK).

Definition add_outputs (level : Z) (outs : list Output) (edit : VersionEdit) : VersionEdit :=
  foldl (fun e o => AddFile level (out_number o) (out_file_size o) (out_smallest o) (out_largest o) e) edit outs.

Definition InstallCompactionResults db (s : CompactionState) : outcome (DB * CompactionState * Status) :=
  let c := compaction s in
  let edit := add_outputs (level_ c + 1) (outputs s) (AddInputDeletions c (edit_ c)) in
  let s := cs_with_compaction s (c_with_inputs c (input_version_ c) edit (inputs0_ c) (inputs1_ c) (grandparents_ c)) in
  '(env, vs, st) ← LogAndApply (db_env db) (db_versions db) edit;
  Done (db_with_files db env vs (db_tables db) (pending_outputs_ db), s, st).

(** [VersionSet::MakeInputIterator], over the tables of the database *)
Context (MakeInputIterator : DB -> Compaction -> outcome I).

(** [oldest]: the number of the oldest snapshot, if any *)
Definition DoCompactionWork (fuel mem_fuel : nat) options (oldest : option Z) db (s : CompactionState)
    : outcome (DB * CompactionState * Status) :=
  files ← NumLevelFiles (db_versions db) (level_ (compaction s));
  _ ← c_assert (0 <? files);
  _ ← c_assert (match builder s with None => true | Some _ => false end);
  let s := cs_with_snapshot s (default (vs_last_sequence (db_versions db)) oldest) in
  input ← MakeInputIterator db (compaction s);
  input ← it_SeekToFirst input;
  '(db, s, input, st) ← compaction_loop fuel mem_fuel options db s input no_key;
  let st := if bool_decide (st = OK) && shutting_down_ db then IOError (text "Deleting DB during compaction") else st in
  '(db, s, st) ← (match builder s with
                  | Some _ => if bool_decide (st = OK) then FinishCompactionOutputFile options db s input else Done (db, s, st)
                  | None => Done (db, s, st)
                  end);
  let st := if bool_decide (st = OK) then it_status input else st in
  '(db, s, st) ← (if bool_decide (st = OK) then InstallCompactionResults db s else Done (db, s, st));
  Done (if bool_decide (st = OK) then db else RecordBackgroundError db st, s, st).

(** the outputs are no longer pending *)
Definition CleanupCompaction db (s : CompactionState) : outcome DB :=
  _ ← (match builder s with Some b => b ← Abandon b; Done tt | None => Done tt end);
  Done (db_with_files db (db_env db) (db_versions db) (db_tables db)
          (foldl (fun pending o => pending ∖ {[out_number o]}) (pending_outputs_ db) (outputs s))).

(** ** BackgroundCompaction *)

Record ManualCompaction := { m_level : Z; m_done : bool; m_begin : option bytes; m_end : option bytes }.

(** the move of a file to the next level *)
Definition move_edit (c : Compaction) (f : FileMetaData) : VersionEdit :=
  AddFile (level_ c + 1) (number f) (file_size f) (smallest f) (largest f) (RemoveFile (level_ c) (number f) (edit_ c)).

Definition trivial_move db (c : Compaction) : outcome (DB * Status) :=
  match inputs0_ c with
  | f :: _ =>
      '(env, vs, st) ← LogAndApply (db_env db) (db_versions db) (move_edit c f);
      let db := db_with_files db env vs (db_tables db) (pending_outputs_ db) in
      Done (if bool_decide (st = OK) then db else RecordBackgroundError db st, st)
  | [] => Undefined
  end.

Definition run_compaction (fuel mem_fuel : nat) options (oldest : option Z) db (c : Compaction) : outcome (DB * Status) :=
  '(db, s, st) ← DoCompactionWork fuel mem_fuel options oldest db (make_CompactionState c);
  let db := if bool_decide (st = OK) then db else RecordBackgroundError db st in
  db ← CleanupCompaction db s;
  '(vs, c) ← ReleaseInputs (db_versions db) (compaction s);
  Done (RemoveObsoleteFiles (db_with_files db (db_env db) vs (db_tables db) (pending_outputs_ db)), st).

(** what is left of a manual compaction *)
Definition manual_left (m : ManualCompaction) (manual_end : option bytes) (st : Status) : ManualCompaction :=
  let finished := bool_decide (manual_end = None) || negb (bool_decide (st = OK)) in
  {| m_level := m_level m; m_done := finished; m_begin := if finished then m_begin m else manual_end; m_end := m_end m |}.

(** [size_level] as in [PickCompaction]; [manual] is the manual compaction asked
    for, and the second result is what is left of it *)
Definition BackgroundCompaction (fuel mem_fuel : nat) options (oldest : option Z) (size_level : option Z) (manual : option ManualCompaction) db
    : outcome (DB * option ManualCompaction) :=
  match db_imm db with
  | Some _ => db ← CompactMemTable mem_fuel options db; Done (db, manual)
  | None =>
      '(vs, c) ← (match manual with
                  | Some m => CompactRange (db_versions db) (m_level m) (m_begin m) (m_end m)
                  | None => PickCompaction (db_versions db) size_level
                  end);
      let db := db_with_files db (db_env db) vs (db_tables db) (pending_outputs_ db) in
      manual_end ← (match manual, c with
                    | Some _, Some c => match list.last (inputs0_ c) with Some f => Done (Some (largest f)) | None => Undefined end
                    | _, _ => Done None
                    end);
      '(db, st) ← (match c with
                   | None => Done (db, OK)
                   | Some c =>
                       if bool_decide (manual = None) && IsTrivialMove (db_versions db) c then
                         '(db, st) ← trivial_move db c;
                         '(vs, _) ← ReleaseInputs (db_versions db) c;
                         Done (db_with_files db (db_env db) vs (db_tables db) (pending_outputs_ db), st)
                       else run_compaction fuel mem_fuel options oldest db c
                   end);
      Done (db, (fun m => manual_left m manual_end st) <$> manual)
  end.
End Run.
