(* ===== verification/CompactionPick.v ===== *)
(** * CompactionPick: the compactions that db/version_set.cc chooses

    [PickCompaction] and [CompactRange] never fail on a version in order, and what
    they choose is a [compaction_ok]: with a file of a level go those that share
    its last user key, and all the files of the next level that they overlap. *)

From Stdlib.Strings Require Import Byte.
From Stdlib.Sorting Require Import Sorted.
From stdpp Require Import gmap sorting.
From S2P Require Import Prelude Status Coding DbFormat WriteBatch SkipList MemTable Crc32c Log BlockSpec TableSpec VersionEdit Version VersionSpec VersionLevels Env VersionSet VersionSetSpec DBFiles DBSpec DBFlush Compaction CompactionSpec.

(** ** Keys *)

Definition key_user (k : bytes) : bytes := match user_key_of k with Done u => u | _ => [] end.

Lemma user_key_of_ok k : ikey_ok k -> user_key_of k = Done (key_user k).
Proof. intros (u & t & -> & _). unfold key_user, user_key_of. by rewrite ExtractUserKey_ikey. Qed.

Lemma ikey_cmp_user a b : ikey_ok a -> ikey_ok b -> ikey_cmp a b <= 0 -> lex (key_user a) (key_user b) <= 0.
Proof.
  intros Ha Hb Hab. destruct (Z.eq_dec (ikey_cmp a b) 0) as [E|E].
  { apply ikey_cmp_exact in E; [|done..]. subst. rewrite lex_refl. lia. }
  destruct Ha as (u & t & -> & Ht), Hb as (w & s & -> & Hs). rewrite ikey_cmp_spec in Hab, E by done.
  unfold key_user, user_key_of. rewrite !ExtractUserKey_ikey. apply (icompare_lex u t w s). lia.
Qed.

Lemma ikey_cmp_le_trans a b c : ikey_ok a -> ikey_ok b -> ikey_ok c -> ikey_cmp a b <= 0 -> ikey_cmp b c <= 0 -> ikey_cmp a c <= 0.
Proof.
  intros Ha Hb Hc H1 H2. destruct (Z.eq_dec (ikey_cmp a b) 0) as [E|E]; [by apply ikey_cmp_exact in E as ->|].
  pose proof (ikey_cmp_lt_le a b c). pose proof (ikey_cmp_trans a b c). destruct (Z.eq_dec (ikey_cmp b c) 0) as [E'|E'].
  - apply ikey_cmp_exact in E'; [|done..]. by subst.
  - assert (ikey_cmp a c < 0); [|lia]. apply (ikey_cmp_trans a b c); try done; lia.
Qed.

Lemma ikey_ok_size k : ikey_ok k -> 8 <= blen k.
Proof. intros (u & t & -> & _). rewrite blen_ikey. pose proof (blen_nonneg u). lia. Qed.

(** ** Ranges *)

(** from the first key of the files to the last one *)
Record range_of (fs : list FileMetaData) (small large : bytes) : Prop := {
  rg_small : exists f, f ∈ fs /\ small = smallest f;
  rg_large : exists f, f ∈ fs /\ large = largest f;
  rg_all f : f ∈ fs -> ikey_cmp small (smallest f) <= 0 /\ ikey_cmp (largest f) large <= 0 }.

Lemma range_of_snoc fs small large f :
  Forall file_ok fs -> file_ok f -> range_of fs small large ->
  range_of (fs ++ [f]) (if ikey_cmp (smallest f) small <? 0 then smallest f else small)
                       (if 0 <? ikey_cmp (largest f) large then largest f else large).
Proof.
  intros Hfs Hf [(g & Hg & Es) (h & Hh & El) Hall]. rewrite list.Forall_forall in Hfs.
  pose proof (Hfs g Hg) as (Hgs & _ & _). pose proof (Hfs h Hh) as (_ & Hhl & _). rewrite <- Es in Hgs. rewrite <- El in Hhl. pose proof Hf as (Hfs1 & Hfl & _).
  split.
  - destruct (Z.ltb_spec (ikey_cmp (smallest f) small) 0); [exists f|exists g]; set_solver.
  - destruct (Z.ltb_spec 0 (ikey_cmp (largest f) large)); [exists f|exists h]; set_solver.
  - intros x [Hx| ->%list_elem_of_singleton]%elem_of_app.
    + destruct (Hall x Hx) as [H1 H2]. destruct (Hfs x Hx) as (Hxs & Hxl & _). split; [destruct (Z.ltb_spec (ikey_cmp (smallest f) small) 0)|destruct (Z.ltb_spec 0 (ikey_cmp (largest f) large))]; try done.
      * apply (ikey_cmp_le_trans _ small); try done. lia.
      * apply (ikey_cmp_le_trans _ large); try done. rewrite (ikey_cmp_antisym (largest f) large) by done. lia.
    + split; [destruct (Z.ltb_spec (ikey_cmp (smallest f) small) 0)|destruct (Z.ltb_spec 0 (ikey_cmp (largest f) large))].
      * rewrite ikey_cmp_refl by done. lia.
      * rewrite (ikey_cmp_antisym (smallest f) small) by done. lia.
      * rewrite ikey_cmp_refl by done. lia.
      * done.
Qed.

Lemma range_of_one f : file_ok f -> range_of [f] (smallest f) (largest f).
Proof.
  intros (H1 & H2 & _). split; [exists f; set_solver|exists f; set_solver|]. intros g ->%list_elem_of_singleton. rewrite !ikey_cmp_refl by done. lia.
Qed.

Lemma range_keys fs small large : Forall file_ok fs -> range_of fs small large -> ikey_ok small /\ ikey_ok large.
Proof. rewrite list.Forall_forall. intros Hfs [(f & Hf & ->) (g & Hg & ->) _]. split; [apply (Hfs f Hf)|apply (Hfs g Hg)]. Qed.

Lemma get_range_spec fs seen small large :
  Forall file_ok seen -> Forall file_ok fs -> range_of seen small large ->
  exists s l, get_range fs small large = Done (s, l) /\ range_of (seen ++ fs) s l.
Proof.
  intros Hseen Hfs. revert seen small large Hseen. induction Hfs as [|f fs Hf Hfs IH]; intros seen small large Hseen Hr; cbn [get_range].
  { exists small, large. by rewrite app_nil_r. }
  destruct (range_keys _ _ _ Hseen Hr) as [Hs Hl]. pose proof Hf as (Hfs1 & Hfl & _). rewrite !Compare_keys_spec by done. cbn [mbind outcome_bind].
  destruct (IH (seen ++ [f]) _ _ ltac:(apply list.Forall_app; split; [done|by constructor]) (range_of_snoc seen small large f Hseen Hf Hr)) as (s & l & E & Hr').
  exists s, l. split; [done|]. by rewrite <- app_assoc in Hr'.
Qed.

Lemma GetRange_spec fs : fs <> [] -> Forall file_ok fs -> exists s l, GetRange fs = Done (s, l) /\ range_of fs s l.
Proof.
  intros Hne Hfs. destruct fs as [|f fs]; [done|]. apply list.Forall_cons in Hfs as [Hf Hfs].
  destruct (get_range_spec fs [f] (smallest f) (largest f)) as (s & l & E & Hr); [by constructor|done|by apply range_of_one|].
  by exists s, l.
Qed.

Lemma range_users fs s l f : Forall file_ok fs -> range_of fs s l -> f ∈ fs -> lex (key_user s) (first_user f) <= 0 /\ lex (last_user f) (key_user l) <= 0.
Proof.
  intros Hfs Hr Hf. destruct (range_keys _ _ _ Hfs Hr) as [Hs Hl]. destruct (rg_all _ _ _ Hr f Hf) as [H1 H2]. rewrite list.Forall_forall in Hfs.
  destruct (Hfs f Hf) as (Hfs1 & Hfl & _). split; by apply ikey_cmp_user.
Qed.

Lemma find_largest_spec fs k :
  Forall file_ok fs -> ikey_ok k -> exists k', find_largest fs k = Done k' /\ (k' = k \/ exists f, f ∈ fs /\ k' = largest f) /\
    ikey_cmp k k' <= 0 /\ forall f, f ∈ fs -> ikey_cmp (largest f) k' <= 0.
Proof.
  intros Hfs. revert k; induction Hfs as [|f fs Hf Hfs IH]; intros k Hk; cbn [find_largest].
  { exists k. split; [done|]. split; [by left|]. rewrite ikey_cmp_refl by done. split; [lia|]. by intros f ?%elem_of_nil. }
  pose proof Hf as (_ & Hfl & _). rewrite Compare_keys_spec by done. cbn [mbind outcome_bind].
  set (k1 := if 0 <? ikey_cmp (largest f) k then largest f else k). assert (Hk1 : ikey_ok k1) by (unfold k1; by destruct (0 <? _)).
  destruct (IH k1 Hk1) as (k' & E & Hin & Hle & Hall). exists k'. split; [done|].
  assert (Hk' : ikey_ok k'). { destruct Hin as [->|(g & Hg & ->)]; [done|]. rewrite list.Forall_forall in Hfs. apply (Hfs g Hg). }
  assert (H1 : ikey_cmp k k1 <= 0 /\ ikey_cmp (largest f) k1 <= 0).
  { unfold k1. destruct (Z.ltb_spec 0 (ikey_cmp (largest f) k)); rewrite ikey_cmp_refl by done; [rewrite (ikey_cmp_antisym (largest f) k) by done|]; lia. }
  destruct H1 as [H1 H2]. split; [|split].
  - destruct Hin as [->|(g & Hg & ->)]; [unfold k1; destruct (0 <? _); [right; exists f; split; [by left|done]|by left]|right; exists g; split; [by right|done]].
  - by apply (ikey_cmp_le_trans _ k1).
  - intros g [->|Hg]%elem_of_cons; [by apply (ikey_cmp_le_trans _ k1)|by apply Hall].
Qed.

(** ** [AddBoundaryInputs] *)

(** [f] starts after [key], with its user key *)
Definition boundary (key : bytes) (f : FileMetaData) : Prop := 0 < ikey_cmp (smallest f) key /\ first_user f = key_user key.

Lemma smallest_boundary_spec files key best :
  Forall file_ok files -> ikey_ok key -> (forall b, best = Some b -> file_ok b) ->
  exists r, smallest_boundary files key best = Done r /\
    (forall b, r = Some b -> (best = Some b \/ b ∈ files /\ boundary key b) /\
      (forall f, f ∈ files -> boundary key f -> ikey_cmp (smallest b) (smallest f) <= 0) /\
      (forall b0, best = Some b0 -> ikey_cmp (smallest b) (smallest b0) <= 0)) /\
    (r = None -> best = None /\ forall f, f ∈ files -> ~ boundary key f).
Proof.
  intros Hfs Hk. revert best; induction Hfs as [|f fs Hf Hfs IH]; intros best Hb; cbn [smallest_boundary].
  { exists best. split; [done|]. split; [|intros ->; split; [done|by intros f ?%elem_of_nil]]. intros b ->. split; [by left|]. split; [by intros f ?%elem_of_nil|].
    intros b0 [= <-]. destruct (Hb b eq_refl) as (? & _). rewrite ikey_cmp_refl by done. lia. }
  pose proof Hf as (Hs & _). rewrite Compare_keys_spec by done. cbn [mbind outcome_bind].
  assert (Hskip : ~ boundary key f -> exists r, smallest_boundary fs key best = Done r /\
    (forall b, r = Some b -> (best = Some b \/ b ∈ f :: fs /\ boundary key b) /\
      (forall g, g ∈ f :: fs -> boundary key g -> ikey_cmp (smallest b) (smallest g) <= 0) /\
      (forall b0, best = Some b0 -> ikey_cmp (smallest b) (smallest b0) <= 0)) /\
    (r = None -> best = None /\ forall g, g ∈ f :: fs -> ~ boundary key g)).
  { intros Hno. destruct (IH best Hb) as (r & E & Hsome & Hnone). exists r. split; [done|]. split.
    - intros b Er. destruct (Hsome b Er) as (H1 & H2 & H3). split; [set_solver|]. split; [|done]. intros g [->|Hg]%elem_of_cons; [done|by apply H2].
    - intros Er. destruct (Hnone Er) as [H1 H2]. split; [done|]. intros g [->|Hg]%elem_of_cons; [done|by apply H2]. }
  destruct (Z.ltb_spec 0 (ikey_cmp (smallest f) key)) as [Hlt|Hge]; [|apply Hskip; intros [? _]; lia].
  rewrite !user_key_of_ok by done. cbn [mbind outcome_bind]. unfold Compare. rewrite slice_compare_lex.
  destruct (Z.eqb_spec (lex (key_user (smallest f)) (key_user key)) 0) as [E|E].
  2: { apply Hskip. intros [_ Hu]. apply E. change (first_user f) with (key_user (smallest f)) in Hu. rewrite Hu. apply lex_refl. }
  apply lex_eq in E. assert (Hfb : boundary key f) by done. clear Hskip.
  set (better := match best with None => true | Some b => ikey_cmp (smallest f) (smallest b) <? 0 end).
  assert (Eb : starts_first f best = Done better).
  { unfold starts_first, better. destruct best as [b|]; [|done]. destruct (Hb b eq_refl) as (? & _). by rewrite Compare_keys_spec. }
  rewrite Eb. cbn [mbind outcome_bind]. set (best' := if better then Some f else best).
  assert (Hb' : forall b, best' = Some b -> file_ok b) by (unfold best'; destruct better; [by intros b [= <-]|done]).
  destruct (IH best' Hb') as (r & Er & Hsome & Hnone). exists r. split; [done|].
  assert (Hold : forall b, best' = Some b -> ikey_cmp (smallest b) (smallest f) <= 0 /\ forall b0, best = Some b0 -> ikey_cmp (smallest b) (smallest b0) <= 0).
  { intros b. unfold best', better. destruct best as [b1|]; [destruct (Hb b1 eq_refl) as (Hb1 & _); destruct (Z.ltb_spec (ikey_cmp (smallest f) (smallest b1)) 0)|]; intros [= <-].
    - rewrite ikey_cmp_refl by done. split; [lia|]. intros b0 [= <-]. lia.
    - rewrite (ikey_cmp_antisym (smallest f) (smallest b1)) by done. split; [lia|]. intros b0 [= <-]. rewrite ikey_cmp_refl by done. lia.
    - rewrite ikey_cmp_refl by done. split; [lia|done]. }
  split.
  - intros b E'. destruct (Hsome b E') as (H1 & H2 & H3). assert (Hbk : file_ok b).
    { destruct H1 as [H1|[H1 _]]; [by apply Hb'|rewrite list.Forall_forall in Hfs; by apply Hfs]. }
    split; [|split].
    + destruct H1 as [H1|[H1 H1']]; [|right; split; [by right|done]]. unfold best' in H1. destruct better; [|by left].
      injection H1 as <-. right. split; [by left|done].
    + destruct best' as [b1|] eqn:E1; [|unfold best', better in E1; by destruct best as [b1|]; [destruct (_ <? 0)|]].
      destruct (Hold b1 eq_refl) as [Ho _]. specialize (H3 b1 eq_refl). pose proof (Hb' b1 eq_refl) as (Hb1 & _). pose proof Hbk as (Hbs & _).
      intros g [->|Hg]%elem_of_cons Hgb; [by apply (ikey_cmp_le_trans _ (smallest b1))|by apply H2].
    + intros b0 E0. destruct best' as [b1|] eqn:E1; [|unfold best', better in E1; by rewrite E0 in E1; destruct (_ <? 0)].
      destruct (Hold b1 eq_refl) as [_ Ho]. specialize (Ho b0 E0). specialize (H3 b1 eq_refl). pose proof (Hb' b1 eq_refl) as (Hb1 & _). pose proof Hbk as (Hbs & _).
      destruct (Hb b0 E0) as (Hb0 & _). by apply (ikey_cmp_le_trans _ (smallest b1)).
  - intros E'. destruct (Hnone E') as [H1 _]. exfalso. unfold best', better in H1. destruct best as [b1|]; [by destruct (_ <? 0)|done].
Qed.

(** with two files of a level those between them are in [R] *)
Definition convex (files R : list FileMetaData) : Prop :=
  forall i j k f g h, (i < j < k)%nat -> files !! i = Some f -> files !! j = Some g -> files !! k = Some h -> f ∈ R -> h ∈ R -> g ∈ R.

(** files of a level a compaction can start from: at level 0 all that overlap a
    range that none of them sticks out of *)
Record good_inputs (level : Z) (files R : list FileMetaData) : Prop := {
  gi_some : R <> [];
  gi_sub f : f ∈ R -> f ∈ files;
  gi_zero : level = 0 -> exists lo hi, closed lo hi files /\ forall g, g ∈ R <-> g ∈ files /\ overlaps lo hi g;
  gi_convex : level <> 0 -> convex files R }.

(** [key] is the largest key of the files *)
Record last_key_of (R : list FileMetaData) (key : bytes) : Prop := {
  lk_in : exists z, z ∈ R /\ key = largest z;
  lk_all f : f ∈ R -> ikey_cmp (largest f) key <= 0 }.

Lemma filter_shrinks_in {A} (P Q : A -> Prop) `{!forall x, Decision (P x), !forall x, Decision (Q x)} l x :
  (forall y, y ∈ l -> P y -> Q y) -> x ∈ l -> Q x -> ~ P x -> (length (filter P l) < length (filter Q l))%nat.
Proof.
  intros HPQ Hx HQ HP. assert (Hle : forall l', (forall y, y ∈ l' -> P y -> Q y) -> (length (filter P l') <= length (filter Q l'))%nat).
  { induction l' as [|y l' IH]; intros Hl; [done|]. rewrite !list.filter_cons. specialize (IH ltac:(intros z Hz; apply Hl; by right)).
    pose proof (Hl y ltac:(by left)). repeat case_decide; simpl; naive_solver lia. }
  apply list_elem_of_split in Hx as (l1 & l2 & ->). rewrite !list.filter_app, !length_app, (list.filter_cons_False P), (list.filter_cons_True Q) by done.
  pose proof (Hle l1 ltac:(intros y Hy; apply HPQ, elem_of_app; by left)).
  pose proof (Hle l2 ltac:(intros y Hy; apply HPQ, elem_of_app; right; by right)). simpl. lia.
Qed.

Section Boundary.
Context (content : Z -> list add) (level : Z) (files : list FileMetaData).
Context (Hh : forall f, f ∈ files -> file_holds f (content (number f))) (Hlev : level <> 0 -> level_ok content files).

Lemma files_ok : Forall file_ok files.
Proof. apply list.Forall_forall. intros f Hf. apply (file_holds_ends f _ (Hh f Hf)). Qed.

Lemma file_is_ok f : f ∈ files -> file_ok f.
Proof. intros Hf. apply (file_holds_ends f _ (Hh f Hf)). Qed.

Lemma before_lookup i j f g : level <> 0 -> (i < j)%nat -> files !! i = Some f -> files !! j = Some g -> ikey_cmp (largest f) (smallest g) < 0.
Proof. intros Hz Hij Hi Hj. exact (sorted_lookup _ files i j f g (lo_sorted _ _ (Hlev Hz)) Hij Hi Hj). Qed.

Lemma before_trans f g h : file_ok f -> file_ok g -> file_ok h ->
  ikey_cmp (largest f) (smallest g) < 0 -> ikey_cmp (largest g) (smallest h) < 0 -> ikey_cmp (largest f) (smallest h) < 0.
Proof.
  intros (_ & Hf & _) (Hg1 & Hg2 & Hg) (Hh1 & _) H1 H2. apply (ikey_cmp_trans _ (smallest g)); try done. by apply (ikey_cmp_le_lt _ (largest g)).
Qed.

Lemma not_before_itself f : file_ok f -> ~ ikey_cmp (largest f) (smallest f) < 0.
Proof. intros (H1 & H2 & H3). rewrite (ikey_cmp_antisym (smallest f) (largest f)) by done. lia. Qed.

(** at level 0 there is nothing to add *)
Lemma no_boundary_zero R key b :
  level = 0 -> good_inputs level files R -> last_key_of R key -> b ∈ files -> ~ boundary key b.
Proof.
  intros Hz [_ Hsub Hzero _] [(z & Hz1 & ->) Hall] Hb [Hlt Hu]. destruct (Hzero Hz) as (lo & hi & Hcl & Hin).
  pose proof (file_is_ok b Hb) as (Hbs & Hbl & Hble). pose proof (Hsub z Hz1) as Hzf. pose proof (file_is_ok z Hzf) as (_ & Hzl & _).
  destruct (file_users b _ (Hh b Hb)) as (_ & _ & Hbu & _). destruct (file_users z _ (Hh z Hzf)) as (_ & _ & Hzu & _).
  assert (HbR : b ∈ R).
  { apply Hin. split; [done|]. destruct (proj1 (Hin z) Hz1) as [_ Hoz]. destruct (Hcl z Hzf Hoz) as [Hc1 Hc2]. change (key_user (largest z)) with (last_user z) in Hu.
    split; [|by rewrite Hu]. destruct lo as [l|]; [|done]. cbn in *. rewrite Hu in Hbu.
    eapply lex_le_trans; [exact Hc1|]. by eapply lex_le_trans. }
  specialize (Hall b HbR). assert (ikey_cmp (smallest b) (largest z) <= 0); [|lia]. by apply (ikey_cmp_le_trans _ (largest b)).
Qed.

Lemma boundary_step R key b :
  good_inputs level files R -> last_key_of R key -> b ∈ files -> boundary key b ->
  (forall f, f ∈ files -> boundary key f -> ikey_cmp (smallest b) (smallest f) <= 0) ->
  good_inputs level files (R ++ [b]) /\ last_key_of (R ++ [b]) (largest b) /\ ikey_cmp key (largest b) < 0.
Proof.
  intros Hg Hk Hb Hbd Hmin. pose proof Hk as [(z & HzR & Ez) Hall]. pose proof Hbd as [Hlt Hu].
  destruct (decide (level = 0)) as [Hz|Hz]; [by apply (no_boundary_zero R key b Hz Hg Hk Hb) in Hbd|].
  pose proof (gi_sub _ _ _ Hg z HzR) as Hzf. pose proof (file_is_ok b Hb) as (Hbs & Hbl & Hble). pose proof (file_is_ok z Hzf) as (_ & Hzl & _). rewrite <- Ez in Hzl.
  assert (Hkb : ikey_cmp key (smallest b) < 0) by (rewrite (ikey_cmp_antisym (smallest b) key) by done; lia).
  assert (Hkl : ikey_cmp key (largest b) < 0) by (by apply (ikey_cmp_lt_le _ (smallest b))).
  assert (Hafter : forall f, f ∈ R -> ikey_cmp (largest f) (smallest b) < 0).
  { intros f Hf. pose proof (file_is_ok f (gi_sub _ _ _ Hg f Hf)) as (_ & Hfl & _). by apply (ikey_cmp_le_lt _ key); [..|apply Hall|]. }
  split; [|split; [|done]].
  - split; [by destruct R|intros f [Hf| ->%list_elem_of_singleton]%elem_of_app; [by apply Hg|done]|done|].
    intros _ i j k f g h Hijk Hi Hj Hkk HfR HhR.
    assert (Hfg : ikey_cmp (largest f) (smallest g) < 0) by (apply (before_lookup i j); [done|lia|done|done]).
    assert (Hgh : ikey_cmp (largest g) (smallest h) < 0) by (apply (before_lookup j k); [done|lia|done|done]).
    pose proof (file_is_ok f (list_elem_of_lookup_2 _ _ _ Hi)) as (Hfs & Hfl & Hfle). pose proof (file_is_ok g (list_elem_of_lookup_2 _ _ _ Hj)) as (Hgs & Hgl & Hgle).
    pose proof (file_is_ok h (list_elem_of_lookup_2 _ _ _ Hkk)) as (Hhs & Hhl & Hhle).
    apply elem_of_app in HfR as [HfR| ->%list_elem_of_singleton].
    2: { exfalso. pose proof (before_trans b g h ltac:(done) ltac:(done) ltac:(done) Hfg Hgh) as Hbh. apply (not_before_itself b); [done|].
         apply elem_of_app in HhR as [HhR| ->%list_elem_of_singleton]; [|done]. by apply (before_trans b h b); [..|apply Hafter]. }
    apply elem_of_app in HhR as [HhR| ->%list_elem_of_singleton]; [apply elem_of_app; left; by eapply (gi_convex _ _ _ Hg Hz i j k f g h)|].
    apply list_elem_of_lookup in Hzf as (m & Hm). destruct (Nat.lt_trichotomy j m) as [Hjm|[->|Hjm]].
    + apply elem_of_app. left. by eapply (gi_convex _ _ _ Hg Hz i j m f g z ltac:(lia)).
    + apply elem_of_app. left. by assert (g = z) as -> by congruence.
    + exfalso. pose proof (before_lookup m j z g Hz Hjm Hm Hj) as Hzg. rewrite <- Ez in Hzg.
      assert (Hgb : ikey_cmp (smallest g) (smallest b) < 0) by (by apply (ikey_cmp_le_lt _ (largest g))).
      assert (Hbg : boundary key g).
      { split; [rewrite (ikey_cmp_antisym key (smallest g)) by done; lia|].
        pose proof (ikey_cmp_user key (smallest g) Hzl Hgs ltac:(lia)) as H1. pose proof (ikey_cmp_user (smallest g) (smallest b) Hgs Hbs ltac:(lia)) as H2.
        change (key_user (smallest b)) with (first_user b) in H2. rewrite Hu in H2. apply lex_eq. change (first_user g) with (key_user (smallest g)).
        pose proof (lex_antisym (key_user key) (key_user (smallest g))). lia. }
      specialize (Hmin g (list_elem_of_lookup_2 _ _ _ Hj) Hbg). pose proof (ikey_cmp_antisym (smallest g) (smallest b) Hgs Hbs). lia.
  - split; [exists b; split; [apply elem_of_app; right; by left|done]|]. intros f [Hf| ->%list_elem_of_singleton]%elem_of_app; [|rewrite ikey_cmp_refl by done; lia].
    specialize (Hafter f Hf). pose proof (file_is_ok f (gi_sub _ _ _ Hg f Hf)) as (_ & Hfl & _).
    assert (ikey_cmp (largest f) (largest b) < 0); [|lia]. by apply (ikey_cmp_lt_le _ (smallest b)).
Qed.

(** closed under [boundary] *)
Definition complete_inputs (R : list FileMetaData) : Prop :=
  good_inputs level files R /\ exists key, last_key_of R key /\ forall f, f ∈ files -> ~ boundary key f.

Definition later_files (key : bytes) : nat := length (filter (fun f => 0 < ikey_cmp (smallest f) key) files).

Lemma add_boundary_spec fuel R key :
  good_inputs level files R -> last_key_of R key -> (later_files key <= fuel)%nat ->
  exists R', add_boundary fuel files R key = Done R' /\ complete_inputs R' /\ forall f, f ∈ R -> f ∈ R'.
Proof.
  revert R key; induction fuel as [|fuel IH]; intros R key Hg Hk Hfuel.
  all: assert (Hkey : ikey_ok key) by (destruct (lk_in _ _ Hk) as (z & Hz & ->); apply (file_is_ok z (gi_sub _ _ _ Hg z Hz))).
  all: cbn [add_boundary]; unfold FindSmallestBoundaryFile.
  all: destruct (smallest_boundary_spec files key None files_ok Hkey ltac:(done)) as (r & -> & Hsome & Hnone); cbn [mbind outcome_bind].
  all: destruct r as [b|]; [|exists R; split; [done|]; split; [split; [done|]; exists key; split; [done|]; by apply Hnone|done]].
  all: destruct (Hsome b eq_refl) as ([?|[Hb Hbd]] & Hmin & _); [done|].
  - exfalso. assert (b ∈ filter (fun f => 0 < ikey_cmp (smallest f) key) files) as Hin by (apply list_elem_of_filter; split; [apply Hbd|done]).
    unfold later_files in Hfuel. destruct (filter _ files); [by apply elem_of_nil in Hin|simpl in Hfuel; lia].
  - destruct (boundary_step R key b Hg Hk Hb Hbd Hmin) as (Hg' & Hk' & Hlt).
    pose proof (file_is_ok b Hb) as (Hbs & Hbl & Hble).
    destruct (IH (R ++ [b]) (largest b) Hg' Hk') as (R' & E & Hc & Hsub).
    + assert (later_files (largest b) < later_files key)%nat; [|lia].
      apply (filter_shrinks_in _ _ files b); [|done|apply Hbd|lia]. intros x Hx Hpos. pose proof (file_is_ok x Hx) as (Hxs & _).
      rewrite (ikey_cmp_antisym key (smallest x)) by done. assert (ikey_cmp key (smallest x) < 0); [|lia].
      apply (ikey_cmp_trans _ (largest b)); try done. rewrite (ikey_cmp_antisym (smallest x) (largest b)) by done. lia.
    + exists R'. split; [done|]. split; [done|]. intros f Hf. apply Hsub, elem_of_app. by left.
Qed.

Lemma AddBoundaryInputs_spec R :
  good_inputs level files R -> exists R', AddBoundaryInputs files R = Done R' /\ complete_inputs R' /\ forall f, f ∈ R -> f ∈ R'.
Proof.
  intros Hg. pose proof (gi_some _ _ _ Hg) as Hne. unfold AddBoundaryInputs, FindLargestKey. destruct R as [|f R]; [done|].
  assert (HR : Forall file_ok (f :: R)) by (apply list.Forall_forall; intros g Hgg; by apply file_is_ok, (gi_sub _ _ _ Hg)).
  pose proof HR as [Hf HR']%list.Forall_cons. destruct (find_largest_spec R (largest f) HR' ltac:(apply Hf)) as (k & -> & Hin & Hle & Hall). cbn [mbind outcome_bind].
  apply (add_boundary_spec (length files) (f :: R) k Hg).
  - split; [destruct Hin as [->|(g & Hgg & ->)]; [exists f|exists g]; set_solver|]. intros g [->|Hgg]%elem_of_cons; [done|by apply Hall].
  - unfold later_files. by apply length_filter.
Qed.

Lemma complete_newer R g : complete_inputs R -> g ∈ files -> g ∉ R -> newer_than (content (number g)) (files_adds content R).
Proof.
  intros [Hg (key & [(z & Hz & ->) Hall] & Hno)] Hgf Hn x y Hx (f & Hf & Hy)%elem_of_files_adds Hxy.
  pose proof (gi_sub _ _ _ Hg f Hf) as Hff. destruct (file_users g _ (Hh g Hgf)) as (_ & _ & Hgle & Hgk). destruct (file_users f _ (Hh f Hff)) as (_ & _ & Hfle & Hfk).
  destruct (Hgk x Hx) as [G1 G2], (Hfk y Hy) as [F1 F2]. destruct (decide (level = 0)) as [Hl|Hl].
  { exfalso. destruct (gi_zero _ _ _ Hg Hl) as (lo & hi & Hcl & Hin). destruct (proj1 (Hin f) Hf) as [_ Ho]. destruct (Hcl f Hff Ho) as [C1 C2].
    apply Hn, Hin. split; [done|]. rewrite <- Hxy in F1, F2. split; [destruct lo as [l|]|destruct hi as [h|]]; cbn in *; try done.
    - eapply lex_le_trans; [exact C1|]. by eapply lex_le_trans.
    - eapply lex_le_trans; [exact G1|]. by eapply lex_le_trans. }
  pose proof (gi_sub _ _ _ Hg z Hz) as Hzf. pose proof (Hlev Hl) as Hok. apply list_elem_of_lookup in Hgf as (i & Hi), Hff as (j & Hj), Hzf as (m & Hm).
  destruct (Nat.lt_trichotomy i j) as [Hij|[->|Hij]].
  - apply add_cmp_same; [|done]. by apply (level_entries content files i j g f).
  - exfalso. by assert (g = f) as -> by congruence.
  - exfalso. destruct (Nat.lt_trichotomy i m) as [Him|[->|Him]].
    + by apply Hn, (gi_convex _ _ _ Hg Hl j i m f g z).
    + by assert (g = z) as -> by congruence.
    + pose proof (file_is_ok g (list_elem_of_lookup_2 _ _ _ Hi)) as (Hgs & _). pose proof (file_is_ok z (list_elem_of_lookup_2 _ _ _ Hm)) as (_ & Hzl & _).
      apply (Hno g (list_elem_of_lookup_2 _ _ _ Hi)). split.
      * pose proof (before_lookup m i z g Hl Him Hm Hi). rewrite (ikey_cmp_antisym (largest z) (smallest g)) by done. lia.
      * change (key_user (largest z)) with (last_user z). apply lex_eq.
        pose proof (level_first_users content files m i z g Hok Him Hm Hi) as H1.
        assert (H2 : lex (last_user f) (last_user z) <= 0).
        { pose proof (file_is_ok f (list_elem_of_lookup_2 _ _ _ Hj)) as (_ & Hfl & _). by apply ikey_cmp_user; [..|apply Hall]. }
        assert (H3 : lex (first_user g) (last_user z) <= 0).
        { eapply lex_le_trans; [exact G1|]. rewrite Hxy. by eapply lex_le_trans. }
        pose proof (lex_antisym (last_user z) (first_user g)). lia.
Qed.

(** the files that overlap a range *)
Lemma overlapping_good lo hi :
  (level = 0 -> closed lo hi files) -> filter (overlaps lo hi) files <> [] -> good_inputs level files (filter (overlaps lo hi) files).
Proof.
  intros Hcl Hne. split; [done|by intros f [_ Hf]%list_elem_of_filter| |].
  - intros Hz. exists lo, hi. split; [by apply Hcl|]. intros g. rewrite list_elem_of_filter. tauto.
  - intros Hz i j k f g h Hijk Hi Hj Hk [[F1 F2] _]%list_elem_of_filter [[H1 H2] _]%list_elem_of_filter. pose proof (Hlev Hz) as Hok.
    apply list_elem_of_filter. split; [|by eapply list_elem_of_lookup_2].
    pose proof (level_first_users content files i j f g Hok ltac:(lia) Hi Hj) as L1. pose proof (level_first_users content files j k g h Hok ltac:(lia) Hj Hk) as L2.
    destruct (file_users g _ (Hh g (list_elem_of_lookup_2 _ _ _ Hj))) as (_ & _ & Hgle & _). split.
    + destruct lo as [l|]; [|done]. cbn in *. eapply lex_le_trans; [exact F1|]. by eapply lex_le_trans.
    + destruct hi as [u|]; [|done]. cbn in *. eapply lex_le_trans; [exact Hgle|]. by eapply lex_le_trans.
Qed.

(** a part of the files, from the first one on *)
Lemma limit_inputs_prefix fs total limit : exists n, limit_inputs fs total limit = take n fs /\ (fs <> [] -> limit_inputs fs total limit <> []).
Proof.
  revert total; induction fs as [|f fs IH]; intros total; cbn [limit_inputs]; [by exists 0%nat|].
  destruct (limit <=? u64 (total + file_size f)); [by exists 1%nat|]. destruct (IH (u64 (total + file_size f))) as (n & -> & _). by exists (S n).
Qed.

Lemma filter_take_convex (P : FileMetaData -> Prop) `{!forall f, Decision (P f)} n :
  level <> 0 -> convex files (filter P files) -> convex files (take n (filter P files)).
Proof.
  intros Hz Hc i j k f g h Hijk Hi Hj Hk Hf Hh'.
  assert (Hgin : g ∈ filter P files).
  { apply (Hc i j k f g h Hijk Hi Hj Hk); [rewrite <- (take_drop n (filter P files)); apply elem_of_app; by left..]. }
  rewrite <- (take_drop n (filter P files)) in Hgin. apply elem_of_app in Hgin as [Hg|Hg]; [done|]. exfalso.
  pose proof (sublist_StronglySorted _ _ _ (sublist_filter P files) (lo_sorted _ _ (Hlev Hz))) as Hs.
  assert (Hhg : ikey_cmp (largest h) (smallest g) < 0).
  { rewrite <- (take_drop n (filter P files)) in Hs. exact (StronglySorted_app_1_elem_of _ _ _ _ _ Hs Hh' Hg). }
  pose proof (before_lookup j k g h Hz ltac:(lia) Hj Hk) as Hgh.
  pose proof (file_is_ok g (list_elem_of_lookup_2 _ _ _ Hj)) as Hgok. pose proof (file_is_ok h (list_elem_of_lookup_2 _ _ _ Hk)) as Hhok.
  apply (not_before_itself g Hgok). by apply (before_trans g h g).
Qed.
End Boundary.

(** ** [SetupOtherInputs] *)

Section SetUp.
Context {F : Type} (content : Z -> list add) (vs : VersionSet F).
Abbreviation v := (current_ vs).
Context (Hv : version_ok content v) (level : Z) (Hlevel : 0 <= level < 6) (files files1 : list FileMetaData).
Context (Hfiles : files_ v !! Z.to_nat level = Some files) (Hfiles1 : files_ v !! S (Z.to_nat level) = Some files1).

Lemma level_files_spec l fs : 0 <= l < 7 -> files_ v !! Z.to_nat l = Some fs -> level_files v l = Done fs.
Proof. intros Hl Hf. unfold level_files. rewrite (proj2 (Z.ltb_ge _ _)) by lia. by rewrite Hf. Qed.

Lemma files_hold l fs : files_ v !! l = Some fs -> forall f, f ∈ fs -> file_holds f (content (number f)).
Proof. intros Hl f Hf. by apply (level_holds content v Hv l fs). Qed.

Lemma files_sorted l fs : 0 <= l -> files_ v !! Z.to_nat l = Some fs -> l <> 0 -> level_ok content fs.
Proof. intros H0 Hl Hz. apply (vo_sorted _ _ Hv (Z.to_nat l - 1)). by replace (S (Z.to_nat l - 1)) with (Z.to_nat l) by lia. Qed.

(** the files of a level that overlap a range of keys *)
Lemma overlapping_spec l fs small large :
  0 <= l < 7 -> files_ v !! Z.to_nat l = Some fs -> ikey_ok small -> ikey_ok large ->
  exists lo hi, GetOverlappingInputs v l (Some small) (Some large) = Done (filter (overlaps lo hi) fs) /\
    wider_lo lo (Some (key_user small)) /\ wider_hi hi (Some (key_user large)) /\
    (l <> 0 -> lo = Some (key_user small) /\ hi = Some (key_user large)) /\ (l = 0 -> closed lo hi fs).
Proof.
  intros Hl Hfs Hs Hla. destruct (GetOverlappingInputs_spec content v l fs (Some small) (Some large)) as (lo & hi & E & H1 & H2 & H3 & H4); try done.
  - apply list.Forall_forall. by eapply files_hold.
  - intros k [= <-]. by apply ikey_ok_size.
  - intros k [= <-]. by apply ikey_ok_size.
  - cbn [user_bound] in *. rewrite !user_key_of_ok in * by done. exists lo, hi. do 4 (split; [done|]). by intros Hz; apply H4.
Qed.

(** the files of the two levels, and their ranges *)
Record chosen_inputs (inputs0 inputs1 : list FileMetaData) (range all : bytes * bytes) : Prop := {
  ch_inputs0 : complete_inputs level files inputs0;
  ch_range : range_of inputs0 range.1 range.2;
  ch_inputs1 : inputs1 = filter (overlaps (Some (key_user range.1)) (Some (key_user range.2))) files1;
  ch_all : range_of (inputs0 ++ inputs1) all.1 all.2 }.

Lemma inputs_ok0 R : complete_inputs level files R -> Forall file_ok R.
Proof.
  intros [Hg _]. apply list.Forall_forall. intros f Hf. eapply (file_is_ok content files); [by eapply files_hold|]. by apply Hg.
Qed.

Lemma inputs_ok1 (P : FileMetaData -> Prop) `{!forall f, Decision (P f)} : Forall file_ok (filter P files1).
Proof.
  apply list.Forall_forall. intros f [_ Hf]%list_elem_of_filter. eapply (file_is_ok content files1); [by eapply files_hold|done].
Qed.

(** the next level's files for those of the level *)
Lemma choose_next inputs0 :
  complete_inputs level files inputs0 -> exists range inputs1 all,
    GetRange inputs0 = Done range /\ GetOverlappingInputs v (level + 1) (Some range.1) (Some range.2) = Done inputs1 /\
    GetRange2 inputs0 inputs1 = Done all /\ chosen_inputs inputs0 inputs1 range all.
Proof.
  intros Hc. pose proof (inputs_ok0 _ Hc) as H0. pose proof (gi_some _ _ _ (proj1 Hc)) as Hne. destruct (GetRange_spec inputs0 Hne H0) as (s & l & E & Hr).
  destruct (range_keys _ _ _ H0 Hr) as [Hs Hl].
  destruct (overlapping_spec (level + 1) files1 s l ltac:(lia) ltac:(by replace (Z.to_nat (level + 1)) with (S (Z.to_nat level)) by lia) Hs Hl)
    as (lo & hi & E1 & _ & _ & Hb & _). destruct (Hb ltac:(lia)) as [-> ->].
  destruct (GetRange_spec (inputs0 ++ filter (overlaps (Some (key_user s)) (Some (key_user l))) files1)) as (s' & l' & E2 & Hr2).
  { by destruct inputs0. }
  { apply list.Forall_app. split; [done|]. apply inputs_ok1. }
  exists (s, l), (filter (overlaps (Some (key_user s)) (Some (key_user l))) files1), (s', l'). do 3 (split; [done|]). by split.
Qed.

Lemma expand_inputs_spec inputs0 inputs1 range all :
  chosen_inputs inputs0 inputs1 range all ->
  exists i0 i1 r a, expand_inputs vs level inputs0 inputs1 range all = Done (i0, i1, r, a) /\ chosen_inputs i0 i1 r a.
Proof.
  intros Hc. pose proof Hc as [H0 Hr E1 Ha]. unfold expand_inputs.
  assert (Hall : Forall file_ok (inputs0 ++ inputs1)).
  { apply list.Forall_app. split; [by apply inputs_ok0|]. rewrite E1. apply inputs_ok1. }
  destruct (range_keys _ _ _ Hall Ha) as [Has Hal]. destruct (overlapping_spec level files all.1 all.2 ltac:(lia) Hfiles Has Hal) as (lo & hi & -> & Hwl & Hwh & Hb & Hcl).
  cbn [mbind outcome_bind]. rewrite (level_files_spec level files) by (done || lia). cbn [mbind outcome_bind].
  pose proof (files_hold _ _ Hfiles) as Hh. pose proof (files_sorted level files ltac:(lia) Hfiles) as Hs.
  assert (Hne : filter (overlaps lo hi) files <> []).
  { pose proof (gi_some _ _ _ (proj1 H0)) as Hsome. destruct inputs0 as [|f inputs0]; [done|].
    assert (Hf : f ∈ files) by (apply (gi_sub _ _ _ (proj1 H0)); by left).
    destruct (range_users _ _ _ f Hall Ha ltac:(by left)) as [U1 U2]. destruct (file_users f _ (Hh f Hf)) as (_ & _ & Hfle & _).
    assert (f ∈ filter (overlaps lo hi) files) as Hin; [|intros Hnil; rewrite Hnil in Hin; by apply elem_of_nil in Hin].
    apply list_elem_of_filter. split; [|done]. split.
    - destruct lo as [l|]; [|done]. cbn in *. eapply lex_le_trans; [exact Hwl|]. by eapply lex_le_trans.
    - destruct hi as [u|]; [|done]. cbn in *. eapply lex_le_trans; [exact Hfle|]. by eapply lex_le_trans. }
  destruct (AddBoundaryInputs_spec content level files Hh Hs _ (overlapping_good content level files Hh Hs lo hi Hcl Hne)) as (R & -> & HcR & _).
  cbn [mbind outcome_bind]. destruct (_ && _); [|by exists inputs0, inputs1, range, all].
  destruct (choose_next R HcR) as (r & i1 & a & -> & Eo & Ea & Hch). cbn [mbind outcome_bind]. rewrite Eo. cbn [mbind outcome_bind].
  destruct (_ =? _)%nat; [|by exists inputs0, inputs1, range, all]. rewrite Ea. cbn [mbind outcome_bind]. by exists R, i1, r, a.
Qed.

Definition with_pointer (key : bytes) : VersionSet F :=
  vs_with_versions vs (older_ vs) (current_ vs) (current_refs_ vs) (<[Z.to_nat level := key]> (compact_pointer_ vs)).

Lemma SetupOtherInputs_spec c place :
  level_ c = level -> input_version_ c = Some (place, v) -> edit_ c = make_VersionEdit -> level_ptrs_ c = replicate (Z.to_nat kNumLevels) 0%nat ->
  grandparents_ c = [] -> good_inputs level files (inputs0_ c) -> length (compact_pointer_ vs) = Z.to_nat kNumLevels ->
  exists key c', SetupOtherInputs vs c = Done (with_pointer key, c') /\ (ikey_ok key /\ key_fits key) /\
    compaction_ok content v c' /\ level_ c' = level /\ input_version_ c' = Some (place, v) /\ edit_ c' = SetCompactPointer level key make_VersionEdit.
Proof.
  intros El Ev Ee Ep Eg Hg Hptr. unfold SetupOtherInputs. rewrite El. rewrite (level_files_spec level files) by (done || lia). cbn [mbind outcome_bind].
  pose proof (files_hold _ _ Hfiles) as Hh. pose proof (files_sorted level files ltac:(lia) Hfiles) as Hs.
  destruct (AddBoundaryInputs_spec content level files Hh Hs _ Hg) as (R & -> & HcR & _). cbn [mbind outcome_bind].
  destruct (choose_next R HcR) as (r & i1 & a & -> & Eo & Ea & Hch). cbn [mbind outcome_bind]. rewrite Eo. cbn [mbind outcome_bind]. rewrite Ea. cbn [mbind outcome_bind].
  assert (Hx : exists R' i1' r' a', (match i1 with [] => Done (R, i1, r, a) | _ => expand_inputs vs level R i1 r a end) = Done (R', i1', r', a') /\
    chosen_inputs R' i1' r' a').
  { destruct i1 as [|f i1]; [by exists R, [], r, a|]. by apply expand_inputs_spec. }
  destruct Hx as (R' & i1' & r' & a' & -> & [Hc0 Hr Ei1 Ha]). cbn [mbind outcome_bind].
  assert (Hok0 : Forall file_ok R') by (by apply inputs_ok0).
  assert (Hall : Forall file_ok (R' ++ i1')) by (apply list.Forall_app; split; [done|rewrite Ei1; apply inputs_ok1]).
  destruct (range_keys _ _ _ Hok0 Hr) as [Hrs Hrl]. destruct (range_keys _ _ _ Hall Ha) as [Has Hal].
  assert (Hgp : exists gp, (if level + 2 <? kNumLevels then GetOverlappingInputs v (level + 2) (Some a'.1) (Some a'.2) else Done (grandparents_ c)) = Done gp /\
    Forall file_ok gp).
  { destruct (Z.ltb_spec (level + 2) kNumLevels) as [Hlt|_]; [|exists []; by rewrite Eg]. unfold kNumLevels in Hlt.
    destruct (lookup_lt_is_Some_2 (files_ v) (Z.to_nat (level + 2))) as [files2 Hf2]; [rewrite (vo_levels _ _ Hv); unfold kNumLevels; lia|].
    destruct (overlapping_spec (level + 2) files2 a'.1 a'.2 ltac:(lia) Hf2 Has Hal) as (lo & hi & -> & _). eexists. split; [done|].
    apply list.Forall_forall. intros f [_ Hf]%list_elem_of_filter. eapply (file_is_ok content files2); [by eapply files_hold|done]. }
  destruct Hgp as (gp & -> & Hgp). cbn [mbind outcome_bind]. rewrite (Encode_key r'.2) by done. cbn [mbind outcome_bind].
  destruct (lookup_lt_is_Some_2 (compact_pointer_ vs) (Z.to_nat level)) as [p0 Hp0]; [rewrite Hptr; unfold kNumLevels; lia|].
  unfold Builder.at_level. rewrite (proj2 (Z.ltb_ge _ _)) by lia. rewrite Hp0. cbn [mbind outcome_bind].
  assert (Hfit : key_fits r'.2).
  { destruct (rg_large _ _ _ Hr) as (f & Hf & ->). pose proof (gi_sub _ _ _ (proj1 Hc0) f Hf) as Hff. by destruct (file_holds_ends f _ (Hh f Hff)) as (_ & _ & ? & _). }
  eexists r'.2, _. split; [reflexivity|]. split; [done|]. split; [|split; [done|]; split; [done|]; by rewrite Ee].
  split; cbn [c_with_inputs level_ input_version_ edit_ level_ptrs_ inputs0_ inputs1_ grandparents_]; rewrite ?El; try done.
  - by exists place.
  - exists r'.2. by rewrite Ee.
  - apply Hc0.
  - intros fs f Hfs Hf. assert (fs = files) as -> by congruence. by apply Hc0.
  - exists (key_user r'.1), (key_user r'.2). split; [by intros f; apply range_users|]. intros fs Hfs g. assert (fs = files1) as -> by congruence.
    rewrite Ei1, list_elem_of_filter. tauto.
  - intros fs g Hfs Hg' Hn. assert (fs = files) as -> by congruence. by apply (complete_newer content level files Hh Hs).
Qed.
End SetUp.

(** ** [PickCompaction] and [CompactRange] *)

Section Pick.
Context {F : Type} (content : Z -> list add) (vs : VersionSet F).
Abbreviation v := (current_ vs).
Context (Hv : version_ok content v) (Hptr : length (compact_pointer_ vs) = Z.to_nat kNumLevels).

(** a compaction [c] of a version that has one more reference *)
Definition picked (vs' : VersionSet F) (c : Compaction) : Prop :=
  (exists key, (ikey_ok key /\ key_fits key) /\ vs' = with_pointer (Ref vs) (level_ c) key /\ edit_ c = SetCompactPointer (level_ c) key make_VersionEdit) /\
  input_version_ c = Some (length (older_ vs), v) /\ compaction_ok content v c.

Lemma level_lists level : 0 <= level < 6 -> exists files files1,
  files_ v !! Z.to_nat level = Some files /\ files_ v !! S (Z.to_nat level) = Some files1.
Proof.
  intros Hl. destruct (version_level content v (Z.to_nat level) Hv ltac:(lia)) as (f0 & H0 & _).
  destruct (version_level content v (S (Z.to_nat level)) Hv ltac:(lia)) as (f1 & H1 & _). by exists f0, f1.
Qed.

Lemma set_up level files inputs0 mfs :
  0 <= level < 6 -> files_ v !! Z.to_nat level = Some files -> good_inputs level files inputs0 ->
  exists vs' c, SetupOtherInputs (Ref vs) (c_with_inputs (make_Compaction mfs level) (Some (length (older_ (Ref vs)), current_ (Ref vs))) make_VersionEdit inputs0 [] [])
    = Done (vs', c) /\ picked vs' c /\ level_ c = level.
Proof.
  intros Hl Hf Hg. destruct (level_lists level Hl) as (f0 & f1 & H0 & H1). assert (f0 = files) as -> by congruence.
  destruct (SetupOtherInputs_spec content (Ref vs) Hv level Hl files f1 Hf H1
    (c_with_inputs (make_Compaction mfs level) (Some (length (older_ (Ref vs)), current_ (Ref vs))) make_VersionEdit inputs0 [] []) (length (older_ (Ref vs))))
    as (key & c & E & Hk & Hc & El & Ev & Ee); try done.
  eexists _, c. split; [exact E|]. split; [|done]. split; [|done]. exists key. split; [done|]. by rewrite El, Ee.
Qed.

Lemma file_after_spec files pointer :
  Forall file_ok files -> (pointer = [] \/ ikey_ok pointer) -> exists o, file_after files pointer = Done o /\ forall f, o = Some f -> f ∈ files.
Proof.
  intros Hfs Hp. induction Hfs as [|f fs Hf Hfs IH]; cbn [file_after]; [by exists None|]. case_bool_decide as Ep.
  { exists (Some f). split; [done|]. intros g [= <-]. by left. }
  destruct Hp as [?|Hp]; [done|]. pose proof Hf as (_ & Hl & _). rewrite (Encode_key (largest f)) by done. cbn [mbind outcome_bind].
  rewrite internal_compare by done. cbn [mbind outcome_bind]. destruct (0 <? _).
  - exists (Some f). split; [done|]. intros g [= <-]. by left.
  - destruct IH as (o & -> & Ho). exists o. split; [done|]. intros g Hg. right. by apply Ho.
Qed.
(** what [PickCompaction] can be asked for: a level with files, or a file *)
Definition to_pick (size_level : option Z) : Prop :=
  match size_level with
  | Some level => 0 <= level < 6 /\ files_ v !! Z.to_nat level <> Some []
  | None => match file_to_compact_ v with
            | Some f => 0 <= file_to_compact_level_ v < 6 /\ forall files, files_ v !! Z.to_nat (file_to_compact_level_ v) = Some files -> f ∈ files
            | None => True
            end
  end.

Lemma pick_input_spec size_level :
  to_pick size_level -> Forall (fun p => p = [] \/ ikey_ok p) (compact_pointer_ vs) ->
  exists o, pick_input vs size_level = Done o /\
    match o with
    | Some (c, f) => exists level, c = make_Compaction (vs_max_file_size vs) level /\ 0 <= level < 6 /\
        exists files, files_ v !! Z.to_nat level = Some files /\ f ∈ files
    | None => size_level = None /\ file_to_compact_ v = None
    end.
Proof.
  intros Hto Hps. unfold pick_input. destruct size_level as [level|]; cbn [to_pick] in Hto.
  - destruct Hto as [Hl Hne]. unfold kNumLevels. rewrite (proj2 (Z.leb_le 0 level)), (proj2 (Z.ltb_lt (level + 1) 7)) by lia. cbn [c_assert mbind outcome_bind].
    destruct (level_lists level Hl) as (files & _ & Hf & _). rewrite (level_files_spec vs level files ltac:(lia) Hf). cbn [mbind outcome_bind].
    destruct (lookup_lt_is_Some_2 (compact_pointer_ vs) (Z.to_nat level)) as [p Hp]; [rewrite Hptr; unfold kNumLevels; lia|].
    unfold Builder.at_level. rewrite (proj2 (Z.ltb_ge _ _)) by lia. rewrite Hp. cbn [mbind outcome_bind]. rewrite list.Forall_lookup in Hps.
    assert (Hok : Forall file_ok files) by (apply list.Forall_forall; intros f Hf'; eapply (file_is_ok content files); [by eapply files_hold|done]).
    destruct (file_after_spec files p Hok (Hps _ _ Hp)) as (o & -> & Ho). cbn [mbind outcome_bind].
    destruct o as [f|]; [|destruct files as [|f files]; [by rewrite Hf in Hne|]]; cbn [mbind outcome_bind]; eexists; (split; [reflexivity|]); exists level;
      (split; [done|]); (split; [done|]); eexists; (split; [exact Hf|]); [by apply Ho|by left].
  - destruct (file_to_compact_ v) as [f|]; [|by exists None]. eexists. split; [reflexivity|]. destruct Hto as [Hl Hin].
    exists (file_to_compact_level_ v). split; [done|]. split; [done|]. destruct (level_lists _ Hl) as (files & _ & Hf & _). exists files. split; [done|by apply Hin].
Qed.

Lemma PickCompaction_spec size_level :
  to_pick size_level -> Forall (fun p => p = [] \/ ikey_ok p) (compact_pointer_ vs) ->
  exists vs' o, PickCompaction vs size_level = Done (vs', o) /\
    match o with
    | Some c => picked vs' c
    | None => vs' = vs /\ size_level = None /\ file_to_compact_ v = None
    end.
Proof.
  intros Hto Hps. unfold PickCompaction. destruct (pick_input_spec size_level Hto Hps) as (o & -> & Ho). cbn [mbind outcome_bind].
  destruct o as [[c f]|]; [|by exists vs, None]. destruct Ho as (level & -> & Hl & files & Hf & Hin). cbn [make_Compaction level_ edit_].
  pose proof (files_hold content vs Hv _ _ Hf) as Hh. pose proof (file_is_ok content files Hh f Hin) as Hfok.
  assert (Hin0 : exists i0, (if level =? 0 then
      range ← GetRange [f]; files ← GetOverlappingInputs (current_ (Ref vs)) 0 (Some range.1) (Some range.2);
      _ ← c_assert (negb (bool_decide (files = []))); Done files
    else Done [f]) = Done i0 /\ good_inputs level files i0).
  { destruct (Z.eqb_spec level 0) as [->|Hne].
    - destruct (GetRange_spec [f] ltac:(done) ltac:(by constructor)) as (s & l & -> & Hr). cbn [mbind outcome_bind].
      pose proof (range_keys [f] s l ltac:(by constructor) Hr) as [Hs Hla].
      destruct (overlapping_spec content vs Hv 0 files s l ltac:(lia) Hf Hs Hla) as (lo & hi & E & Hwl & Hwh & _ & Hcl).
      change (current_ (Ref vs)) with v. cbn [fst snd]. rewrite E. cbn [mbind outcome_bind].
      destruct (range_users [f] s l f ltac:(by constructor) Hr ltac:(by left)) as [U1 U2]. destruct (file_users f _ (Hh f Hin)) as (_ & _ & Hfle & _).
      assert (f ∈ filter (overlaps lo hi) files) as Hfin.
      { apply list_elem_of_filter. split; [|done]. split.
        - destruct lo as [b|]; [|done]. cbn in *. eapply lex_le_trans; [exact Hwl|]. by eapply lex_le_trans.
        - destruct hi as [b|]; [|done]. cbn in *. eapply lex_le_trans; [exact Hfle|]. by eapply lex_le_trans. }
      assert (Hne : filter (overlaps lo hi) files <> []) by (intros Hnil; rewrite Hnil in Hfin; by apply elem_of_nil in Hfin).
      rewrite bool_decide_eq_false_2 by done. cbn [negb c_assert mbind outcome_bind]. eexists. split; [done|].
      apply (overlapping_good content); [done|lia|done|done].
    - exists [f]. split; [done|]. split; [done|by intros g ->%list_elem_of_singleton|done|].
      intros _ i j k f1 g h Hijk Hi Hj Hk ->%list_elem_of_singleton ->%list_elem_of_singleton. exfalso.
      apply (not_before_itself f Hfok). apply (before_lookup content level files (files_sorted content vs Hv level files ltac:(lia) Hf) i k); [done|lia|done|done]. }
  destruct Hin0 as (i0 & -> & Hg). cbn [mbind outcome_bind].
  destruct (set_up level files i0 (vs_max_file_size vs) Hl Hf Hg) as (vs' & c & -> & Hp & _). cbn [mbind outcome_bind]. by exists vs', (Some c).
Qed.

Lemma CompactRange_spec level begin_ end_ :
  0 <= level < 6 -> (forall k, begin_ = Some k -> 8 <= blen k) -> (forall k, end_ = Some k -> 8 <= blen k) ->
  exists vs' o, CompactRange vs level begin_ end_ = Done (vs', o) /\
    match o with Some c => picked vs' c /\ level_ c = level | None => vs' = vs end.
Proof.
  intros Hl Hb He. destruct (level_lists level Hl) as (files & _ & Hf & _). pose proof (files_hold content vs Hv _ _ Hf) as Hh.
  pose proof (files_sorted content vs Hv level files ltac:(lia) Hf) as Hs. unfold CompactRange.
  destruct (GetOverlappingInputs_spec content v level files begin_ end_) as (lo & hi & -> & _ & _ & _ & Hcl);
    [unfold kNumLevels; lia|done|by apply list.Forall_forall|done|done|]. cbn [mbind outcome_bind].
  destruct (filter (overlaps lo hi) files) as [|f fs] eqn:Ef; [by exists vs, None|]. rewrite <- Ef.
  assert (Hne : filter (overlaps lo hi) files <> []) by (by rewrite Ef). clear f fs Ef. set (all := filter (overlaps lo hi) files) in *.
  pose proof (overlapping_good content level files Hh Hs lo hi ltac:(intros Hz; by apply Hcl) Hne) as Hgood. fold all in Hgood.
  assert (Hg : good_inputs level files (if 0 <? level then limit_inputs all 0 (u64 (MaxFileSizeForLevel (vs_max_file_size vs) level)) else all)).
  { destruct (Z.ltb_spec 0 level) as [Hlt|_]; [|done]. destruct (limit_inputs_prefix all 0 (u64 (MaxFileSizeForLevel (vs_max_file_size vs) level))) as (n & En & Hn).
    split; [by apply Hn| |lia|].
    - intros f. rewrite En. intros Hin. apply (gi_sub _ _ _ Hgood). rewrite <- (take_drop n all). apply elem_of_app. by left.
    - intros Hz. rewrite En. apply (filter_take_convex content level files Hh Hs); [done|]. by apply (gi_convex _ _ _ Hgood). }
  destruct (set_up level files _ (vs_max_file_size vs) Hl Hf Hg) as (vs' & c & Es & Hp & El).
  change (vs_max_file_size (Ref vs)) with (vs_max_file_size vs). change (edit_ (make_Compaction (vs_max_file_size vs) level)) with make_VersionEdit. rewrite Es. cbn [mbind outcome_bind]. by exists vs', (Some c).
Qed.
End Pick.
