(* ===== verification/DBCompactionSpec.v ===== *)
(** * DBCompactionSpec: a compaction writes the entries that survive to tables of
    the next level, and its results become the version *)

From Stdlib.Strings Require Import Byte.
From Stdlib.Sorting Require Import Sorted.
From stdpp Require Import gmap sorting.
From S2P Require Import Prelude Status Coding DbFormat WriteBatch SkipList SkipListSpec MemTable Crc32c Log LogSpec Bloom FilterBlock Block BlockSpec Format TableBuilder Table TableSpec TableTheorems VersionEdit Version VersionSpec VersionLevels Env Filename TableCache Builder VersionSet VersionSetSpec Manifest DBFiles DBSpec DBFlush Compaction CompactionSpec DBCompaction.

(** ** The rule of the code is the rule on entries *)

(** [c'] is [c] further on *)
Definition further (c c' : Compaction) : Prop := exists i s o p, c' = c_with_state c i s o p.

Lemma further_refl c : further c c.
Proof. exists (grandparent_index_ c), (seen_key_ c), (overlapped_bytes_ c), (level_ptrs_ c). by destruct c. Qed.
Lemma further_trans c1 c2 c3 : further c1 c2 -> further c2 c3 -> further c1 c3.
Proof. intros (? & ? & ? & ? & ->) (i & s & o & p & ->). by exists i, s, o, p. Qed.

(** the state after [prev] *)
Definition key_state_at (prev : option add) (ks : KeyState) : Prop :=
  match prev with
  | Some p => ks = {| current_user_key := Some (a_key p); last_sequence_for_key := a_seq p |}
  | None => ks = no_key
  end.

Lemma drop_entry_spec content v c place snapshot prev ks a :
  version_ok content v -> input_version_ c = Some (place, v) -> 0 <= level_ c -> pointers_at v (a_key a) (level_ c) (level_ptrs_ c) ->
  add_ok a -> key_state_at prev ks ->
  exists c' ks', drop_entry snapshot c ks (add_ikey a) =
      Done (bool_decide (dropped snapshot (base_key v (level_ c)) (last_for prev a) a), c', ks') /\
    key_state_at (Some a) ks' /\ further c c' /\ pointers_at v (a_key a) (level_ c) (level_ptrs_ c').
Proof.
  intros Hv Ev Hl Hp Ha Hks. unfold drop_entry. rewrite ParseInternalKey_add by done. cbn [mbind outcome_bind user_key sequence type].
  set (st := match current_user_key ks with Some u => _ | None => _ end).
  assert (Est : st = {| current_user_key := Some (a_key a); last_sequence_for_key := last_for prev a |}).
  { unfold st, last_for. destruct prev as [p|]; cbn [key_state_at] in Hks; subst ks; cbn [current_user_key no_key]; [|done].
    unfold Compare. rewrite slice_compare_lex. destruct (Z.eqb_spec (lex (a_key a) (a_key p)) 0) as [E|E].
    - apply lex_eq in E. by rewrite decide_True, E by done.
    - rewrite decide_False; [done|]. intros Ek. apply E. rewrite Ek. apply lex_refl. }
  rewrite Est. cbn [last_sequence_for_key current_user_key]. clear st Est. destruct (Z.leb_spec (last_for prev a) snapshot) as [Hle|Hgt].
  { cbn [mbind outcome_bind]. rewrite bool_decide_eq_true_2 by (by left). eexists c, _. split; [done|]. split; [done|]. split; [apply further_refl|done]. }
  destruct (IsBaseLevelForKey_spec content v c (a_key a) place Hv Ev Hl Hp) as (ptrs & Eb & Hp').
  destruct ((type_code (a_type a) =? type_code kTypeDeletion) && (a_seq a <=? snapshot)) eqn:Ec.
  - apply andb_true_iff in Ec as [Et%Z.eqb_eq Es%Z.leb_le]. assert (Ety : a_type a = kTypeDeletion) by (by destruct (a_type a)).
    rewrite Eb. cbn [mbind outcome_bind]. eexists _, _. split; [|split; [done|split; [by eexists _, _, _, _|exact Hp']]].
    do 3 f_equal. apply bool_decide_ext. unfold dropped. split; [intros Hb; right; done|intros [?|(_ & _ & ?)]; [lia|done]].
  - cbn [mbind outcome_bind]. rewrite bool_decide_eq_false_2.
    + eexists c, _. split; [done|]. split; [done|]. split; [apply further_refl|done].
    + intros [?|(Et & Es & _)]; [lia|]. rewrite Et in Ec. cbn in Ec. lia.
Qed.

Lemma pass_grandparents_spec files key index seen overlapped :
  Forall file_ok files -> ikey_ok key -> exists r, pass_grandparents files key index seen overlapped = Done r.
Proof.
  intros Hfs Hk. revert index overlapped; induction Hfs as [|f fs (_ & Hl & _) _ IH]; intros index overlapped; cbn [pass_grandparents]; [by eexists|].
  rewrite Encode_key by done. cbn [mbind outcome_bind]. rewrite internal_compare by done. cbn [mbind outcome_bind].
  destruct (0 <? _); [apply IH|by eexists].
Qed.

Lemma ShouldStopBefore_spec mfs c place v key :
  input_version_ c = Some (place, v) -> Forall file_ok (grandparents_ c) -> ikey_ok key ->
  exists b c', ShouldStopBefore mfs c key = Done (b, c') /\ further c c' /\ level_ptrs_ c' = level_ptrs_ c.
Proof.
  intros Ev Hg Hk. unfold ShouldStopBefore. rewrite Ev.
  destruct (pass_grandparents_spec (drop (grandparent_index_ c) (grandparents_ c)) key (grandparent_index_ c) (seen_key_ c) (overlapped_bytes_ c)) as ([i o] & ->);
    [by apply Forall_drop|done|]. cbn [mbind outcome_bind].
  destruct (_ <? o); eexists _, _; (split; [done|]); (split; [by eexists _, _, _, _|done]).
Qed.

(** ** Entries a table can take *)

Section Writable.
Context {F P : Type} `{WritableFileOk F} `{FilterPolicyOk P} `{MachineOk} `{SnappyOk} (options : Options (InternalFilterPolicy P)).

Record writable (es : list add) : Prop := {
  wr_ok : Forall add_ok es;
  wr_sorted : in_key_order es;
  wr_filter : Forall (fun a => filterable options (add_ikey a)) es;
  wr_fits : table_fits options (map add_kv es) }.

Lemma kv_weight_sublist es es' : sublist es es' -> kv_weight es <= kv_weight es'.
Proof. induction 1 as [|[k v] es es' _ IH|[k v] es es' _ IH]; [done| |]; simpl; pose proof (blen_nonneg k); pose proof (blen_nonneg v); lia. Qed.

Lemma table_fits_sublist es es' : options_ok options -> sublist es es' -> table_fits options es' -> table_fits options es.
Proof.
  intros (_ & _ & Hp) Hs. unfold table_fits. pose proof (kv_weight_sublist _ _ Hs). pose proof (sublist_length _ _ Hs).
  unfold filter_room, policies_ok in *. destruct (filter_policy options) as [p|]; [|lia]. pose proof (filter_bytes_nonneg p Hp). nia.
Qed.

Lemma sublist_all {A} (Q : A -> Prop) l l' : sublist l l' -> Forall Q l' -> Forall Q l.
Proof. intros Hs Hf. rewrite list.Forall_forall in Hf. apply list.Forall_forall. intros x Hx. by eapply Hf, elem_of_sublist. Qed.

Lemma writable_sublist es es' : options_ok options -> sublist es es' -> writable es' -> writable es.
Proof.
  intros Hopt Hs [Hok Hso Hfl Hfit]. split.
  - by eapply sublist_all.
  - by eapply sublist_StronglySorted.
  - by eapply sublist_all.
  - eapply table_fits_sublist; [done| |done]. by apply sublist_map.
Qed.

Lemma add_entries_app (r : Rep (F := F)) es1 es2 :
  add_entries options r (es1 ++ es2) = (r1 ← add_entries options r es1; add_entries options r1 es2).
Proof.
  revert r; induction es1 as [|[k v] es1 IH]; intros r; cbn [add_entries app]; [done|]. destruct (TableBuilder.Add options r k v); [|done..].
  cbn [mbind outcome_bind]. apply IH.
Qed.

Context (Hopt : options_ok options) (f : F) (Hf : written f = []) (r0 : Rep (F := F)) (E0 : make_TableBuilder options f = Done r0).

Lemma builder_step cur a b :
  writable (cur ++ [a]) -> add_entries options r0 (map add_kv cur) = Done b ->
  exists b', TableBuilder.Add options b (add_ikey a) (a_value a) = Done b' /\ add_entries options r0 (map add_kv (cur ++ [a])) = Done b'.
Proof.
  intros [Hok Hso Hfl Hfit] Eb.
  destruct (build_table_spec options f (map add_kv (cur ++ [a])) Hopt Hf) as (r0' & r1 & _ & _ & _ & _ & _ & E0' & E1 & _);
    [by apply adds_sorted_entries|by apply list.Forall_fmap|done|]. assert (r0' = r0) as -> by congruence. exists r1. split; [|done].
  rewrite map_app, add_entries_app, Eb in E1. cbn [mbind outcome_bind map add_entries add_kv] in E1.
  by destruct (TableBuilder.Add options b (add_ikey a) (a_value a)).
Qed.

Lemma builder_count cur b : writable cur -> add_entries options r0 (map add_kv cur) = Done b -> NumEntries b = Z.of_nat (length cur).
Proof.
  intros [Hok Hso Hfl Hfit] Eb. pose proof Hopt as (Hcmp & Hint & Hpol). destruct (make_TableBuilder_spec options Hint f Hf Hpol) as (r0' & E0' & Hi0).
  assert (r0' = r0) as -> by congruence. unfold table_fits in Hfit. pose proof (filter_room_nonneg options (length (map add_kv cur)) Hpol).
  pose proof (kv_weight_nonneg (map add_kv cur)).
  destruct (add_entries_spec options (map add_kv cur) r0 [] [] [] [] Hopt Hi0 eq_refl) as (r' & d & c & i & E1 & Hi & Hkv); cbn [app].
  { by apply adds_sorted_entries. }
  { lia. }
  { by apply list.Forall_fmap. }
  assert (r' = b) as -> by congruence. unfold NumEntries. rewrite (ti_count _ _ _ _ _ Hi). f_equal.
  apply (f_equal length) in Hkv. cbn [app] in Hkv. by rewrite !length_map in Hkv.
Qed.
End Writable.

(** ** The run *)

Section Run.
Context {E F R G P CT CB I : Type} `{EnvOk E F R G} `{FilterPolicyOk P} `{CacheOk CT (Table (R := R) (P := InternalFilterPolicy P))}
  `{CacheOk CB Block} `{MachineOk} `{SnappyOk} `{IteratorOk I}.
Abbreviation DB := (DB (E := E) (F := F) (P := P) (CT := CT) (CB := CB)).
Abbreviation TC := (TableCache (P := InternalFilterPolicy P) (CT := CT) (CB := CB)).
Abbreviation State := (CompactionState (F := F) (P := P)).
Implicit Types (db : DB) (s : State).
Context (options : Options (InternalFilterPolicy P)) (Hopt : options_ok options) (content : Z -> list add).

Definition meta_of (o : Output) : FileMetaData :=
  {| allowed_seeks := Z.shiftl 1 30; number := out_number o; file_size := out_file_size o; smallest := out_smallest o; largest := out_largest o |}.

(** an output on disk *)
Record output_ok (env : E) (tc : TC) (o : Output) (chunk : list add) : Prop := {
  oo_some : chunk <> [];
  oo_holds : file_holds (meta_of o) chunk;
  oo_stored : stored_table env tc (out_number o) (out_file_size o) (map add_kv chunk) }.

(** the database with the compaction pointers of the manifest; those of the
    version set were moved when the compaction was chosen *)
Definition at_manifest (ps : list bytes) db : DB :=
  db_with_files db (db_env db) (with_pointers (db_versions db) ps) (db_tables db) (pending_outputs_ db).

Context (ps : list bytes) (db0 : DB).
Abbreviation next0 := (vs_next_file_number (db_versions db0)).

(** since [db0], [n] tables were started *)
Record progress db (n : nat) : Prop := {
  pr_db : db = db_with_files db0 (db_env db) (vs_with_next (db_versions db0) (next0 + Z.of_nat n)) (db_tables db) (pending_outputs_ db);
  pr_files : db_files options content (at_manifest ps db);
  pr_fresh : numbers_below next0 (db_env db) (with_pointers (db_versions db) ps);
  pr_ids : tc_last_id (db_tables db) <= tc_last_id (db_tables db0) + Z.of_nat n }.

(** the outputs so far hold the [chunks] *)
Definition written_outputs db (outs : list Output) (chunks : list (list add)) : Prop :=
  Forall2 (output_ok (db_env db) (db_tables db)) outs chunks /\
  forall i o, outs !! i = Some o -> out_number o = next0 + Z.of_nat i.

(** between two tables *)
Record idle db s (chunks : list (list add)) : Prop := {
  id_progress : progress db (length chunks);
  id_outputs : written_outputs db (outputs s) chunks;
  id_builder : builder s = None }.

(** while a table is built: [db1] is the database before *)
Record building db s (chunks : list (list add)) (cur : list add) : Prop := {
  bd_start : exists db1 env1 f r0 b o outs fname,
    progress db1 (length chunks) /\ written_outputs db1 outs chunks /\ outputs s = outs ++ [o] /\
    out_number o = next0 + Z.of_nat (length chunks) /\ TableFileName (vs_dbname (db_versions db0)) (out_number o) = Done fname /\
    NewWritableFile (db_env db1) fname = (env1, inl f) /\
    db = db_with_files db1 env1 (vs_with_next (db_versions db0) (next0 + Z.of_nat (length chunks) + 1)) (db_tables db1) ({[out_number o]} ∪ pending_outputs_ db1) /\
    builder s = Some b /\ make_TableBuilder options f = Done r0 /\ add_entries options r0 (map add_kv cur) = Done b /\
    (cur <> [] -> file_holds (meta_of o) cur) }.

(** what does not change *)
Definition same_run s s' : Prop := compaction s' = compaction s /\ smallest_snapshot s' = smallest_snapshot s.

Lemma next_range db : db_files options content db -> 0 < vs_next_file_number (db_versions db) < 2 ^ 64.
Proof. intros Hd. destruct (df_set _ _ _ Hd) as (num & base & out & rs & ms & (_ & _ & _ & _ & _ & [Hn _ _ _ _] & _) & _). lia. Qed.

Lemma progress_next db n : progress db n -> 0 < next0 + Z.of_nat n < 2 ^ 64 /\ vs_next_file_number (db_versions db) = next0 + Z.of_nat n.
Proof.
  intros Hp. pose proof (next_range _ (pr_files _ _ Hp)) as Hn. cbn in Hn. pose proof (pr_db _ _ Hp) as Edb.
  assert (Ev : vs_next_file_number (db_versions db) = next0 + Z.of_nat n) by (by rewrite Edb). rewrite Ev in Hn. done.
Qed.

Lemma OpenCompactionOutputFile_spec db s chunks :
  idle db s chunks -> next0 + Z.of_nat (length chunks) < 2 ^ 64 - 1 ->
  exists db' s', OpenCompactionOutputFile options db s = Done (db', s', OK) /\ building db' s' chunks [] /\ same_run s s'.
Proof.
  intros [Hp Ho Hb] Hroom. destruct (progress_next _ _ Hp) as [Hn En]. pose proof (pr_db _ _ Hp) as Edb. unfold OpenCompactionOutputFile.
  rewrite Hb. cbn [c_assert mbind outcome_bind]. unfold NewFileNumber. rewrite En, u64_small by lia. cbn [vs_dbname vs_with_next vs_with_numbers].
  assert (Ed : vs_dbname (db_versions db) = vs_dbname (db_versions db0)) by (by rewrite Edb). rewrite Ed.
  set (n := next0 + Z.of_nat (length chunks)) in *. destruct (TableFileName_is (vs_dbname (db_versions db0)) n ltac:(lia)) as (fname & Ef & _). rewrite Ef.
  cbn [mbind outcome_bind]. destruct (NewWritableFile_ok (db_env db) fname) as (env1 & f & Enw & Hw & _). rewrite Enw.
  pose proof Hopt as (_ & Hint & Hpol). destruct (make_TableBuilder_spec options Hint f Hw Hpol) as (r0 & E0 & _). rewrite E0. cbn [mbind outcome_bind].
  eexists _, _. split; [reflexivity|]. split; [|done]. split.
  exists db, env1, f, r0, r0, {| out_number := n; out_file_size := 0; out_smallest := []; out_largest := [] |}, (outputs s), fname.
  do 6 (split; [done|]). split; [|by do 3 (split; [done|])].
  cbn [out_number]. f_equal. by rewrite Edb.
Qed.

(** the code ends a table as [BuildTable] does *)
Lemma finish_output db s (input : I) b o outs m0 env' tc' m' :
  builder s = Some b -> outputs s = outs ++ [o] -> out_number o = number m0 -> out_number o <> 0 -> it_status input = OK -> 0 < NumEntries b ->
  finish_table (db_env db) options (db_tables db) b m0 = Done (env', tc', m', OK) ->
  exists s', FinishCompactionOutputFile options db s input = Done (db_with_files db env' (db_versions db) tc' (pending_outputs_ db), s', OK) /\
    outputs s' = outs ++ [{| out_number := out_number o; out_file_size := file_size m'; out_smallest := out_smallest o; out_largest := out_largest o |}] /\
    builder s' = None /\ compaction s' = compaction s /\ smallest_snapshot s' = smallest_snapshot s.
Proof.
  intros Hb Hout En Hne Hst Hcnt Hf. unfold FinishCompactionOutputFile. rewrite Hb. unfold current_output. rewrite Hout, last_snoc. cbn [mbind outcome_bind].
  rewrite (proj2 (Z.eqb_neq _ _)) by done. cbn [negb c_assert mbind outcome_bind]. rewrite Hst, bool_decide_eq_true_2 by done.
  unfold finish_table in Hf. destruct (Finish options b) as [[r fin]| | | | |]; try done. cbn [mbind outcome_bind] in *.
  destruct fin; cbn [append_status] in *; [|by rewrite bool_decide_eq_false_2 in Hf by done]. rewrite (bool_decide_eq_true_2 (OK = OK)) in Hf |- * by done.
  destruct (0 <? file_size _); [|done]. cbn [c_assert mbind outcome_bind number file_size with_meta] in Hf.
  destruct (file_Sync (db_env db) (file r)) as [env1 st1].
  destruct (decide (st1 = OK)) as [->|Hn1]; [|by rewrite !(bool_decide_eq_false_2 (st1 = OK)) in Hf by done; injection Hf as _ _ _ ->].
  rewrite !(bool_decide_eq_true_2 (OK = OK)) in Hf |- * by done. destruct (file_Close env1 (file r)) as [env2 st2].
  destruct (decide (st2 = OK)) as [->|Hn2]; [|by rewrite !(bool_decide_eq_false_2 (st2 = OK)) in Hf by done; injection Hf as _ _ _ ->].
  rewrite !(bool_decide_eq_true_2 (OK = OK)) in Hf |- * by done. rewrite (proj2 (Z.ltb_lt 0 (NumEntries b))) by done. cbn [andb]. rewrite En.
  destruct (NewIterator_status env2 (db_tables db) (number m0) (FileSize r)) as [[st3 tc3]| | | | |]; try done. cbn [mbind outcome_bind] in *.
  injection Hf as -> -> <- ->. eexists. split; [reflexivity|]. cbn. rewrite Hout, length_app. cbn. rewrite Nat.add_sub, take_app_length. done.
Qed.

Lemma progress_other db n env vs tc pending :
  progress db n -> db_with_files db env vs tc pending = db_with_files db0 env vs tc pending.
Proof. intros Hp. by rewrite (pr_db _ _ Hp). Qed.

Lemma file_holds_meta o n sz es : file_holds (meta_of o) es ->
  file_holds (meta_of {| out_number := n; out_file_size := sz; out_smallest := out_smallest o; out_largest := out_largest o |}) es.
Proof. intros [? ? ? ?]. by split. Qed.

Lemma built_from env env1 tc env' tc' m m' es fname :
  TableFileName (tc_dbname tc) (number m) = Done fname -> (forall name, name <> fname -> stored_file env1 name = stored_file env name) ->
  built (F := F) (CB := CB) env1 tc env' tc' m m' es -> built env tc env' tc' m m' es.
Proof.
  intros Ef Ho [? ? ? ? ? ? Hoth ?]. split; try done. intros name Hname. rewrite Hoth by done. apply Ho. intros ->. by apply Hname.
Qed.

(** the database after one more table *)
Lemma progress_table db1 n m m' env' tc' es pending :
  progress db1 n -> next0 + Z.of_nat n < 2 ^ 64 - 1 -> number m = next0 + Z.of_nat n ->
  built (db_env db1) (db_tables db1) env' tc' m m' es ->
  progress (db_with_files db1 env' (vs_with_next (db_versions db0) (next0 + Z.of_nat n + 1)) tc' pending) (S n).
Proof.
  intros Hp Hroom En Hb. destruct (progress_next _ _ Hp) as [Hn Ev]. pose proof (pr_files _ _ Hp) as Hd. pose proof (pr_db _ _ Hp) as Edb.
  assert (Evs : db_versions db1 = vs_with_next (db_versions db0) (next0 + Z.of_nat n)) by (by rewrite Edb).
  assert (En1 : vs_next_file_number (db_versions (at_manifest ps db1)) = next0 + Z.of_nat n) by done.
  pose proof (db_files_new_table options content (at_manifest ps db1) env' tc' m m' es pending Hd ltac:(by rewrite En1) ltac:(by rewrite En1) Hb) as [Hd' _].
  rewrite En1 in Hd'. assert (Es : Z.of_nat (S n) = Z.of_nat n + 1) by lia. split.
  - rewrite (progress_other _ _ _ _ _ _ Hp). cbn [db_with_files db_with db_env db_versions db_tables pending_outputs_]. rewrite Es. f_equal. by rewrite Z.add_assoc.
  - unfold at_manifest in Hd' |- *. cbn [db_with_files db_with db_env db_versions db_tables pending_outputs_] in *. rewrite Evs in Hd'. exact Hd'.
  - cbn [db_with_files db_with db_env db_versions]. destruct (pr_fresh _ _ Hp) as (num & base & out & rs & ms & Hset & Hlow). exists num, base, out, rs, ms. split; [|done].
    pose proof (version_set_new_table options content (at_manifest ps db1) env' tc' m m' es num base out rs ms Hd ltac:(by rewrite En1) ltac:(by rewrite En1) Hb Hset) as Hs.
    rewrite En1 in Hs. unfold at_manifest in Hs. cbn [db_with_files db_with db_versions] in Hs. rewrite Evs in Hs. exact Hs.
  - cbn [db_with_files db_with db_tables]. destruct (bu_config _ _ _ _ _ _ _ Hb) as (_ & _ & Hl). pose proof (pr_ids _ _ Hp). lia.
Qed.

Lemma FinishCompactionOutputFile_spec db s chunks cur (input : I) :
  building db s chunks cur -> cur <> [] -> writable options cur -> it_status input = OK ->
  next0 + Z.of_nat (length chunks) < 2 ^ 64 - 1 -> tc_last_id (db_tables db0) + Z.of_nat (length chunks) < 2 ^ 64 - 1 ->
  exists db' s', FinishCompactionOutputFile options db s input = Done (db', s', OK) /\ idle db' s' (chunks ++ [cur]) /\ same_run s s'.
Proof.
  intros [(db1 & env1 & f & r0 & b & o & outs & fname & Hp & Hw & Eo & En & Ef & Enw & Edb & Eb & E0 & Ee & Hh)] Hne Hwr Hst Hroom Hids. specialize (Hh Hne).
  destruct (progress_next _ _ Hp) as [Hn Ev]. pose proof (df_cache _ _ _ (pr_files _ _ Hp)) as [_ Htc Ed Eopt Hbelow]. cbn [fst snd at_manifest db_with_files db_with db_env db_tables db_versions] in *.
  assert (Edn : tc_dbname (db_tables db1) = vs_dbname (db_versions db0)). { rewrite Ed. pose proof (pr_db _ _ Hp) as E1. by rewrite E1. }
  destruct (NewWritableFile_ok (db_env db1) fname) as (env1' & f' & Enw' & Hwf & Hfn & _ & Hoth). rewrite Enw in Enw'. injection Enw' as <- <-.
  assert (Hno : forall tab, ~ cached (tc_cache (db_tables db1)) (table_key (out_number o)) tab).
  { intros tab Hk. destruct (Hbelow _ _ Hk) as (n & Ek & Hlt). cbn [with_pointers vs_with_versions vs_next_file_number] in Hlt. rewrite Ev in Hlt.
    assert (out_number o = n) by (apply table_key_inj; [lia|lia|done]). lia. }
  rewrite <- Edn in Ef. pose proof (pr_ids _ _ Hp) as Hid. pose proof Hwr as [W1 W2 W3 W4].
  destruct (finish_table_spec env1 (db_tables db1) f cur r0 b options (meta_of o) (meta_of o) fname) as (env' & tc' & m' & Efin & Hb); try done.
  { by eapply tc_ok_other; [| |exact Hoth| |]; [|exact Ef|..]; [lia|done|done]. }
  { cbn. lia. }
  { lia. }
  apply (built_from (db_env db1)) with (fname := fname) in Hb; [|done|done].
  destruct (finish_output db s input b o outs (meta_of o) env' tc' m') as (s' & Efs & Eo' & Eb' & Ec' & Es'); try done; [lia| |by rewrite Edb|].
  { rewrite (builder_count options Hopt f Hwf r0 E0 cur b Hwr Ee). destruct cur; [done|simpl; lia]. }
  eexists _, s'. split; [exact Efs|]. split; [|done].
  assert (Elen : length outs = length chunks) by (by eapply Forall2_length, Hw).
  split; [rewrite length_app, Nat.add_1_r| |done].
  - rewrite Edb. exact (progress_table db1 (length chunks) (meta_of o) _ _ _ _ _ Hp Hroom En Hb).
  - rewrite Eo', Edb. cbn [db_with_files db_with db_env db_tables]. split.
    + apply Forall2_app; [|constructor; [|constructor]].
      * destruct Hw as [Hw Hnum]. apply Forall2_same_length_lookup. split; [done|]. intros i oi ci Hi Hci.
        destruct (Forall2_lookup_lr _ _ _ _ _ _ Hw Hi Hci) as [? ? Hsi]. split; [done|done|]. cbn [db_env db_tables].
        apply (built_keeps_table _ _ _ _ _ _ _ _ _ _ Hb); [cbn; lia|cbn; rewrite En, (Hnum i oi Hi); apply lookup_lt_Some in Hi; lia|done].
      * split; [done|by apply file_holds_meta|]. cbn [out_number out_file_size db_env db_tables].
        pose proof (bu_stored _ _ _ _ _ _ _ Hb) as Hs. rewrite (bu_number _ _ _ _ _ _ _ Hb) in Hs. exact Hs.
    + intros i oi Hi. destruct (decide (i < length outs)%nat) as [Hlt|Hge].
      * rewrite lookup_app_l in Hi by done. by apply Hw.
      * rewrite lookup_app_r in Hi by lia. destruct (i - length outs)%nat as [|k] eqn:Ek; [|done]. injection Hi as <-. cbn. rewrite En. lia.
Qed.

(** ** One entry *)

(** the chunks that are complete, and the current one *)
Definition run_at db s (chunks : list (list add)) (cur : list add) : Prop :=
  (cur = [] /\ idle db s chunks) \/ (cur <> [] /\ building db s chunks cur).

Lemma same_run_refl s : same_run s s.
Proof. done. Qed.
Lemma same_run_trans s1 s2 s3 : same_run s1 s2 -> same_run s2 s3 -> same_run s1 s3.
Proof. intros [H1' E1] [H2' E2]. split; congruence. Qed.

Lemma holds_more o o' cur a :
  Forall add_ok (cur ++ [a]) -> in_key_order (cur ++ [a]) -> (cur <> [] -> file_holds (meta_of o) cur) ->
  out_smallest o' = (if decide (cur = []) then add_ikey a else out_smallest o) -> out_largest o' = add_ikey a ->
  file_holds (meta_of o') (cur ++ [a]).
Proof.
  intros Hok Hs Hh Es El. split; [done|done| |exists a; split; [by rewrite last_snoc|done]]. destruct (decide (cur = [])) as [->|Hne].
  - by exists a.
  - destruct (fh_smallest _ _ (Hh Hne)) as (x & Hx & Ex). exists x. cbn [meta_of smallest] in *. rewrite Es. split; [|done]. by destruct cur.
Qed.

Context (N : nat) (Hnext : next0 + Z.of_nat N < 2 ^ 64 - 1) (Hids : tc_last_id (db_tables db0) + Z.of_nat N < 2 ^ 64 - 1).

Lemma add_output_building db s chunks cur a (input : I) :
  building db s chunks cur -> writable options (cur ++ [a]) -> it_status input = OK -> it_value input = Done (a_value a) -> (length chunks <= N)%nat ->
  exists db' s', add_output options db s input (add_ikey a) = Done (db', s', OK) /\ same_run s s' /\
    (idle db' s' (chunks ++ [cur ++ [a]]) \/ building db' s' chunks (cur ++ [a])).
Proof.
  intros [(db1 & env1 & f & r0 & b & o & outs & fname & Hp & Hw & Eo & En & Ef & Enw & Edb & Eb & E0 & Ee & Hh)] Hwr Hst Hval HN.
  destruct (NewWritableFile_ok (db_env db1) fname) as (env1' & f' & Enw' & Hwf & _). rewrite Enw in Enw'. injection Enw' as <- <-.
  unfold add_output. rewrite Eb. cbn [mbind outcome_bind]. rewrite bool_decide_eq_true_2 by done. cbn [negb]. rewrite Eb.
  unfold current_output. rewrite Eo, last_snoc. cbn [mbind outcome_bind]. rewrite Hval. cbn [mbind outcome_bind].
  destruct (builder_step options Hopt f Hwf r0 E0 cur a b Hwr Ee) as (b' & -> & Ee'). cbn [mbind outcome_bind].
  assert (Hcur : writable options cur) by (eapply writable_sublist; [done| |exact Hwr]; by apply sublist_inserts_r).
  rewrite (builder_count options Hopt f Hwf r0 E0 cur b Hcur Ee).
  set (o' := {| out_number := out_number o; out_file_size := out_file_size o; out_smallest := _; out_largest := _ |}).
  set (s2 := cs_with _ _ _ _).
  assert (Eo2 : outputs s2 = outs ++ [o']).
  { unfold s2, set_current_output. cbn [outputs cs_with]. rewrite Eo, length_app. cbn [length]. by rewrite Nat.add_sub, take_app_length. }
  assert (Hb2 : building db s2 chunks (cur ++ [a])).
  { split. exists db1, env1, f, r0, b', o', outs, fname. do 10 (split; [done|]). intros _. apply (holds_more o); [apply Hwr|apply Hwr|done| |done].
    unfold o'. cbn [out_smallest]. case_decide as Hd; [by subst cur|]. rewrite (proj2 (Z.eqb_neq _ _)); [done|]. destruct cur; [done|simpl; lia]. }
  assert (Hsame : same_run s s2) by done.
  destruct (max_output_file_size_ (compaction s2) <=? FileSize b').
  - destruct (FinishCompactionOutputFile_spec db s2 chunks (cur ++ [a]) input Hb2 ltac:(by destruct cur) Hwr Hst ltac:(lia) ltac:(lia)) as (db' & s' & -> & Hid & Hs').
    exists db', s'. split; [done|]. split; [exact (same_run_trans _ _ _ Hsame Hs')|by left].
  - exists db, s2. split; [done|]. split; [done|by right].
Qed.

Lemma add_output_spec db s chunks cur a (input : I) :
  run_at db s chunks cur -> writable options (cur ++ [a]) -> it_status input = OK -> it_value input = Done (a_value a) -> (length chunks < N)%nat ->
  exists db' s', add_output options db s input (add_ikey a) = Done (db', s', OK) /\ same_run s s' /\
    (idle db' s' (chunks ++ [cur ++ [a]]) \/ building db' s' chunks (cur ++ [a])).
Proof.
  intros [[-> Hid]|[_ Hb]] Hwr Hst Hval HN; [|by apply add_output_building; [..|lia]].
  destruct (OpenCompactionOutputFile_spec db s chunks Hid ltac:(lia)) as (db1 & s1 & Eop & Hb & Hs1).
  destruct (add_output_building db1 s1 chunks [] a input Hb Hwr Hst Hval ltac:(lia)) as (db' & s' & Ea & Hs' & Hr). exists db', s'.
  split; [|split; [exact (same_run_trans _ _ _ Hs1 Hs')|done]]. rewrite <- Ea. unfold add_output. rewrite (id_builder _ _ _ Hid), Eop. cbn [mbind outcome_bind].
  destruct (bd_start _ _ _ _ Hb) as (_ & _ & _ & _ & b & _ & _ & _ & _ & _ & _ & _ & _ & _ & _ & Eb & _). rewrite Eb. cbn [mbind outcome_bind]. by rewrite Eb.
Qed.

(** ** The loop *)

Lemma run_at_rest db s chunks cur :
  run_at db s chunks cur -> db_imm db = db_imm db0 /\ shutting_down_ db = shutting_down_ db0.
Proof.
  intros [[_ [Hp _ _]]|[_ [(db1 & env1 & f & r0 & b & o & outs & fname & Hp & _ & _ & _ & _ & _ & -> & _)]]].
  - by rewrite (pr_db _ _ Hp).
  - rewrite (progress_other _ _ _ _ _ _ Hp). done.
Qed.

Lemma run_at_chunks db s chunks cur : run_at db s chunks cur -> (length chunks <= length (concat chunks))%nat.
Proof.
  intros Hr. assert (Hc : Forall (fun c : list add => c <> []) chunks).
  { assert (Hw : exists db1 outs, written_outputs db1 outs chunks).
    { destruct Hr as [[_ [_ Hw _]]|[_ [(db1 & _ & _ & _ & _ & _ & outs & _ & _ & Hw & _)]]]; by eexists _, _. }
    destruct Hw as (db1 & outs & Hw & _). clear -Hw. induction Hw as [|o c outs chunks [Hc _ _] _ IH]; by constructor. }
  clear Hr. induction Hc as [|c chunks Hc _ IH]; [done|]. simpl. rewrite length_app. destruct c; [done|simpl; lia].
Qed.

Lemma run_at_compaction db s c chunks cur : run_at db s chunks cur -> run_at db (cs_with_compaction s c) chunks cur.
Proof. intros [[-> [? ? ?]]|[Hne [?]]]; [left; split; [done|]; by split|right; split; [done|]; by split]. Qed.

Lemma stop_step (stop : bool) db s chunks cur (input : I) :
  run_at db s chunks cur -> writable options cur -> it_status input = OK -> (length chunks <= N)%nat ->
  exists db' s' chunks' cur', (match builder s with
     | Some _ => if stop then FinishCompactionOutputFile options db s input else Done (db, s, OK)
     | None => Done (db, s, OK) end) = Done (db', s', OK) /\
    run_at db' s' chunks' cur' /\ concat chunks' ++ cur' = concat chunks ++ cur /\ same_run s s'.
Proof.
  intros Hr Hwr Hst HN. pose proof Hr as [[-> Hid]|[Hne Hb]].
  - rewrite (id_builder _ _ _ Hid). by exists db, s, chunks, [].
  - destruct (bd_start _ _ _ _ Hb) as (_ & _ & _ & _ & b & _ & _ & _ & _ & _ & _ & _ & _ & _ & _ & Eb & _). rewrite Eb.
    destruct stop; [|by exists db, s, chunks, cur].
    destruct (FinishCompactionOutputFile_spec db s chunks cur input Hb Hne Hwr Hst ltac:(lia) ltac:(lia)) as (db' & s' & -> & Hid & Hs').
    exists db', s', (chunks ++ [cur]), []. split; [done|]. split; [by left|]. split; [|done]. by rewrite concat_app, app_nil_r; simpl; rewrite app_nil_r.
Qed.

Context (es : list add) (v : Version) (c0 : Compaction) (place : nat) (snapshot : Z).
Context (Hv : version_ok content v) (Ev : input_version_ c0 = Some (place, v)) (Hlv : 0 <= level_ c0) (Hgp : Forall file_ok (grandparents_ c0)).
Context (Hes : writable options es) (HN : (length es <= N)%nat) (Himm : db_imm db0 = None) (Hsd : shutting_down_ db0 = false).
Abbreviation rule := (survivors snapshot (base_key v (level_ c0))).

(** the loop after [n] entries *)
Record loop_at (n : nat) db s (input : I) (ks : KeyState) (chunks : list (list add)) (cur : list add) : Prop := {
  lp_run : run_at db s chunks cur;
  lp_survivors : rule None (take n es) = concat chunks ++ cur;
  lp_iter : iter_at input (map add_kv es) n;
  lp_key : key_state_at (list.last (take n es)) ks;
  lp_compaction : further c0 (compaction s);
  lp_snapshot : smallest_snapshot s = snapshot;
  lp_pointers u : (forall p, list.last (take n es) = Some p -> lex (a_key p) u <= 0) -> pointers_at v u (level_ c0) (level_ptrs_ (compaction s)) }.

Lemma loop_step fuel mem_fuel n db s input ks chunks cur :
  (n < length es)%nat -> loop_at n db s input ks chunks cur ->
  exists db' s' input' ks' chunks' cur', loop_at (S n) db' s' input' ks' chunks' cur' /\
    compaction_loop (S fuel) mem_fuel options db s input ks = compaction_loop fuel mem_fuel options db' s' input' ks'.
Proof.
  intros Hn [Hr Hsv Hi Hk [i0 [s0 [o0 [p0 Ec]]]] Hsn Hp]. destruct (lookup_lt_is_Some_2 es n Hn) as [a Ha].
  assert (Hkv : map add_kv es !! n = Some (add_ikey a, a_value a)) by (by rewrite list_lookup_fmap, Ha).
  destruct (iter_entry input _ n _ _ Hi Hkv) as [Ekey Eval]. pose proof (iter_status input _ n Hi) as Est. destruct (run_at_rest _ _ _ _ Hr) as [Eimm Esd].
  assert (Haok : add_ok a). { pose proof (wr_ok _ _ Hes) as Hok. rewrite list.Forall_lookup in Hok. by eapply Hok. }
  cbn [compaction_loop]. rewrite (iter_valid input _ n Hi), bool_decide_eq_true_2 by (by rewrite length_map). rewrite Esd, Hsd. cbn [andb negb].
  rewrite Eimm, Himm. cbn [mbind outcome_bind]. rewrite Ekey. cbn [mbind outcome_bind].
  destruct (ShouldStopBefore_spec (vs_max_file_size (db_versions db)) (compaction s) place v (add_ikey a)) as (stop & c1 & -> & Hf1 & Ep1);
    [by rewrite Ec|by rewrite Ec|by apply add_ikey_ok|]. cbn [mbind outcome_bind].
  set (s1 := cs_with_compaction s c1). assert (Hr1 : run_at db s1 chunks cur) by (by apply run_at_compaction).
  assert (Hsub : sublist (concat chunks ++ cur) (take n es)) by (rewrite <- Hsv; apply survivors_sublist).
  assert (Hlen : (length chunks <= n)%nat).
  { pose proof (run_at_chunks _ _ _ _ Hr). apply sublist_length in Hsub. rewrite length_app, length_take in Hsub. lia. }
  assert (Hcur : writable options cur).
  { eapply writable_sublist; [done| |exact Hes]. etrans; [|apply (sublist_take es n)]. etrans; [|exact Hsub]. by apply sublist_inserts_l. }
  destruct (stop_step stop db s1 chunks cur input Hr1 Hcur Est ltac:(lia)) as (db2 & s2 & chunks2 & cur2 & -> & Hr2 & Ecc & [Es2 Es2']).
  cbn [mbind outcome_bind]. rewrite bool_decide_eq_true_2 by done. cbn [negb].
  assert (Esnap : smallest_snapshot s2 = snapshot) by (rewrite Es2'; exact Hsn). assert (Ec2 : compaction s2 = c1) by (by rewrite Es2).
  pose proof (further_trans _ _ _ (ex_intro _ i0 (ex_intro _ s0 (ex_intro _ o0 (ex_intro _ p0 Ec)))) Hf1) as Hfc1. pose proof Hfc1 as (i1 & t1 & o1 & p1 & Ec1).
  assert (Hbefore : forall p, list.last (take n es) = Some p -> lex (a_key p) (a_key a) <= 0).
  { intros p Hlast. apply add_cmp_lex. rewrite last_lookup in Hlast. pose proof (lookup_lt_Some _ _ _ Hlast) as Hlt. rewrite length_take in Hlast, Hlt.
    rewrite lookup_take_lt in Hlast by lia. apply (sorted_lookup _ es (Nat.pred (n `min` length es)) n p a (wr_sorted _ _ Hes)); [lia|done|done]. }
  rewrite Esnap, Ec2.
  destruct (drop_entry_spec content v c1 place snapshot (list.last (take n es)) ks a Hv) as (c3 & ks' & -> & Hk' & Hf3 & Hp3); [by rewrite Ec1|by rewrite Ec1| |done|done|].
  { rewrite Ep1. replace (level_ c1) with (level_ c0) by (by rewrite Ec1). by apply Hp. }
  cbn [mbind outcome_bind]. replace (level_ c1) with (level_ c0) in * by (by rewrite Ec1). set (s3 := cs_with_compaction s2 c3).
  assert (Hr3 : run_at db2 s3 chunks2 cur2) by (by apply run_at_compaction).
  assert (Etake : take (S n) es = take n es ++ [a]) by (by apply take_S_r).
  assert (Esv : rule None (take (S n) es) = concat chunks2 ++ cur2 ++ (if decide (dropped snapshot (base_key v (level_ c0)) (last_for (list.last (take n es)) a) a) then [] else [a])).
  { rewrite Etake, survivors_snoc, Hsv, <- Ecc. destruct (list.last (take n es)); by rewrite <- app_assoc. }
  destruct (iter_next input _ n Hi ltac:(by rewrite length_map)) as (input' & Enx & Hi').
  assert (Hfin : forall db' s' chunks' cur', run_at db' s' chunks' cur' -> rule None (take (S n) es) = concat chunks' ++ cur' -> same_run s3 s' -> loop_at (S n) db' s' input' ks' chunks' cur').
  { intros db' s' chunks' cur' Hr' Esv' [Ecs Ess]. split; [exact Hr'|exact Esv'|exact Hi'|by rewrite Etake, last_snoc| | |].
    - rewrite Ecs. by eapply further_trans.
    - by rewrite Ess.
    - intros u Hu. rewrite Ecs. eapply pointers_later; [|exact Hp3]. apply Hu. by rewrite Etake, last_snoc. }
  case_bool_decide as Hdrop.
  - rewrite decide_True, app_nil_r in Esv by done. cbn [mbind outcome_bind]. rewrite (bool_decide_eq_true_2 (OK = OK)) by done. cbn [negb]. rewrite Enx. cbn [mbind outcome_bind].
    exists db2, s3, input', ks', chunks2, cur2. split; [by apply Hfin|done].
  - rewrite decide_False in Esv by done.
    destruct (add_output_spec db2 s3 chunks2 cur2 a input Hr3) as (db4 & s4 & -> & Hs4 & Hor); [|done|done| |].
    { eapply writable_sublist; [done| |exact Hes]. etrans; [|apply (sublist_take es (S n))]. etrans; [|apply (survivors_sublist snapshot (base_key v (level_ c0)) None)].
      rewrite Esv. by apply sublist_inserts_l. }
    { pose proof (run_at_chunks _ _ _ _ Hr2). apply sublist_length in Hsub. rewrite <- Ecc, length_app, length_take in Hsub. lia. }
    cbn [mbind outcome_bind]. rewrite (bool_decide_eq_true_2 (OK = OK)) by done. cbn [negb]. rewrite Enx. cbn [mbind outcome_bind]. destruct Hor as [Hid|Hb].
    + exists db4, s4, input', ks', (chunks2 ++ [cur2 ++ [a]]), []. split; [|done]. apply Hfin; [by left| |done].
      rewrite Esv, concat_app. simpl. by rewrite !app_nil_r.
    + exists db4, s4, input', ks', chunks2, (cur2 ++ [a]). split; [|done]. apply Hfin; [|done|done]. right. split; [by destruct cur2|done].
Qed.

Lemma compaction_loop_spec fuel mem_fuel n db s input ks chunks cur :
  (n <= length es)%nat -> (length es - n <= fuel)%nat -> loop_at n db s input ks chunks cur ->
  exists db' s' input' ks' chunks' cur', compaction_loop fuel mem_fuel options db s input ks = Done (db', s', input', OK) /\
    loop_at (length es) db' s' input' ks' chunks' cur'.
Proof.
  revert n db s input ks chunks cur; induction fuel as [|fuel IH]; intros n db s input ks chunks cur Hn Hf Hl.
  - assert (n = length es) as -> by lia. exists db, s, input, ks, chunks, cur. split; [|done]. cbn [compaction_loop].
    rewrite (iter_valid input _ _ (lp_iter _ _ _ _ _ _ _ Hl)), length_map. by rewrite bool_decide_eq_false_2 by lia.
  - destruct (decide (n = length es)) as [->|Hne].
    + exists db, s, input, ks, chunks, cur. split; [|done]. cbn [compaction_loop].
      rewrite (iter_valid input _ _ (lp_iter _ _ _ _ _ _ _ Hl)), length_map. by rewrite bool_decide_eq_false_2 by lia.
    + destruct (loop_step fuel mem_fuel n db s input ks chunks cur ltac:(lia) Hl) as (db1 & s1 & i1 & ks1 & ch1 & cur1 & Hl1 & ->).
      apply (IH (S n) db1 s1 i1 ks1 ch1 cur1); [lia|lia|done].
Qed.

(** the part of [DoCompactionWork] before its results are installed *)
Lemma compaction_outputs fuel mem_fuel db s input n0 :
  run_at db s [] [] -> smallest_snapshot s = snapshot -> compaction s = c0 -> level_ptrs_ c0 = replicate (Z.to_nat kNumLevels) 0%nat ->
  iter_at input (map add_kv es) n0 -> (length es <= fuel)%nat ->
  exists input1 db1 s1 input2 db2 s2 chunks, it_SeekToFirst input = Done input1 /\
    compaction_loop fuel mem_fuel options db s input1 no_key = Done (db1, s1, input2, OK) /\ shutting_down_ db1 = false /\ it_status input2 = OK /\
    (match builder s1 with
     | Some _ => if bool_decide (OK = OK) then FinishCompactionOutputFile options db1 s1 input2 else Done (db1, s1, OK)
     | None => Done (db1, s1, OK) end) = Done (db2, s2, OK) /\
    idle db2 s2 chunks /\ rule None es = concat chunks /\ further c0 (compaction s2).
Proof.
  intros Hr Hsn Ec Eptr Hi Hf. destruct (iter_first input _ _ Hi) as (input1 & E1 & Hi1).
  assert (Hl : loop_at 0 db s input1 no_key [] []).
  { split; try done. - rewrite Ec. apply further_refl. - intros u _. rewrite Ec, Eptr. apply pointers_start, (vo_levels _ _ Hv). }
  destruct (compaction_loop_spec fuel mem_fuel 0 db s input1 no_key [] [] ltac:(lia) ltac:(lia) Hl) as (db1 & s1 & input2 & ks1 & chunks1 & cur1 & El & [Hr1 Hsv1 Hi2 _ Hc1 _ _]).
  rewrite take_ge in Hsv1 by lia. pose proof (iter_status input2 _ _ Hi2) as Est. destruct (run_at_rest _ _ _ _ Hr1) as [_ Esd].
  exists input1, db1, s1, input2.
  assert (Hlen : (length chunks1 <= length es)%nat).
  { pose proof (run_at_chunks _ _ _ _ Hr1). pose proof (sublist_length _ _ (survivors_sublist snapshot (base_key v (level_ c0)) None es)) as Hs.
    rewrite Hsv1, length_app in Hs. lia. }
  assert (Hcur : writable options cur1).
  { eapply writable_sublist; [done| |exact Hes]. etrans; [|apply (survivors_sublist snapshot (base_key v (level_ c0)) None)]. rewrite Hsv1. by apply sublist_inserts_l. }
  destruct (stop_step true db1 s1 chunks1 cur1 input2 Hr1 Hcur Est ltac:(lia)) as (db2 & s2 & chunks2 & cur2 & Estop & Hr2 & Ecc & [Es2 _]).
  rewrite bool_decide_eq_true_2 by done.
  destruct Hr1 as [[-> Hid]|[Hne Hb]].
  - rewrite (id_builder _ _ _ Hid). exists db1, s1, chunks1. rewrite Hsd in Esd. rewrite app_nil_r in Hsv1. do 5 (split; [done|]). split; [exact Hid|]. by split.
  - destruct (bd_start _ _ _ _ Hb) as (_ & _ & _ & _ & b & _ & _ & _ & _ & _ & _ & _ & _ & _ & _ & Eb & _). rewrite Eb.
    destruct (FinishCompactionOutputFile_spec db1 s1 chunks1 cur1 input2 Hb Hne Hcur Est ltac:(lia) ltac:(lia)) as (db3 & s3 & Ef & Hid & [Es3 _]).
    exists db3, s3, (chunks1 ++ [cur1]). rewrite Ef. rewrite Hsd in Esd. do 5 (split; [done|]). split; [exact Hid|]. split; [|by rewrite Es3].
    rewrite Hsv1, concat_app. simpl. by rewrite app_nil_r.
Qed.
End Run.

(** ** The edit *)

Abbreviation in_pair_order := (StronglySorted (fun a b => pair_ltb a b = true)).

Lemma pair_ltb_total a b : pair_ltb a b = false -> pair_ltb b a = false -> a = b.
Proof. unfold pair_ltb. destruct a as [a1 a2], b as [b1 b2]. cbn [fst snd]. intros H1 H2. f_equal; lia. Qed.

Lemma elem_of_set_insert x y s : y ∈ set_insert x s <-> y = x \/ y ∈ s.
Proof.
  induction s as [|z s IH]; cbn [set_insert]; [by rewrite list_elem_of_singleton, elem_of_nil; tauto|].
  destruct (pair_ltb x z) eqn:E1; [by rewrite elem_of_cons|]. destruct (pair_ltb z x) eqn:E2; [rewrite !elem_of_cons, IH; tauto|].
  rewrite (pair_ltb_total x z E1 E2), elem_of_cons. tauto.
Qed.

Lemma set_insert_sorted x s : in_pair_order s -> in_pair_order (set_insert x s).
Proof.
  intros Hs. induction Hs as [|z s Hs IH Hz]; cbn [set_insert]; [by repeat constructor|]. destruct (pair_ltb x z) eqn:E1.
  - constructor; [by constructor|]. constructor; [done|]. eapply list.Forall_impl; [exact Hz|]. intros w Hw. unfold pair_ltb in *. lia.
  - destruct (pair_ltb z x) eqn:E2; [|by constructor]. constructor; [done|]. rewrite list.Forall_forall in Hz |- *.
    intros w [->|Hw]%elem_of_set_insert; [done|by apply Hz].
Qed.

(** [e'] deletes some files more than [e] *)
Record deletes (e e' : VersionEdit) (dels : list (Z * Z)) : Prop := {
  dl_same : e' = with_lists e (compact_pointers_ e) (deleted_files_ e') (new_files_ e);
  dl_in p : p ∈ deleted_files_ e' <-> p ∈ deleted_files_ e \/ p ∈ dels;
  dl_sorted : in_pair_order (deleted_files_ e) -> in_pair_order (deleted_files_ e') }.

Lemma deletes_refl e : deletes e e [].
Proof. split; [by destruct e|intros p; rewrite elem_of_nil; tauto|done]. Qed.
Lemma deletes_trans e1 e2 e3 d1 d2 : deletes e1 e2 d1 -> deletes e2 e3 d2 -> deletes e1 e3 (d1 ++ d2).
Proof.
  intros [S1 I1 O1] [S2 I2 O2]. split; [|intros p; rewrite I2, I1, elem_of_app; tauto|by intros H; apply O2, O1].
  rewrite S2, S1. done.
Qed.
Lemma RemoveFile_deletes level n e : deletes e (RemoveFile level n e) [(level, n)].
Proof.
  split; [done| |]; cbn [RemoveFile with_lists deleted_files_].
  - intros p. rewrite elem_of_set_insert, list_elem_of_singleton. tauto.
  - apply set_insert_sorted.
Qed.

Lemma remove_files_deletes level fs e :
  deletes e (foldl (fun e f => RemoveFile level (number f) e) e fs) (map (fun f => (level, number f)) fs).
Proof.
  revert e; induction fs as [|f fs IH]; intros e; cbn [foldl map]; [apply deletes_refl|].
  exact (deletes_trans _ _ _ [(level, number f)] _ (RemoveFile_deletes level (number f) e) (IH _)).
Qed.

Lemma AddInputDeletions_deletes c e :
  deletes e (AddInputDeletions c e) (map (fun f => (level_ c, number f)) (inputs0_ c) ++ map (fun f => (level_ c + 1, number f)) (inputs1_ c)).
Proof. unfold AddInputDeletions. eapply deletes_trans; apply remove_files_deletes. Qed.

Lemma add_outputs_lists level outs e :
  add_outputs level outs e = with_lists e (compact_pointers_ e) (deleted_files_ e) (new_files_ e ++ map (fun o => (level, meta_of o)) outs).
Proof.
  revert e; induction outs as [|o outs IH]; intros e; cbn [add_outputs foldl map]; [rewrite app_nil_r; by destruct e|].
  fold (add_outputs level outs (AddFile level (out_number o) (out_file_size o) (out_smallest o) (out_largest o) e)). rewrite IH.
  unfold AddFile, add_new_file. cbn [with_lists compact_pointers_ deleted_files_ new_files_]. by rewrite <- app_assoc.
Qed.

(** the edit of a compaction *)
Definition compaction_edit (c : Compaction) (outs : list Output) : VersionEdit :=
  add_outputs (level_ c + 1) outs (AddInputDeletions c (edit_ c)).

Section Edit.
Context (c : Compaction) (key : bytes) (Ee : edit_ c = SetCompactPointer (level_ c) key make_VersionEdit) (Hlv : 0 <= level_ c < 6) (outs : list Output).
Abbreviation e := (compaction_edit c outs).
Abbreviation L := (Z.to_nat (level_ c)).

Lemma compaction_edit_lists : exists dels, e = with_lists make_VersionEdit [(level_ c, key)] dels (map (fun o => (level_ c + 1, meta_of o)) outs) /\
  in_pair_order dels /\
  forall p, p ∈ dels <-> (exists f, f ∈ inputs0_ c /\ p = (level_ c, number f)) \/ (exists f, f ∈ inputs1_ c /\ p = (level_ c + 1, number f)).
Proof.
  unfold compaction_edit. rewrite add_outputs_lists. destruct (AddInputDeletions_deletes c (edit_ c)) as [Es Hin Hso].
  exists (deleted_files_ (AddInputDeletions c (edit_ c))). split; [|split].
  - rewrite Es. cbn [with_lists compact_pointers_ deleted_files_ new_files_]. by rewrite Ee.
  - apply Hso. rewrite Ee. constructor.
  - intros p. rewrite Hin, Ee, elem_of_app, !list_elem_of_fmap. cbn. rewrite elem_of_nil. naive_solver.
Qed.

Lemma compaction_edit_news i : news i (new_files_ e) = if decide (i = S L) then map (fun o => seeded (meta_of o)) outs else [].
Proof.
  destruct compaction_edit_lists as (dels & -> & _). cbn [with_lists new_files_]. induction outs as [|o os IH]; [by case_decide|].
  cbn [map]. rewrite news_cons, IH. case_decide as H1; case_decide as H2; try done; lia.
Qed.

Lemma compaction_edit_deleted i n : n ∈ at_ i (deleted_files_ e) <->
  (i = L /\ n ∈ map number (inputs0_ c)) \/ (i = S L /\ n ∈ map number (inputs1_ c)).
Proof.
  destruct compaction_edit_lists as (dels & -> & _ & Hin). cbn [with_lists deleted_files_]. unfold at_. rewrite list_elem_of_fmap. split.
  - intros ([l m] & -> & [El Hp]%list_elem_of_filter). cbn [fst snd] in *. apply Hin in Hp as [(f & Hf & [= -> ->])|(f & Hf & [= -> ->])].
    + left. split; [lia|by apply list_elem_of_fmap_2].
    + right. split; [lia|by apply list_elem_of_fmap_2].
  - intros [[-> (f & -> & Hf)%list_elem_of_fmap]|[-> (f & -> & Hf)%list_elem_of_fmap]].
    + exists (level_ c, number f). split; [done|]. apply list_elem_of_filter. cbn [fst]. split; [lia|]. apply Hin. left. by exists f.
    + exists (level_ c + 1, number f). split; [done|]. apply list_elem_of_filter. cbn [fst]. split; [lia|]. apply Hin. right. by exists f.
Qed.

(** the files of a level after it: what stays, and the outputs *)
Lemma compaction_edit_after i files f :
  NoDup (map number files) -> (i = L -> forall g, g ∈ inputs0_ c -> g ∈ files) -> (i = S L -> forall g, g ∈ inputs1_ c -> g ∈ files) ->
  (forall g o, g ∈ files -> o ∈ outs -> number g <> out_number o) ->
  after_edit (at_ i (deleted_files_ e)) (news i (new_files_ e)) files f <->
    (f ∈ files /\ stays L (inputs0_ c) (inputs1_ c) i f) \/ (i = S L /\ f ∈ map (fun o => seeded (meta_of o)) outs).
Proof.
  intros Hnd H0 H1 Hnew. rewrite compaction_edit_news. unfold after_edit, stays. rewrite compaction_edit_deleted.
  assert (Hinj : forall g h, g ∈ files -> h ∈ files -> number g = number h -> g = h).
  { intros g h Hg Hh En. apply list_elem_of_lookup in Hg as (a & Ha), Hh as (b & Hb).
    assert (a = b) as ->; [|congruence]. eapply (NoDup_lookup (map number files)); [done|by rewrite list_lookup_fmap, Ha|by rewrite list_lookup_fmap, Hb; cbn; rewrite En]. }
  set (new := if decide (i = S L) then map (fun o => seeded (meta_of o)) outs else []).
  assert (Hno : f ∈ files -> number f ∉ map number new).
  { intros Hf Hn. unfold new in Hn. case_decide; [|by apply elem_of_nil in Hn]. rewrite map_map in Hn. apply list_elem_of_fmap in Hn as (o & En & Ho).
    by apply (Hnew f o Hf Ho). }
  assert (Hin : forall ins, (forall g, g ∈ ins -> g ∈ files) -> f ∈ files -> number f ∈ map number ins -> f ∈ ins).
  { intros ins Hins Hf (g & En & Hg)%list_elem_of_fmap. rewrite (Hinj f g Hf (Hins g Hg) En). done. }
  split.
  - intros [[Hf|Hf] Hd].
    + right. unfold new in Hf. case_decide; [done|by apply elem_of_nil in Hf].
    + left. split; [done|]. split; intros Hi Hins; apply (Hno Hf), Hd; [left|right]; (split; [done|]); by apply list_elem_of_fmap_2.
  - intros [[Hf [S0 S1]]|[Hi Hf]].
    + split; [by right|]. intros [[Hi Hn]|[Hi Hn]]; exfalso; [apply (S0 Hi)|apply (S1 Hi)]; apply Hin; auto.
    + assert (Hfn : f ∈ new) by (unfold new; by rewrite decide_True). split; [by left|]. intros _. by apply list_elem_of_fmap_2.
Qed.
End Edit.

(** files with entries in order are in order *)
Lemma holds_before f g es es' :
  file_holds f es -> file_holds g es' -> (forall x y, x ∈ es -> y ∈ es' -> add_cmp x y < 0) -> file_before f g.
Proof.
  intros Hf Hg Hlt. destruct (file_bounds f es Hf) as (_ & b & _ & Eb & _ & Hb & _ & Hbok & _).
  destruct (file_bounds g es' Hg) as (a & _ & Ea & _ & Ha & _ & Haok & _). unfold file_before. rewrite Eb, Ea, add_ikey_cmp2 by done. by apply Hlt.
Qed.

Lemma ordered_chunks (chunks : list (list add)) i j ci cj x y :
  in_key_order (concat chunks) -> (i < j)%nat -> chunks !! i = Some ci -> chunks !! j = Some cj -> x ∈ ci -> y ∈ cj -> add_cmp x y < 0.
Proof.
  intros Hs Hij Hi Hj Hx Hy. rewrite <- (take_drop (S i) chunks) in Hs. rewrite concat_app in Hs.
  eapply (StronglySorted_app_1_elem_of _ _ _ x y Hs).
  - rewrite (take_S_r _ _ _ Hi), concat_app. apply elem_of_app. right. simpl. by rewrite app_nil_r.
  - assert (Hin : cj ∈ drop (S i) chunks) by (apply (list_elem_of_lookup_2 _ (j - S i)); rewrite lookup_drop; by replace (S i + (j - S i))%nat with j by lia).
    clear -Hin Hy. induction (drop (S i) chunks) as [|c cs IH]; [by apply elem_of_nil in Hin|]. simpl. apply elem_of_app.
    apply elem_of_cons in Hin as [->|Hin]; [by left|right; by apply IH].
Qed.

Section Repoint.
Context {E F R G : Type} `{Env E F R G, !Machine}.

(** an edit that sets a compaction pointer sets it whatever it was *)
Lemma LogAndApply_repoint (env : E) (vs : VersionSet F) (e : VersionEdit) ps level key :
  compact_pointer_ vs = <[Z.to_nat level := key]> ps -> compact_pointers_ e = [(level, key)] -> 0 <= level < 7 -> length ps = Z.to_nat kNumLevels ->
  LogAndApply env vs e = LogAndApply env (with_pointers vs ps) e.
Proof.
  intros Ecp Ee Hl Hlen. unfold LogAndApply. change (complete_edit (with_pointers vs ps) e) with (complete_edit vs e).
  destruct (complete_edit vs e) as [e1| | | | |] eqn:Ec; try done. cbn [mbind outcome_bind].
  assert (E1 : compact_pointers_ e1 = [(level, key)]).
  { unfold complete_edit in Ec. apply outcome_bind_done in Ec as (e0 & E0 & Ec). injection Ec as <-.
    assert (Ee0 : compact_pointers_ e0 = compact_pointers_ e).
    { destruct (has_log_number_ e); [|by injection E0 as <-]. apply outcome_bind_done in E0 as (? & _ & E0). apply outcome_bind_done in E0 as (? & _ & E0). by injection E0 as <-. }
    rewrite <- Ee, <- Ee0. by destruct (has_prev_log_number_ e0). }
  assert (Ea : Builder.Apply e1 (compact_pointer_ vs) Builder.make_Builder = Builder.Apply e1 (compact_pointer_ (with_pointers vs ps)) Builder.make_Builder).
  { unfold Builder.Apply. rewrite E1. cbn [Builder.apply_pointers compact_pointer_ with_pointers vs_with_versions]. rewrite Ecp.
    destruct (at_level_spec (<[Z.to_nat level:=key]> ps) level) as (x & _ & ->); [done|by rewrite length_insert|].
    destruct (at_level_spec ps level) as (y & _ & ->); [done|done|]. cbn [mbind outcome_bind].
    destruct (InternalKey_Encode key); [|done..]. cbn [mbind outcome_bind]. by rewrite list_insert_insert_eq. }
  rewrite Ea. done.
Qed.
End Repoint.

Section Install.
Context {E F R G P CT CB I : Type} `{EnvOk E F R G} `{FilterPolicyOk P} `{CacheOk CT (Table (R := R) (P := InternalFilterPolicy P))}
  `{CacheOk CB Block} `{MachineOk} `{SnappyOk} `{IteratorOk I}.
Abbreviation DB := (DB (E := E) (F := F) (P := P) (CT := CT) (CB := CB)).
Abbreviation State := (CompactionState (F := F) (P := P)).
Implicit Types (db : DB) (s : State).
Context (options : Options (InternalFilterPolicy P)) (content : Z -> list add) (ps : list bytes) (db0 db : DB) (s : State) (chunks : list (list add)).
Abbreviation next0 := (vs_next_file_number (db_versions db0)).
Abbreviation v := (current_ (db_versions db0)).
Context (c : Compaction) (key : bytes) (es : list add) (snapshot : Z).
Context (Hidle : idle options content ps db0 db s chunks) (Hc : compaction_ok content v c).
Context (Ee : edit_ c = SetCompactPointer (level_ c) key make_VersionEdit) (Hkey : key_fits key).
Context (Hes : in_key_order es) (Hin : forall a, a ∈ es <-> a ∈ input_adds content c).
Context (Hkept : concat chunks = survivors snapshot (base_key v (level_ c)) None es).
Abbreviation L := (Z.to_nat (level_ c)).
Abbreviation outs := (outputs s).
Abbreviation e := (compaction_edit c outs).
Abbreviation vsm := (with_pointers (db_versions db) ps).

(** the files of the outputs in the new version *)
Definition out_files : list FileMetaData := map (fun o => seeded (meta_of o)) outs.
(** what the files hold then *)
Definition new_content (n : Z) : list add :=
  if decide (next0 <= n) then match chunks !! Z.to_nat (n - next0) with Some chunk => chunk | None => [] end else content n.

Lemma install_versions : db_versions db = vs_with_next (db_versions db0) (next0 + Z.of_nat (length chunks)).
Proof. by rewrite (pr_db _ _ _ _ _ _ (id_progress _ _ _ _ _ _ _ Hidle)). Qed.

Lemma version_now : version_ok content v.
Proof. pose proof (df_version _ _ _ (pr_files _ _ _ _ _ _ (id_progress _ _ _ _ _ _ _ Hidle))) as Hv. cbn in Hv. by rewrite install_versions in Hv. Qed.

Lemma old_number l files f : files_ v !! l = Some files -> f ∈ files -> 0 < number f < next0.
Proof.
  intros Hl Hf. pose proof (pr_files _ _ _ _ _ _ (id_progress _ _ _ _ _ _ _ Hidle)) as Hd.
  destruct (file_number_below options content _ l files f Hd) as [H1' _]; [cbn; by rewrite install_versions|done|].
  destruct (pr_fresh _ _ _ _ _ _ (id_progress _ _ _ _ _ _ _ Hidle)) as (num & base & out & rs & m & Hset & Hlow).
  pose proof Hset as (_ & _ & Hv & Hm & _).
  assert (Hfl : files_ (current_ vsm) !! l = Some files) by (cbn; by rewrite install_versions).
  destruct (lookup_lt_is_Some_2 (ms_levels m) l) as [st Hst]; [rewrite (proj1 (mb_levels _ _ Hm)), <- (vf_length _ Hv); by apply lookup_lt_Some in Hfl|].
  split; [done|]. apply (Hlow l st); [done|]. eapply level_matches_numbers; [by eapply (mb_files _ _ Hm l)|]. by apply list_elem_of_fmap_2.
Qed.

Lemma out_lookup i o : outs !! i = Some o -> exists chunk, chunks !! i = Some chunk /\ output_ok (db_env db) (db_tables db) o chunk /\ out_number o = next0 + Z.of_nat i.
Proof.
  intros Ho. destruct (id_outputs _ _ _ _ _ _ _ Hidle) as [Hw Hn]. destruct (Forall2_lookup_l _ _ _ _ _ Hw Ho) as (chunk & Hch & Hok). exists chunk.
  split; [done|]. split; [done|by apply Hn].
Qed.

Lemma new_content_out i o : outs !! i = Some o -> exists chunk, chunks !! i = Some chunk /\ new_content (out_number o) = chunk.
Proof.
  intros Ho. destruct (out_lookup i o Ho) as (chunk & Hch & _ & En). exists chunk. split; [done|]. unfold new_content. rewrite En, decide_True by lia.
  replace (Z.to_nat (next0 + Z.of_nat i - next0)) with i by lia. by rewrite Hch.
Qed.

Lemma new_content_old n : n < next0 -> new_content n = content n.
Proof. intros Hn. unfold new_content. by rewrite decide_False by lia. Qed.

Lemma out_file f : f ∈ out_files -> exists i o chunk, outs !! i = Some o /\ f = seeded (meta_of o) /\ chunks !! i = Some chunk /\
  output_ok (db_env db) (db_tables db) o chunk /\ out_number o = next0 + Z.of_nat i /\ new_content (number f) = chunk.
Proof.
  intros (o & -> & Ho)%list_elem_of_fmap. apply list_elem_of_lookup in Ho as (i & Hi). destruct (out_lookup i o Hi) as (chunk & Hch & Hok & En).
  exists i, o, chunk. do 5 (split; [done|]). change (number (seeded (meta_of o))) with (out_number o). destruct (new_content_out i o Hi) as (chunk' & Hch' & ->). congruence.
Qed.

Lemma chunk_entries i chunk a : chunks !! i = Some chunk -> a ∈ chunk -> a ∈ es.
Proof.
  intros Hi Ha. apply (elem_of_survivors snapshot (base_key v (level_ c)) None). rewrite <- Hkept.
  clear -Hi Ha. revert i Hi. induction chunks as [|x l IH]; intros i Hi; [done|]. simpl. apply elem_of_app.
  destruct i as [|i]; [injection Hi as ->; by left|right; by eapply IH].
Qed.

Lemma chunks_sorted : in_key_order (concat chunks).
Proof. rewrite Hkept. eapply sublist_StronglySorted; [apply survivors_sublist|done]. Qed.

Lemma inputs_subset i files : files_ v !! i = Some files ->
  (i = L -> forall g, g ∈ inputs0_ c -> g ∈ files) /\ (i = S L -> forall g, g ∈ inputs1_ c -> g ∈ files).
Proof.
  intros Hf. split; intros -> g Hg.
  - by apply (ck_inputs0 _ _ _ Hc files).
  - destruct (ck_inputs1 _ _ _ Hc) as (lo & hi & _ & Hin1). by apply (Hin1 files Hf).
Qed.

Lemma level_after i files f :
  files_ v !! i = Some files -> NoDup (map number files) ->
  after_edit (at_ i (deleted_files_ e)) (news i (new_files_ e)) files f <->
    (f ∈ files /\ stays L (inputs0_ c) (inputs1_ c) i f) \/ (i = S L /\ f ∈ out_files).
Proof.
  intros Hf Hnd. destruct (inputs_subset i files Hf). apply (compaction_edit_after c key Ee (ck_level _ _ _ Hc)); try done.
  intros g o Hg Ho. pose proof (old_number i files g Hf Hg). apply list_elem_of_lookup in Ho as (k & Hk). destruct (out_lookup k o Hk) as (_ & _ & _ & En). lia.
Qed.

Lemma edit_encodes : vs_next_file_number (db_versions db) < 2 ^ 64 - 1 -> edit_ok e.
Proof.
  intros Hbig. pose proof (ck_level _ _ _ Hc) as Hlv. destruct (compaction_edit_lists c key Ee (ck_level _ _ _ Hc) outs) as (dels & Eq & Hso & Hdel). rewrite Eq. split; try done.
  - apply Forall_fields. cbn [with_lists make_VersionEdit has_comparator_ has_log_number_ has_prev_log_number_ has_next_file_number_ has_last_sequence_
      compact_pointers_ deleted_files_ new_files_]. do 5 (split; [done|]). split; [|split].
    + apply list.Forall_singleton. split; [unfold in_range, kNumLevels; cbn; lia|done].
    + apply list.Forall_forall. intros p Hp. unfold in_range, kNumLevels.
      assert (Hf : exists i files f, files_ v !! i = Some files /\ f ∈ files /\ p.2 = number f /\ (p.1 = level_ c \/ p.1 = level_ c + 1)).
      { destruct (chosen_levels content v c version_now Hc) as (f0 & f1 & Hf0 & Hf1 & _). apply Hdel in Hp as [(f & Hf & ->)|(f & Hf & ->)].
        - exists L, f0, f. split; [done|]. split; [by apply (proj1 (inputs_subset L f0 Hf0))|]. cbn. tauto.
        - exists (S L), f1, f. split; [done|]. split; [by apply (proj2 (inputs_subset (S L) f1 Hf1))|]. cbn. tauto. }
      destruct Hf as (i & files & f & Hi & Hf & -> & Hor). pose proof (old_number i files f Hi Hf) as Hn. rewrite install_versions in Hbig. cbn in Hbig. lia.
    + apply list.Forall_fmap, list.Forall_forall. intros o Ho. apply list_elem_of_lookup in Ho as (k & Hk). destruct (out_lookup k o Hk) as (chunk & Hch & [_ Hh Hst] & _).
      destruct (stored_table_size _ _ _ _ _ Hst) as [Hn Hsz]. destruct (file_holds_ends _ _ Hh) as (_ & Hks & Hkl & _). unfold meta_fits. cbn. unfold kNumLevels.
      split; [lia|]. split; [lia|]. split; [lia|]. by split.
  - cbn. apply list.Forall_fmap, list.Forall_forall. by intros o _.
Qed.

(** two outputs, or an output and a file that stays *)
Lemma outputs_apart f g : f ∈ out_files -> g ∈ out_files -> number f <> number g -> file_before f g \/ file_before g f.
Proof.
  intros (i & o & ci & Hi & -> & Hci & [_ Hho _] & _)%out_file (j & q & cj & Hj & -> & Hcj & [_ Hhq _] & _)%out_file Hne.
  assert (Hlt : forall a b oa ob ca cb, (a < b)%nat -> chunks !! a = Some ca -> chunks !! b = Some cb -> file_holds (meta_of oa) ca -> file_holds (meta_of ob) cb ->
    file_before (seeded (meta_of oa)) (seeded (meta_of ob))).
  { intros a b oa ob ca cb Hab Ha Hb Hoa Hob. apply (holds_before _ _ ca cb); [by apply file_holds_seeded|by apply file_holds_seeded|].
    intros x y Hx Hy. by apply (ordered_chunks chunks a b ca cb x y chunks_sorted). }
  destruct (Nat.lt_trichotomy i j) as [Hij|[->|Hij]]; [left; by eapply Hlt|congruence|right; by eapply Hlt].
Qed.

Lemma output_apart files f g :
  files_ v !! S L = Some files -> f ∈ out_files -> g ∈ files -> g ∉ inputs1_ c -> file_before f g \/ file_before g f.
Proof.
  intros Hf (i & o & ci & Hi & -> & Hci & [_ Hho _] & _)%out_file Hg Hn. pose proof (level_holds content v version_now _ _ _ Hf Hg) as Hgh.
  apply file_holds_seeded in Hho.
  destruct (stays_outside content v c version_now Hc files g Hf Hg Hn) as [Ho|Ho]; [right; apply (holds_before _ _ _ _ Hgh Hho)|left; apply (holds_before _ _ _ _ Hho Hgh)];
    intros x y Hx Hy; apply Ho; try done; apply Hin; by eapply chunk_entries.
Qed.

Lemma install_edit_good num base out rs m :
  version_set_ok (db_env db) vsm num base out rs m -> (forall i st k, ms_levels m !! i = Some st -> k ∈ map number (Builder.added_files st) -> k < next0) ->
  vs_next_file_number (db_versions db) < 2 ^ 64 - 1 -> edit_good m vsm e.
Proof.
  intros Hset Hlow Hbig. pose proof Hset as (_ & _ & Hv & Hm & _). pose proof (edit_encodes Hbig) as Henc.
  destruct (compaction_edit_lists c key Ee (ck_level _ _ _ Hc) outs) as (dels & Eq & _). assert (Ecur : current_ vsm = v) by (cbn; by rewrite install_versions). split.
  - done.
  - by rewrite Eq.
  - by rewrite Eq.
  - rewrite Eq. cbn. apply list.Forall_fmap, list.Forall_forall. intros o Ho. apply list_elem_of_lookup in Ho as (k & Hk). cbn.
    destruct (out_lookup k o Hk) as (chunk & Hch & [_ Hh _] & _). by destruct (file_holds_ends _ _ Hh).
  - intros i st Hi. rewrite (compaction_edit_news c key Ee (ck_level _ _ _ Hc)). pose proof (lf_numbers _ (proj2 (mb_levels _ _ Hm) i st Hi)) as Hnd.
    case_decide; [|by rewrite app_nil_r]. apply list.NoDup_app. split; [done|]. rewrite map_map. split.
    + intros k Hk (o & -> & Ho)%list_elem_of_fmap. specialize (Hlow i st _ Hi Hk). apply list_elem_of_lookup in Ho as (j & Hj).
      destruct (out_lookup j o Hj) as (_ & _ & _ & En). change (number (seeded (meta_of o))) with (out_number o) in Hlow. lia.
    + apply NoDup_alt. intros a b k Ha Hb. rewrite list_lookup_fmap in Ha, Hb. destruct (outs !! a) as [oa|] eqn:Ea; [|done]. destruct (outs !! b) as [ob|] eqn:Eb; [|done].
      destruct (out_lookup a oa Ea) as (_ & _ & _ & Na). destruct (out_lookup b ob Eb) as (_ & _ & _ & Nb). injection Ha as Ha. injection Hb as Hb.
      change (number (seeded (meta_of oa))) with (out_number oa) in Ha. change (number (seeded (meta_of ob))) with (out_number ob) in Hb. lia.
  - rewrite Ecur. intros i files Hf f g Hfa Hga Hne.
    assert (Hnd : NoDup (map number files)) by (apply (lf_numbers _ (proj1 (vf_files _ Hv (S i) files ltac:(by rewrite Ecur))))).
    apply (level_after (S i) files _ Hf Hnd) in Hfa. apply (level_after (S i) files _ Hf Hnd) in Hga.
    destruct Hfa as [[Hfi [_ Hf1]]|[HiL Hfo]], Hga as [[Hgi [_ Hg1]]|[HiL' Hgo]].
    + pose proof (vf_before _ Hv i files ltac:(by rewrite Ecur)) as Hb. apply list_elem_of_lookup in Hfi as (a & Ha), Hgi as (b & Hb').
      destruct (Nat.lt_trichotomy a b) as [Hab|[->|Hab]]; [left|congruence|right]; by eapply (sorted_lookup _ files).
    + injection HiL' as ->. destruct (output_apart files g f Hf Hgo Hfi (Hf1 eq_refl)); [by right|by left].
    + injection HiL as ->. by apply (output_apart files f g Hf Hfo Hgi (Hg1 eq_refl)).
    + by apply outputs_apart.
Qed.

Context (Hroom : forall l files, files_ v !! l = Some files -> Z.of_nat (length files) + Z.of_nat (length outs) < 2 ^ 31).

Lemma installed_files vs2 : logged vsm e vs2 -> version_fits vs2 -> version_fits vsm ->
  files_replaced content new_content v (current_ vs2) L (inputs0_ c) (inputs1_ c) out_files.
Proof.
  intros Hl Hv2 Hv1. pose proof (ck_level _ _ _ Hc) as Hlv. assert (Ecur : current_ vsm = v) by (cbn; by rewrite install_versions). split.
  - lia.
  - apply Hv2.
  - intros files Hf. by apply (inputs_subset L files Hf).
  - intros files Hf. by apply (inputs_subset (S L) files Hf).
  - intros l files Hf. assert (Hf1 : files_ (current_ vsm) !! l = Some files) by (by rewrite Ecur). destruct (lg_files _ _ _ Hl l files Hf1) as (files' & Hf' & Hin').
    pose proof (lf_numbers _ (proj1 (vf_files _ Hv1 l files Hf1))) as Hnd. destruct (vf_files _ Hv2 l files' Hf') as [[_ _ Hnd'] _]. exists files'. split; [done|].
    assert (Hiff : forall g, g ∈ files' <-> (g ∈ files /\ stays L (inputs0_ c) (inputs1_ c) l g) \/ (l = S L /\ g ∈ out_files)) by (intros g; rewrite Hin'; by apply level_after).
    split; [done|]. split; [done|]. split; [intros Hl0; destruct l; [lia|by apply (vf_before _ Hv2 l)]|].
    assert (Hsub : files' ⊆+ files ++ out_files).
    { apply NoDup_submseteq; [by apply (NoDup_fmap_1 number)|]. intros g Hg. apply elem_of_app. apply Hiff in Hg. tauto. }
    apply submseteq_length in Hsub. rewrite length_app in Hsub. unfold out_files in Hsub. rewrite length_map in Hsub. specialize (Hroom l files Hf). lia.
  - intros l files g Hf Hg _. apply new_content_old. by apply (old_number l files g Hf Hg).
  - intros g (i & o & chunk & _ & -> & _ & [_ Hh _] & _ & ->)%out_file. by apply file_holds_seeded.
  - intros g a (i & o & chunk & _ & _ & Hch & _ & _ & ->)%out_file Ha. apply Hin. by eapply chunk_entries.
  - intros files g Hf Hg Hn. by apply (ck_newer _ _ _ Hc files g).
Qed.

(** the database with the results *)
Record installed db' : Prop := {
  in_db : exists env vs, db' = db_with_files db env vs (db_tables db) (pending_outputs_ db);
  in_files : db_files options new_content db';
  in_replaced : files_replaced content new_content v (current_ (db_versions db')) L (inputs0_ c) (inputs1_ c) out_files;
  in_last : vs_last_sequence (db_versions db') = vs_last_sequence (db_versions db0);
  in_descriptor : descriptor_log_ (db_versions db') <> None;
  in_next : vs_next_file_number (db_versions db') = vs_next_file_number (db_versions db);
  in_older : older_ (db_versions db') = if current_refs_ (db_versions db0) - 1 =? 0 then older_ (db_versions db0)
                                        else older_ (db_versions db0) ++ [(current_refs_ (db_versions db0) - 1, v)] }.

Lemma InstallCompactionResults_spec :
  further c (compaction s) -> compact_pointer_ (db_versions db) = <[L := key]> ps -> length ps = Z.to_nat kNumLevels ->
  vs_next_file_number (db_versions db) < 2 ^ 64 - 1 ->
  exists db' s', InstallCompactionResults db s = Done (db', s', OK) /\ installed db'.
Proof.
  intros (i1 & t1 & o1 & p1 & Ecs) Ecp Hlen Hbig. unfold InstallCompactionResults. rewrite Ecs.
  change (add_outputs (level_ (c_with_state c i1 t1 o1 p1) + 1) outs (AddInputDeletions (c_with_state c i1 t1 o1 p1) (edit_ (c_with_state c i1 t1 o1 p1)))) with e.
  pose proof (id_progress _ _ _ _ _ _ _ Hidle) as Hp. pose proof (ck_level _ _ _ Hc) as Hlv.
  destruct (pr_fresh _ _ _ _ _ _ Hp) as (num & base & out & rs & ms & Hset & Hlow).
  assert (Ecpe : compact_pointers_ e = [(level_ c, key)]) by (destruct (compaction_edit_lists c key Ee Hlv outs) as (dels & -> & _); done).
  rewrite (LogAndApply_repoint (db_env db) (db_versions db) e ps (level_ c) key Ecp Ecpe ltac:(lia) Hlen).
  pose proof (install_edit_good num base out rs ms Hset Hlow Hbig) as Hgood.
  destruct (LogAndApply_spec _ _ _ _ _ _ _ _ Hset Hgood) as (env2 & vs2 & base2 & out2 & rs2 & m2 & El & Hset2 & Hl & Hnums & Ho). rewrite El. cbn [mbind outcome_bind].
  eexists _, _. split; [reflexivity|]. pose proof (logged_descriptor _ _ _ _ _ _ _ _ Hset2 Hl) as Hdesc.
  assert (Hkeep : tables_kept (db_env db) env2 (vs_dbname vsm)) by (eapply logged_keeps_tables; [apply (proj1 Hset2)|exact Hset2|exact Hl|exact Ho]).
  pose proof Hset as (_ & _ & Hv1 & _). pose proof Hset2 as (_ & _ & Hv2 & _). pose proof (installed_files vs2 Hl Hv2 Hv1) as Hrep.
  destruct (lg_config _ _ _ Hl) as (Ed & _). destruct (lg_numbers _ _ _ Hl) as (Enext & _ & Elast). pose proof (pr_files _ _ _ _ _ _ Hp) as Hd.
  pose proof (df_cache _ _ _ Hd) as Hinv. split; try done; [by eexists _, _| |cbn; rewrite Elast; cbn; by rewrite install_versions|cbn; rewrite (lg_older _ _ _ Hl); cbn; by rewrite install_versions].
  split; cbn [db_env db_versions db_tables db_with_files db_with].
  - exists (vs_manifest_file_number vsm), base2, out2, rs2, m2. split; [done|]. intros i st n Hi Hn. rewrite Enext.
    destruct (Hnums i st Hi n Hn) as [Hn'|(st0 & Hi0 & Hn0)].
    + rewrite (compaction_edit_news c key Ee Hlv) in Hn'. case_decide; [|by apply elem_of_nil in Hn']. rewrite map_map in Hn'.
      apply list_elem_of_fmap in Hn' as (o & -> & Hoo). apply list_elem_of_lookup in Hoo as (k & Hk). destruct (out_lookup k o Hk) as (chunk & Hch & _ & En).
      apply lookup_lt_Some in Hch. cbn. rewrite install_versions. cbn. rewrite En. lia.
    + specialize (Hlow i st0 n Hi0 Hn0). cbn. rewrite install_versions. cbn. lia.
  - exact (version_ok_replaced content new_content _ _ _ _ _ _ version_now Hrep).
  - rewrite Ed, Enext. by eapply tables_inv_kept.
  - intros l files g Hf Hg. apply (stored_table_kept (db_env db)).
    { by rewrite (ti_dbname _ _ _ _ _ Hinv : tc_dbname (db_tables db) = _). }
    destruct (replaced_back content new_content _ _ _ _ _ _ version_now Hrep l files Hf) as (files0 & Hf0 & Hiff & _).
    apply Hiff in Hg. destruct Hg as [[Hg Hs]|[-> Hg]].
    + rewrite (new_content_old (number g)) by (by apply (old_number l files0 g Hf0 Hg)).
      apply (df_stored _ _ _ Hd l files0); [cbn; by rewrite install_versions|done].
    + destruct (out_file g Hg) as (i & o & chunk & _ & -> & _ & [_ _ Hst] & _ & ->). exact Hst.
Qed.
End Install.
