(* ===== verification/DBCompactionTheorems.v ===== *)
(** * DBCompactionTheorems: a compaction of levels keeps what reads see *)

From Stdlib.Strings Require Import Byte.
From Stdlib.Sorting Require Import Sorted.
From stdpp Require Import gmap sorting.
From S2P Require Import Prelude Status Coding DbFormat WriteBatch SkipList SkipListSpec MemTable Crc32c Log LogSpec Bloom FilterBlock Block BlockSpec Format TableBuilder Table TableSpec TableTheorems VersionEdit Version VersionSpec VersionLevels Env Filename TableCache Builder VersionSet VersionSetSpec Manifest DBFiles DBSpec DBFlush DBTheorems Compaction CompactionSpec DBCompaction CompactionPick DBCompactionSpec.

Lemma newest_of_one es u s o1 o2 : distinct_seqs es -> newest_of es u s o1 -> newest_of es u s o2 -> o1 = o2.
Proof.
  intros Hd. destruct o1 as [a|], o2 as [b|]; simpl; try done.
  - intros (Ha & Hk & Hs & Hmax) (Hb & Hk' & Hs' & Hmax'). f_equal. apply Hd; try done; [congruence|].
    pose proof (Hmax b Hb Hk' Hs'). pose proof (Hmax' a Ha Hk Hs). lia.
  - intros (Ha & Hk & Hs & _) Hno. specialize (Hno a Ha Hk). lia.
  - intros Hno (Ha & Hk & Hs & _). specialize (Hno b Ha Hk). lia.
Qed.

Section Work.
Context {E F R G P CT CB I : Type} `{EnvOk E F R G} `{FilterPolicyOk P} `{CacheOk CT (Table (R := R) (P := InternalFilterPolicy P))}
  `{CacheOk CB Block} `{MachineOk} `{SnappyOk} `{IteratorOk I}.
Abbreviation DB := (DB (E := E) (F := F) (P := P) (CT := CT) (CB := CB)).
Implicit Types (db : DB) (options : Options (InternalFilterPolicy P)).
Context (MakeInputIterator : DB -> Compaction -> outcome I).

(** the compaction [c] can run in [db]: its input iterator goes through the
    entries [es] of its files in order, they fit tables, and the counters have
    room *)
Record runnable options (content : Z -> list add) (fuel : nat) db (c : Compaction) (es : list add) : Prop := {
  rn_input : exists input n, MakeInputIterator db c = Done input /\ iter_at input (map add_kv es) n;
  rn_sorted : in_key_order es;
  rn_in a : a ∈ es <-> a ∈ input_adds content c;
  rn_filter : Forall (fun a => filterable options (add_ikey a)) es;
  rn_fits : table_fits options (map add_kv es);
  rn_fuel : (length es <= fuel)%nat;
  rn_next : vs_next_file_number (db_versions db) + Z.of_nat (length es) < 2 ^ 64 - 1;
  rn_ids : tc_last_id (db_tables db) + Z.of_nat (length es) < 2 ^ 64 - 1;
  rn_room l files : files_ (current_ (db_versions db)) !! l = Some files -> Z.of_nat (length files) + Z.of_nat (length es) < 2 ^ 31 }.

(** what a reader at [s] finds of [u] is the same in the entries [es] and [es'] *)
Definition same_reads (smallest_snapshot : Z) (es es' : list add) : Prop :=
  forall u s o, smallest_snapshot <= s -> newest_of es u s o -> exists o', newest_of es' u s o' /\ value_of o' = value_of o.

Lemma input_ok options content fuel db c es :
  version_ok content (current_ (db_versions db)) -> compaction_ok content (current_ (db_versions db)) c -> runnable options content fuel db c es ->
  writable options es.
Proof.
  intros Hv Hc [_ Hs Hin Hf Hfit _ _ _ _]. split; try done. apply list.Forall_forall. intros a Ha. apply Hin in Ha.
  destruct (chosen_levels content _ c Hv Hc) as (f0 & f1 & Hf0 & Hf1 & _ & Hh). unfold input_adds in Ha. rewrite files_adds_app, elem_of_app, !elem_of_files_adds in Ha.
  assert (Hfa : exists f, file_holds f (content (number f)) /\ a ∈ content (number f)).
  { destruct Ha as [(f & Hfi & Ha)|(f & Hfi & Ha)]; exists f; (split; [|done]); apply Hh; [left; by apply (ck_inputs0 _ _ _ Hc f0)|right].
    destruct (ck_inputs1 _ _ _ Hc) as (lo & hi & _ & Hin1). by apply (Hin1 f1). }
  destruct Hfa as (f & Hfh & Hfa). pose proof (fh_ok _ _ Hfh) as Hok. rewrite list.Forall_forall in Hok. by apply Hok.
Qed.

Context (options : Options (InternalFilterPolicy P)) (Hopt : options_ok options) (content : Z -> list add).

(** ** The outputs in place *)

Lemma run_at_start ps db s :
  db_files options content (at_manifest ps db) -> outputs s = [] -> builder s = None -> run_at options content ps db db s [] [].
Proof.
  intros Hd Ho Hb. left. split; [done|]. split; [|by rewrite Ho|done]. split; [|done| |simpl; lia].
  - destruct db as [? ? ? vs]. destruct vs. unfold db_with_files, db_with, vs_with_next, vs_with_numbers. cbn. by rewrite Z.add_0_r.
  - destruct (df_set _ _ _ Hd) as (num & base & out & rs & m & Hset & Hlow). by exists num, base, out, rs, m.
Qed.

Lemma idle_outputs ps db0 db s chunks snapshot base `{Hdec : forall u, Decision (base u)} es :
  idle options content ps db0 db s chunks -> survivors snapshot base None es = concat chunks -> (length (outputs s) <= length es)%nat.
Proof.
  intros Hid Hsv. assert (Hr : run_at options content ps db0 db s chunks []) by (left; done).
  pose proof (run_at_chunks _ _ _ _ 0%nat _ _ _ _ Hr) as Hl.
  rewrite <- Hsv in Hl. pose proof (sublist_length _ _ (survivors_sublist snapshot base None es)).
  destruct (id_outputs _ _ _ _ _ _ _ Hid) as [Hw _]. apply Forall2_length in Hw. lia.
Qed.

(** what the database holds with the results of a compaction *)
Record compacted_level db (c : Compaction) (new : list add) (snapshot : Z) (content' : Z -> list add) db' : Prop := {
  cl_state : db_state options content' db' [] new;
  cl_imm : db_imm db' = None;
  cl_adds a : a ∈ db_adds content' db' [] new -> a ∈ db_adds content db [] new;
  cl_reads : same_reads snapshot (db_adds content db [] new) (db_adds content' db' [] new);
  cl_descriptor : descriptor_log_ (db_versions db') <> None;
  cl_older : older_ (db_versions db') = if current_refs_ (db_versions db) - 1 =? 0 then older_ (db_versions db)
    else older_ (db_versions db) ++ [(current_refs_ (db_versions db) - 1, current_ (db_versions db))] }.

Lemma out_files_adds ps db0 db s chunks a :
  idle options content ps db0 db s chunks ->
  a ∈ files_adds (new_content content db0 chunks) (out_files s) <-> a ∈ concat chunks.
Proof.
  intros Hid. rewrite elem_of_files_adds. split.
  - intros (f & Hf & Ha). destruct (out_file options content ps db0 db s chunks Hid f Hf) as (i & o & chunk & _ & _ & Hch & _ & _ & En).
    rewrite En in Ha. apply list_elem_of_In, List.in_concat. exists chunk.
    split; apply list_elem_of_In; [by eapply list_elem_of_lookup_2|done].
  - intros Ha. apply list_elem_of_In, List.in_concat in Ha as (chunk & Hch & Ha). apply list_elem_of_In in Hch, Ha.
    apply list_elem_of_lookup in Hch as (i & Hi). destruct (id_outputs _ _ _ _ _ _ _ Hid) as [Hw _].
    destruct (Forall2_lookup_r _ _ _ _ _ Hw Hi) as (o & Ho & _). exists (seeded (meta_of o)).
    assert (Hf : seeded (meta_of o) ∈ out_files s) by (apply list_elem_of_fmap; exists o; split; [done|by eapply list_elem_of_lookup_2]).
    split; [done|]. change (number (seeded (meta_of o))) with (out_number o).
    destruct (new_content_out options content ps db0 db s chunks Hid i o Ho) as (chunk' & Hch' & ->). congruence.
Qed.

Lemma installed_state ps db db2 s chunks c new es snapshot db' :
  db_state options content (at_manifest ps db) [] new -> db_imm db = None ->
  compaction_ok content (current_ (db_versions db)) c -> no_split (current_ (db_versions db)) c ->
  distinct_seqs (db_adds content db [] new) -> snapshot < kMaxSequenceNumber ->
  in_key_order es -> (forall a, a ∈ es <-> a ∈ input_adds content c) ->
  idle options content ps db db2 s chunks -> survivors snapshot (base_key (current_ (db_versions db)) (level_ c)) None es = concat chunks ->
  installed options content db db2 s chunks c db' ->
  compacted_level db c new snapshot (new_content content db chunks) db'.
Proof.
  intros [Hd Hmem _ Hlast _ Hmn] Himm Hc Hns Hdist Hsnap Hs Hin Hid Hsv [(env & vs & Edb) Hf Hrep Elast Hdesc _ Holder]. set (v := current_ (db_versions db)) in *.
  pose proof (df_version _ _ _ Hd) as Hv. change (version_ok content v) in Hv. change (newer_than new ([] ++ version_adds content v)) in Hmn.
  assert (Eold : db_mem db' = db_mem db /\ db_imm db' = db_imm db).
  { rewrite Edb. by rewrite (pr_db _ _ _ _ _ _ (id_progress _ _ _ _ _ _ _ Hid)). } destruct Eold as [Em Ei].
  set (rest := rest_adds content v c).
  assert (Hbefore : forall a, a ∈ version_adds content v <-> a ∈ es \/ a ∈ rest).
  { intros a. rewrite (replaced_before _ _ _ _ _ _ _ _ Hv Hrep a), Hin. done. }
  assert (Hafter : forall a, a ∈ version_adds (new_content content db chunks) (current_ (db_versions db')) <->
    a ∈ survivors snapshot (base_key v (level_ c)) None es \/ a ∈ rest).
  { intros a. rewrite (replaced_after _ _ _ _ _ _ _ _ Hv Hrep a), Hsv, <- (out_files_adds _ _ _ _ _ _ Hid). done. }
  assert (Hless : forall a, a ∈ version_adds (new_content content db chunks) (current_ (db_versions db')) -> a ∈ version_adds content v).
  { intros a [Ha%elem_of_survivors|Ha]%Hafter; apply Hbefore; [by left|by right]. }
  assert (Hall : forall a, a ∈ db_adds content db [] new <-> a ∈ es ++ (rest ++ new)).
  { intros a. unfold db_adds. fold v. rewrite !elem_of_app, Hbefore, elem_of_nil. tauto. }
  split; try done.
  - split; [done|by rewrite Em|by rewrite Ei, Himm|by rewrite Elast| |].
    + by intros a b ?%elem_of_nil.
    + intros a b Ha Hb. apply Hmn; [done|]. by apply Hless.
  - by rewrite Ei.
  - intros a. unfold db_adds. rewrite !elem_of_app. intros [?|[?|Ha]]; [by left|right; by left|]. right; right. by apply Hless.
  - intros u t o Hle Ho.
    destruct (survivors_same_reads snapshot (base_key v (level_ c)) es (rest ++ new) u t o) as (o' & Ho' & Ev); try done.
    + eapply distinct_seqs_subset; [|exact Hdist]. intros a. apply Hall.
    + intros d r Hde [Hr|Hr]%elem_of_app Hb Hk.
      * apply Hin in Hde. by apply (base_rest_newer content v c Hv Hc d r).
      * apply (Hmn r d Hr); [|done]. apply Hbefore. by left.
    + eapply newest_of_ext; [|exact Ho]. intros a _. apply Hall.
    + exists o'. split; [|done]. eapply newest_of_ext; [|exact Ho']. intros a _. unfold db_adds. rewrite !elem_of_app, Hafter, elem_of_nil. tauto.
Qed.

(** ** DoCompactionWork *)

Lemma installed_compaction db (s : CompactionState (F := F) (P := P)) db' s' st :
  InstallCompactionResults db s = Done (db', s', st) -> builder s' = builder s /\ input_version_ (compaction s') = input_version_ (compaction s).
Proof.
  unfold InstallCompactionResults. intros Hi. apply outcome_bind_done in Hi as ([[env vs] st0] & _ & [= <- <- <-]). done.
Qed.

Lemma DoCompactionWork_spec fuel mem_fuel oldest ps db new c key es :
  db_state options content (at_manifest ps db) [] new -> db_imm db = None -> shutting_down_ db = false ->
  compaction_ok content (current_ (db_versions db)) c -> edit_ c = SetCompactPointer (level_ c) key make_VersionEdit ->
  compact_pointer_ (db_versions db) = <[Z.to_nat (level_ c) := key]> ps -> runnable options content fuel db c es ->
  no_split (current_ (db_versions db)) c -> distinct_seqs (db_adds content db [] new) ->
  let snapshot := default (vs_last_sequence (db_versions db)) oldest in
  snapshot < kMaxSequenceNumber ->
  exists content' db' s', DoCompactionWork MakeInputIterator fuel mem_fuel options oldest db (make_CompactionState c) = Done (db', s', OK) /\
    (builder s' = None /\ input_version_ (compaction s') = input_version_ c) /\ compacted_level db c new snapshot content' db'.
Proof.
  intros Hst Himm Hsd Hc Ee Ecp Hrun Hns Hdist snapshot Hsnap. pose proof (ds_files _ _ _ _ _ Hst) as Hd.
  set (v := current_ (db_versions db)) in *. pose proof (df_version _ _ _ Hd) as Hv. change (version_ok content v) in Hv.
  pose proof (input_ok _ _ _ _ _ _ Hv Hc Hrun) as Hwr.
  destruct Hrun as [(input & n0 & Emk & Hi) Hs Hin _ _ Hfuel Hnext Hids Hroom]. pose proof (ck_level _ _ _ Hc) as Hlv.
  destruct (ck_version _ _ _ Hc) as (place & Ev). destruct (chosen_levels content v c Hv Hc) as (f0 & f1 & Hf0 & Hf1 & _).
  assert (Hlen : length ps = Z.to_nat kNumLevels).
  { destruct (df_set _ _ _ Hd) as (num & base & out & rs & m & (_ & _ & Hvf & _) & _). apply (vf_pointers _ Hvf). }
  assert (Hkey : key_fits key).
  { destruct (ck_edit _ _ _ Hc) as (key' & Ee' & Hk). rewrite Ee in Ee'. by injection Ee' as <-. }
  set (s0 := cs_with_snapshot (make_CompactionState c) snapshot : CompactionState (F := F) (P := P)).
  destruct (compaction_outputs options Hopt content ps db (length es) Hnext Hids es v c place snapshot Hv Ev ltac:(lia) (ck_grandparents _ _ _ Hc) Hwr (le_n _) Himm Hsd
    fuel mem_fuel db s0 input n0 (run_at_start ps db s0 Hd eq_refl eq_refl) eq_refl eq_refl (ck_pointers _ _ _ Hc) Hi Hfuel)
    as (input1 & db1 & s1 & input2 & db2 & s2 & chunks & E1 & E2 & Esd & Est & E3 & Hid & Hsv & Hfu).
  pose proof (idle_outputs _ _ _ _ _ _ _ _ Hid Hsv) as Houts.
  assert (Enext : vs_next_file_number (db_versions db2) < 2 ^ 64 - 1).
  { destruct (progress_next _ _ _ _ _ _ (id_progress _ _ _ _ _ _ _ Hid)) as [_ ->]. destruct (id_outputs _ _ _ _ _ _ _ Hid) as [Hw _].
    apply Forall2_length in Hw. lia. }
  destruct (InstallCompactionResults_spec options content ps db db2 s2 chunks c key es snapshot Hid Hc Ee Hkey Hs Hin (eq_sym Hsv)) as (db3 & s3 & E4 & Hinst); try done.
  { intros l files Hl. specialize (Hroom l files Hl). lia. }
  { by rewrite (install_versions options content ps db db2 s2 chunks Hid). }
  exists (new_content content db chunks), db3, s3. split; [|split; [|by eapply installed_state]].
  - unfold DoCompactionWork, NumLevelFiles. cbn [compaction make_CompactionState builder]. unfold kNumLevels.
    rewrite (proj2 (Z.leb_le 0 (level_ c))), (proj2 (Z.ltb_lt (level_ c) 7)) by lia. cbn [c_assert mbind outcome_bind].
    unfold NumFiles. fold v. rewrite (level_files_spec (db_versions db) _ f0) by (try lia; done). cbn [mbind outcome_bind].
    assert (Hne : f0 <> []).
    { intros ->. pose proof (ck_some _ _ _ Hc) as Hs0. destruct (inputs0_ c) as [|f l] eqn:Ein; [done|].
      assert (Hf : f ∈ []) by (eapply (ck_inputs0 _ _ _ Hc []); [done|rewrite Ein; by left]). by apply elem_of_nil in Hf. }
    rewrite (proj2 (Z.ltb_lt 0 _)) by (destruct f0; [done|simpl; lia]). cbn [c_assert mbind outcome_bind]. fold snapshot s0. change (compaction s0) with c.
    cbn [compaction make_CompactionState]. rewrite Emk. cbn [mbind outcome_bind]. rewrite E1. cbn [mbind outcome_bind]. rewrite E2. cbn [mbind outcome_bind]. rewrite Esd, andb_false_r.
    rewrite E3. cbn [mbind outcome_bind]. rewrite (bool_decide_eq_true_2 (OK = OK)), Est, (bool_decide_eq_true_2 (OK = OK)), E4 by done. cbn [mbind outcome_bind].
    by rewrite (bool_decide_eq_true_2 (OK = OK)) by done.
  - destruct (installed_compaction _ _ _ _ _ E4) as [-> Evs]. destruct Hfu as (i1 & t1 & o1 & p1 & Ecs). rewrite Evs, Ecs. split; [apply Hid|done].
Qed.

(** ** BackgroundCompaction *)

(** references do not matter to the files *)
Lemma db_files_refs content0 db older refs pending :
  db_files options content0 db ->
  db_files options content0 (db_with_files db (db_env db) (vs_with_versions (db_versions db) older (current_ (db_versions db)) refs (compact_pointer_ (db_versions db))) (db_tables db) pending).
Proof.
  intros [(num & base & out & rs & m & (Hdisk & Hdesc & [V1 V2 V3 V4] & Hm & Hp & [U1 U2 U3 U4 U5] & [N1 N2 N3 N4]) & Hlow) Hv Hc Hs].
  split; [|exact Hv|exact Hc|exact Hs]. exists num, base, out, rs, m. split; [|exact Hlow].
  split; [exact Hdisk|]. split; [exact Hdesc|]. split; [by split|]. split; [exact Hm|]. split; [exact Hp|]. split; by split.
Qed.

Lemma db_state_files db new db' content' :
  db_state options content' db [] new -> db_files options content' db' -> db_mem db' = db_mem db -> db_imm db' = None ->
  vs_last_sequence (db_versions db') = vs_last_sequence (db_versions db) -> current_ (db_versions db') = current_ (db_versions db) ->
  db_state options content' db' [] new.
Proof.
  intros [Hd Hmem Himm Hlast Hin Hmn] Hd' Em Ei El Ec. split; [done|by rewrite Em|by rewrite Ei|by rewrite El|by rewrite Ec|by rewrite Ec].
Qed.

(** a reference to the version of the place is given back *)
Lemma ReleaseInputs_spec vs (c : Compaction) (v : Version) refs older :
  input_version_ c = Some (length older, v) -> 1 <= refs -> older_ vs = older ++ [(refs, v)] ->
  exists vs' c', ReleaseInputs (F := F) vs c = Done (vs', c') /\
    exists older', vs' = vs_with_versions vs older' (current_ vs) (current_refs_ vs) (compact_pointer_ vs).
Proof.
  intros Ev Hr Eo. unfold ReleaseInputs. rewrite Ev, Eo, length_app, (proj2 (Nat.eqb_neq _ _)) by (simpl; lia).
  unfold Unref_older. rewrite Eo, lookup_app_r, Nat.sub_diag by lia. cbn [lookup list_lookup]. rewrite (proj2 (Z.leb_le _ _)) by lia.
  cbn [c_assert mbind outcome_bind]. eexists _, _. split; [reflexivity|]. by eexists.
Qed.

(** what a compaction leaves for the readers at [snapshot] or later *)
Record reads_kept db new (snapshot : Z) content' db' : Prop := {
  rk_state : db_state options content' db' [] new;
  rk_imm : db_imm db' = None;
  rk_adds a : a ∈ db_adds content' db' [] new -> a ∈ db_adds content db [] new;
  rk_reads : same_reads snapshot (db_adds content db [] new) (db_adds content' db' [] new) }.

Lemma run_compaction_spec fuel mem_fuel oldest ps db new c key es :
  db_state options content (at_manifest ps db) [] new -> db_imm db = None -> shutting_down_ db = false -> 2 <= current_refs_ (db_versions db) ->
  compaction_ok content (current_ (db_versions db)) c -> edit_ c = SetCompactPointer (level_ c) key make_VersionEdit ->
  input_version_ c = Some (length (older_ (db_versions db)), current_ (db_versions db)) ->
  compact_pointer_ (db_versions db) = <[Z.to_nat (level_ c) := key]> ps -> runnable options content fuel db c es ->
  no_split (current_ (db_versions db)) c -> distinct_seqs (db_adds content db [] new) ->
  let snapshot := default (vs_last_sequence (db_versions db)) oldest in
  snapshot < kMaxSequenceNumber ->
  exists content' db', run_compaction MakeInputIterator fuel mem_fuel options oldest db c = Done (db', OK) /\ reads_kept db new snapshot content' db'.
Proof.
  intros Hst Himm Hsd Href Hc Ee Ein Ecp Hrun Hns Hdist snapshot Hsnap.
  destruct (DoCompactionWork_spec fuel mem_fuel oldest ps db new c key es Hst Himm Hsd Hc Ee Ecp Hrun Hns Hdist Hsnap)
    as (content' & db1 & s1 & E1 & [Eb Ev] & [Hst1 Himm1 Hless Hreads Hdesc Hold]). fold snapshot in Hreads.
  rewrite (proj2 (Z.eqb_neq _ _)) in Hold by lia. unfold run_compaction. rewrite E1. cbn [mbind outcome_bind]. rewrite bool_decide_eq_true_2 by done.
  unfold CleanupCompaction. rewrite Eb. cbn [mbind outcome_bind]. set (pending := foldl _ _ _).
  destruct (ReleaseInputs_spec (db_versions db1) (compaction s1) (current_ (db_versions db)) (current_refs_ (db_versions db) - 1) (older_ (db_versions db)))
    as (vs2 & c2 & E2 & older' & Evs); [by rewrite Ev, Ein|lia|done|].
  cbn [db_versions db_env db_tables pending_outputs_ db_with_files db_with]. rewrite E2. cbn [mbind outcome_bind].
  eexists content', _. split; [reflexivity|]. set (db2 := db_with_files _ _ vs2 _ _).
  assert (Edb2 : db2 = db_with_files db1 (db_env db1) vs2 (db_tables db1) pending) by done. clearbody db2.
  assert (Hd2 : db_files options content' db2) by (rewrite Edb2, Evs; apply db_files_refs, Hst1).
  destruct (RemoveObsoleteFiles_files options content' db2 Hd2) as (Hd3 & Evs3 & _); [by rewrite Edb2, Evs|].
  destruct (RemoveObsoleteFiles_rest db2) as [Em3 Ei3]. assert (Hi3 : db_imm (RemoveObsoleteFiles db2) = None) by (by rewrite Ei3, Edb2).
  assert (Ec3 : current_ (db_versions (RemoveObsoleteFiles db2)) = current_ (db_versions db1)) by (by rewrite Evs3, Edb2, Evs).
  split; [|done|intros a; unfold db_adds; rewrite Ec3; apply Hless|by intros u t o Ht Ho; unfold db_adds; rewrite Ec3; apply Hreads].
  apply (db_state_files db1); [done|done|by rewrite Em3, Edb2|done|by rewrite Evs3, Edb2, Evs|done].
Qed.

(** the compaction asked for, if any, or else the one to pick *)
Definition asked (vs : VersionSet F) (size_level : option Z) (manual : option ManualCompaction) : Prop :=
  match manual with
  | Some m => 0 <= m_level m < 6 /\ (forall k, m_begin m = Some k -> 8 <= blen k) /\ (forall k, m_end m = Some k -> 8 <= blen k)
  | None => to_pick vs size_level /\ Forall (fun p => p = [] \/ ikey_ok p) (compact_pointer_ vs)
  end.
Definition choice (vs : VersionSet F) (size_level : option Z) (manual : option ManualCompaction) : outcome (VersionSet F * option Compaction) :=
  match manual with Some m => CompactRange vs (m_level m) (m_begin m) (m_end m) | None => PickCompaction vs size_level end.

Lemma choice_spec vs size_level manual :
  version_ok content (current_ vs) -> length (compact_pointer_ vs) = Z.to_nat kNumLevels ->
  asked vs size_level manual ->
  exists vs' o, choice vs size_level manual = Done (vs', o) /\ match o with Some c => picked content vs vs' c | None => vs' = vs end.
Proof.
  intros Hv Hl Ha. destruct manual as [m|]; cbn [choice asked] in *.
  - destruct Ha as (H1' & H2' & H3'). destruct (CompactRange_spec content vs Hv Hl (m_level m) (m_begin m) (m_end m) H1' H2' H3') as (vs' & o & -> & Ho).
    exists vs', o. split; [done|]. destruct o; [by destruct Ho|done].
  - destruct Ha as [Ha Hp]. destruct (PickCompaction_spec content vs Hv Hl size_level Ha Hp) as (vs' & o & -> & Ho). exists vs', o. split; [done|]. destruct o; [done|by destruct Ho].
Qed.

(** the compaction that is chosen can run, and is not a move *)
Definition can_compact fuel db (size_level : option Z) (manual : option ManualCompaction) : Prop :=
  forall vs' c, choice (db_versions db) size_level manual = Done (vs', Some c) ->
    let db' := db_with_files db (db_env db) vs' (db_tables db) (pending_outputs_ db) in
    (exists es, runnable options content fuel db' c es) /\ no_split (current_ vs') c /\ (manual = None -> IsTrivialMove vs' c = false).

Lemma BackgroundCompaction_spec fuel mem_fuel oldest size_level manual db new :
  db_state options content db [] new -> db_imm db = None -> shutting_down_ db = false -> 1 <= current_refs_ (db_versions db) ->
  asked (db_versions db) size_level manual ->
  can_compact fuel db size_level manual -> distinct_seqs (db_adds content db [] new) ->
  let snapshot := default (vs_last_sequence (db_versions db)) oldest in
  snapshot < kMaxSequenceNumber ->
  exists content' db' manual', BackgroundCompaction MakeInputIterator fuel mem_fuel options oldest size_level manual db = Done (db', manual') /\
    reads_kept db new snapshot content' db'.
Proof.
  intros Hst Himm Hsd Href Hask Hcan Hdist snapshot Hsnap. pose proof (ds_files _ _ _ _ _ Hst) as Hd. pose proof (df_version _ _ _ Hd) as Hv.
  assert (Hl : length (compact_pointer_ (db_versions db)) = Z.to_nat kNumLevels).
  { destruct (df_set _ _ _ Hd) as (num & base & out & rs & m & (_ & _ & Hvf & _) & _). apply (vf_pointers _ Hvf). }
  destruct (choice_spec (db_versions db) size_level manual Hv Hl Hask) as (vs' & o & Ech & Ho).
  unfold BackgroundCompaction. rewrite Himm. fold (choice (db_versions db) size_level manual). rewrite Ech. cbn [mbind outcome_bind].
  destruct o as [c|]; cycle 1.
  { subst vs'. replace (match manual with Some _ | _ => Done None end) with (Done (A := option bytes) None) by (by destruct manual).
    cbn [mbind outcome_bind]. eexists content, _, _. split; [reflexivity|]. split; [|done|done|by intros u t o Ht Ho; exists o].
    by destruct db. }
  destruct Ho as ((key & _ & Evs & Ee) & Ein & Hc). destruct (Hcan vs' c Ech) as ((es & Hrun) & Hns & Htriv).
  set (db1 := db_with_files _ _ vs' _ _) in *.
  assert (Elast : exists f, list.last (inputs0_ c) = Some f).
  { destruct (list.last (inputs0_ c)) as [f|] eqn:El; [by exists f|]. apply last_None in El. by destruct (ck_some _ _ _ Hc). }
  destruct Elast as (f & Elast).
  assert (Hst1 : db_state options content (at_manifest (compact_pointer_ (db_versions db)) db1) [] new).
  { apply (db_state_files db); try done; [|by unfold db1; rewrite Evs..].
    unfold at_manifest, db1. rewrite Evs.
    apply (db_files_refs content db (older_ (db_versions db)) (current_refs_ (db_versions db) + 1)), Hd. }
  destruct (run_compaction_spec fuel mem_fuel oldest (compact_pointer_ (db_versions db)) db1 new c key es Hst1 Himm Hsd) as (content' & db' & Erun & [Hk1 Hk2 Hk3 Hk4]);
    try done; try (unfold db1; rewrite Evs; done).
  { unfold db1. rewrite Evs. cbn. lia. }
  assert (Eno : bool_decide (manual = None) && IsTrivialMove (db_versions db1) c = false).
  { apply andb_false_iff. case_bool_decide as Em; [right; by apply Htriv|by left]. }
  assert (Emend : exists m_end', (match manual, Some c with
      | Some _, Some c => match list.last (inputs0_ c) with Some f => Done (Some (largest f)) | None => Undefined end
      | _, _ => Done None end) = Done m_end').
  { rewrite Elast. destruct manual; by eexists. }
  destruct Emend as (mend & Emend). cbn in Emend. rewrite Emend. cbn [mbind outcome_bind]. rewrite Eno, Erun. cbn [mbind outcome_bind].
  eexists content', db', _. split; [reflexivity|]. split; [done|done|intros a Ha; specialize (Hk3 a Ha); unfold db_adds, db1 in Hk3; by rewrite Evs in Hk3|].
  intros u t o Ht Ho. destruct (Hk4 u t o) as (o' & Ho' & Eo'); [unfold db1; by rewrite Evs|unfold db_adds, db1; by rewrite Evs|by exists o'].
Qed.

Lemma newest_exists es u s : exists o, newest_of es u s o.
Proof.
  induction es as [|a es (o & Ho)]; [exists None; by intros b ?%elem_of_nil|].
  destruct (decide (a_key a = u /\ a_seq a <= s)) as [[Hk Hs]|Hn].
  - destruct o as [b|].
    + destruct Ho as (Hb & Hkb & Hsb & Hmax). destruct (decide (a_seq b <= a_seq a)).
      * exists (Some a). split; [by left|]. split; [done|]. split; [done|]. intros c [->|Hc]%elem_of_cons Hkc Hsc; [done|].
        pose proof (Hmax c Hc Hkc Hsc). lia.
      * exists (Some b). split; [by right|]. split; [done|]. split; [done|]. intros c [->|Hc]%elem_of_cons Hkc Hsc; [lia|by apply Hmax].
    + exists (Some a). split; [by left|]. split; [done|]. split; [done|]. intros c [->|Hc]%elem_of_cons Hkc Hsc; [done|].
      pose proof (Ho c Hc Hkc). lia.
  - exists o. destruct o as [b|].
    + destruct Ho as (Hb & Hkb & Hsb & Hmax). split; [by right|]. split; [done|]. split; [done|].
      intros c [->|Hc]%elem_of_cons Hkc Hsc; [by destruct Hn|by apply Hmax].
    + intros c [->|Hc]%elem_of_cons Hkc; [destruct (Z.lt_ge_cases s (a_seq a)); [done|by destruct Hn]|by apply Ho].
Qed.

End Work.

(** ** A compaction to run *)

Section Example.
Existing Instance plain_machine.
Existing Instance plain_machine_ok.
Abbreviation ETable := (Table (R := bytes) (P := InternalFilterPolicy BloomFilterPolicy)).
Abbreviation EDB := (DB (E := gmap bytes bytes) (F := bytes * bytes) (P := BloomFilterPolicy)
  (CT := list (bytes * ETable)) (CB := list (bytes * Block))).
Context (content : Z -> list add) (db : EDB) (Hv : version_ok content (current_ (db_versions db))) (a : add).
Abbreviation v := (current_ (db_versions db)).
Context (Hone : forall b, b ∈ version_adds content v <-> b = a).

(** a version with one entry *)
Lemma one_entry_file l files f : files_ v !! l = Some files -> f ∈ files -> forall b, b ∈ content (number f) <-> b = a.
Proof.
  intros Hl Hf. pose proof (level_holds content v Hv l files f Hl Hf) as Hh.
  assert (Hsub : forall b, b ∈ content (number f) -> b = a) by (intros b Hb; apply Hone, elem_of_version_adds; by exists l, files, f).
  intros b. split; [apply Hsub|]. intros ->. destruct (file_bounds f _ Hh) as (x & _ & _ & _ & Hx & _). by rewrite <- (Hsub x Hx).
Qed.

Lemma one_entry_inputs c : compaction_ok content v c -> forall b, b ∈ input_adds content c <-> b = a.
Proof.
  intros Hc b. destruct (chosen_levels content v c Hv Hc) as (f0 & f1 & Hf0 & Hf1 & _). unfold input_adds. rewrite files_adds_app, elem_of_app, !elem_of_files_adds. split.
  - intros [(f & Hf & Hb)|(f & Hf & Hb)].
    + apply (one_entry_file _ f0 f Hf0); [by apply (ck_inputs0 _ _ _ Hc f0)|done].
    + destruct (ck_inputs1 _ _ _ Hc) as (lo & hi & _ & Hin). apply (one_entry_file _ f1 f Hf1); [by apply (Hin f1)|done].
  - intros ->. left. pose proof (ck_some _ _ _ Hc) as Hs. destruct (inputs0_ c) as [|f l] eqn:Ei; [done|]. exists f. split; [by left|].
    apply (one_entry_file _ f0 f Hf0); [apply (ck_inputs0 _ _ _ Hc f0); [done|]; rewrite Ei; by left|done].
Qed.

Lemma one_entry_split c : compaction_ok content v c -> no_split v c.
Proof.
  intros Hc files f g Hf Hfi Hg Hgn _. destruct (chosen_levels content v c Hv Hc) as (f0 & f1 & Hf0 & Hf1 & Hok & _).
  assert (f1 = files) as -> by congruence. destruct (ck_inputs1 _ _ _ Hc) as (lo & hi & _ & Hin). pose proof (proj1 (proj1 (Hin files Hf f) Hfi)) as Hff.
  pose proof (proj2 (one_entry_file _ files f Hf Hff a) eq_refl) as Haf. pose proof (proj2 (one_entry_file _ files g Hf Hg a) eq_refl) as Hag.
  apply list_elem_of_lookup in Hff as (i & Hi), Hg as (j & Hj). destruct (Nat.lt_trichotomy i j) as [Hij|[->|Hij]].
  - apply (add_cmp_irrefl a). by apply (level_entries content files i j f g a a).
  - apply Hgn. by assert (g = f) as -> by congruence.
  - apply (add_cmp_irrefl a). by apply (level_entries content files j i g f a a).
Qed.

(** the compaction of all of a level with files chooses some *)
Lemma all_of_level l files f vs' o :
  (l < 6)%nat -> files_ v !! l = Some files -> f ∈ files -> CompactRange (db_versions db) (Z.of_nat l) None None = Done (vs', o) -> is_Some o.
Proof.
  intros Hl Hf Hfi Ec. unfold CompactRange in Ec.
  destruct (GetOverlappingInputs_spec content v (Z.of_nat l) files None None) as (lo & hi & E & Hlo & Hhi & _);
    [unfold kNumLevels; lia|by rewrite Nat2Z.id|apply list.Forall_forall; intros g Hg; by eapply level_holds|done|done|].
  rewrite E in Ec. cbn [mbind outcome_bind] in Ec.
  assert (Hin : f ∈ filter (overlaps lo hi) files).
  { apply list_elem_of_filter. split; [|done]. destruct lo, hi; done. }
  destruct (filter (overlaps lo hi) files); [by apply elem_of_nil in Hin|].
  apply outcome_bind_done in Ec as ([vs1 c] & _ & [= _ <-]). by eexists.
Qed.
End Example.

Section Run.
Existing Instance plain_machine.
Existing Instance plain_machine_ok.
Abbreviation ETable := (Table (R := bytes) (P := InternalFilterPolicy BloomFilterPolicy)).
Abbreviation EDB := (DB (E := gmap bytes bytes) (F := bytes * bytes) (P := BloomFilterPolicy)
  (CT := list (bytes * ETable)) (CB := list (bytes * Block))).

(** the whole of a level *)
Definition whole_level (level : Z) : ManualCompaction := {| m_level := level; m_done := false; m_begin := None; m_end := None |}.

Lemma one_sorted es (a : add) : (forall b, b ∈ es <-> b = a) -> in_key_order es -> es = [a].
Proof.
  intros Hin Hs. destruct es as [|b [|c es]].
  - by destruct (proj1 (elem_of_nil a) (proj2 (Hin a) eq_refl)).
  - f_equal. apply Hin. by left.
  - assert (b = a) as -> by (apply Hin; by left). assert (c = a) as -> by (apply Hin; right; by left).
    apply StronglySorted_inv in Hs as [_ Hs]. apply list.Forall_cons in Hs as [Hs _]. by apply add_cmp_irrefl in Hs.
Qed.

(** a database with one table, and an iterator over its entry *)
Lemma example_compactable : exists (db : EDB) content imm l vs' c,
  db_state example_options content db [] [] /\ db_imm db = None /\ shutting_down_ db = false /\ current_refs_ (db_versions db) = 1 /\
  asked (db_versions db) None (Some (whole_level l)) /\
  can_compact (fun _ _ => Done (mem_NewIterator imm)) example_options content 1 db None (Some (whole_level l)) /\
  distinct_seqs (db_adds content db [] []) /\
  choice (db_versions db) None (Some (whole_level l)) = Done (vs', Some c).
Proof.
  destruct example_db as (imm & db0 & Hst0 & Hfl & Hsd0 & _ & Ecur & Enext & Eid). pose proof (ds_imm _ _ _ _ _ Hst0) as Himm0. rewrite (fl_imm _ _ _ _ _ Hfl) in Himm0.
  destruct (mem_list_exists _ _ Himm0) as (es & Hml & Hes).
  assert (es = [example_add]) as -> by (apply one_sorted; [intros b; by rewrite Hes, list_elem_of_singleton|apply Hml]).
  destruct (CompactMemTable_spec 1 example_options (fun _ => []) db0 imm [example_add] [] Hst0 Hfl Hsd0) as (content & db & _ & [Hst Himm Hadds _ _ Hids Hnext Hrefs Hsd Hlevels]).
  assert (Hold : forall l files', files_ (current_ (db_versions db)) !! l = Some files' -> (length files' <= 1)%nat /\ ((2 < l)%nat -> files' = [])).
  { intros l files' Hl. destruct (Hlevels l files' Hl) as (files & Hf & Hlen & Hp). rewrite Ecur in Hf. apply make_Version_lookup in Hf as ->.
    split; [done|]. intros Hd. by apply Permutation_nil_r, Hp. }
  pose proof (df_version _ _ _ (ds_files _ _ _ _ _ Hst)) as Hv.
  assert (Hone : forall b, b ∈ version_adds content (current_ (db_versions db)) <-> b = example_add).
  { intros b. specialize (Hadds b). unfold db_adds in Hadds. rewrite Ecur in Hadds. cbn [app] in Hadds. rewrite Hadds, elem_of_cons. split; [|by left].
    intros [->|(l & files & f & ->%make_Version_lookup & Hf & _)%elem_of_version_adds]; [done|by apply elem_of_nil in Hf]. }
  pose proof (proj2 (Hone example_add) eq_refl) as Hin. apply elem_of_version_adds in Hin as (l & files & f & Hl & Hf & _).
  assert (Hl2 : (l <= 2)%nat).
  { destruct (decide (2 < l)%nat) as [Hd|]; [|lia]. destruct (Hold l files Hl) as [_ Hnil]. rewrite (Hnil Hd) in Hf. by apply elem_of_nil in Hf. }
  assert (Hask : asked (db_versions db) None (Some (whole_level (Z.of_nat l)))) by (split; [cbn; lia|done]).
  assert (Hlp : length (compact_pointer_ (db_versions db)) = Z.to_nat kNumLevels).
  { destruct (df_set _ _ _ (ds_files _ _ _ _ _ Hst)) as (num & base & out & rs & m & (_ & _ & Hvf & _) & _). apply (vf_pointers _ Hvf). }
  destruct (choice_spec content (db_versions db) None (Some (whole_level (Z.of_nat l))) Hv Hlp Hask) as (vs' & o & Ech & _).
  destruct (all_of_level content db Hv l files f vs' o ltac:(lia) Hl Hf Ech) as (c & ->).
  exists db, content, imm, (Z.of_nat l), vs', c. do 5 (split; [done|]). split; [|split; [|done]].
  - intros vs1 c1 Ech1. destruct (choice_spec content (db_versions db) None (Some (whole_level (Z.of_nat l))) Hv Hlp Hask) as (vs2 & o & Ech2 & Ho).
    rewrite Ech1 in Ech2. injection Ech2 as <- <-. destruct Ho as ((key & _ & Evs & _) & _ & Hc). cbv zeta. split; [|split; [|done]].
    + exists [example_add]. split; cbn [db_versions db_tables db_with_files db_with].
      * eexists _, _. split; [done|]. by apply mem_NewIterator_at.
      * apply Hml.
      * intros b. rewrite (one_entry_inputs content db Hv example_add Hone c1 Hc), list_elem_of_singleton. done.
      * exact (fl_filter _ _ _ _ _ Hfl).
      * exact (fl_fits _ _ _ _ _ Hfl).
      * done.
      * rewrite Evs. cbn. rewrite Hnext, Enext. lia.
      * cbn. lia.
      * intros i fs Hi. rewrite Evs in Hi. destruct (Hold i fs Hi). cbn. lia.
    + rewrite Evs. apply (one_entry_split content db Hv example_add Hone c1 Hc).
  - intros b b' Hb Hb' _ _. apply Hone in Hb, Hb'. congruence.
Qed.

End Run.
